(* ===== verification/_CoqProject ===== *)
-Q . S2P
Prelude.v
MemAlloc.v
KProc.v
KQueues.v
KIpc.v
KKeeps.v
KIntr.v
KSys.v
KSystem.v
KTask.v
SysTask.v
Clock.v
Mmu.v
VduFont.v
Vdu.v
VduDraw.v
VduTerm.v
VduOk.v
Tty.v
TtyEdit.v
TtyRead.v
Boot.v
KRun.v
KSafe.v
Entry.v
Driver.v
Mem.v
Kbd.v
Profile.v
Floppy.v
MmState.v
MmProc.v
MmExec.v
MmTable.v
MmInv.v
MmDemo.v
MmCalls.v
MmWait.v
MmLoad.v
MmEdges.v
FsState.v
FsDev.v
FsCache.v
FsSort.v
FsDisk.v
FsCacheOk.v
FsBlocks.v
FsDemo.v
FsCacheSpec.v
FsSuper.v
FsBits.v
FsMap.v
FsInode.v
FsInodeOk.v
FsPath.v
FsNames.v
FsFile.v
FsOpen.v
FsLink.v
FsCalls.v
FsMain.v
FsScene.v
FsKept.v
FsFiles.v
