(* ===== verification/Prelude.v ===== *)
(** * Minix for the Apple Lisa: a verification development

    Minix 1.5 is a small Unix made of a message-passing kernel, drivers that
    are tasks inside the kernel, and two servers outside it: the memory
    manager (MM) and the file system (FS). A user's system call is a message
    to MM or FS; the servers ask the tasks, again by message, for what only
    the kernel can do. This library models the kernel's message system, its
    clock, system and terminal tasks, the drivers of the Lisa's screen,
    keyboard, hard disk and floppy disk and of memory, its memory management
    unit, and both servers, in the configuration the Lisa is built with
    ([MACHINE == LISA], [CHIP == M68000], [-mshort]).

    ** Conventions

    An [int] has 16 bits, a [long] 32, a [char] 8 (signed); block, zone and
    bit numbers are 16 bits unsigned. Integers are in [Z] and are wrapped with
    [u16], [s16], [u32], ... (below) at each conversion or operation that can
    leave its type. A pointer into a table is a slot number, [option]al where
    it may be nil; a structure is a record; a table is a list or a function.
    A routine has the name it has in C. Where the C code would panic, or read
    or write outside an array, the model returns a value of its own
    ([Panicked], [Fail], [None]), so that the theorems about a routine show
    where this cannot happen. The servers' routines are in a state and error
    monad ([MmState.MM], [FsState.FS]); the kernel's are functions on the
    kernel state.

    ** The parts

    - Physical memory. MemAlloc: [mm/alloc.c], the hole table as it is linked
      ([Impl]) and as a list of blocks ([Spec]), with the refinement of the
      first to the second.
    - The kernel's message system. KProc: [kernel/proc.c] and [cause_sig],
      [inform] of [kernel/system.c]. KQueues: the ready queues as lists.
      KIpc: the kernel invariant. KKeeps: frame lemmas. KIntr: held-up
      interrupts. KSys: the theorems.
    - The system task. KSystem: the handlers of [kernel/system.c], and
      [kernel/stshadow.c]. SysTask: the messages, the dispatch, [do_trace] over
      the bytes of a process table entry. KTask: theorems. KSafe: the kernel
      invariant between two calls of a task, and every request keeps it.
    - The clock. Clock: [kernel/clock.c] and its theorems.
    - The terminal. Tty: [kernel/tty.c], every request and interrupt of the
      terminal task, with the console of [kernel/lisa/lisacons.c] under it.
      TtyEdit: what erase, kill and end of line do to the input queue.
      TtyRead: readers and their lines.
    - The screen. VduFont: the font of [kernel/stfnt.c]. Vdu:
      [kernel/lisa/lisavdu.c], the VT100 that draws into the bitmap, byte by
      byte. VduDraw: the drawing routines on the bitmap. VduTerm: the terminal
      it stands for, an array of cells with a cursor. VduOk: the refinement.
    - The Lisa's MMU. Mmu: [kernel/lisa/lisammu.c], over the registers and
      latches that [lisampx.s] writes.
    - Start-up and entries. Boot: [main] of [kernel/lisa/lisamain.c] and the
      set-up of the devices, over the whole machine. KRun: what every routine
      of [proc.c] leaves as it was. Entry: [kernel/lisa/lisampx.s], [trap]
      and [checksp]: system calls, exceptions and interrupts as the steps of
      a transition system whose states are all that start-up reaches.
    - Disks and memory. Driver: the requests, [do_vrdwt] of [kernel/misc.c]
      and what a disk is (class [BlockDriver]). Mem: [kernel/memory.c]. Profile:
      [kernel/lisa/lisapro.c], down to the register accesses, over any device
      on the port (class [Port]) and over one that keeps to the ProFile's
      protocol (class [Drive]). Floppy: [kernel/lisa/lisafloppy.c] over any
      controller (class [Controller]).
    - The keyboard. Kbd: [kernel/lisa/lisakbd.c], every byte that the keyboard
      controller sends: keys, the mouse, the clock chip.
    - The memory manager. MmState: [mm/mproc.h], [glo.h], [param.h] and the
      interface [Outside] to the kernel and FS. MmProc: [break.c],
      [forkexit.c], [signal.c], [trace.c], [getset.c]. MmExec: [exec.c],
      [main.c], [table.c]. MmTable, MmInv: the invariant of the process table.
      MmCalls, MmWait, MmLoad, MmEdges: theorems. MmDemo: a scripted kernel
      and a small table for the examples.
    - The file system. FsState: [fs/*.h] and the interface [World] to the
      kernel, the drivers and the users' memory. FsDev: [device.c], [reply],
      [suspend], [revive]. FsCache: [cache.c]. FsSuper: [super.c] and the
      zones of [cache.c]. FsMap: positions to blocks ([read.c], [write.c]).
      FsInode: [inode.c]. FsPath: [path.c] and [protect.c]. FsFile:
      [filedes.c], [pipe.c], [read.c]. FsOpen: [open.c]. FsLink: [link.c].
      FsCalls: [protect.c], [misc.c], [mount.c], [stadir.c], [time.c]. FsMain:
      [main.c], [table.c]. FsSort, FsDisk, FsCacheOk, FsBlocks, FsCacheSpec:
      the theory of the block cache over any driver that keeps its blocks
      (class [Disk]). FsBits, FsInodeOk, FsNames, FsKept, FsFiles: theorems
      about bit maps, inodes, names and descriptors. FsDemo, FsScene: a disk
      in memory and a file system on it for the examples.

    The parts meet in the places where they meet in the system: [KTask.do_xit]
    is proved to keep the invariant that [KSys] proves of the message system;
    [KSafe] and [Entry] put the message system, the system task, start-up and
    the MMU together and prove one invariant of the whole kernel;
    [MmInv] uses the well-formedness of the hole list of [MemAlloc]; the maps,
    inodes and calls of FS go through [get_block] and [put_block] of FsCache
    and use only what FsBlocks shows of them. What crosses the boundary
    between two processes is the interface of a class: whatever the kernel
    answers to MM ([Outside]) or to FS ([World]), the invariants hold.

    ** What is shown

    - The kernel as a whole: from start-up on, whatever system calls,
      exceptions and interrupts come and whatever MM and FS ask of the system
      task, the kernel's invariant holds, nothing panics, and a user process
      sees its own image and nothing else.
    - Memory allocation: an allocated block was free and is not free
      afterwards, the lists stay sorted and coalesced, allocation and freeing
      are inverse, and no request fails that could be met; what the 16-bit
      arithmetic does with a request of 65535 clicks.
    - Message system: the kernel invariant is preserved by every entry from
      user and kernel mode; send and receive do exactly what is documented,
      in order of arrival; user processes can only call MM and FS; interrupts
      that arrive during a switch are delivered once; the scheduler refines
      lists.
    - MMU: after a switch the hardware maps exactly the image of the process;
      disjoint images cannot reach each other.
    - System task: fork, exit and [umap]; what a tracer sets it reads back,
      and which addresses lead it out of the process table; clock: alarms.
    - Screen: from start-up on, the bitmap shows exactly what an abstract
      terminal shows, scan line by scan line; which tabs end.
    - Terminal: a line typed at the console, with its corrections, is what
      the reader gets, whether the reader or the typist comes first.
    - Disks: the RAM disk and a partition of the hard disk do to their blocks
      exactly what requests say; any device on the port and any floppy
      controller, however it answers, get an answer out of the driver and touch
      no memory but the requester's buffer; blocks and sectors of a floppy.
    - Keyboard: the driver's state stands for the keyboard that the reports
      describe; typed text arrives; a clock reading sets the time of its date.
    - MM: the table stays consistent under every request; exit and wait meet
      in either order; the break and the new image; pids; identities.
    - FS: the block cache is a plain disk; the Shell sort sorts; bit maps,
      inodes and names are read and written faithfully; descriptors and their
      reference counts agree whatever has been called.

    ** Fuel and bounds

    Recursion that is not structural has fuel that a theorem shows to be
    enough, or that is a bound of the data: chains of a table have as many
    steps as the table has slots, and one to see the end (hole list 128,
    buffers 30, ready and caller queues 41); the search for a pid 65 tries;
    [cleanup] two levels; the loops of the file system count bytes, blocks or
    components and their fuel is computed from these counts. The drivers' waits
    poll as often as the code does ([BSY_WAIT], [READY_WAIT]) and end in the
    code's error; a wait for an interrupt ends with the alarm. Out of fuel is
    a failure, never a result.

    ** Not modelled

    - The RS-232 and printer drivers, which the Lisa's configuration leaves
      out; what drivers print; [set_name] and the dumps of the function keys;
      the boot block ([src/boot]) and the loader, which run before
      the kernel; all of the Atari ST's drivers ([st*.c], not compiled for the
      Lisa). Their effects are functions or classes that the model takes as
      arguments.
    - [putc.c] and [printk]: diagnostic output.
    - FS: [askdev], [fastload], [lastused], which are compiled only with
      options that are off.
    - The C library, the commands and the tests: user programs.
    - The tools that build the system and its disks on the host. *)

From stdpp Require Export base numbers list option strings sets gmap.

From Stdlib Require Export ZArith Lia.

#[global] Open Scope Z_scope.

(** ** Machine integers

    The system is compiled with 16-bit [int] ([-mshort]); [short] is 16 bits,
    [long] 32 bits, [char] 8 bits and signed. Integers are kept in [Z]; each C
    conversion or arithmetic result is wrapped to its width where it can
    leave it. *)
Definition u8 (z : Z) : Z := z mod 2 ^ 8.
Definition u16 (z : Z) : Z := z mod 2 ^ 16.
Definition u32 (z : Z) : Z := z mod 2 ^ 32.
Definition sx (w z : Z) : Z :=
  let r := z mod 2 ^ w in if r <? 2 ^ (w - 1) then r else r - 2 ^ w.
Definition s8 (z : Z) : Z := sx 8 z.
Definition s16 (z : Z) : Z := sx 16 z.
Definition s32 (z : Z) : Z := sx 32 z.

(** A C truth test of an integer. *)
Definition nz (z : Z) : bool := negb (z =? 0).

(** [x & mask] as a truth value, [x |= mask] and [x &= ~mask]. *)
Definition tst (x mask : Z) : bool := nz (Z.land x mask).
Definition bset (x mask : Z) : Z := Z.lor x mask.
Definition bclr (x mask : Z) : Z := Z.ldiff x mask.

Lemma nz_true z : nz z = true <-> z <> 0.
Proof. unfold nz. destruct (Z.eqb_spec z 0); naive_solver. Qed.
Lemma nz_false z : nz z = false <-> z = 0.
Proof. unfold nz. destruct (Z.eqb_spec z 0); naive_solver. Qed.

Lemma tst_bset x b m : tst (bset x b) m = tst x m || tst b m.
Proof.
  unfold tst, bset. rewrite Z.land_lor_distr_l. apply eq_true_iff_eq.
  rewrite orb_true_iff, !nz_true. pose proof (Z.lor_eq_0_iff (Z.land x m) (Z.land b m)).
  destruct (decide (Z.land x m = 0)); naive_solver.
Qed.
Lemma tst_bclr x b m : Z.land b m = 0 -> tst (bclr x b) m = tst x m.
Proof.
  intros H. unfold tst, bclr. f_equal. apply Z.bits_inj'. intros n Hn.
  rewrite !Z.land_spec, Z.ldiff_spec. apply (f_equal (fun z => Z.testbit z n)) in H.
  rewrite Z.land_spec, Z.bits_0 in H.
  destruct (Z.testbit x n), (Z.testbit b n), (Z.testbit m n); naive_solver.
Qed.
Lemma tst_bclr_same x b : tst (bclr x b) b = false.
Proof.
  unfold tst, bclr. apply nz_false. apply Z.bits_inj'. intros n Hn.
  rewrite Z.land_spec, Z.ldiff_spec, Z.bits_0. by destruct (Z.testbit x n), (Z.testbit b n).
Qed.
Lemma land_bit x n : 0 <= n -> Z.land x (2 ^ n) = if Z.testbit x n then 2 ^ n else 0.
Proof.
  intros Hn. apply Z.bits_inj'. intros k Hk. rewrite Z.land_spec, Z.pow2_bits_eqb by done.
  destruct (Z.eqb_spec n k) as [->|Hne].
  - destruct (Z.testbit x k); [by rewrite Z.pow2_bits_true|by rewrite Z.bits_0].
  - rewrite andb_false_r. destruct (Z.testbit x n); [by rewrite Z.pow2_bits_false|by rewrite Z.bits_0].
Qed.
Lemma tst_bit x n : 0 <= n -> tst x (2 ^ n) = Z.testbit x n.
Proof.
  intros Hn. unfold tst. rewrite land_bit by done. destruct (Z.testbit x n); [|done].
  apply nz_true. lia.
Qed.
Lemma tst_land x n : 0 <= n -> tst x (2 ^ n) = true -> Z.land x (2 ^ n) = 2 ^ n.
Proof. intros Hn H. rewrite tst_bit in H by done. by rewrite land_bit, H. Qed.
Lemma tst_0 m : tst 0 m = false.
Proof. done. Qed.
Lemma tst_nonzero x m : tst x m = true -> x <> 0.
Proof. intros H ->. by rewrite tst_0 in H. Qed.
Lemma bset_nonzero x b : b <> 0 -> bset x b <> 0.
Proof. unfold bset. intros H [_ ?]%Z.lor_eq_0_iff. done. Qed.

Lemma u8_range v : 0 <= u8 v < 256.
Proof. unfold u8. apply Z.mod_pos_bound. lia. Qed.
Lemma u16_range z : 0 <= u16 z < 65536.
Proof. unfold u16. apply Z.mod_pos_bound. lia. Qed.

Lemma u16_id z : 0 <= z < 65536 -> u16 z = z.
Proof. intros. unfold u16. apply Z.mod_small. lia. Qed.

Lemma u32_id z : 0 <= z < 4294967296 -> u32 z = z.
Proof. intros. unfold u32. apply Z.mod_small. lia. Qed.

(** [lia] with divisions and remainders by constants. *)
Ltac zlia := Z.div_mod_to_equations; lia.

Lemma s16_id z : - 2 ^ 15 <= z < 2 ^ 15 -> s16 z = z.
Proof. intros Hz. unfold s16, sx. change (16 - 1) with 15. destruct (Z.ltb_spec (z mod 2 ^ 16) (2 ^ 15)); zlia. Qed.
Lemma s32_id z : - 2 ^ 31 <= z < 2 ^ 31 -> s32 z = z.
Proof. intros Hz. unfold s32, sx. change (32 - 1) with 31. destruct (Z.ltb_spec (z mod 2 ^ 32) (2 ^ 31)); zlia. Qed.

(** ** Record update

    [r <| f := v |>] is [r] with field [f] replaced. A record type is made
    updatable by one [Updatable] instance, the record rebuilt from its
    projections; the setter of a field is found by abstracting that field's
    projection. *)
Class Updatable (R : Type) := rebuild : R -> R.
Class Setter {R T : Type} (f : R -> T) := set_field : (T -> T) -> R -> R.
Arguments set_field {R T} f {_} _ _.
#[global] Typeclasses Opaque Updatable Setter.

Ltac find_setter :=
  lazymatch goal with
  | |- @Setter ?R ?T ?proj =>
      let e := constr:(_ : Updatable R) in
      let body := eval hnf in e in
      let abst := eval pattern proj in body in
      lazymatch abst with
      | ?g _ => exact (fun (upd : T -> T) => g (fun r : R => upd (proj r)))
      end
  end.
#[export] Hint Extern 1 (Setter _) => find_setter : typeclass_instances.

Declare Scope c_scope.
Delimit Scope c_scope with C.
Notation "r <| f := v |>" := (set_field f (fun _ => v) r)
  (at level 1, left associativity, format "r <| f := v |>") : c_scope.
Notation "r <| f ::= g |>" := (set_field f g r)
  (at level 1, left associativity, format "r <| f ::= g |>") : c_scope.
#[global] Open Scope c_scope.

(** ** A monad for C functions

    A C function over a global state [S] is a function [M S A]: it returns a
    value and the new state ([Done]), calls [panic] and never returns
    ([Panicked], with the message), or runs out of the fuel given to its loops
    ([NoFuel]). [x ← m; k] and [m;; k] are stdpp's monad notations. *)
Inductive outcome (S A : Type) : Type :=
| Done (a : A) (s : S)
| Panicked (why : string) (s : S)
| NoFuel.
Arguments Done {S A} _ _.
Arguments Panicked {S A} _ _.
Arguments NoFuel {S A}.

Definition M (S A : Type) : Type := S -> outcome S A.

#[export] Instance M_ret S : MRet (M S) := fun A a s => Done a s.
#[export] Instance M_bind S : MBind (M S) := fun A B k m s =>
  match m s with
  | Done a s' => k a s'
  | Panicked w s' => Panicked w s'
  | NoFuel => NoFuel
  end.

Definition gets {S A} (f : S -> A) : M S A := fun s => Done (f s) s.
Definition modify {S} (f : S -> S) : M S unit := fun s => Done tt (f s).
Definition panic {S A} (why : string) : M S A := fun s => Panicked why s.
Definition nofuel {S A} : M S A := fun _ => NoFuel.
Definition when {S} (b : bool) (m : M S unit) : M S unit :=
  if b then m else mret tt.

(** A C loop over a fixed list of indices. *)
Fixpoint for_each {S A} (l : list A) (body : A -> M S unit) : M S unit :=
  match l with
  | [] => mret tt
  | x :: l' => body x;; for_each l' body
  end.

(** Run a function on a part of the state. *)
Definition zoom {S T A} (get : S -> T) (put : T -> S -> S) (m : M T A) : M S A :=
  fun s => match m (get s) with
           | Done a t => Done a (put t s)
           | Panicked w t => Panicked w (put t s)
           | NoFuel => NoFuel
           end.

(** ** Weakest preconditions (total correctness)

    [wp m Q s]: started in [s], [m] returns (no panic, no lack of fuel) and
    the result and the final state satisfy [Q]. *)
Definition wp {S A} (m : M S A) (Q : A -> S -> Prop) (s : S) : Prop :=
  match m s with Done a s' => Q a s' | _ => False end.

(** [wlp m Q s]: if [m] returns, [Q] holds; used where the code may panic. *)
Definition wlp {S A} (m : M S A) (Q : A -> S -> Prop) (s : S) : Prop :=
  match m s with Done a s' => Q a s' | _ => True end.

Section wp.
Context {S : Type}.
Implicit Types s : S.

Lemma wp_ret {A} (a : A) Q s : Q a s -> wp (mret a : M S A) Q s.
Proof. done. Qed.
Lemma wp_gets {A} (f : S -> A) Q s : Q (f s) s -> wp (gets f) Q s.
Proof. done. Qed.
Lemma wp_modify (f : S -> S) Q s : Q tt (f s) -> wp (modify f) Q s.
Proof. done. Qed.
Lemma wp_bind {A B} (m : M S A) (k : A -> M S B) Q s :
  wp m (fun a s' => wp (k a) Q s') s -> wp (m ≫= k) Q s.
Proof. unfold wp, mbind, M_bind. by destruct (m s). Qed.
Lemma wp_bind_inv {A B} (m : M S A) (k : A -> M S B) Q s :
  wp (m ≫= k) Q s -> wp m (fun a s' => wp (k a) Q s') s.
Proof. unfold wp, mbind, M_bind. by destruct (m s). Qed.
Lemma wp_mono {A} (m : M S A) (Q Q' : A -> S -> Prop) s :
  wp m Q s -> (forall a s', Q a s' -> Q' a s') -> wp m Q' s.
Proof. unfold wp. destruct (m s); naive_solver. Qed.
Lemma wp_when b (m : M S unit) Q s :
  (b = true -> wp m Q s) -> (b = false -> Q tt s) -> wp (when b m) Q s.
Proof. intros H1 H2. destruct b; [by apply H1|by apply H2]. Qed.
Lemma wp_zoom {T A} (get : S -> T) put (m : M T A) Q s :
  wp m (fun a t => Q a (put t s)) (get s) -> wp (zoom get put m) Q s.
Proof. unfold wp, zoom. by destruct (m (get s)). Qed.
Lemma wp_run {A} (m : M S A) Q s :
  wp m Q s <-> exists a s', m s = Done a s' /\ Q a s'.
Proof. unfold wp. destruct (m s); naive_solver. Qed.
Lemma wp_wlp {A} (m : M S A) Q s : wp m Q s -> wlp m Q s.
Proof. unfold wp, wlp. by destruct (m s). Qed.

Lemma wlp_ret {A} (a : A) Q s : Q a s -> wlp (mret a : M S A) Q s.
Proof. done. Qed.
Lemma wlp_gets {A} (f : S -> A) Q s : Q (f s) s -> wlp (gets f) Q s.
Proof. done. Qed.
Lemma wlp_modify (f : S -> S) Q s : Q tt (f s) -> wlp (modify f) Q s.
Proof. done. Qed.
Lemma wlp_panic {A} w (Q : A -> S -> Prop) s : wlp (panic w) Q s.
Proof. done. Qed.
Lemma wlp_bind {A B} (m : M S A) (k : A -> M S B) Q s :
  wlp m (fun a s' => wlp (k a) Q s') s -> wlp (m ≫= k) Q s.
Proof. unfold wlp, mbind, M_bind. by destruct (m s). Qed.
Lemma wlp_mono {A} (m : M S A) (Q Q' : A -> S -> Prop) s :
  wlp m Q s -> (forall a s', Q a s' -> Q' a s') -> wlp m Q' s.
Proof. unfold wlp. destruct (m s); naive_solver. Qed.
Lemma wlp_when b (m : M S unit) Q s :
  (b = true -> wlp m Q s) -> (b = false -> Q tt s) -> wlp (when b m) Q s.
Proof. intros H1 H2. destruct b; [by apply H1|by apply H2]. Qed.
Lemma wlp_zoom {T A} (get : S -> T) put (m : M T A) Q s :
  wlp m (fun a t => Q a (put t s)) (get s) -> wlp (zoom get put m) Q s.
Proof. unfold wlp, zoom. by destruct (m (get s)). Qed.
End wp.

(** ** Termination up to panic

    [tp m Q s]: [m] never runs out of fuel; it either panics or returns with
    [Q]. Used where whether the code panics depends on other programs. *)
Definition tp {S A} (m : M S A) (Q : A -> S -> Prop) (s : S) : Prop :=
  match m s with Done a s' => Q a s' | Panicked _ _ => True | NoFuel => False end.

Section tp.
Context {S : Type}.
Implicit Types s : S.

Lemma tp_ret {A} (a : A) Q s : Q a s -> tp (mret a : M S A) Q s.
Proof. done. Qed.
Lemma tp_gets {A} (f : S -> A) Q s : Q (f s) s -> tp (gets f) Q s.
Proof. done. Qed.
Lemma tp_modify (f : S -> S) Q s : Q tt (f s) -> tp (modify f) Q s.
Proof. done. Qed.
Lemma tp_panic {A} w (Q : A -> S -> Prop) s : tp (panic w) Q s.
Proof. done. Qed.
Lemma tp_bind {A B} (m : M S A) (k : A -> M S B) Q s :
  tp m (fun a s' => tp (k a) Q s') s -> tp (m ≫= k) Q s.
Proof. unfold tp, mbind, M_bind. by destruct (m s). Qed.
Lemma tp_mono {A} (m : M S A) (Q Q' : A -> S -> Prop) s :
  tp m Q s -> (forall a s', Q a s' -> Q' a s') -> tp m Q' s.
Proof. unfold tp. destruct (m s); naive_solver. Qed.
Lemma tp_when b (m : M S unit) Q s :
  (b = true -> tp m Q s) -> (b = false -> Q tt s) -> tp (when b m) Q s.
Proof. intros H1 H2. destruct b; [by apply H1|by apply H2]. Qed.
Lemma tp_zoom {T A} (get : S -> T) put (m : M T A) Q s :
  tp m (fun a t => Q a (put t s)) (get s) -> tp (zoom get put m) Q s.
Proof. unfold tp, zoom. by destruct (m (get s)). Qed.
Lemma wp_tp {A} (m : M S A) Q s : wp m Q s -> tp m Q s.
Proof. unfold wp, tp. by destruct (m s). Qed.
End tp.

(** ** What a function leaves alone

    [keeps R m]: whatever happens, [m] relates the state it starts in to the
    one it ends in by [R]. Proved by going over the text of [m]; used for the
    parts of a state that a component does not touch. *)
Definition keeps {S A} (R : S -> S -> Prop) (m : M S A) : Prop :=
  forall s, match m s with Done _ s' => R s s' | Panicked _ s' => R s s' | NoFuel => True end.

Section keeps.
Context {S : Type} (R : S -> S -> Prop) `{!PreOrder R}.

Lemma keeps_ret {A} (a : A) : keeps R (mret a : M S A).
Proof. intros s. cbn. reflexivity. Qed.
Lemma keeps_gets {A} (f : S -> A) : keeps R (gets f).
Proof. intros s. cbn. reflexivity. Qed.
Lemma keeps_panic {A} w : keeps R (panic w : M S A).
Proof. intros s. cbn. reflexivity. Qed.
Lemma keeps_nofuel {A} : keeps R (nofuel : M S A).
Proof. done. Qed.
Lemma keeps_modify (f : S -> S) : (forall s, R s (f s)) -> keeps R (modify f).
Proof. intros H s. apply H. Qed.
Lemma keeps_bind {A B} (m : M S A) (k : A -> M S B) :
  keeps R m -> (forall a, keeps R (k a)) -> keeps R (m ≫= k).
Proof.
  intros Hm Hk s. specialize (Hm s). unfold mbind, M_bind. destruct (m s) as [a s1|w s1|]; try done.
  specialize (Hk a s1). destruct (k a s1); [|..]; try done; by transitivity s1.
Qed.
Lemma keeps_when b (m : M S unit) : keeps R m -> keeps R (when b m).
Proof. destruct b; [done|]. intros _. apply keeps_ret. Qed.
Lemma wp_keeps {A} (m : M S A) (Q : A -> S -> Prop) s :
  keeps R m -> wp m Q s -> wp m (fun a s' => Q a s' /\ R s s') s.
Proof. intros Hk. specialize (Hk s). unfold wp. by destruct (m s). Qed.
End keeps.

Create HintDb keeps_db.
#[export] Hint Resolve keeps_ret keeps_gets keeps_panic keeps_nofuel : keeps_db.

(** Go over the text of a function; [modify] steps are left to the hints. *)
Ltac keeps_auto :=
  repeat (intros; cbv beta zeta iota;
    lazymatch goal with
    | |- keeps _ (mbind _ _) => apply keeps_bind; [try apply _| |]
    | |- keeps _ (mret _) => apply keeps_ret; try apply _
    | |- keeps _ (gets _) => apply keeps_gets; try apply _
    | |- keeps _ (panic _) => apply keeps_panic; try apply _
    | |- keeps _ nofuel => apply keeps_nofuel
    | |- keeps _ (when _ _) => apply keeps_when; [try apply _|]
    | |- keeps _ (match ?x with _ => _ end) => destruct x
    | |- keeps _ _ => solve [eauto with keeps_db]
    end).

Create HintDb wp_db.
#[export] Hint Resolve tp_ret tp_gets tp_modify tp_panic wp_ret wp_gets wp_modify wlp_ret wlp_gets wlp_modify wlp_panic : wp_db.

(** One symbolic step of a function body. *)
Ltac wp_step :=
  lazymatch goal with
  | |- wp (mbind _ _) _ _ => apply wp_bind
  | |- wp (mret _) _ _ => apply wp_ret
  | |- wp (gets _) _ _ => apply wp_gets
  | |- wp (modify _) _ _ => apply wp_modify
  | |- wp (zoom _ _ _) _ _ => apply wp_zoom
  | |- tp (mbind _ _) _ _ => apply tp_bind
  | |- tp (mret _) _ _ => apply tp_ret
  | |- tp (gets _) _ _ => apply tp_gets
  | |- tp (modify _) _ _ => apply tp_modify
  | |- tp (panic _) _ _ => apply tp_panic
  | |- tp (zoom _ _ _) _ _ => apply tp_zoom
  | |- wlp (mbind _ _) _ _ => apply wlp_bind
  | |- wlp (mret _) _ _ => apply wlp_ret
  | |- wlp (gets _) _ _ => apply wlp_gets
  | |- wlp (modify _) _ _ => apply wlp_modify
  | |- wlp (panic _) _ _ => apply wlp_panic
  | |- wlp (zoom _ _ _) _ _ => apply wlp_zoom
  end.
Ltac wp_steps := cbn beta iota; repeat (wp_step; cbn beta iota).

(** ** Linked lists through a table

    Several tables of the system link their slots into lists: holes, ready
    and caller queues, the buffer cache's LRU and hash chains. A pointer to a
    slot is [option nat] ([None] for the nil pointer) and [lseg nxt p l q] says
    that following the link [nxt] from [p] visits the slots [l] and then
    reaches [q]. *)
Fixpoint lseg (nxt : nat -> option nat) (p : option nat) (l : list nat)
    (q : option nat) : Prop :=
  match l with
  | [] => p = q
  | i :: l' => p = Some i /\ lseg nxt (nxt i) l' q
  end.

Abbreviation llist nxt p l := (lseg nxt p l None).

Section lseg.
Implicit Types (nxt : nat -> option nat) (p q r : option nat) (l : list nat).

Lemma lseg_app nxt p l1 l2 r :
  lseg nxt p (l1 ++ l2) r <-> exists q, lseg nxt p l1 q /\ lseg nxt q l2 r.
Proof.
  revert p. induction l1 as [|i l1 IH]; intros p; simpl; [naive_solver|].
  rewrite IH. naive_solver.
Qed.

Lemma lseg_snoc nxt p l i r :
  lseg nxt p (l ++ [i]) r <-> lseg nxt p l (Some i) /\ nxt i = r.
Proof. rewrite lseg_app. simpl. naive_solver. Qed.

(** Changing links outside the list leaves it alone. *)
Lemma lseg_frame nxt nxt' p l q :
  (forall i, i ∈ l -> nxt' i = nxt i) -> lseg nxt p l q -> lseg nxt' p l q.
Proof.
  revert p. induction l as [|i l IH]; intros p Hf; simpl; [done|].
  intros [-> H]. split; [done|]. rewrite Hf by set_solver.
  apply IH; [set_solver|done].
Qed.

Lemma llist_nil nxt l : llist nxt None l -> l = [].
Proof. by destruct l; simpl; [|intros [? ?]]. Qed.

Lemma llist_some nxt i l : llist nxt (Some i) l ->
  exists l', l = i :: l' /\ llist nxt (nxt i) l'.
Proof. destruct l as [|j l]; simpl; [done|]. intros [[= ->] ?]. eauto. Qed.

Lemma llist_inj nxt p l1 l2 : llist nxt p l1 -> llist nxt p l2 -> l1 = l2.
Proof.
  revert p l2. induction l1 as [|i l1 IH]; intros p l2; simpl.
  - intros ->. intros H. symmetry. by eapply llist_nil.
  - intros [-> H1] H2. apply llist_some in H2 as (l' & -> & H2).
    f_equal. eauto.
Qed.

Lemma lseg_head nxt p i l q : lseg nxt p (i :: l) q -> p = Some i.
Proof. by intros [-> _]. Qed.

(** Taking slot [h] out of a list: its predecessor (or the head, if it has
    none) gets its link. *)
Lemma lseg_unlink nxt nxt' p p' l1 h l2 q :
  lseg nxt p (l1 ++ h :: l2) q -> NoDup (l1 ++ h :: l2) ->
  (forall j, last l1 = Some j -> nxt' j = nxt h) ->
  (forall j, j ∈ l1 ++ l2 -> last l1 <> Some j -> nxt' j = nxt j) ->
  (p' = match l1 with [] => nxt h | _ => p end) ->
  lseg nxt' p' (l1 ++ l2) q.
Proof.
  intros Hl Hnd Hlast Hoth ->. apply NoDup_app in Hnd as (Hnd1 & Hdis & Hnd2).
  apply NoDup_cons in Hnd2 as [Hh Hnd2].
  apply lseg_app in Hl as (r & Hl1 & [-> Hl2]).
  destruct l1 as [|x l1 _] using rev_ind.
  - eapply lseg_frame; [|exact Hl2]. intros; apply Hoth; [set_solver|done].
  - rewrite last_snoc in *. apply lseg_snoc in Hl1 as [Hl1 Hx].
    apply NoDup_app in Hnd1 as (Hnd1 & Hdis1 & _).
    replace (match l1 ++ [x] with [] => nxt h | _ => p end) with p by (by destruct l1).
    rewrite <- app_assoc. apply lseg_app. exists (Some x). split.
    + eapply lseg_frame; [|exact Hl1]. intros; apply Hoth; [set_solver|].
      intros [= <-]. set_solver.
    + split; [done|]. rewrite Hlast by done.
      eapply lseg_frame; [|exact Hl2]. intros; apply Hoth; [set_solver|].
      intros [= <-]. set_solver.
Qed.

(** Linking slot [h] in between [l1] and [l2]. *)
Lemma lseg_link nxt nxt' p p' l1 h l2 q r :
  lseg nxt p l1 r -> lseg nxt r l2 q -> NoDup l1 -> h ∉ l1 ++ l2 ->
  (forall j, j ∈ l1 -> j ∉ l2) ->
  nxt' h = r ->
  (forall j, last l1 = Some j -> nxt' j = Some h) ->
  (forall j, j ∈ l1 ++ l2 -> last l1 <> Some j -> nxt' j = nxt j) ->
  (p' = match l1 with [] => Some h | _ => p end) ->
  lseg nxt' p' (l1 ++ h :: l2) q.
Proof.
  intros Hl1 Hl2 Hnd1 Hh Hdis Hnh Hlast Hoth ->.
  assert (Hl2' : lseg nxt' (nxt' h) l2 q).
  { rewrite Hnh. eapply lseg_frame; [|exact Hl2].
    intros j Hj. apply Hoth; [set_solver|].
    intros Hlj%last_Some_elem_of. set_solver. }
  destruct l1 as [|x l1 _] using rev_ind; [by split|].
  rewrite last_snoc in *. apply lseg_snoc in Hl1 as [Hl1 Hx].
  apply NoDup_app in Hnd1 as (Hnd1 & Hdis1 & _).
  replace (match l1 ++ [x] with [] => Some h | _ => p end) with p by (by destruct l1).
  rewrite <- app_assoc. apply lseg_app. exists (Some x). split.
  - eapply lseg_frame; [|exact Hl1]. intros; apply Hoth; [set_solver|].
    intros [= <-]. set_solver.
  - split; [done|]. rewrite Hlast by done. by split.
Qed.
End lseg.

(** ** Tables

    A C array of structs is a list; [tbl !!! i] reads slot [i] and [alter]
    updates it in place. *)
Section table.
Context {A : Type} `{!Inhabited A}.
Implicit Types (t : list A) (f : A -> A) (i j : nat).

Lemma tbl_alter_eq t f i : (i < length t)%nat -> alter f i t !!! i = f (t !!! i).
Proof.
  intros H. apply lookup_lt_is_Some in H as [x Hx].
  apply list_lookup_total_correct. rewrite list_lookup_alter.
  rewrite (list_lookup_total_correct _ _ _ Hx), decide_True, Hx by done. done.
Qed.
Lemma tbl_alter_ne t f i j : i <> j -> alter f i t !!! j = t !!! j.
Proof. intros. by apply list_lookup_total_alter_ne. Qed.
Lemma tbl_alter_proj {B} (p : A -> B) t f i j :
  (forall x, p (f x) = p x) -> p (alter f i t !!! j) = p (t !!! j).
Proof.
  intros Hp. destruct (decide (i = j)) as [->|]; [|by rewrite tbl_alter_ne].
  destruct (decide (j < length t)%nat).
  - rewrite tbl_alter_eq by done. apply Hp.
  - rewrite !list_lookup_total_alt, list_lookup_alter, decide_True by done.
    rewrite lookup_ge_None_2 by lia. done.
Qed.
End table.
#[export] Hint Rewrite @length_alter : tbl_db.
#[export] Hint Resolve Forall_nil_2 : core.
