(* ===== verification/MemAlloc.v ===== *)
(** * Physical memory allocation: [src/mm/alloc.c]

    The hole table of the memory manager: 128 slots, each either on the list
    of holes (sorted by address) or on the list of unused slots, both linked
    through [h_next]. [Impl] is the pointer program; [Spec] is allocation on a
    list of (base, length) pairs; [Impl] is shown to refine [Spec], and [Spec]
    to keep the holes sorted, disjoint, coalesced and page aligned and to give
    out only memory that was free. *)

From S2P Require Import Prelude.

Definition NR_HOLES : nat := 128.
Definition NO_MEM : Z := 0.

(** [(clicks + 1) & ~1] on [phys_clicks] (unsigned, 16 bits). *)
Definition even_clicks (clicks : Z) : Z := Z.land (u16 (clicks + 1)) 65534.

Module Impl.

Record hole := mk_hole {
  h_base : Z;
  h_len : Z;
  h_next : option nat;
}.
#[export] Instance hole_upd : Updatable hole :=
  fun h => mk_hole (h_base h) (h_len h) (h_next h).
#[export] Instance hole_inh : Inhabited hole := populate (mk_hole 0 0 None).

Record hole_table := mk_table {
  hole_tbl : list hole;
  hole_head : option nat;
  free_slots : option nat;
}.
#[export] Instance hole_table_upd : Updatable hole_table :=
  fun t => mk_table (hole_tbl t) (hole_head t) (free_slots t).

Definition slot (i : nat) (t : hole_table) : hole := hole_tbl t !!! i.
Definition upd_slot (i : nat) (f : hole -> hole) : M hole_table unit :=
  modify (fun t => t <| hole_tbl ::= alter f i |>).

(** Dereferencing the nil pointer is undefined; it is shown not to happen. *)
Definition del_slot (prev_ptr : option nat) (hp : nat) : M hole_table unit :=
  head ← gets hole_head;
  next ← gets (fun t => h_next (slot hp t));
  (if decide (head = Some hp)
   then modify (fun t => t <| hole_head := next |>)
   else match prev_ptr with
        | Some p => upd_slot p (fun h => h <| h_next := next |>)
        | None => panic "nil prev_ptr"
        end);;
  fs ← gets free_slots;
  upd_slot hp (fun h => h <| h_next := fs |>);;
  modify (fun t => t <| free_slots := Some hp |>).

Fixpoint alloc_loop (fuel : nat) (clicks : Z) (prev_ptr hp : option nat)
    : M hole_table Z :=
  match fuel with
  | O => nofuel
  | S fuel' =>
      match hp with
      | None => mret NO_MEM
      | Some i =>
          h ← gets (slot i);
          if Z.odd (h_base h) then alloc_loop fuel' clicks hp (h_next h)
          else if clicks <=? h_len h then
            let old_base := h_base h in
            upd_slot i (fun h => h <| h_base := u16 (h_base h + clicks) |>);;
            upd_slot i (fun h => h <| h_len := u16 (h_len h - clicks) |>);;
            len ← gets (fun t => h_len (slot i t));
            if nz len then mret old_base
            else del_slot prev_ptr i;; mret old_base
          else alloc_loop fuel' clicks hp (h_next h)
      end
  end.

Definition alloc_mem (clicks : Z) : M hole_table Z :=
  let clicks := even_clicks clicks in
  head ← gets hole_head;
  alloc_loop (S NR_HOLES) clicks None head.

Definition merge_step (hp next_ptr : nat) : M hole_table nat :=
  h ← gets (slot hp);
  n ← gets (slot next_ptr);
  if u16 (h_base h + h_len h) =? h_base n then
    upd_slot hp (fun h => h <| h_len := u16 (h_len h + h_len n) |>);;
    del_slot (Some hp) next_ptr;;
    mret hp
  else mret next_ptr.

Definition merge (hp : nat) : M hole_table unit :=
  next_ptr ← gets (fun t => h_next (slot hp t));
  match next_ptr with
  | None => mret tt
  | Some next =>
      hp' ← merge_step hp next;
      next_ptr' ← gets (fun t => h_next (slot hp' t));
      match next_ptr' with
      | None => mret tt
      | Some next' => merge_step hp' next';; mret tt
      end
  end.

Fixpoint free_loop (fuel : nat) (base : Z) (prev_ptr hp : option nat)
    : M hole_table (option nat) :=
  match fuel with
  | O => nofuel
  | S fuel' =>
      match hp with
      | None => mret prev_ptr
      | Some i =>
          h ← gets (slot i);
          if h_base h <? base then free_loop fuel' base hp (h_next h)
          else mret prev_ptr
      end
  end.

Definition free_mem (base clicks : Z) : M hole_table unit :=
  let clicks := even_clicks clicks in
  fs ← gets free_slots;
  match fs with
  | None => panic "Hole table full"
  | Some new_ptr =>
      upd_slot new_ptr (fun h => h <| h_base := base |>);;
      upd_slot new_ptr (fun h => h <| h_len := clicks |>);;
      next ← gets (fun t => h_next (slot new_ptr t));
      modify (fun t => t <| free_slots := next |>);;
      hp ← gets hole_head;
      front ← gets (fun t => match hp with
                             | None => true
                             | Some i => base <=? h_base (slot i t)
                             end);
      if (front : bool) then
        upd_slot new_ptr (fun h => h <| h_next := hp |>);;
        modify (fun t => t <| hole_head := Some new_ptr |>);;
        merge new_ptr
      else
        prev_ptr ← free_loop (S NR_HOLES) base None hp;
        match prev_ptr with
        | None => panic "nil prev_ptr"
        | Some prev =>
            pnext ← gets (fun t => h_next (slot prev t));
            upd_slot new_ptr (fun h => h <| h_next := pnext |>);;
            upd_slot prev (fun h => h <| h_next := Some new_ptr |>);;
            merge prev
        end
  end.

Fixpoint max_loop (fuel : nat) (max : Z) (hp : option nat) : M hole_table Z :=
  match fuel with
  | O => nofuel
  | S fuel' =>
      match hp with
      | None => mret max
      | Some i =>
          h ← gets (slot i);
          max_loop fuel' (if max <? h_len h then h_len h else max) (h_next h)
      end
  end.

Definition max_hole : M hole_table Z :=
  hp ← gets hole_head; max_loop (S NR_HOLES) 0 hp.

Fixpoint left_loop (fuel : nat) (tot : Z) (hp : option nat) : M hole_table Z :=
  match fuel with
  | O => nofuel
  | S fuel' =>
      match hp with
      | None => mret tot
      | Some i =>
          h ← gets (slot i);
          left_loop fuel' (u16 (tot + h_len h)) (h_next h)
      end
  end.

Definition mem_left : M hole_table Z :=
  hp ← gets hole_head; left_loop (S NR_HOLES) 0 hp.

(** The kernel's answers to [get_mem] are the argument [chunks]; the loop ends
    at the first chunk of size 0, or at the end of the list. *)
Fixpoint init_loop (chunks : list (Z * Z)) : M hole_table unit :=
  match chunks with
  | [] => mret tt
  | (base, size) :: rest =>
      if nz size then free_mem base size;; init_loop rest else mret tt
  end.

Definition init_links (h : list hole) : list hole :=
  imap (fun i h => h <| h_next := if (S i <? NR_HOLES)%nat then Some (S i) else None |>) h.

Definition mem_init (chunks : list (Z * Z)) : M hole_table unit :=
  modify (fun t => t <| hole_tbl ::= init_links |>);;
  modify (fun t => t <| hole_head := None |>);;
  modify (fun t => t <| free_slots := Some 0%nat |>);;
  init_loop chunks.

(** The tables are static, so zero at start-up. *)
Definition table0 : hole_table :=
  mk_table (replicate NR_HOLES (mk_hole 0 0 None)) None None.

End Impl.

(** ** Allocation on an abstract list of holes *)
Module Spec.

Abbreviation holes := (list (Z * Z)).

Fixpoint first_fit (n : Z) (l : holes) : option (Z * holes) :=
  match l with
  | [] => None
  | (b, len) :: l' =>
      if negb (Z.odd b) && (n <=? len) then
        Some (b, if nz (len - n) then (b + n, len - n) :: l' else l')
      else
        match first_fit n l' with
        | Some (r, l'') => Some (r, (b, len) :: l'')
        | None => None
        end
  end.

Definition join1 (l : holes) : holes :=
  match l with
  | (b1, n1) :: (b2, n2) :: l' =>
      if b1 + n1 =? b2 then (b1, n1 + n2) :: l' else l
  | _ => l
  end.

Definition join (l : holes) : holes :=
  match l with
  | (b1, n1) :: (b2, n2) :: l' =>
      if b1 + n1 =? b2 then join1 ((b1, n1 + n2) :: l')
      else (b1, n1) :: join1 ((b2, n2) :: l')
  | _ => l
  end.

Fixpoint release_after (p : Z * Z) (b n : Z) (l : holes) : holes :=
  match l with
  | [] => join [p; (b, n)]
  | h :: l' =>
      if fst h <? b then p :: release_after h b n l'
      else join (p :: (b, n) :: h :: l')
  end.

Definition release (b n : Z) (l : holes) : holes :=
  match l with
  | [] => [(b, n)]
  | h :: l' => if b <=? fst h then join ((b, n) :: l) else release_after h b n l'
  end.

(** A click is free if some hole contains it. *)
Definition covers (h : Z * Z) (c : Z) : Prop := fst h <= c < fst h + snd h.
Definition free_click (l : holes) (c : Z) : Prop := exists h, h ∈ l /\ covers h c.

(** The hole list of the source's comments: sorted, disjoint, no two holes
    adjacent (they would have been merged), no empty hole, inside the
    16-bit click space, and on the Lisa whole 512-byte pages. *)
Definition hole_ok (h : Z * Z) : Prop :=
  0 <= fst h /\ 0 < snd h /\ fst h + snd h < 65536 /\
  Z.odd (fst h) = false /\ Z.odd (snd h) = false.

Fixpoint sorted_from (lo : Z) (l : holes) : Prop :=
  match l with
  | [] => True
  | (b, n) :: l' => lo < b /\ sorted_from (b + n) l'
  end.

Definition wf (l : holes) : Prop := Forall hole_ok l /\ sorted_from (-1) l.

(** The clicks from [b] to [b + n] can be released: a page-aligned block of
    the click space none of which is free already. *)
Definition releasable (b n : Z) (l : holes) : Prop :=
  hole_ok (b, n) /\ (forall c, b <= c < b + n -> ~ free_click l c).

End Spec.

(** ** Refinement *)
Section refine.
Import Impl Spec.
Implicit Types (t : hole_table) (ls fs : list nat).

Definition nxt t (i : nat) : option nat := h_next (slot i t).
Definition data t (i : nat) : Z * Z := (h_base (slot i t), h_len (slot i t)).

(** [ls] are the slots of the hole list, [fs] the unused slots; together
    they are the table. *)
Definition lists t ls fs : Prop :=
  llist (nxt t) (hole_head t) ls /\ llist (nxt t) (free_slots t) fs /\
  NoDup (ls ++ fs) /\ length (hole_tbl t) = NR_HOLES /\
  (forall i, i ∈ ls ++ fs <-> (i < NR_HOLES)%nat).

Definition rep t (l : holes) : Prop := exists ls fs, lists t ls fs /\ l = data t <$> ls.

Lemma slot_upd_eq t i f : (i < length (hole_tbl t))%nat ->
  slot i (t <| hole_tbl ::= alter f i |>) = f (slot i t).
Proof. apply tbl_alter_eq. Qed.
Lemma slot_upd_ne t i j f : i <> j ->
  slot j (t <| hole_tbl ::= alter f i |>) = slot j t.
Proof. apply tbl_alter_ne. Qed.

Lemma wp_upd i f Q t :
  Q tt (t <| hole_tbl ::= alter f i |>) -> wp (upd_slot i f) Q t.
Proof. done. Qed.

Lemma lists_in t ls fs i : lists t ls fs -> i ∈ ls ++ fs ->
  (i < length (hole_tbl t))%nat.
Proof. intros (_ & _ & _ & -> & Hr). by rewrite Hr. Qed.

Lemma lists_length t ls fs : lists t ls fs ->
  (length ls + length fs = NR_HOLES)%nat.
Proof.
  intros (_ & _ & Hnd & _ & Hr).
  rewrite <- length_app, <- (length_seq NR_HOLES 0).
  apply Permutation_length, NoDup_Permutation; [done|apply NoDup_seq|].
  intros i. rewrite Hr, elem_of_seq. lia.
Qed.

(** Updating base and length keeps both lists. *)
Lemma lists_upd_data t ls fs i f :
  (forall h, h_next (f h) = h_next h) -> lists t ls fs ->
  lists (t <| hole_tbl ::= alter f i |>) ls fs.
Proof.
  intros Hf (H1 & H2 & H3 & H4 & H5).
  assert (forall j, nxt (t <| hole_tbl ::= alter f i |>) j = nxt t j) as Hn.
  { intros j. apply (tbl_alter_proj h_next (hole_tbl t) f i j Hf). }
  split_and!; simpl; try done.
  - eapply lseg_frame; [|done]. intros; apply Hn.
  - eapply lseg_frame; [|done]. intros; apply Hn.
  - by rewrite length_alter.
Qed.

Lemma nxt_set t i v j : (i < length (hole_tbl t))%nat ->
  nxt (t <| hole_tbl ::= alter (fun h => h <| h_next := v |>) i |>) j
  = if decide (i = j) then v else nxt t j.
Proof.
  intros Hi. unfold nxt. case_decide as Hij; [subst j|].
  - by rewrite slot_upd_eq.
  - by rewrite slot_upd_ne.
Qed.
Lemma data_set t i v j :
  data (t <| hole_tbl ::= alter (fun h => h <| h_next := v |>) i |>) j = data t j.
Proof.
  unfold data, slot; simpl.
  rewrite (tbl_alter_proj h_base), (tbl_alter_proj h_len); done.
Qed.

Lemma del_slot_ok t (l1 l2 : list nat) h fs prev :
  lists t (l1 ++ h :: l2) fs -> (l1 <> [] -> prev = last l1) ->
  wp (del_slot prev h) (fun _ t' =>
    lists t' (l1 ++ l2) (h :: fs) /\ forall j, data t' j = data t j) t.
Proof.
  intros HL Hprev. pose proof HL as (Hls & Hfs & Hnd & Hlen & Hr).
  assert (Hh : (h < length (hole_tbl t))%nat) by (eapply lists_in; [done|set_solver]).
  assert (Hnd' : NoDup ((l1 ++ l2) ++ h :: fs)).
  { revert Hnd. rewrite !NoDup_app, !NoDup_cons. set_solver. }
  assert (Hr' : forall i, i ∈ (l1 ++ l2) ++ h :: fs <-> (i < NR_HOLES)%nat).
  { intros i. rewrite <- Hr. set_solver. }
  assert (Hndl : NoDup (l1 ++ h :: l2)) by (by apply NoDup_app in Hnd as (? & _ & _)).
  assert (Hhfs : h ∉ fs) by (apply NoDup_app in Hnd as (_ & ? & _); set_solver).
  unfold del_slot, upd_slot. wp_steps. case_decide as Hhd; wp_steps.
  - assert (l1 = []) as ->.
    { destruct l1 as [|x l1]; [done|]. rewrite (lseg_head _ _ _ _ _ Hls) in Hhd.
      simplify_eq. apply NoDup_cons in Hndl. set_solver. }
    set (t1 := t <| hole_head := _ |>).
    split; [|intros j; apply (data_set t1)].
    assert (Hx : forall j, nxt ((t1 <| hole_tbl ::= alter (fun h0 => h0 <| h_next := free_slots t1 |>) h |>)
        <| free_slots := Some h |>) j = if decide (h = j) then free_slots t else nxt t j).
    { intros j. by apply (nxt_set t1). }
    split_and!; [| |done|simpl; by rewrite length_alter|done].
    + eapply (lseg_unlink (nxt t) _ _ _ []); try done.
      intros i Hi _. rewrite Hx, decide_False; [done|].
      intros ->. apply NoDup_cons in Hndl. set_solver.
    + split; [done|]. rewrite Hx, decide_True by done.
      eapply lseg_frame; [|exact Hfs]. intros i Hi. rewrite Hx, decide_False by set_solver. done.
  - destruct l1 as [|p l1 _] using rev_ind; [by rewrite (lseg_head _ _ _ _ _ Hls) in Hhd|].
    rewrite Hprev, last_snoc by (by destruct l1). wp_steps.
    assert (Hpl : (p < length (hole_tbl t))%nat) by (eapply lists_in; [done|set_solver]).
    set (t1 := t <| hole_tbl ::= _ |>).
    split; [|intros j; etrans; [apply (data_set t1)|apply data_set]].
    assert (Hx : forall j, nxt ((t1 <| hole_tbl ::= alter (fun h0 => h0 <| h_next := free_slots t1 |>) h |>)
        <| free_slots := Some h |>) j
        = if decide (h = j) then free_slots t else if decide (p = j) then nxt t h else nxt t j).
    { intros j. etrans; [apply (nxt_set t1); simpl; by rewrite length_alter|].
      case_decide; [done|]. by apply nxt_set. }
    assert (Hhp : h <> p /\ h ∉ l1 ++ [p] ++ l2).
    { revert Hndl. rewrite !NoDup_app, !NoDup_cons. set_solver. }
    split_and!; [| |done|simpl; by rewrite !length_alter|done].
    + eapply (lseg_unlink (nxt t)); [exact Hls|done| | |by destruct l1].
      * intros j. rewrite last_snoc, Hx. intros [= ->].
        rewrite decide_False, decide_True by naive_solver. done.
      * intros j Hj. rewrite last_snoc, Hx. intros ?.
        rewrite !decide_False by (congruence || set_solver). done.
    + split; [done|]. rewrite Hx, decide_True by done.
      eapply lseg_frame; [|exact Hfs]. intros i Hi. rewrite Hx.
      rewrite !decide_False; [done| |set_solver].
      intros <-. apply NoDup_app in Hnd as (_ & Hd & _). set_solver.
Qed.

Lemma lists_slot t ls fs i f : lists t ls fs -> i ∈ ls ++ fs ->
  slot i (t <| hole_tbl ::= alter f i |>) = f (slot i t).
Proof. intros HL Hi. apply slot_upd_eq. by eapply lists_in. Qed.

Lemma even_clicks_eq n : 0 <= n < 65535 -> even_clicks n = n + n mod 2.
Proof.
  intros Hn. unfold even_clicks. rewrite u16_id by lia.
  change 65534 with (Z.ldiff (Z.ones 16) (Z.ones 1)).
  assert (Z.land (n + 1) (Z.ldiff (Z.ones 16) (Z.ones 1))
          = Z.ldiff (Z.land (n + 1) (Z.ones 16)) (Z.ones 1)) as ->.
  { apply Z.bits_inj'. intros k Hk. rewrite !Z.land_spec, !Z.ldiff_spec, Z.land_spec.
    by destruct (Z.testbit _ k), (Z.testbit (Z.ones 16) k). }
  rewrite Z.land_ones, Z.mod_small by lia.
  rewrite Z.ldiff_ones_r, Z.shiftr_div_pow2, Z.shiftl_mul_pow2 by lia.
  change (2 ^ 1) with 2. zlia.
Qed.

(** The rounding wraps for the largest request: it becomes a request for
    nothing, which any even hole satisfies. *)
Lemma even_clicks_wraps : even_clicks 65535 = 0.
Proof. reflexivity. Qed.

Lemma even_clicks_range n : 0 <= n < 65536 ->
  0 <= even_clicks n < 65536 /\ Z.odd (even_clicks n) = false.
Proof.
  intros Hn. destruct (decide (n = 65535)) as [->|]; [done|].
  rewrite even_clicks_eq by lia. split; [zlia|].
  rewrite Zodd_mod. replace ((n + n mod 2) mod 2) with 0 by zlia. done.
Qed.

(** Biting [n] clicks off the hole in slot [i]. *)
Definition bite (n : Z) (i : nat) t : hole_table :=
  (t <| hole_tbl ::= alter (fun h => h <| h_base := u16 (h_base h + n) |>) i |>)
     <| hole_tbl ::= alter (fun h => h <| h_len := u16 (h_len h - n) |>) i |>.

Lemma bite_lists t ls fs n i : lists t ls fs -> lists (bite n i t) ls fs.
Proof. intros. by apply lists_upd_data; [done|]; apply lists_upd_data. Qed.

Lemma bite_data t n i j : (i < length (hole_tbl t))%nat ->
  data (bite n i t) j =
    if decide (i = j) then (u16 (fst (data t i) + n), u16 (snd (data t i) - n))
    else data t j.
Proof.
  intros Hi. unfold data, bite, slot; simpl. case_decide as Hij; [subst j|].
  - rewrite !tbl_alter_eq by (by rewrite ?length_alter). done.
  - by rewrite !tbl_alter_ne.
Qed.

Lemma data_fmap_ext t t' (ls : list nat) :
  (forall j, j ∈ ls -> data t' j = data t j) -> data t' <$> ls = data t <$> ls.
Proof. intros H. apply list_fmap_ext. intros k x Hx. apply H. by eapply list_elem_of_lookup_2. Qed.

Lemma alloc_loop_ok n fuel : 0 <= n < 65536 -> forall ls2 ls1 t fs prev hp,
  lists t (ls1 ++ ls2) fs -> llist (nxt t) hp ls2 ->
  (ls1 <> [] -> prev = last ls1) -> (length ls2 < fuel)%nat ->
  Forall hole_ok (data t <$> ls2) ->
  wp (alloc_loop fuel n prev hp) (fun r t' =>
    match first_fit n (data t <$> ls2) with
    | None => r = NO_MEM /\ t' = t
    | Some (b, l') => r = b /\ rep t' ((data t <$> ls1) ++ l')
    end) t.
Proof.
  intros Hn. induction fuel as [|fuel IH]; intros ls2 ls1 t fs prev hp HL Hhp Hprev Hfuel Hok;
    [lia|]. simpl. destruct hp as [i|].
  2:{ apply llist_nil in Hhp as ->. by wp_steps. }
  apply llist_some in Hhp as (ls & -> & Hhp). wp_steps.
  rewrite fmap_cons in Hok. apply Forall_cons in Hok as [Hi Hok].
  assert (Hnext : wp (alloc_loop fuel n (Some i) (h_next (slot i t))) (fun r t' =>
      match first_fit n (data t <$> ls) with
      | None => r = NO_MEM /\ t' = t
      | Some (b, l') => r = b /\ rep t' ((data t <$> ls1) ++ data t i :: l')
      end) t).
  { eapply wp_mono; [apply (IH ls (ls1 ++ [i]) t fs); try done|].
    - by rewrite <- app_assoc.
    - by rewrite last_snoc.
    - simpl in Hfuel; lia.
    - intros r t'. destruct (first_fit n _) as [[b l']|]; [|done].
      by rewrite fmap_app, <- app_assoc. }
  rewrite fmap_cons. simpl first_fit. unfold data at 1.
  change (h_base (slot i t)) with (fst (data t i)) in *.
  change (h_len (slot i t)) with (snd (data t i)) in *.
  destruct (Z.odd (fst (data t i))) eqn:Hodd; cbn [negb andb].
  { eapply wp_mono; [exact Hnext|]. intros r t'.
    by destruct (first_fit n (data t <$> ls)) as [[b l']|]. }
  destruct (n <=? snd (data t i)) eqn:Hle.
  2:{ eapply wp_mono; [exact Hnext|]. intros r t'.
      by destruct (first_fit n (data t <$> ls)) as [[b l']|]. }
  apply Z.leb_le in Hle. destruct Hi as (Hb0 & Hl0 & Hbl & _).
  assert (Hil : (i < length (hole_tbl t))%nat) by (eapply lists_in; [done|set_solver]).
  unfold upd_slot. wp_steps. fold (bite n i t).
  change (h_len (slot i (bite n i t))) with (snd (data (bite n i t) i)).
  assert (Hil' : data (bite n i t) i = (u16 (fst (data t i) + n), snd (data t i) - n)).
  { rewrite bite_data, decide_True by done. by rewrite (u16_id (snd (data t i) - n)) by lia. }
  rewrite Hil'. cbn [fst snd].
  assert (Hnd : i ∉ ls1 /\ i ∉ ls).
  { destruct HL as (_ & _ & Hnd & _). revert Hnd.
    rewrite !NoDup_app, NoDup_cons. set_solver. }
  assert (Hrest : forall j, j <> i -> data (bite n i t) j = data t j).
  { intros j Hj. by rewrite bite_data, decide_False. }
  destruct (nz _) eqn:Hz; wp_steps.
  - split; [done|]. exists (ls1 ++ i :: ls), fs. split; [by apply bite_lists|].
    rewrite fmap_app, fmap_cons, Hil'.
    rewrite !(data_fmap_ext t (bite n i t)) by (intros j Hj; apply Hrest; set_solver).
    unfold nz in Hz. rewrite negb_true_iff, Z.eqb_neq in Hz.
    rewrite !u16_id by lia. done.
  - eapply wp_mono; [eapply del_slot_ok; [by apply bite_lists|done]|].
    intros _ t' [HL' Hd]. wp_steps. split; [done|].
    exists (ls1 ++ ls), (i :: fs). split; [done|]. rewrite fmap_app.
    rewrite !(data_fmap_ext t t'); [done|..];
      intros j Hj; rewrite Hd; apply Hrest; set_solver.
Qed.

Definition adjacent (h1 h2 : Z * Z) : bool := fst h1 + snd h1 =? fst h2.

Lemma hole_ok_join b1 n1 b2 n2 :
  hole_ok (b1, n1) -> hole_ok (b2, n2) -> b1 + n1 = b2 -> hole_ok (b1, n1 + n2).
Proof.
  intros (?&?&?&?&Ho1) (?&?&?&?&Ho2) ?; simpl in *. unfold hole_ok; simpl.
  rewrite Z.odd_add, Ho1, Ho2. split_and!; (done || lia).
Qed.

Lemma merge_step_ok t (l1 l2 : list nat) h n fs :
  lists t (l1 ++ h :: n :: l2) fs ->
  hole_ok (data t h) -> hole_ok (data t n) ->
  wp (merge_step h n) (fun r t' =>
    if adjacent (data t h) (data t n)
    then r = h /\ lists t' (l1 ++ h :: l2) (n :: fs) /\
         data t' h = (fst (data t h), snd (data t h) + snd (data t n)) /\
         forall j, j <> h -> data t' j = data t j
    else r = n /\ t' = t) t.
Proof.
  intros HL (Hb1&Hn1&Hr1&_) (Hb2&Hn2&Hr2&_). unfold merge_step, upd_slot. wp_steps.
  change (h_base (slot h t)) with (fst (data t h)).
  change (h_base (slot n t)) with (fst (data t n)).
  change (h_len (slot h t)) with (snd (data t h)).
  change (h_len (slot n t)) with (snd (data t n)).
  rewrite (u16_id (fst (data t h) + _)) by lia. fold (adjacent (data t h) (data t n)).
  destruct (adjacent _ _) eqn:Hadj; wp_steps; [|done].
  apply Z.eqb_eq in Hadj.
  assert (Hil : (h < length (hole_tbl t))%nat) by (eapply lists_in; [done|set_solver]).
  eapply wp_mono; [apply (del_slot_ok _ (l1 ++ [h]) l2 n fs)|].
  - rewrite <- app_assoc. by apply lists_upd_data.
  - by rewrite last_snoc.
  - intros _ t' [HL' Hd]. wp_steps. rewrite <- app_assoc in HL'.
    split_and!; [done|done| |].
    + rewrite Hd. unfold data at 1. rewrite slot_upd_eq by done.
      unfold data in *. simpl in *. rewrite u16_id by lia. done.
    + intros j Hj. rewrite Hd. unfold data at 1. by rewrite slot_upd_ne.
Qed.

Lemma nxt_mid t (l1 l2 : list nat) h fs : lists t (l1 ++ h :: l2) fs ->
  nxt t h = head l2.
Proof.
  intros (Hl & _). apply lseg_app in Hl as (q & _ & [_ Hl]).
  destruct l2; simpl in *; [done|naive_solver].
Qed.

(** One step of [merge], seen on the abstract list: the slot it returns
    is where the next step starts. *)
Lemma merge_step_rep t (l1 l2 : list nat) h n fs :
  lists t (l1 ++ h :: n :: l2) fs -> Forall hole_ok (data t <$> h :: n :: l2) ->
  wp (merge_step h n) (fun r t' => exists l1' l2' fs',
    lists t' (l1' ++ r :: l2') fs' /\ Forall hole_ok (data t' <$> r :: l2') /\
    if adjacent (data t h) (data t n)
    then data t' <$> l1' = data t <$> l1 /\
         data t' <$> r :: l2' =
           (fst (data t h), snd (data t h) + snd (data t n)) :: (data t <$> l2)
    else data t' <$> l1' = data t <$> l1 ++ [h] /\
         data t' <$> r :: l2' = data t <$> n :: l2) t.
Proof.
  intros HL Hok. rewrite !fmap_cons, !Forall_cons in Hok. destruct Hok as (Hh & Hn & Hok).
  eapply wp_mono; [by eapply merge_step_ok|]. intros r t'.
  destruct (adjacent _ _) eqn:Hadj.
  - intros (-> & HL' & Hdh & Hd). exists l1, l2, (n :: fs).
    assert (Hhn : h ∉ l1 /\ h ∉ l2).
    { destruct HL as (_ & _ & Hnd & _). revert Hnd. rewrite !NoDup_app, !NoDup_cons. set_solver. }
    rewrite fmap_cons, Hdh, !(data_fmap_ext t t') by (intros j Hj; apply Hd; set_solver).
    split_and!; try done. constructor; [|done].
    destruct (data t h), (data t n). eapply hole_ok_join; [done|done|]. by apply Z.eqb_eq.
  - intros [-> ->]. exists (l1 ++ [h]), l2, fs. rewrite <- app_assoc.
    split_and!; try done. by constructor.
Qed.

Lemma merge_ok t (l1 l2 : list nat) h fs :
  lists t (l1 ++ h :: l2) fs -> Forall hole_ok (data t <$> h :: l2) ->
  wp (merge h) (fun _ t' => rep t' ((data t <$> l1) ++ join (data t <$> h :: l2))) t.
Proof.
  intros HL Hok. unfold merge. wp_steps.
  change (h_next (slot h t)) with (nxt t h). rewrite (nxt_mid _ _ _ _ _ HL).
  destruct l2 as [|n l2]; cbn [hd_error]; wp_steps.
  { exists (l1 ++ [h]), fs. split; [done|]. by rewrite fmap_app. }
  eapply wp_mono; [by eapply merge_step_rep|].
  intros r t1 (l1' & l2' & fs' & HL1 & Hok1 & Heq). wp_steps.
  change (h_next (slot r t1)) with (nxt t1 r). rewrite (nxt_mid _ _ _ _ _ HL1).
  assert ((data t <$> l1) ++ join (data t <$> h :: n :: l2)
          = (data t1 <$> l1') ++ join1 (data t1 <$> r :: l2')) as ->.
  { rewrite !fmap_cons. destruct (data t h) as [b1 n1] eqn:E1, (data t n) as [b2 n2] eqn:E.
    unfold adjacent in Heq. cbn [fst snd join] in *.
    destruct (b1 + n1 =? b2); destruct Heq as [-> Heq]; rewrite !fmap_cons in Heq; rewrite Heq;
      [done|]. rewrite E, fmap_app, <- app_assoc, fmap_cons, E1. done. }
  clear Heq. destruct l2' as [|n' l2']; cbn [hd_error]; wp_steps.
  { exists (l1' ++ [r]), fs'. split; [done|]. rewrite fmap_app, fmap_cons.
    by destruct (data t1 r). }
  eapply wp_mono; [by eapply merge_step_rep|].
  intros r2 t2 (l1'' & l2'' & fs'' & HL2 & _ & Heq). wp_steps.
  exists (l1'' ++ r2 :: l2''), fs''. split; [done|]. rewrite fmap_app, !fmap_cons.
  destruct (data t1 r) as [b1 n1] eqn:E1, (data t1 n') as [b2 n2] eqn:E2.
  unfold adjacent in Heq. cbn [fst snd join1] in *. rewrite !fmap_cons in Heq.
  destruct (b1 + n1 =? b2); destruct Heq as [-> Heq]; rewrite Heq; [done|].
  by rewrite E2, fmap_app, <- app_assoc, fmap_cons, E1.
Qed.

(** Moving the first unused slot into the hole list. *)
Lemma link_lists t t' (l1 l2 : list nat) new fs :
  lists t (l1 ++ l2) (new :: fs) ->
  length (hole_tbl t') = NR_HOLES -> free_slots t' = nxt t new ->
  hole_head t' = match l1 with [] => Some new | _ => hole_head t end ->
  nxt t' new = head l2 ->
  (forall j, last l1 = Some j -> nxt t' j = Some new) ->
  (forall j, j <> new -> last l1 <> Some j -> nxt t' j = nxt t j) ->
  lists t' (l1 ++ new :: l2) fs.
Proof.
  intros (Hl & [Hfree Hfs] & Hnd & Hlen & Hr) Hlen' Hfree' Hhd Hnew Hlast Hoth.
  assert (Hnd' : NoDup ((l1 ++ new :: l2) ++ fs)).
  { revert Hnd. rewrite !NoDup_app, !NoDup_cons. set_solver. }
  assert (Hdis : NoDup l1 /\ new ∉ l1 ++ l2 /\ new ∉ fs /\
    (forall j, j ∈ l1 -> j ∉ l2) /\ (forall j, j ∈ l1 -> j ∉ fs)).
  { revert Hnd. rewrite !NoDup_app, !NoDup_cons. set_solver. }
  destruct Hdis as (Hnd1 & Hn12 & Hnfs & Hd1 & Hd2).
  apply lseg_app in Hl as (q & Hl1 & Hl2).
  split_and!; [| |done|done|].
  - eapply (lseg_link (nxt t)); try done.
    + rewrite Hnew. destruct l2; simpl in *; naive_solver.
    + intros j Hj Hl. apply Hoth; [set_solver|done].
  - rewrite Hfree'. eapply lseg_frame; [|exact Hfs]. intros j Hj.
    apply Hoth; [set_solver|]. intros Hl%last_Some_elem_of. set_solver.
  - intros i. rewrite <- Hr. set_solver.
Qed.

Lemma free_loop_ok t b fuel : forall (l1 l2 : list nat) prev hp,
  llist (nxt t) hp l2 -> prev = last l1 -> (length l2 < fuel)%nat ->
  wp (free_loop fuel b prev hp) (fun r t' => t' = t /\ exists la lb,
    l2 = la ++ lb /\ r = last (l1 ++ la) /\
    Forall (fun i => fst (data t i) < b) la /\
    match lb with [] => True | i :: _ => b <= fst (data t i) end) t.
Proof.
  induction fuel as [|fuel IH]; intros l1 l2 prev hp Hl Hp Hf; [lia|]. simpl.
  destruct hp as [i|]; wp_steps.
  2:{ apply llist_nil in Hl as ->. split; [done|]. exists [], []. rewrite (app_nil_r l1). by split_and!. }
  apply llist_some in Hl as (l2' & -> & Hl).
  change (h_base (slot i t)) with (fst (data t i)).
  destruct (fst (data t i) <? b) eqn:Hb; wp_steps.
  - apply Z.ltb_lt in Hb.
    eapply wp_mono; [apply (IH (l1 ++ [i]) l2')|]; [done|by rewrite last_snoc|simpl in *; lia|].
    intros r t' (-> & la & lb & -> & -> & Hla & Hlb). split; [done|].
    exists (i :: la), lb. rewrite <- app_assoc. split_and!; try done. by constructor.
  - apply Z.ltb_ge in Hb. split; [done|]. exists [], (i :: l2'). rewrite (app_nil_r l1). by split_and!.
Qed.

Lemma release_after_split b n : forall (l : holes) p pre q post,
  p :: l = pre ++ q :: post ->
  Forall (fun h => fst h < b) (tail (pre ++ [q])) ->
  match post with [] => True | h :: _ => b <= fst h end ->
  release_after p b n l = pre ++ join (q :: (b, n) :: post).
Proof.
  intros l. induction l as [|h l IH]; intros p pre q post Heq Hpre Hpost; simpl.
  - destruct pre as [|x [|y pre]]; simplify_eq/=. done.
  - destruct pre as [|x pre]; simplify_eq/=.
    { by rewrite (proj2 (Z.ltb_ge _ _)) by done. }
    assert (Hx : fst h < b).
    { destruct pre as [|y pre]; simplify_eq/=; by apply Forall_cons in Hpre as [? _]. }
    rewrite (proj2 (Z.ltb_lt _ _)) by done. f_equal.
    apply IH; [done| |done].
    destruct pre as [|y pre]; simplify_eq/=; [done|]. by apply Forall_cons in Hpre as [_ ?].
Qed.

(** Taking the unused slot [new] for the block being freed. *)
Definition fill (new : nat) (b n : Z) t : hole_table :=
  let t1 := t <| hole_tbl ::= alter (fun h => h <| h_base := b |>) new |> in
  let t2 := t1 <| hole_tbl ::= alter (fun h => h <| h_len := n |>) new |> in
  t2 <| free_slots := h_next (slot new t2) |>.

Lemma fill_nxt new b n t j : nxt (fill new b n t) j = nxt t j.
Proof.
  unfold nxt, fill, slot; simpl.
  by rewrite !(tbl_alter_proj h_next) by done.
Qed.
Lemma fill_data new b n t j : (new < length (hole_tbl t))%nat ->
  data (fill new b n t) j = if decide (new = j) then (b, n) else data t j.
Proof.
  intros Hi. unfold data, fill, slot; simpl. case_decide as Hij; [subst j|].
  - rewrite !tbl_alter_eq by (by rewrite ?length_alter). done.
  - by rewrite !tbl_alter_ne.
Qed.
Lemma fill_free new b n t : free_slots (fill new b n t) = nxt t new.
Proof. unfold nxt, fill, slot; simpl. by rewrite !(tbl_alter_proj h_next) by done. Qed.
Lemma fill_len new b n t : length (hole_tbl (fill new b n t)) = length (hole_tbl t).
Proof. simpl. by rewrite !length_alter. Qed.

Lemma free_front t ls fs new b n :
  lists t ls (new :: fs) -> Forall hole_ok (data t <$> ls) -> hole_ok (b, n) ->
  wp (upd_slot new (fun h => h <| h_next := hole_head t |>);;
      modify (fun t => t <| hole_head := Some new |>);; merge new)
    (fun _ t' => rep t' (join ((b, n) :: (data t <$> ls)))) (fill new b n t).
Proof.
  intros HL Hok Hbn. unfold upd_slot. wp_steps. set (t1 := _ <| hole_head := _ |>).
  pose proof HL as (Hl & _ & Hnd & Hlen & _).
  assert (Hnew : (new < length (hole_tbl t))%nat) by (eapply lists_in; [done|set_solver]).
  assert (Hd : data t1 <$> new :: ls = (b, n) :: (data t <$> ls)).
  { rewrite fmap_cons. f_equal.
    - etrans; [apply data_set|]. by rewrite fill_data, decide_True.
    - apply data_fmap_ext. intros j Hj. etrans; [apply data_set|].
      rewrite fill_data, decide_False; [done| |done].
      apply NoDup_app in Hnd. set_solver. }
  assert (Hn : forall j, nxt t1 j = if decide (new = j) then hole_head t else nxt t j).
  { intros j. etrans; [apply nxt_set; by rewrite fill_len|]. by rewrite fill_nxt. }
  assert (HL1 : lists t1 ([] ++ new :: ls) fs).
  { eapply link_lists; try done.
    - simpl. by rewrite !length_alter.
    - apply fill_free.
    - rewrite Hn, decide_True by done. destruct ls; simpl in *; naive_solver.
    - intros j Hj _. by rewrite Hn, decide_False. }
  eapply wp_mono; [apply (merge_ok _ [] ls new fs HL1)|].
  - rewrite Hd. by constructor.
  - intros [] t'. by rewrite Hd.
Qed.

Lemma free_after t la lb prev fs new b n :
  lists t ((la ++ [prev]) ++ lb) (new :: fs) ->
  Forall hole_ok (data t <$> (la ++ [prev]) ++ lb) -> hole_ok (b, n) ->
  wp (pnext ← gets (fun t => h_next (slot prev t));
      upd_slot new (fun h => h <| h_next := pnext |>);;
      upd_slot prev (fun h => h <| h_next := Some new |>);; merge prev)
    (fun _ t' => rep t' ((data t <$> la) ++ join (data t prev :: (b, n) :: (data t <$> lb))))
    (fill new b n t).
Proof.
  intros HL Hok Hbn. unfold upd_slot. wp_steps.
  change (h_next (slot prev (fill new b n t))) with (nxt (fill new b n t) prev).
  rewrite fill_nxt. set (t1 := _ <| hole_tbl ::= _ |>).
  pose proof HL as (Hl & _ & Hnd & Hlen & _).
  assert (Hnew : (new < length (hole_tbl t))%nat) by (eapply lists_in; [done|set_solver]).
  assert (Hprv : (prev < length (hole_tbl t))%nat) by (eapply lists_in; [done|set_solver]).
  assert (Hni : new ∉ la ++ [prev] ++ lb).
  { apply NoDup_app in Hnd as (_ & Hd & _). set_solver. }
  assert (Hd : forall j, data t1 j = if decide (new = j) then (b, n) else data t j).
  { intros j. etrans; [apply data_set|]. etrans; [apply data_set|]. by apply fill_data. }
  assert (Hn : forall j, nxt t1 j = if decide (prev = j) then Some new
      else if decide (new = j) then nxt t prev else nxt t j).
  { intros j. etrans; [apply nxt_set; simpl; by rewrite !length_alter|]. case_decide; [done|].
    etrans; [apply nxt_set; by rewrite fill_len|]. by rewrite fill_nxt. }
  assert (HL1 : lists t1 ((la ++ [prev]) ++ new :: lb) fs).
  { eapply link_lists; try done.
    - simpl. by rewrite !length_alter.
    - apply fill_free.
    - by destruct la.
    - rewrite Hn, decide_False, decide_True by set_solver.
      rewrite <- app_assoc in HL. by eapply (nxt_mid _ la).
    - intros j. rewrite last_snoc, Hn. intros [= ->]. by rewrite decide_True.
    - intros j Hj. rewrite last_snoc, Hn. intros ?. rewrite !decide_False by congruence. done. }
  assert (Hda : forall l : list nat, new ∉ l -> data t1 <$> l = data t <$> l).
  { intros l Hl'. apply data_fmap_ext. intros j Hj. rewrite Hd, decide_False; set_solver. }
  rewrite <- app_assoc in HL1.
  assert (Heq : data t1 <$> prev :: new :: lb = data t prev :: (b, n) :: (data t <$> lb)).
  { rewrite !fmap_cons, (Hd prev), decide_False by set_solver.
    rewrite (Hd new), decide_True, Hda by (done || set_solver). done. }
  eapply wp_mono; [apply (merge_ok _ la (new :: lb) prev fs HL1)|].
  - rewrite Heq. rewrite !fmap_app, !Forall_app in Hok.
    destruct Hok as [[_ Hp] Hlb]. apply Forall_cons in Hp as [Hp _].
    by constructor; [|constructor].
  - intros [] t'. by rewrite Heq, Hda by set_solver.
Qed.

Lemma alloc_mem_ok t (l : holes) n :
  rep t l -> Forall hole_ok l -> 0 <= n < 65536 ->
  wp (alloc_mem n) (fun r t' =>
    match first_fit (even_clicks n) l with
    | None => r = NO_MEM /\ t' = t
    | Some (b, l') => r = b /\ rep t' l'
    end) t.
Proof.
  intros (ls & fs & HL & ->) Hok Hn. unfold alloc_mem. wp_steps.
  apply (alloc_loop_ok _ (S NR_HOLES)) with (ls1 := []) (fs := fs); try done.
  - by apply even_clicks_range.
  - by destruct HL.
  - pose proof (lists_length _ _ _ HL). lia.
Qed.

Lemma free_mem_ok t (l : holes) b n :
  rep t l -> Forall hole_ok l -> hole_ok (b, even_clicks n) ->
  (length l < NR_HOLES)%nat ->
  wp (free_mem b n) (fun _ t' => rep t' (release b (even_clicks n) l)) t.
Proof.
  intros (ls & fs & HL & ->) Hok Hbn Hlen. rewrite length_fmap in Hlen.
  pose proof (lists_length _ _ _ HL) as Hl. unfold free_mem. wp_steps.
  destruct fs as [|new fs]; [simpl in Hl; lia|].
  pose proof HL as (Hls & [-> Hfs] & Hnd & Htl & _).
  assert (Hnew : (new < length (hole_tbl t))%nat) by (eapply lists_in; [done|set_solver]).
  wp_steps. apply wp_upd. wp_steps. apply wp_upd. wp_steps.
  fold (fill new b (even_clicks n) t).
  change (hole_head (fill new b (even_clicks n) t)) with (hole_head t).
  destruct ls as [|i ls].
  { simpl in Hls. rewrite Hls. cbn beta iota. rewrite <- Hls. by eapply (free_front t []). }
  pose proof (lseg_head _ _ _ _ _ Hls) as Hhd. rewrite Hhd. cbn beta iota.
  assert (i <> new) by (apply NoDup_app in Hnd; set_solver).
  change (h_base (slot i (fill new b (even_clicks n) t)))
    with (fst (data (fill new b (even_clicks n) t) i)).
  rewrite fill_data, decide_False by done.
  rewrite fmap_cons. cbn [release]. destruct (b <=? fst (data t i)) eqn:Hb; cbn beta iota.
  { rewrite <- Hhd. by eapply (free_front t (i :: ls)). }
  apply Z.leb_gt in Hb. wp_steps.
  eapply wp_mono; [eapply (free_loop_ok _ b (S NR_HOLES) []); [|done|]|].
  - rewrite <- Hhd. eapply lseg_frame; [|exact Hls]. intros; apply fill_nxt.
  - lia.
  - intros r t' (-> & la & lb & Heq & -> & Hla & Hlb). cbn [app].
    assert (Hdf : forall j, j ∈ i :: ls -> data (fill new b (even_clicks n) t) j = data t j).
    { intros j Hj. rewrite fill_data, decide_False; [done| |done].
      apply NoDup_app in Hnd. set_solver. }
    destruct la as [|p la _] using rev_ind.
    { simpl in Heq. subst lb. rewrite Hdf in Hlb by set_solver. lia. }
    rewrite last_snoc. rewrite (release_after_split b (even_clicks n) (data t <$> ls) (data t i)
      (data t <$> la) (data t p) (data t <$> lb)).
    + apply (free_after t la lb p fs new b (even_clicks n)); [by rewrite <- Heq..|done].
    + rewrite <- fmap_cons, Heq, !fmap_app, <- app_assoc. done.
    + change [data t p] with (data t <$> [p]). rewrite <- fmap_app.
      assert (Forall (fun h => fst h < b) (data t <$> la ++ [p])) as HF.
      { apply Forall_fmap, Forall_forall. intros j Hj. change (fst (data t j) < b).
        rewrite Forall_forall in Hla. rewrite <- Hdf by (rewrite Heq; set_solver). by apply Hla. }
      destruct (data t <$> la ++ [p]); [done|]. by apply Forall_cons in HF as [_ ?].
    + destruct lb as [|j lb]; [done|]. change (b <= fst (data t j)).
      by rewrite <- Hdf by (rewrite Heq; set_solver).
Qed.

Lemma free_mem_full t (l : holes) b n :
  rep t l -> length l = NR_HOLES -> free_mem b n t = Panicked "Hole table full" t.
Proof.
  intros (ls & fs & HL & ->) Hlen. rewrite length_fmap in Hlen.
  pose proof (lists_length _ _ _ HL) as Hl. destruct fs; [|simpl in Hl; lia].
  destruct HL as (_ & Hf & _). simpl in Hf.
  unfold free_mem, mbind, M_bind, gets. by rewrite Hf.
Qed.
End refine.

(** ** What the abstract operations promise *)
Section promises.
Import Spec.
Implicit Types (l : holes) (b n c lo : Z).

Lemma free_click_nil c : ~ free_click [] c.
Proof. intros (h & Hh & _). by apply not_elem_of_nil in Hh. Qed.
Lemma free_click_cons h l c : free_click (h :: l) c <-> covers h c \/ free_click l c.
Proof. unfold free_click. set_solver. Qed.

Definition wf_from lo l : Prop := Forall hole_ok l /\ sorted_from lo l.

Lemma wf_from_nil lo : wf_from lo [].
Proof. done. Qed.
Lemma wf_from_cons lo h l :
  wf_from lo (h :: l) <-> hole_ok h /\ lo < fst h /\ wf_from (fst h + snd h) l.
Proof. destruct h. unfold wf_from. rewrite Forall_cons. simpl. tauto. Qed.
Lemma wf_from_weaken lo lo' l : wf_from lo l -> lo' <= lo -> wf_from lo' l.
Proof.
  destruct l as [|h l]; [by intros|]. rewrite !wf_from_cons.
  intros (? & ? & ?) ?. split_and!; (done || lia).
Qed.
Lemma wf_from_free lo l c : wf_from lo l -> free_click l c -> lo < c.
Proof.
  revert lo. induction l as [|h l IH]; intros lo; [intros _ []%free_click_nil|].
  rewrite wf_from_cons, free_click_cons. intros ((_ & ? & _) & Hlo & Hl) [Hc|Hc].
  - unfold covers in Hc. lia.
  - specialize (IH _ Hl Hc). lia.
Qed.

Lemma first_fit_spec n l : 0 <= n -> Z.odd n = false -> forall lo,
  wf_from lo l ->
  match first_fit n l with
  | Some (b, l') =>
      wf_from lo l' /\ lo < b /\ Z.odd b = false /\
      (forall c, free_click l c <-> free_click l' c \/ b <= c < b + n) /\
      (forall c, b <= c < b + n -> ~ free_click l' c) /\
      (length l' <= length l)%nat
  | None => Forall (fun h => snd h < n) l
  end.
Proof.
  intros Hn Hodd. induction l as [|[hb hn] l IH]; intros lo Hwf; simpl; [done|].
  apply wf_from_cons in Hwf as ((Hb0 & Hn0 & Hr & Hbe & Hne) & Hlo & Hl). simpl in *.
  rewrite Hbe; simpl. destruct (n <=? hn) eqn:Hle; simpl.
  - apply Z.leb_le in Hle. unfold nz. destruct (hn - n =? 0) eqn:Hz; simpl.
    + apply Z.eqb_eq in Hz. assert (n = hn) as -> by lia. split_and!; try done.
      * eapply wf_from_weaken; [done|lia].
      * intros c. rewrite free_click_cons. unfold covers; simpl. tauto.
      * intros c Hc Hf. apply (wf_from_free _ _ _ Hl) in Hf. lia.
      * lia.
    + apply Z.eqb_neq in Hz. split_and!; try done.
      * apply wf_from_cons; simpl. split_and!; simpl; try lia.
        -- unfold hole_ok; simpl. rewrite Z.odd_add, Z.odd_sub, Hbe, Hne, Hodd.
           split_and!; (done || lia).
        -- replace (hb + n + (hn - n)) with (hb + hn) by lia. done.
      * intros c. rewrite !free_click_cons. unfold covers; simpl.
        assert (hb <= c < hb + hn <->
          hb + n <= c < hb + n + (hn - n) \/ hb <= c < hb + n) by lia. tauto.
      * intros c Hc. rewrite free_click_cons. unfold covers; simpl. intros [?|Hf]; [lia|].
        apply (wf_from_free _ _ _ Hl) in Hf. lia.
  - apply Z.leb_gt in Hle. specialize (IH _ Hl).
    destruct (first_fit n l) as [[b l']|]; [|by constructor].
    destruct IH as (Hwf & Hlb & Hbo & Hfr & Hex & Hlen). split_and!; simpl; try (done || lia).
    + apply wf_from_cons; simpl. done.
    + intros c. rewrite !free_click_cons, Hfr. tauto.
    + intros c Hc. rewrite free_click_cons. intros [Hcv|?]; [|by eapply Hex].
      unfold covers in Hcv; simpl in Hcv. lia.
Qed.

(** A list whose first gap may be empty. *)
Definition touching_from lo l : Prop :=
  match l with [] => True | h :: l' => hole_ok h /\ lo <= fst h /\ wf_from (fst h + snd h) l' end.

Lemma wf_touching lo l : wf_from lo l -> touching_from lo l.
Proof. destruct l; [done|]. rewrite wf_from_cons. simpl. intros (?&?&?). split_and!; (done||lia). Qed.

Lemma covers_join b1 n1 b2 n2 c : hole_ok (b1, n1) -> hole_ok (b2, n2) -> b1 + n1 = b2 ->
  covers (b1, n1 + n2) c <-> covers (b1, n1) c \/ covers (b2, n2) c.
Proof. intros (_ & ? & _) (_ & ? & _) ?. unfold covers; simpl in *. lia. Qed.

Lemma join1_spec lo h l : hole_ok h -> lo < fst h -> touching_from (fst h + snd h) l ->
  wf_from lo (join1 (h :: l)) /\ (length (join1 (h :: l)) <= length (h :: l))%nat /\
  forall c, free_click (join1 (h :: l)) c <-> free_click (h :: l) c.
Proof.
  intros Hh Hlo Hl. destruct h as [b1 n1], l as [|[b2 n2] l]; simpl.
  { split_and!; try done. by apply wf_from_cons. }
  destruct Hl as (Hh2 & Hle & Hl); simpl in *. destruct (b1 + n1 =? b2) eqn:E.
  - apply Z.eqb_eq in E. split_and!; simpl; [|lia|].
    + apply wf_from_cons; simpl. split_and!; [by eapply hole_ok_join|done|].
      by replace (b1 + (n1 + n2)) with (b2 + n2) by lia.
    + intros c. rewrite !free_click_cons, covers_join by done. tauto.
  - apply Z.eqb_neq in E. split_and!; simpl; [|lia|done].
    rewrite !wf_from_cons; simpl. split_and!; (done || lia).
Qed.

Lemma join_spec lo h1 h2 l : hole_ok h1 -> hole_ok h2 -> lo < fst h1 ->
  fst h1 + snd h1 <= fst h2 -> touching_from (fst h2 + snd h2) l ->
  wf_from lo (join (h1 :: h2 :: l)) /\
  (length (join (h1 :: h2 :: l)) <= length (h1 :: h2 :: l))%nat /\
  forall c, free_click (join (h1 :: h2 :: l)) c <-> free_click (h1 :: h2 :: l) c.
Proof.
  intros Hh1 Hh2 Hlo Hle Hl. destruct h1 as [b1 n1], h2 as [b2 n2]. cbn [join fst snd] in *.
  destruct (b1 + n1 =? b2) eqn:E.
  - apply Z.eqb_eq in E. destruct (join1_spec lo (b1, n1 + n2) l) as (H1 & H2 & H3).
    + by eapply hole_ok_join.
    + done.
    + simpl. by replace (b1 + (n1 + n2)) with (b2 + n2) by lia.
    + split_and!; [done|simpl in *; lia|].
      intros c. rewrite H3, !free_click_cons, covers_join by done. tauto.
  - apply Z.eqb_neq in E. destruct (join1_spec (b1 + n1) (b2, n2) l) as (H1 & H2 & H3);
      [done|simpl; lia|done|].
    split_and!; [|simpl in *; lia|].
    + apply wf_from_cons; simpl. done.
    + intros c. rewrite free_click_cons, H3, !free_click_cons. tauto.
Qed.

(** A block none of which is free lies before or after each hole. *)
Lemma block_beside b n h l : hole_ok (b, n) -> hole_ok h ->
  (forall c, b <= c < b + n -> ~ free_click (h :: l) c) ->
  b + n <= fst h \/ fst h + snd h <= b.
Proof.
  intros (_ & ? & _) (_ & ? & _) Hd; simpl in *.
  destruct (Z.le_gt_cases (b + n) (fst h)); [by left|right].
  destruct (Z.le_gt_cases (fst h + snd h) b); [done|exfalso].
  apply (Hd (Z.max b (fst h))); [lia|]. apply free_click_cons. left. unfold covers. lia.
Qed.

Lemma release_after_spec b n l : hole_ok (b, n) -> forall lo p,
  wf_from lo (p :: l) -> fst p < b ->
  (forall c, b <= c < b + n -> ~ free_click (p :: l) c) ->
  wf_from lo (release_after p b n l) /\
  (length (release_after p b n l) <= S (length (p :: l)))%nat /\
  forall c, free_click (release_after p b n l) c <-> free_click (p :: l) c \/ b <= c < b + n.
Proof.
  intros Hbn. induction l as [|h l IH]; intros lo p Hwf Hpb Hd; simpl release_after.
  all: apply wf_from_cons in Hwf as (Hp & Hlo & Hl).
  all: pose proof Hbn as (_ & Hn0 & _); pose proof Hp as (_ & Hp0 & _); simpl in Hn0.
  all: destruct (block_beside b n p _ Hbn Hp Hd) as [?|Hpe]; [lia|].
  - destruct (join_spec lo p (b, n) []) as (H1 & H2 & H3); try done.
    split_and!; [done|done|]. intros c. rewrite H3, !free_click_cons. unfold covers at 2; simpl. tauto.
  - destruct (fst h <? b) eqn:Hh.
    + apply Z.ltb_lt in Hh.
      destruct (IH (fst p + snd p) h Hl Hh) as (H1 & H2 & H3).
      { intros c Hc Hf. apply (Hd c Hc). apply free_click_cons. by right. }
      split_and!; [by apply wf_from_cons|simpl in *; lia|].
      intros c. rewrite free_click_cons, H3, (free_click_cons p). tauto.
    + apply Z.ltb_ge in Hh. apply wf_from_cons in Hl as (Hhok & _ & Hl).
      destruct (block_beside b n h l Hbn Hhok) as [Hbe|Hbe].
      { intros c Hc Hf. apply (Hd c Hc). apply free_click_cons. by right. }
      2:{ destruct Hhok as (_ & ? & _). lia. }
      destruct (join_spec lo p (b, n) (h :: l)) as (H1 & H2 & H3); try done.
      split_and!; [done|done|]. intros c.
      rewrite H3, !free_click_cons. unfold covers at 2; simpl. tauto.
Qed.

Lemma release_spec b n l : wf l -> releasable b n l ->
  wf (release b n l) /\ (length (release b n l) <= S (length l))%nat /\
  forall c, free_click (release b n l) c <-> free_click l c \/ b <= c < b + n.
Proof.
  intros Hwf [Hbn Hd]. change (wf l) with (wf_from (-1) l) in Hwf.
  change (wf (release b n l)) with (wf_from (-1) (release b n l)).
  pose proof Hbn as (Hb0 & Hn0 & _). simpl in Hb0, Hn0.
  destruct l as [|h l]; cbn [release].
  - split_and!; [|done|].
    + apply wf_from_cons; simpl. split_and!; (done || lia).
    + intros c. rewrite free_click_cons. unfold covers; simpl. tauto.
  - destruct (b <=? fst h) eqn:Hb; [|apply Z.leb_gt in Hb; by apply release_after_spec].
    apply Z.leb_le in Hb. apply wf_from_cons in Hwf as (Hh & _ & Hl).
    destruct (block_beside b n h l Hbn Hh Hd) as [Hbe|Hbe].
    2:{ destruct Hh as (_ & ? & _). lia. }
    destruct (join_spec (-1) (b, n) h l) as (H1 & H2 & H3); try (done || (simpl; lia)).
    { by apply wf_touching. }
    split_and!; [done|done|]. intros c. rewrite H3, free_click_cons.
    unfold covers at 1; simpl. tauto.
Qed.

(** The list is determined by the set of free clicks: coalesced holes are
    a normal form. *)
Lemma wf_from_canonical l1 : forall l2 lo, wf_from lo l1 -> wf_from lo l2 ->
  (forall c, free_click l1 c <-> free_click l2 c) -> l1 = l2.
Proof.
  induction l1 as [|[b1 n1] l1 IH]; intros [|[b2 n2] l2] lo; [done| | |].
  - intros _ H2 Hf. apply wf_from_cons in H2 as ((_ & ? & _) & _). exfalso.
    apply (free_click_nil b2), Hf, free_click_cons. left. unfold covers; simpl in *; lia.
  - intros H1 _ Hf. apply wf_from_cons in H1 as ((_ & ? & _) & _). exfalso.
    apply (free_click_nil b1), Hf, free_click_cons. left. unfold covers; simpl in *; lia.
  - rewrite !wf_from_cons; simpl. intros ((_ & Hn1 & _) & Hb1 & Hl1) ((_ & Hn2 & _) & Hb2 & Hl2) Hf.
    simpl in *.
    assert (Hlow : forall b n b' n' l', 0 < n -> 0 < n' -> wf_from (b' + n') l' ->
      free_click ((b', n') :: l') b -> b' <= b).
    { intros b n b' n' l' ? ? Hl' [Hc|Hc]%free_click_cons; [unfold covers in Hc; simpl in Hc; lia|].
      apply (wf_from_free _ _ _ Hl') in Hc. lia. }
    assert (b1 = b2) as ->.
    { apply Z.le_antisymm.
      - apply (Hlow b2 n2 b1 n1 l1); [lia..|done|]. apply Hf, free_click_cons. left. unfold covers; simpl; lia.
      - apply (Hlow b1 n1 b2 n2 l2); [lia..|done|]. apply Hf, free_click_cons. left. unfold covers; simpl; lia. }
    assert (Hlen : forall n n' l l', 0 < n -> 0 < n' -> wf_from (b2 + n) l -> wf_from (b2 + n') l' ->
      (forall c, free_click ((b2, n) :: l) c <-> free_click ((b2, n') :: l') c) -> n' <= n).
    { intros n n' l l' ? ? Hl Hl' Hff. destruct (Z.le_gt_cases n' n) as [|Hgt]; [done|exfalso].
      assert (free_click ((b2, n) :: l) (b2 + n)) as [Hc|Hc]%free_click_cons.
      { apply Hff, free_click_cons. left. unfold covers; simpl; lia. }
      - unfold covers in Hc; simpl in Hc; lia.
      - apply (wf_from_free _ _ _ Hl) in Hc. lia. }
    assert (n1 = n2) as ->.
    { apply Z.le_antisymm; [apply (Hlen n2 n1 l2 l1)|apply (Hlen n1 n2 l1 l2)]; done. }
    f_equal. apply (IH l2 (b2 + n2)); [done..|]. intros c.
    specialize (Hf c). rewrite !free_click_cons in Hf. unfold covers in Hf; simpl in Hf.
    split; intros Hc; [pose proof (wf_from_free _ _ _ Hl1 Hc)|pose proof (wf_from_free _ _ _ Hl2 Hc)];
      destruct Hf as [Hf1 Hf2]; [destruct (Hf1 (or_intror Hc))|destruct (Hf2 (or_intror Hc))];
      (done || lia).
Qed.
End promises.

(** ** Scans and start-up *)
Section scans.
Import Impl Spec.
Implicit Types (t : hole_table) (l : holes).

Definition max_len (m : Z) l : Z := foldl (fun m h => Z.max m (snd h)) m l.

Lemma max_loop_ok t fuel : forall ls m hp, llist (nxt t) hp ls -> (length ls < fuel)%nat ->
  wp (max_loop fuel m hp) (fun r t' => r = max_len m (data t <$> ls) /\ t' = t) t.
Proof.
  induction fuel as [|fuel IH]; intros ls m hp Hl Hf; [lia|]. simpl.
  destruct hp as [i|]; wp_steps; [|by apply llist_nil in Hl as ->].
  apply llist_some in Hl as (l' & -> & Hl).
  eapply wp_mono; [apply (IH l'); [done|simpl in *; lia]|].
  intros r t' [-> ->]. split; [|done]. rewrite fmap_cons. simpl. f_equal.
  destruct (Z.ltb_spec m (h_len (slot i t))); lia.
Qed.

Lemma max_len_le m l n : max_len m l < n <-> m < n /\ Forall (fun h => snd h < n) l.
Proof.
  revert m. induction l as [|h l IH]; intros m; simpl; [naive_solver|].
  rewrite IH, Forall_cons, Z.max_lub_lt_iff. tauto.
Qed.

Definition sum_len (s : Z) l : Z := foldl (fun s h => u16 (s + snd h)) s l.

Lemma left_loop_ok t fuel : forall ls s hp, llist (nxt t) hp ls -> (length ls < fuel)%nat ->
  wp (left_loop fuel s hp) (fun r t' => r = sum_len s (data t <$> ls) /\ t' = t) t.
Proof.
  induction fuel as [|fuel IH]; intros ls m hp Hl Hf; [lia|]. simpl.
  destruct hp as [i|]; wp_steps; [|by apply llist_nil in Hl as ->].
  apply llist_some in Hl as (l' & -> & Hl).
  eapply wp_mono; [apply (IH l'); [done|simpl in *; lia]|]. by intros r t' [-> ->].
Qed.

Lemma sum_len_exact l : forall lo s, wf_from lo l -> 0 <= s -> s <= lo + 1 -> lo < 65536 ->
  sum_len s l = s + foldr (fun h a => snd h + a) 0 l.
Proof.
  induction l as [|h l IH]; intros lo s Hwf Hs Hlo Hm; simpl; [lia|].
  apply wf_from_cons in Hwf as ((Hb & Hn & Hr & _) & Hlt & Hl).
  rewrite u16_id by lia. rewrite (IH (fst h + snd h)); [lia|done|lia..].
Qed.

Lemma init_lists h0 : length h0 = NR_HOLES ->
  lists (mk_table (init_links h0) None (Some 0%nat)) [] (seq 0 NR_HOLES).
Proof.
  intros Hlen. split_and!; cbn [hole_tbl hole_head free_slots].
  - done.
  - assert (forall n k, (k + n = NR_HOLES)%nat -> llist
      (nxt (mk_table (init_links h0) None (Some 0%nat)))
      (if (k <? NR_HOLES)%nat then Some k else None) (seq k n)) as Hgen.
    { induction n as [|n IH]; intros k Hk; simpl.
      - by rewrite (proj2 (Nat.ltb_ge _ _)) by lia.
      - rewrite (proj2 (Nat.ltb_lt _ _)) by lia. split; [done|].
        unfold nxt at 2, slot, init_links; simpl.
        destruct (lookup_lt_is_Some_2 h0 k) as [x Hx]; [lia|].
        rewrite list_lookup_total_alt, list_lookup_imap, Hx. simpl. apply IH. lia. }
    apply (Hgen NR_HOLES 0%nat). done.
  - apply NoDup_seq.
  - unfold init_links. by rewrite length_imap.
  - intros i. rewrite app_nil_l, elem_of_seq. lia.
Qed.

(** The chunks the kernel reports: page-aligned, disjoint blocks. *)
Definition chunk_free (chunks : holes) (c : Z) : Prop := free_click chunks c.
Fixpoint chunks_ok (chunks : holes) : Prop :=
  match chunks with
  | [] => True
  | h :: rest => hole_ok h /\ (forall c, covers h c -> ~ chunk_free rest c) /\ chunks_ok rest
  end.

Lemma init_loop_ok chunks x rest : forall t l, rep t l -> wf l -> chunks_ok chunks ->
  (forall c, free_click l c -> ~ chunk_free chunks c) ->
  (length l + length chunks <= NR_HOLES)%nat ->
  wp (init_loop (chunks ++ (x, 0) :: rest)) (fun _ t' => exists l', rep t' l' /\ wf l' /\
    forall c, free_click l' c <-> free_click l c \/ chunk_free chunks c) t.
Proof.
  induction chunks as [|[b n] chunks IH]; intros t l Hrep Hwf Hch Hdis Hlen; simpl.
  - wp_steps. exists l. split_and!; try done. intros c. unfold chunk_free.
    pose proof (free_click_nil c). tauto.
  - destruct Hch as (Hbn & Hd & Hch). pose proof Hbn as (Hb0 & Hn0 & Hr & _ & Ho); cbn [fst snd length] in *.
    unfold nz. rewrite (proj2 (Z.eqb_neq n 0)) by lia. simpl.
    assert (He : even_clicks n = n).
    { assert (n <> 65535) by (by intros ->). rewrite even_clicks_eq by lia. rewrite Zodd_mod in Ho. apply Zeq_bool_neq in Ho. zlia. }
    assert (Hrel : releasable b n l).
    { split; [done|]. intros c Hc Hf. apply (Hdis c Hf). apply free_click_cons. by left. }
    destruct (release_spec b n l Hwf Hrel) as (Hwf' & Hl' & Hfr).
    wp_steps. eapply wp_mono; [apply (free_mem_ok t l b n Hrep (proj1 Hwf)); [by rewrite He|lia]|].
    rewrite He. intros [] t' Hrep'. eapply wp_mono; [apply (IH t' _ Hrep' Hwf' Hch)|].
    + intros c [Hf|Hf]%Hfr Hc; [|by apply (Hd c)].
      apply (Hdis c Hf). apply free_click_cons. by right.
    + lia.
    + intros [] t2 (l2 & ? & ? & Hf2). exists l2. split_and!; try done.
      intros c. unfold chunk_free. rewrite Hf2, Hfr, free_click_cons.
      unfold covers, chunk_free; simpl. tauto.
Qed.
End scans.

(** ** Theorems about [alloc.c] *)
Section theorems.
Import Impl Spec.
Implicit Types (t : hole_table) (l : holes).

(** The state of the allocator: the table represents the well-formed hole
    list [l]. *)
Definition alloc_state t l : Prop := rep t l /\ wf l.

Lemma free_mem_gives t l b n : alloc_state t l -> 0 <= n < 65535 -> releasable b (n + n mod 2) l -> (length l < NR_HOLES)%nat ->
  wp (free_mem b n) (fun _ t' => exists l', alloc_state t' l' /\
    forall c, free_click l' c <-> free_click l c \/ b <= c < b + (n + n mod 2)) t.
Proof.
  intros [Hrep Hwf] Hn Hrel Hlen. rewrite <- even_clicks_eq in Hrel |- * by lia.
  eapply wp_mono; [apply (free_mem_ok t l b n Hrep (proj1 Hwf) (proj1 Hrel) Hlen)|].
  intros [] t' Hrep'. destruct (release_spec _ _ _ Hwf Hrel) as (Hwf' & _ & Hfr).
  by exists (release b (even_clicks n) l).
Qed.

(** C14. [alloc_mem] on any request that does not wrap (below 65535 clicks)
    returns, and either finds that every hole is smaller than the rounded
    request (then it answers [NO_MEM] and changes nothing), or returns an
    even base of a block of the rounded size that was entirely free, is no
    longer free, and nothing else changes; the hole list stays well-formed. *)
Theorem alloc_mem_correct t l n : alloc_state t l -> 0 <= n < 65535 ->
  wp (alloc_mem n) (fun r t' =>
    (r = NO_MEM /\ t' = t /\ Forall (fun h => snd h < n + n mod 2) l) \/
    exists l', alloc_state t' l' /\ 0 <= r /\ Z.odd r = false /\
      (forall c, free_click l c <-> free_click l' c \/ r <= c < r + (n + n mod 2)) /\
      (forall c, r <= c < r + (n + n mod 2) -> ~ free_click l' c)) t.
Proof.
  intros [Hrep Hwf] Hn. eapply wp_mono; [apply (alloc_mem_ok t l n Hrep (proj1 Hwf)); lia|].
  intros r t'. rewrite <- even_clicks_eq by lia.
  destruct (even_clicks_range n ltac:(lia)) as [Hr Hodd].
  pose proof (first_fit_spec (even_clicks n) l (proj1 Hr) Hodd (-1) Hwf) as Hff.
  destruct (first_fit _ l) as [[b l']|]; [|by left; naive_solver].
  intros [-> Hrep']. destruct Hff as (Hwf' & Hb & Hbe & Hfr & Hex & _).
  right. exists l'. split_and!; try (done || lia).
Qed.

(** C15. Freeing a page-aligned block that is not free already succeeds when
    a table slot is left: the free clicks are exactly the old ones and the
    block, and the hole list is again sorted and coalesced. *)
Theorem free_mem_correct t l b n : alloc_state t l -> 0 <= n < 65535 ->
  releasable b (n + n mod 2) l -> (length l < NR_HOLES)%nat ->
  wp (free_mem b n) (fun _ t' => exists l', alloc_state t' l' /\
    forall c, free_click l' c <-> free_click l c \/ b <= c < b + (n + n mod 2)) t.
Proof. intros Hst Hn Hrel Hlen. by apply free_mem_gives. Qed.

(** C16. [free_mem] with no unused slot left panics, and only then. *)
Theorem free_mem_panics_iff_full t l b n : alloc_state t l -> 0 <= n < 65535 ->
  releasable b (n + n mod 2) l ->
  (exists w t', free_mem b n t = Panicked w t') <-> length l = NR_HOLES.
Proof.
  intros Hst Hn Hrel. split.
  - intros (w & t' & Hp). destruct (decide (length l < NR_HOLES)%nat) as [Hlt|Hge].
    + rewrite <- even_clicks_eq in Hrel by lia. destruct Hst as [Hrep [Hok _]].
      pose proof (free_mem_ok t l b n Hrep Hok (proj1 Hrel) Hlt) as Hw.
      unfold wp in Hw. by rewrite Hp in Hw.
    + destruct Hst as [(ls & fs & HL & ->) _]. rewrite length_fmap in Hge |- *.
      pose proof (lists_length _ _ _ HL). lia.
  - intros Hfull. exists "Hole table full", t. eapply free_mem_full; [apply Hst|done].
Qed.

(** Start-up: from the chunks the kernel reports (disjoint, page
    aligned, at most 128, ended by a chunk of size 0) [mem_init] builds a
    well-formed hole list whose free clicks are exactly those chunks. *)
Theorem mem_init_correct t chunks x rest :
  length (hole_tbl t) = NR_HOLES -> chunks_ok chunks -> (length chunks <= NR_HOLES)%nat ->
  wp (mem_init (chunks ++ (x, 0) :: rest)) (fun _ t' => exists l, alloc_state t' l /\
    forall c, free_click l c <-> chunk_free chunks c) t.
Proof.
  intros Hlen Hch Hn. unfold mem_init. wp_steps.
  eapply wp_mono; [apply (init_loop_ok chunks x rest _ []); try done|].
  - exists [], (seq 0 NR_HOLES). split; [|done]. by apply init_lists.
  - by intros c ?%free_click_nil.
  - intros [] t' (l & Hr & Hw & Hf). exists l. split; [done|]. intros c. rewrite Hf.
    pose proof (free_click_nil c). tauto.
Qed.

(** Giving back a block that [alloc_mem] returned restores the hole
    list exactly (the coalesced list is a normal form of the free set). *)
Theorem alloc_free_roundtrip t l n : alloc_state t l -> 0 < n < 65535 ->
  (length l < NR_HOLES)%nat -> (exists h, h ∈ l /\ n + n mod 2 <= snd h) ->
  wp (r ← alloc_mem n; free_mem r n) (fun _ t' => alloc_state t' l) t.
Proof.
  intros [Hrep Hwf] Hn Hlen (h & Hh & Hfit). wp_steps.
  eapply wp_mono; [apply (alloc_mem_ok t l n Hrep (proj1 Hwf)); lia|].
  intros r t'. destruct (even_clicks_range n ltac:(lia)) as [Hr Hodd].
  pose proof (first_fit_spec (even_clicks n) l (proj1 Hr) Hodd (-1) Hwf) as Hff.
  rewrite <- even_clicks_eq in Hfit by lia.
  destruct (first_fit _ l) as [[b l']|].
  2:{ rewrite Forall_forall in Hff. specialize (Hff h Hh). lia. }
  intros [-> Hrep']. destruct Hff as (Hwf' & Hb & Hbe & Hfr & Hex & Hll).
  assert (Hrel : releasable b (even_clicks n) l').
  { split; [|done]. rewrite even_clicks_eq in * by lia. split_and!; simpl; try (done || zlia).
    assert (free_click l (b + (n + n mod 2) - 1)) as (h' & Hh' & Hcv).
    { apply Hfr. right. zlia. }
    destruct Hwf as [Hok _]. rewrite Forall_forall in Hok.
    destruct (Hok h' Hh') as (_ & _ & ? & _). unfold covers in Hcv. lia. }
  destruct (release_spec _ _ _ Hwf' Hrel) as (Hwf2 & _ & Hfr2).
  eapply wp_mono; [apply (free_mem_ok t' l' b n Hrep' (proj1 Hwf') (proj1 Hrel)); lia|].
  intros [] t2 Hrep2. replace l with (release b (even_clicks n) l'); [done|].
  apply (wf_from_canonical _ _ (-1)); [done..|]. intros c. by rewrite Hfr2, Hfr.
Qed.

(** [max_hole] decides allocation: a request whose rounded size is at
    most the value [max_hole] returns gets a block, a larger one gets
    [NO_MEM] and changes nothing. *)
Theorem max_hole_decides_alloc t l n : alloc_state t l -> 0 < n < 65535 ->
  wp (m ← max_hole; r ← alloc_mem n; mret (m, r)) (fun mr t' =>
    if n + n mod 2 <=? fst mr
    then exists l', alloc_state t' l' /\
           forall c, free_click l c <-> free_click l' c \/ snd mr <= c < snd mr + (n + n mod 2)
    else snd mr = NO_MEM /\ t' = t) t.
Proof.
  intros [Hrep Hwf] Hn. unfold max_hole. wp_steps. pose proof Hrep as (ls & fs & HL & Hl).
  eapply wp_mono; [apply (max_loop_ok t _ ls); [apply HL|]|].
  { pose proof (lists_length _ _ _ HL). lia. }
  intros m t' [-> ->]. rewrite <- Hl. wp_steps.
  eapply wp_mono; [apply (alloc_mem_ok t l n Hrep (proj1 Hwf)); lia|].
  intros r t'. destruct (even_clicks_range n ltac:(lia)) as [Hr Hodd].
  pose proof (first_fit_spec (even_clicks n) l (proj1 Hr) Hodd (-1) Hwf) as Hff.
  rewrite even_clicks_eq in * by lia.
  destruct (first_fit _ l) as [[b l']|] eqn:Hfit; intros Hres; wp_steps; cbn [fst snd].
  - destruct Hff as (Hwf' & _ & _ & Hfr & _ & _), Hres as [-> Hrep'].
    destruct (Z.leb_spec (n + n mod 2) (max_len 0 l)) as [|Hlt]; [by exists l'|].
    exfalso. apply max_len_le in Hlt as [_ Hall]. revert Hfit.
    clear -Hall. revert b l'. induction Hall as [|[hb hn] l Hh Hall IH]; intros b l'; [done|].
    cbn [first_fit]. rewrite (proj2 (Z.leb_gt _ hn)) by done. rewrite andb_false_r.
    destruct (first_fit _ l) as [[b2 l2]|]; [|done]. by destruct (IH b2 l2).
  - destruct Hres as [-> ->].
    destruct (Z.leb_spec (n + n mod 2) (max_len 0 l)) as [Hle|]; [|done].
    assert (max_len 0 l < n + n mod 2) by (apply max_len_le; split; [zlia|done]). lia.
Qed.

(** [mem_left] returns the exact number of free clicks: its 16-bit sum
    cannot wrap on a well-formed hole list. *)
Theorem mem_left_exact t l : alloc_state t l ->
  wp mem_left (fun r t' => t' = t /\ r = foldr (fun h a => snd h + a) 0 l) t.
Proof.
  intros [(ls & fs & HL & Hl) Hwf]. unfold mem_left. wp_steps.
  eapply wp_mono; [apply (left_loop_ok t _ ls); [apply HL|]|].
  { pose proof (lists_length _ _ _ HL). lia. }
  intros r t' [-> ->]. split; [done|]. rewrite <- Hl.
  by rewrite (sum_len_exact l (-1)) by (done || lia).
Qed.

(** C17. The rounding of requests wraps at the largest 16-bit request: asked
    for 65535 clicks, [alloc_mem] answers with the base of the first hole
    and takes nothing from the list. *)
Theorem alloc_mem_wraps t l b n : alloc_state t ((b, n) :: l) ->
  wp (alloc_mem 65535) (fun r t' => r = b /\ alloc_state t' ((b, n) :: l)) t.
Proof.
  intros [Hrep Hwf]. eapply wp_mono; [by apply (alloc_mem_ok t _ 65535 Hrep (proj1 Hwf))|].
  intros r t'. rewrite even_clicks_wraps. pose proof Hwf as [Hok _].
  apply Forall_cons in Hok as [(_ & Hn & _ & Hb & _) _]. cbn [first_fit fst snd] in *.
  rewrite Hb, (proj2 (Z.leb_le 0 n)) by lia. cbn [negb andb].
  rewrite Z.sub_0_r, Z.add_0_r. unfold nz. rewrite (proj2 (Z.eqb_neq n 0)) by lia.
  by intros [-> ?].
Qed.

(** *** Witnesses: the table after start-up with 1000 clicks at 0 and 500
    at click 2000. *)
Definition boot_chunks : holes := [(0, 1000); (2000, 500)].
Definition boot_table : hole_table :=
  match mem_init (boot_chunks ++ [(0, 0)]) table0 with Done _ t => t | _ => table0 end.
Definition boot_order : list nat := [0%nat; 1%nat].

Lemma boot_state : alloc_state boot_table boot_chunks.
Proof.
  split; [|split; [repeat constructor; done|done]].
  assert (rep (mk_table (init_links (hole_tbl table0)) None (Some 0%nat)) []) as H0.
  { exists [], (seq 0 NR_HOLES). split; [|done]. by apply init_lists. }
  pose proof (free_mem_ok _ [] 0 1000 H0 ltac:(done) ltac:(by repeat split)
    ltac:(simpl; unfold NR_HOLES; lia)) as H1.
  unfold wp in H1. destruct (free_mem 0 1000 _) as [[] t1| |] eqn:E1; try done.
  pose proof (free_mem_ok _ _ 2000 500 H1 ltac:(by repeat constructor) ltac:(by repeat split)
    ltac:(vm_compute; lia)) as H2.
  unfold wp in H2. destruct (free_mem 2000 500 _) as [[] t2| |] eqn:E2; try done.
  assert (boot_table = t2) as ->; [|done]. unfold boot_table, mem_init, init_loop, boot_chunks.
  unfold mbind, M_bind, modify. cbn -[free_mem init_links table0].
  assert (free_mem 0 1000 (((table0 <| hole_tbl ::= init_links |>) <| hole_head := None |>)
    <| free_slots := Some 0%nat |>) = Done () t1) as -> by exact E1.
  by rewrite E2.
Qed.

Lemma alloc_mem_correct_witness : alloc_state boot_table boot_chunks /\
  wp (alloc_mem 33) (fun r t' =>
    (r = NO_MEM /\ t' = boot_table /\ Forall (fun h => snd h < 33 + 33 mod 2) boot_chunks) \/
    exists l', alloc_state t' l' /\ 0 <= r /\ Z.odd r = false /\
      (forall c, free_click boot_chunks c <-> free_click l' c \/ r <= c < r + (33 + 33 mod 2)) /\
      (forall c, r <= c < r + (33 + 33 mod 2) -> ~ free_click l' c)) boot_table.
Proof.
  split; [apply boot_state|]. apply (alloc_mem_correct boot_table boot_chunks 33); [apply boot_state|lia].
Defined.

Lemma releasable_1000 : releasable 1000 (99 + 99 mod 2) boot_chunks.
Proof.
  split; [by split_and!|]. intros c Hc. change (1000 <= c < 1100) in Hc.
  unfold boot_chunks. rewrite !free_click_cons. unfold covers; simpl.
  intros [?|[?|?%free_click_nil]]; (done || lia).
Qed.

Lemma free_mem_correct_witness :
  wp (free_mem 1000 99) (fun _ t' => exists l', alloc_state t' l' /\
    forall c, free_click l' c <-> free_click boot_chunks c \/ 1000 <= c < 1000 + (99 + 99 mod 2))
    boot_table.
Proof.
  apply (free_mem_correct boot_table boot_chunks 1000 99);
    [apply boot_state|lia|apply releasable_1000|simpl; unfold NR_HOLES; lia].
Defined.

Lemma free_mem_panics_witness :
  (exists w t', free_mem 1000 99 boot_table = Panicked w t') <-> length boot_chunks = NR_HOLES.
Proof.
  apply (free_mem_panics_iff_full boot_table boot_chunks 1000 99);
    [apply boot_state|lia|apply releasable_1000].
Defined.

Lemma mem_init_correct_witness :
  wp (mem_init (boot_chunks ++ [(0, 0)])) (fun _ t' => exists l, alloc_state t' l /\
    forall c, free_click l c <-> chunk_free boot_chunks c) table0.
Proof.
  apply (mem_init_correct table0 boot_chunks 0 []); [done| |simpl; unfold NR_HOLES; lia].
  split; [by repeat split|]. split; [|split; [by repeat split|split; [|done]]].
  - intros c. unfold covers, chunk_free; simpl. rewrite free_click_cons. unfold covers; simpl.
    intros ? [?|?%free_click_nil]; (done || lia).
  - intros c _ ?%free_click_nil. done.
Defined.

Lemma alloc_free_roundtrip_witness :
  wp (r ← alloc_mem 33; free_mem r 33) (fun _ t' => alloc_state t' boot_chunks) boot_table.
Proof.
  apply (alloc_free_roundtrip boot_table boot_chunks 33);
    [apply boot_state|lia|simpl; unfold NR_HOLES; lia|].
  exists (0, 1000). split; [by left|]. simpl. vm_compute. done.
Defined.

Lemma max_hole_decides_witness :
  wp (m ← max_hole; r ← alloc_mem 1001; mret (m, r)) (fun mr t' =>
    if 1001 + 1001 mod 2 <=? fst mr
    then exists l', alloc_state t' l' /\
           forall c, free_click boot_chunks c <->
             free_click l' c \/ snd mr <= c < snd mr + (1001 + 1001 mod 2)
    else snd mr = NO_MEM /\ t' = boot_table) boot_table.
Proof. apply (max_hole_decides_alloc boot_table boot_chunks 1001); [apply boot_state|lia]. Defined.

Lemma mem_left_exact_witness :
  wp mem_left (fun r t' => t' = boot_table /\
    r = foldr (fun h a => snd h + a) 0 boot_chunks) boot_table.
Proof. apply (mem_left_exact boot_table boot_chunks), boot_state. Defined.

Lemma alloc_mem_wraps_witness :
  wp (alloc_mem 65535) (fun r t' => r = 0 /\ alloc_state t' boot_chunks) boot_table.
Proof. apply (alloc_mem_wraps boot_table [(2000, 500)] 0 1000), boot_state. Defined.
End theorems.
