(* ===== verification/KProc.v ===== *)
(** * Processes and messages in the kernel: [src/kernel/proc.c]

    The process table, the four ready queues, the caller queues of the
    rendezvous message system and the queue of held-up interrupts, with the
    signal notification of [src/kernel/system.c] ([cause_sig], [inform]) that
    [mini_rec] calls. Slot [i] of the table is process number [i - NR_TASKS];
    a [struct proc *] is a slot number, [None] is [NIL_PROC]. *)

From S2P Require Import Prelude.

Definition NR_TASKS : Z := 9.
Definition NR_PROCS : Z := 32.
Definition NR_SLOTS : nat := 41.
Definition LOW_USER : Z := 2.
Definition CLICK_SHIFT : Z := 8.
Definition CLICK_SIZE : Z := 256.
Definition MM_PROC_NR : Z := 0.
Definition FS_PROC_NR : Z := 1.
Definition INIT_PROC_NR : Z := 2.
Definition ANY : Z := 132.
Definition HARDWARE : Z := -1.
Definition IDLE : Z := -8.
Definition HARD_INT : Z := 2.
Definition KSIG : Z := 64.
Definition SIGSTKFLT : Z := 16.
Definition SIGALRM : Z := 14.

Definition OK : Z := 0.
Definition E_BAD_DEST : Z := -1.
Definition E_BAD_SRC : Z := -2.
Definition E_NO_PERM : Z := -8.
Definition E_BAD_ADDR : Z := -10.
Definition E_BAD_PROC : Z := -11.
Definition ELOCKED : Z := -101.

Definition SEND : Z := 1.
Definition RECEIVE : Z := 2.
Definition BOTH : Z := 3.

(** Bits of [p_flags]. *)
Definition P_SLOT_FREE : Z := 1.
Definition NO_MAP : Z := 2.
Definition SENDING : Z := 4.
Definition RECEIVING : Z := 8.
Definition PENDING : Z := 16.
Definition SIG_PENDING : Z := 32.
Definition P_STOP : Z := 64.

(** Ready queues. *)
Definition TASK_Q : nat := 0.
Definition SERVER_Q : nat := 1.
Definition USER_Q : nat := 2.
Definition SHADOW_Q : nat := 3.
Definition NQ : nat := 4.

Record mem_map := mk_map { mem_vir : Z; mem_phys : Z; mem_len : Z }.
#[export] Instance mem_map_upd : Updatable mem_map :=
  fun m => mk_map (mem_vir m) (mem_phys m) (mem_len m).
#[export] Instance mem_map_eqdec : EqDecision mem_map.
Proof. solve_decision. Defined.
#[export] Instance mem_map_inh : Inhabited mem_map := populate (mk_map 0 0 0).

(** [struct mem_map p_map[NR_SEGS]], indexed by [T], [D] and [S]. *)
Record segs := mk_segs { seg_T : mem_map; seg_D : mem_map; seg_S : mem_map }.
#[export] Instance segs_upd : Updatable segs :=
  fun m => mk_segs (seg_T m) (seg_D m) (seg_S m).
#[export] Instance segs_eqdec : EqDecision segs.
Proof. solve_decision. Defined.

Record proc := mk_proc {
  p_nr : Z;
  p_int_blocked : bool;
  p_int_held : bool;
  p_nextheld : option nat;
  p_flags : Z;
  p_map : segs;
  p_shadow : Z;
  p_pid : Z;
  user_time : Z;
  sys_time : Z;
  child_utime : Z;
  child_stime : Z;
  p_alarm : Z;
  p_callerq : option nat;
  p_sendlink : option nat;
  p_messbuf : Z;
  p_getfrom : Z;
  p_nextready : option nat;
  p_pending : Z;
  p_pendcount : Z;
  p_sp : Z;
  p_pc : Z;
  p_psw : Z;
  p_retreg : Z;
  p_splow : Z;
  p_physio : bool;
  p_nflips : Z;
  p_regs : list Z;
  p_trap : Z;
}.
#[export] Instance proc_upd : Updatable proc := fun p =>
  mk_proc (p_nr p) (p_int_blocked p) (p_int_held p) (p_nextheld p) (p_flags p)
    (p_map p) (p_shadow p) (p_pid p) (user_time p) (sys_time p)
    (child_utime p) (child_stime p) (p_alarm p) (p_callerq p) (p_sendlink p)
    (p_messbuf p) (p_getfrom p) (p_nextready p) (p_pending p) (p_pendcount p)
    (p_sp p) (p_pc p) (p_psw p)
    (p_retreg p) (p_splow p) (p_physio p) (p_nflips p) (p_regs p) (p_trap p).
Definition segs0 : segs := mk_segs (mk_map 0 0 0) (mk_map 0 0 0) (mk_map 0 0 0).
Definition proc0 : proc :=
  mk_proc 0 false false None 0 segs0 0 0 0 0 0 0 0 None None 0 0 None 0 0 0 0 0 0 0 false 0 (replicate 14 0) 0.
#[export] Instance proc_inh : Inhabited proc := populate proc0.

(** A message: source, type and the words of its union. *)
Record message := mk_msg { m_source : Z; m_type : Z; m_words : list Z }.
#[export] Instance message_upd : Updatable message :=
  fun m => mk_msg (m_source m) (m_type m) (m_words m).
Definition msg0 : message := mk_msg 0 0 [].

(** [sizeof(message)]: two ints and a union of at most 22 bytes. *)
Definition MESS_SIZE : Z := 26.

(** The kernel's variables. Memory is modelled as far as messages go: the
    message at each physical address that holds one. [m_addr] is the address
    of the message buffer [m] of system.c. *)
Record kst := mk_kst {
  procs : list proc;
  proc_ptr : nat;
  bill_ptr : nat;
  rdy_head : list (option nat);
  rdy_tail : list (option nat);
  held_head : option nat;
  held_tail : option nat;
  k_reenter : Z;
  switching : bool;
  sig_procs : Z;
  k_mem : gmap Z message;
  m_addr : Z;
}.
#[export] Instance kst_upd : Updatable kst := fun s =>
  mk_kst (procs s) (proc_ptr s) (bill_ptr s) (rdy_head s) (rdy_tail s)
    (held_head s) (held_tail s) (k_reenter s) (switching s) (sig_procs s)
    (k_mem s) (m_addr s).

Definition P (i : nat) (s : kst) : proc := procs s !!! i.
Definition upd_proc (i : nat) (f : proc -> proc) : M kst unit :=
  modify (fun s => s <| procs ::= alter f i |>).

(** [proc_addr(n)] and the tests of [proc.h]. *)
Definition proc_addr (n : Z) : nat := Z.to_nat (n + NR_TASKS).
Definition isokprocn (n : Z) : bool := u16 (n + NR_TASKS) <? NR_PROCS + NR_TASKS.
Definition isoksrc_dest (n : Z) : bool := isokprocn n || (n =? ANY).
Definition isoksusern (n : Z) : bool := u16 n <? NR_PROCS.
Definition isokusern (n : Z) : bool := u16 (n - LOW_USER) <? NR_PROCS - LOW_USER.
Definition isrxhardware (n : Z) : bool := (n =? ANY) || (n =? HARDWARE).
Definition isservn (n : Z) : bool := u16 n <? LOW_USER.
Definition istaskp (p : nat) : bool :=
  (Z.of_nat p <? NR_TASKS) && negb (Nat.eqb p (proc_addr IDLE)).
Definition isuserp (p : nat) : bool := NR_TASKS + LOW_USER <=? Z.of_nat p.
Definition isshadowp (p : nat) (s : kst) : bool := nz (p_shadow (P p s)).

(** ** Scheduling *)

Definition pick_proc : M kst unit :=
  t ← gets (fun s => rdy_head s !!! TASK_Q);
  match t with
  | Some rp => modify (fun s => s <| proc_ptr := rp |>)
  | None =>
      v ← gets (fun s => rdy_head s !!! SERVER_Q);
      match v with
      | Some rp => modify (fun s => s <| proc_ptr := rp |>)
      | None =>
          u ← gets (fun s => rdy_head s !!! USER_Q);
          match u with
          | Some rp => modify (fun s => s <| proc_ptr := rp |> <| bill_ptr := rp |>)
          | None => modify (fun s => s <| proc_ptr := proc_addr IDLE |>
                                       <| bill_ptr := proc_addr IDLE |>)
          end
      end
  end.

(** Add [rp] to the tail of queue [q]; the text of [ready] repeats it for
    each queue, and [interrupt] has it in line. *)
Definition enqueue (q rp : nat) : M kst unit :=
  h ← gets (fun s => rdy_head s !!! q);
  (match h with
   | Some _ =>
       t ← gets (fun s => rdy_tail s !!! q);
       match t with
       | Some t => upd_proc t (fun p => p <| p_nextready := Some rp |>)
       | None => panic "nil rdy_tail"
       end
   | None => modify (fun s => s <| rdy_head ::= <[q := Some rp]> |>)
   end);;
  modify (fun s => s <| rdy_tail ::= <[q := Some rp]> |>);;
  upd_proc rp (fun p => p <| p_nextready := None |>).

Definition ready (rp : nat) : M kst unit :=
  if istaskp rp then enqueue TASK_Q rp
  else if negb (isuserp rp) then enqueue SERVER_Q rp
  else
    sh ← gets (isshadowp rp);
    if sh : bool then enqueue SHADOW_Q rp else enqueue USER_Q rp.

(** The search of [unready] through the body of a queue, from [xp]. *)
Fixpoint unready_find (fuel : nat) (rp xp : nat) : M kst (option nat) :=
  match fuel with
  | O => nofuel
  | S fuel' =>
      next ← gets (fun s => p_nextready (P xp s));
      if decide (next = Some rp) then mret (Some xp)
      else match next with
           | None => mret None
           | Some x => unready_find fuel' rp x
           end
  end.

Fixpoint last_from (fuel : nat) (xp : nat) : M kst nat :=
  match fuel with
  | O => nofuel
  | S fuel' =>
      next ← gets (fun s => p_nextready (P xp s));
      match next with
      | None => mret xp
      | Some x => last_from fuel' x
      end
  end.

Definition unready_q (q rp : nat) : M kst unit :=
  h ← gets (fun s => rdy_head s !!! q);
  match h with
  | None => mret tt
  | Some xp =>
      if decide (xp = rp) then
        next ← gets (fun s => p_nextready (P xp s));
        modify (fun s => s <| rdy_head ::= <[q := next]> |>);;
        cur ← gets proc_ptr;
        when (Nat.eqb rp cur) pick_proc
      else
        f ← unready_find (S NR_SLOTS) rp xp;
        match f with
        | None => mret tt
        | Some xp =>
            next2 ← gets (fun s => p_nextready (P rp s));
            upd_proc xp (fun p => p <| p_nextready := next2 |>);;
            l ← last_from (S NR_SLOTS) xp;
            modify (fun s => s <| rdy_tail ::= <[q := Some l]> |>)
        end
  end.

Definition unready (rp : nat) : M kst unit :=
  if istaskp rp then unready_q TASK_Q rp
  else if negb (isuserp rp) then unready_q SERVER_Q rp
  else
    sh ← gets (isshadowp rp);
    if sh : bool then unready_q SHADOW_Q rp else unready_q USER_Q rp.

Definition sched : M kst unit :=
  h ← gets (fun s => rdy_head s !!! USER_Q);
  match h with
  | None => mret tt
  | Some hd =>
      t ← gets (fun s => rdy_tail s !!! USER_Q);
      match t with
      | None => panic "nil rdy_tail"
      | Some tl =>
          upd_proc tl (fun p => p <| p_nextready := Some hd |>);;
          modify (fun s => s <| rdy_tail ::= <[USER_Q := Some hd]> |>);;
          next ← gets (fun s => p_nextready (P hd s));
          modify (fun s => s <| rdy_head ::= <[USER_Q := next]> |>);;
          upd_proc hd (fun p => p <| p_nextready := None |>);;
          pick_proc
      end
  end.

Definition lock_switch {A} (m : M kst A) : M kst A :=
  modify (fun s => s <| switching := true |>);;
  r ← m;
  modify (fun s => s <| switching := false |>);;
  mret r.

Definition lock_pick_proc : M kst unit := lock_switch pick_proc.
Definition lock_ready (rp : nat) : M kst unit := lock_switch (ready rp).
Definition lock_unready (rp : nat) : M kst unit := lock_switch (unready rp).
Definition lock_sched : M kst unit := lock_switch sched.

(** ** Messages *)

Definition msg_at (a : Z) (s : kst) : message := default msg0 (k_mem s !! a).
Definition put_msg (a : Z) (m : message) : M kst unit :=
  modify (fun s => s <| k_mem ::= <[a := m]> |>).

(** Physical address of a message of [p] at virtual address [v] (the Lisa
    branch of [cp_mess], and its shadow adjustment, in 32-bit arithmetic). *)
Definition mess_addr (p : proc) (v : Z) : Z :=
  let d := seg_D (p_map p) in
  let a := s32 (v + (Z.shiftl (mem_phys d) CLICK_SHIFT - Z.shiftl (mem_vir d) CLICK_SHIFT)) in
  if nz (p_shadow p)
  then s32 (a + Z.shiftl (u16 (p_shadow p - mem_phys d)) CLICK_SHIFT)
  else a.

Definition cp_mess (src : Z) (src_p : nat) (src_m : Z) (dst_p : nat) (dst_m : Z) : M kst unit :=
  sp ← gets (P src_p);
  dp ← gets (P dst_p);
  msg ← gets (msg_at (mess_addr sp src_m));
  put_msg (mess_addr dp dst_m) (msg <| m_source := src |>).

(** Is [dest_ptr] on the list starting at [next_ptr]? *)
Fixpoint on_sendlist (fuel : nat) (dest_ptr : nat) (next_ptr : option nat) : M kst bool :=
  match fuel with
  | O => nofuel
  | S fuel' =>
      match next_ptr with
      | None => mret false
      | Some n =>
          if decide (n = dest_ptr) then mret true
          else
            next ← gets (fun s => p_sendlink (P n s));
            on_sendlist fuel' dest_ptr next
      end
  end.

Fixpoint last_sender (fuel : nat) (next_ptr : nat) : M kst nat :=
  match fuel with
  | O => nofuel
  | S fuel' =>
      next ← gets (fun s => p_sendlink (P next_ptr s));
      match next with
      | None => mret next_ptr
      | Some n => last_sender fuel' n
      end
  end.

(** The address check of [mini_send]: the message must not wrap around the
    top of memory nor end outside the data segment. *)
Definition bad_mess_addr (d : mem_map) (vb : Z) : bool :=
  let vlo := u16 (Z.shiftr vb CLICK_SHIFT) in
  let vhi := u16 (Z.shiftr (s32 (vb + MESS_SIZE - 1)) CLICK_SHIFT) in
  (vhi <? vlo) || (mem_len d <=? u16 (vhi - mem_vir d)).

Definition is_waiting_for (p : proc) (nr : Z) : bool :=
  (Z.land (p_flags p) (Z.lor RECEIVING SENDING) =? RECEIVING) &&
  ((p_getfrom p =? ANY) || (p_getfrom p =? nr)).

Definition mini_send (caller_ptr : nat) (dest : Z) (m_ptr : Z) : M kst Z :=
  if isuserp caller_ptr && negb (isservn dest) then mret E_BAD_DEST else
  let dest_ptr := proc_addr dest in
  dp ← gets (P dest_ptr);
  if tst (p_flags dp) P_SLOT_FREE then mret E_BAD_DEST else
  cp ← gets (P caller_ptr);
  if bad_mess_addr (seg_D (p_map cp)) m_ptr then mret E_BAD_ADDR else
  locked ← (if tst (p_flags dp) SENDING
            then on_sendlist (S NR_SLOTS) dest_ptr (p_callerq cp)
            else mret false);
  if locked : bool then mret ELOCKED else
  (if is_waiting_for dp (p_nr cp) then
     cp_mess (p_nr cp) caller_ptr m_ptr dest_ptr (p_messbuf dp);;
     upd_proc dest_ptr (fun p => p <| p_flags := bclr (p_flags p) RECEIVING |>);;
     f ← gets (fun s => p_flags (P dest_ptr s));
     when (f =? 0) (ready dest_ptr)
   else
     upd_proc caller_ptr (fun p => p <| p_messbuf := m_ptr |>);;
     f ← gets (fun s => p_flags (P caller_ptr s));
     when (f =? 0) (unready caller_ptr);;
     upd_proc caller_ptr (fun p => p <| p_flags := bset (p_flags p) SENDING |>);;
     q ← gets (fun s => p_callerq (P dest_ptr s));
     (match q with
      | None => upd_proc dest_ptr (fun p => p <| p_callerq := Some caller_ptr |>)
      | Some next =>
          l ← last_sender (S NR_SLOTS) next;
          upd_proc l (fun p => p <| p_sendlink := Some caller_ptr |>)
      end);;
     upd_proc caller_ptr (fun p => p <| p_sendlink := None |>));;
  mret OK.

Definition lock_mini_send (caller_ptr : nat) (dest m_ptr : Z) : M kst Z :=
  lock_switch (mini_send caller_ptr dest m_ptr).

(** ** Signals for MM (system.c) *)

(** The first process, from MM's slot on, with a signal to report. *)
Definition find_pending (s : kst) : option nat :=
  list_find (fun i => tst (p_flags (P i s)) PENDING) (seq 9 32) ≫= fun r => Some (snd r).

(** [--p_pendcount == 0 && (p_flags &= ~SIG_PENDING) == 0]: one pending
    signal has been dealt with. *)
Definition done_one_sig (rp : nat) : M kst unit :=
  c ← gets (fun s => p_pendcount (P rp s));
  if nz c then
    upd_proc rp (fun p => p <| p_pendcount := u16 (p_pendcount p - 1) |>);;
    c' ← gets (fun s => p_pendcount (P rp s));
    if nz c' then mret tt
    else
      upd_proc rp (fun p => p <| p_flags := bclr (p_flags p) SIG_PENDING |>);;
      f ← gets (fun s => p_flags (P rp s));
      when (f =? 0) (lock_ready rp)
  else mret tt.

Definition inform : M kst unit :=
  f ← gets find_pending;
  match f with
  | None => mret tt
  | Some rp =>
      nr ← gets (fun s => p_nr (P rp s));
      map ← gets (fun s => p_pending (P rp s));
      a ← gets m_addr;
      old ← gets (msg_at a);
      put_msg a (mk_msg (m_source old) KSIG [nr; map]);;
      modify (fun s => s <| sig_procs ::= fun n => n - 1 |>);;
      r ← lock_mini_send (proc_addr HARDWARE) MM_PROC_NR a;
      if negb (r =? OK) then panic "can't inform MM" else
      upd_proc rp (fun p => p <| p_pending := 0 |>);;
      upd_proc rp (fun p => p <| p_flags := bclr (p_flags p) PENDING |>);;
      when (map =? s16 (Z.shiftl 1 (SIGSTKFLT - 1))) (done_one_sig rp);;
      lock_pick_proc
  end.

Definition cause_sig (proc_nr sig_nr : Z) : M kst unit :=
  let rp := proc_addr proc_nr in
  let bit := s16 (Z.shiftl 1 (sig_nr - 1)) in
  pend ← gets (fun s => p_pending (P rp s));
  if tst pend bit then mret tt else
  upd_proc rp (fun p => p <| p_pending := bset (p_pending p) bit |>);;
  upd_proc rp (fun p => p <| p_pendcount := u16 (p_pendcount p + 1) |>);;
  fl ← gets (fun s => p_flags (P rp s));
  if tst fl PENDING then mret tt else
  when (fl =? 0) (lock_unready rp);;
  upd_proc rp (fun p => p <| p_flags := bset (p_flags p) (Z.lor PENDING SIG_PENDING) |>);;
  modify (fun s => s <| sig_procs ::= fun n => n + 1 |>);;
  mmp ← gets (P (proc_addr MM_PROC_NR));
  if negb (tst (p_flags mmp) RECEIVING) || negb (p_getfrom mmp =? ANY) then mret tt
  else inform.

(** ** Receiving *)

(** Search the caller queue for an acceptable sender; the previous entry
    comes along for unlinking. *)
Fixpoint find_sender (fuel : nat) (src : Z) (prev : option nat) (sender : option nat)
    : M kst (option (option nat * nat)) :=
  match fuel with
  | O => nofuel
  | S fuel' =>
      match sender with
      | None => mret None
      | Some sp =>
          nr ← gets (fun s => p_nr (P sp s));
          if (src =? ANY) || (src =? nr) then mret (Some (prev, sp))
          else
            next ← gets (fun s => p_sendlink (P sp s));
            find_sender fuel' src (Some sp) next
      end
  end.

Definition mini_rec (caller_ptr : nat) (src m_ptr : Z) : M kst Z :=
  let block : M kst Z :=
    upd_proc caller_ptr (fun p => p <| p_getfrom := src |>);;
    upd_proc caller_ptr (fun p => p <| p_messbuf := m_ptr |>);;
    f ← gets (fun s => p_flags (P caller_ptr s));
    when (f =? 0) (unready caller_ptr);;
    upd_proc caller_ptr (fun p => p <| p_flags := bset (p_flags p) RECEIVING |>);;
    n ← gets sig_procs;
    nr ← gets (fun s => p_nr (P caller_ptr s));
    when ((0 <? n) && (nr =? MM_PROC_NR) && (src =? ANY)) inform;;
    mret OK in
  cp ← gets (P caller_ptr);
  if tst (p_flags cp) SENDING then block else
  found ← find_sender (S NR_SLOTS) src None (p_callerq cp);
  match found with
  | Some (prev, sender) =>
      snr ← gets (fun s => p_nr (P sender s));
      sbuf ← gets (fun s => p_messbuf (P sender s));
      cp_mess snr sender sbuf caller_ptr m_ptr;;
      link ← gets (fun s => p_sendlink (P sender s));
      q ← gets (fun s => p_callerq (P caller_ptr s));
      (if decide (q = Some sender)
       then upd_proc caller_ptr (fun p => p <| p_callerq := link |>)
       else match prev with
            | Some pr => upd_proc pr (fun p => p <| p_sendlink := link |>)
            | None => panic "previous_ptr not set"
            end);;
      upd_proc sender (fun p => p <| p_flags := bclr (p_flags p) SENDING |>);;
      f ← gets (fun s => p_flags (P sender s));
      when (f =? 0) (ready sender);;
      mret OK
  | None =>
      if p_int_blocked cp && isrxhardware src then
        old ← gets (msg_at m_ptr);
        put_msg m_ptr (mk_msg HARDWARE HARD_INT (m_words old));;
        upd_proc caller_ptr (fun p => p <| p_int_blocked := false |>);;
        mret OK
      else block
  end.

Definition sys_call (function src_dest m_ptr : Z) : M kst Z :=
  if negb (isoksrc_dest src_dest) then mret E_BAD_SRC else
  rp ← gets proc_ptr;
  if negb (function =? BOTH) && isuserp rp then mret E_NO_PERM else
  if tst function SEND then
    n ← mini_send rp src_dest m_ptr;
    if (function =? SEND) || negb (n =? OK) then mret n
    else mini_rec rp src_dest m_ptr
  else mini_rec rp src_dest m_ptr.

(** ** Interrupts *)

Definition interrupt (task : Z) : M kst unit :=
  let rp := proc_addr task in
  re ← gets k_reenter;
  sw ← gets switching;
  if nz re || sw then
    held ← gets (fun s => p_int_held (P rp s));
    if held : bool then mret tt else
    upd_proc rp (fun p => p <| p_int_held := true |>);;
    h ← gets held_head;
    (match h with
     | Some _ =>
         t ← gets held_tail;
         match t with
         | Some t => upd_proc t (fun p => p <| p_nextheld := Some rp |>)
         | None => panic "nil held_tail"
         end
     | None => modify (fun s => s <| held_head := Some rp |>)
     end);;
    modify (fun s => s <| held_tail := Some rp |>);;
    upd_proc rp (fun p => p <| p_nextheld := None |>)
  else
    p ← gets (P rp);
    if negb (Z.land (p_flags p) (Z.lor RECEIVING SENDING) =? RECEIVING)
       || negb (isrxhardware (p_getfrom p)) then
      upd_proc rp (fun p => p <| p_int_blocked := true |>)
    else
      old ← gets (msg_at (p_messbuf p));
      put_msg (p_messbuf p) (mk_msg HARDWARE HARD_INT (m_words old));;
      upd_proc rp (fun p => p <| p_flags := bclr (p_flags p) RECEIVING |>);;
      upd_proc rp (fun p => p <| p_int_blocked := false |>);;
      enqueue TASK_Q rp.

(** [unhold]; interrupts that arrive while it runs are not part of the
    step. *)
Fixpoint unhold_loop (fuel : nat) (rp : nat) : M kst unit :=
  match fuel with
  | O => nofuel
  | S fuel' =>
      next ← gets (fun s => p_nextheld (P rp s));
      modify (fun s => s <| held_head := next |>);;
      when (bool_decide (next = None)) (modify (fun s => s <| held_tail := None |>));;
      upd_proc rp (fun p => p <| p_int_held := false |>);;
      nr ← gets (fun s => p_nr (P rp s));
      interrupt nr;;
      h ← gets held_head;
      match h with
      | None => mret tt
      | Some rp' => unhold_loop fuel' rp'
      end
  end.

Definition unhold : M kst unit :=
  sw ← gets switching;
  if sw : bool then mret tt else
  h ← gets held_head;
  match h with
  | None => panic "nil held_head"
  | Some rp => unhold_loop (S NR_SLOTS) rp
  end.
