(* ===== verification/KQueues.v ===== *)
(** * The ready queues as lists: refinement of the scheduler of [proc.c]

    [RQ s Q]: the linked ready queues of kernel state [s] represent the lists
    [Q q]. [enqueue] appends, [unready] removes, [sched] rotates the user
    queue and [pick_proc] takes the head of the first non-empty queue; all of
    them leave everything but the scheduler's own fields alone. *)

From S2P Require Import Prelude KProc.

Lemma P_alter s i f j : (i < length (procs s))%nat ->
  P j (s <| procs ::= alter f i |>) = if decide (i = j) then f (P j s) else P j s.
Proof.
  intros Hi. unfold P; simpl. case_decide as Hij; [subst j|].
  - by rewrite tbl_alter_eq.
  - by rewrite tbl_alter_ne.
Qed.

(** ** Frames: the process table up to the scheduler's link field. *)
Definition no_ready (p : proc) : proc := p <| p_nextready := None |>.

Record sched_frame (s s' : kst) : Prop := {
  sf_procs : no_ready <$> procs s' = no_ready <$> procs s;
  sf_held : held_head s' = held_head s /\ held_tail s' = held_tail s;
  sf_misc : k_reenter s' = k_reenter s /\ sig_procs s' = sig_procs s /\
            k_mem s' = k_mem s /\ m_addr s' = m_addr s;
}.

#[export] Instance sched_frame_refl : Reflexive sched_frame.
Proof. by intros s; split. Qed.
#[export] Instance sched_frame_trans : Transitive sched_frame.
Proof. intros s1 s2 s3 [? [] (?&?&?&?)] [? [] (?&?&?&?)]. split; [|split|split_and!]; congruence. Qed.

Lemma sched_frame_len s s' : sched_frame s s' -> length (procs s') = length (procs s).
Proof. intros [H _ _]. apply (f_equal length) in H. by rewrite !length_fmap in H. Qed.

Lemma sched_frame_P s s' i : sched_frame s s' -> no_ready (P i s') = no_ready (P i s).
Proof.
  intros Hf. pose proof (sched_frame_len _ _ Hf) as Hlen. destruct Hf as [H _ _].
  apply (f_equal (fun l => l !! i)) in H. rewrite !list_lookup_fmap in H.
  unfold P. rewrite !list_lookup_total_alt.
  destruct (procs s' !! i) as [x|] eqn:E1, (procs s !! i) as [y|] eqn:E2; simpl in *; congruence.
Qed.

(** Any field other than the link reads the same. *)
Lemma sched_frame_field {A} (f : proc -> A) s s' i :
  (forall p, f (no_ready p) = f p) -> sched_frame s s' -> f (P i s') = f (P i s).
Proof. intros Hf Hs. rewrite <- (Hf (P i s')), (sched_frame_P _ _ _ Hs). apply Hf. Qed.

Lemma sched_frame_alter s i v :
  sched_frame s (s <| procs ::= alter (fun p => p <| p_nextready := v |>) i |>).
Proof.
  split; [|done|done]. simpl. apply list_eq. intros j. rewrite !list_lookup_fmap, list_lookup_alter.
  case_decide; [subst|done]. by destruct (procs s !! j).
Qed.

(** ** Representation *)
Definition queue_of (s : kst) (i : nat) : nat :=
  if istaskp i then TASK_Q else if negb (isuserp i) then SERVER_Q
  else if isshadowp i s then SHADOW_Q else USER_Q.

Lemma queue_of_lt s i : (queue_of s i < NQ)%nat.
Proof. unfold queue_of, TASK_Q, SERVER_Q, SHADOW_Q, USER_Q, NQ. repeat case_match; lia. Qed.

Lemma queue_of_frame s s' i : sched_frame s s' -> queue_of s' i = queue_of s i.
Proof. intros Hf. unfold queue_of, isshadowp. by rewrite (sched_frame_field p_shadow s s'). Qed.

Definition nextready (s : kst) (i : nat) : option nat := p_nextready (P i s).

Definition RQ (s : kst) (Q : nat -> list nat) : Prop :=
  length (procs s) = NR_SLOTS /\ length (rdy_head s) = NQ /\ length (rdy_tail s) = NQ /\
  forall q, (q < NQ)%nat ->
    llist (nextready s) (rdy_head s !!! q) (Q q) /\ NoDup (Q q) /\
    (Q q <> [] -> rdy_tail s !!! q = last (Q q)) /\
    (forall i, i ∈ Q q -> (i < NR_SLOTS)%nat /\ queue_of s i = q).

Lemma RQ_disjoint s Q q q' i : RQ s Q -> (q < NQ)%nat -> (q' < NQ)%nat ->
  i ∈ Q q -> i ∈ Q q' -> q = q'.
Proof.
  intros (_ & _ & _ & HQ) Hq Hq' Hi Hi'.
  destruct (HQ q Hq) as (_ & _ & _ & H1), (HQ q' Hq') as (_ & _ & _ & H2).
  destruct (H1 i Hi) as [_ <-], (H2 i Hi') as [_ <-]. done.
Qed.

Lemma RQ_length s Q q : RQ s Q -> (q < NQ)%nat -> (length (Q q) <= NR_SLOTS)%nat.
Proof.
  intros (_ & _ & _ & HQ) Hq. destruct (HQ q Hq) as (_ & Hnd & _ & Hin).
  rewrite <- (length_seq NR_SLOTS 0). apply submseteq_length, NoDup_submseteq; [done|].
  intros i Hi. apply elem_of_seq. destruct (Hin i Hi). lia.
Qed.

(** [Q] with queue [q] replaced. *)
Definition qset (q : nat) (l : list nat) (Q : nat -> list nat) (q' : nat) : list nat :=
  if decide (q' = q) then l else Q q'.

(** Replacing one queue: all that changed is inside queue [q]. *)
Lemma RQ_update s s' Q q l :
  RQ s Q -> sched_frame s s' -> (q < NQ)%nat ->
  length (rdy_head s') = NQ -> length (rdy_tail s') = NQ ->
  (forall q', q' <> q -> rdy_head s' !!! q' = rdy_head s !!! q' /\
                         rdy_tail s' !!! q' = rdy_tail s !!! q') ->
  (forall i, queue_of s i <> q -> nextready s' i = nextready s i) ->
  llist (nextready s') (rdy_head s' !!! q) l -> NoDup l ->
  (l <> [] -> rdy_tail s' !!! q = last l) ->
  (forall i, i ∈ l -> (i < NR_SLOTS)%nat /\ queue_of s i = q) ->
  RQ s' (qset q l Q).
Proof.
  intros (Hlen & Hh & Ht & HQ) Hf Hq Hh' Ht' Hoth Hnx Hl Hnd Htl Hin.
  split_and!; [by rewrite (sched_frame_len _ _ Hf)|done|done|].
  intros q' Hq'. unfold qset. case_decide as Hne; [subst q'|].
  - split_and!; try done.
    intros i Hi. rewrite (queue_of_frame _ _ _ Hf). by apply Hin.
  - destruct (HQ q' Hq') as (H1 & H2 & H3 & H4).
    destruct (Hoth q' Hne) as [-> ->]. split_and!; try done.
    + eapply lseg_frame; [|exact H1]. intros i Hi. apply Hnx. destruct (H4 i Hi). congruence.
    + intros i Hi. rewrite (queue_of_frame _ _ _ Hf). by apply H4.
Qed.

(** ** [pick_proc] *)
Definition pick (Q : nat -> list nat) : nat :=
  match Q TASK_Q, Q SERVER_Q, Q USER_Q with
  | i :: _, _, _ => i
  | [], i :: _, _ => i
  | [], [], i :: _ => i
  | [], [], [] => proc_addr IDLE
  end.

Lemma rq_head s Q q : RQ s Q -> (q < NQ)%nat -> rdy_head s !!! q = head (Q q).
Proof.
  intros (_ & _ & _ & HQ) Hq. destruct (HQ q Hq) as (Hl & _). destruct (Q q); simpl in *; naive_solver.
Qed.

Lemma pick_proc_ok s Q : RQ s Q ->
  wp pick_proc (fun _ s' => RQ s' Q /\ sched_frame s s' /\ proc_ptr s' = pick Q /\
    switching s' = switching s) s.
Proof.
  intros HQ. unfold pick_proc, pick. wp_steps.
  rewrite (rq_head _ _ _ HQ) by (unfold NQ, TASK_Q; lia).
  destruct (Q TASK_Q); cbn [hd_error]; wp_steps; [|by split_and!].
  rewrite (rq_head _ _ _ HQ) by (unfold NQ, SERVER_Q; lia).
  destruct (Q SERVER_Q); cbn [hd_error]; wp_steps; [|by split_and!].
  rewrite (rq_head _ _ _ HQ) by (unfold NQ, USER_Q; lia).
  destruct (Q USER_Q); cbn [hd_error]; wp_steps; by split_and!.
Qed.

(** ** [enqueue] and [ready] *)
Lemma enqueue_ok s Q q rp : RQ s Q -> (q < NQ)%nat -> (rp < NR_SLOTS)%nat ->
  queue_of s rp = q -> rp ∉ Q q ->
  wp (enqueue q rp) (fun _ s' => RQ s' (qset q (Q q ++ [rp]) Q) /\ sched_frame s s' /\
    proc_ptr s' = proc_ptr s /\ switching s' = switching s) s.
Proof.
  intros HQ Hq Hrp Hqo Hni. pose proof HQ as (Hlen & Hh & Ht & Hall).
  destruct (Hall q Hq) as (Hl & Hnd & Htl & Hin).
  assert (Hnd' : NoDup (Q q ++ [rp])).
  { apply NoDup_app. split_and!; [done|set_solver|]. apply NoDup_singleton. }
  unfold enqueue. wp_steps. destruct (Q q) as [|h l] eqn:EQ.
  - simpl in Hl. rewrite Hl. unfold upd_proc. wp_steps. set (s1 := _ <| rdy_tail ::= _ |>).
    assert (Hx : forall j, nextready (s1 <| procs ::= alter (fun p => p <| p_nextready := None |>) rp |>) j
      = if decide (rp = j) then None else nextready s j).
    { intros j. unfold nextready. rewrite P_alter by (simpl; lia). by case_decide. }
    assert (Hf : sched_frame s (s1 <| procs ::= alter (fun p => p <| p_nextready := None |>) rp |>)).
    { transitivity s1; [by split|apply sched_frame_alter]. }
    split; [|done]. eapply RQ_update; try done; simpl; rewrite ?length_insert; try done.
    + intros q' Hne. by rewrite !list_lookup_total_insert_ne by done.
    + intros i Hi. rewrite Hx, decide_False; [done|]. congruence.
    + rewrite list_lookup_total_insert_eq by lia. split; [done|]. by rewrite Hx, decide_True.
    + intros _. by rewrite list_lookup_total_insert_eq by lia.
    + intros i. rewrite list_elem_of_singleton. intros ->. done.
  - rewrite (lseg_head _ _ _ _ _ Hl). wp_steps. rewrite (Htl ltac:(done)).
    destruct (last (h :: l)) as [t|] eqn:Hlast; [|by apply last_None in Hlast].
    apply last_Some in Hlast as [l' Hl'].
    assert (t ∈ h :: l) as Htin by (rewrite Hl'; set_solver).
    destruct (Hin t Htin) as [Htlt Htq].
    unfold upd_proc. wp_steps.
    set (s0 := s <| procs ::= _ |>). set (s1 := s0 <| rdy_tail ::= _ |>).
    set (s2 := s1 <| procs ::= _ |>).
    assert (Hx : forall j, nextready s2 j = if decide (rp = j) then None
      else if decide (t = j) then Some rp else nextready s j).
    { intros j. unfold nextready.
      etrans; [apply (f_equal p_nextready), (P_alter s1); simpl; rewrite length_alter; lia|].
      case_decide; [done|]. change (P j s1) with (P j s0). unfold s0. rewrite P_alter by lia.
      by case_decide. }
    assert (Hf : sched_frame s s2).
    { transitivity s1; [|apply sched_frame_alter]. transitivity s0; [apply sched_frame_alter|by split]. }
    split; [|done]. eapply RQ_update; try done; simpl; rewrite ?length_insert; try done.
    + intros q' Hne. by rewrite !list_lookup_total_insert_ne by done.
    + intros i Hi. rewrite Hx, !decide_False; congruence.
    + change (h :: l ++ [rp]) with ((h :: l) ++ [rp]).
      eapply (lseg_link (nextready s) _ (rdy_head s !!! q) _ (h :: l) rp [] None None);
        try done; [set_solver|..].
      * set_solver.
      * by rewrite Hx, decide_True.
      * intros j. rewrite Hl', last_snoc, Hx. intros [= ->].
        rewrite decide_False, decide_True by set_solver. done.
      * intros j Hj. rewrite Hl', last_snoc, Hx. intros ?.
        rewrite !decide_False by (congruence || set_solver). done.
    + intros _. rewrite list_lookup_total_insert_eq by lia.
      change (h :: l ++ [rp]) with ((h :: l) ++ [rp]). by rewrite last_snoc.
    + intros i. change (h :: l ++ [rp]) with ((h :: l) ++ [rp]).
      rewrite elem_of_app, list_elem_of_singleton. intros [Hi| ->]; [by apply Hin|done].
Qed.

Lemma ready_ok s Q rp : RQ s Q -> (rp < NR_SLOTS)%nat -> rp ∉ Q (queue_of s rp) ->
  wp (ready rp) (fun _ s' =>
    RQ s' (qset (queue_of s rp) (Q (queue_of s rp) ++ [rp]) Q) /\ sched_frame s s' /\
    proc_ptr s' = proc_ptr s /\ switching s' = switching s) s.
Proof.
  intros HQ Hrp Hni. pose proof (queue_of_lt s rp) as Hq.
  pose proof (enqueue_ok s Q _ rp HQ Hq Hrp eq_refl Hni) as He. revert He.
  unfold ready, queue_of. destruct (istaskp rp); [done|]. destruct (negb (isuserp rp)); [done|].
  intros He. wp_steps. by destruct (isshadowp rp s).
Qed.

(** ** [unready] *)
Definition del (i : nat) (l : list nat) : list nat := filter (fun j => j <> i) l.

Lemma del_notin i l : i ∉ l -> del i l = l.
Proof.
  intros H. unfold del. induction l as [|j l IH]; [done|]. rewrite filter_cons_True by set_solver.
  f_equal. apply IH. set_solver.
Qed.
Lemma del_mid i l1 l2 : i ∉ l1 -> i ∉ l2 -> del i (l1 ++ i :: l2) = l1 ++ l2.
Proof.
  intros H1 H2. unfold del. rewrite filter_app, filter_cons_False by naive_solver.
  fold (del i l1) (del i l2). by rewrite !del_notin.
Qed.
Lemma elem_of_del i j l : j ∈ del i l <-> j ∈ l /\ j <> i.
Proof. unfold del. rewrite list_elem_of_filter. tauto. Qed.

Lemma unready_find_ok s rp fuel : forall l xp, llist (nextready s) (Some xp) (xp :: l) ->
  (length l < fuel)%nat ->
  wp (unready_find fuel rp xp) (fun r s' => s' = s /\
    match r with
    | None => rp ∉ l
    | Some x => exists l1 l2, xp :: l = l1 ++ x :: rp :: l2
    end) s.
Proof.
  induction fuel as [|fuel IH]; intros l xp Hl Hf; [lia|]. simpl. wp_steps.
  destruct Hl as [_ Hl]. change (p_nextready (P xp s)) with (nextready s xp).
  case_decide as Hn.
  - wp_steps. split; [done|]. rewrite Hn in Hl. apply llist_some in Hl as (l' & -> & _).
    by exists [], l'.
  - destruct (nextready s xp) as [x|] eqn:Hx.
    + pose proof Hl as Hl'. apply llist_some in Hl' as (l' & -> & Hl').
      eapply wp_mono; [apply (IH l' x); [done|simpl in *; lia]|].
      intros [y|] s' [-> Hr]; (split; [done|]).
      * destruct Hr as (l1 & l2 & Heq). exists (xp :: l1), l2. by rewrite Heq.
      * intros [->|?]%elem_of_cons; congruence.
    + wp_steps. apply llist_nil in Hl as ->. split; [done|]. apply not_elem_of_nil.
Qed.

Lemma last_from_ok s fuel : forall l x, llist (nextready s) (Some x) (x :: l) ->
  (length l < fuel)%nat ->
  wp (last_from fuel x) (fun r s' => s' = s /\ last (x :: l) = Some r) s.
Proof.
  induction fuel as [|fuel IH]; intros l x Hl Hf; [lia|]. simpl. wp_steps.
  destruct Hl as [_ Hl]. change (p_nextready (P x s)) with (nextready s x).
  destruct (nextready s x) as [y|] eqn:Hx.
  - pose proof Hl as Hl'. apply llist_some in Hl' as (l' & -> & Hl').
    eapply wp_mono; [apply (IH l' y); [done|simpl in *; lia]|]. by intros r s' [-> Hr].
  - wp_steps. by apply llist_nil in Hl as ->.
Qed.

Lemma unready_q_ok s Q q rp : RQ s Q -> (q < NQ)%nat -> queue_of s rp = q ->
  wp (unready_q q rp) (fun _ s' => RQ s' (qset q (del rp (Q q)) Q) /\ sched_frame s s' /\
    switching s' = switching s /\
    proc_ptr s' = if decide (head (Q q) = Some rp /\ rp = proc_ptr s)
                  then pick (qset q (del rp (Q q)) Q) else proc_ptr s) s.
Proof.
  intros HQ Hq Hqo. pose proof HQ as (Hlen & Hh & Ht & Hall).
  destruct (Hall q Hq) as (Hl & Hnd & Htl & Hin).
  assert (Hid : forall l, l = Q q -> RQ s (qset q l Q)).
  { intros l ->. split_and!; try done. intros q' Hq'. unfold qset. case_decide; [subst|]; by apply Hall. }
  unfold unready_q. wp_steps. rewrite (rq_head _ _ _ HQ Hq).
  destruct (Q q) as [|h l] eqn:EQ; cbn [hd_error]; wp_steps.
  { split_and!; [by apply Hid|done|done|]. by rewrite decide_False by naive_solver. }
  apply NoDup_cons in Hnd as [Hhl Hnd]. pose proof Hl as [_ Hl'].
  case_decide as Hhr.
  - subst h. wp_steps. change (p_nextready (P rp s)) with (nextready s rp).
    set (s1 := s <| rdy_head ::= _ |>).
    assert (Hdel : del rp (rp :: l) = l) by (by apply (del_mid rp []); [set_solver|]).
    rewrite Hdel. assert (Hs1 : RQ s1 (qset q l Q)).
    { eapply RQ_update; try done; simpl; rewrite ?length_insert; try done.
      - intros q' Hne. by rewrite !list_lookup_total_insert_ne by done.
      - by rewrite list_lookup_total_insert_eq by lia.
      - intros Hne. rewrite (Htl ltac:(done)). destruct l; [done|]. done.
      - intros i Hi. apply Hin. set_solver. }
    destruct (Nat.eqb_spec rp (proc_ptr s1)) as [Heq|Hne]; unfold when.
    + eapply wp_mono; [apply (pick_proc_ok s1 _ Hs1)|].
      intros [] s' (HQ' & Hf & Hp & Hsw). split_and!; try done.
      * transitivity s1; [by split|done].
      * by rewrite decide_True.
    + wp_steps. split_and!; try done. rewrite decide_False by naive_solver. done.
  - rewrite decide_False by naive_solver.
    pose proof (RQ_length s Q q HQ Hq) as Hln. rewrite EQ in Hln.
    wp_steps. eapply wp_mono; [apply (unready_find_ok s rp (S NR_SLOTS) l h)|].
    { by split. } { simpl in Hln; lia. }
    intros [x|] s' [-> Hr]; wp_steps.
    2:{ split_and!; try done. apply Hid. apply del_notin. set_solver. }
    destruct Hr as (l1 & l2 & Heq). rewrite Heq in *.
    assert (Hnd2 : NoDup (l1 ++ x :: rp :: l2)) by (rewrite <- Heq; by constructor).
    assert (Hx : x ∉ rp :: l2 /\ x ∉ l1 /\ rp ∉ l1 /\ rp ∉ l2 /\ NoDup (l1 ++ x :: l2)).
    { revert Hnd2. rewrite !NoDup_app, !NoDup_cons. set_solver. }
    destruct Hx as (Hx1 & Hx2 & Hx3 & Hx4 & Hnd3).
    replace (l1 ++ x :: rp :: l2) with ((l1 ++ [x]) ++ rp :: l2) in * by (by rewrite <- app_assoc).
    rewrite del_mid by set_solver.
    assert (Hxlt : (x < NR_SLOTS)%nat) by (apply Hin; set_solver).
    change (p_nextready (P rp s)) with (nextready s rp). unfold upd_proc. wp_steps.
    set (s1 := s <| procs ::= _ |>).
    assert (Hnx : forall j, nextready s1 j = if decide (x = j) then nextready s rp else nextready s j).
    { intros j. unfold nextready, s1. rewrite P_alter by lia. by case_decide. }
    assert (Hf1 : sched_frame s s1) by apply sched_frame_alter.
    assert (Hl1 : llist (nextready s1) (rdy_head s !!! q) ((l1 ++ [x]) ++ l2)).
    { eapply (lseg_unlink (nextready s)); [exact Hl| | | |].
      - done.
      - intros j. rewrite last_snoc, Hnx. intros [= ->]. by rewrite decide_True.
      - intros j _. rewrite last_snoc, Hnx. intros ?. rewrite decide_False by congruence. done.
      - by destruct l1. }
    apply lseg_app in Hl1 as (y & Hl1 & Hl2).
    assert (y = nextready s rp).
    { apply lseg_snoc in Hl1 as [_ <-]. by rewrite Hnx, decide_True. } subst y.
    eapply wp_mono; [apply (last_from_ok s1 (S NR_SLOTS) l2 x)|].
    { split; [done|]. rewrite Hnx, decide_True by done. done. }
    { rewrite !length_app in Hln. simpl in Hln. lia. }
    intros r s' [-> Hlast]. wp_steps.
    set (s2 := s1 <| rdy_tail ::= _ |>).
    assert (Hf2 : sched_frame s s2) by (transitivity s1; [done|by split]).
    split_and!; try done.
    eapply RQ_update; try done; simpl; rewrite ?length_insert; try done.
    + intros q' Hne. by rewrite !list_lookup_total_insert_ne by done.
    + intros i Hi. change (nextready s2 i) with (nextready s1 i). rewrite Hnx, decide_False; [done|].
      intros <-. apply Hi. apply Hin. set_solver.
    + apply lseg_app. exists (nextready s rp). done.
    + by rewrite <- app_assoc.
    + intros _. rewrite list_lookup_total_insert_eq by lia.
      rewrite <- app_assoc. change ([x] ++ l2) with (x :: l2). by rewrite last_app_cons.
    + intros i Hi. apply Hin. set_solver.
Qed.

Lemma unready_ok s Q rp : RQ s Q ->
  wp (unready rp) (fun _ s' => let q := queue_of s rp in
    RQ s' (qset q (del rp (Q q)) Q) /\ sched_frame s s' /\ switching s' = switching s /\
    proc_ptr s' = if decide (head (Q q) = Some rp /\ rp = proc_ptr s)
                  then pick (qset q (del rp (Q q)) Q) else proc_ptr s) s.
Proof.
  intros HQ. pose proof (unready_q_ok s Q _ rp HQ (queue_of_lt s rp) eq_refl) as He. revert He.
  unfold unready, queue_of. destruct (istaskp rp); [done|]. destruct (negb (isuserp rp)); [done|].
  intros He. wp_steps. by destruct (isshadowp rp s).
Qed.

(** ** [sched] *)
Definition rotate1 (l : list nat) : list nat :=
  match l with [] => [] | h :: l' => l' ++ [h] end.

Lemma sched_ok s Q : RQ s Q ->
  wp sched (fun _ s' => let Q' := qset USER_Q (rotate1 (Q USER_Q)) Q in
    RQ s' Q' /\ sched_frame s s' /\ switching s' = switching s /\
    proc_ptr s' = if decide (Q USER_Q = []) then proc_ptr s else pick Q') s.
Proof.
  intros HQ. pose proof HQ as (Hlen & Hh & Ht & Hall).
  assert (Hq : (USER_Q < NQ)%nat) by (unfold USER_Q, NQ; lia).
  destruct (Hall USER_Q Hq) as (Hl & Hnd & Htl & Hin).
  unfold sched. wp_steps. rewrite (rq_head _ _ _ HQ Hq).
  destruct (Q USER_Q) as [|h l] eqn:EQ; cbn [hd_error rotate1]; wp_steps.
  { split_and!; try done. split_and!; try done. intros q' Hq'. unfold qset. case_decide; [subst|by apply Hall].
    by split_and!. }
  rewrite (Htl ltac:(done)).
  destruct (last (h :: l)) as [t|] eqn:Hlast; [|by apply last_None in Hlast].
  apply last_Some in Hlast as [l' Hl'].
  assert (Htlt : (t < NR_SLOTS)%nat) by (apply Hin; rewrite Hl'; set_solver).
  assert (Hhlt : (h < NR_SLOTS)%nat) by (apply Hin; set_solver).
  pose proof Hnd as [Hhl Hndl]%NoDup_cons. destruct Hl as [Hhd Hl].
  unfold upd_proc. wp_steps.
  set (s1 := s <| procs ::= _ |>). set (s2 := s1 <| rdy_tail ::= _ |>).
  change (p_nextready (P h s2)) with (nextready s1 h).
  assert (Hn1 : forall j, nextready s1 j = if decide (t = j) then Some h else nextready s j).
  { intros j. unfold nextready, s1. rewrite P_alter by lia. by case_decide. }
  set (s3 := s2 <| rdy_head ::= _ |>). set (s4 := s3 <| procs ::= _ |>).
  assert (Hn4 : forall j, nextready s4 j = if decide (h = j) then None else nextready s1 j).
  { intros j. unfold nextready at 1.
    etrans; [apply (f_equal p_nextready), (P_alter s3); simpl; rewrite length_alter; lia|].
    by case_decide. }
  assert (Hf : sched_frame s s4).
  { transitivity s1; [apply sched_frame_alter|]. transitivity s3; [by split|apply sched_frame_alter]. }
  assert (HQ4 : RQ s4 (qset USER_Q (l ++ [h]) Q)).
  { eapply RQ_update; try done; simpl; rewrite ?length_insert; try done.
    - intros q' Hne. by rewrite !list_lookup_total_insert_ne by done.
    - intros i Hi. assert (h <> i /\ t <> i) as [? ?].
      { split; intros ->; apply Hi; apply Hin; [set_solver|rewrite Hl'; set_solver]. }
      by rewrite Hn4, decide_False, Hn1, decide_False.
    - rewrite list_lookup_total_insert_eq by lia. rewrite Hn1.
      destruct l as [|x l] using rev_ind; [|clear IHl].
      + destruct l'; simplify_eq/=; [|by destruct l']. rewrite decide_True by done.
        split; [done|]. rewrite Hn4, decide_True by done. done.
      + rewrite app_comm_cons in Hl'. apply app_inj_tail in Hl' as [<- ->].
        assert (h <> t) by set_solver. rewrite decide_False by done.
        assert (t ∉ l) by (apply NoDup_app in Hndl; set_solver).
        apply lseg_snoc in Hl as [Hl _]. apply lseg_snoc. split; [|by rewrite Hn4, decide_True].
        apply lseg_snoc. split.
        * eapply lseg_frame; [|exact Hl]. intros j Hj.
          rewrite Hn4, decide_False, Hn1, decide_False by set_solver. done.
        * by rewrite Hn4, decide_False, Hn1, decide_True by done.
    - apply NoDup_app. split_and!; [done|set_solver|apply NoDup_singleton].
    - intros _. rewrite list_lookup_total_insert_eq by lia. by rewrite last_snoc.
    - intros i. rewrite elem_of_app, list_elem_of_singleton. intros [?| ->]; apply Hin; set_solver. }
  eapply wp_mono; [apply (pick_proc_ok s4 _ HQ4)|].
  intros [] s' (HQ' & Hf' & Hp & Hsw). split_and!; try done. by transitivity s4.
Qed.
