(* ===== verification/KIpc.v ===== *)
(** * The rendezvous message system: invariant and behaviour of [proc.c]

    The kernel invariant [KI]: the ready queues hold exactly the processes
    without a blocking flag; the caller queue of each process is a list of
    the processes that are [SENDING] to it, each of them in exactly one such
    queue; no two processes send to each other; [sig_procs] counts the
    processes with signals to report. It is preserved by every entry point of
    proc.c and by [cause_sig]; none of them panics or loops. *)

From S2P Require Import Prelude KProc KQueues.

Abbreviation flags s i := (p_flags (P i s)).
Definition slot_ok (i : nat) : Prop := (i < NR_SLOTS)%nat.
Definition HW : nat := proc_addr HARDWARE.
Definition IDLEP : nat := proc_addr IDLE.
Definition MMP : nat := proc_addr MM_PROC_NR.

Lemma P_len_alter s i f :
  length (procs (s <| procs ::= alter f i |>)) = length (procs s).
Proof. apply length_alter. Qed.

(** ** Ready queues and flags agree *)
Definition SI (s : kst) (Q : nat -> list nat) : Prop :=
  RQ s Q /\
  forall i, slot_ok i ->
    (i ∈ Q (queue_of s i) <-> flags s i = 0 /\ i <> IDLEP /\ i <> HW).

Definition set_flags (f : Z -> Z) (p : proc) : proc := p <| p_flags := f (p_flags p) |>.
Definition at_flags (i : nat) (f : Z -> Z) (s : kst) : kst :=
  s <| procs ::= alter (set_flags f) i |>.

(** Changing fields that neither link nor flag anything keeps [RQ]. *)
Lemma RQ_ext s s' Q : length (procs s') = length (procs s) ->
  rdy_head s' = rdy_head s -> rdy_tail s' = rdy_tail s ->
  (forall i, p_nextready (P i s') = p_nextready (P i s) /\ p_shadow (P i s') = p_shadow (P i s)) ->
  RQ s Q -> RQ s' Q.
Proof.
  intros Hlen Hh Ht Hf (H1 & H2 & H3 & HQ). unfold RQ. rewrite Hlen, Hh, Ht. split_and!; try done.
  intros q Hq. destruct (HQ q Hq) as (Hl & Hnd & Htl & Hin). split_and!; try done.
  - eapply lseg_frame; [|exact Hl]. intros i _. apply Hf.
  - intros i Hi. destruct (Hin i Hi) as [? <-]. split; [done|].
    unfold queue_of, isshadowp. by rewrite (proj2 (Hf i)).
Qed.

Lemma queue_of_ext s s' i : p_shadow (P i s') = p_shadow (P i s) -> queue_of s' i = queue_of s i.
Proof. unfold queue_of, isshadowp. by intros ->. Qed.

Lemma SI_ext s s' Q : length (procs s') = length (procs s) ->
  rdy_head s' = rdy_head s -> rdy_tail s' = rdy_tail s ->
  (forall i, p_nextready (P i s') = p_nextready (P i s) /\ p_shadow (P i s') = p_shadow (P i s) /\
     flags s' i = flags s i) ->
  SI s Q -> SI s' Q.
Proof.
  intros Hlen Hh Ht Hf [HQ Hr]. split; [eapply RQ_ext; try done; intros i; split; apply Hf|].
  intros i Hi. destruct (Hf i) as (_ & Hs & ->). rewrite (queue_of_ext s) by done. by apply Hr.
Qed.

Lemma at_flags_P s i f j : slot_ok i -> length (procs s) = NR_SLOTS ->
  P j (at_flags i f s) = if decide (i = j) then set_flags f (P j s) else P j s.
Proof. intros Hi Hlen. apply P_alter. rewrite Hlen. done. Qed.

Lemma RQ_at_flags s Q i f : slot_ok i -> RQ s Q -> RQ (at_flags i f s) Q.
Proof.
  intros Hi HQ. pose proof HQ as (Hlen & _). eapply RQ_ext; [apply length_alter|..]; try done.
  intros j. rewrite at_flags_P by done. by case_decide.
Qed.

Lemma at_flags_queue s i f j : slot_ok i -> length (procs s) = NR_SLOTS ->
  queue_of (at_flags i f s) j = queue_of s j.
Proof. intros. apply queue_of_ext. rewrite at_flags_P by done. by case_decide. Qed.

Lemma at_flags_sched s s' i f : slot_ok i -> length (procs s) = NR_SLOTS ->
  sched_frame s s' -> sched_frame (at_flags i f s) (at_flags i f s').
Proof.
  intros Hi Hlen Hf. pose proof (sched_frame_len _ _ Hf) as Hlen'. destruct Hf as [H1 H2 H3].
  split; [|done|done]. change (no_ready <$> alter (set_flags f) i (procs s') =
    no_ready <$> alter (set_flags f) i (procs s)).
  rewrite !(list_fmap_alter no_ready (set_flags f) (set_flags f)) by (apply Forall_true; by intros []).
  by rewrite H1.
Qed.

(** A process is put to sleep with a flag ... *)
Lemma sleep_ok s Q i fl b : SI s Q -> slot_ok i -> fl = flags s i -> b <> 0 ->
  wp (when (fl =? 0) (unready i)) (fun _ s1 => let s' := at_flags i (fun f => bset f b) s1 in
    (exists Q', SI s' Q') /\ sched_frame (at_flags i (fun f => bset f b) s) s' /\
    switching s1 = switching s) s.
Proof.
  intros [HQ Hr] Hi -> Hb. pose proof HQ as (Hlen & _). apply wp_when; intros Hf.
  - apply Z.eqb_eq in Hf. eapply wp_mono; [by apply unready_ok|].
    intros [] s1 (HQ1 & Hfr & Hsw & _). pose proof HQ1 as (Hlen1 & _). cbv zeta.
    split_and!; [|by apply at_flags_sched|done].
    eexists. split; [by apply RQ_at_flags|]. intros j Hj. rewrite at_flags_queue by done.
    rewrite at_flags_P by done. rewrite (queue_of_frame _ _ _ Hfr).
    rewrite (decide_ext (i = j) (j = i)) by naive_solver.
    pose proof (Hr j Hj) as Hrj. rewrite <- (sched_frame_field p_flags s s1) in Hrj by done.
    unfold qset. destruct (decide (j = i)) as [->|Hne].
    + rewrite decide_True by done. rewrite elem_of_del. cbn [set_flags p_flags set_field].
      split; [naive_solver|]. intros [H0 _]. by apply bset_nonzero in H0.
    + case_decide as Hq; [|done]. rewrite elem_of_del, <- Hq. naive_solver.
  - apply Z.eqb_neq in Hf. cbv zeta. split_and!; [|done|done]. exists Q.
    split; [by apply RQ_at_flags|]. intros j Hj. rewrite at_flags_queue, at_flags_P by done.
    case_decide as Hij; [subst j|by apply Hr]. rewrite (Hr i Hi). simpl. split; [naive_solver|].
    intros [H0 _]. by apply bset_nonzero in H0.
Qed.

(** ... and woken when its last flag goes. *)
Lemma wake_ok s Q i b : SI s Q -> slot_ok i -> flags s i <> 0 -> i <> IDLEP -> i <> HW ->
  let s1 := at_flags i (fun f => bclr f b) s in
  wp (when (flags s1 i =? 0) (ready i)) (fun _ s' =>
    (exists Q', SI s' Q') /\ sched_frame s1 s' /\ switching s' = switching s) s1.
Proof.
  intros [HQ Hr] Hi Hf Hni Hnh. pose proof HQ as (Hlen & _). intros s1.
  assert (HQ1 : RQ s1 Q) by by apply RQ_at_flags.
  assert (Hni' : i ∉ Q (queue_of s1 i)).
  { unfold s1. rewrite at_flags_queue, Hr by done. naive_solver. }
  apply wp_when; intros Hf1.
  - apply Z.eqb_eq in Hf1. eapply wp_mono; [by apply (ready_ok s1 Q)|].
    intros [] s' (HQ' & Hfr & _ & Hsw). split_and!; [|done|done]. eexists; split; [done|].
    intros j Hj. rewrite (queue_of_frame _ _ _ Hfr). rewrite (sched_frame_field p_flags s1 s') by done.
    unfold qset. destruct (decide (j = i)) as [->|Hne].
    + rewrite decide_True by done. rewrite Hf1. set_solver.
    + assert (Hj1 : j ∈ Q (queue_of s1 j) <-> flags s1 j = 0 /\ j <> IDLEP /\ j <> HW).
      { unfold s1. rewrite at_flags_queue, at_flags_P, decide_False by done. by apply Hr. }
      case_decide as Hq; [|done]. rewrite Hq in Hj1. rewrite <- Hj1. set_solver.
  - apply Z.eqb_neq in Hf1. split_and!; [|done|done]. exists Q. split; [done|].
    intros j Hj. destruct (decide (j = i)) as [->|Hne]; [naive_solver|].
    unfold s1. rewrite at_flags_queue, at_flags_P, decide_False by done. by apply Hr.
Qed.

(** ** Caller queues *)
Definition sendlink (s : kst) (i : nat) : option nat := p_sendlink (P i s).
Abbreviation sending s i := (tst (flags s i) SENDING).

Record CQ (s : kst) (C : nat -> list nat) : Prop := {
  cq_list d : slot_ok d -> llist (sendlink s) (p_callerq (P d s)) (C d) /\ NoDup (C d);
  cq_in d i : slot_ok d -> i ∈ C d -> slot_ok i /\ sending s i = true;
  cq_snd i : slot_ok i -> sending s i = true -> exists d, slot_ok d /\ i ∈ C d;
  cq_uniq i d d' : slot_ok d -> slot_ok d' -> i ∈ C d -> i ∈ C d' -> d = d';
  cq_mut i d : slot_ok i -> slot_ok d -> i ∈ C d -> d ∈ C i -> i = d;
}.

Definition same_ipc (s s' : kst) : Prop := forall i,
  p_callerq (P i s') = p_callerq (P i s) /\ sendlink s' i = sendlink s i /\
  sending s' i = sending s i.

Lemma CQ_ext s s' C : same_ipc s s' -> CQ s C -> CQ s' C.
Proof.
  intros He [H1 H2 H3 H4 H5]. split; try done.
  - intros d Hd. destruct (He d) as (-> & _ & _). destruct (H1 d Hd). split; [|done].
    eapply lseg_frame; [|done]. intros i _. apply He.
  - intros d i Hd Hi. destruct (He i) as (_ & _ & ->). eauto.
  - intros i Hi. destruct (He i) as (_ & _ & ->). eauto.
Qed.

Lemma CQ_length s C d : CQ s C -> slot_ok d -> (length (C d) <= NR_SLOTS)%nat.
Proof.
  intros HC Hd. rewrite <- (length_seq NR_SLOTS 0). apply submseteq_length, NoDup_submseteq.
  - by apply (cq_list _ _ HC).
  - intros i Hi. apply elem_of_seq. destruct (cq_in _ _ HC d i Hd Hi). unfold slot_ok in *. lia.
Qed.

(** A new sender at the end of [d]'s queue. *)
Lemma CQ_append s s' C i d : CQ s C -> slot_ok i -> slot_ok d ->
  sending s i = false -> (i <> d -> d ∉ C i) ->
  (forall j, p_callerq (P j s') =
     if decide (d = j /\ C d = []) then Some i else p_callerq (P j s)) ->
  (forall j, sendlink s' j =
     if decide (i = j) then None else if decide (last (C d) = Some j) then Some i else sendlink s j) ->
  (forall j, sending s' j = if decide (i = j) then true else sending s j) ->
  CQ s' (qset d (C d ++ [i]) C).
Proof.
  intros HC Hi Hd Hs Hmut Hcq Hsl Hse. pose proof HC as [H1 H2 H3 H4 H5].
  assert (Hno : forall d', slot_ok d' -> i ∉ C d').
  { intros d' Hd' Hin. destruct (H2 d' i Hd' Hin). congruence. }
  assert (Hse' : forall j, j <> i -> sending s' j = sending s j).
  { intros j Hj. by rewrite Hse, decide_False. }
  split; unfold qset.
  - intros d' Hd'. destruct (H1 d' Hd') as [Hl Hnd]. rewrite Hcq. destruct (decide (d' = d)) as [->|E].
    + split; [|apply NoDup_app; split_and!; [done|set_solver|apply NoDup_singleton]].
      eapply (lseg_link (sendlink s) _ (p_callerq (P d s)) _ (C d) i [] None None); try done.
      * by rewrite app_nil_r; apply Hno.
      * set_solver.
      * by rewrite Hsl, decide_True.
      * intros j Hj. rewrite Hsl, decide_False, decide_True; [done..|].
        intros ->. apply last_Some_elem_of in Hj. by apply (Hno d).
      * intros j Hj Hne. rewrite app_nil_r in Hj. rewrite Hsl, !decide_False; [done..|].
        intros ->. by apply (Hno d).
      * destruct (C d); [by rewrite decide_True|by rewrite decide_False by naive_solver].
    + rewrite decide_False by naive_solver. split; [|done].
      eapply lseg_frame; [|exact Hl]. intros j Hj. rewrite Hsl, !decide_False; [done| |].
      * intros Hlast%last_Some_elem_of. apply E. by eapply H4.
      * intros ->. by apply (Hno d').
  - intros d' j Hd'. case_decide as E; [subst d'|].
    + rewrite elem_of_app, list_elem_of_singleton. intros [Hj| ->].
      * destruct (H2 d j Hd Hj). split; [done|]. rewrite Hse. by case_decide.
      * rewrite Hse. by case_decide.
    + intros Hj. destruct (H2 d' j Hd' Hj). split; [done|]. rewrite Hse. by case_decide.
  - intros j Hj. rewrite Hse. case_decide as E.
    + subst j. intros _. exists d. split; [done|]. rewrite decide_True by done. set_solver.
    + intros Hsj. destruct (H3 j Hj Hsj) as (d' & Hd' & Hin). exists d'. split; [done|].
      case_decide; [subst|]; set_solver.
  - intros j d1 d2 Hd1 Hd2. pose proof (H4 j d1 d2). pose proof (Hno d1 Hd1). pose proof (Hno d2 Hd2).
    do 2 case_decide; set_solver.
  - intros j d1 Hj Hd1. pose proof (Hno d1 Hd1). pose proof (Hno j Hj). pose proof (H5 j d1 Hj Hd1).
    pose proof (Hmut). do 2 case_decide; subst; set_solver.
Qed.

(** The sender [x] leaves [d]'s queue. *)
Lemma CQ_remove s s' C d l1 x l2 : CQ s C -> slot_ok d -> C d = l1 ++ x :: l2 ->
  (forall j, p_callerq (P j s') =
     if decide (d = j /\ l1 = []) then sendlink s x else p_callerq (P j s)) ->
  (forall j, sendlink s' j = if decide (last l1 = Some j) then sendlink s x else sendlink s j) ->
  (forall j, sending s' j = if decide (x = j) then false else sending s j) ->
  CQ s' (qset d (l1 ++ l2) C).
Proof.
  intros HC Hd HCd Hcq Hsl Hse. pose proof HC as [H1 H2 H3 H4 H5].
  assert (Hxd : x ∈ C d) by (rewrite HCd; set_solver).
  destruct (H1 d Hd) as [Hl Hnd]. rewrite HCd in Hl, Hnd.
  assert (Hsub : forall j, j ∈ l1 ++ l2 <-> j ∈ C d /\ j <> x).
  { rewrite HCd. intros j. revert Hnd. rewrite NoDup_app, NoDup_cons. set_solver. }
  assert (Hnd' : NoDup (l1 ++ l2)).
  { revert Hnd. rewrite !NoDup_app, NoDup_cons. set_solver. }
  split; unfold qset.
  - intros d' Hd'. destruct (H1 d' Hd') as [Hl' Hndd]. rewrite Hcq. destruct (decide (d' = d)) as [->|E].
    + split; [|done]. eapply (lseg_unlink (sendlink s)); [exact Hl|exact Hnd| | |].
      * intros j Hj. by rewrite Hsl, decide_True.
      * intros j _ Hj. by rewrite Hsl, decide_False.
      * destruct l1; [by rewrite decide_True|by rewrite decide_False by naive_solver].
    + rewrite decide_False by naive_solver. split; [|done].
      eapply lseg_frame; [|exact Hl']. intros j Hj. rewrite Hsl, decide_False; [done|].
      intros Hlast%last_Some_elem_of. apply E. eapply H4; [done..|]. rewrite HCd. set_solver.
  - intros d' j Hd'. case_decide as E; [subst d'|].
    + rewrite Hsub. intros [Hj Hne]. destruct (H2 d j Hd Hj). rewrite Hse, decide_False; done.
    + intros Hj. destruct (H2 d' j Hd' Hj). rewrite Hse, decide_False; [done|].
      intros <-. apply E. by eapply H4.
  - intros j Hj. rewrite Hse. case_decide as E; [done|]. intros Hsj.
    destruct (H3 j Hj Hsj) as (d' & Hd' & Hin). exists d'. split; [done|].
    case_decide as E'; [subst|done]. by apply Hsub.
  - intros j d1 d2 Hd1 Hd2. pose proof (H4 j d1 d2). do 2 case_decide; subst; rewrite ?Hsub; naive_solver.
  - intros j d1 Hj Hd1. pose proof (H5 j d1 Hj Hd1). do 2 case_decide; subst; rewrite ?Hsub; naive_solver.
Qed.

(** ** The rest of the invariant *)
Abbreviation receiving s i := (tst (flags s i) RECEIVING).
Abbreviation pending s i := (tst (flags s i) PENDING).

Record AUX (s : kst) : Prop := {
  ax_len : length (procs s) = NR_SLOTS;
  ax_nr i : slot_ok i -> p_nr (P i s) = Z.of_nat i - NR_TASKS;
  ax_both i : slot_ok i -> sending s i = true -> receiving s i = true -> p_getfrom (P i s) <> ANY;
  ax_sigp i : slot_ok i -> pending s i = true -> tst (flags s i) SIG_PENDING = true;
  ax_hw : flags s HW = 0;
  ax_idle : flags s IDLEP = 0;
  ax_mm : tst (flags s MMP) P_SLOT_FREE = false;
  ax_addr : bad_mess_addr (seg_D (p_map (P HW s))) (m_addr s) = false;
  ax_addr' : mess_addr (P HW s) (m_addr s) = m_addr s;
}.

(** What sending and receiving leave alone. *)
Record ipc_frame (s s' : kst) : Prop := {
  if_pend i : pending s' i = pending s i;
  if_sig : sig_procs s' = sig_procs s;
  if_addr : m_addr s' = m_addr s;
  if_held : held_head s' = held_head s /\ held_tail s' = held_tail s /\ k_reenter s' = k_reenter s;
}.
#[export] Instance ipc_frame_refl : Reflexive ipc_frame.
Proof. by intros s; split. Qed.
#[export] Instance ipc_frame_trans : Transitive ipc_frame.
Proof.
  intros s1 s2 s3 [? ? ? (?&?&?)] [? ? ? (?&?&?)].
  split; [|congruence|congruence|split_and!; congruence]. intros i. congruence.
Qed.

Lemma sched_ipc_frame s s' : sched_frame s s' -> ipc_frame s s'.
Proof.
  intros Hf. pose proof Hf as [_ [] (?&?&?&?)]. split; try done.
  intros i. by rewrite (sched_frame_field p_flags s s').
Qed.

Lemma CQ_frame s s' C : sched_frame s s' -> CQ s C -> CQ s' C.
Proof.
  intros Hf. apply CQ_ext. intros i. unfold sendlink.
  rewrite !(sched_frame_field p_callerq s s'), (sched_frame_field p_sendlink s s'),
    (sched_frame_field p_flags s s') by done. done.
Qed.

Lemma AUX_ext s s' : length (procs s') = length (procs s) ->
  (forall i, p_nr (P i s') = p_nr (P i s) /\ flags s' i = flags s i /\
     p_getfrom (P i s') = p_getfrom (P i s) /\ p_map (P i s') = p_map (P i s) /\
     p_shadow (P i s') = p_shadow (P i s)) ->
  m_addr s' = m_addr s -> AUX s -> AUX s'.
Proof.
  intros Hlen Hf Ha [H1 H2 H3 H3' H4 H5 H6 H7 H8]. split; try congruence.
  - intros i Hi. destruct (Hf i) as (-> & _). auto.
  - intros i Hi. destruct (Hf i) as (_ & -> & -> & _). auto.
  - intros i Hi. destruct (Hf i) as (_ & -> & _). auto.
  - destruct (Hf HW) as (_ & -> & _). auto.
  - destruct (Hf IDLEP) as (_ & -> & _). auto.
  - destruct (Hf MMP) as (_ & -> & _). auto.
  - destruct (Hf HW) as (_ & _ & _ & -> & _). by rewrite Ha.
  - unfold mess_addr in *. destruct (Hf HW) as (_ & _ & _ & -> & ->). by rewrite Ha.
Qed.

Lemma AUX_frame s s' : sched_frame s s' -> AUX s -> AUX s'.
Proof.
  intros Hf. pose proof Hf as [_ _ (?&?&?&?)]. apply AUX_ext; [by apply sched_frame_len| |done].
  intros i. rewrite !(sched_frame_field p_nr s s'), (sched_frame_field p_flags s s'),
    (sched_frame_field p_getfrom s s'), (sched_frame_field p_map s s'),
    (sched_frame_field p_shadow s s') by done. done.
Qed.

Lemma AUX_flags s i f : AUX s -> slot_ok i -> i <> HW -> i <> IDLEP ->
  (i = MMP -> tst (f (flags s i)) P_SLOT_FREE = tst (flags s i) P_SLOT_FREE) ->
  (tst (f (flags s i)) SENDING = true -> tst (f (flags s i)) RECEIVING = true ->
     p_getfrom (P i s) <> ANY) ->
  (tst (f (flags s i)) PENDING = true -> tst (f (flags s i)) SIG_PENDING = true) ->
  AUX (at_flags i f s).
Proof.
  intros [H1 H2 H3 H3' H4 H5 H6 H7 H8] Hi Hn1 Hn2 Hfree Hboth Hsig.
  assert (HP := fun j => at_flags_P s i f j Hi H1).
  split; [by rewrite <- H1; apply length_alter|..]; intros; rewrite ?HP in *;
    try case_decide; subst; simpl in *; auto; try congruence. rewrite Hfree; auto.
Qed.

Lemma CQ_flags s C i f : length (procs s) = NR_SLOTS -> slot_ok i ->
  tst (f (flags s i)) SENDING = sending s i -> CQ s C -> CQ (at_flags i f s) C.
Proof.
  intros Hlen Hi Hs. apply CQ_ext. intros j. unfold sendlink. rewrite (at_flags_P s) by done.
  case_decide; [subst; by split_and!|done].
Qed.

Lemma ipc_frame_flags s i f : length (procs s) = NR_SLOTS -> slot_ok i ->
  tst (f (flags s i)) PENDING = pending s i -> ipc_frame s (at_flags i f s).
Proof.
  intros Hlen Hi Hs. split; try done. intros j. rewrite (at_flags_P s) by done.
  case_decide; by subst.
Qed.

(** An update that touches neither flags nor links. *)
Lemma upd_quiet s i (g : proc -> proc) :
  (forall p, p_nr (g p) = p_nr p /\ p_flags (g p) = p_flags p /\ p_map (g p) = p_map p /\
     p_nextready (g p) = p_nextready p /\ p_shadow (g p) = p_shadow p /\
     p_callerq (g p) = p_callerq p /\ p_sendlink (g p) = p_sendlink p) ->
  let s' := s <| procs ::= alter g i |> in
  (forall Q, SI s Q -> SI s' Q) /\ (forall C, CQ s C -> CQ s' C) /\ ipc_frame s s' /\
  ((forall p, p_getfrom (g p) = p_getfrom p) -> AUX s -> AUX s').
Proof.
  intros Hg s'. assert (HP : forall {A} (proj : proc -> A) j,
    (forall p, proj (g p) = proj p) -> proj (P j s') = proj (P j s)).
  { intros A proj j Hp. apply tbl_alter_proj. done. }
  assert (Hlen : length (procs s') = length (procs s)) by apply length_alter.
  split_and!.
  - intros Q. apply SI_ext; try done. intros j. split_and!; apply HP; apply Hg.
  - intros C. apply CQ_ext. intros j. unfold sendlink. rewrite !(HP _ p_callerq), (HP _ p_sendlink),
      (HP _ p_flags) by apply Hg. done.
  - split; try done. intros j. by rewrite (HP _ p_flags) by apply Hg.
  - intros Hgf. apply AUX_ext; try done. intros j. split_and!; apply HP; auto; apply Hg.
Qed.

(** ** [mini_send] *)
Lemma on_sendlist_ok s d : forall l fuel p, llist (sendlink s) p l -> (length l < fuel)%nat ->
  wp (on_sendlist fuel d p) (fun r s' => s' = s /\ r = bool_decide (d ∈ l)) s.
Proof.
  induction l as [|x l IH]; intros [|fuel] p Hl Hf; simpl in Hf; try lia.
  - simpl in Hl. subst p. done.
  - destruct Hl as [-> Hl]. cbn [on_sendlist]. destruct (decide (x = d)) as [->|E].
    + wp_steps. split; [done|]. rewrite bool_decide_true; [done|set_solver].
    + wp_steps. eapply wp_mono; [apply IH; [exact Hl|lia]|]. intros r s' [-> ->].
      split; [done|]. apply bool_decide_ext. set_solver.
Qed.

Lemma last_sender_ok s : forall l fuel x, llist (sendlink s) (Some x) (x :: l) ->
  (length l < fuel)%nat ->
  wp (last_sender fuel x) (fun r s' => s' = s /\ last (x :: l) = Some r) s.
Proof.
  induction l as [|y l IH]; intros [|fuel] x Hl Hf; simpl in Hf; try lia; destruct Hl as [_ Hl];
    cbn [last_sender]; wp_steps; change (p_sendlink (P x s)) with (sendlink s x).
  - simpl in Hl. by rewrite Hl.
  - rewrite (lseg_head _ _ _ _ _ Hl). apply IH; [|lia]. split; [done|]. apply Hl.
Qed.

(** The error returned, if any, when [caller] sends to [dest]. *)
Definition send_error (s : kst) (C : nat -> list nat) (caller : nat) (dest m_ptr : Z) : option Z :=
  let d := proc_addr dest in
  if isuserp caller && negb (isservn dest) then Some E_BAD_DEST
  else if tst (flags s d) P_SLOT_FREE then Some E_BAD_DEST
  else if bad_mess_addr (seg_D (p_map (P caller s))) m_ptr then Some E_BAD_ADDR
  else if sending s d && bool_decide (d ∈ C caller) then Some ELOCKED
  else None.

Definition delivered (s s' : kst) (from to : nat) (src_buf dst_buf : Z) : Prop :=
  k_mem s' = <[mess_addr (P to s) dst_buf :=
    (msg_at (mess_addr (P from s) src_buf) s) <| m_source := p_nr (P from s) |>]> (k_mem s).

Definition sent (s s' : kst) (C : nat -> list nat) (caller : nat) (dest m_ptr : Z) : Prop :=
  let d := proc_addr dest in
  if is_waiting_for (P d s) (p_nr (P caller s)) then
    CQ s' C /\ delivered s s' caller d m_ptr (p_messbuf (P d s)) /\
    flags s' d = bclr (flags s d) RECEIVING /\
    (forall j, j <> d -> flags s' j = flags s j)
  else
    CQ s' (qset d (C d ++ [caller]) C) /\ k_mem s' = k_mem s /\
    p_messbuf (P caller s') = m_ptr /\ flags s' caller = SENDING /\
    (forall j, j <> caller -> flags s' j = flags s j).

Lemma servn_slot dest : isservn dest = true -> slot_ok (proc_addr dest) \/ 32767 < Z.abs dest.
Proof.
  unfold isservn, u16, LOW_USER, slot_ok, NR_SLOTS, proc_addr, NR_TASKS. rewrite Z.ltb_lt.
  intros. zlia.
Qed.

Lemma cp_mess_ok s a b src am bm :
  wp (cp_mess src a am b bm) (fun _ s' =>
    s' = s <| k_mem ::= <[mess_addr (P b s) bm :=
       (msg_at (mess_addr (P a s) am) s) <| m_source := src |>]> |>) s.
Proof. unfold cp_mess, put_msg. by wp_steps. Qed.

Lemma mem_quiet s m : let s' := s <| k_mem := m |> in
  (forall Q, SI s Q -> SI s' Q) /\ (forall C, CQ s C -> CQ s' C) /\ ipc_frame s s' /\ (AUX s -> AUX s').
Proof.
  intros s'. split_and!.
  - intros Q. by apply SI_ext.
  - intros C. by apply CQ_ext.
  - by split.
  - by apply AUX_ext.
Qed.

Lemma send_deliver_ok s Q C caller d dest m_ptr : SI s Q -> CQ s C -> AUX s -> slot_ok d ->
  d = proc_addr dest -> is_waiting_for (P d s) (p_nr (P caller s)) = true ->
  wp (cp_mess (p_nr (P caller s)) caller m_ptr d (p_messbuf (P d s));;
     upd_proc d (fun p => p <| p_flags := bclr (p_flags p) RECEIVING |>);;
     f ← gets (fun s => flags s d);
     when (f =? 0) (ready d))
    (fun _ s' => (exists Q', SI s' Q') /\ AUX s' /\ ipc_frame s s' /\ switching s' = switching s /\
       sent s s' C caller dest m_ptr) s.
Proof.
  intros HS HC HA Hd -> Hw. set (d := proc_addr dest) in *. unfold upd_proc. wp_steps.
  eapply wp_mono; [apply cp_mess_ok|]. intros [] s1 ->. wp_steps.
  destruct (mem_quiet s (<[mess_addr (P d s) (p_messbuf (P d s)) :=
     (msg_at (mess_addr (P caller s) m_ptr) s) <| m_source := p_nr (P caller s) |>]> (k_mem s)))
    as (HS1 & HC1 & HF1 & HA1).
  set (s1 := s <| k_mem ::= _ |>). change (s <| k_mem := _ |>) with s1 in HS1, HC1, HF1, HA1.
  specialize (HS1 Q HS). specialize (HC1 C HC). specialize (HA1 HA).
  pose proof (ax_len _ HA1) as Hlen.
  pose proof Hw as Hw'. unfold is_waiting_for in Hw'. apply andb_true_iff in Hw' as [Hw1 _].
  apply Z.eqb_eq in Hw1.
  assert (Hrec : receiving s d = true).
  { unfold tst. apply nz_true. intros H0. revert Hw1. rewrite Z.land_lor_distr_r, H0, Z.lor_0_l.
    intros H1. apply (f_equal (fun z => Z.land z RECEIVING)) in H1. revert H1.
    rewrite <- Z.land_assoc. by rewrite Z.land_0_r. }
  assert (Hnz : flags s1 d <> 0) by exact (tst_nonzero _ _ Hrec).
  assert (Hd1 : d <> HW) by (intros E; rewrite E in Hnz; by rewrite (ax_hw _ HA1) in Hnz).
  assert (Hd2 : d <> IDLEP) by (intros E; rewrite E in Hnz; by rewrite (ax_idle _ HA1) in Hnz).
  eapply wp_mono; [apply (wake_ok s1 Q d RECEIVING); done|].
  intros [] s' (HS' & Hfr & Hsw). set (s2 := at_flags d _ s1) in Hfr.
  assert (HA2 : AUX s2).
  { apply AUX_flags; try done; [by rewrite tst_bclr|by rewrite tst_bclr_same|].
    rewrite !tst_bclr by done. by apply (ax_sigp _ HA1). }
  assert (HC2 : CQ s2 C) by (apply CQ_flags; try done; by rewrite tst_bclr).
  split_and!; [done|by eapply AUX_frame| |done|].
  - transitivity s1; [done|]. transitivity s2; [|by apply sched_ipc_frame].
    apply ipc_frame_flags; try done. by rewrite tst_bclr.
  - unfold sent. fold d. rewrite Hw. split_and!; [by eapply CQ_frame| | |].
    + unfold delivered. destruct Hfr as [_ _ (_ & _ & -> & _)]. done.
    + rewrite (sched_frame_field p_flags s2 s') by done. unfold s2. rewrite at_flags_P by done.
      by rewrite decide_True.
    + intros j Hj. rewrite (sched_frame_field p_flags s2 s') by done. unfold s2.
      rewrite at_flags_P by done. by rewrite decide_False.
Qed.

(** Links may be rewritten without disturbing the rest. *)
Lemma upd_links s i (g : proc -> proc) :
  (forall p, p_nr (g p) = p_nr p /\ p_flags (g p) = p_flags p /\ p_map (g p) = p_map p /\
     p_nextready (g p) = p_nextready p /\ p_shadow (g p) = p_shadow p /\
     p_getfrom (g p) = p_getfrom p) ->
  let s' := s <| procs ::= alter g i |> in
  (forall Q, SI s Q -> SI s' Q) /\ ipc_frame s s' /\ (AUX s -> AUX s') /\
  (forall j, flags s' j = flags s j).
Proof.
  intros Hg s'. assert (HP : forall {A} (proj : proc -> A) j,
    (forall p, proj (g p) = proj p) -> proj (P j s') = proj (P j s)).
  { intros A proj j Hp. apply tbl_alter_proj. done. }
  assert (Hlen : length (procs s') = length (procs s)) by apply length_alter.
  split_and!.
  - intros Q. apply SI_ext; try done. intros j. split_and!; apply HP; apply Hg.
  - split; try done. intros j. by rewrite (HP _ p_flags) by apply Hg.
  - apply AUX_ext; try done. intros j. split_and!; apply HP; apply Hg.
  - intros j. apply (HP _ p_flags), Hg.
Qed.

(** Queueing the sender. *)
Definition append_sender (d caller : nat) : M kst unit :=
  q ← gets (fun s => p_callerq (P d s));
  (match q with
   | None => upd_proc d (fun p => p <| p_callerq := Some caller |>)
   | Some next =>
       l ← last_sender (S NR_SLOTS) next;
       upd_proc l (fun p => p <| p_sendlink := Some caller |>)
   end);;
  upd_proc caller (fun p => p <| p_sendlink := None |>).

Lemma append_sender_ok s Q l d caller : SI s Q -> AUX s -> slot_ok d -> slot_ok caller ->
  llist (sendlink s) (p_callerq (P d s)) l -> (length l <= NR_SLOTS)%nat ->
  (forall i, i ∈ l -> slot_ok i) ->
  wp (append_sender d caller) (fun _ s' => SI s' Q /\ AUX s' /\ ipc_frame s s' /\
    switching s' = switching s /\ k_mem s' = k_mem s /\
    (forall j, flags s' j = flags s j /\ p_messbuf (P j s') = p_messbuf (P j s) /\
       p_callerq (P j s') = (if decide (d = j /\ l = []) then Some caller else p_callerq (P j s)) /\
       sendlink s' j = if decide (caller = j) then None
         else if decide (last l = Some j) then Some caller else sendlink s j)) s.
Proof.
  intros HS HA Hd Hca Hl Hlen Hin. unfold append_sender. wp_steps.
  pose proof (ax_len _ HA) as Hlp.
  apply wp_mono with (fun _ s' => SI s' Q /\ AUX s' /\ ipc_frame s s' /\
    switching s' = switching s /\ k_mem s' = k_mem s /\
    (forall j, flags s' j = flags s j /\ p_messbuf (P j s') = p_messbuf (P j s) /\
       p_callerq (P j s') = (if decide (d = j /\ l = []) then Some caller else p_callerq (P j s)) /\
       sendlink s' j = if decide (last l = Some j) then Some caller else sendlink s j)).
  - destruct l as [|x l]; simpl in Hl.
    + rewrite Hl. unfold upd_proc. wp_steps.
      destruct (upd_links s d (fun p => p <| p_callerq := Some caller |>) ltac:(done))
        as (H1 & H2 & H3 & H4).
      split_and!; try done; [by apply H1|by apply H3|]. intros j. split; [apply H4|].
      unfold sendlink. rewrite P_alter by (rewrite Hlp; done).
      case_decide; [rewrite decide_True by done|rewrite decide_False by naive_solver]; done.
    + destruct Hl as [-> Hl]. wp_steps.
      eapply wp_mono; [apply (last_sender_ok s l); [done|simpl in *; lia]|].
      intros r s' [-> Hr]. rewrite Hr. unfold upd_proc. wp_steps.
      assert (Hrs : slot_ok r) by (apply Hin; by eapply last_Some_elem_of).
      destruct (upd_links s r (fun p => p <| p_sendlink := Some caller |>) ltac:(done))
        as (H1 & H2 & H3 & H4).
      split_and!; try done; [by apply H1|by apply H3|]. intros j. split; [apply H4|].
      unfold sendlink. rewrite P_alter by (rewrite Hlp; done).
      rewrite (decide_False (P := _ /\ _)) by naive_solver.
      destruct (decide (r = j)) as [->|Hne];
        [rewrite decide_True by done|rewrite (decide_False (P := Some r = Some j)) by congruence]; done.
  - intros [] s1 (HS1 & HA1 & HF1 & Hsw & Hm & Hj). unfold upd_proc. wp_steps.
    destruct (upd_links s1 caller (fun p => p <| p_sendlink := None |>) ltac:(done))
      as (H1 & H2 & H3 & H4).
    split_and!; try done; [by apply H1|by apply H3|by transitivity s1|].
    intros j. destruct (Hj j) as (J1 & J2 & J3 & J4). split; [by rewrite H4|].
    unfold sendlink in *. rewrite P_alter by (rewrite (ax_len _ HA1); done). by destruct (decide (caller = j)).
Qed.

Lemma send_block_ok s Q C caller d dest m_ptr : SI s Q -> CQ s C -> AUX s -> slot_ok d ->
  slot_ok caller -> flags s caller = 0 -> caller <> HW -> caller <> IDLEP ->
  (caller <> d -> d ∉ C caller) ->
  d = proc_addr dest -> is_waiting_for (P d s) (p_nr (P caller s)) = false ->
  wp (upd_proc caller (fun p => p <| p_messbuf := m_ptr |>);;
     f ← gets (fun s => flags s caller);
     when (f =? 0) (unready caller);;
     upd_proc caller (fun p => p <| p_flags := bset (p_flags p) SENDING |>);;
     append_sender d caller)
    (fun _ s' => (exists Q', SI s' Q') /\ AUX s' /\ ipc_frame s s' /\ switching s' = switching s /\
       sent s s' C caller dest m_ptr) s.
Proof.
  intros HS HC HA Hd Hca Hfl Hc1 Hc2 Hmut Hdd Hw.
  unfold upd_proc at 1 2. wp_steps. set (s1 := s <| procs ::= _ |>).
  destruct (upd_quiet s caller (fun p => p <| p_messbuf := m_ptr |>) ltac:(done))
    as (HS1 & HC1 & HF1 & HA1). fold s1 in HS1, HC1, HF1, HA1.
  specialize (HS1 Q HS). specialize (HC1 C HC). specialize (HA1 ltac:(done) HA).
  pose proof (ax_len _ HA) as Hlen. pose proof (ax_len _ HA1) as Hlen1.
  assert (HP1 : forall j, P j s1 = if decide (caller = j) then (P j s) <| p_messbuf := m_ptr |> else P j s).
  { intros j. apply P_alter. by rewrite Hlen. }
  eapply wp_mono; [apply (sleep_ok s1 Q caller _ SENDING HS1 Hca eq_refl ltac:(done))|].
  intros [] s2 ([Q' HS3] & Hfr & Hsw). wp_steps.
  change (s2 <| procs ::= _ |>) with (at_flags caller (fun f => bset f SENDING) s2).
  set (s3 := at_flags caller _ s2) in *. set (s1' := at_flags caller _ s1) in Hfr.
  assert (Hfl1 : flags s1 caller = 0) by (rewrite HP1, decide_True by done; done).
  assert (HA1' : AUX s1').
  { apply AUX_flags; try done; rewrite Hfl1; done. }
  assert (HA3 : AUX s3) by by eapply AUX_frame.
  assert (HP3 : forall j, no_ready (P j s3) = no_ready (P j s1')) by (intros; by apply sched_frame_P).
  assert (HF3 : forall {A} (f : proc -> A) j, (forall p, f (no_ready p) = f p) ->
      (forall p, f (set_flags (fun f => bset f SENDING) p) = f p) -> f (P j s3) = f (P j s1)).
  { intros A f j Hf1 Hf2. rewrite (sched_frame_field f s1' s3) by done. unfold s1'.
    rewrite at_flags_P by done. case_decide; [apply Hf2|done]. }
  destruct (cq_list _ _ HC1 d Hd) as [Hl Hnd].
  eapply wp_mono; [apply (append_sender_ok s3 Q' (C d)); try done|].
  - rewrite (HF3 _ p_callerq) by done. eapply lseg_frame; [|exact Hl].
    intros j _. by apply (HF3 _ p_sendlink).
  - by eapply CQ_length.
  - intros i Hi. by apply (cq_in _ _ HC d i Hd Hi).
  - intros [] s' (HS' & HA' & HF' & Hsw' & Hm & Hj).
    assert (Hfl3 : forall j, flags s3 j = if decide (caller = j) then SENDING else flags s j).
    { intros j. rewrite (sched_frame_field p_flags s1' s3) by done. unfold s1'.
      rewrite at_flags_P by done. rewrite HP1. case_decide; [|done]. subst j. simpl. by rewrite Hfl. }
    split_and!; [by exists Q'|done| |by rewrite Hsw'|].
    + transitivity s1; [done|]. transitivity s1'.
      { apply ipc_frame_flags; try done. by rewrite Hfl1. }
      transitivity s3; [by apply sched_ipc_frame|done].
    + unfold sent. rewrite <- Hdd, Hw. split_and!.
      * apply (CQ_append s1 s'); try done; [by rewrite Hfl1|..]; intros j;
          destruct (Hj j) as (J1 & J2 & J3 & J4).
        -- rewrite J3. repeat case_decide; try tauto; by apply (HF3 _ p_callerq).
        -- rewrite J4. repeat case_decide; try done; try tauto; by apply (HF3 _ p_sendlink).
        -- rewrite J1, Hfl3, HP1. by case_decide.
      * rewrite Hm. destruct Hfr as [_ _ (_ & _ & -> & _)]. done.
      * destruct (Hj caller) as (_ & -> & _). rewrite (HF3 _ p_messbuf) by done.
        by rewrite HP1, decide_True.
      * destruct (Hj caller) as (-> & _). by rewrite Hfl3, decide_True.
      * intros j Hne. destruct (Hj j) as (-> & _). by rewrite Hfl3, decide_False.
Qed.

Lemma mini_send_ok s Q C caller dest m_ptr : SI s Q -> CQ s C -> AUX s ->
  slot_ok caller -> flags s caller = 0 -> caller <> IDLEP ->
  (isuserp caller && negb (isservn dest) = false -> slot_ok (proc_addr dest)) ->
  (caller = HW -> is_waiting_for (P (proc_addr dest) s) (p_nr (P caller s)) = true) ->
  wp (mini_send caller dest m_ptr) (fun r s' =>
    match send_error s C caller dest m_ptr with
    | Some e => r = e /\ s' = s
    | None => r = OK /\ (exists Q', SI s' Q') /\ AUX s' /\ ipc_frame s s' /\
              switching s' = switching s /\ sent s s' C caller dest m_ptr
    end) s.
Proof.
  intros HS HC HA Hca Hfl Hidle Hdest Hhw. unfold mini_send, send_error.
  destruct (isuserp caller && negb (isservn dest)); [by wp_steps|].
  specialize (Hdest eq_refl). set (d := proc_addr dest) in *. wp_steps.
  destruct (tst (flags s d) P_SLOT_FREE); [by wp_steps|]. wp_steps.
  destruct (bad_mess_addr _ m_ptr); [by wp_steps|]. wp_steps.
  destruct (cq_list _ _ HC caller Hca) as [Hl _].
  apply wp_mono with (fun r s' => s' = s /\ r = sending s d && bool_decide (d ∈ C caller)).
  { destruct (sending s d); [|by wp_steps].
    eapply wp_mono; [apply (on_sendlist_ok s d _ _ _ Hl)|done].
    pose proof (CQ_length _ _ _ HC Hca). lia. }
  intros r s' [-> ->]. destruct (sending s d && bool_decide (d ∈ C caller)) eqn:Elock; [by wp_steps|].
  destruct (is_waiting_for (P d s) (p_nr (P caller s))) eqn:Ew; apply wp_bind.
  - eapply wp_mono; [by apply (send_deliver_ok s Q C caller d dest m_ptr)|].
    intros [] s' H. wp_steps. naive_solver.
  - eapply wp_mono; [apply (send_block_ok s Q C caller d dest m_ptr); try done|].
    + intros ->. naive_solver.
    + intros Hne Hin. destruct (cq_in _ _ HC caller d Hca Hin) as [_ Hs].
      rewrite Hs, bool_decide_true in Elock by done. done.
    + intros [] s' H. wp_steps. naive_solver.
Qed.

(** ** [inform] and [cause_sig] *)
Definition pendings (s : kst) : nat :=
  length (filter (fun i => pending s i = true) (seq 9 32)).
Definition SG (s : kst) : Prop := sig_procs s = Z.of_nat (pendings s).

Lemma pendings_ext s s' : (forall i, pending s' i = pending s i) -> pendings s' = pendings s.
Proof.
  intros H. unfold pendings. f_equal. apply list_filter_iff. intros i. by rewrite H.
Qed.

Lemma SG_frame s s' : ipc_frame s s' -> SG s -> SG s'.
Proof. intros [H1 H2 _ _]. unfold SG. by rewrite H2, (pendings_ext _ _ H1). Qed.

Lemma filter_agree (l : list nat) (f g : nat -> bool) : (forall j, j ∈ l -> f j = g j) ->
  filter (fun j => f j = true) l = filter (fun j => g j = true) l.
Proof.
  induction l as [|x l IH]; intros H; [done|]. rewrite !filter_cons, (H x) by set_solver.
  rewrite IH by set_solver. done.
Qed.

Lemma filter_count (l : list nat) (f g : nat -> bool) i : NoDup l -> i ∈ l ->
  (forall j, j <> i -> f j = g j) -> f i = true -> g i = false ->
  length (filter (fun j => f j = true) l) = S (length (filter (fun j => g j = true) l)).
Proof.
  intros Hnd Hi Hfg Hf Hg. induction l as [|x l IH]; [set_solver|].
  apply NoDup_cons in Hnd as [Hx Hnd]. rewrite !filter_cons.
  destruct (decide (x = i)) as [->|Hne].
  - rewrite decide_True, decide_False by congruence. simpl. do 2 f_equal.
    apply filter_agree. intros j Hj. apply Hfg. set_solver.
  - rewrite Hfg by done. assert (i ∈ l) by set_solver. destruct (decide (g x = true)); simpl; rewrite IH; done.
Qed.

Definition KI (s : kst) : Prop :=
  (exists Q, SI s Q) /\ (exists C, CQ s C) /\ AUX s /\ SG s.

Lemma find_pending_spec s :
  match find_pending s with
  | Some i => (9 <= i < 41)%nat /\ pending s i = true
  | None => forall i, (9 <= i < 41)%nat -> pending s i = false
  end.
Proof.
  unfold find_pending. destruct (list_find _ _) as [[k i]|] eqn:E; simpl.
  - apply list_find_Some in E as (H1 & H2 & _). apply lookup_seq in H1. split; [lia|].
    by destruct (pending s i).
  - apply list_find_None in E. rewrite Forall_forall in E. intros i Hi.
    specialize (E i). rewrite elem_of_seq in E. specialize (E ltac:(lia)).
    by destruct (pending s i).
Qed.

Lemma SI_flags_nz s Q i f : SI s Q -> slot_ok i -> flags s i <> 0 -> f (flags s i) <> 0 ->
  SI (at_flags i f s) Q.
Proof.
  intros [HQ Hr] Hi H1 H2. pose proof HQ as (Hlen & _). split; [by apply RQ_at_flags|].
  intros j Hj. rewrite at_flags_queue, at_flags_P by done. rewrite (Hr j Hj).
  case_decide; [subst; simpl; naive_solver|done].
Qed.

Lemma wp_lock {A} (m : M kst A) (Q : A -> kst -> Prop) s :
  wp m (fun a s' => Q a (s' <| switching := false |>)) (s <| switching := true |>) ->
  wp (lock_switch m) Q s.
Proof.
  intros H. unfold lock_switch. wp_steps. eapply wp_mono; [exact H|]. intros. by wp_steps.
Qed.

Definition KI1 (s : kst) : Prop := (exists Q, SI s Q) /\ (exists C, CQ s C) /\ AUX s.

Lemma KI1_sw s b : KI1 s -> KI1 (s <| switching := b |>).
Proof.
  intros ([Q H1] & [C H2] & H3). split_and!.
  - exists Q. exact H1.
  - exists C. by apply (CQ_ext s).
  - by apply (AUX_ext s).
Qed.

Lemma KI1_quiet s i g :
  (forall p, p_nr (g p) = p_nr p /\ p_flags (g p) = p_flags p /\ p_map (g p) = p_map p /\
     p_nextready (g p) = p_nextready p /\ p_shadow (g p) = p_shadow p /\
     p_callerq (g p) = p_callerq p /\ p_sendlink (g p) = p_sendlink p) ->
  (forall p, p_getfrom (g p) = p_getfrom p) -> KI1 s ->
  let s' := s <| procs ::= alter g i |> in KI1 s' /\ ipc_frame s s'.
Proof.
  intros Hg Hgf ([Q H1] & [C H2] & H3) s'. destruct (upd_quiet s i g Hg) as (A1 & A2 & A3 & A4).
  split; [|done]. split_and!; [exists Q|exists C|]; auto.
Qed.

(** A woken process, as part of the whole invariant. *)
Lemma KI1_wake s i b (lock : bool) : KI1 s -> slot_ok i -> i <> HW -> i <> IDLEP -> flags s i <> 0 ->
  Z.land b (Z.lor (Z.lor SENDING PENDING) P_SLOT_FREE) = 0 ->
  (pending s i = true -> Z.land b SIG_PENDING = 0) ->
  let s1 := at_flags i (fun f => bclr f b) s in
  wp (when (flags s1 i =? 0) (if lock then lock_ready i else ready i))
    (fun _ s' => KI1 s' /\ ipc_frame s s' /\ k_mem s' = k_mem s) s1.
Proof.
  intros ([Q HS] & [C HC] & HA) Hi Hh Hid Hnz Hb Hsig s1.
  pose proof (ax_len _ HA) as Hlen.
  assert (Hbm : forall m, Z.land m (Z.lor (Z.lor SENDING PENDING) P_SLOT_FREE) = m -> Z.land b m = 0).
  { intros m Hm. rewrite <- Hm, (Z.land_comm m), Z.land_assoc, Hb. done. }
  assert (HA1 : AUX s1).
  { apply AUX_flags; try done.
    - by rewrite tst_bclr by by apply Hbm.
    - rewrite tst_bclr by by apply Hbm. intros Hs Hr. apply (ax_both _ HA); try done.
      revert Hr. unfold tst, bclr. rewrite !nz_true. intros Hr Hz. apply Hr.
      rewrite Z.ldiff_land, <- Z.land_assoc, (Z.land_comm (Z.lnot b)), Z.land_assoc, Hz. done.
    - rewrite tst_bclr by by apply Hbm. intros Hp.
      rewrite tst_bclr by by apply Hsig. by apply (ax_sigp _ HA). }
  assert (HC1 : CQ s1 C) by (apply CQ_flags; try done; by rewrite tst_bclr by by apply Hbm).
  assert (HF1 : ipc_frame s s1) by (apply ipc_frame_flags; try done; by rewrite tst_bclr by by apply Hbm).
  assert (Hpost : forall s', (exists Q', SI s' Q') -> sched_frame s1 s' ->
    KI1 s' /\ ipc_frame s s' /\ k_mem s' = k_mem s).
  { intros s' HS' Hfr. split_and!; [split_and!; [done| |]| |].
    - exists C. by eapply CQ_frame.
    - by eapply AUX_frame.
    - transitivity s1; [done|by apply sched_ipc_frame].
    - destruct Hfr as [_ _ (_ & _ & -> & _)]. done. }
  destruct lock.
  - set (t := s <| switching := true |>).
    pose proof (wake_ok t Q i b HS Hi Hnz Hid Hh) as Hw. cbv zeta in Hw.
    change (flags (at_flags i _ t) i) with (flags s1 i) in Hw.
    apply wp_when; intros Hf; rewrite Hf in Hw; simpl in Hw.
    + unfold lock_ready. apply wp_lock. eapply wp_mono; [exact Hw|].
      intros [] s' ([Q' HS'] & Hfr & _). apply Hpost; [by exists Q'|]. destruct Hfr. by split.
    + destruct Hw as ([Q' HS'] & Hfr & _). apply Hpost; [by exists Q'|]. destruct Hfr. by split.
  - eapply wp_mono; [apply (wake_ok s Q i b HS Hi Hnz Hid Hh)|].
    intros [] s' (HS' & Hfr & _). by apply Hpost.
Qed.

(** ... and one put to sleep. *)
Lemma KI1_sleep s i b (lock : bool) : KI1 s -> slot_ok i -> i <> HW -> i <> IDLEP -> b <> 0 ->
  Z.land b (Z.lor SENDING P_SLOT_FREE) = 0 ->
  (tst b RECEIVING = true -> sending s i = true -> p_getfrom (P i s) <> ANY) ->
  (tst b PENDING = true -> tst b SIG_PENDING = true) ->
  wp (when (flags s i =? 0) (if lock then lock_unready i else unready i)) (fun _ s1 =>
    let s' := at_flags i (fun f => bset f b) s1 in KI1 s' /\ sig_procs s' = sig_procs s /\
      (forall j, pending s' j = if decide (i = j) then pending s i || tst b PENDING else pending s j) /\
      (forall j, flags s' j = if decide (i = j) then bset (flags s i) b else flags s j) /\
      (forall j, p_getfrom (P j s') = p_getfrom (P j s))) s.
Proof.
  intros ([Q HS] & [C HC] & HA) Hi Hh Hid Hnz Hb Hboth Hsig.
  pose proof (ax_len _ HA) as Hlen.
  assert (Hbm : forall m, Z.land m (Z.lor SENDING P_SLOT_FREE) = m -> tst b m = false).
  { intros m Hm. unfold tst. apply nz_false. rewrite <- Hm, (Z.land_comm m), Z.land_assoc, Hb. done. }
  set (s2 := at_flags i (fun f => bset f b) s).
  assert (HA1 : AUX s2).
  { apply AUX_flags; try done; rewrite ?tst_bset.
    - rewrite Hbm by done. by rewrite orb_false_r.
    - rewrite Hbm by done. rewrite orb_false_r. intros Hs Hr%orb_true_iff.
      destruct Hr; [by apply (ax_both _ HA)|auto].
    - rewrite !orb_true_iff. intros [?|?]; [left; by apply (ax_sigp _ HA)|auto]. }
  assert (HC1 : CQ s2 C).
  { apply CQ_flags; try done. by rewrite tst_bset, Hbm, orb_false_r. }
  assert (Hpost : forall s', (exists Q', SI s' Q') -> sched_frame s2 s' ->
    KI1 s' /\ sig_procs s' = sig_procs s /\
      (forall j, pending s' j = if decide (i = j) then pending s i || tst b PENDING else pending s j) /\
      (forall j, flags s' j = if decide (i = j) then bset (flags s i) b else flags s j) /\
      (forall j, p_getfrom (P j s') = p_getfrom (P j s))).
  { intros s' HS' Hfr. split_and!; [split_and!; [done|exists C; by eapply CQ_frame|by eapply AUX_frame]|..].
    - destruct Hfr as [_ _ (_ & -> & _)]. done.
    - intros j. rewrite (sched_frame_field p_flags s2 s') by done. unfold s2. rewrite at_flags_P by done.
      case_decide; [subst; simpl; by rewrite tst_bset|done].
    - intros j. rewrite (sched_frame_field p_flags s2 s') by done. unfold s2. rewrite at_flags_P by done.
      by case_decide; subst.
    - intros j. rewrite (sched_frame_field p_getfrom s2 s') by done. unfold s2. rewrite at_flags_P by done.
      by case_decide. }
  destruct lock.
  - set (t := s <| switching := true |>).
    pose proof (sleep_ok t Q i (flags s i) b HS Hi eq_refl Hnz) as Hw.
    apply wp_when; intros Hf; rewrite Hf in Hw; simpl in Hw.
    + unfold lock_unready. apply wp_lock. eapply wp_mono; [exact Hw|].
      intros [] s' ([Q' HS'] & Hfr & _). apply Hpost; [by exists Q'|]. destruct Hfr. by split.
    + destruct Hw as ([Q' HS'] & Hfr & _). apply Hpost; [by exists Q'|]. destruct Hfr. by split.
  - eapply wp_mono; [apply (sleep_ok s Q i _ b HS Hi eq_refl Hnz)|].
    intros [] s' (HS' & Hfr & _). by apply Hpost.
Qed.

Lemma KI1_frame s s' : sched_frame s s' -> (exists Q, SI s' Q) -> KI1 s -> KI1 s'.
Proof.
  intros Hf HS (_ & [C HC] & HA). split_and!; [done| |by eapply AUX_frame].
  exists C. by eapply CQ_frame.
Qed.

Lemma done_one_sig_ok s i : KI1 s -> slot_ok i -> i <> HW -> i <> IDLEP ->
  pending s i = false -> tst (flags s i) SIG_PENDING = true ->
  wp (done_one_sig i) (fun _ s' => KI1 s' /\ ipc_frame s s' /\ k_mem s' = k_mem s) s.
Proof.
  intros HK Hi Hh Hid Hp Hsp. pose proof (ax_len _ (proj2 (proj2 HK))) as Hlen.
  unfold done_one_sig, upd_proc. wp_steps. destruct (nz _); wp_steps; [|done].
  set (s1 := s <| procs ::= _ |>).
  destruct (KI1_quiet s i (fun p => p <| p_pendcount := u16 (p_pendcount p - 1) |>)
    ltac:(done) ltac:(done) HK) as [HK1 HF1]. fold s1 in HK1, HF1.
  destruct (nz _); wp_steps; [done|].
  assert (Hfl : flags s1 i = flags s i) by (apply tbl_alter_proj; done).
  eapply wp_mono; [apply (KI1_wake s1 i SIG_PENDING true); try done|].
  - rewrite Hfl. by eapply tst_nonzero.
  - rewrite Hfl, Hp. done.
  - intros [] s' (? & ? & ?). split_and!; try done. by transitivity s1.
Qed.

Lemma lock_pick_proc_ok s : KI1 s ->
  wp lock_pick_proc (fun _ s' => KI1 s' /\ ipc_frame s s' /\ k_mem s' = k_mem s) s.
Proof.
  intros HK. pose proof HK as ([Q [HQ Hr]] & _). unfold lock_pick_proc. apply wp_lock.
  eapply wp_mono; [apply (pick_proc_ok _ Q); exact HQ|].
  intros [] s' (HQ' & Hfr & _ & _).
  assert (Hf : sched_frame s (s' <| switching := false |>)) by (destruct Hfr; by split).
  split_and!.
  - eapply KI1_frame; [exact Hf| |done]. exists Q. split; [exact HQ'|]. intros i Hi.
    rewrite (queue_of_frame _ _ _ Hf), (sched_frame_field p_flags _ _ _ ltac:(done) Hf). by apply Hr.
  - by apply sched_ipc_frame.
  - by destruct Hf as [_ _ (_ & _ & ? & _)].
Qed.

Definition ksig_msg (s : kst) (i : nat) : message :=
  mk_msg HARDWARE KSIG [p_nr (P i s); p_pending (P i s)].

(** The end of [inform], once MM has been told about [i]. *)
Lemma inform_tail_ok s i map (n : nat) : KI1 s -> (9 <= i < 41)%nat -> pending s i = true ->
  pendings s = S n -> sig_procs s = Z.of_nat n ->
  wp (upd_proc i (fun p => p <| p_pending := 0 |>);;
      upd_proc i (fun p => p <| p_flags := bclr (p_flags p) PENDING |>);;
      when (map =? s16 (Z.shiftl 1 (SIGSTKFLT - 1))) (done_one_sig i);;
      lock_pick_proc)
    (fun _ s' => KI s' /\ pending s' i = false /\
       (forall j, j <> i -> pending s' j = pending s j) /\ k_mem s' = k_mem s) s.
Proof.
  intros HK Hi Hpi Hn Hg. unfold upd_proc. wp_steps.
  set (s1 := s <| procs ::= _ |>).
  change (s1 <| procs ::= _ |>) with (at_flags i (fun f => bclr f PENDING) s1).
  destruct (KI1_quiet s i (fun p => p <| p_pending := 0 |>) ltac:(done) ltac:(done) HK)
    as [(HS1 & [C HC1] & HA1) HF1]. fold s1 in HS1, HC1, HA1, HF1. destruct HS1 as [Q HS1].
  assert (Hso : slot_ok i) by (unfold slot_ok, NR_SLOTS; lia).
  assert (Hh : i <> HW) by (change HW with 8%nat; lia).
  assert (Hid : i <> IDLEP) by (change IDLEP with 1%nat; lia).
  assert (Hlen := ax_len _ HA1).
  assert (Hp1 : pending s1 i = true) by by rewrite (if_pend _ _ HF1).
  assert (Hsp : tst (flags s1 i) SIG_PENDING = true) by by apply (ax_sigp _ HA1).
  set (s2 := at_flags i _ s1).
  assert (Hfl2 : forall j, flags s2 j = if decide (i = j) then bclr (flags s1 i) PENDING else flags s1 j).
  { intros j. unfold s2. rewrite at_flags_P by done. by case_decide; subst. }
  assert (Hsp2 : tst (flags s2 i) SIG_PENDING = true) by (rewrite Hfl2, decide_True, tst_bclr; done).
  assert (HK2 : KI1 s2).
  { split_and!.
    - exists Q. apply SI_flags_nz; try done; [by eapply tst_nonzero|].
      intros E. rewrite Hfl2, decide_True in Hsp2 by done. by rewrite E in Hsp2.
    - exists C. apply CQ_flags; try done. by rewrite tst_bclr.
    - apply AUX_flags; try done; rewrite ?tst_bclr by done; try done.
      + intros ? ?. by apply (ax_both _ HA1).
      + by rewrite tst_bclr_same. }
  assert (Hp2 : pending s2 i = false) by (rewrite Hfl2, decide_True, tst_bclr_same; done).
  assert (Ho2 : forall j, j <> i -> pending s2 j = pending s j).
  { intros j Hj. rewrite Hfl2, decide_False by done. apply HF1. }
  assert (HG2 : SG s2).
  { unfold SG. change (sig_procs s2) with (sig_procs s). rewrite Hg. f_equal.
    apply (Nat.succ_inj). rewrite <- Hn. unfold pendings. apply (filter_count _ _ _ i).
    - apply NoDup_seq.
    - apply elem_of_seq. lia.
    - intros j Hj. by rewrite Ho2.
    - done.
    - done. }
  assert (Hm2 : k_mem s2 = k_mem s) by done. clearbody s2.
  apply wp_mono with (fun _ s' => KI1 s' /\ ipc_frame s2 s' /\ k_mem s' = k_mem s2).
  { apply wp_when; intros _; [by apply done_one_sig_ok|done]. }
  intros [] s3 (HK3 & HF3 & Hm3). eapply wp_mono; [by apply lock_pick_proc_ok|].
  intros [] s4 (HK4 & HF4 & Hm4). assert (HF : ipc_frame s2 s4) by by transitivity s3.
  split_and!; [|by rewrite (if_pend _ _ HF)|intros j Hj; rewrite (if_pend _ _ HF); by apply Ho2|congruence].
  destruct HK4 as (? & ? & ?). split_and!; try done. by apply (SG_frame s2).
Qed.

(** [inform] when MM waits for anything: it gets the first pending map. *)
Lemma inform_ok s : KI s -> receiving s MMP = true -> p_getfrom (P MMP s) = ANY ->
  wp inform (fun _ s' => KI s' /\
    match find_pending s with
    | None => s' = s
    | Some i => pending s' i = false /\ (forall j, j <> i -> pending s' j = pending s j) /\
        k_mem s' !! mess_addr (P MMP s) (p_messbuf (P MMP s)) = Some (ksig_msg s i)
    end) s.
Proof.
  intros (HS & HC & HA & HG) Hrec Hany. unfold inform. wp_steps.
  pose proof (find_pending_spec s) as Hfp. destruct (find_pending s) as [i|]; [|wp_steps; by split_and!].
  destruct Hfp as [Hi Hpi]. unfold put_msg at 1. wp_steps.
  set (s1 := s <| k_mem ::= _ |>). set (s2 := s1 <| sig_procs ::= _ |>).
  assert (HF2 : forall j, P j s2 = P j s) by done.
  destruct HS as [Q HS], HC as [C HC].
  assert (HA2 : AUX s2) by by apply (AUX_ext s).
  assert (HC2 : CQ s2 C) by by apply (CQ_ext s).
  assert (Hsend : sending s MMP = false).
  { destruct (sending s MMP) eqn:E; [|done]. by destruct (ax_both _ HA MMP ltac:(unfold slot_ok, NR_SLOTS; vm_compute; lia) E Hrec). }
  assert (Hw : is_waiting_for (P MMP s) (p_nr (P HW s)) = true).
  { unfold is_waiting_for. rewrite Hany, orb_true_l, andb_true_r. apply Z.eqb_eq.
    unfold tst in Hsend. apply nz_false in Hsend. rewrite Z.land_lor_distr_r, Hsend, Z.lor_0_r.
    by apply (tst_land _ 3). }
  unfold lock_mini_send. apply wp_lock. set (t := s2 <| switching := true |>).
  assert (Hmm : slot_ok MMP) by (unfold slot_ok, NR_SLOTS; vm_compute; lia).
  assert (Hse : send_error s2 C HW MM_PROC_NR (m_addr s) = None).
  { unfold send_error. change (proc_addr MM_PROC_NR) with MMP.
    change (isuserp HW && negb (isservn MM_PROC_NR)) with false. cbv iota.
    rewrite !HF2, (ax_mm _ HA), (ax_addr _ HA), Hsend. done. }
  eapply wp_mono; [apply (mini_send_ok _ Q C HW MM_PROC_NR (m_addr s)); try done|].
  { by apply (CQ_ext s2). }
  { by apply (AUX_ext s2). }
  { unfold slot_ok, NR_SLOTS; vm_compute; lia. }
  { apply (ax_hw _ HA). }
  intros r s3 H3. change (send_error t) with (send_error s2) in H3. rewrite Hse in H3.
  destruct H3 as (-> & HS3 & HA3 & HF3 & _ & Hsent). unfold sent in Hsent.
  change (is_waiting_for _ _) with (is_waiting_for (P MMP s) (p_nr (P HW s))) in Hsent. rewrite Hw in Hsent.
  destruct Hsent as (HC3 & Hdel & _). change (negb (OK =? OK)) with false. cbv iota.
  set (s4 := s3 <| switching := false |>).
  assert (HK4 : KI1 s4) by (apply KI1_sw; split_and!; [done|by exists C|done]).
  assert (Hp4 : forall j, pending s4 j = pending s j) by apply HF3.
  assert (Hg4 : sig_procs s4 = sig_procs s - 1) by apply HF3.
  assert (Hm4 : k_mem s4 !! mess_addr (P MMP s) (p_messbuf (P MMP s)) = Some (ksig_msg s i)).
  { change (k_mem s4) with (k_mem s3). unfold delivered in Hdel. rewrite Hdel.
    etrans; [apply lookup_insert_eq|]. f_equal. unfold ksig_msg.
    change (mess_addr (P HW t)) with (mess_addr (P HW s)). rewrite (ax_addr' _ HA).
    unfold msg_at. change (k_mem t) with (k_mem s1). unfold s1. cbn [k_mem set_field].
    rewrite lookup_insert_eq. cbn. change (P HW t) with (P HW s).
    by rewrite (ax_nr _ HA HW ltac:(unfold slot_ok, NR_SLOTS; vm_compute; lia)). }
  clearbody s4. clear - HK4 Hp4 Hg4 Hm4 Hi Hpi HG.
  assert (Hn : exists n, pendings s4 = S n /\ sig_procs s4 = Z.of_nat n).
  { rewrite (pendings_ext s s4 Hp4), Hg4, HG.
    destruct (pendings s) as [|n] eqn:E; [|exists n; split; [done|lia]].
    unfold pendings in E. apply length_zero_iff_nil in E.
    assert (Hin : i ∈ filter (fun i => pending s i = true) (seq 9 32)).
    { apply list_elem_of_filter. split; [done|]. apply elem_of_seq. lia. }
    rewrite E in Hin. set_solver. }
  destruct Hn as (n & Hn1 & Hn2).
  eapply wp_mono; [apply (inform_tail_ok s4 i _ n); try done; by rewrite Hp4|].
  intros [] s' (HK & Hpi' & Hpo & Hm). split_and!; [done|done| |by rewrite Hm].
  intros j Hj. by rewrite Hpo, Hp4.
Qed.

Lemma cause_sig_ok s proc_nr sig_nr : KI s -> 0 <= proc_nr < NR_PROCS ->
  wp (cause_sig proc_nr sig_nr) (fun _ s' => KI s') s.
Proof.
  intros HK Hnr. pose proof HK as (HS & HC & HA & HG).
  unfold cause_sig. set (i := proc_addr proc_nr).
  assert (Hi : (9 <= i < 41)%nat) by (unfold i, proc_addr, NR_TASKS, NR_PROCS in *; lia).
  assert (Hso : slot_ok i) by (unfold slot_ok, NR_SLOTS; lia).
  assert (Hh : i <> HW) by (change HW with 8%nat; lia).
  assert (Hid : i <> IDLEP) by (change IDLEP with 1%nat; lia).
  wp_steps. destruct (tst _ _); [by wp_steps|]. unfold upd_proc. wp_steps.
  set (s1 := s <| procs ::= _ |>). set (s2 := s1 <| procs ::= _ |>).
  destruct (KI1_quiet s i (fun p => p <| p_pending := bset (p_pending p) (s16 (Z.shiftl 1 (sig_nr - 1))) |>)
    ltac:(done) ltac:(done) (conj HS (conj HC HA))) as [HK1 HF1].
  destruct (KI1_quiet s1 i (fun p => p <| p_pendcount := u16 (p_pendcount p + 1) |>)
    ltac:(done) ltac:(done) HK1) as [HK2 HF2].
  fold s1 in HK1, HF1, HF2. fold s2 in HK2, HF2.
  assert (HG2 : SG s2) by (apply (SG_frame s); [by transitivity s1|done]).
  clearbody s2. clear HF1 HF2 HK1 s1 HK HS HC HA HG.
  destruct (pending s2 i) eqn:Hp; wp_steps.
  { destruct HK2 as (? & ? & ?). by split_and!. }
  eapply wp_mono; [apply (KI1_sleep s2 i (Z.lor PENDING SIG_PENDING) true); try done|].
  intros [] s3 (HK3 & Hsig & Hpd & Hfl & Hgf). wp_steps.
  change (s3 <| procs ::= _ |>) with (at_flags i (fun f => bset f (Z.lor PENDING SIG_PENDING)) s3).
  set (s4 := at_flags i _ s3) in *. set (s5 := s4 <| sig_procs ::= _ |>).
  assert (HK5 : KI s5).
  { destruct HK3 as ([Q ?] & [C ?] & ?). split_and!.
    - by exists Q.
    - exists C. by apply (CQ_ext s4).
    - by apply (AUX_ext s4).
    - unfold SG. change (sig_procs s5) with (sig_procs s4 + 1). rewrite Hsig, HG2.
      enough (pendings s5 = S (pendings s2)) by lia. unfold pendings. apply (filter_count _ _ _ i).
      + apply NoDup_seq.
      + apply elem_of_seq. lia.
      + intros j Hj. change (pending s5 j) with (pending s4 j). by rewrite Hpd, decide_False.
      + change (pending s5 i) with (pending s4 i). rewrite Hpd, decide_True, Hp by done. done.
      + done. }
  clearbody s5. clear -HK5. change (proc_addr MM_PROC_NR) with MMP.
  destruct (negb (receiving s5 MMP) || negb (p_getfrom (P MMP s5) =? ANY)) eqn:E; wp_steps; [done|].
  apply orb_false_iff in E as [E1 E2]. apply negb_false_iff in E1, E2. apply Z.eqb_eq in E2.
  eapply wp_mono; [by apply inform_ok|]. by intros [] s' [? _].
Qed.

(** ** [mini_rec] *)
Lemma find_sender_ok s src : forall l fuel prev p, llist (sendlink s) p l -> (length l < fuel)%nat ->
  wp (find_sender fuel src prev p) (fun r s' => s' = s /\
    match r with
    | None => forall i, i ∈ l -> src <> ANY /\ p_nr (P i s) <> src
    | Some (pr, x) => (src = ANY \/ p_nr (P x s) = src) /\
        exists l1 l2, l = l1 ++ x :: l2 /\ pr = match last l1 with Some y => Some y | None => prev end /\
          (forall i, i ∈ l1 -> src <> ANY /\ p_nr (P i s) <> src)
    end) s.
Proof.
  induction l as [|x l IH]; intros [|fuel] prev p Hl Hf; simpl in Hf; try lia.
  - simpl in Hl. subst p. cbn [find_sender]. wp_steps. split; [done|]. set_solver.
  - destruct Hl as [-> Hl]. cbn [find_sender]. wp_steps.
    destruct ((src =? ANY) || (src =? p_nr (P x s))) eqn:E; wp_steps.
    + split; [done|]. apply orb_true_iff in E. rewrite !Z.eqb_eq in E. split; [naive_solver|].
      exists [], l. split_and!; try done. set_solver.
    + apply orb_false_iff in E. rewrite !Z.eqb_neq in E.
      eapply wp_mono; [apply (IH fuel (Some x)); [exact Hl|lia]|]. intros r s' [-> Hr].
      split; [done|]. destruct r as [[pr y]|].
      * destruct Hr as (Hm & l1 & l2 & -> & -> & Hno). split; [done|].
        exists (x :: l1), l2. split_and!; [done| |].
        -- destruct l1 as [|z l1 _] using rev_ind; [done|].
           rewrite app_comm_cons, !last_snoc. done.
        -- intros i [->|Hi]%elem_of_cons; [naive_solver|by apply Hno].
      * intros i [->|Hi]%elem_of_cons; [naive_solver|by apply Hr].
Qed.

Lemma KI_of_KI1 s : KI1 s -> SG s -> KI s.
Proof. intros (? & ? & ?) ?. by split_and!. Qed.

Lemma AUX_getfrom s i src : AUX s -> slot_ok i -> (sending s i = true -> src <> ANY) ->
  AUX (s <| procs ::= alter (fun p => p <| p_getfrom := src |>) i |>).
Proof.
  intros [H1 H2 H3 H3' H4 H5 H6 H7 H8] Hi Hsrc.
  assert (HP := fun j => P_alter s i (fun p => p <| p_getfrom := src |>) j ltac:(by rewrite H1)).
  split; [by rewrite <- H1; apply length_alter|..]; intros; rewrite ?HP in *;
    try case_decide; subst; simpl in *; auto.
Qed.

(** The blocking branch of [mini_rec]. *)
Definition block_rec (caller_ptr : nat) (src m_ptr : Z) : M kst Z :=
  upd_proc caller_ptr (fun p => p <| p_getfrom := src |>);;
  upd_proc caller_ptr (fun p => p <| p_messbuf := m_ptr |>);;
  f ← gets (fun s => p_flags (P caller_ptr s));
  when (f =? 0) (unready caller_ptr);;
  upd_proc caller_ptr (fun p => p <| p_flags := bset (p_flags p) RECEIVING |>);;
  n ← gets sig_procs;
  nr ← gets (fun s => p_nr (P caller_ptr s));
  when ((0 <? n) && (nr =? MM_PROC_NR) && (src =? ANY)) inform;;
  mret OK.

Lemma block_rec_ok s i src m_ptr : KI s -> slot_ok i -> i <> HW -> i <> IDLEP ->
  (sending s i = true -> src <> ANY) ->
  wp (block_rec i src m_ptr) (fun r s' => r = OK /\ KI s' /\
    (sig_procs s <= 0 \/ i <> MMP \/ src <> ANY ->
       p_getfrom (P i s') = src /\ flags s' i = bset (flags s i) RECEIVING /\
       (forall j, j <> i -> flags s' j = flags s j))) s.
Proof.
  intros (HS & HC & HA & HG) Hi Hh Hid Hsrc. unfold block_rec, upd_proc. wp_steps.
  set (s1 := s <| procs ::= _ |>). set (s2 := s1 <| procs ::= _ |>).
  pose proof (ax_len _ HA) as Hlen.
  destruct (upd_quiet s i (fun p => p <| p_getfrom := src |>) ltac:(done)) as (HS1 & HC1 & HF1 & _).
  assert (HK1 : KI1 s1).
  { destruct HS as [Q ?], HC as [C ?]. split_and!; [exists Q|exists C|]; auto. by apply AUX_getfrom. }
  destruct (KI1_quiet s1 i (fun p => p <| p_messbuf := m_ptr |>) ltac:(done) ltac:(done) HK1)
    as [HK2 HF2]. fold s1 in HF1. fold s2 in HK2, HF2.
  assert (Hgf2 : p_getfrom (P i s2) = src).
  { etrans; [apply (tbl_alter_proj p_getfrom (procs s1)); done|]. change (procs s1 !!! i) with (P i s1).
    unfold s1. rewrite P_alter by (by rewrite Hlen). by rewrite decide_True. }
  assert (Hfl2 : forall j, flags s2 j = flags s j).
  { intros j. etrans; [apply (tbl_alter_proj p_flags (procs s1)); done|].
    apply (tbl_alter_proj p_flags (procs s)); done. }
  assert (Hsg2 : sig_procs s2 = sig_procs s) by done.
  assert (HG2 : SG s2) by (apply (SG_frame s); [by transitivity s1|done]).
  eapply wp_mono; [apply (KI1_sleep s2 i RECEIVING false); try done|].
  { intros _. rewrite Hfl2, Hgf2. done. }
  intros [] s3 (HK3 & Hsig & Hpd & Hfl & Hgf). wp_steps.
  change (s3 <| procs ::= _ |>) with (at_flags i (fun f => bset f RECEIVING) s3).
  set (s4 := at_flags i _ s3) in *.
  assert (HK4 : KI s4).
  { apply KI_of_KI1; [done|]. unfold SG. rewrite Hsig, HG2. f_equal. symmetry. apply pendings_ext.
    intros j. rewrite Hpd. case_decide; [subst j|done]. by rewrite orb_false_r. }
  rewrite (ax_nr s4) by (done || apply HK4).
  apply wp_when; intros Hc.
  - rewrite !andb_true_iff, !Z.eqb_eq, Z.ltb_lt in Hc. destruct Hc as [[Hn Hnr] Hany].
    assert (i = MMP) as -> by (change MMP with 9%nat; unfold NR_TASKS, MM_PROC_NR in Hnr; lia).
    eapply wp_mono; [apply inform_ok; [done| |]|].
    + rewrite Hfl, decide_True by done. by rewrite tst_bset, orb_true_r.
    + by rewrite Hgf, Hgf2.
    + intros [] s' [HK' _]. wp_steps. split_and!; [done|done|].
      rewrite Hsig, Hsg2 in Hn. intros [?|[?|?]]; [lia|done|done].
  - wp_steps. split_and!; [done|done|]. intros _. rewrite Hgf, Hgf2. split_and!; [done| |].
    + by rewrite Hfl, decide_True, Hfl2.
    + intros j Hj. by rewrite Hfl, decide_False, Hfl2.
Qed.

(** Taking the message of the queued sender [x]. *)
Lemma rec_take_ok s C caller m_ptr l1 x l2 : KI s -> CQ s C -> slot_ok caller ->
  C caller = l1 ++ x :: l2 ->
  wp (snr ← gets (fun s => p_nr (P x s));
      sbuf ← gets (fun s => p_messbuf (P x s));
      cp_mess snr x sbuf caller m_ptr;;
      link ← gets (fun s => p_sendlink (P x s));
      q ← gets (fun s => p_callerq (P caller s));
      (if decide (q = Some x)
       then upd_proc caller (fun p => p <| p_callerq := link |>)
       else match last l1 with
            | Some pr => upd_proc pr (fun p => p <| p_sendlink := link |>)
            | None => panic "previous_ptr not set"
            end);;
      upd_proc x (fun p => p <| p_flags := bclr (p_flags p) SENDING |>);;
      f ← gets (fun s => p_flags (P x s));
      when (f =? 0) (ready x);;
      mret OK) (fun r s' => r = OK /\ KI s' /\ CQ s' (qset caller (l1 ++ l2) C) /\
        delivered s s' x caller (p_messbuf (P x s)) m_ptr /\
        flags s' x = bclr (flags s x) SENDING /\ (forall j, j <> x -> flags s' j = flags s j)) s.
Proof.
  intros (HS & _ & HA & HG) HC Hca HCc. destruct HS as [Q HS].
  assert (Hxc : x ∈ C caller) by (rewrite HCc; set_solver).
  destruct (cq_in _ _ HC caller x Hca Hxc) as [Hx Hsx].
  destruct (cq_list _ _ HC caller Hca) as [Hl Hnd]. rewrite HCc in Hl, Hnd.
  wp_steps. eapply wp_mono; [apply cp_mess_ok|]. intros [] s1 ->. wp_steps.
  set (s1 := s <| k_mem ::= _ |>).
  assert (HS1 : SI s1 Q) by exact HS.
  assert (HA1 : AUX s1) by by apply (AUX_ext s).
  change (P x s1) with (P x s). change (P caller s1) with (P caller s).
  pose proof (ax_len _ HA) as Hlen.
  apply wp_mono with (fun _ s2 => SI s2 Q /\ ipc_frame s s2 /\ AUX s2 /\ k_mem s2 = k_mem s1 /\
    (forall j, flags s2 j = flags s j /\
      p_callerq (P j s2) = (if decide (caller = j /\ l1 = []) then sendlink s x else p_callerq (P j s)) /\
      sendlink s2 j = if decide (last l1 = Some j) then sendlink s x else sendlink s j)).
  - destruct l1 as [|y l1 _] using rev_ind.
    + destruct Hl as [Hhd _]. rewrite decide_True by done. unfold upd_proc. wp_steps.
      destruct (upd_links s1 caller (fun p => p <| p_callerq := p_sendlink (P x s) |>) ltac:(done))
        as (H1 & H2 & H3 & H4). split_and!; try done; [by apply H1|by transitivity s1|by apply H3|].
      intros j. split; [apply H4|]. unfold sendlink. rewrite P_alter by (by rewrite (ax_len _ HA1)). simpl.
      change (P j s1) with (P j s). destruct (decide (caller = j)) as [->|Hne].
      * rewrite decide_True by done. done.
      * rewrite decide_False by naive_solver. done.
    + rewrite last_snoc.
      assert (Hyc : y ∈ C caller) by (rewrite HCc; set_solver).
      destruct (cq_in _ _ HC caller y Hca Hyc) as [Hy _].
      rewrite decide_False; last first.
      { destruct l1 as [|h l1]; destruct Hl as [-> _]; intros [= ->].
        - simpl in Hnd. apply NoDup_cons in Hnd as [Hnd _]. set_solver.
        - simpl in Hnd. apply NoDup_cons in Hnd as [Hnd _]. set_solver. }
      unfold upd_proc. wp_steps.
      destruct (upd_links s1 y (fun p => p <| p_sendlink := p_sendlink (P x s) |>) ltac:(done))
        as (H1 & H2 & H3 & H4). split_and!; try done; [by apply H1|by transitivity s1|by apply H3|].
      intros j. split; [apply H4|]. unfold sendlink. rewrite P_alter by (by rewrite (ax_len _ HA1)).
      change (P j s1) with (P j s). rewrite (decide_False (P := _ /\ _)) by (intros [_ E]; by destruct l1).
      destruct (decide (y = j)) as [->|Hne].
      * rewrite decide_True by done. done.
      * rewrite (decide_False (P := Some y = Some j)) by congruence. done.
  - intros [] s2 (HS2 & HF2 & HA2 & Hm2 & Hj2). unfold upd_proc. wp_steps.
    assert (Hfx : flags s x <> 0) by by eapply tst_nonzero.
    assert (Hxh : x <> HW) by (intros ->; by rewrite (ax_hw _ HA) in Hfx).
    assert (Hxi : x <> IDLEP) by (intros ->; by rewrite (ax_idle _ HA) in Hfx).
    change (s2 <| procs ::= _ |>) with (at_flags x (fun f => bclr f SENDING) s2).
    pose proof (ax_len _ HA2) as Hlen2.
    set (s3 := at_flags x _ s2).
    assert (Hfl3 : forall j, flags s3 j = if decide (x = j) then bclr (flags s x) SENDING else flags s j).
    { intros j. unfold s3. rewrite at_flags_P by done. case_decide; [subst j; simpl; by rewrite (proj1 (Hj2 x))|apply Hj2]. }
    assert (HC3 : CQ s3 (qset caller (l1 ++ l2) C)).
    { apply (CQ_remove s s3 C caller l1 x l2); try done.
      - intros j. rewrite <- (proj1 (proj2 (Hj2 j))). unfold s3. rewrite at_flags_P by done. by case_decide.
      - intros j. rewrite <- (proj2 (proj2 (Hj2 j))). unfold sendlink, s3. rewrite at_flags_P by done.
        by case_decide.
      - intros j. rewrite Hfl3. case_decide; [by rewrite tst_bclr_same|done]. }
    assert (HA3 : AUX s3).
    { apply AUX_flags; try done; rewrite ?(proj1 (Hj2 x)), ?tst_bclr by done; try done.
      - by rewrite tst_bclr_same.
      - by apply (ax_sigp _ HA). }
    eapply wp_mono; [apply (wake_ok s2 Q x SENDING); try done; by rewrite (proj1 (Hj2 x))|].
    intros [] s' (HS' & Hfr & _). wp_steps. fold s3 in Hfr.
    assert (Hfl' : forall j, flags s' j = flags s3 j) by (intros j; by apply (sched_frame_field p_flags)).
    split_and!; [done| |by eapply CQ_frame| | |].
    + split_and!; [done|eexists; by eapply CQ_frame|by eapply AUX_frame|].
      apply (SG_frame s); [|done]. transitivity s3; [|by apply sched_ipc_frame].
      transitivity s2; [done|]. apply ipc_frame_flags; try done. by rewrite tst_bclr.
    + unfold delivered. destruct Hfr as [_ _ (_ & _ & -> & _)]. exact Hm2.
    + by rewrite Hfl', Hfl3, decide_True.
    + intros j Hj. by rewrite Hfl', Hfl3, decide_False.
Qed.

Lemma mini_rec_eq caller src m_ptr : mini_rec caller src m_ptr =
  (cp ← gets (P caller);
   if tst (p_flags cp) SENDING then block_rec caller src m_ptr else
   found ← find_sender (S NR_SLOTS) src None (p_callerq cp);
   match found with
   | Some (prev, x) =>
      snr ← gets (fun s => p_nr (P x s));
      sbuf ← gets (fun s => p_messbuf (P x s));
      cp_mess snr x sbuf caller m_ptr;;
      link ← gets (fun s => p_sendlink (P x s));
      q ← gets (fun s => p_callerq (P caller s));
      (if decide (q = Some x)
       then upd_proc caller (fun p => p <| p_callerq := link |>)
       else match prev with
            | Some pr => upd_proc pr (fun p => p <| p_sendlink := link |>)
            | None => panic "previous_ptr not set"
            end);;
      upd_proc x (fun p => p <| p_flags := bclr (p_flags p) SENDING |>);;
      f ← gets (fun s => p_flags (P x s));
      when (f =? 0) (ready x);;
      mret OK
   | None =>
      if p_int_blocked cp && isrxhardware src then
        old ← gets (msg_at m_ptr);
        put_msg m_ptr (mk_msg HARDWARE HARD_INT (m_words old));;
        upd_proc caller (fun p => p <| p_int_blocked := false |>);;
        mret OK
      else block_rec caller src m_ptr
   end).
Proof. reflexivity. Qed.

(** Who is served: the first acceptable sender of the caller queue. *)
Definition accepts (s : kst) (src : Z) (i : nat) : Prop := src = ANY \/ p_nr (P i s) = src.

Definition received (s s' : kst) (C : nat -> list nat) (caller : nat) (src m_ptr : Z) : Prop :=
  (exists l1 x l2, C caller = l1 ++ x :: l2 /\ accepts s src x /\
     (forall i, i ∈ l1 -> ~ accepts s src i) /\
     CQ s' (qset caller (l1 ++ l2) C) /\
     delivered s s' x caller (p_messbuf (P x s)) m_ptr /\
     flags s' x = bclr (flags s x) SENDING /\ (forall j, j <> x -> flags s' j = flags s j))
  \/ ((forall i, i ∈ C caller -> ~ accepts s src i) /\
      p_int_blocked (P caller s) = true /\ isrxhardware src = true /\
      k_mem s' = <[m_ptr := mk_msg HARDWARE HARD_INT (m_words (msg_at m_ptr s))]> (k_mem s) /\
      p_int_blocked (P caller s') = false /\ (forall j, flags s' j = flags s j))
  \/ ((sending s caller = true \/ forall i, i ∈ C caller -> ~ accepts s src i) /\
      (sig_procs s <= 0 \/ caller <> MMP \/ src <> ANY ->
       p_getfrom (P caller s') = src /\ flags s' caller = bset (flags s caller) RECEIVING /\
       (forall j, j <> caller -> flags s' j = flags s j))).

Lemma mini_rec_ok s C caller src m_ptr : KI s -> CQ s C -> slot_ok caller ->
  caller <> HW -> caller <> IDLEP -> (sending s caller = true -> src <> ANY) ->
  wp (mini_rec caller src m_ptr) (fun r s' => r = OK /\ KI s' /\
    received s s' C caller src m_ptr) s.
Proof.
  intros HK HC Hca Hh Hid Hsrc. rewrite mini_rec_eq. wp_steps.
  destruct (sending s caller) eqn:Hsnd.
  { eapply wp_mono; [apply block_rec_ok; try done; by rewrite Hsnd|]. intros r s' (-> & HK' & Hb).
    split_and!; try done. right; right. naive_solver. }
  wp_steps. destruct (cq_list _ _ HC caller Hca) as [Hl Hnd].
  eapply wp_mono; [apply (find_sender_ok s src _ _ _ _ Hl)|].
  { pose proof (CQ_length _ _ _ HC Hca). lia. }
  intros r s1 [-> Hr]. destruct r as [[prev x]|].
  - destruct Hr as (Hm & l1 & l2 & HCc & -> & Hno).
    replace (match last l1 with Some y => Some y | None => None end) with (last l1) by (by destruct (last l1)).
    eapply wp_mono; [by apply (rec_take_ok s C caller m_ptr l1 x l2)|].
    intros r s' (-> & HK' & HC' & Hdel & Hfx & Hfo). split_and!; try done. left.
    exists l1, x, l2. unfold accepts. split_and!; try done.
    intros i Hi [?|?]; by destruct (Hno i Hi).
  - assert (Hno : forall i, i ∈ C caller -> ~ accepts s src i).
    { intros i Hi [?|?]; by destruct (Hr i Hi). }
    destruct (p_int_blocked (P caller s) && isrxhardware src) eqn:Eb.
    + apply andb_true_iff in Eb as [Eb1 Eb2]. unfold put_msg, upd_proc. wp_steps.
      set (s1 := s <| k_mem ::= _ |>).
      destruct HK as ([Q HS] & [C0 HC0] & HA & HG).
      assert (HK1 : KI1 s1).
      { split_and!; [by exists Q|exists C; by apply (CQ_ext s)|by apply (AUX_ext s)]. }
      destruct (KI1_quiet s1 caller (fun p => p <| p_int_blocked := false |>) ltac:(done) ltac:(done) HK1)
        as [HK2 HF2].
      split_and!; [done| |].
      * apply KI_of_KI1; [done|]. by apply (SG_frame s1).
      * right; left. split_and!; try done.
        -- rewrite P_alter by (by rewrite (ax_len _ (proj2 (proj2 HK1)))). by rewrite decide_True.
        -- intros j. by apply (tbl_alter_proj p_flags (procs s1)).
    + eapply wp_mono; [apply block_rec_ok; try done; by rewrite Hsnd|]. intros r s' (-> & HK' & Hb).
      split_and!; try done. right; right. naive_solver.
Qed.

(** ** The scheduler *)
Lemma KI_sw s b : KI s -> KI (s <| switching := b |>).
Proof.
  intros (HS & HC & HA & HG). apply KI_of_KI1; [|done]. apply (KI1_sw s b). by split_and!.
Qed.

Lemma KI_sched k : KI k -> wp sched (fun _ k' => KI k') k.
Proof.
  intros ([Q [HQ Hr]] & [C HC] & HA & HG).
  eapply wp_mono; [apply (sched_ok _ Q); exact HQ|]. intros [] k' (HQ1 & Hf & _).
  split_and!; [|exists C; by eapply CQ_frame|by eapply AUX_frame|].
  - eexists. split; [exact HQ1|]. intros i Hi. rewrite (queue_of_frame _ _ _ Hf).
    rewrite (sched_frame_field p_flags _ _ _ ltac:(done) Hf), <- (Hr i Hi). unfold qset.
    case_decide as E; [|done]. rewrite E. unfold rotate1. destruct (Q USER_Q); [done|]. set_solver.
  - eapply SG_frame; [by apply sched_ipc_frame|done].
Qed.
