(* ===== verification/KKeeps.v ===== *)
(** * What the message system leaves alone

    The routines of proc.c and the kernel signals change only the scheduling,
    message and signal fields of process table entries: times, alarms, memory
    maps, registers and identities are untouched. *)

From S2P Require Import Prelude KProc.

(** The fields that proc.c never writes. *)
Record user_part := mk_user_part {
  up_map : segs; up_shadow : Z; up_pid : Z;
  up_times : Z * Z * Z * Z; up_alarm : Z; up_regs : Z * Z * Z * Z * Z * list Z * Z; up_nr : Z }.
Definition user_part_of (p : proc) : user_part :=
  mk_user_part (p_map p) (p_shadow p) (p_pid p)
    (user_time p, sys_time p, child_utime p, child_stime p) (p_alarm p)
    (p_sp p, p_pc p, p_psw p, p_retreg p, p_splow p, p_regs p, p_trap p) (p_nr p).

Definition same_user (s s' : kst) : Prop :=
  length (procs s') = length (procs s) /\
  forall j, user_part_of (P j s') = user_part_of (P j s).

#[export] Instance same_user_pre : PreOrder same_user.
Proof.
  split; [by intros s|]. intros s1 s2 s3 [H1 H2] [H3 H4]. split; [congruence|]. intros j. by rewrite H4.
Qed.

Lemma keeps_upd_proc i f : (forall p, user_part_of (f p) = user_part_of p) -> keeps same_user (upd_proc i f).
Proof.
  intros Hf. apply keeps_modify. intros s. split; [apply length_alter|].
  intros j. by apply (tbl_alter_proj user_part_of).
Qed.
Lemma keeps_globals (f : kst -> kst) : (forall s, procs (f s) = procs s) -> keeps same_user (modify f).
Proof. intros Hf. apply keeps_modify. intros s. unfold same_user, P. by rewrite Hf. Qed.
#[export] Hint Extern 1 (keeps same_user (upd_proc _ _)) => (apply keeps_upd_proc; done) : keeps_db.
#[export] Hint Extern 1 (keeps same_user (modify _)) => (apply keeps_globals; done) : keeps_db.

Lemma pick_proc_keeps : keeps same_user pick_proc.
Proof. unfold pick_proc. keeps_auto. Qed.
#[export] Hint Resolve pick_proc_keeps : keeps_db.
Lemma enqueue_keeps q rp : keeps same_user (enqueue q rp).
Proof. unfold enqueue. keeps_auto. Qed.
#[export] Hint Resolve enqueue_keeps : keeps_db.
Lemma ready_keeps rp : keeps same_user (ready rp).
Proof. unfold ready. keeps_auto. Qed.
Lemma unready_find_keeps fuel rp xp : keeps same_user (unready_find fuel rp xp).
Proof. revert xp. induction fuel as [|fuel IH]; intros xp; cbn [unready_find]; keeps_auto. Qed.
Lemma last_from_keeps fuel xp : keeps same_user (last_from fuel xp).
Proof. revert xp. induction fuel as [|fuel IH]; intros xp; cbn [last_from]; keeps_auto. Qed.
#[export] Hint Resolve ready_keeps unready_find_keeps last_from_keeps : keeps_db.
Lemma unready_keeps rp : keeps same_user (unready rp).
Proof. unfold unready, unready_q. keeps_auto. Qed.
#[export] Hint Resolve unready_keeps : keeps_db.
Lemma sched_keeps : keeps same_user sched.
Proof. unfold sched. keeps_auto. Qed.
#[export] Hint Resolve sched_keeps : keeps_db.
Lemma lock_switch_keeps {A} (m : M kst A) : keeps same_user m -> keeps same_user (lock_switch m).
Proof. intros Hm. unfold lock_switch. keeps_auto. Qed.
Lemma lock_pick_proc_keeps : keeps same_user lock_pick_proc.
Proof. apply lock_switch_keeps, pick_proc_keeps. Qed.
Lemma lock_ready_keeps rp : keeps same_user (lock_ready rp).
Proof. apply lock_switch_keeps, ready_keeps. Qed.
Lemma lock_unready_keeps rp : keeps same_user (lock_unready rp).
Proof. apply lock_switch_keeps, unready_keeps. Qed.
Lemma lock_sched_keeps : keeps same_user lock_sched.
Proof. apply lock_switch_keeps, sched_keeps. Qed.
#[export] Hint Resolve lock_pick_proc_keeps lock_ready_keeps lock_unready_keeps lock_sched_keeps : keeps_db.

Lemma on_sendlist_keeps fuel d p : keeps same_user (on_sendlist fuel d p).
Proof. revert p. induction fuel as [|fuel IH]; intros p; cbn [on_sendlist]; keeps_auto. Qed.
Lemma last_sender_keeps fuel p : keeps same_user (last_sender fuel p).
Proof. revert p. induction fuel as [|fuel IH]; intros p; cbn [last_sender]; keeps_auto. Qed.
Lemma cp_mess_keeps src sp sm dp dm : keeps same_user (cp_mess src sp sm dp dm).
Proof. unfold cp_mess, put_msg. keeps_auto. Qed.
#[export] Hint Resolve on_sendlist_keeps last_sender_keeps cp_mess_keeps : keeps_db.
Lemma mini_send_keeps c d m : keeps same_user (mini_send c d m).
Proof. unfold mini_send. keeps_auto. Qed.
Lemma lock_mini_send_keeps c d m : keeps same_user (lock_mini_send c d m).
Proof. apply lock_switch_keeps, mini_send_keeps. Qed.
Lemma done_one_sig_keeps i : keeps same_user (done_one_sig i).
Proof. unfold done_one_sig. keeps_auto. Qed.
#[export] Hint Resolve mini_send_keeps lock_mini_send_keeps done_one_sig_keeps : keeps_db.
Lemma inform_keeps : keeps same_user inform.
Proof. unfold inform, put_msg. keeps_auto. Qed.
#[export] Hint Resolve inform_keeps : keeps_db.
Lemma cause_sig_keeps n sg : keeps same_user (cause_sig n sg).
Proof. unfold cause_sig. keeps_auto. Qed.
#[export] Hint Resolve cause_sig_keeps : keeps_db.
