(* ===== verification/KIntr.v ===== *)
(** * Interrupts in [proc.c]: [interrupt] and the held-up queue

    An interrupt that arrives while the kernel is switching is queued, once
    per task; [unhold] delivers all of them in order. Delivery wakes a task
    that waits for hardware and otherwise leaves the [p_int_blocked] mark that
    the task's next [RECEIVE] finds. *)

From S2P Require Import Prelude KProc KQueues KIpc.

Definition nextheld (s : kst) (i : nat) : option nat := p_nextheld (P i s).

(** The queue of held-up interrupts is the list [L]. *)
Record HQ (s : kst) (L : list nat) : Prop := {
  hq_list : llist (nextheld s) (held_head s) L;
  hq_nodup : NoDup L;
  hq_tail : L <> [] -> held_tail s = last L;
  hq_held i : slot_ok i -> (p_int_held (P i s) = true <-> i ∈ L);
  hq_task i : i ∈ L -> (i < 9)%nat;
}.

(** Tasks are blocked by messages only. *)
Definition TK (s : kst) : Prop :=
  forall i, (i < 9)%nat -> Z.ldiff (flags s i) (Z.lor RECEIVING SENDING) = 0.

Definition waits_hw (s : kst) (i : nat) : bool :=
  (Z.land (flags s i) (Z.lor RECEIVING SENDING) =? RECEIVING) && isrxhardware (p_getfrom (P i s)).

(** The effect on task [i] of one delivered interrupt. *)
Definition int_effect (s s' : kst) (i : nat) : Prop :=
  if waits_hw s i then
    flags s' i = 0 /\ p_int_blocked (P i s') = false /\
    k_mem s' !! p_messbuf (P i s) =
      Some (mk_msg HARDWARE HARD_INT (m_words (msg_at (p_messbuf (P i s)) s)))
  else flags s' i = flags s i /\ p_int_blocked (P i s') = true /\ k_mem s' = k_mem s.

(** What delivering to [i] leaves alone. *)
Record int_frame (s s' : kst) (i : nat) : Prop := {
  ifr_other j : j <> i -> flags s' j = flags s j /\ p_int_blocked (P j s') = p_int_blocked (P j s);
  ifr_field j : p_getfrom (P j s') = p_getfrom (P j s) /\ p_messbuf (P j s') = p_messbuf (P j s) /\
     p_nr (P j s') = p_nr (P j s);
  ifr_re : k_reenter s' = k_reenter s /\ switching s' = switching s;
}.

Lemma task_wait_flags s i : TK s -> (i < 9)%nat -> waits_hw s i = true -> flags s i = RECEIVING.
Proof.
  intros HT Hi Hw. unfold waits_hw in Hw. apply andb_true_iff in Hw as [Hw _]. apply Z.eqb_eq in Hw.
  rewrite <- (Z.lor_ldiff_and (flags s i) (Z.lor RECEIVING SENDING)), (HT i Hi), Hw. done.
Qed.

Lemma HQ_ext s s' L : held_head s' = held_head s -> held_tail s' = held_tail s ->
  (forall i, p_nextheld (P i s') = p_nextheld (P i s) /\ p_int_held (P i s') = p_int_held (P i s)) ->
  HQ s L -> HQ s' L.
Proof.
  intros Hh Ht Hf [H1 H2 H3 H4 H5]. split; try done.
  - rewrite Hh. eapply lseg_frame; [|exact H1]. intros i _. apply Hf.
  - by rewrite Ht.
  - intros i Hi. destruct (Hf i) as [_ ->]. auto.
Qed.

Lemma HQ_frame s s' L : sched_frame s s' -> HQ s L -> HQ s' L.
Proof.
  intros Hf. pose proof Hf as [_ [] _]. apply HQ_ext; try done. intros i. split.
  - by apply (sched_frame_field p_nextheld).
  - by apply (sched_frame_field p_int_held).
Qed.

Lemma slot_of_task task : -9 <= task < 0 -> (proc_addr task < 9)%nat /\ Z.of_nat (proc_addr task) = task + 9.
Proof. unfold proc_addr, NR_TASKS. lia. Qed.

Lemma tasks_queue s i : (i < 9)%nat -> i <> IDLEP -> queue_of s i = TASK_Q.
Proof.
  intros Hi Hid. unfold queue_of, istaskp. change (proc_addr IDLE) with IDLEP.
  replace (Z.of_nat i <? NR_TASKS) with true by (symmetry; apply Z.ltb_lt; unfold NR_TASKS; lia).
  by rewrite (proj2 (Nat.eqb_neq i IDLEP)).
Qed.

(** Delivery: the kernel is not switching. *)
Lemma interrupt_deliver_ok s L task : KI s -> HQ s L -> TK s -> -9 <= task < 0 ->
  k_reenter s = 0 -> switching s = false ->
  wp (interrupt task) (fun _ s' => KI s' /\ HQ s' L /\ TK s' /\
    int_effect s s' (proc_addr task) /\ int_frame s s' (proc_addr task)) s.
Proof.
  intros HK HH HT Htask Hre Hsw. pose proof (slot_of_task task Htask) as [Hi _].
  set (i := proc_addr task) in *. assert (Hso : slot_ok i) by (unfold slot_ok, NR_SLOTS; lia).
  destruct HK as ([Q HS] & [C HC] & HA & HG). pose proof (ax_len _ HA) as Hlen.
  unfold interrupt. fold i. wp_steps. rewrite Hre, Hsw. cbn [nz negb Z.eqb orb]. wp_steps.
  change (nz 0 || false) with false. wp_steps.
  assert (Hb : negb (Z.land (flags s i) (Z.lor RECEIVING SENDING) =? RECEIVING)
       || negb (isrxhardware (p_getfrom (P i s))) = negb (waits_hw s i)).
  { unfold waits_hw. by rewrite negb_andb. }
  rewrite Hb. destruct (waits_hw s i) eqn:Hw; cbn [negb].
  - pose proof (task_wait_flags s i HT Hi Hw) as Hfl.
    assert (Hh : i <> HW) by (intros E; rewrite E, (ax_hw _ HA) in Hfl; done).
    assert (Hid : i <> IDLEP) by (intros E; rewrite E, (ax_idle _ HA) in Hfl; done).
    unfold put_msg, upd_proc. wp_steps.
    set (s1 := s <| k_mem ::= _ |>). set (s2 := s1 <| procs ::= _ |>). set (s3 := s2 <| procs ::= _ |>).
    assert (HP3 : forall j, P j s3 = if decide (i = j)
      then (P j s) <| p_flags := bclr (flags s j) RECEIVING |> <| p_int_blocked := false |> else P j s).
    { intros j. etrans; [apply (P_alter s2); simpl; rewrite length_alter, Hlen; done|].
      assert (H2 : P j s2 = if decide (i = j) then (P j s1) <| p_flags := bclr (p_flags (P j s1)) RECEIVING |> else P j s1).
      { etrans; [apply (P_alter s1); change (i < length (procs s))%nat; by rewrite Hlen|by case_decide]. }
      rewrite H2. by case_decide. }
    assert (HA3 : AUX s3).
    { apply (AUX_ext s2).
      - apply length_alter.
      - intros j. split_and!; apply (tbl_alter_proj _ (procs s2)); done.
      - done.
      - apply (AUX_flags s1 i (fun f => bclr f RECEIVING)); try done; [by apply (AUX_ext s)|..]; simpl; change (flags s1 i) with (flags s i);
          rewrite Hfl; done. }
    assert (HC3 : CQ s3 C).
    { apply (CQ_ext s); [|done]. intros j. unfold sendlink. rewrite HP3. case_decide; [subst j|done].
      split_and!; try done. simpl. by rewrite tst_bclr. }
    assert (HQ3 : RQ s3 Q).
    { eapply (RQ_ext s); try done; [|intros j; rewrite HP3; by case_decide|apply HS].
      etrans; apply length_alter. }
    assert (Hqi : queue_of s3 i = TASK_Q) by by apply tasks_queue.
    eapply wp_mono; [apply (enqueue_ok s3 Q TASK_Q i); try done|].
    { unfold TASK_Q, NQ. lia. }
    { rewrite <- Hqi. rewrite (queue_of_ext s) by (rewrite HP3; by case_decide).
      rewrite (proj2 HS i Hso), Hfl. intros [? _]. done. }
    intros [] s' (HQ' & Hfr & _ & Hsw').
    assert (Hfl' : forall j, flags s' j = if decide (i = j) then 0 else flags s j).
    { intros j. rewrite (sched_frame_field p_flags s3 s'), HP3 by done.
      case_decide; [subst j; simpl; by rewrite Hfl|done]. }
    assert (Hx : forall {A} (f : proc -> A) j, (forall p, f (no_ready p) = f p) ->
      (forall p v w, f (p <| p_flags := v |> <| p_int_blocked := w |>) = f p) -> f (P j s') = f (P j s)).
    { intros A f j F1 F2. rewrite (sched_frame_field f s3 s'), HP3 by done. case_decide; [apply F2|done]. }
    split_and!.
    + split_and!; [|exists C; by eapply CQ_frame|by eapply AUX_frame|].
      * eexists. split; [exact HQ'|]. intros j Hj. rewrite (queue_of_frame s3) by done.
        pose proof (proj2 HS j Hj) as Hrj.
        rewrite (queue_of_ext s s3) by (rewrite HP3; by case_decide). rewrite Hfl'. unfold qset.
        assert (Hqs : queue_of s i = TASK_Q) by by apply tasks_queue.
        destruct (decide (i = j)) as [<-|Hne].
        -- rewrite decide_True by done. split; [done|set_solver].
        -- case_decide as E; [|done]. rewrite E in Hrj. rewrite <- Hrj. set_solver.
      * apply (SG_frame s); [|done]. split.
        -- intros j. rewrite Hfl'. case_decide; [subst j|done]. by rewrite Hfl.
        -- by destruct Hfr as [_ _ (_ & -> & _)].
        -- by destruct Hfr as [_ _ (_ & _ & _ & ->)].
        -- by destruct Hfr as [_ [-> ->] (-> & _)].
    + eapply HQ_frame; [exact Hfr|]. apply (HQ_ext s); try done. intros j. rewrite HP3. by case_decide.
    + intros j Hj. rewrite Hfl'. case_decide; [done|by apply HT].
    + unfold int_effect. rewrite Hw. rewrite Hfl', decide_True by done. split_and!; [done| |].
      * rewrite (sched_frame_field p_int_blocked s3 s'), HP3, decide_True by done. done.
      * destruct Hfr as [_ _ (_ & _ & -> & _)]. apply lookup_insert_eq.
    + split.
      * intros j Hj. rewrite Hfl', decide_False by done. split; [done|].
        rewrite (sched_frame_field p_int_blocked s3 s'), HP3, decide_False by done. done.
      * intros j. split_and!; by apply Hx.
      * destruct Hfr as [_ _ (-> & _)]. by rewrite Hsw'.
  - unfold upd_proc. wp_steps.
    destruct (KI1_quiet s i (fun p => p <| p_int_blocked := true |>) ltac:(done) ltac:(done)) as [HK1 HF1].
    { by split_and!; [exists Q|exists C|]. }
    set (s1 := s <| procs ::= _ |>) in *.
    assert (HP1 : forall j, P j s1 = if decide (i = j) then (P j s) <| p_int_blocked := true |> else P j s).
    { intros j. apply P_alter. by rewrite Hlen. }
    split_and!.
    + apply KI_of_KI1; [done|]. by apply (SG_frame s).
    + apply (HQ_ext s); try done. intros j. rewrite HP1. by case_decide.
    + intros j Hj. rewrite HP1. case_decide; [simpl|]; by apply HT.
    + unfold int_effect. rewrite Hw, HP1, decide_True by done. done.
    + split; [|intros j; rewrite HP1; by case_decide|done].
      intros j Hj. by rewrite HP1, decide_False.
Qed.

(** Holding: the kernel is switching. *)
Definition held_after (L : list nat) (i : nat) : list nat := if decide (i ∈ L) then L else L ++ [i].

Lemma KI_held s h t : KI s -> KI (s <| held_head := h |> <| held_tail := t |>).
Proof.
  intros ([Q HS] & [C HC] & HA & HG). split_and!; [by exists Q| | |done].
  - exists C. by apply (CQ_ext s).
  - by apply (AUX_ext s).
Qed.

Lemma KI_quiet s i g :
  (forall p, p_nr (g p) = p_nr p /\ p_flags (g p) = p_flags p /\ p_map (g p) = p_map p /\
     p_nextready (g p) = p_nextready p /\ p_shadow (g p) = p_shadow p /\
     p_callerq (g p) = p_callerq p /\ p_sendlink (g p) = p_sendlink p) ->
  (forall p, p_getfrom (g p) = p_getfrom p) -> KI s -> KI (s <| procs ::= alter g i |>).
Proof.
  intros H1 H2 (? & ? & ? & ?). destruct (KI1_quiet s i g H1 H2) as [HK HF]; [by split_and!|].
  apply KI_of_KI1; [done|]. by apply (SG_frame s).
Qed.

Lemma interrupt_hold_ok s L task : KI s -> HQ s L -> -9 <= task < 0 ->
  k_reenter s <> 0 \/ switching s = true ->
  wp (interrupt task) (fun _ s' => KI s' /\ HQ s' (held_after L (proc_addr task)) /\
    (forall j, flags s' j = flags s j /\ p_int_blocked (P j s') = p_int_blocked (P j s)) /\
    k_mem s' = k_mem s) s.
Proof.
  intros HK HH Htask Hsw. pose proof (slot_of_task task Htask) as [Hi _].
  set (i := proc_addr task) in *. assert (Hso : slot_ok i) by (unfold slot_ok, NR_SLOTS; lia).
  pose proof HK as (_ & _ & HA & _). pose proof (ax_len _ HA) as Hlen.
  unfold interrupt. fold i. wp_steps.
  replace (nz (k_reenter s) || switching s) with true; last first.
  { symmetry. apply orb_true_iff. rewrite nz_true. naive_solver. }
  wp_steps. unfold held_after. pose proof (hq_held _ _ HH i Hso) as Hheld.
  destruct (p_int_held (P i s)); wp_steps.
  { rewrite decide_True by naive_solver. done. }
  assert (Hni : i ∉ L) by naive_solver. rewrite decide_False by done.
  destruct HH as [H1 H2 H3 H4 H5]. unfold upd_proc. wp_steps.
  set (s1 := s <| procs ::= _ |>). change (held_head s1) with (held_head s).
  assert (HP1 : forall j, P j s1 = if decide (i = j) then (P j s) <| p_int_held := true |> else P j s).
  { intros j. apply P_alter. by rewrite Hlen. }
  assert (HK1 : KI s1) by by apply KI_quiet.
  assert (Hlen1 : length (procs s1) = NR_SLOTS) by (etrans; [apply length_alter|done]).
  apply wp_mono with (fun _ s2 => KI s2 /\ held_head s2 = (match L with [] => Some i | _ => held_head s end) /\
    length (procs s2) = NR_SLOTS /\ k_mem s2 = k_mem s /\
    forall j, flags s2 j = flags s j /\ p_int_blocked (P j s2) = p_int_blocked (P j s) /\
      p_int_held (P j s2) = p_int_held (P j s1) /\
      nextheld s2 j = if decide (last L = Some j) then Some i else nextheld s j).
  - destruct L as [|x L]; simpl in H1.
    + rewrite H1. wp_steps. split_and!; try done.
      * destruct HK1 as ([Q HS] & [C HC] & HA1 & HG). split_and!; [by exists Q| | |done].
        -- exists C. by apply (CQ_ext s1).
        -- by apply (AUX_ext s1).
      * intros j. unfold nextheld. rewrite (decide_False (P := last [] = Some j)) by done.
        change (P j (s1 <| held_head := Some i |>)) with (P j s1). rewrite HP1. by case_decide.
    + destruct H1 as [Hh1 H1]. rewrite Hh1 at 1. wp_steps. change (held_tail s1) with (held_tail s). rewrite (H3 ltac:(done)).
      destruct (last (x :: L)) as [t|] eqn:Hlast; [|by apply last_None in Hlast]. wp_steps.
      pose proof Hlast as Ht%last_Some_elem_of. pose proof (H5 t Ht) as Ht9.
      assert (HP2 : forall j, P j (s1 <| procs ::= alter (fun p => p <| p_nextheld := Some i |>) t |>) =
        if decide (t = j) then (P j s1) <| p_nextheld := Some i |> else P j s1).
      { intros j. apply P_alter. rewrite Hlen1. unfold NR_SLOTS. lia. }
      split_and!; try done.
      * by apply KI_quiet.
      * etrans; [apply length_alter|done].
      * intros j. unfold nextheld. rewrite HP2, HP1.
        destruct (decide (t = j)) as [->|Hne].
        -- rewrite (decide_True (P := Some j = Some j)) by done. by case_decide.
        -- rewrite (decide_False (P := Some t = Some j)) by congruence. by case_decide.
  - intros [] s2 (HK2 & Hh2 & Hlen2 & Hm2 & Hj2). wp_steps.
    set (s3 := s2 <| held_tail := _ |>).
    assert (HK3 : KI s3) by exact (KI_held s2 (held_head s2) (Some i) HK2).
    assert (HP4 : forall j, P j (s3 <| procs ::= alter (fun p => p <| p_nextheld := None |>) i |>) =
        if decide (i = j) then (P j s2) <| p_nextheld := None |> else P j s2).
    { intros j. apply (P_alter s3). change (i < length (procs s2))%nat. by rewrite Hlen2. }
    split_and!; [by apply KI_quiet| | |done].
    + split.
      * eapply (lseg_link (nextheld s) _ (held_head s) _ L i [] None None); try done.
        -- by rewrite app_nil_r.
        -- set_solver.
        -- unfold nextheld. by rewrite HP4, decide_True.
        -- intros j Hj. unfold nextheld. rewrite HP4, decide_False.
           ++ destruct (Hj2 j) as (_ & _ & _ & Hn). unfold nextheld in Hn. by rewrite Hn, decide_True.
           ++ intros ->. apply last_Some_elem_of in Hj. done.
        -- intros j Hj Hne. rewrite app_nil_r in Hj. unfold nextheld. rewrite HP4, decide_False by set_solver.
           destruct (Hj2 j) as (_ & _ & _ & Hn). unfold nextheld in Hn. by rewrite Hn, decide_False.
      * apply NoDup_app. split_and!; [done|set_solver|apply NoDup_singleton].
      * intros _. by rewrite last_snoc.
      * intros j Hj. rewrite HP4.
        transitivity (p_int_held (P j s2) = true); [by case_decide|].
        destruct (Hj2 j) as (_ & _ & -> & _). rewrite HP1.
        destruct (decide (i = j)) as [->|Hne]; [set_solver|]. rewrite (H4 j Hj). set_solver.
      * intros j. rewrite elem_of_app, list_elem_of_singleton. intros [?| ->]; auto.
    + intros j. rewrite HP4. destruct (Hj2 j) as (? & ? & _). by case_decide.
Qed.

Definition int_done (s s' : kst) (i : nat) : Prop :=
  if waits_hw s i then flags s' i = 0 /\ p_int_blocked (P i s') = false
  else flags s' i = flags s i /\ p_int_blocked (P i s') = true.

Definition same_int (s s' : kst) (i : nat) : Prop :=
  flags s' i = flags s i /\ p_int_blocked (P i s') = p_int_blocked (P i s) /\
  p_getfrom (P i s') = p_getfrom (P i s).

Lemma waits_same s s' i : same_int s s' i -> waits_hw s' i = waits_hw s i.
Proof. intros (H1 & _ & H3). unfold waits_hw. by rewrite H1, H3. Qed.

Lemma HQ_length s L : HQ s L -> (length L <= 9)%nat.
Proof.
  intros HH. rewrite <- (length_seq 9 0). apply submseteq_length, NoDup_submseteq; [apply HH|].
  intros i Hi. apply elem_of_seq. pose proof (hq_task _ _ HH i Hi). lia.
Qed.

Lemma unhold_loop_ok : forall L fuel s x, KI s -> HQ s (x :: L) -> TK s ->
  k_reenter s = 0 -> switching s = false -> (length L < fuel)%nat ->
  wp (unhold_loop fuel x) (fun _ s' => KI s' /\ HQ s' [] /\ TK s' /\
    (forall i, i ∈ x :: L -> int_done s s' i) /\ (forall i, i ∉ x :: L -> same_int s s' i)) s.
Proof.
  induction L as [L IH] using (induction_ltof1 _ (@length nat)). unfold ltof in IH.
  intros [|fuel] s x HK HH HT Hre Hsw Hf; [lia|]. cbn [unhold_loop]. wp_steps.
  pose proof HK as (_ & _ & HA & _). pose proof (ax_len _ HA) as Hlen.
  pose proof (hq_task _ _ HH x ltac:(set_solver)) as Hx9.
  destruct HH as [H1 H2 H3 H4 H5]. destruct H1 as [Hhd H1]. apply NoDup_cons in H2 as [Hx H2].
  change (p_nextheld (P x s)) with (nextheld s x).
  set (tl := if bool_decide (nextheld s x = None) then None else held_tail s).
  apply wp_mono with (fun _ s0 => s0 = s <| held_head := nextheld s x |> <| held_tail := tl |>).
  { unfold tl, when. case_bool_decide; [by wp_steps|]. wp_steps. by destruct s. }
  intros [] s0 ->. set (s0 := s <| held_head := _ |> <| held_tail := _ |>).
  unfold upd_proc. wp_steps. set (s1 := s0 <| procs ::= _ |>).
  assert (HP1 : forall j, P j s1 = if decide (x = j) then (P j s) <| p_int_held := false |> else P j s).
  { intros j. apply (P_alter s0). change (x < length (procs s))%nat. rewrite Hlen. unfold NR_SLOTS. lia. }
  assert (HK1 : KI s1) by by apply KI_quiet, KI_held.
  assert (HH1 : HQ s1 L).
  { split.
    - eapply lseg_frame; [|exact H1]. intros j _. unfold nextheld. rewrite HP1. by case_decide.
    - done.
    - intros HL. change (held_tail s1) with tl. unfold tl. rewrite bool_decide_false.
      + rewrite (H3 ltac:(done)). by destruct L.
      + destruct L; [done|]. by rewrite (lseg_head _ _ _ _ _ H1).
    - intros j Hj. rewrite HP1. pose proof (H4 j Hj) as Hj4. case_decide as E.
      + subst j. simpl. split; [done|]. by intros ?.
      + rewrite Hj4. set_solver.
    - intros j Hj. apply H5. set_solver. }
  assert (HT1 : TK s1) by (intros j Hj; rewrite HP1; case_decide; simpl; by apply HT).
  assert (Hs1 : forall j, same_int s s1 j) by (intros j; unfold same_int; rewrite HP1; by case_decide).
  rewrite (ax_nr s1) by (apply HK1 || (unfold slot_ok, NR_SLOTS; lia)).
  assert (Hpx : proc_addr (Z.of_nat x - NR_TASKS) = x) by (unfold proc_addr; lia).
  eapply wp_mono; [apply (interrupt_deliver_ok s1 L (Z.of_nat x - NR_TASKS)); try done|].
  { unfold NR_TASKS. lia. }
  rewrite Hpx. intros [] s2 (HK2 & HH2 & HT2 & Heff & Hfr). wp_steps.
  assert (Hs2 : forall j, j <> x -> same_int s s2 j).
  { intros j Hj. unfold same_int. destruct (Hs1 j) as (<- & <- & <-). destruct Hfr as [F1 F2 _].
    destruct (F1 j Hj), (F2 j) as (? & _). by split_and!. }
  assert (Hd2 : int_done s s2 x).
  { unfold int_effect in Heff. unfold int_done. rewrite <- (waits_same _ _ _ (Hs1 x)).
    destruct (waits_hw s1 x); [naive_solver|]. destruct (Hs1 x) as (<- & _). naive_solver. }
  destruct L as [|y L].
  - pose proof (hq_list _ _ HH2) as Hn. simpl in Hn. rewrite Hn. wp_steps. split_and!; try done.
    + intros i ->%list_elem_of_singleton. done.
    + intros i Hi. apply Hs2. set_solver.
  - rewrite (lseg_head _ _ _ _ _ (hq_list _ _ HH2)).
    destruct (ifr_re _ _ _ Hfr) as [Hre2 Hsw2].
    eapply wp_mono; [apply (IH L); [simpl; lia|done|done|done|by rewrite Hre2|by rewrite Hsw2|]|].
    + simpl in Hf. lia.
    + intros [] s' (HK' & HH' & HT' & Hd & Hs). split_and!; try done.
      * intros i [->|Hi]%elem_of_cons.
        -- specialize (Hs x ltac:(set_solver)). unfold int_done in *. destruct Hs as (-> & -> & _). done.
        -- specialize (Hd i Hi). assert (i <> x) as Hne by set_solver. specialize (Hs2 i Hne).
           unfold int_done in *. rewrite (waits_same _ _ _ Hs2) in Hd. by destruct Hs2 as (<- & _).
      * intros i Hi. destruct (Hs i ltac:(set_solver)) as (E1 & E2 & E3).
        destruct (Hs2 i ltac:(set_solver)) as (E4 & E5 & E6). split_and!; congruence.
Qed.
