(* ===== verification/KSys.v ===== *)
(** * The kernel's message system and scheduler: theorems

    The properties of [proc.c] that its clients rely on, proved from the
    invariant of KIpc and the queue refinement of KQueues, with a concrete
    kernel state in which they are exercised. *)

From S2P Require Import Prelude KProc KQueues KIpc KIntr.

(** ** A concrete kernel state

    The tasks wait for hardware, MM waits for anything, FS and a user process
    (INIT) are ready and the user process runs; other slots are free. *)
Definition tseg : segs := mk_segs (mk_map 0 0 0) (mk_map 0 0 256) (mk_map 0 0 0).

Definition k0_proc (i : nat) : proc :=
  proc0 <| p_nr := Z.of_nat i - NR_TASKS |> <| p_map := tseg |>
    <| p_flags := if decide (i = 1 \/ i = 8 \/ i = 10 \/ i = 11)%nat then 0
                  else if decide (i < 10)%nat then RECEIVING else P_SLOT_FREE |>
    <| p_getfrom := if decide (i < 9)%nat then HARDWARE else ANY |>
    <| p_messbuf := 4096 + 32 * Z.of_nat i |>.

Definition k0 : kst :=
  mk_kst (k0_proc <$> seq 0 41) 11 11 [None; Some 10; Some 11; None]%nat [None; Some 10; Some 11; None]%nat
    None None 0 false 0 ∅ 2048.

Definition Q0 (q : nat) : list nat := if decide (q = 1)%nat then [10]%nat else if decide (q = 2)%nat then [11]%nat else [].

Lemma k0_P i : slot_ok i -> P i k0 = k0_proc i.
Proof.
  intros Hi. change (procs k0) with (k0_proc <$> seq 0 41). unfold P.
  change ((k0_proc <$> seq 0 41) !!! i = k0_proc i).
  apply list_lookup_total_correct. rewrite list_lookup_fmap, lookup_seq_lt by done. done.
Qed.

(** Check a property of every slot by computation. *)
Lemma all_slots (f : nat -> bool) : forallb f (seq 0 NR_SLOTS) = true -> forall i, slot_ok i -> f i = true.
Proof. intros H i Hi. rewrite forallb_forall in H. apply H. apply in_seq. unfold slot_ok in Hi. lia. Qed.

Lemma SI_k0 : SI k0 Q0.
Proof.
  split.
  - split_and!; try done. intros q Hq. unfold NQ in Hq.
    assert (H1 : forall i : nat, i ∈ @nil nat -> (i < NR_SLOTS)%nat /\ queue_of k0 i = q) by set_solver.
    destruct q as [|[|[|[|q]]]]; [| | | |lia]; (split_and!; [by vm_compute| |done|]);
      try apply NoDup_nil_2; try apply NoDup_singleton; try exact H1;
      intros i ->%list_elem_of_singleton; (split; [unfold NR_SLOTS; lia|done]).
  - intros i Hi.
    assert (H := all_slots (fun i => Bool.eqb (bool_decide (i ∈ Q0 (queue_of k0 i)))
      ((flags k0 i =? 0) && negb (Nat.eqb i IDLEP) && negb (Nat.eqb i HW))) ltac:(by vm_compute) i Hi).
    cbn beta in H. apply Bool.eqb_prop in H. rewrite <- (bool_decide_eq_true (i ∈ _)), H.
    rewrite !andb_true_iff, !negb_true_iff, Z.eqb_eq, !Nat.eqb_neq. tauto.
Qed.

Lemma CQ_k0 : CQ k0 (fun _ => []).
Proof.
  split; try set_solver.
  - intros d Hd. split; [|apply NoDup_nil_2]. simpl. by rewrite k0_P.
  - intros i Hi Hs.
    assert (H := all_slots (fun i => negb (sending k0 i)) ltac:(by vm_compute) i Hi).
    cbn beta in H. by rewrite Hs in H.
Qed.

Lemma KI_k0 : KI k0.
Proof.
  split_and!; [exists Q0; apply SI_k0|exists (fun _ => []); apply CQ_k0| |by vm_compute].
  split; try by vm_compute.
  - intros i Hi. by rewrite k0_P.
  - intros i Hi Hs. assert (H := all_slots (fun i => negb (sending k0 i)) ltac:(by vm_compute) i Hi).
    cbn beta in H. by rewrite Hs in H.
  - intros i Hi Hs. assert (H := all_slots (fun i => negb (pending k0 i)) ltac:(by vm_compute) i Hi).
    cbn beta in H. by rewrite Hs in H.
Qed.

(** ** [sys_call] *)

(** The caller of [sys_call] is running; servers and tasks, which the kernel
    trusts, do not send to [ANY]. [src_dest] is a 16-bit int. *)
Record call_ok (s : kst) (function src_dest : Z) : Prop := {
  co_slot : slot_ok (proc_ptr s);
  co_run : flags s (proc_ptr s) = 0 /\ proc_ptr s <> HW /\ proc_ptr s <> IDLEP;
  co_int : -32768 <= src_dest < 32768;
  co_trust : isuserp (proc_ptr s) = false -> tst function SEND = true -> src_dest <> ANY;
}.

Lemma okproc_slot n : -32768 <= n < 32768 -> isokprocn n = true -> slot_ok (proc_addr n).
Proof.
  unfold isokprocn, u16, slot_ok, proc_addr, NR_SLOTS, NR_TASKS, NR_PROCS. rewrite Z.ltb_lt. zlia.
Qed.

Lemma servn_range n : -32768 <= n < 32768 -> isservn n = true -> 0 <= n < 2.
Proof. unfold isservn, u16, LOW_USER. rewrite Z.ltb_lt. zlia. Qed.

Lemma send_dest s function n : call_ok s function n -> isoksrc_dest n = true -> tst function SEND = true ->
  isuserp (proc_ptr s) && negb (isservn n) = false -> slot_ok (proc_addr n) /\ n <> ANY.
Proof.
  intros [_ _ Hn Htr] Hok Hsend Hus. apply andb_false_iff in Hus as [Hu|Hs].
  - specialize (Htr Hu Hsend). split; [|done]. apply okproc_slot; [done|].
    unfold isoksrc_dest in Hok. apply orb_true_iff in Hok as [?|?%Z.eqb_eq]; done.
  - apply negb_false_iff in Hs. pose proof (servn_range n Hn Hs).
    unfold slot_ok, proc_addr, NR_SLOTS, NR_TASKS, ANY. lia.
Qed.

Lemma waiting_nonzero p nr : is_waiting_for p nr = true -> p_flags p <> 0.
Proof. unfold is_waiting_for. intros H E. rewrite E in H. done. Qed.

Lemma sys_call_ok s function src_dest m_ptr :
  KI s -> call_ok s function src_dest ->
  wp (sys_call function src_dest m_ptr) (fun _ s' => KI s') s.
Proof.
  intros HK Hc. pose proof Hc as [Hso (Hfl & Hh & Hid) Hn Htr]. unfold sys_call.
  destruct (isoksrc_dest src_dest) eqn:Hok; cbn [negb]; [|by wp_steps]. wp_steps.
  destruct (negb (function =? BOTH) && isuserp (proc_ptr s)); [by wp_steps|].
  pose proof HK as ([Q HS] & [C HC] & HA & HG).
  destruct (tst function SEND) eqn:Hsend; wp_steps.
  - eapply wp_mono; [apply (mini_send_ok s Q C (proc_ptr s) src_dest m_ptr); try done|].
    { intros Hus. by eapply send_dest. }
    intros r s' H. destruct (send_error _ _ _ _ _) as [e|] eqn:Eerr.
    { destruct H as [-> ->]. assert (He : e <> OK).
      { revert Eerr. unfold send_error. repeat case_match; intros; by simplify_eq. }
      rewrite (proj2 (Z.eqb_neq e OK)) by done. rewrite orb_true_r. by wp_steps. }
    destruct H as (-> & HS' & HA' & HF & _ & Hsent).
    assert (Hus : isuserp (proc_ptr s) && negb (isservn src_dest) = false).
    { revert Eerr. unfold send_error. by destruct (isuserp _ && _). }
    destruct (send_dest s function src_dest Hc Hok Hsend Hus) as [Hd Hany].
    assert (HK' : KI s' /\ exists C', CQ s' C').
    { enough (exists C', CQ s' C') by (split; [split_and!; try done; by apply (SG_frame s)|done]).
      unfold sent in Hsent. destruct (is_waiting_for _ _); eexists; apply Hsent. }
    destruct HK' as [HK' [C' HC']]. destruct (_ || _); [by wp_steps|].
    eapply wp_mono; [by apply (mini_rec_ok s' C')|]. naive_solver.
  - eapply wp_mono; [apply (mini_rec_ok s C); try done; by rewrite Hfl|]. naive_solver.
Qed.

(** Every system call returns, without a panic and without an endless
    search of a queue, and preserves the kernel invariant: the ready queues
    hold exactly the runnable processes, each blocked sender sits in exactly
    one caller queue, no two processes block sending to each other and the
    count of processes with pending signals is right. *)
Theorem sys_call_invariant s function src_dest m_ptr :
  KI s -> call_ok s function src_dest ->
  wp (sys_call function src_dest m_ptr) (fun _ s' => KI s') s.
Proof. apply sys_call_ok. Qed.

Lemma call_ok_k0 : call_ok k0 BOTH FS_PROC_NR.
Proof.
  split; [vm_compute; lia| |unfold FS_PROC_NR; lia|done].
  split_and!; [done|vm_compute; lia|vm_compute; lia].
Qed.

Lemma sys_call_invariant_witness :
  wp (sys_call BOTH FS_PROC_NR 8192) (fun _ s' => KI s') k0.
Proof. exact (sys_call_invariant k0 BOTH FS_PROC_NR 8192 KI_k0 call_ok_k0). Defined.

(** A user process can do nothing but send-and-receive with MM or FS: any
    other system call is refused with an error and changes nothing. *)
Theorem user_calls_only_servers s function src_dest m_ptr :
  isuserp (proc_ptr s) = true -> function <> BOTH \/ isservn src_dest = false ->
  exists e, e < 0 /\ sys_call function src_dest m_ptr s = Done e s.
Proof.
  intros Hu Hbad. unfold sys_call.
  destruct (isoksrc_dest src_dest); cbn [negb]; [|by exists E_BAD_SRC].
  unfold mbind, M_bind, gets. rewrite Hu, andb_true_r.
  destruct (Z.eqb_spec function BOTH) as [->|Hne]; cbn [negb]; [|by exists E_NO_PERM].
  destruct Hbad as [?|Hs]; [done|]. change (tst BOTH SEND) with true. cbv iota.
  unfold mini_send. rewrite Hu, Hs. cbn [negb andb]. by exists E_BAD_DEST.
Qed.

Lemma user_calls_only_servers_witness :
  exists e, e < 0 /\ sys_call SEND (-2) 8192 k0 = Done e k0.
Proof.
  apply (user_calls_only_servers k0 SEND (-2) 8192); [reflexivity|left; discriminate].
Defined.

(** C3. Sending: [mini_send] fails, changing nothing, exactly when the
    destination is forbidden or dead, the message lies outside the sender's
    data segment, or the destination already sends to the caller; otherwise a
    destination that waits for the caller gets the message (with the sender's
    number as its source) and loses its [RECEIVING] flag, and else the caller
    joins the end of the destination's caller queue and blocks. *)
Theorem mini_send_correct s C caller dest m_ptr :
  KI s -> CQ s C -> slot_ok caller -> flags s caller = 0 -> caller <> IDLEP -> caller <> HW ->
  (isuserp caller && negb (isservn dest) = false -> slot_ok (proc_addr dest)) ->
  wp (mini_send caller dest m_ptr) (fun r s' =>
    match send_error s C caller dest m_ptr with
    | Some e => r = e /\ s' = s
    | None => r = OK /\ KI s' /\ sent s s' C caller dest m_ptr
    end) s.
Proof.
  intros ([Q HS] & _ & HA & HG) HC Hso Hfl Hid Hh Hd.
  eapply wp_mono; [by apply (mini_send_ok s Q C caller dest m_ptr)|].
  intros r s' H. destruct (send_error _ _ _ _ _); [done|].
  destruct H as (-> & HS' & HA' & HF & _ & Hsent). split; [done|]. split; [|done]. split_and!; try done.
  - unfold sent in Hsent. destruct (is_waiting_for _ _); eexists; apply Hsent.
  - by apply (SG_frame s).
Qed.

Lemma mini_send_correct_witness :
  wp (mini_send 11 MM_PROC_NR 8192) (fun r s' => r = OK /\ KI s' /\
    sent k0 s' (fun _ => []) 11 MM_PROC_NR 8192) k0.
Proof.
  exact (mini_send_correct k0 (fun _ => []) 11 MM_PROC_NR 8192 KI_k0 CQ_k0 ltac:(vm_compute; lia)
    ltac:(reflexivity) ltac:(vm_compute; lia) ltac:(vm_compute; lia) ltac:(intros _; vm_compute; lia)).
Defined.



(** ** Scheduling *)

(** C5. The linked ready queues implement four lists: [ready] appends the
    process to the queue of its class, [unready] deletes it wherever it
    stands (and picks a new process if it was the running one at the head),
    [sched] moves the head of the user queue to its end; afterwards
    [proc_ptr] is the head of the first non-empty queue in the order tasks,
    servers, users, or the idle task. *)
Theorem scheduler_refines_queues s Q rp :
  RQ s Q -> slot_ok rp -> let q := queue_of s rp in
  (rp ∉ Q q -> wp (ready rp) (fun _ s' => RQ s' (qset q (Q q ++ [rp]) Q) /\ sched_frame s s') s) /\
  wp (unready rp) (fun _ s' => RQ s' (qset q (del rp (Q q)) Q) /\ sched_frame s s' /\
    (head (Q q) = Some rp -> rp = proc_ptr s -> proc_ptr s' = pick (qset q (del rp (Q q)) Q))) s /\
  wp sched (fun _ s' => let Q' := qset USER_Q (rotate1 (Q USER_Q)) Q in
    RQ s' Q' /\ sched_frame s s' /\ (Q USER_Q <> [] -> proc_ptr s' = pick Q')) s.
Proof.
  intros HQ Hrp q. split_and!.
  - intros Hni. eapply wp_mono; [by apply (ready_ok s Q)|]. naive_solver.
  - eapply wp_mono; [by apply (unready_ok s Q)|]. intros _ s' (H1 & H2 & _ & H4). split_and!; try done.
    intros H5 H6. by rewrite decide_True in H4.
  - eapply wp_mono; [by apply (sched_ok s Q)|]. intros _ s' (H1 & H2 & _ & H4). split_and!; try done.
    intros H5. by rewrite decide_False in H4.
Qed.

Lemma scheduler_refines_queues_witness :
  wp sched (fun _ s' => RQ s' (qset USER_Q [11%nat] Q0) /\ sched_frame k0 s' /\
    (Q0 USER_Q <> [] -> proc_ptr s' = pick (qset USER_Q [11%nat] Q0))) k0.
Proof.
  exact (proj2 (proj2 (scheduler_refines_queues k0 Q0 11 (proj1 SI_k0) ltac:(vm_compute; lia)))).
Defined.

(** ** Signals *)

(** C7. Recording a kernel signal keeps the kernel invariant and never
    panics; and when MM waits for any message, [inform] hands it the map of
    the first process with pending signals, as a [KSIG] message from
    [HARDWARE], and clears that process's pending mark. *)
Theorem signals_reach_mm s proc_nr sig_nr :
  KI s -> 0 <= proc_nr < NR_PROCS ->
  wp (cause_sig proc_nr sig_nr) (fun _ s' => KI s') s /\
  (receiving s MMP = true -> p_getfrom (P MMP s) = ANY ->
   wp inform (fun _ s' => KI s' /\
     match find_pending s with
     | None => s' = s
     | Some i => pending s' i = false /\
         k_mem s' !! mess_addr (P MMP s) (p_messbuf (P MMP s)) =
           Some (mk_msg HARDWARE KSIG [p_nr (P i s); p_pending (P i s)])
     end) s).
Proof.
  intros HK Hnr. split; [by apply cause_sig_ok|]. intros H1 H2.
  eapply wp_mono; [by apply inform_ok|]. intros _ s' [HK' H]. split; [done|].
  destruct (find_pending s); naive_solver.
Qed.

Lemma signals_reach_mm_witness : wp (cause_sig 2 14) (fun _ s' => KI s') k0.
Proof.
  exact (proj1 (signals_reach_mm k0 2 14 KI_k0 ltac:(unfold NR_PROCS; lia))).
Defined.

(** ** Interrupts *)

(** C6. No interrupt is lost or delivered twice: while the kernel is
    switching, an interrupt for a task joins the held queue unless it is there
    already and nothing else changes; [unhold] then empties the queue, waking
    each task that waits for hardware and leaving the blocked mark on each
    other one, and touches no other process. *)
Theorem held_interrupts_delivered s L task :
  KI s -> HQ s L -> TK s -> -9 <= task < 0 ->
  (k_reenter s <> 0 \/ switching s = true ->
   wp (interrupt task) (fun _ s' => KI s' /\ HQ s' (held_after L (proc_addr task)) /\
     (forall j, flags s' j = flags s j /\ p_int_blocked (P j s') = p_int_blocked (P j s))) s) /\
  (k_reenter s = 0 -> switching s = false -> L <> [] ->
   wp unhold (fun _ s' => KI s' /\ HQ s' [] /\ TK s' /\
     (forall i, i ∈ L -> int_done s s' i) /\ (forall i, i ∉ L -> same_int s s' i)) s).
Proof.
  intros HK HH HT Ht. split.
  - intros Hsw. eapply wp_mono; [by apply (interrupt_hold_ok s L)|]. naive_solver.
  - intros Hre Hsw HL. unfold unhold. wp_steps. rewrite Hsw. wp_steps.
    destruct L as [|x L]; [done|]. rewrite (lseg_head _ _ _ _ _ (hq_list _ _ HH)).
    apply unhold_loop_ok; try done. pose proof (HQ_length _ _ HH) as Hl. simpl in Hl.
    unfold NR_SLOTS. lia.
Qed.

Lemma HQ_k0 : HQ k0 [].
Proof.
  split; try done; [apply NoDup_nil_2| |set_solver].
  intros i Hi. rewrite k0_P by done. set_solver.
Qed.

Lemma TK_k0 : TK k0.
Proof.
  intros i Hi.
  assert (H := all_slots (fun i => (9 <=? i)%nat || (Z.ldiff (flags k0 i) (Z.lor RECEIVING SENDING) =? 0))
    ltac:(by vm_compute) i ltac:(unfold slot_ok, NR_SLOTS; lia)).
  cbn beta in H. apply orb_true_iff in H as [H%Nat.leb_le|H%Z.eqb_eq]; [lia|done].
Qed.

(** [k0] in the middle of a process switch. *)
Definition k1 : kst := k0 <| switching := true |>.

Lemma k1_inv : KI k1 /\ HQ k1 [] /\ TK k1.
Proof.
  split_and!; [|by apply (HQ_ext k0); try done; apply HQ_k0|exact TK_k0].
  destruct KI_k0 as (HS & [C HC] & HA & HG). split_and!; [done|exists C; by apply (CQ_ext k0)|by apply (AUX_ext k0)|done].
Qed.

Lemma held_interrupts_delivered_witness :
  wp (interrupt (-3)) (fun _ s' => KI s' /\ HQ s' [6%nat] /\
     (forall j, flags s' j = flags k1 j /\ p_int_blocked (P j s') = p_int_blocked (P j k1))) k1.
Proof.
  exact (proj1 (held_interrupts_delivered k1 [] (-3) (proj1 k1_inv) (proj1 (proj2 k1_inv))
    (proj2 (proj2 k1_inv)) ltac:(lia)) (or_intror eq_refl)).
Defined.
