(* ===== verification/KSystem.v ===== *)
(** * The system task: [src/kernel/system.c] and [src/kernel/stshadow.c]

    The handlers by which MM and FS make the kernel change its process table:
    fork, exec, exit, memory maps, signals, times, copying, and the address
    translation [umap] they all use. A handler takes the fields of its request
    message as arguments and returns its status, with the reply fields it
    sets; physical memory is a function from addresses to bytes next to the
    kernel's variables. *)

From S2P Require Import Prelude KProc.

Definition EIO : Z := -5.
Definition EFAULT : Z := -14.
Definition E_BAD_FCN : Z := -3.
Definition SIGTRAP : Z := 5.
Definition SIG_PUSH_BYTES : Z := 8.
Definition TRACEBIT : Z := 32768.

(** Segment numbers. *)
Definition seg_T_nr : Z := 0.
Definition seg_D_nr : Z := 1.
Definition seg_S_nr : Z := 2.
Definition seg_of (m : segs) (seg : Z) : mem_map :=
  if seg =? seg_T_nr then seg_T m else if seg =? seg_D_nr then seg_D m else seg_S m.

(** The kernel's variables, physical memory, and the statics of system.c and
    stshadow.c. [stk_addr] is the address of [sig_stuff] and [map_addr] that of
    the process table's maps, which the handlers translate themselves. *)
Record sst := mk_sst {
  ker : kst;
  pmem : Z -> Z;
  beenhere : bool;
  flipwait : Z;
}.
#[export] Instance sst_upd : Updatable sst := fun s =>
  mk_sst (ker s) (pmem s) (beenhere s) (flipwait s).

Definition in_ker {A} (m : M kst A) : M sst A := zoom ker (fun k s => s <| ker := k |>) m.
Definition getP (i : nat) : M sst proc := gets (fun s => P i (ker s)).
Definition updP (i : nat) (f : proc -> proc) : M sst unit := in_ker (upd_proc i f).

(** ** Memory *)
Definition mem_copy (src dst n : Z) (m : Z -> Z) : Z -> Z :=
  fun a => if (dst <=? a) && (a <? dst + n) then m (src + (a - dst)) else m a.
Definition mem_zero (dst n : Z) (m : Z -> Z) : Z -> Z :=
  fun a => if (dst <=? a) && (a <? dst + n) then 0 else m a.
Definition mem_flip (a1 a2 n : Z) (m : Z -> Z) : Z -> Z :=
  fun a => if (a1 <=? a) && (a <? a1 + n) then m (a2 + (a - a1))
           else if (a2 <=? a) && (a <? a2 + n) then m (a1 + (a - a2)) else m a.
Definition phys_copy (src dst n : Z) : M sst unit := modify (fun s => s <| pmem ::= mem_copy src dst n |>).
Definition copyclicks (c1 c2 nc : Z) : M sst unit :=
  modify (fun s => s <| pmem ::= mem_copy (c1 * 256) (c2 * 256) (nc * 256) |>).
Definition zeroclicks (c nc : Z) : M sst unit :=
  modify (fun s => s <| pmem ::= mem_zero (c * 256) (nc * 256) |>).
Definition flipclicks (c1 c2 nc : Z) : M sst unit :=
  modify (fun s => s <| pmem ::= mem_flip (c1 * 256) (c2 * 256) (nc * 256) |>).

(** Big-endian 16- and 32-bit words in memory. *)
Definition get16 (m : Z -> Z) (a : Z) : Z := m a * 256 + m (a + 1).
Definition put_bytes (a : Z) (bs : list Z) (m : Z -> Z) : Z -> Z :=
  fun x => if (a <=? x) && (x <? a + Z.of_nat (length bs)) then bs !!! Z.to_nat (x - a) else m x.
Lemma put_bytes_app a l1 l2 m x :
  put_bytes (a + Z.of_nat (length l1)) l2 (put_bytes a l1 m) x = put_bytes a (l1 ++ l2) m x.
Proof.
  unfold put_bytes. rewrite length_app, Nat2Z.inj_add.
  destruct (Z.leb_spec a x), (Z.ltb_spec x (a + Z.of_nat (length l1))),
    (Z.leb_spec (a + Z.of_nat (length l1)) x),
    (Z.ltb_spec x (a + Z.of_nat (length l1) + Z.of_nat (length l2))),
    (Z.ltb_spec x (a + (Z.of_nat (length l1) + Z.of_nat (length l2)))); simpl; try lia; try done.
  - by rewrite lookup_total_app_l by lia.
  - rewrite lookup_total_app_r by lia. f_equal. lia.
Qed.
Lemma put_bytes_ext a l m m' x : m x = m' x -> put_bytes a l m x = put_bytes a l m' x.
Proof. intros E. unfold put_bytes. by rewrite E. Qed.

Definition be16 (v : Z) : list Z := [u8 (Z.shiftr v 8); u8 v].
Definition be32 (v : Z) : list Z := be16 (Z.shiftr v 16) ++ be16 v.

(** ** [umap]: 32-bit signed addresses, 16-bit unsigned clicks. *)
Definition umap (rp : proc) (seg vir_addr bytes : Z) : Z :=
  if bytes <=? 0 then 0 else
  let vc := u16 (Z.shiftr (s32 (vir_addr + bytes - 1)) CLICK_SHIFT) in
  let d := seg_D (p_map rp) in
  let seg := if seg =? seg_T_nr then seg
             else if vc <? u16 (mem_vir d + mem_len d) then seg_D_nr else seg_S_nr in
  let m := seg_of (p_map rp) seg in
  if u16 (mem_vir m + mem_len m) <=? Z.shiftr vir_addr CLICK_SHIFT then 0 else
  let seg_base := Z.shiftl (mem_phys m) CLICK_SHIFT in
  s32 (seg_base + s32 (vir_addr - Z.shiftl (mem_vir m) CLICK_SHIFT)).

Definition numap (proc_nr vir_addr bytes : Z) : M sst Z :=
  p ← getP (proc_addr proc_nr);
  mret (umap p seg_D_nr vir_addr bytes).

(** ** Shadows (stshadow.c) *)
Definition FLIPWAIT : Z := 5.

Definition image_clicks (p : proc) : Z :=
  u16 (mem_phys (seg_S (p_map p)) - mem_phys (seg_D (p_map p)) + mem_len (seg_S (p_map p))).

Definition mkshadow (i : nat) (c2 : Z) : M sst unit :=
  p ← getP i;
  let c1 := if nz (p_shadow p) then p_shadow p else mem_phys (seg_D (p_map p)) in
  updP i (fun p => p <| p_shadow := c2 |>);;
  copyclicks c1 c2 (image_clicks p);;
  modify (fun s => s <| flipwait := FLIPWAIT |>).

(** The search of [rmshadow] for a shadow of [i]: the first user process with
    the same data segment. *)
Definition shadow_of (i : nat) (s : kst) : option nat :=
  list_find (fun q => negb (tst (p_flags (P q s)) P_SLOT_FREE) && negb (Nat.eqb q i) &&
    (mem_phys (seg_D (p_map (P q s))) =? mem_phys (seg_D (p_map (P i s))))) (seq 11 30)
  ≫= fun r => Some (snd r).

Definition rmshadow (i : nat) : M sst (Z * Z) :=
  p ← getP i;
  let nc := image_clicks p in
  if nz (p_shadow p) then
    updP i (fun p => p <| p_shadow := 0 |>);;
    mret (p_shadow p, nc)
  else
    f ← gets (fun s => shadow_of i (ker s));
    match f with
    | Some q =>
        pq ← getP q;
        if p_shadow pq =? 0 then panic "no shadow?" else
        if p_physio pq then panic "rmshadow: cannot handle physio shadows" else
        copyclicks (p_shadow pq) (mem_phys (seg_D (p_map p))) nc;;
        when (p_flags pq =? 0) (in_ker (lock_unready q));;
        updP q (fun p => p <| p_shadow := 0 |>);;
        fl ← gets (fun s => p_flags (P q (ker s)));
        when (fl =? 0) (in_ker (lock_ready q));;
        mret (p_shadow pq, nc)
    | None => mret (mem_phys (seg_T (p_map p)), u16 (nc + mem_len (seg_T (p_map p))))
    end.

(** The owner of the real memory of shadow [i]: same data segment, no shadow. *)
Definition owner_of (i : nat) (s : kst) : option nat :=
  list_find (fun q => negb (tst (p_flags (P q s)) P_SLOT_FREE) && negb (Nat.eqb q i) &&
    (mem_phys (seg_D (p_map (P q s))) =? mem_phys (seg_D (p_map (P i s)))) &&
    (p_shadow (P q s) =? 0)) (seq 11 30)
  ≫= fun r => Some (snd r).

Definition unshadow (i : nat) : M sst unit :=
  w ← gets flipwait;
  if nz w then modify (fun s => s <| flipwait ::= fun w => w - 1 |>) else
  p ← getP i;
  if p_physio p then mret tt else
  f ← gets (fun s => owner_of i (ker s));
  match f with
  | None => panic "only shadow(s)"
  | Some q =>
      pq ← getP q;
      if p_physio pq then mret tt else
      flipclicks (p_shadow p) (mem_phys (seg_D (p_map pq))) (image_clicks pq);;
      modify (fun s => s <| flipwait := FLIPWAIT |>);;
      in_ker (lock_unready i);;
      when (p_flags pq =? 0) (in_ker (lock_unready q));;
      updP q (fun x => x <| p_shadow := p_shadow p |>);;
      updP i (fun x => x <| p_shadow := 0 |>);;
      in_ker (lock_ready i);;
      when (p_flags pq =? 0) (in_ker (lock_ready q));;
      updP i (fun x => x <| p_nflips ::= fun n => s16 (n + 1) |>);;
      updP q (fun x => x <| p_nflips ::= fun n => s16 (n + 1) |>)
  end.

(** ** Fork, exec, exit *)

(** One iteration of the loop that gives the child its physical addresses. *)
Definition set_seg (m : segs) (seg phys : Z) : segs :=
  if seg =? seg_T_nr then m <| seg_T ::= fun x => x <| mem_phys := phys |> |>
  else if seg =? seg_D_nr then m <| seg_D ::= fun x => x <| mem_phys := phys |> |>
  else m <| seg_S ::= fun x => x <| mem_phys := phys |> |>.

Definition fork_seg (rpp rpc : nat) (child_base seg : Z) : M sst unit :=
  pp ← getP rpp;
  let phys := u16 (child_base + (mem_phys (seg_of (p_map pp) seg) - mem_phys (seg_T (p_map pp)))) in
  updP rpc (fun p => p <| p_map := set_seg (p_map p) seg phys |>).

Definition do_fork (PROC1 PROC2 PID m1_p1 : Z) : M sst Z :=
  if negb (isoksusern PROC1) || negb (isoksusern PROC2) then mret E_BAD_PROC else
  let rpp := proc_addr PROC1 in
  let rpc := proc_addr PROC2 in
  pp ← getP rpp;
  updP rpc (fun _ => pp);;
  updP rpc (fun p => p <| p_nr := PROC2 |>);;
  updP rpc (fun p => p <| p_flags := bclr (p_flags p) (Z.lor (Z.lor PENDING SIG_PENDING) P_STOP) |>);;
  updP rpc (fun p => p <| p_pending := 0 |> <| p_pendcount := 0 |> <| p_pid := PID |> <| p_retreg := 0 |>);;
  updP rpc (fun p => p <| user_time := 0 |> <| sys_time := 0 |> <| child_utime := 0 |> <| child_stime := 0 |>);;
  let child_base := u16 m1_p1 in
  pp ← getP rpp;
  let t_phys := mem_phys (seg_T (p_map pp)) in
  let nc := u16 (mem_phys (seg_S (p_map pp)) - t_phys + mem_len (seg_S (p_map pp))) in
  copyclicks t_phys child_base nc;;
  fork_seg rpp rpc child_base seg_T_nr;;
  fork_seg rpp rpc child_base seg_D_nr;;
  fork_seg rpp rpc child_base seg_S_nr;;
  updP rpc (fun p => p <| p_nflips := 0 |>);;
  mret OK.

(** [struct mem_map] as it lies in memory: three big-endian 16-bit words. *)
Definition read_map (m : Z -> Z) (a : Z) : mem_map := mk_map (get16 m a) (get16 m (a + 2)) (get16 m (a + 4)).
Definition read_segs (m : Z -> Z) (a : Z) : segs :=
  mk_segs (read_map m a) (read_map m (a + 6)) (read_map m (a + 12)).

(** The destination of the copy is the [p_map] field itself: the kernel's own
    data, always mapped. *)
Definition do_newmap (caller k map_ptr : Z) : M sst Z :=
  if negb (isokprocn k) then mret E_BAD_PROC else
  rsrc ← getP (proc_addr caller);
  let src_phys := umap rsrc seg_D_nr map_ptr 18 in
  if src_phys =? 0 then panic "bad call to sys_newmap (src)" else
  mm ← gets pmem;
  updP (proc_addr k) (fun p => p <| p_map := read_segs mm src_phys |>);;
  mret OK.

Definition do_exec (PROC1 PROC2 STACK_PTR : Z) : M sst Z :=
  if negb (isoksusern PROC1) then mret E_BAD_PROC else
  when (nz PROC2) (in_ker (cause_sig PROC1 SIGTRAP));;
  let rp := proc_addr PROC1 in
  updP rp (fun p => p <| p_sp := STACK_PTR |>);;
  updP rp (fun p => p <| p_splow := STACK_PTR |>);;
  updP rp (fun p => p <| p_pc := Z.shiftl (mem_vir (seg_T (p_map p))) CLICK_SHIFT |>);;
  updP rp (fun p => p <| p_alarm := 0 |>);;
  updP rp (fun p => p <| p_flags := bclr (p_flags p) RECEIVING |>);;
  f ← gets (fun s => p_flags (P rp (ker s)));
  when (f =? 0) (in_ker (lock_ready rp));;
  mret OK.

(** The search of [do_xit] through the body of one caller queue, from [np]:
    unlink [rc] where it stands. *)
Fixpoint xit_unlink (fuel : nat) (rc np : nat) : M kst unit :=
  match fuel with
  | O => nofuel
  | S fuel' =>
      xp ← gets (fun s => p_sendlink (P np s));
      match xp with
      | None => mret tt
      | Some xp =>
          if decide (xp = rc) then
            l ← gets (fun s => p_sendlink (P xp s));
            upd_proc np (fun p => p <| p_sendlink := l |>)
          else xit_unlink fuel' rc xp
      end
  end.

(** The loop over all slots; it stops early only when [rc] heads a queue. *)
Fixpoint xit_slots (rc : nat) (slots : list nat) : M kst unit :=
  match slots with
  | [] => mret tt
  | rp :: slots' =>
      q ← gets (fun s => p_callerq (P rp s));
      match q with
      | None => xit_slots rc slots'
      | Some h =>
          if decide (h = rc) then
            l ← gets (fun s => p_sendlink (P rc s));
            upd_proc rp (fun p => p <| p_callerq := l |>)
          else
            xit_unlink (S NR_SLOTS) rc h;;
            xit_slots rc slots'
      end
  end.

Definition do_xit (PROC1 PROC2 : Z) : M sst (Z * (Z * Z)) :=
  let parent := PROC1 in
  let proc_nr := PROC2 in
  if negb (isoksusern parent) || negb (isoksusern proc_nr) then mret (E_BAD_PROC, (0, 0)) else
  let rp := proc_addr parent in
  let rc := proc_addr proc_nr in
  pc ← getP rc;
  updP rp (fun p => p <| child_utime := s32 (child_utime p + (user_time pc + child_utime pc)) |>);;
  pc ← getP rc;
  updP rp (fun p => p <| child_stime := s32 (child_stime p + (sys_time pc + child_stime pc)) |>);;
  updP rc (fun p => p <| p_alarm := 0 |>);;
  f ← gets (fun s => p_flags (P rc (ker s)));
  when (f =? 0) (in_ker (lock_unready rc));;
  bs ← rmshadow rc;
  f ← gets (fun s => p_flags (P rc (ker s)));
  when (tst f SENDING) (in_ker (xit_slots rc (seq 0 NR_SLOTS)));;
  when (tst f PENDING) (in_ker (modify (fun s => s <| sig_procs ::= fun n => n - 1 |>)));;
  updP rc (fun p => p <| p_pending := 0 |> <| p_pendcount := 0 |>);;
  updP rc (fun p => p <| p_flags := P_SLOT_FREE |>);;
  mret (OK, bs).

Definition do_getsp (PROC1 : Z) : M sst (Z * Z) :=
  if negb (isoksusern PROC1) then mret (E_BAD_PROC, 0) else
  p ← getP (proc_addr PROC1);
  mret (OK, p_sp p).

Definition do_times (PROC1 : Z) : M sst (Z * (Z * Z * Z * Z)) :=
  if negb (isoksusern PROC1) then mret (E_BAD_PROC, (0, 0, 0, 0)) else
  p ← getP (proc_addr PROC1);
  mret (OK, (user_time p, sys_time p, child_utime p, child_stime p)).

Definition do_abort : M sst Z := panic "".

Definition do_fresh (caller PROC1 m1_i2 map_ptr : Z) : M sst (Z * (Z * Z)) :=
  if (PROC1 <? 0) || (NR_PROCS <=? PROC1) then mret (E_BAD_PROC, (0, 0)) else
  let i := proc_addr PROC1 in
  bs ← rmshadow i;
  r ← do_newmap caller PROC1 map_ptr;
  p ← getP i;
  let c1 := mem_phys (seg_D (p_map p)) in
  let nc := image_clicks p in
  zeroclicks (u16 (c1 + m1_i2)) (u16 (nc - m1_i2));;
  mret (OK, bs).

(** ** Signals *)

(** The frame pushed for a handler: signal number, psw and pc. *)
Definition build_sig (rp : proc) (sig : Z) : list Z := be16 sig ++ be16 (p_psw rp) ++ be32 (p_pc rp).

(** [sig_stuff] is the kernel's own data; only its destination can be bad. *)
Definition do_sig (PR SIGNUM FUNC : Z) : M sst Z :=
  if negb (isokusern PR) then mret E_BAD_PROC else
  let rp := proc_addr PR in
  if SIGNUM =? -1 then
    in_ker (done_one_sig rp);;
    mret OK
  else
    p ← getP rp;
    let sig_stuff := build_sig p SIGNUM in
    let new_sp := s32 (p_sp p - SIG_PUSH_BYTES) in
    let dst_phys := umap p seg_S_nr new_sp SIG_PUSH_BYTES in
    if dst_phys =? 0 then panic "do_sig can't signal; SP bad" else
    modify (fun s => s <| pmem ::= put_bytes dst_phys sig_stuff |>);;
    updP rp (fun p => p <| p_sp := new_sp |> <| p_pc := FUNC |>);;
    mret OK.

Definition do_kill (PR SIGNUM : Z) : M sst Z :=
  if negb (isokusern PR) then mret E_BAD_PROC else
  in_ker (cause_sig PR SIGNUM);;
  mret OK.

(** ** Copying and memory *)
Definition do_copy (src_proc src_space src_vir dst_proc dst_space dst_vir bytes : Z) : M sst Z :=
  sp ← getP (proc_addr src_proc);
  let src_phys := umap sp src_space src_vir bytes in
  dp ← getP (proc_addr dst_proc);
  let dst_phys := umap dp dst_space dst_vir bytes in
  if (src_phys =? 0) || (dst_phys =? 0) then mret EFAULT else
  phys_copy src_phys dst_phys bytes;;
  mret OK.

Definition do_umap (SRC_PROC_NR SRC_SPACE SRC_BUFFER COPY_BYTES : Z) : M sst (Z * Z) :=
  p ← getP (proc_addr SRC_PROC_NR);
  mret (OK, umap p SRC_SPACE SRC_BUFFER COPY_BYTES).

(** [lisa_user_mem_end] is in lisamain.c; the first call reports all memory,
    the later ones none. *)
Definition do_mem (lisa_user_mem_end : Z) : M sst (Z * (Z * Z)) :=
  b ← gets beenhere;
  if b : bool then mret (OK, (0, 0))
  else
    modify (fun s => s <| beenhere := true |>);;
    mret (OK, (u16 (Z.shiftr lisa_user_mem_end CLICK_SHIFT), 0)).
