(* ===== verification/KTask.v ===== *)
(** * The system task: theorems

    Exit, fork and exec keep the kernel invariant of KIpc and do to the
    process table and to memory what MM asked for; [umap] translates the
    addresses of a segment, and what it lets through. *)

From S2P Require Import Prelude KProc KQueues KIpc KIntr KSys KSystem.

Lemma wp_in_ker {A} (m : M kst A) Q s :
  wp m (fun a k => Q a (s <| ker := k |>)) (ker s) -> wp (in_ker m) Q s.
Proof. intros H. apply wp_zoom. exact H. Qed.

Definition kupd (i : nat) (f : proc -> proc) (k : kst) : kst := k <| procs ::= alter f i |>.

Lemma wp_updP i f (Q : unit -> sst -> Prop) s : Q tt (s <| ker := kupd i f (ker s) |>) -> wp (updP i f) Q s.
Proof. done. Qed.

Lemma in_ker_bind {A B} (m : M kst A) (k : A -> M kst B) Q s :
  wp (in_ker (m ≫= k)) Q s -> wp (in_ker m ≫= fun a => in_ker (k a)) Q s.
Proof.
  unfold wp, in_ker, zoom, mbind, M_bind. destruct (m (ker s)) as [a k1| |]; [|done|done].
  cbn [ker set_field]. by destruct (k a k1).
Qed.

Lemma in_ker_when b (m : M kst unit) Q s :
  wp (in_ker (when b m)) Q s -> wp (when b (in_ker m)) Q s.
Proof. destruct b; [done|]. unfold wp, in_ker, zoom, when. by destruct s. Qed.

(** ** A process is taken off the ready queues for good *)

(** The queues agree with the flags for every process but [i], which is in
    none. *)
Definition SIx (s : kst) (Q : nat -> list nat) (i : nat) : Prop :=
  RQ s Q /\ i ∉ Q (queue_of s i) /\
  forall j, slot_ok j -> j <> i -> (j ∈ Q (queue_of s j) <-> flags s j = 0 /\ j <> IDLEP /\ j <> HW).

Lemma unready_SIx s Q i : SI s Q -> slot_ok i ->
  wp (when (flags s i =? 0) (lock_unready i)) (fun _ s' =>
    (exists Q', SIx s' Q' i) /\ sched_frame s s') s.
Proof.
  intros [HQ Hr] Hi. apply wp_when; intros Hf.
  - unfold lock_unready. apply wp_lock.
    eapply wp_mono; [apply (unready_ok _ Q); exact HQ|].
    intros [] s1 (HQ1 & Hfr & _ & _).
    assert (Hf' : sched_frame s (s1 <| switching := false |>)) by (destruct Hfr; by split).
    split; [|done]. eexists. split_and!; [exact HQ1| |].
    + rewrite (queue_of_frame _ _ _ Hf'). change (queue_of (s <| switching := true |>) i) with (queue_of s i).
      unfold qset. rewrite decide_True by done. rewrite elem_of_del. naive_solver.
    + intros j Hj Hne. rewrite (queue_of_frame _ _ _ Hf'), (sched_frame_field p_flags _ _ _ ltac:(done) Hf').
      rewrite <- (Hr j Hj). change (queue_of (s <| switching := true |>) i) with (queue_of s i).
      unfold qset. case_decide as E; [|done]. rewrite elem_of_del, <- E. naive_solver.
  - apply Z.eqb_neq in Hf. split; [|done]. exists Q. split_and!; [done| |by intros; apply Hr].
    rewrite (Hr i Hi). naive_solver.
Qed.

Lemma SIx_flags s Q i f : SIx s Q i -> slot_ok i -> f (flags s i) <> 0 -> SI (at_flags i f s) Q.
Proof.
  intros (HQ & Hni & Hr) Hi Hf. pose proof HQ as (Hlen & _). split; [by apply RQ_at_flags|].
  intros j Hj. rewrite at_flags_queue, at_flags_P by done. destruct (decide (i = j)) as [<-|Hne].
  - cbn [set_flags p_flags]. split; [done|]. by intros [? _].
  - by apply Hr.
Qed.

Lemma SIx_ext s s' Q i : length (procs s') = length (procs s) ->
  rdy_head s' = rdy_head s -> rdy_tail s' = rdy_tail s ->
  (forall j, p_nextready (P j s') = p_nextready (P j s) /\ p_shadow (P j s') = p_shadow (P j s) /\
     flags s' j = flags s j) ->
  SIx s Q i -> SIx s' Q i.
Proof.
  intros Hlen Hh Ht Hf (HQ & Hni & Hr).
  assert (Hq : forall j, queue_of s' j = queue_of s j) by (intros j; apply queue_of_ext, Hf).
  split_and!; [eapply RQ_ext; try done; intros j; split; apply Hf|by rewrite Hq|].
  intros j Hj Hne. destruct (Hf j) as (_ & _ & ->). rewrite Hq. by apply Hr.
Qed.

(** ** Unlinking a dead sender *)

Definition put_link (np : nat) (l : option nat) (s : kst) : kst :=
  s <| procs ::= alter (fun p => p <| p_sendlink := l |>) np |>.

Lemma xit_unlink_ok s rc : forall l fuel np, llist (sendlink s) (Some np) (np :: l) ->
  rc <> np -> (length l < fuel)%nat ->
  wp (xit_unlink fuel rc np) (fun _ s' =>
    (rc ∉ l /\ s' = s) \/
    (exists l1 l2 x, l = l1 ++ rc :: l2 /\ last (np :: l1) = Some x /\ rc ∉ l1 /\
       s' = put_link x (sendlink s rc) s)) s.
Proof.
  induction l as [|y l IH]; intros [|fuel] np Hl Hne Hf; simpl in Hf; try lia;
    destruct Hl as [_ Hl]; cbn [xit_unlink]; wp_steps; change (p_sendlink (P np s)) with (sendlink s np).
  - simpl in Hl. rewrite Hl. wp_steps. left. set_solver.
  - rewrite (lseg_head _ _ _ _ _ Hl). destruct (decide (y = rc)) as [->|Hny].
    + unfold upd_proc. wp_steps. right. exists [], l, np. split_and!; try done. set_solver.
    + eapply wp_mono; [apply (IH fuel y); [split; [done|apply Hl]|congruence|lia]|].
      intros [] s' [[Hni ->]|(l1 & l2 & x & -> & Hx & Hni & ->)].
      * left. split; [|done]. rewrite elem_of_cons. naive_solver.
      * right. exists (y :: l1), l2, x. split_and!; try done. rewrite elem_of_cons. naive_solver.
Qed.

(** Queues without [rc] are left alone. *)
Lemma xit_slots_none t (C : nat -> list nat) rc : forall slots,
  (forall d, d ∈ slots -> llist (sendlink t) (p_callerq (P d t)) (C d) /\ (length (C d) <= NR_SLOTS)%nat /\ rc ∉ C d) ->
  wp (xit_slots rc slots) (fun _ s' => s' = t) t.
Proof.
  induction slots as [|d slots IH]; intros H; cbn [xit_slots]; [by wp_steps|]. wp_steps.
  destruct (H d ltac:(set_solver)) as (Hl & Hln & Hni). destruct (C d) as [|h l].
  - simpl in Hl. rewrite Hl. apply IH. set_solver.
  - destruct Hl as [-> Hl]. rewrite decide_False by set_solver. wp_steps.
    eapply wp_mono; [apply (xit_unlink_ok t rc l); [split; done|set_solver|simpl in Hln; lia]|].
    intros [] s1 [[_ ->]|(l1 & l2 & x & -> & _)]; [|exfalso; set_solver]. apply IH. set_solver.
Qed.

(** The whole search, over the caller queues of [slots]. *)
Lemma xit_slots_ok s C rc : CQ s C -> length (procs s) = NR_SLOTS -> forall slots, NoDup slots ->
  (forall d, d ∈ slots -> slot_ok d) ->
  wp (xit_slots rc slots) (fun _ s' =>
    ((forall d, d ∈ slots -> rc ∉ C d) /\ s' = s) \/
    (exists d l1 l2, d ∈ slots /\ C d = l1 ++ rc :: l2 /\
       s' = match last l1 with
            | None => s <| procs ::= alter (fun p => p <| p_callerq := sendlink s rc |>) d |>
            | Some x => put_link x (sendlink s rc) s
            end)) s.
Proof.
  intros HC Hlen. induction slots as [|d slots IH]; intros Hnd Hok; cbn [xit_slots].
  { wp_steps. left. set_solver. }
  apply NoDup_cons in Hnd as [Hd Hnd]. wp_steps.
  assert (Hds : slot_ok d) by (apply Hok; set_solver).
  destruct (cq_list _ _ HC d Hds) as [Hl Hndc]. pose proof (CQ_length _ _ _ HC Hds) as Hln.
  destruct (C d) as [|h l] eqn:ECd.
  { simpl in Hl. rewrite Hl. eapply wp_mono; [apply IH; [done|set_solver]|].
    intros [] s' [[H ->]|(d' & l1 & l2 & Hd' & H)].
    - left. split; [|done]. intros d' [->|Hd']%elem_of_cons; [rewrite ECd; set_solver|auto].
    - right. exists d', l1, l2. split; [set_solver|done]. }
  destruct Hl as [-> Hl]. destruct (decide (h = rc)) as [->|Hne].
  { unfold upd_proc. wp_steps. right. exists d, [], l. split_and!; [set_solver|done|done]. }
  wp_steps. eapply wp_mono; [apply (xit_unlink_ok s rc l); [split; done|done|simpl in Hln; lia]|].
  intros [] s1 [[Hni ->]|(l1 & l2 & x & El & Hx & Hni & ->)].
  - eapply wp_mono; [apply IH; [done|set_solver]|].
    intros [] s' [[H ->]|(d' & l1 & l2 & Hd' & H)].
    + left. split; [|done]. intros d' [->|Hd']%elem_of_cons; [rewrite ECd, elem_of_cons; naive_solver|auto].
    + right. exists d', l1, l2. split; [set_solver|done].
  - (* the rest of the slots hold nothing to unlink *)
    assert (Hrc : rc ∈ C d) by (rewrite ECd, El; set_solver).
    assert (Hrest : forall d', d' ∈ slots -> rc ∉ C d').
    { intros d' Hd' Hin. assert (d = d'); [|subst; done].
      eapply (cq_uniq _ _ HC rc); try done. apply Hok. set_solver. }
    assert (Hxd : x ∈ C d).
    { rewrite ECd, El. apply last_Some_elem_of in Hx. set_solver. }
    eapply wp_mono; [apply (xit_slots_none _ C)|].
    + intros d' Hd'. assert (Hds' : slot_ok d') by (apply Hok; set_solver).
      destruct (cq_list _ _ HC d' Hds') as [Hl' _].
      assert (Hcq : p_callerq (P d' (put_link x (sendlink s rc) s)) = p_callerq (P d' s)).
      { by apply (tbl_alter_proj p_callerq). }
      rewrite Hcq. split_and!; [|by eapply CQ_length|by apply Hrest].
      eapply lseg_frame; [|exact Hl']. intros j Hj. unfold sendlink, put_link, P. cbn.
      rewrite tbl_alter_ne; [done|]. intros <-. apply Hd.
      replace d with d' by (eapply (cq_uniq _ _ HC x); done). done.
    + intros [] s' ->. right. exists d, (h :: l1), l2. split_and!; [set_solver|by rewrite ECd, El|].
      by rewrite Hx.
Qed.

(** ** Exit *)

(** No process shares the data segment of [i] (on the Lisa every process has
    its own image) and [i] is no shadow. *)
Definition unshared (i : nat) (k : kst) : Prop := p_shadow (P i k) = 0 /\ shadow_of i k = None.

Lemma unshared_ext i k k' : (forall j, p_shadow (P j k') = p_shadow (P j k) /\ p_map (P j k') = p_map (P j k) /\
    flags k' j = flags k j) -> unshared i k -> unshared i k'.
Proof.
  intros H [H1 H2]. split; [by rewrite (proj1 (H i))|]. rewrite <- H2. unfold shadow_of. f_equal.
  apply list_find_ext. intros q. destruct (H q) as (_ & -> & ->), (H i) as (_ & -> & _). done.
Qed.

Lemma rmshadow_unshared i s : unshared i (ker s) ->
  wp (rmshadow i) (fun r s' => s' = s /\ r = (mem_phys (seg_T (p_map (P i (ker s)))),
    u16 (image_clicks (P i (ker s)) + mem_len (seg_T (p_map (P i (ker s))))))) s.
Proof.
  intros [H1 H2]. unfold rmshadow, getP. wp_steps. rewrite H1. change (nz 0) with false. cbv iota.
  wp_steps. rewrite H2. by wp_steps.
Qed.

(** Fields that the quiet updates of the handlers keep. *)
Record core_same (k k' : kst) : Prop := {
  cs_len : length (procs k') = length (procs k);
  cs_misc : rdy_head k' = rdy_head k /\ rdy_tail k' = rdy_tail k /\ m_addr k' = m_addr k /\
    sig_procs k' = sig_procs k;
  cs_field j : p_nr (P j k') = p_nr (P j k) /\ flags k' j = flags k j /\ p_map (P j k') = p_map (P j k) /\
    p_nextready (P j k') = p_nextready (P j k) /\ p_shadow (P j k') = p_shadow (P j k) /\
    p_callerq (P j k') = p_callerq (P j k) /\ sendlink k' j = sendlink k j /\
    p_getfrom (P j k') = p_getfrom (P j k);
}.

#[export] Instance core_same_refl : Reflexive core_same.
Proof. by intros k; split. Qed.
#[export] Instance core_same_trans : Transitive core_same.
Proof.
  intros k1 k2 k3 [A1 (?&?&?&?) F1] [A2 (?&?&?&?) F2]. split; [congruence|split_and!; congruence|].
  intros j. destruct (F1 j) as (?&?&?&?&?&?&?&?), (F2 j) as (?&?&?&?&?&?&?&?). split_and!; congruence.
Qed.

Lemma core_same_upd k i (g : proc -> proc) :
  (forall p, p_nr (g p) = p_nr p /\ p_flags (g p) = p_flags p /\ p_map (g p) = p_map p /\
     p_nextready (g p) = p_nextready p /\ p_shadow (g p) = p_shadow p /\
     p_callerq (g p) = p_callerq p /\ p_sendlink (g p) = p_sendlink p /\ p_getfrom (g p) = p_getfrom p) ->
  core_same k (k <| procs ::= alter g i |>).
Proof.
  intros Hg. split; [apply length_alter|done|].
  intros j. unfold sendlink. split_and!; apply tbl_alter_proj; intros p; apply Hg.
Qed.

Lemma core_same_SI k k' Q : core_same k k' -> SI k Q -> SI k' Q.
Proof.
  intros [H1 (?&?&_) H3]. apply SI_ext; try done. intros j. destruct (H3 j) as (?&?&?&?&?&?). done.
Qed.
Lemma core_same_SIx k k' Q i : core_same k k' -> SIx k Q i -> SIx k' Q i.
Proof.
  intros [H1 (?&?&_) H3]. apply SIx_ext; try done. intros j. destruct (H3 j) as (?&?&?&?&?&?). done.
Qed.
Lemma core_same_CQ k k' C : core_same k k' -> CQ k C -> CQ k' C.
Proof. intros [_ _ H3]. apply CQ_ext. intros j. destruct (H3 j) as (?&->&?&?&?&?&?&?). done. Qed.
Lemma core_same_AUX k k' : core_same k k' -> AUX k -> AUX k'.
Proof.
  intros [H1 (_&_&?&_) H3]. apply AUX_ext; try done. intros j. destruct (H3 j) as (?&?&?&?&?&?&?&?). done.
Qed.
Lemma core_same_SG k k' : core_same k k' -> SG k -> SG k'.
Proof.
  intros [_ (_&_&_&E) H3]. unfold SG. rewrite E. intros ->. f_equal. symmetry. apply pendings_ext.
  intros j. by destruct (H3 j) as (_&->&_).
Qed.

(** The tail of [do_xit], from a state where the process is off the ready
    queues: unlink it, correct the count of pending processes, free the slot. *)
Definition xit_tail (rc : nat) (f : Z) : M kst unit :=
  when (tst f SENDING) (xit_slots rc (seq 0 NR_SLOTS));;
  when (tst f PENDING) (modify (fun s => s <| sig_procs ::= fun n => n - 1 |>));;
  upd_proc rc (fun p => p <| p_pending := 0 |> <| p_pendcount := 0 |>);;
  upd_proc rc (fun p => p <| p_flags := P_SLOT_FREE |>).

(** Removing [rc] from its caller queue, as far as the links go. *)
Lemma xit_unlinked k k' C rc : CQ k C -> AUX k -> slot_ok rc ->
  (sending k rc = false /\ k' = k) \/
  (exists d l1 l2, slot_ok d /\ C d = l1 ++ rc :: l2 /\
     k' = match last l1 with
          | None => k <| procs ::= alter (fun p => p <| p_callerq := sendlink k rc |>) d |>
          | Some x => put_link x (sendlink k rc) k
          end) ->
  (forall Q, SIx k Q rc -> SIx k' Q rc) /\ AUX k' /\ ipc_frame k k' /\ (forall j, flags k' j = flags k j) /\
  exists C', forall k'', (forall j, p_callerq (P j k'') = p_callerq (P j k') /\ sendlink k'' j = sendlink k' j) ->
    (forall j, sending k'' j = if decide (rc = j) then false else sending k j) -> CQ k'' C'.
Proof.
  intros HC HA Hrc [[Hs ->]|(d & l1 & l2 & Hd & HCd & ->)].
  - split_and!; try done. exists C. intros k'' H1 H2. apply (CQ_ext k); [|done]. intros j.
    destruct (H1 j) as [? ?]. rewrite H2. case_decide; [subst|]; by split_and!.
  - pose proof (ax_len _ HA) as Hlen.
    assert (Hlt : forall x, last l1 = Some x -> slot_ok x).
    { intros x Hx%last_Some_elem_of. apply (cq_in _ _ HC d x Hd). rewrite HCd. set_solver. }
    set (g := match last l1 with None => fun p : proc => p <| p_callerq := sendlink k rc |>
              | Some _ => fun p => p <| p_sendlink := sendlink k rc |> end).
    set (i := match last l1 with None => d | Some x => x end).
    assert (Hi : slot_ok i) by (unfold i; destruct (last l1) eqn:E; auto).
    assert (Hk : match last l1 with
          | None => k <| procs ::= alter (fun p => p <| p_callerq := sendlink k rc |>) d |>
          | Some x => put_link x (sendlink k rc) k
          end = k <| procs ::= alter g i |>) by (unfold g, i; by destruct (last l1)).
    rewrite Hk. assert (Hg : forall p, p_nr (g p) = p_nr p /\ p_flags (g p) = p_flags p /\ p_map (g p) = p_map p /\
       p_nextready (g p) = p_nextready p /\ p_shadow (g p) = p_shadow p /\ p_getfrom (g p) = p_getfrom p).
    { unfold g. by destruct (last l1). }
    destruct (upd_links k i g Hg) as (_ & HF & HA' & Hfl). split_and!; [|by apply HA'|done|done|].
    + intros Q. apply SIx_ext; try done; [apply length_alter|]. intros j.
      split_and!; apply tbl_alter_proj; apply Hg.
    + exists (qset d (l1 ++ l2) C). intros k'' H1 H2. apply (CQ_remove k k'' C d l1 rc l2); try done.
      * intros j. rewrite (proj1 (H1 j)). rewrite P_alter by (rewrite Hlen; exact Hi). unfold g, i.
        destruct (last l1) as [x|] eqn:E.
        -- rewrite (decide_False (P := d = j /\ l1 = [])) by (intros [_ ->]; done). by case_decide.
        -- apply last_None in E. destruct (decide (d = j)); [rewrite decide_True by done; done|].
           by rewrite decide_False by naive_solver.
      * intros j. rewrite (proj2 (H1 j)). unfold sendlink at 1. rewrite P_alter by (rewrite Hlen; exact Hi). unfold g, i.
        destruct (last l1) as [x|] eqn:E.
        -- destruct (decide (x = j)) as [->|]; [by rewrite decide_True|].
           by rewrite decide_False by congruence.
        -- rewrite (decide_False (P := None = Some j)) by done. by case_decide.
Qed.

Lemma xit_tail_ok k Q C rc : SIx k Q rc -> CQ k C -> AUX k -> SG k -> (9 < rc < 41)%nat ->
  wp (xit_tail rc (flags k rc)) (fun _ k' => KI k' /\ flags k' rc = P_SLOT_FREE /\
    (forall j, j <> rc -> flags k' j = flags k j)) k.
Proof.
  intros HS HC HA HG Hr. unfold xit_tail.
  assert (Hso : slot_ok rc) by (unfold slot_ok, NR_SLOTS; lia).
  assert (Hh : rc <> HW) by (change HW with 8%nat; lia).
  assert (Hid : rc <> IDLEP) by (change IDLEP with 1%nat; lia).
  assert (Hmm : rc <> MMP) by (change MMP with 9%nat; lia).
  apply wp_bind. apply wp_mono with (fun _ k1 => (sending k rc = false /\ k1 = k) \/
    (exists d l1 l2, slot_ok d /\ C d = l1 ++ rc :: l2 /\
     k1 = match last l1 with
          | None => k <| procs ::= alter (fun p => p <| p_callerq := sendlink k rc |>) d |>
          | Some x => put_link x (sendlink k rc) k
          end)).
  { apply wp_when; intros Hs; [|by left].
    assert (Hin : forall d, slot_ok d -> d ∈ seq 0 NR_SLOTS) by (intros d Hd; apply elem_of_seq; unfold slot_ok in Hd; lia).
    eapply wp_mono; [apply (xit_slots_ok k C rc HC (ax_len _ HA)); [apply NoDup_seq|]|].
    { intros d Hd%elem_of_seq. unfold slot_ok. lia. }
    intros [] k1 [[Hno _]|(d & l1 & l2 & Hd%elem_of_seq & H)].
    - destruct (cq_snd _ _ HC rc Hso Hs) as (d & Hd & Hrd). exfalso. by apply (Hno d); [apply Hin|].
    - right. exists d, l1, l2. split; [unfold slot_ok; lia|done]. }
  intros [] k1 H1. destruct (xit_unlinked k k1 C rc HC HA Hso H1) as (HS1 & HA1 & HF1 & Hfl1 & C' & HC').
  specialize (HS1 Q HS). wp_steps.
  apply wp_mono with (fun _ k2 => exists n, k2 = k1 <| sig_procs := n |> /\
    n = sig_procs k - (if pending k rc then 1 else 0)).
  { apply wp_when; intros Hp; rewrite Hp.
    - wp_steps. exists (sig_procs k1 - 1). split; [by destruct k1|]. by rewrite (if_sig _ _ HF1).
    - exists (sig_procs k1). split; [by destruct k1|]. rewrite (if_sig _ _ HF1). lia. }
  intros [] k2 (n & -> & Hn). unfold upd_proc. wp_steps.
  set (k2 := k1 <| sig_procs := n |>). set (k3 := k2 <| procs ::= _ |>).
  change (k3 <| procs ::= _ |>) with (at_flags rc (fun _ => P_SLOT_FREE) k3).
  assert (Hc3 : core_same k2 k3) by by apply core_same_upd.
  assert (HA3 : AUX k3) by (apply (core_same_AUX k2); [done|]; by apply (AUX_ext k1)).
  assert (HS3 : SIx k3 Q rc) by (apply (core_same_SIx k2); [done|exact HS1]).
  pose proof (ax_len _ HA3) as Hlen3.
  assert (Hfl3 : forall j, flags k3 j = flags k j).
  { intros j. destruct (cs_field _ _ Hc3 j) as (_ & -> & _). apply Hfl1. }
  assert (Hflf : forall j, flags (at_flags rc (fun _ => P_SLOT_FREE) k3) j =
     if decide (rc = j) then P_SLOT_FREE else flags k j).
  { intros j. rewrite at_flags_P by done. case_decide; [done|apply Hfl3]. }
  split_and!.
  - split_and!.
    + exists Q. by apply SIx_flags.
    + exists C'. apply HC'.
      * intros j. unfold sendlink. rewrite at_flags_P by done.
        destruct (cs_field _ _ Hc3 j) as (_&_&_&_&_& E1 & E2 & _). unfold sendlink in E2. case_decide; done.
      * intros j. rewrite Hflf. by case_decide.
    + by apply AUX_flags.
    + unfold SG. change (sig_procs _) with n. rewrite Hn, HG. destruct (pending k rc) eqn:Hp.
      * enough (pendings k = S (pendings (at_flags rc (fun _ => P_SLOT_FREE) k3))) by lia.
        unfold pendings. apply (filter_count _ _ _ rc); [apply NoDup_seq|apply elem_of_seq; lia| |done|].
        -- intros j Hj. rewrite Hflf, decide_False by done. done.
        -- by rewrite Hflf, decide_True.
      * rewrite Z.sub_0_r. f_equal. symmetry. apply pendings_ext. intros j. rewrite Hflf. case_decide; [by subst|done].
  - by rewrite Hflf, decide_True.
  - intros j Hj. by rewrite Hflf, decide_False.
Qed.

Lemma xit_tail_sst s rc f Q :
  wp (xit_tail rc f) (fun _ k => Q (s <| ker := k |>)) (ker s) ->
  wp (when (tst f SENDING) (in_ker (xit_slots rc (seq 0 NR_SLOTS)));;
      when (tst f PENDING) (in_ker (modify (fun s => s <| sig_procs ::= fun n => n - 1 |>)));;
      updP rc (fun p => p <| p_pending := 0 |> <| p_pendcount := 0 |>);;
      updP rc (fun p => p <| p_flags := P_SLOT_FREE |>)) (fun _ s' => Q s') s.
Proof.
  intros H. assert (H' : wp (in_ker (xit_tail rc f)) (fun _ s' => Q s') s) by (apply wp_in_ker; exact H). clear H.
  unfold xit_tail in H'. apply in_ker_bind, wp_bind_inv in H'. apply wp_bind.
  eapply wp_mono; [apply in_ker_when; exact H'|]. intros [] s1 H1.
  apply in_ker_bind, wp_bind_inv in H1. apply wp_bind.
  eapply wp_mono; [apply in_ker_when; exact H1|]. intros [] s2 H2.
  apply in_ker_bind in H2. exact H2.
Qed.

Lemma kernel_xit_ok s parent proc_nr :
  KI (ker s) -> 0 <= parent < NR_PROCS -> 0 < proc_nr < NR_PROCS ->
  unshared (proc_addr proc_nr) (ker s) ->
  wp (do_xit parent proc_nr) (fun r s' =>
    let rc := proc_addr proc_nr in
    KI (ker s') /\ pmem s' = pmem s /\ flags (ker s') rc = P_SLOT_FREE /\
    (forall Q, SI (ker s') Q -> rc ∉ Q (queue_of (ker s') rc)) /\
    (forall C d, CQ (ker s') C -> slot_ok d -> rc ∉ C d) /\
    (forall j, j <> rc -> flags (ker s') j = flags (ker s) j) /\
    r = (OK, (mem_phys (seg_T (p_map (P rc (ker s)))),
              u16 (image_clicks (P rc (ker s)) + mem_len (seg_T (p_map (P rc (ker s)))))))) s.
Proof.
  intros (HS & HC & HA & HG) Hpar Hpr Hun. unfold do_xit.
  assert (Hok : isoksusern parent = true /\ isoksusern proc_nr = true).
  { unfold isoksusern, u16, NR_PROCS in *. rewrite !Z.ltb_lt. split; zlia. }
  destruct Hok as [-> ->]. cbn [negb orb]. set (rc := proc_addr proc_nr) in *. set (rp := proc_addr parent).
  assert (Hr : (9 < rc < 41)%nat) by (unfold rc, proc_addr, NR_TASKS, NR_PROCS in *; lia).
  assert (Hso : slot_ok rc) by (unfold slot_ok, NR_SLOTS; lia).
  destruct HS as [Q HS], HC as [C HC]. unfold getP.
  apply wp_bind, wp_gets, wp_bind, wp_updP, wp_bind, wp_gets, wp_bind, wp_updP, wp_bind, wp_updP, wp_bind, wp_gets, wp_bind.
  cbn [ker set_field]. set (k1 := kupd _ _ (ker s)). set (k2 := kupd _ _ k1). set (k3 := kupd _ _ k2).
  assert (Hc3 : core_same (ker s) k3).
  { transitivity k1; [by apply core_same_upd|]. transitivity k2; by apply core_same_upd. }
  assert (Hf3 : forall j, flags k3 j = flags (ker s) j) by (intros j; by destruct (cs_field _ _ Hc3 j) as (_&->&_)).
  match goal with |- wp ?m ?R _ => change (wp m R (s <| ker := k3 |>)) end.
  clearbody k3. clear k1 k2.
  apply wp_mono with (fun _ s4 => pmem s4 = pmem s /\ (exists Q', SIx (ker s4) Q' rc) /\ sched_frame k3 (ker s4)).
  { assert (HS3 : SI k3 Q) by by apply (core_same_SI (ker s)).
    pose proof (unready_SIx k3 Q rc HS3 Hso) as Hu. unfold when in *.
    destruct (flags k3 rc =? 0); [|exact (conj eq_refl Hu)]. apply wp_in_ker.
    eapply wp_mono; [exact Hu|]. intros [] k4 [? ?]. done. }
  intros [] s4 (Hm4 & [Q' HS4] & Hfr).
  assert (HF4 : forall {A} (f : proc -> A) j, (forall p, f (no_ready p) = f p) -> f (P j (ker s4)) = f (P j k3)).
  { intros A f j Hf. by apply sched_frame_field. }
  assert (Hun4 : unshared rc (ker s4)).
  { apply (unshared_ext rc (ker s)); [|done]. intros j. rewrite (HF4 _ p_shadow), (HF4 _ p_map), (HF4 _ p_flags) by done.
    destruct (cs_field _ _ Hc3 j) as (_ & ? & ? & _ & ? & _). done. }
  apply wp_bind. eapply wp_mono; [by apply rmshadow_unshared|]. intros bs s5 [-> ->].
  assert (Hmap : p_map (P rc (ker s4)) = p_map (P rc (ker s))).
  { rewrite (HF4 _ p_map) by done. by destruct (cs_field _ _ Hc3 rc) as (_ & _ & ? & _). }
  unfold image_clicks. rewrite Hmap. apply wp_bind, wp_gets.
  assert (Hend : wp (xit_tail rc (flags (ker s4) rc)) (fun _ k' => KI k' /\ flags k' rc = P_SLOT_FREE /\
    (forall j, j <> rc -> flags k' j = flags (ker s4) j)) (ker s4)).
  { apply (xit_tail_ok (ker s4) Q' C).
    - done.
    - eapply CQ_frame; [exact Hfr|]. by apply (core_same_CQ (ker s)).
    - eapply AUX_frame; [exact Hfr|]. by apply (core_same_AUX (ker s)).
    - eapply SG_frame; [by apply sched_ipc_frame|]. by apply (core_same_SG (ker s)).
    - done. }
  set (post := fun s' : sst => KI (ker s') /\ flags (ker s') rc = P_SLOT_FREE /\ pmem s' = pmem s /\
    (forall j, j <> rc -> flags (ker s') j = flags (ker s) j)).
  assert (Hx := xit_tail_sst s4 rc (flags (ker s4) rc) post). cbv beta in Hx.
  assert (Hpre : wp (xit_tail rc (flags (ker s4) rc)) (fun _ k => post (s4 <| ker := k |>)) (ker s4)).
  { eapply wp_mono; [exact Hend|]. intros [] k' (H1 & H2 & H3). unfold post. cbn. split_and!; try done.
    intros j Hj. rewrite H3 by done. rewrite (HF4 _ p_flags) by done. apply Hf3. }
  specialize (Hx Hpre). revert Hx. unfold updP, in_ker, upd_proc. intros Hx.
  apply wp_bind_inv in Hx. apply wp_bind. eapply wp_mono; [exact Hx|]. intros [] s6 Hx6.
  apply wp_bind_inv in Hx6. apply wp_bind. eapply wp_mono; [exact Hx6|]. intros [] s7 Hx7.
  apply wp_bind_inv in Hx7. apply wp_bind. eapply wp_mono; [exact Hx7|]. intros [] s8 Hx8.
  apply wp_bind. eapply wp_mono; [exact Hx8|]. intros [] s9 (H1 & H2 & H3 & H4). wp_steps.
  split_and!; try done.
  - intros Q1 [_ HQ1]. rewrite (HQ1 rc Hso). rewrite H2. by intros [? _].
  - intros C1 d HC1 Hd Hin. destruct (cq_in _ _ HC1 d rc Hd Hin) as [_ Hs]. by rewrite H2 in Hs.
Qed.

(** C19. Exit: the slot of a dead process becomes free, the process leaves the
    ready queue and the caller queue it may wait in, the parent is charged
    with its times, and MM learns the base and size of the image to release;
    memory is untouched, every other process keeps its state, and the kernel
    invariant holds again. *)
Theorem do_xit_correct s parent proc_nr :
  KI (ker s) -> 0 <= parent < NR_PROCS -> 0 < proc_nr < NR_PROCS ->
  unshared (proc_addr proc_nr) (ker s) ->
  wp (do_xit parent proc_nr) (fun r s' =>
    let rc := proc_addr proc_nr in
    KI (ker s') /\ pmem s' = pmem s /\ flags (ker s') rc = P_SLOT_FREE /\
    (forall Q, SI (ker s') Q -> rc ∉ Q (queue_of (ker s') rc)) /\
    (forall C d, CQ (ker s') C -> slot_ok d -> rc ∉ C d) /\
    (forall j, j <> rc -> flags (ker s') j = flags (ker s) j) /\
    r = (OK, (mem_phys (seg_T (p_map (P rc (ker s)))),
              u16 (image_clicks (P rc (ker s)) + mem_len (seg_T (p_map (P rc (ker s)))))))) s.
Proof. apply kernel_xit_ok. Qed.

(** ** Fork *)

(** A slot that is in no queue may be overwritten by any entry that is in none. *)
Lemma KI_replace k i p' : KI k -> (9 < i < 41)%nat ->
  flags k i <> 0 -> sending k i = false -> pending k i = false -> p_callerq (P i k) = None ->
  p_nr p' = Z.of_nat i - NR_TASKS -> p_flags p' <> 0 -> tst (p_flags p') SENDING = false ->
  tst (p_flags p') PENDING = false -> p_callerq p' = None ->
  KI (k <| procs ::= alter (fun _ => p') i |>).
Proof.
  intros ([Q [HQ Hr]] & [C HC] & HA & HG) Hi Hf Hs Hp Hc Hnr Hf' Hs' Hp' Hc'.
  assert (Hso : slot_ok i) by (unfold slot_ok, NR_SLOTS; lia). pose proof (ax_len _ HA) as Hlen.
  set (k' := k <| procs ::= _ |>).
  assert (HP : forall j, P j k' = if decide (i = j) then p' else P j k).
  { intros j. unfold k'. rewrite P_alter by (rewrite Hlen; done). done. }
  assert (HPo : forall j, j <> i -> P j k' = P j k) by (intros j Hj; rewrite HP, decide_False; done).
  assert (Hno : forall q, (q < NQ)%nat -> i ∉ Q q).
  { intros q Hq Hin. pose proof HQ as (_ & _ & _ & Hall). destruct (Hall q Hq) as (_ & _ & _ & Hq').
    destruct (Hq' i Hin) as [_ <-]. apply (Hr i Hso) in Hin as [? _]. done. }
  assert (Hci : C i = []).
  { destruct (cq_list _ _ HC i Hso) as [Hl _]. rewrite Hc in Hl. by apply llist_nil in Hl. }
  assert (Hnc : forall d, slot_ok d -> i ∉ C d).
  { intros d Hd Hin. destruct (cq_in _ _ HC d i Hd Hin). congruence. }
  split_and!.
  - exists Q. split.
    + destruct HQ as (_ & H2 & H3 & Hall). split_and!; [by unfold k'; cbn; rewrite length_alter|done|done|].
      intros q Hq. destruct (Hall q Hq) as (Hl & Hnd & Ht & Hin). split_and!; try done.
      * eapply lseg_frame; [|exact Hl]. intros j Hj. unfold nextready. rewrite HPo; [done|].
        intros ->. by apply (Hno q).
      * intros j Hj. destruct (Hin j Hj) as [? <-]. split; [done|]. apply queue_of_ext. rewrite HPo; [done|].
        intros ->. by apply (Hno _ Hq).
    + intros j Hj. destruct (decide (j = i)) as [->|Hne].
      * rewrite HP, decide_True by done. split; [|by intros [? _]].
        intros Hin. exfalso. eapply Hno; [|exact Hin]. apply queue_of_lt.
      * rewrite (queue_of_ext k) by (by rewrite HPo). rewrite HPo by done. by apply Hr.
  - exists C. destruct HC as [H1 H2 H3 H4 H5]. split; try done.
    + intros d Hd. destruct (H1 d Hd) as [Hl Hnd]. split; [|done].
      destruct (decide (d = i)) as [->|Hne]; [by rewrite HP, decide_True, Hc', Hci|].
      rewrite HPo by done. eapply lseg_frame; [|exact Hl]. intros j Hj. unfold sendlink. rewrite HPo; [done|].
      intros ->. by apply (Hnc d).
    + intros d j Hd Hj. rewrite HPo; [by apply (H2 d)|]. intros ->. by apply (Hnc d).
    + intros j Hj. destruct (decide (j = i)) as [->|Hne]; [rewrite HP, decide_True by done; congruence|].
      rewrite HPo by done. by apply H3.
  - destruct HA as [H1 H2 H3 H3' H4 H5 H6 H7 H8].
    assert (HPh : P HW k' = P HW k) by (apply HPo; change HW with 8%nat; lia).
    assert (HPi : P IDLEP k' = P IDLEP k) by (apply HPo; change IDLEP with 1%nat; lia).
    assert (HPm : P MMP k' = P MMP k) by (apply HPo; change MMP with 9%nat; lia).
    split; rewrite ?HPh, ?HPi, ?HPm; try done.
    + unfold k'. cbn. by rewrite length_alter.
    + intros j Hj. rewrite HP. case_decide; [by subst|auto].
    + intros j Hj. rewrite HP. case_decide; [congruence|auto].
    + intros j Hj. rewrite HP. case_decide; [congruence|auto].
  - unfold SG. change (sig_procs k') with (sig_procs k). rewrite HG. f_equal. symmetry. apply pendings_ext.
    intros j. rewrite HP. case_decide; [subst; congruence|done].
Qed.

(** The child's process table entry. *)
Definition fork_child (pp : proc) (PROC2 PID base : Z) : proc :=
  let t := mem_phys (seg_T (p_map pp)) in
  let mv m := m <| mem_phys := u16 (base + (mem_phys m - t)) |> in
  pp <| p_nr := PROC2 |>
     <| p_flags := bclr (p_flags pp) (Z.lor (Z.lor PENDING SIG_PENDING) P_STOP) |>
     <| p_pending := 0 |> <| p_pendcount := 0 |> <| p_pid := PID |> <| p_retreg := 0 |>
     <| user_time := 0 |> <| sys_time := 0 |> <| child_utime := 0 |> <| child_stime := 0 |>
     <| p_map := mk_segs (mv (seg_T (p_map pp))) (mv (seg_D (p_map pp))) (mv (seg_S (p_map pp))) |>
     <| p_nflips := 0 |>.

Lemma fork_child_flags pp PROC2 PID base : p_flags (fork_child pp PROC2 PID base) =
  bclr (p_flags pp) (Z.lor (Z.lor PENDING SIG_PENDING) P_STOP).
Proof. reflexivity. Qed.

Definition fork_clicks (pp : proc) : Z :=
  u16 (mem_phys (seg_S (p_map pp)) - mem_phys (seg_T (p_map pp)) + mem_len (seg_S (p_map pp))).

Lemma kupd_kupd i f g k : kupd i f (kupd i g k) = kupd i (f ∘ g) k.
Proof. unfold kupd. destruct k. unfold set_field. cbn. f_equal. apply list_alter_alter_eq. Qed.

Lemma kupd_P_ne i f k j : i <> j -> P j (kupd i f k) = P j k.
Proof. intros. unfold P, kupd. cbn. by apply tbl_alter_ne. Qed.

(** [s] with the child's slot [rpc] holding [c] and memory [m]. *)
Definition forking (rpc : nat) (s : sst) (c : proc) (m : Z -> Z) : sst :=
  mk_sst (kupd rpc (fun _ => c) (ker s)) m (beenhere s) (flipwait s).

Lemma wp_updP_forking rpc s c m f (Q : unit -> sst -> Prop) :
  Q tt (forking rpc s (f c) m) -> wp (updP rpc f) Q (forking rpc s c m).
Proof.
  intros H. apply wp_updP. unfold forking, set_field. cbn [ker pmem beenhere flipwait].
  by rewrite kupd_kupd.
Qed.

Lemma wp_fork_seg rpp rpc s c m base seg (Q : unit -> sst -> Prop) : rpc <> rpp ->
  let pp := P rpp (ker s) in
  Q tt (forking rpc s (c <| p_map := set_seg (p_map c) seg
     (u16 (base + (mem_phys (seg_of (p_map pp) seg) - mem_phys (seg_T (p_map pp))))) |>) m) ->
  wp (fork_seg rpp rpc base seg) Q (forking rpc s c m).
Proof.
  intros Hne pp H. unfold fork_seg, getP. apply wp_bind, wp_gets. unfold forking at 1 2 3. cbn [ker].
  rewrite kupd_P_ne by done. by apply wp_updP_forking.
Qed.

Lemma fork_run s PROC1 PROC2 PID m1_p1 :
  isoksusern PROC1 = true -> isoksusern PROC2 = true -> proc_addr PROC2 <> proc_addr PROC1 ->
  wp (do_fork PROC1 PROC2 PID m1_p1) (fun r s' => let pp := P (proc_addr PROC1) (ker s) in
    r = OK /\ s' = forking (proc_addr PROC2) s (fork_child pp PROC2 PID (u16 m1_p1))
      (mem_copy (mem_phys (seg_T (p_map pp)) * 256) (u16 m1_p1 * 256) (fork_clicks pp * 256) (pmem s))) s.
Proof.
  intros H1 H2 Hne. unfold do_fork. rewrite H1, H2. cbn [negb orb].
  set (rpp := proc_addr PROC1) in *. set (rpc := proc_addr PROC2) in *. set (pp := P rpp (ker s)).
  unfold getP at 1. apply wp_bind, wp_gets. fold pp. apply wp_bind, wp_updP.
  change (s <| ker := kupd rpc (fun _ => pp) (ker s) |>) with (forking rpc s pp (pmem s)).
  do 4 apply wp_bind, wp_updP_forking. apply wp_bind, wp_gets.
  replace (P rpp (ker (forking rpc s _ _))) with pp by (cbn; by rewrite kupd_P_ne).
  apply wp_bind. unfold copyclicks. apply wp_modify. cbn [pmem forking set_field].
  match goal with |- wp _ _ (forking rpc s ?c ?m) <| pmem ::= ?f |> =>
    change ((forking rpc s c m) <| pmem ::= f |>) with (forking rpc s c (f m)) end.
  do 3 (apply wp_bind, wp_fork_seg; [done|]). apply wp_bind, wp_updP_forking, wp_ret. split; [done|].
  match goal with |- forking rpc s ?c ?m = _ => assert (Hc : c = fork_child pp PROC2 PID (u16 m1_p1)) end.
  { fold pp. clearbody pp. destruct pp as [? ? ? ? ? [[? ? ?] [? ? ?] [? ? ?]]].
    cbv -[u16 bclr Z.add Z.sub Z.lor]. reflexivity. }
  rewrite Hc. reflexivity.
Qed.

(** An image as MM lays it out: text, data, gap and stack in order. *)
Record image_wf (m : segs) : Prop := {
  iw_pos : 0 <= mem_phys (seg_T m) /\ 0 <= mem_len (seg_T m) /\ 0 <= mem_len (seg_D m) /\ 0 <= mem_len (seg_S m);
  iw_order : mem_phys (seg_T m) + mem_len (seg_T m) <= mem_phys (seg_D m) /\
    mem_phys (seg_D m) + mem_len (seg_D m) <= mem_phys (seg_S m);
  iw_end : mem_phys (seg_S m) + mem_len (seg_S m) < 65536;
}.

(** The bytes of an image, as its process sees them through segment [sel]. *)
Definition seg_byte (m : Z -> Z) (sg : mem_map) (o : Z) : Z := m (mem_phys sg * 256 + o).

Lemma kernel_fork_ok s PROC1 PROC2 PID base :
  let pp := P (proc_addr PROC1) (ker s) in
  let pc := P (proc_addr PROC2) (ker s) in
  KI (ker s) -> 0 <= PROC1 < NR_PROCS -> 0 < PROC2 < NR_PROCS -> PROC1 <> PROC2 ->
  p_flags pc = P_SLOT_FREE -> p_callerq pc = None ->
  tst (p_flags pp) RECEIVING = true -> tst (p_flags pp) SENDING = false -> p_callerq pp = None ->
  image_wf (p_map pp) -> 0 <= base -> base + fork_clicks pp < 65536 ->
  wp (do_fork PROC1 PROC2 PID base) (fun r s' => let c := P (proc_addr PROC2) (ker s') in
    r = OK /\ KI (ker s') /\ c = fork_child pp PROC2 PID base /\
    (forall j, j <> proc_addr PROC2 -> P j (ker s') = P j (ker s)) /\
    (forall sel, sel ∈ [seg_T; seg_D; seg_S] -> forall o, 0 <= o < mem_len (sel (p_map pp)) * 256 ->
       mem_vir (sel (p_map c)) = mem_vir (sel (p_map pp)) /\
       seg_byte (pmem s') (sel (p_map c)) o = seg_byte (pmem s) (sel (p_map pp)) o) /\
    (forall a, a < base * 256 \/ (base + fork_clicks pp) * 256 <= a -> pmem s' a = pmem s a)) s.
Proof.
  intros pp pc HK H1 H2 Hne Hfc Hcc Hrec Hsnd Hcp [Hpos Hord Hend] Hb Hbe.
  assert (Hok : isoksusern PROC1 = true /\ isoksusern PROC2 = true).
  { unfold isoksusern, u16, NR_PROCS in *. rewrite !Z.ltb_lt. split; zlia. }
  assert (Hsl : (9 < proc_addr PROC2 < 41)%nat /\ proc_addr PROC2 <> proc_addr PROC1 /\
    Z.of_nat (proc_addr PROC2) - NR_TASKS = PROC2).
  { unfold proc_addr, NR_TASKS, NR_PROCS in *. lia. }
  destruct Hok as [Hok1 Hok2], Hsl as (Hsl & Hns & Hnr).
  assert (Hfr : 0 <= fork_clicks pp) by (unfold fork_clicks; apply u16_range).
  assert (Hfc' : fork_clicks pp = mem_phys (seg_S (p_map pp)) - mem_phys (seg_T (p_map pp)) + mem_len (seg_S (p_map pp))).
  { unfold fork_clicks. apply u16_id. lia. }
  eapply wp_mono; [by apply fork_run|]. fold pp. rewrite (u16_id base) by lia.
  intros r s' [-> ->]. cbv zeta. set (rpc := proc_addr PROC2) in *.
  assert (Hlen : length (procs (ker s)) = NR_SLOTS) by apply HK.
  assert (Hc : P rpc (ker (forking rpc s (fork_child pp PROC2 PID base)
     (mem_copy (mem_phys (seg_T (p_map pp)) * 256) (base * 256) (fork_clicks pp * 256) (pmem s)))) = fork_child pp PROC2 PID base).
  { cbn [ker forking]. unfold kupd. rewrite P_alter by (rewrite Hlen; unfold NR_SLOTS; lia). by rewrite decide_True. }
  rewrite Hc. split_and!; [done| |done| | |].
  - cbn [ker forking]. apply KI_replace; try done.
    + fold pc. by rewrite Hfc.
    + fold pc. by rewrite Hfc.
    + fold pc. by rewrite Hfc.
    + apply (tst_nonzero _ RECEIVING). by rewrite fork_child_flags, tst_bclr.
    + by rewrite fork_child_flags, tst_bclr.
    + rewrite fork_child_flags. unfold tst, bclr. apply nz_false. apply Z.bits_inj'. intros n Hn.
      rewrite Z.land_spec, Z.ldiff_spec, Z.bits_0, !Z.lor_spec.
      destruct (Z.testbit (p_flags pp) n), (Z.testbit PENDING n), (Z.testbit SIG_PENDING n), (Z.testbit P_STOP n); reflexivity.
  - intros j Hj. cbn [ker forking]. by apply kupd_P_ne.
  - intros sel Hsel o Ho. cbn [pmem forking]. unfold seg_byte, mem_copy.
    assert (Hm : mem_vir (sel (p_map (fork_child pp PROC2 PID base))) = mem_vir (sel (p_map pp)) /\
      mem_phys (sel (p_map (fork_child pp PROC2 PID base))) =
        base + (mem_phys (sel (p_map pp)) - mem_phys (seg_T (p_map pp))) /\
      0 <= mem_phys (sel (p_map pp)) - mem_phys (seg_T (p_map pp)) /\
      mem_phys (sel (p_map pp)) - mem_phys (seg_T (p_map pp)) + mem_len (sel (p_map pp)) <= fork_clicks pp).
    { rewrite !elem_of_cons, elem_of_nil in Hsel.
      destruct Hsel as [->|[->|[->|[]]]]; cbn [p_map fork_child set_field seg_T seg_D seg_S mem_vir mem_phys];
        rewrite u16_id by lia; lia. }
    destruct Hm as (-> & -> & Hlo & Hhi). split; [done|].
    rewrite (proj2 (Z.leb_le _ _)), (proj2 (Z.ltb_lt _ _)) by nia. cbn [andb]. f_equal. lia.
  - intros a Ha. cbn [pmem forking]. unfold mem_copy.
    destruct (Z.leb_spec (base * 256) a); [|done]. destruct (Z.ltb_spec a (base * 256 + fork_clicks pp * 256)); [lia|done].
Qed.

(** C20. Fork: the child's entry is the parent's with its own number, pid, zero
    times and return value and no pending signals; it gets a copy of every
    byte of the parent's text, data and stack at the addresses MM allocated,
    under the same virtual addresses; no other process and no other memory
    changes, and the kernel invariant is kept. *)
Theorem do_fork_correct s PROC1 PROC2 PID base :
  let pp := P (proc_addr PROC1) (ker s) in
  let pc := P (proc_addr PROC2) (ker s) in
  KI (ker s) -> 0 <= PROC1 < NR_PROCS -> 0 < PROC2 < NR_PROCS -> PROC1 <> PROC2 ->
  p_flags pc = P_SLOT_FREE -> p_callerq pc = None ->
  tst (p_flags pp) RECEIVING = true -> tst (p_flags pp) SENDING = false -> p_callerq pp = None ->
  image_wf (p_map pp) -> 0 <= base -> base + fork_clicks pp < 65536 ->
  wp (do_fork PROC1 PROC2 PID base) (fun r s' => let c := P (proc_addr PROC2) (ker s') in
    r = OK /\ KI (ker s') /\ c = fork_child pp PROC2 PID base /\
    (forall j, j <> proc_addr PROC2 -> P j (ker s') = P j (ker s)) /\
    (forall sel, sel ∈ [seg_T; seg_D; seg_S] -> forall o, 0 <= o < mem_len (sel (p_map pp)) * 256 ->
       mem_vir (sel (p_map c)) = mem_vir (sel (p_map pp)) /\
       seg_byte (pmem s') (sel (p_map c)) o = seg_byte (pmem s) (sel (p_map pp)) o) /\
    (forall a, a < base * 256 \/ (base + fork_clicks pp) * 256 <= a -> pmem s' a = pmem s a)) s.
Proof. apply kernel_fork_ok. Qed.

(** ** Address translation *)

(** 16-bit map fields, segments that end below 16 MB, data below stack. *)
Record map16 (m : segs) : Prop := {
  m16_range x : x ∈ [seg_T m; seg_D m; seg_S m] ->
    0 <= mem_vir x /\ 0 <= mem_phys x < 65536 /\ 0 <= mem_len x /\ mem_vir x + mem_len x < 65536;
  m16_order : mem_vir (seg_D m) + mem_len (seg_D m) <= mem_vir (seg_S m);
}.

(** The arithmetic shared by the cases of [umap]. *)
Lemma umap_addr m v : 0 <= mem_vir m -> 0 <= mem_phys m < 65536 -> 0 <= mem_len m -> mem_vir m + mem_len m < 65536 ->
  mem_vir m * 256 <= v < (mem_vir m + mem_len m) * 256 ->
  (u16 (mem_vir m + mem_len m) <=? Z.shiftr v CLICK_SHIFT) = false /\
  s32 (Z.shiftl (mem_phys m) CLICK_SHIFT + s32 (v - Z.shiftl (mem_vir m) CLICK_SHIFT)) =
    v + (mem_phys m - mem_vir m) * 256.
Proof.
  intros H1 H2 H3 H4 H5. unfold CLICK_SHIFT. rewrite !Z.shiftl_mul_pow2, Z.shiftr_div_pow2 by lia.
  change (2 ^ 8) with 256. rewrite u16_id by lia. split.
  - apply Z.leb_gt. apply Z.div_lt_upper_bound; lia.
  - rewrite (s32_id (v - _)) by lia. rewrite s32_id by lia. lia.
Qed.

Lemma last_click v n : 0 <= v -> 0 < n -> v + n <= 65536 * 256 ->
  u16 (Z.shiftr (s32 (v + n - 1)) CLICK_SHIFT) = (v + n - 1) / 256.
Proof.
  intros H1 H2 H3. rewrite s32_id by lia. unfold CLICK_SHIFT. rewrite Z.shiftr_div_pow2 by lia.
  change (2 ^ 8) with 256. apply u16_id. split; [apply Z.div_pos; lia|apply Z.div_lt_upper_bound; lia].
Qed.

(** [umap]: an area that lies inside the text segment (asked for as [T]),
    or inside data or stack (asked for as either), is translated with the
    offset of its segment; an empty or negative length is refused. *)
Theorem umap_in_segment p seg sg v n :
  map16 (p_map p) -> 0 < n ->
  (seg = seg_T_nr /\ sg = seg_T (p_map p)) \/
  (seg <> seg_T_nr /\ (sg = seg_D (p_map p) \/ sg = seg_S (p_map p))) ->
  mem_vir sg * 256 <= v -> v + n <= (mem_vir sg + mem_len sg) * 256 ->
  umap p seg v n = v + (mem_phys sg - mem_vir sg) * 256 /\ umap p seg v (- n) = 0.
Proof.
  intros [Hr Ho] Hn Hsg Hlo Hhi. unfold umap. rewrite (proj2 (Z.leb_gt n 0)) by lia.
  rewrite (proj2 (Z.leb_le (- n) 0)) by lia. split; [|done].
  assert (Hd := Hr (seg_D (p_map p)) ltac:(set_solver)).
  assert (Hin : sg ∈ [seg_T (p_map p); seg_D (p_map p); seg_S (p_map p)]) by (destruct Hsg as [[_ ->]|[_ [->| ->]]]; set_solver).
  destruct (Hr sg Hin) as (R1 & R2 & R3 & R4). destruct (umap_addr sg v) as [Ha1 Ha2]; [lia..|].
  cbv zeta. rewrite last_click by lia.
  rewrite (u16_id (mem_vir (seg_D (p_map p)) + mem_len (seg_D (p_map p)))) by lia. unfold seg_of.
  destruct Hsg as [[-> ->]|[Hne [->| ->]]].
  - cbn [Z.eqb Pos.eqb seg_T_nr]. rewrite Ha1. exact Ha2.
  - rewrite (proj2 (Z.eqb_neq seg seg_T_nr)) by done.
    rewrite (proj2 (Z.ltb_lt _ _)); [|apply Z.div_lt_upper_bound; lia].
    cbn [Z.eqb Pos.eqb seg_D_nr seg_T_nr]. rewrite Ha1. exact Ha2.
  - rewrite (proj2 (Z.eqb_neq seg seg_T_nr)) by done.
    rewrite (proj2 (Z.ltb_ge _ _)); [|apply Z.div_le_lower_bound; lia].
    cbn [Z.eqb Pos.eqb seg_S_nr seg_D_nr seg_T_nr]. rewrite Ha1. exact Ha2.
Qed.

(** [umap] does not check where an area ends: one that starts inside the
    stack is translated whatever its length, so that [do_copy] writes bytes
    beyond the end of the destination process's image. *)
Theorem umap_ignores_end p v n :
  map16 (p_map p) -> mem_vir (seg_S (p_map p)) * 256 <= v < (mem_vir (seg_S (p_map p)) + mem_len (seg_S (p_map p))) * 256 ->
  0 < n -> v + n <= 65536 * 256 ->
  umap p seg_S_nr v n = v + (mem_phys (seg_S (p_map p)) - mem_vir (seg_S (p_map p))) * 256.
Proof.
  intros [Hr Ho] Hv Hn Hhi. unfold umap. rewrite (proj2 (Z.leb_gt n 0)) by lia.
  assert (Hd := Hr (seg_D (p_map p)) ltac:(set_solver)). assert (Hs := Hr (seg_S (p_map p)) ltac:(set_solver)).
  destruct (umap_addr (seg_S (p_map p)) v) as [Ha1 Ha2]; [lia..|].
  cbv zeta. rewrite last_click by lia.
  rewrite (u16_id (mem_vir (seg_D (p_map p)) + mem_len (seg_D (p_map p)))) by lia. unfold seg_of.
  rewrite (proj2 (Z.ltb_ge _ _)); [|apply Z.div_le_lower_bound; lia].
  cbn [Z.eqb Pos.eqb seg_S_nr seg_D_nr seg_T_nr]. rewrite Ha1. exact Ha2.
Qed.

(** ** Witnesses *)
Definition s0 (k : kst) : sst := mk_sst k (fun a => a mod 251) false 0.

Definition p_ex : proc := proc0 <| p_map := mk_segs (mk_map 0 1024 16) (mk_map 16 1040 16) (mk_map 48 1072 8) |>.

Lemma map16_ex : map16 (p_map p_ex).
Proof.
  split; [|cbn; lia]. intros x. rewrite !elem_of_cons, elem_of_nil. intros [->|[->|[->|[]]]]; cbn; lia.
Qed.

Lemma umap_in_segment_witness :
  umap p_ex seg_D_nr 5000 100 = 5000 + (1040 - 16) * 256 /\ umap p_ex seg_D_nr 5000 (-100) = 0.
Proof.
  apply (umap_in_segment p_ex seg_D_nr (mk_map 16 1040 16) 5000 100 map16_ex); cbn; try lia.
  right. split; [discriminate|left; reflexivity].
Defined.

Lemma umap_ignores_end_witness :
  umap p_ex seg_S_nr 14000 50000 = 14000 + (1072 - 48) * 256 /\ (48 + 8) * 256 < 14000 + 50000.
Proof. split; [apply (umap_ignores_end p_ex 14000 50000 map16_ex); cbn; lia|lia]. Defined.

(** [k0] with a user process in slot 12 that waits for MM's answer. *)
Definition p12 : proc := p_ex <| p_nr := 3 |> <| p_flags := RECEIVING |>.
Definition kf : kst := k0 <| procs ::= alter (fun _ => p12) 12%nat |>.

Lemma KI_kf : KI kf.
Proof. apply KI_replace; try reflexivity; try (vm_compute; discriminate); [apply KI_k0|lia]. Qed.

Lemma do_xit_correct_witness :
  wp (do_xit 0 2) (fun r s' =>
    KI (ker s') /\ pmem s' = pmem (s0 k0) /\ flags (ker s') 11 = P_SLOT_FREE /\
    (forall Q, SI (ker s') Q -> 11%nat ∉ Q (queue_of (ker s') 11)) /\
    (forall C d, CQ (ker s') C -> slot_ok d -> 11%nat ∉ C d) /\
    (forall j, j <> 11%nat -> flags (ker s') j = flags k0 j) /\
    r = (OK, (mem_phys (seg_T (p_map (P 11 k0))),
              u16 (image_clicks (P 11 k0) + mem_len (seg_T (p_map (P 11 k0))))))) (s0 k0).
Proof.
  apply (do_xit_correct (s0 k0) 0 2 KI_k0); [unfold NR_PROCS; lia|unfold NR_PROCS; lia|].
  split; vm_compute; reflexivity.
Defined.

Lemma do_fork_correct_witness :
  wp (do_fork 3 4 77 2048) (fun r s' => r = OK /\ KI (ker s')) (s0 kf).
Proof.
  eapply wp_mono; [apply (do_fork_correct (s0 kf) 3 4 77 2048 KI_kf)|];
    try reflexivity; try lia; try (unfold NR_PROCS; lia).
  - split; vm_compute; repeat split; discriminate.
  - intros r s' (H1 & H2 & _). exact (conj H1 H2).
Defined.
