(* ===== verification/SysTask.v ===== *)
(** * The system task's loop and tracing: [src/kernel/system.c]

    [sys_task] takes a message apart, calls the handler of its type and puts
    status and results into the reply. [do_trace] gives a tracing process the
    memory, the registers and the process table entry of the process it has
    stopped: the entry is modelled byte by byte, as the 68000 lays it out. *)

From S2P Require Import Prelude KProc KQueues KIpc KSystem KTask.

Definition SYS_XIT : Z := 1.
Definition SYS_GETSP : Z := 2.
Definition SYS_SIG : Z := 3.
Definition SYS_FORK : Z := 4.
Definition SYS_NEWMAP : Z := 5.
Definition SYS_COPY : Z := 6.
Definition SYS_EXEC : Z := 7.
Definition SYS_TIMES : Z := 8.
Definition SYS_ABORT : Z := 9.
Definition SYS_FRESH : Z := 10.
Definition SYS_KILL : Z := 11.
Definition SYS_GBOOT : Z := 12.
Definition SYS_UMAP : Z := 13.
Definition SYS_MEM : Z := 14.
Definition SYS_TRACE : Z := 15.

(** ** The fields of a message

    The union is its 16-bit words: an [int] is one, a [long] or a pointer two,
    and the two [char]s of [mess_5] share the first. *)
Definition int_at (k : nat) (m : message) : Z := s16 (m_words m !!! k).
Definition long_at (k : nat) (m : message) : Z := s32 (u16 (m_words m !!! k) * 65536 + u16 (m_words m !!! S k)).
Definition char_at (low : bool) (m : message) : Z :=
  let w := u16 (m_words m !!! 0%nat) in s8 (if low then w else Z.shiftr w 8).
Definition put_int (k : nat) (v : Z) (m : message) : message := m <| m_words ::= <[k := s16 v]> |>.
Definition put_long (k : nat) (v : Z) (m : message) : message :=
  m <| m_words ::= fun l => <[S k := s16 v]> (<[k := s16 (Z.shiftr v 16)]> l) |>.

(** ** A process table entry in memory *)

Definition SIZEOF_LONG : Z := 4.
Definition SIZEOF_FRAME : Z := 72.
Definition SIZEOF_PROC : Z := 158.

(** Four bytes as a [long]. *)
Definition read_long (m : Z -> Z) (a : Z) : Z := s32 (get16 m a * 65536 + get16 m (a + 2)).

Section table.
(** Where the linker puts the entries of the table. *)
Context (proc_at : nat -> Z).
Definition pointer (o : option nat) : Z := match o with Some i => proc_at i | None => 0 end.
Definition map_bytes (m : mem_map) : list Z := be16 (mem_vir m) ++ be16 (mem_phys m) ++ be16 (mem_len m).

(** [struct stackframe_s]; its last word is never used. *)
Definition frame_bytes (p : proc) : list Z :=
  be32 (p_retreg p) ++ concat (be32 <$> p_regs p) ++ be32 (p_sp p) ++ be32 (p_pc p) ++ be16 (p_psw p) ++ [0; 0].

(** [struct proc]; [p_physio] is a [char] with a gap behind it. *)
Definition proc_bytes (p : proc) : list Z :=
  frame_bytes p ++ be32 (p_splow p) ++ be16 (p_trap p) ++ be16 (p_shadow p) ++ be16 (p_nflips p) ++
  [Z.b2z (p_physio p); 0] ++ be16 (p_nr p) ++ be16 (Z.b2z (p_int_blocked p)) ++ be16 (Z.b2z (p_int_held p)) ++
  be32 (pointer (p_nextheld p)) ++ be16 (p_flags p) ++
  map_bytes (seg_T (p_map p)) ++ map_bytes (seg_D (p_map p)) ++ map_bytes (seg_S (p_map p)) ++ be16 (p_pid p) ++
  be32 (user_time p) ++ be32 (sys_time p) ++ be32 (child_utime p) ++ be32 (child_stime p) ++ be32 (p_alarm p) ++
  be32 (pointer (p_callerq p)) ++ be32 (pointer (p_sendlink p)) ++ be32 (p_messbuf p) ++ be16 (p_getfrom p) ++
  be32 (pointer (p_nextready p)) ++ be16 (p_pending p) ++ be16 (p_pendcount p).

(** ** [do_trace] *)

Definition PSW_OFFSET : Z := 68.
(** [SETBITS]: only the condition codes and the rest of the low byte. *)
Definition SETBITS (new : Z) (p : proc) : proc :=
  p <| p_psw := u16 (Z.lor (Z.land (p_psw p) (Z.lnot 255)) (Z.land new 255)) |>.
(** A register by its place in the frame: d0, the 14 others, a7 and the pc. *)
Definition set_reg (k : nat) (v : Z) (p : proc) : proc :=
  if Nat.eqb k 0 then p <| p_retreg := v |>
  else if (k <=? 14)%nat then p <| p_regs ::= <[(k - 1)%nat := v]> |>
  else if Nat.eqb k 15 then p <| p_sp := v |> else p <| p_pc := v |>.

(** The fields of the request; [DATA] carries the answer back. *)
Definition PROCNR (m : message) : Z := int_at 0 m.
Definition REQUEST (m : message) : Z := int_at 1 m.
Definition ADDR (m : message) : Z := long_at 3 m.
Definition DATA (m : message) : Z := long_at 5 m.
Definition set_DATA (v : Z) (m : message) : message := put_long 5 v m.

(** [DATA] is in the task's own memory, always mapped. *)
Definition peek_user (rp : nat) (seg : Z) (m : message) : M sst (Z * message) :=
  p ← getP rp;
  let src := umap p seg (ADDR m) SIZEOF_LONG in
  if src =? 0 then mret (EIO, m) else
  mm ← gets pmem;
  mret (OK, set_DATA (read_long mm src) m).
Definition poke_user (rp : nat) (seg : Z) (m : message) : M sst (Z * message) :=
  p ← getP rp;
  let dst := umap p seg (ADDR m) SIZEOF_LONG in
  if dst =? 0 then mret (EIO, m) else
  modify (fun s => s <| pmem ::= put_bytes dst (be32 (DATA m)) |>);;
  mret (OK, set_DATA 0 m).

(** [ADDR] is signed: a negative one passes the test and its low half is the
    offset. Outside of the entry the access is to other data of the kernel. *)
Definition peek_proc (rp : nat) (m : message) : M sst (Z * message) :=
  if nz (Z.land (ADDR m) (SIZEOF_LONG - 1)) || (SIZEOF_PROC - SIZEOF_LONG <? ADDR m) then mret (EIO, m) else
  let i := s16 (ADDR m) in
  if (i <? 0) || (SIZEOF_PROC - SIZEOF_LONG <? i) then panic "outside the process table entry" else
  p ← getP rp;
  mret (OK, set_DATA (read_long (fun a => proc_bytes p !!! Z.to_nat a) i) m).
Definition poke_proc (rp : nat) (m : message) : M sst (Z * message) :=
  if nz (Z.land (ADDR m) (SIZEOF_LONG - 1)) || (SIZEOF_FRAME - SIZEOF_LONG <? ADDR m) then mret (EIO, m) else
  let i := s16 (ADDR m) in
  if i =? PSW_OFFSET then updP rp (SETBITS (DATA m));; mret (OK, set_DATA 0 m) else
  if (i <? 0) || (PSW_OFFSET <? i) then panic "outside the process table entry" else
  updP rp (set_reg (Z.to_nat (Z.quot i 4)) (DATA m));;
  mret (OK, set_DATA 0 m).

Definition resume (rp : nat) : M sst unit :=
  updP rp (fun p => p <| p_flags := bclr (p_flags p) P_STOP |>);;
  f ← gets (fun s => p_flags (P rp (ker s)));
  when (f =? 0) (in_ker (lock_ready rp)).

Definition do_trace (m : message) : M sst (Z * message) :=
  let rp := proc_addr (PROCNR m) in
  p ← getP rp;
  if tst (p_flags p) P_SLOT_FREE then mret (EIO, m) else
  let r := REQUEST m in
  let text := if nz (mem_len (seg_T (p_map p))) then seg_T_nr else seg_D_nr in
  if r =? -1 then
    in_ker (lock_unready rp);;
    updP rp (fun p => p <| p_flags := bset (p_flags p) P_STOP |>);;
    updP rp (fun p => p <| p_psw := bclr (p_psw p) TRACEBIT |>);;
    mret (OK, m)
  else if r =? 1 then peek_user rp text m
  else if r =? 2 then peek_user rp seg_D_nr m
  else if r =? 3 then peek_proc rp m
  else if r =? 4 then poke_user rp text m
  else if r =? 5 then poke_user rp seg_D_nr m
  else if r =? 6 then poke_proc rp m
  else if r =? 7 then resume rp;; mret (OK, set_DATA 0 m)
  else if r =? 9 then
    updP rp (fun p => p <| p_psw := bset (p_psw p) TRACEBIT |>);;
    resume rp;;
    mret (OK, set_DATA 0 m)
  else mret (EIO, m).

(** ** [do_gboot] *)
Definition boot_parameters : list Z := be16 256 ++ be16 512 ++ be16 0 ++ be16 13 ++ be16 65535.
Definition do_gboot (PROC1 MEM_PTR : Z) : M sst Z :=
  p ← getP (proc_addr PROC1);
  let dst_phys := umap p seg_D_nr MEM_PTR (Z.of_nat (length boot_parameters)) in
  if dst_phys =? 0 then panic "bad call to SYS_GBOOT" else
  modify (fun s => s <| pmem ::= put_bytes dst_phys boot_parameters |>);;
  mret OK.

(** ** [sys_task]: one request *)

(** The status, and the message with the results in it; a request that is
    refused leaves the message as it was. *)
Definition answer {X} (f : X -> message -> message) (m : message) (r : Z * X) : Z * message :=
  (fst r, if fst r =? OK then f (snd r) m else m).
Definition plain (m : message) (r : Z) : Z * message := (r, m).
Definition base_size (x : Z * Z) (m : message) : message := put_int 1 (snd x) (put_int 0 (fst x) m).

Definition dispatch (lisa_user_mem_end : Z) (m : message) : M sst (Z * message) :=
  let t := m_type m in
  let i1 := int_at 0 m in
  let i2 := int_at 1 m in
  let p1 := long_at 3 m in
  if t =? SYS_FORK then r ← do_fork i1 i2 (int_at 2 m) p1; mret (plain m r)
  else if t =? SYS_NEWMAP then r ← do_newmap (m_source m) i1 p1; mret (plain m r)
  else if t =? SYS_EXEC then r ← do_exec i1 i2 p1; mret (plain m r)
  else if t =? SYS_XIT then r ← do_xit i1 i2; mret (answer base_size m r)
  else if t =? SYS_GETSP then r ← do_getsp i1; mret (answer (put_long 3) m r)
  else if t =? SYS_TIMES then
    r ← do_times i1;
    mret (answer (fun '(u, s, cu, cs) m => put_long 6 cs (put_long 4 cu (put_long 2 s (put_long 0 u m)))) m r)
  else if t =? SYS_ABORT then r ← do_abort; mret (plain m r)
  else if t =? SYS_FRESH then r ← do_fresh (m_source m) i1 i2 p1; mret (answer base_size m r)
  else if t =? SYS_SIG then r ← do_sig i1 i2 (long_at 5 m); mret (plain m r)
  else if t =? SYS_KILL then r ← do_kill i1 i2; mret (plain m r)
  else if t =? SYS_COPY then
    r ← do_copy i2 (char_at false m) p1 (int_at 2 m) (char_at true m) (long_at 5 m) (long_at 7 m); mret (plain m r)
  else if t =? SYS_GBOOT then r ← do_gboot i1 p1; mret (plain m r)
  else if t =? SYS_UMAP then
    r ← do_umap i2 (char_at false m) p1 (long_at 7 m); mret (answer (put_long 3) m r)
  else if t =? SYS_MEM then
    r ← do_mem lisa_user_mem_end; mret (answer (fun x m => put_long 3 (snd x) (put_int 2 (fst x) m)) m r)
  else if t =? SYS_TRACE then do_trace m
  else mret (E_BAD_FCN, m).

(** The reply goes to [m_source]. *)
Definition sys_turn (lisa_user_mem_end : Z) (m : message) : M sst message :=
  r ← dispatch lisa_user_mem_end m;
  mret ((snd r) <| m_type := fst r |>).
End table.

(** ** Fields read back *)

Lemma sx_mod w v : 0 <= w -> sx w v mod 2 ^ w = v mod 2 ^ w.
Proof.
  intros Hw. unfold sx. cbv zeta. pose proof (Z.pow_pos_nonneg 2 w ltac:(lia) Hw). destruct (_ <? _); [by rewrite Z.mod_mod by lia|].
  rewrite <- (Z.mod_add _ 1) by lia. replace (v mod 2 ^ w - 2 ^ w + 1 * 2 ^ w) with (v mod 2 ^ w) by lia. by rewrite Z.mod_mod by lia.
Qed.
Lemma sx_sx w v : 0 <= w -> sx w (sx w v) = sx w v.
Proof. intros Hw. unfold sx at 1. by rewrite sx_mod. Qed.
Lemma u16_s16 v : u16 (s16 v) = u16 v.
Proof. by apply sx_mod. Qed.
Lemma s32_s32 v : s32 (s32 v) = s32 v.
Proof. by apply sx_sx. Qed.
Lemma s16_s16 v : s16 (s16 v) = s16 v.
Proof. by apply sx_sx. Qed.
Lemma s32_words v : s32 (u16 (Z.shiftr v 16) * 65536 + u16 v) = s32 v.
Proof.
  unfold s32, sx, u16. cbv zeta. rewrite Z.shiftr_div_pow2 by lia. change (2 ^ 16) with 65536. change (2 ^ 32) with 4294967296.
  assert (E : ((v / 65536) mod 65536 * 65536 + v mod 65536) mod 4294967296 = v mod 4294967296) by zlia. by rewrite E.
Qed.
Lemma long_put k v m : (S k < length (m_words m))%nat -> long_at k (put_long k v m) = s32 v.
Proof.
  intros Hk. unfold long_at, put_long. cbn [m_words set_field].
  rewrite list_lookup_total_insert_ne, !list_lookup_total_insert_eq by (rewrite ?length_insert; lia).
  by rewrite !u16_s16, s32_words.
Qed.
Lemma int_put k v m : (k < length (m_words m))%nat -> int_at k (put_int k v m) = s16 v.
Proof.
  intros Hk. unfold int_at, put_int. cbn [m_words set_field]. by rewrite list_lookup_total_insert_eq, s16_s16.
Qed.
Lemma long_put_int j k v m : (k < j)%nat -> long_at j (put_int k v m) = long_at j m.
Proof. intros Hk. unfold long_at, put_int. cbn [m_words set_field]. by rewrite !list_lookup_total_insert_ne by lia. Qed.
Lemma int_put_ne j k v m : j <> k -> int_at j (put_int k v m) = int_at j m.
Proof. intros Hk. unfold int_at, put_int. cbn [m_words set_field]. by rewrite list_lookup_total_insert_ne by lia. Qed.
Lemma int_put_long j k v m : (j < k)%nat -> int_at j (put_long k v m) = int_at j m.
Proof. intros Hk. unfold int_at, put_long. cbn [m_words set_field]. by rewrite !list_lookup_total_insert_ne by lia. Qed.
Lemma long_put_long j k v m : (S j < k)%nat -> long_at j (put_long k v m) = long_at j m.
Proof. intros Hk. unfold long_at, put_long. cbn [m_words set_field]. by rewrite !list_lookup_total_insert_ne by lia. Qed.

(** ** The bytes of an entry *)

Lemma u16_bytes x : u8 (Z.shiftr x 8) * 256 + u8 x = u16 x.
Proof. unfold u8, u16. rewrite Z.shiftr_div_pow2 by lia. change (2 ^ 16) with 65536. change (2 ^ 8) with 256. zlia. Qed.
Lemma read_be32 v a m : (forall k : nat, (k < 4)%nat -> m (a + Z.of_nat k) = be32 v !!! k) -> read_long m a = s32 v.
Proof.
  intros H. unfold read_long, get16.
  pose proof (H 0%nat ltac:(lia)) as H0. pose proof (H 1%nat ltac:(lia)) as H1.
  pose proof (H 2%nat ltac:(lia)) as H2. pose proof (H 3%nat ltac:(lia)) as H3.
  change (be32 v !!! 0%nat) with (u8 (Z.shiftr (Z.shiftr v 16) 8)) in H0. change (be32 v !!! 1%nat) with (u8 (Z.shiftr v 16)) in H1.
  change (be32 v !!! 2%nat) with (u8 (Z.shiftr v 8)) in H2. change (be32 v !!! 3%nat) with (u8 v) in H3.
  replace (a + Z.of_nat 0) with a in H0 by lia. replace (a + 2 + 1) with (a + Z.of_nat 3) by lia.
  change (Z.of_nat 1) with 1 in H1. change (Z.of_nat 2) with 2 in H2. rewrite H0, H1, H2, H3, !u16_bytes. apply s32_words.
Qed.
Lemma read_put dst v m : read_long (put_bytes dst (be32 v) m) dst = s32 v.
Proof.
  apply read_be32. intros k Hk. unfold put_bytes. change (length (be32 v)) with 4%nat.
  rewrite (proj2 (Z.leb_le _ _)), (proj2 (Z.ltb_lt _ _)) by lia. cbn [andb]. f_equal. lia.
Qed.

(** A long in a list of bytes, [n] bytes from its start. *)
Lemma read_at l1 v l2 : read_long (fun a => (l1 ++ be32 v ++ l2) !!! Z.to_nat a) (Z.of_nat (length l1)) = s32 v.
Proof.
  apply read_be32. intros k Hk. replace (Z.to_nat (Z.of_nat (length l1) + Z.of_nat k)) with (length l1 + k)%nat by lia.
  rewrite lookup_total_app_r by lia. replace (length l1 + k - length l1)%nat with k by lia.
  by rewrite lookup_total_app_l.
Qed.

(** The frame is 18 longs; the last is the status register, in its high half. *)
Definition frame_longs (p : proc) : list Z := p_retreg p :: p_regs p ++ [p_sp p; p_pc p; p_psw p * 65536].

Lemma be32_high v : be32 (v * 65536) = be16 v ++ [0; 0].
Proof.
  unfold be32. rewrite Z.shiftr_div_pow2 by lia. change (2 ^ 16) with 65536. rewrite Z.div_mul by lia. f_equal.
  unfold be16, u8. rewrite Z.shiftr_div_pow2 by lia. change (2 ^ 8) with 256. f_equal; [|f_equal]; zlia.
Qed.
Lemma frame_is_longs p : frame_bytes p = concat (be32 <$> frame_longs p).
Proof.
  unfold frame_bytes, frame_longs. cbn [fmap list_fmap concat]. rewrite fmap_app, concat_app.
  cbn [fmap list_fmap concat]. rewrite be32_high. by rewrite !app_nil_r.
Qed.
Lemma length_longs l : length (concat (be32 <$> l)) = (4 * length l)%nat.
Proof. induction l as [|v l IH]; [done|]. cbn [fmap list_fmap concat]. rewrite length_app, IH. cbn. lia. Qed.
Lemma read_longs l r k v : l !! k = Some v ->
  read_long (fun a => (concat (be32 <$> l) ++ r) !!! Z.to_nat a) (4 * Z.of_nat k) = s32 v.
Proof.
  intros Hk. assert (Hlt := lookup_lt_Some _ _ _ Hk).
  rewrite <- (take_drop_middle l k v Hk), fmap_app, concat_app. cbn [fmap list_fmap concat]. rewrite <- !app_assoc.
  replace (4 * Z.of_nat k) with (Z.of_nat (length (concat (be32 <$> take k l)))); [apply read_at|].
  rewrite length_longs, length_take. lia.
Qed.
Lemma set_reg_longs k v p : length (p_regs p) = 14%nat -> (k < 17)%nat ->
  frame_longs (set_reg k v p) = <[k := v]> (frame_longs p).
Proof.
  intros Hl Hk. unfold set_reg, frame_longs. destruct (Nat.eqb_spec k 0) as [->|H0]; [done|].
  destruct (Nat.leb_spec k 14) as [H1|H1].
  - destruct k as [|k]; [done|]. cbn [p_retreg p_regs p_sp p_pc p_psw set_field].
    replace (S k - 1)%nat with k by lia. rewrite <- (insert_app_l (p_regs p)) by lia. done.
  - destruct (p_regs p) as [|r0 [|r1 [|r2 [|r3 [|r4 [|r5 [|r6 [|r7 [|r8 [|r9 [|r10 [|r11 [|r12 [|r13 [|]]]]]]]]]]]]]]] eqn:E; try done.
    assert (k = 15 \/ k = 16)%nat as [-> | ->] by lia; cbn [Nat.eqb]; cbn [p_retreg p_regs p_sp p_pc p_psw set_field]; by rewrite E.
Qed.

(** ** What tracing reads and writes *)

Implicit Types (m : message) (s : sst).

(** The request with code [r] about the same place. *)
Definition request (r : Z) (m : message) : message := put_int 1 r m.
Definition target (m : message) : nat := proc_addr (PROCNR m).
Definition target_proc (m : message) (s : sst) : proc := P (target m) (ker s).

Record traceable m s : Prop := {
  tr_words : length (m_words m) = 11%nat;
  tr_slot : (target m < length (procs (ker s)))%nat;
  tr_regs : length (p_regs (target_proc m s)) = 14%nat;
}.

Lemma request_fields r m : length (m_words m) = 11%nat -> -32768 <= r < 32768 ->
  PROCNR (request r m) = PROCNR m /\ REQUEST (request r m) = r /\ ADDR (request r m) = ADDR m /\
  length (m_words (request r m)) = 11%nat.
Proof.
  intros Hl Hr. unfold PROCNR, REQUEST, ADDR, request. rewrite int_put_ne, int_put, long_put_int by lia.
  split_and!; try done; [|cbn; by rewrite length_insert].
  unfold s16, sx. cbv zeta. change (2 ^ 16) with 65536. change (2 ^ (16 - 1)) with 32768. destruct (Z.ltb_spec (r mod 65536) 32768); zlia.
Qed.
Lemma DATA_set v m : length (m_words m) = 11%nat -> DATA (set_DATA v m) = s32 v.
Proof. intros Hl. unfold DATA, set_DATA. apply long_put. lia. Qed.

(** The text segment, or the data segment where text is data. *)
Definition text_of (p : proc) : Z := if nz (mem_len (seg_T (p_map p))) then seg_T_nr else seg_D_nr.

Lemma peek_user_runs rp seg m s a : umap (P rp (ker s)) seg (ADDR m) SIZEOF_LONG = a -> a <> 0 ->
  peek_user rp seg m s = Done (OK, set_DATA (read_long (pmem s) a) m) s.
Proof.
  intros Ha Hne. unfold peek_user, getP. cbv [mbind M_bind gets mret M_ret].
  by rewrite Ha, (proj2 (Z.eqb_neq _ _) Hne).
Qed.
Lemma poke_user_runs rp seg m s r s1 : poke_user rp seg m s = Done r s1 -> fst r = OK ->
  let a := umap (P rp (ker s)) seg (ADDR m) SIZEOF_LONG in
  a <> 0 /\ s1 = s <| pmem ::= put_bytes a (be32 (DATA m)) |>.
Proof.
  unfold poke_user, getP. cbv [mbind M_bind gets mret M_ret modify]. destruct (Z.eqb_spec (umap (P rp (ker s)) seg (ADDR m) SIZEOF_LONG) 0) as [E|E].
  - intros [= <- <-]. done.
  - intros [= _ <-] _. by split.
Qed.

Lemma put_bytes_changed a l (pm : Z -> Z) x : put_bytes a l pm x <> pm x -> a <= x < a + Z.of_nat (length l).
Proof. unfold put_bytes. destruct (Z.leb_spec a x), (Z.ltb_spec x (a + Z.of_nat (length l))); cbn [andb]; done || lia. Qed.
Lemma poke_user_mem rp seg m s r s1 : poke_user rp seg m s = Done r s1 -> fst r = OK ->
  ker s1 = ker s /\ forall a, pmem s1 a <> pmem s a ->
    let b := umap (P rp (ker s)) seg (ADDR m) SIZEOF_LONG in b <> 0 /\ b <= a < b + 4.
Proof.
  intros Hp Hr. destruct (poke_user_runs _ _ _ _ _ _ Hp Hr) as [Hne ->]. split; [done|].
  intros a Ha%put_bytes_changed. split; [exact Hne|exact Ha].
Qed.

Lemma poke_user_peek rp seg m m' s r s1 : length (m_words m') = 11%nat -> ADDR m' = ADDR m ->
  poke_user rp seg m s = Done r s1 -> fst r = OK ->
  exists m2, peek_user rp seg m' s1 = Done (OK, m2) s1 /\ DATA m2 = s32 (DATA m).
Proof.
  intros Hl Ha Hp Hr. destruct (poke_user_runs _ _ _ _ _ _ Hp Hr) as [Hne ->]. eexists. split.
  - apply peek_user_runs; [|exact Hne]. by rewrite Ha.
  - rewrite DATA_set by done. cbn [pmem set_field]. by rewrite read_put, s32_s32.
Qed.

Lemma frame_length p : length (p_regs p) = 14%nat -> length (frame_longs p) = 18%nat.
Proof. intros Hl. cbn. by rewrite length_app, Hl. Qed.
Lemma P_updP i f s : (i < length (procs (ker s)))%nat -> P i (ker (s <| ker := kupd i f (ker s) |>)) = f (P i (ker s)).
Proof. intros Hi. unfold P. cbn. by rewrite tbl_alter_eq. Qed.

Lemma peek_proc_runs proc_at rp k m s v : frame_longs (P rp (ker s)) !! k = Some v -> (k < 18)%nat ->
  nz (Z.land (ADDR m) 3) = false -> ADDR m <= 154 -> s16 (ADDR m) = 4 * Z.of_nat k ->
  length (m_words m) = 11%nat -> exists m2, peek_proc proc_at rp m s = Done (OK, m2) s /\ DATA m2 = s32 v.
Proof.
  intros Hv Hk H3 Ha Hi Hl. unfold peek_proc. change (SIZEOF_LONG - 1) with 3. change (SIZEOF_PROC - SIZEOF_LONG) with 154.
  rewrite H3, (proj2 (Z.ltb_ge 154 (ADDR m))), Hi, (proj2 (Z.ltb_ge _ 0)), (proj2 (Z.ltb_ge _ _)) by lia. cbn [orb].
  unfold getP. cbv [mbind M_bind gets mret M_ret]. eexists. split; [reflexivity|]. rewrite DATA_set by done.
  unfold proc_bytes. rewrite frame_is_longs, (read_longs _ _ k v Hv). by rewrite s32_s32.
Qed.

(** What a register request leaves in the frame, long by long. *)
Definition poked (m : message) (p : proc) : Z :=
  if s16 (ADDR m) =? PSW_OFFSET then p_psw (SETBITS (DATA m) p) * 65536 else DATA m.

Lemma aligned_offset a : Z.land a 3 = 0 -> Z.land (s16 a) 3 = 0 /\ -32768 <= s16 a < 32768.
Proof.
  change 3 with (Z.ones 2). rewrite !Z.land_ones by lia. change (2 ^ 2) with 4. intros H.
  unfold s16, sx. cbv zeta. change (2 ^ 16) with 65536. change (2 ^ (16 - 1)) with 32768. destruct (Z.ltb_spec (a mod 65536) 32768); zlia.
Qed.

Lemma poke_proc_runs rp m s r s1 : (rp < length (procs (ker s)))%nat -> length (p_regs (P rp (ker s))) = 14%nat ->
  poke_proc rp m s = Done r s1 -> fst r = OK ->
  exists (k : nat) g, nz (Z.land (ADDR m) 3) = false /\ ADDR m <= 68 /\ s16 (ADDR m) = 4 * Z.of_nat k /\ (k < 18)%nat /\ s1 = s <| ker := kupd rp g (ker s) |> /\
    frame_longs (g (P rp (ker s))) !! k = Some (poked m (P rp (ker s))) /\ p_flags (g (P rp (ker s))) = p_flags (P rp (ker s)).
Proof.
  intros Hrp Hl. unfold poke_proc. change (SIZEOF_LONG - 1) with 3. change (SIZEOF_FRAME - SIZEOF_LONG) with 68.
  destruct (nz _) eqn:Ea; cbn [orb]; [by intros [= <- <-]|]. destruct (Z.ltb_spec 68 (ADDR m)) as [?|H68]; [by intros [= <- <-]|].
  destruct (aligned_offset _ (proj1 (nz_false _) Ea)) as [Hal Hr]. change 3 with (Z.ones 2) in Hal. rewrite Z.land_ones in Hal by lia. change (2 ^ 2) with 4 in Hal.
  assert (Ei : forall n : Z, 0 <= s16 (ADDR m) -> s16 (ADDR m) = 4 * Z.of_nat (Z.to_nat (Z.quot (s16 (ADDR m)) 4))).
  { intros _ Hp. rewrite Z.quot_div_nonneg by lia. zlia. }
  unfold poked. destruct (Z.eqb_spec (s16 (ADDR m)) PSW_OFFSET) as [E|E].
  - intros [= _ <-] _. exists 17%nat, (SETBITS (DATA m)). split_and!; [done|lia|rewrite E; reflexivity|lia|reflexivity| |done].
    unfold frame_longs. change (p_regs (SETBITS _ _)) with (p_regs (P rp (ker s))). rewrite lookup_cons_ne_0 by lia.
    cbn [Nat.pred]. by rewrite lookup_app_r, Hl by (rewrite Hl; lia).
  - destruct (Z.ltb_spec (s16 (ADDR m)) 0); [done|]. destruct (Z.ltb_spec PSW_OFFSET (s16 (ADDR m))); [done|]. cbn [orb].
    intros [= _ <-] _. specialize (Ei 0 ltac:(lia)). set (k := Z.to_nat _) in *. unfold PSW_OFFSET in *.
    assert (Hk : (k < 17)%nat) by lia. exists k, (set_reg k (DATA m)). split_and!; [done|lia|exact Ei|lia|reflexivity| |].
    + rewrite set_reg_longs by done. apply list_lookup_insert_eq. rewrite frame_length by done. lia.
    + unfold set_reg. by repeat case_match.
Qed.

Lemma target_request r m : length (m_words m) = 11%nat -> -32768 <= r < 32768 -> target (request r m) = target m.
Proof. intros Hl Hr. unfold target. by rewrite (proj1 (request_fields r m Hl Hr)). Qed.

(** The requests for memory and registers. *)
Definition access_request (proc_at : nat -> Z) (m : message) (p : proc) : M sst (Z * message) :=
  let rp := target m in
  if REQUEST m =? 1 then peek_user rp (text_of p) m
  else if REQUEST m =? 2 then peek_user rp seg_D_nr m
  else if REQUEST m =? 3 then peek_proc proc_at rp m
  else if REQUEST m =? 4 then poke_user rp (text_of p) m
  else if REQUEST m =? 5 then poke_user rp seg_D_nr m
  else poke_proc rp m.
Lemma do_trace_access proc_at m s : 1 <= REQUEST m <= 6 ->
  do_trace proc_at m s = if tst (p_flags (target_proc m s)) P_SLOT_FREE then Done (EIO, m) s
                         else access_request proc_at m (target_proc m s) s.
Proof.
  intros H. unfold do_trace, getP, access_request. unfold mbind at 1, M_bind at 1, gets at 1. unfold target_proc, target.
  destruct (tst _ _); [done|]. unfold text_of. rewrite (proj2 (Z.eqb_neq _ (-1))) by lia.
  destruct (Z.eqb_spec (REQUEST m) 1), (Z.eqb_spec (REQUEST m) 2), (Z.eqb_spec (REQUEST m) 3), (Z.eqb_spec (REQUEST m) 4),
    (Z.eqb_spec (REQUEST m) 5), (Z.eqb_spec (REQUEST m) 6); (done || lia).
Qed.

Section access.
Context (proc_at : nat -> Z) (m : message) (p : proc).
Lemma access_1 : REQUEST m = 1 -> access_request proc_at m p = peek_user (target m) (text_of p) m.
Proof. unfold access_request. by intros ->. Qed.
Lemma access_2 : REQUEST m = 2 -> access_request proc_at m p = peek_user (target m) seg_D_nr m.
Proof. unfold access_request. by intros ->. Qed.
Lemma access_3 : REQUEST m = 3 -> access_request proc_at m p = peek_proc proc_at (target m) m.
Proof. unfold access_request. by intros ->. Qed.
Lemma access_4 : REQUEST m = 4 -> access_request proc_at m p = poke_user (target m) (text_of p) m.
Proof. unfold access_request. by intros ->. Qed.
Lemma access_5 : REQUEST m = 5 -> access_request proc_at m p = poke_user (target m) seg_D_nr m.
Proof. unfold access_request. by intros ->. Qed.
Lemma access_6 : REQUEST m = 6 -> access_request proc_at m p = poke_proc (target m) m.
Proof. unfold access_request. by intros ->. Qed.
End access.



(** ** Examples *)

(** A stopped process, slot 3, and a request of MM about it. *)
Definition demo_traced : proc := proc0 <| p_nr := 3 |> <| p_flags := P_STOP |> <| p_psw := 0 |>
  <| p_map := mk_segs (mk_map 0 64 4) (mk_map 4 68 4) (mk_map 12 76 2) |>.
Definition demo_sys : sst :=
  mk_sst (mk_kst (alter (fun _ => demo_traced) 12%nat (replicate NR_SLOTS proc0)) 7 8 (replicate NQ None) (replicate NQ None) None None 0 false 0 ∅ 0)
    (fun a => a mod 251) false 0.
Definition demo_request (r addr data : Z) : message :=
  put_long 5 data (put_long 3 addr (put_int 1 r (put_int 0 3 (mk_msg 0 SYS_TRACE (replicate 11 0))))).
Definition demo_at (i : nat) : Z := 20480 + SIZEOF_PROC * Z.of_nat i.


