(* ===== verification/Clock.v ===== *)
(** * The clock task: [src/kernel/clock.c]

    Alarms, the time of day and the scheduling quantum. [next_alarm] is kept
    as the earliest of all alarms so that the interrupt handler can tell
    without a search whether the task has work. Functions that the clock calls
    in other drivers (watch-dogs, the keyboard and floppy timers, the RS-232
    flush) are recorded in [calls], in order. *)

From S2P Require Import Prelude KProc KQueues KIpc KKeeps KIntr KSys KSystem.

Definition HZ : Z := 60.
Definition SCHED_RATE : Z := 100 * HZ / 1000.
Definition MAX_P_LONG : Z := 2147483647.
Definition CLOCK : Z := -3.
Definition SET_ALARM : Z := 1.
Definition GET_TIME : Z := 3.
Definition SET_TIME : Z := 4.
Definition REAL_TIME : Z := 1.
Definition FLUSH_MASK : Z := 7.

Inductive call := WatchDog (f : Z) | KbTimer | FdTimer | RsFlush.

Record clk := mk_clk {
  csys : sst;
  boot_time : Z;
  next_alarm : Z;
  pending_ticks : Z;
  realtime : Z;
  sched_ticks : Z;
  prev_ptr : nat;
  watch_dog : list Z;
  calls : list call;
}.
#[export] Instance clk_upd : Updatable clk := fun c =>
  mk_clk (csys c) (boot_time c) (next_alarm c) (pending_ticks c) (realtime c) (sched_ticks c)
    (prev_ptr c) (watch_dog c) (calls c).

Definition in_sys {A} (m : M sst A) : M clk A := zoom csys (fun t c => c <| csys := t |>) m.
Definition in_kern {A} (m : M kst A) : M clk A := in_sys (in_ker m).
Definition kern (c : clk) : kst := ker (csys c).
Definition note (x : call) : M clk unit := modify (fun c => c <| calls ::= fun l => l ++ [x] |>).

(** The message buffer [mc]: type, and the reply field that was set. *)
Record reply := mk_reply { r_type : Z; r_value : Z }.
#[export] Instance reply_upd : Updatable reply := fun r => mk_reply (r_type r) (r_value r).

(** The search for the next alarm over the process table. *)
Definition min_alarm (k : kst) (acc : Z) (i : nat) : Z :=
  let a := p_alarm (P i k) in if nz a && (a <? acc) then a else acc.
Definition find_next (k : kst) : Z := foldl (min_alarm k) MAX_P_LONG (seq 0 NR_SLOTS).

Definition do_setalarm (proc_nr delta_ticks function : Z) : M clk Z :=
  let rp := proc_addr proc_nr in
  p ← gets (fun c => P rp (kern c));
  now ← gets realtime;
  let left := if p_alarm p =? 0 then 0 else Z.quot (s32 (p_alarm p - now)) HZ in
  in_kern (upd_proc rp (fun p => p <| p_alarm := if delta_ticks =? 0 then 0 else s32 (now + delta_ticks) |>));;
  when (istaskp rp) (modify (fun c => c <| watch_dog ::= <[Z.to_nat (- proc_nr) := function]> |>));;
  modify (fun c => c <| next_alarm := find_next (kern c) |>);;
  mret left.

Definition do_get_time : M clk reply :=
  b ← gets boot_time;
  now ← gets realtime;
  mret (mk_reply REAL_TIME (s32 (b + Z.quot now HZ))).

Definition do_set_time (NEW_TIME : Z) : M clk unit :=
  now ← gets realtime;
  modify (fun c => c <| boot_time := s32 (NEW_TIME - Z.quot now HZ) |>).

Definition clock_set_boot_time (t : Z) : M clk unit :=
  now ← gets realtime;
  modify (fun c => c <| boot_time := s32 (t - Z.quot now HZ) |>).

(** The body of the loop of [do_clocktick], for slot [i]. *)
Definition tick_slot (i : nat) : M clk unit :=
  a ← gets (fun c => p_alarm (P i (kern c)));
  if nz a then
    now ← gets realtime;
    when (a <=? now)
      (nr ← gets (fun c => p_nr (P i (kern c)));
       (if 0 <=? nr then in_kern (cause_sig nr SIGALRM)
        else f ← gets (fun c => watch_dog c !!! Z.to_nat (- nr)); note (WatchDog f));;
       in_kern (upd_proc i (fun p => p <| p_alarm := 0 |>)));;
    modify (fun c => c <| next_alarm := min_alarm (kern c) (next_alarm c) i |>)
  else mret tt.

Fixpoint tick_slots (l : list nat) : M clk unit :=
  match l with
  | [] => mret tt
  | i :: l' => tick_slot i;; tick_slots l'
  end.

Definition do_clocktick : M clk unit :=
  na ← gets next_alarm;
  now ← gets realtime;
  when (na <=? now)
    (modify (fun c => c <| next_alarm := MAX_P_LONG |>);;
     tick_slots (seq 0 NR_SLOTS));;
  modify (fun c => c <| sched_ticks ::= fun n => s16 (n - 1) |>);;
  st ← gets sched_ticks;
  when (st =? 0)
    (b ← gets (fun c => bill_ptr (kern c));
     pv ← gets prev_ptr;
     when (Nat.eqb b pv) (in_kern lock_sched);;
     modify (fun c => c <| sched_ticks := SCHED_RATE |>);;
     modify (fun c => c <| prev_ptr := bill_ptr (kern c) |>));;
  h ← gets (fun c => rdy_head (kern c) !!! SHADOW_Q);
  match h with
  | Some i => in_sys (unshadow i)
  | None => mret tt
  end.

(** One turn of the loop of [clock_task]: the requests with their message
    fields, and the reply that goes back to the sender. *)
Inductive request :=
| SetAlarm (proc_nr delta_ticks function : Z)
| GetTime
| SetTime (new_time : Z)
| HardInt
| Other (m_type : Z).

Definition clock_task_turn (r : request) : M clk (option reply) :=
  modify (fun c => c <| realtime ::= fun t => s32 (t + pending_ticks c) |>);;
  modify (fun c => c <| pending_ticks := 0 |>);;
  match r with
  | SetAlarm n d f => left ← do_setalarm n d f; mret (Some (mk_reply OK left))
  | GetTime => m ← do_get_time; mret (Some (m <| r_type := OK |>))
  | SetTime t => do_set_time t;; mret (Some (mk_reply OK 0))
  | HardInt => do_clocktick;; mret None
  | Other _ => panic "clock task got bad message"
  end.

(** The interrupt handler; [flush_flag] is rs232.c's. *)
Definition clock_handler (flush_flag : bool) : M clk unit :=
  re ← gets (fun c => k_reenter (kern c));
  cur ← gets (fun c => proc_ptr (kern c));
  let rp := if nz re then proc_addr HARDWARE else cur in
  in_kern (upd_proc rp (fun p => p <| user_time ::= fun t => s32 (t + 1) |>));;
  b ← gets (fun c => bill_ptr (kern c));
  when (negb (Nat.eqb rp b)) (in_kern (upd_proc b (fun p => p <| sys_time ::= fun t => s32 (t + 1) |>)));;
  modify (fun c => c <| pending_ticks ::= fun t => s32 (t + 1) |>);;
  note KbTimer;;
  st ← gets sched_ticks;
  when (st =? 1) (note FdTimer);;
  now ← gets realtime;
  pt ← gets pending_ticks;
  when (flush_flag && (Z.land (s16 (s32 (now + pt))) FLUSH_MASK =? 0)) (note RsFlush);;
  na ← gets next_alarm;
  pv ← gets prev_ptr;
  uq ← gets (fun c => rdy_head (kern c) !!! USER_Q);
  sq ← gets (fun c => rdy_head (kern c) !!! SHADOW_Q);
  if (na <=? s32 (now + pt)) ||
     ((st =? 1) && (Nat.eqb b pv) && (bool_decide (uq <> None) || bool_decide (sq <> None)))
  then in_kern (interrupt CLOCK)
  else
    modify (fun c => c <| sched_ticks ::= fun n => s16 (n - 1) |>);;
    st' ← gets sched_ticks;
    when (st' =? 0)
      (modify (fun c => c <| sched_ticks := SCHED_RATE |>);;
       modify (fun c => c <| prev_ptr := bill_ptr (kern c) |>)).

(** ** Proofs *)
Abbreviation alarm c i := (p_alarm (P i (kern c))).

Lemma wp_in_kern {A} (m : M kst A) Q c :
  wp m (fun a k => Q a (c <| csys := (csys c) <| ker := k |> |>)) (kern c) -> wp (in_kern m) Q c.
Proof. intros H. unfold in_kern, in_sys, in_ker. do 2 apply wp_zoom. exact H. Qed.

Lemma same_user_alarm k k' j : same_user k k' -> p_alarm (P j k') = p_alarm (P j k).
Proof. intros [_ H]. specialize (H j). by injection H. Qed.
Lemma same_user_shadow k k' j : same_user k k' -> p_shadow (P j k') = p_shadow (P j k).
Proof. intros [_ H]. specialize (H j). by injection H. Qed.

(** Setting an alarm disturbs nothing else. *)
Lemma KI_alarm k i a : KI k -> KI (k <| procs ::= alter (fun p => p <| p_alarm := a |>) i |>).
Proof. intros HK. by apply KI_quiet. Qed.

Lemma alarm_upd k i a j : slot_ok i -> length (procs k) = NR_SLOTS ->
  p_alarm (P j (k <| procs ::= alter (fun p => p <| p_alarm := a |>) i |>)) =
  if decide (i = j) then a else p_alarm (P j k).
Proof. intros Hi Hl. rewrite P_alter by (rewrite Hl; exact Hi). by case_decide. Qed.

Lemma min_alarm_spec k acc i : min_alarm k acc i <= acc /\
  (p_alarm (P i k) <> 0 -> min_alarm k acc i <= p_alarm (P i k)) /\
  (min_alarm k acc i = acc \/ (min_alarm k acc i = p_alarm (P i k) /\ p_alarm (P i k) <> 0)).
Proof.
  unfold min_alarm. destruct (nz (p_alarm (P i k))) eqn:E; cbn [andb].
  - apply nz_true in E. destruct (Z.ltb_spec (p_alarm (P i k)) acc); lia.
  - apply nz_false in E. lia.
Qed.

(** [n] is the earliest alarm in table [k], [MAX_P_LONG] when there is none. *)
Definition earliest (k : kst) (n : Z) : Prop :=
  (forall i, slot_ok i -> p_alarm (P i k) <> 0 -> n <= p_alarm (P i k)) /\
  (n = MAX_P_LONG \/ exists i, slot_ok i /\ p_alarm (P i k) = n /\ n <> 0).

Lemma find_next_earliest k : earliest k (find_next k).
Proof.
  unfold find_next.
  assert (H : forall l acc, (forall i, i ∈ l -> slot_ok i) ->
    foldl (min_alarm k) acc l <= acc /\
    (forall i, i ∈ l -> p_alarm (P i k) <> 0 -> foldl (min_alarm k) acc l <= p_alarm (P i k)) /\
    (foldl (min_alarm k) acc l = acc \/
     exists i, slot_ok i /\ p_alarm (P i k) = foldl (min_alarm k) acc l /\ foldl (min_alarm k) acc l <> 0)).
  { induction l as [|x l IH]; intros acc Hl; cbn [foldl]; [set_solver by lia|].
    destruct (IH (min_alarm k acc x) ltac:(set_solver)) as (H1 & H2 & H3).
    destruct (min_alarm_spec k acc x) as (M1 & M2 & M3). split_and!; [lia| |].
    - intros i [->|Hi]%elem_of_cons Ha; [specialize (M2 Ha); lia|by apply H2].
    - destruct H3 as [E|H3]; [|by right]. rewrite E. destruct M3 as [?|[E2 ?]]; [by left|].
      right. exists x. split; [apply Hl; set_solver|]. rewrite E2. done. }
  destruct (H (seq 0 NR_SLOTS) MAX_P_LONG) as (_ & H2 & H3).
  { intros i Hi%elem_of_seq. unfold slot_ok. lia. }
  split; [|done]. intros i Hi. apply H2. apply elem_of_seq. unfold slot_ok in Hi. lia.
Qed.

(** Setting an alarm records it (0 cancels), returns the seconds that were
    left, keeps the kernel invariant and leaves [next_alarm] at the earliest
    alarm of all processes. *)
Theorem do_setalarm_correct c proc_nr delta f :
  KI (kern c) -> slot_ok (proc_addr proc_nr) ->
  wp (do_setalarm proc_nr delta f) (fun left c' =>
    KI (kern c') /\ earliest (kern c') (next_alarm c') /\
    (forall i, alarm c' i = if decide (proc_addr proc_nr = i)
       then (if decide (delta = 0) then 0 else s32 (realtime c + delta)) else alarm c i) /\
    left = (if decide (alarm c (proc_addr proc_nr) = 0) then 0
            else Z.quot (s32 (alarm c (proc_addr proc_nr) - realtime c)) HZ)) c.
Proof.
  intros HK Hso. unfold do_setalarm. set (rp := proc_addr proc_nr) in *. wp_steps.
  apply wp_in_kern. unfold upd_proc. wp_steps.
  set (k1 := (kern c) <| procs ::= _ |>). set (c1 := c <| csys := _ |>).
  assert (Hlen : length (procs (kern c)) = NR_SLOTS) by apply HK.
  apply wp_mono with (fun _ c2 => kern c2 = k1).
  { apply wp_when; intros _; [by wp_steps|done]. }
  intros [] c2 Hk2. wp_steps. change (kern (c2 <| next_alarm := _ |>)) with (kern c2). rewrite Hk2.
  split_and!.
  - by apply KI_alarm.
  - apply find_next_earliest.
  - intros i. unfold k1. rewrite alarm_upd by done. destruct (Z.eqb_spec delta 0) as [->|Hd]; [done|].
    by rewrite (decide_False (P := delta = 0)).
  - destruct (Z.eqb_spec (alarm c rp) 0) as [E|E]; [by rewrite decide_True|by rewrite decide_False].
Qed.

(** The watch-dogs that a tick calls: those of due tasks, in slot order. *)
Definition due (c : clk) (i : nat) : bool := nz (alarm c i) && (alarm c i <=? realtime c).
Definition dogs (c : clk) (l : list nat) : list call :=
  (fun i => WatchDog (watch_dog c !!! Z.to_nat (9 - Z.of_nat i))) <$>
  filter (fun i => due c i = true /\ (i < 9)%nat) l.

Lemma filter_none (l : list nat) (X : nat -> Prop) `{forall x, Decision (X x)} :
  (forall x, x ∈ l -> ~ X x) -> filter X l = [].
Proof.
  induction l as [|x l IH]; intros Hl; [done|]. rewrite filter_cons_False by (apply Hl; set_solver).
  apply IH. set_solver.
Qed.

(** The state after the slots of [l] have been looked at, from [c0]. *)
Record ticked (c0 : clk) (l : list nat) (c : clk) : Prop := {
  tk_inv : KI (kern c);
  tk_time : realtime c = realtime c0 /\ watch_dog c = watch_dog c0 /\ sched_ticks c = sched_ticks c0 /\
    prev_ptr c = prev_ptr c0;
  tk_alarm i : alarm c i = if decide (i ∈ l /\ due c0 i = true) then 0 else alarm c0 i;
  tk_next i : i ∈ l -> alarm c i <> 0 -> next_alarm c <= alarm c i;
  tk_user i : p_shadow (P i (kern c)) = p_shadow (P i (kern c0));
  tk_calls : calls c = calls c0 ++ dogs c0 l;
}.

Lemma tick_slot_ok c0 l c i : ticked c0 l c -> slot_ok i -> i ∉ l ->
  wp (tick_slot i) (fun _ c' => ticked c0 (l ++ [i]) c') c.
Proof.
  intros [H1 (H2 & H2' & H2s & H2p) H3 H4 H5 H6] Hi Hni. unfold tick_slot. wp_steps.
  assert (Ha : alarm c i = alarm c0 i) by (rewrite H3, decide_False by naive_solver; done).
  assert (Hlen : length (procs (kern c)) = NR_SLOTS) by apply H1.
  assert (Hdogs : dogs c0 (l ++ [i]) = dogs c0 l ++ (if decide (due c0 i = true /\ (i < 9)%nat)
    then [WatchDog (watch_dog c0 !!! Z.to_nat (9 - Z.of_nat i))] else [])).
  { unfold dogs. rewrite filter_app, fmap_app, filter_cons, filter_nil. f_equal. by case_decide. }
  destruct (nz (alarm c i)) eqn:Enz; wp_steps.
  - apply wp_mono with (fun _ c1 => KI (kern c1) /\ realtime c1 = realtime c /\ watch_dog c1 = watch_dog c /\
      sched_ticks c1 = sched_ticks c /\ prev_ptr c1 = prev_ptr c /\ next_alarm c1 = next_alarm c /\
      (forall j, alarm c1 j = if decide (i = j /\ due c0 i = true) then 0 else alarm c j) /\
      (forall j, p_shadow (P j (kern c1)) = p_shadow (P j (kern c))) /\
      calls c1 = calls c ++ (if decide (due c0 i = true /\ (i < 9)%nat)
        then [WatchDog (watch_dog c0 !!! Z.to_nat (9 - Z.of_nat i))] else [])).
    { assert (Hdue : due c0 i = (alarm c i <=? realtime c)).
      { unfold due. rewrite <- Ha, Enz, H2. done. }
      apply wp_when; intros Hdw; rewrite Hdw in Hdue; rewrite Hdue.
      - wp_steps. rewrite (ax_nr (kern c)) by (apply H1 || done).
        destruct (Z.leb_spec 0 (Z.of_nat i - NR_TASKS)) as [Hu|Hu]; unfold NR_TASKS in Hu.
        + apply wp_in_kern.
          eapply wp_mono; [apply (wp_keeps same_user); [apply cause_sig_keeps|apply cause_sig_ok; [done|]]|].
          { unfold slot_ok, NR_SLOTS, NR_PROCS, NR_TASKS in *. lia. }
          intros [] k1 [HK1 Hsu]. apply wp_in_kern. unfold upd_proc. wp_steps.
          change (kern (c <| csys := _ |>)) with k1.
          assert (Hlen1 : length (procs k1) = NR_SLOTS) by apply HK1.
          split_and!; try done.
          * by apply KI_alarm.
          * intros j. etrans; [apply alarm_upd; done|]. rewrite (same_user_alarm _ _ j Hsu).
            destruct (decide (i = j)); [by rewrite decide_True|by rewrite decide_False by naive_solver].
          * intros j. etrans; [apply (tbl_alter_proj p_shadow); done|]. by apply same_user_shadow.
          * rewrite decide_False by lia. by rewrite app_nil_r.
        + wp_steps. unfold note. wp_steps. apply wp_in_kern. unfold upd_proc. wp_steps.
          split_and!; try done.
          * by apply KI_alarm.
          * intros j. etrans; [apply alarm_upd; done|].
            destruct (decide (i = j)); [by rewrite decide_True|by rewrite decide_False by naive_solver].
          * intros j. by apply (tbl_alter_proj p_shadow).
          * rewrite decide_True by (split; [done|lia]). cbn. rewrite H2'. do 4 f_equal. unfold NR_TASKS. lia.
      - split_and!; try done.
        + intros j. rewrite decide_False; [done|]. by intros [_ ?].
        + rewrite decide_False; [by rewrite app_nil_r|]. by intros [? _]. }
    intros [] c1 (K1 & R1 & W1 & S1 & P1 & N1 & A1 & U1 & D1). wp_steps.
    destruct (min_alarm_spec (kern c1) (next_alarm c1) i) as (M1 & M2 & _).
    split; try done.
    + change (realtime c1 = realtime c0 /\ watch_dog c1 = watch_dog c0 /\ sched_ticks c1 = sched_ticks c0 /\ prev_ptr c1 = prev_ptr c0).
      split_and!; congruence.
    + intros j. change (kern (c1 <| next_alarm := _ |>)) with (kern c1). rewrite A1, H3.
      destruct (decide (i = j)) as [<-|Hne].
      * rewrite (decide_False (P := i ∈ l /\ _)) by naive_solver. apply decide_ext. set_solver.
      * rewrite (decide_False (P := i = j /\ _)) by naive_solver. apply decide_ext. set_solver.
    + intros j Hj. change (kern (c1 <| next_alarm := _ |>)) with (kern c1).
      change (next_alarm (c1 <| next_alarm := _ |>)) with (min_alarm (kern c1) (next_alarm c1) i).
      destruct (decide (j = i)) as [->|Hne]; [done|]. assert (j ∈ l) by set_solver.
      rewrite A1, decide_False by naive_solver. intros Hnz. etrans; [exact M1|]. rewrite N1. by apply H4.
    + intros j. change (kern (c1 <| next_alarm := _ |>)) with (kern c1). by rewrite U1.
    + change (calls (c1 <| next_alarm := _ |>)) with (calls c1). by rewrite D1, H6, Hdogs, app_assoc.
  - assert (Hd : due c0 i = false) by (unfold due; rewrite <- Ha, Enz; done).
    apply nz_false in Enz. split; try done.
    + intros j. rewrite H3. apply decide_ext. rewrite elem_of_app, list_elem_of_singleton. split; [naive_solver|].
      intros [[?| ->] ?]; [done|congruence].
    + intros j. rewrite elem_of_app, list_elem_of_singleton. intros [Hj| ->]; [by apply H4|done].
    + rewrite H6, Hdogs, decide_False; [by rewrite app_nil_r|]. intros [? _]. congruence.
Qed.

Lemma tick_slots_ok c0 : forall l' l c, ticked c0 l c -> (forall i, i ∈ l' -> slot_ok i) -> NoDup (l ++ l') ->
  wp (tick_slots l') (fun _ c' => ticked c0 (l ++ l') c') c.
Proof.
  induction l' as [|i l' IH]; intros l c HT Hs Hnd; cbn [tick_slots].
  - wp_steps. by rewrite app_nil_r.
  - wp_steps. eapply wp_mono; [apply (tick_slot_ok c0 l c i); [done|apply Hs; set_solver|]|].
    { apply NoDup_app in Hnd as (_ & Hd & _). intros Hi. apply (Hd i Hi). set_solver. }
    intros [] c1 HT1. replace (l ++ i :: l') with ((l ++ [i]) ++ l') in * by (by rewrite <- app_assoc).
    apply IH; [done|set_solver|done].
Qed.

(** ** The scheduling quantum *)
Lemma KI_lock_sched k : KI k -> wp lock_sched (fun _ k' => KI k' /\ same_user k k') k.
Proof.
  intros HK. apply (wp_keeps same_user); [apply lock_sched_keeps|]. unfold lock_sched. apply wp_lock.
  eapply wp_mono; [by apply KI_sched, KI_sw|]. intros [] k'. apply KI_sw.
Qed.

Lemma no_shadow_queue k : KI k -> (forall i, p_shadow (P i k) = 0) -> rdy_head k !!! SHADOW_Q = None.
Proof.
  intros ([Q [HQ _]] & _) Hns. assert (Hq : (SHADOW_Q < NQ)%nat) by (unfold SHADOW_Q, NQ; lia).
  rewrite (rq_head _ _ _ HQ Hq). destruct (Q SHADOW_Q) as [|i l] eqn:E; [done|].
  destruct HQ as (_ & _ & _ & Hall). destruct (Hall _ Hq) as (_ & _ & _ & Hin).
  destruct (Hin i) as [_ Hqi]; [rewrite E; set_solver|]. revert Hqi. unfold queue_of, isshadowp.
  rewrite Hns. by repeat case_match.
Qed.


(** ** A concrete clock: the user process of [k0] has an alarm that is due. *)
Definition ka : kst := k0 <| procs ::= alter (fun p => p <| p_alarm := 100 |>) 11%nat |>.
Definition clk0 : clk := mk_clk (mk_sst ka (fun _ => 0) false 0) 0 100 0 200 3 11 (replicate 10 0) [].

Lemma KI_ka : KI ka.
Proof. apply KI_alarm, KI_k0. Qed.

Lemma do_setalarm_correct_witness :
  wp (do_setalarm 2 600 0) (fun left c' =>
    KI (kern c') /\ earliest (kern c') (next_alarm c') /\
    (forall i, alarm c' i = if decide (11%nat = i) then 800 else alarm clk0 i) /\ left = -1) clk0.
Proof. exact (do_setalarm_correct clk0 2 600 0 KI_ka ltac:(vm_compute; lia)). Defined.

Lemma clk0_slots : forall i, slot_ok i -> p_shadow (P i ka) = 0 /\ (p_alarm (P i ka) <> 0 -> 100 <= p_alarm (P i ka)).
Proof.
  intros i Hi. assert (H := all_slots (fun i => (p_shadow (P i ka) =? 0) &&
    ((p_alarm (P i ka) =? 0) || (100 <=? p_alarm (P i ka)))) ltac:(by vm_compute) i Hi).
  cbn beta in H. rewrite andb_true_iff, orb_true_iff, !Z.eqb_eq, Z.leb_le in H. naive_solver.
Qed.

Lemma clk0_no_shadow i : p_shadow (P i (kern clk0)) = 0.
Proof.
  destruct (decide (slot_ok i)) as [Hi|Hi]; [by apply clk0_slots|].
  unfold P. rewrite list_lookup_total_alt, lookup_ge_None_2; [done|].
  change (length (procs (kern clk0))) with 41%nat. unfold slot_ok, NR_SLOTS in Hi. lia.
Qed.

