(* ===== verification/Mmu.v ===== *)
(** * The Lisa MMU: [src/kernel/lisa/lisammu.c]

    User-mode processes run in MMU contexts 1, 2 and 3, selected by the SEG1
    and SEG2 latches. Each context has 128 segments of 128 KB, each with an
    origin and a limit register. [lisa_mmu_switch] selects the context of a
    process and loads its memory map, through a table of register writes, if
    the context does not hold it already.

    The hardware is modelled by its registers and latches; [lisa_mmu_write]
    (lisampx.s) performs the first [nwrites] entries of the table. *)

From S2P Require Import Prelude KProc.

Definition MMU_SEGSIZE : Z := 131072.
Definition NSEGS : nat := 128.
Definition SEG_SHIFT : Z := 17.
Definition PAGE_SHIFT : Z := 9.
Definition PAGES_PER_SEG : Z := 256.
Definition USER_SEGS : Z := 126.
Definition MMU_SLR : Z := 32768.
Definition MMU_SOR : Z := 32776.
Definition MMU_ACC_RW : Z := 1792.
Definition MMU_ACC_INVAL : Z := 3072.
Definition MAX_WRITES : nat := 256.
Definition NCTX : nat := 3.

(** The two registers of a segment. *)
Record regs := mk_regs { sor : Z; slr : Z }.
#[export] Instance regs_inh : Inhabited regs := populate (mk_regs 0 MMU_ACC_INVAL).

Record uctx := mk_uctx {
  seg_valid : list bool;
  u_proc : option nat;
  u_map : segs;
}.
#[export] Instance uctx_upd : Updatable uctx := fun u => mk_uctx (seg_valid u) (u_proc u) (u_map u).
#[export] Instance uctx_inh : Inhabited uctx := populate (mk_uctx [] None segs0).

(** [hw]: the registers of contexts 0 to 3; [seg1], [seg2]: the latches;
    [wtable]: the entries of [lisa_mmu_table] below [nwrites]. *)
Record mmu := mk_mmu {
  hw : list (list regs);
  seg1 : bool;
  seg2 : bool;
  uctxs : list uctx;
  cur_ctx : Z;
  wtable : list (Z * Z);
}.
#[export] Instance mmu_upd : Updatable mmu := fun m =>
  mk_mmu (hw m) (seg1 m) (seg2 m) (uctxs m) (cur_ctx m) (wtable m).

(** The context that the latches select: SEG1 alone is context 1, SEG2 alone
    context 2, both context 3. *)
Definition selected (m : mmu) : nat :=
  match seg1 m, seg2 m with
  | true, false => 1
  | false, true => 2
  | true, true => 3
  | false, false => 0
  end.

(** A write to a register in setup mode: 12 bits, segment and register from
    the address. *)
Definition write_regs (l : list regs) (w : Z * Z) : list regs :=
  let '(addr, v) := w in
  let s := Z.to_nat (addr / MMU_SEGSIZE) in
  let off := addr mod MMU_SEGSIZE in
  if off =? MMU_SLR then alter (fun r => mk_regs (sor r) (Z.land v 4095)) s l
  else if off =? MMU_SOR then alter (fun r => mk_regs (Z.land v 4095) (slr r)) s l
  else l.

(** What the hardware makes of a user-mode access to virtual address [v]: a
    physical address (the Lisa has 21 address bits of RAM) or a bus error. *)
Definition access (l : list regs) (v : Z) : option Z :=
  let r := l !!! Z.to_nat (v / MMU_SEGSIZE) in
  let off := v mod MMU_SEGSIZE in
  if Z.land (slr r) 3840 =? MMU_ACC_RW then
    if off / 512 <? 256 - Z.land (slr r) 255
    then Some ((sor r * 512 + off) mod 2 ^ 21) else None
  else None.

(** ** The code *)

Definition lisa_mmu_write : M mmu unit :=
  modify (fun m => m <| hw ::= alter (fun l => foldl write_regs l (wtable m)) (selected m) |>).

Definition flush_writes : M mmu unit :=
  n ← gets (fun m => length (wtable m));
  when (0 <? Z.of_nat n) lisa_mmu_write;;
  modify (fun m => m <| wtable := [] |>).

Definition add_write (addr value : Z) : M mmu unit :=
  n ← gets (fun m => length (wtable m));
  when (Nat.eqb n MAX_WRITES) flush_writes;;
  modify (fun m => m <| wtable ::= fun t => t ++ [(addr, value)] |>).

Definition select_ctx (c : Z) : M mmu unit :=
  cur ← gets cur_ctx;
  if c =? cur then mret tt else
  modify (fun m => m <| seg1 := negb (c =? 1) |>);;
  modify (fun m => m <| seg2 := negb (c =? 0) |>);;
  modify (fun m => m <| cur_ctx := c |>).

Definition upd_uctx (c : nat) (f : uctx -> uctx) : M mmu unit :=
  modify (fun m => m <| uctxs ::= alter f c |>).

Definition lisa_mmu_init : M mmu unit :=
  for_each [2; 1; 0]%nat (fun c =>
    select_ctx (Z.of_nat c);;
    modify (fun m => m <| wtable := [] |>);;
    for_each (seq 0 NSEGS) (fun s =>
      add_write (Z.shiftl (Z.of_nat s) SEG_SHIFT + MMU_SLR) MMU_ACC_INVAL;;
      upd_uctx c (fun u => u <| seg_valid ::= <[s := false]> |>));;
    flush_writes;;
    upd_uctx c (fun u => u <| u_proc := None |>)).

Definition same_map (u : uctx) (mp : segs) : bool := bool_decide (mp = u_map u).

(** One step of the scan of the memory map: [lo], [hi], [delta], [first]. *)
Definition scan_seg (p_nr : Z) (acc : Z * Z * Z * bool) (m : mem_map) : M mmu (Z * Z * Z * bool) :=
  let '(lo, hi, delta, first) := acc in
  if mem_len m =? 0 then mret acc else
  let d := Z.shiftl (mem_phys m - mem_vir m) CLICK_SHIFT in
  if negb first && negb (d =? delta) then panic "MMU: segments with different offsets, proc" else
  let v := Z.shiftl (mem_vir m) CLICK_SHIFT in
  let lo := if v <? lo then v else lo in
  let e := Z.shiftl (mem_vir m + mem_len m) CLICK_SHIFT in
  let hi := if hi <? e then e else hi in
  mret (lo, hi, d, false).

Definition scan_map (p_nr : Z) (mp : segs) : M mmu (Z * Z * Z * bool) :=
  a1 ← scan_seg p_nr (2147483647, 0, 0, true) (seg_T mp);
  a2 ← scan_seg p_nr a1 (seg_D mp);
  scan_seg p_nr a2 (seg_S mp).

(** The registers for segment [s] of an image that ends at [hi]. *)
Definition seg_origin (lisa_membase delta : Z) (s : nat) : Z :=
  Z.land (Z.shiftr (Z.shiftl (Z.of_nat s) SEG_SHIFT + delta + lisa_membase) PAGE_SHIFT) 4095.
Definition seg_pages (hi : Z) (s : nat) : Z :=
  let e := hi - Z.shiftl (Z.of_nat s) SEG_SHIFT in
  let e := if Z.shiftl 1 SEG_SHIFT <? e then Z.shiftl 1 SEG_SHIFT else e in
  Z.shiftr (e + Z.shiftl 1 PAGE_SHIFT - 1) PAGE_SHIFT.
Definition seg_limit (hi : Z) (s : nat) : Z :=
  Z.lor MMU_ACC_RW (Z.land (PAGES_PER_SEG - seg_pages hi s) 255).

Fixpoint load_segs (lisa_membase delta hi : Z) (ss : list nat) (want : list bool) : M mmu (list bool) :=
  match ss with
  | [] => mret want
  | s :: ss' =>
      let seg_base := Z.shiftl (Z.of_nat s) SEG_SHIFT in
      add_write (seg_base + MMU_SOR) (seg_origin lisa_membase delta s);;
      add_write (seg_base + MMU_SLR) (seg_limit hi s);;
      load_segs lisa_membase delta hi ss' (<[s := true]> want)
  end.

Definition seg_range (lo hi : Z) : list nat :=
  let a := Z.shiftr lo SEG_SHIFT in
  let b := Z.shiftr (hi - 1) SEG_SHIFT in
  seq (Z.to_nat a) (Z.to_nat (b + 1 - a)).

Definition lisa_mmu_switch (lisa_membase : Z) (rp : nat) (p_nr : Z) (mp : segs) : M mmu unit :=
  let c := if p_nr =? MM_PROC_NR then 1%nat else if p_nr =? FS_PROC_NR then 2%nat else 0%nat in
  select_ctx (Z.of_nat c);;
  u ← gets (fun m => uctxs m !!! c);
  if bool_decide (u_proc u = Some rp) && same_map u mp then mret tt else
  a ← scan_map p_nr mp;
  let '(lo, hi, delta, _) := a in
  if nz (Z.land delta (Z.shiftl 1 PAGE_SHIFT - 1)) then
    panic "MMU: memory map not on a page boundary, proc" else
  if Z.shiftl USER_SEGS SEG_SHIFT <? hi then panic "MMU: process image too high, proc" else
  modify (fun m => m <| wtable := [] |>);;
  want ← (if lo <? hi
          then load_segs lisa_membase delta hi (seg_range lo hi) (replicate NSEGS false)
          else mret (replicate NSEGS false));
  for_each (seq 0 NSEGS) (fun s =>
    u ← gets (fun m => uctxs m !!! c);
    when ((seg_valid u !!! s) && negb (want !!! s))
      (add_write (Z.shiftl (Z.of_nat s) SEG_SHIFT + MMU_SLR) MMU_ACC_INVAL);;
    upd_uctx c (fun u => u <| seg_valid ::= <[s := want !!! s]> |>));;
  flush_writes;;
  upd_uctx c (fun u => u <| u_proc := Some rp |>);;
  upd_uctx c (fun u => u <| u_map := mp |>).

(** ** Register writes

    [vregs m]: the registers of the selected context once the pending table is
    written. *)
Definition vregs (m : mmu) : list regs := foldl write_regs (hw m !!! selected m) (wtable m).

(** Everything but the selected context's registers and the table. *)
Record hw_frame (m m' : mmu) : Prop := {
  hf_sel : seg1 m' = seg1 m /\ seg2 m' = seg2 m /\ cur_ctx m' = cur_ctx m;
  hf_len : length (hw m') = length (hw m);
  hf_other c : c <> selected m -> hw m' !!! c = hw m !!! c;
}.

#[export] Instance hw_frame_refl : Reflexive hw_frame.
Proof. by intros m; split. Qed.

Lemma hw_frame_selected m m' : hw_frame m m' -> selected m' = selected m.
Proof. intros [(E1 & E2 & _) _ _]. unfold selected. by rewrite E1, E2. Qed.

#[export] Instance hw_frame_trans : Transitive hw_frame.
Proof.
  intros m1 m2 m3 H1 H2. pose proof (hw_frame_selected _ _ H1) as Hs.
  destruct H1 as [(? & ? & ?) ? Ho1], H2 as [(? & ? & ?) ? Ho2]. split; [split_and!; congruence|congruence|].
  intros c Hc. rewrite Ho2 by congruence. by apply Ho1.
Qed.

Lemma flush_writes_ok m : (selected m < length (hw m))%nat ->
  wp flush_writes (fun _ m' => vregs m' = vregs m /\ wtable m' = [] /\ uctxs m' = uctxs m /\
    hw_frame m m') m.
Proof.
  intros Hs. unfold flush_writes, when. wp_steps. destruct (Z.ltb_spec 0 (Z.of_nat (length (wtable m)))).
  - unfold lisa_mmu_write. wp_steps. split_and!; try done.
    + unfold vregs at 1. cbn -[alter lookup_total]. change (selected _) with (selected m).
      by rewrite tbl_alter_eq.
    + split; [done|apply length_alter|]. intros c Hc. cbn -[alter lookup_total].
      by apply tbl_alter_ne.
  - wp_steps. assert (Hw : wtable m = []) by (destruct (wtable m); simpl in *; [done|lia]).
    split_and!; try done. unfold vregs. by rewrite Hw.
Qed.

Lemma add_write_ok m a v : (selected m < length (hw m))%nat ->
  wp (add_write a v) (fun _ m' => vregs m' = write_regs (vregs m) (a, v) /\ uctxs m' = uctxs m /\
    hw_frame m m') m.
Proof.
  intros Hs. unfold add_write. wp_steps.
  apply wp_mono with (fun _ m1 => vregs m1 = vregs m /\ uctxs m1 = uctxs m /\ hw_frame m m1).
  { apply wp_when; intros _; [|done]. eapply wp_mono; [by apply flush_writes_ok|]. naive_solver. }
  intros [] m1 (Hv & Hu & Hf). wp_steps. split_and!; [|done|by destruct Hf; split].
  unfold vregs at 1. cbn. rewrite foldl_app. fold (vregs m1). simpl. by rewrite <- Hv.
Qed.

Lemma write_slr l s v j : (s < length l)%nat ->
  write_regs l (Z.shiftl (Z.of_nat s) SEG_SHIFT + MMU_SLR, v) !!! j =
  if decide (s = j) then mk_regs (sor (l !!! j)) (Z.land v 4095) else l !!! j.
Proof.
  intros Hs. unfold write_regs, SEG_SHIFT, MMU_SLR, MMU_SEGSIZE, MMU_SOR.
  rewrite Z.shiftl_mul_pow2 by lia. change (2 ^ 17) with 131072.
  replace ((Z.of_nat s * 131072 + 32768) mod 131072) with 32768 by zlia.
  replace ((Z.of_nat s * 131072 + 32768) / 131072) with (Z.of_nat s) by zlia.
  rewrite Z.eqb_refl, Nat2Z.id. case_decide; [subst; by rewrite tbl_alter_eq|by rewrite tbl_alter_ne].
Qed.

Lemma write_sor l s v j : (s < length l)%nat ->
  write_regs l (Z.shiftl (Z.of_nat s) SEG_SHIFT + MMU_SOR, v) !!! j =
  if decide (s = j) then mk_regs (Z.land v 4095) (slr (l !!! j)) else l !!! j.
Proof.
  intros Hs. unfold write_regs, SEG_SHIFT, MMU_SLR, MMU_SEGSIZE, MMU_SOR.
  rewrite Z.shiftl_mul_pow2 by lia. change (2 ^ 17) with 131072.
  replace ((Z.of_nat s * 131072 + 32776) mod 131072) with 32776 by zlia.
  replace ((Z.of_nat s * 131072 + 32776) / 131072) with (Z.of_nat s) by zlia.
  rewrite Z.eqb_refl, Nat2Z.id. change (32776 =? 32768) with false. cbv iota.
  case_decide; [subst; by rewrite tbl_alter_eq|by rewrite tbl_alter_ne].
Qed.

Lemma write_regs_len l w : length (write_regs l w) = length l.
Proof. destruct w as [a v]. unfold write_regs. repeat case_match; rewrite ?length_alter; done. Qed.

Lemma foldl_write_len ws l : length (foldl write_regs l ws) = length l.
Proof. revert l. induction ws as [|w ws IH]; intros l; simpl; [done|]. by rewrite IH, write_regs_len. Qed.

(** The contexts have their 128 segments. *)
Definition hw_ok (m : mmu) : Prop :=
  length (hw m) = 4%nat /\ forall c, (c < 4)%nat -> length (hw m !!! c) = NSEGS.

Lemma selected_lt m : (selected m < 4)%nat.
Proof. unfold selected. repeat case_match; lia. Qed.

Lemma hw_ok_vregs m : hw_ok m -> length (vregs m) = NSEGS.
Proof. intros [_ H]. unfold vregs. rewrite foldl_write_len. apply H, selected_lt. Qed.

(** What the two loops of [lisa_mmu_switch] do to the registers. *)
Lemma load_segs_ok membase delta hi : forall ss m want, hw_ok m -> NoDup ss ->
  (forall s, s ∈ ss -> (s < NSEGS)%nat) -> length (vregs m) = NSEGS -> length want = NSEGS ->
  wp (load_segs membase delta hi ss want) (fun want' m' => length want' = NSEGS /\
    uctxs m' = uctxs m /\ hw_frame m m' /\ length (vregs m') = NSEGS /\
    (forall j, want' !!! j = bool_decide (j ∈ ss) || want !!! j) /\
    (forall j, vregs m' !!! j = if decide (j ∈ ss)
       then mk_regs (Z.land (seg_origin membase delta j) 4095) (Z.land (seg_limit hi j) 4095)
       else vregs m !!! j)) m.
Proof.
  induction ss as [|s ss IH]; intros m want Hok Hnd Hlt Hlv Hlw; cbn [load_segs].
  - wp_steps. split_and!; done.
  - apply NoDup_cons in Hnd as [Hns Hnd]. assert (Hs : (s < NSEGS)%nat) by (apply Hlt; set_solver).
    assert (Hsel : (selected m < length (hw m))%nat) by (rewrite (proj1 Hok); apply selected_lt).
    wp_steps. eapply wp_mono; [by apply add_write_ok|]. intros [] m1 (Hv1 & Hu1 & Hf1).
    wp_steps. eapply wp_mono; [apply add_write_ok; by rewrite (hw_frame_selected _ _ Hf1), (hf_len _ _ Hf1)|].
    intros [] m2 (Hv2 & Hu2 & Hf2). assert (Hf : hw_frame m m2) by by transitivity m1.
    assert (Hlv2 : length (vregs m2) = NSEGS) by (rewrite Hv2, write_regs_len, Hv1, write_regs_len; done).
    assert (Hok2 : hw_ok m2).
    { split; [rewrite (hf_len _ _ Hf); apply Hok|]. intros c Hc.
      destruct (decide (c = selected m)) as [->|Hne].
      - rewrite <- (hw_frame_selected _ _ Hf). unfold vregs in Hlv2. by rewrite foldl_write_len in Hlv2.
      - rewrite (hf_other _ _ Hf) by done. by apply Hok. }
    eapply wp_mono; [apply (IH m2 (<[s := true]> want)); try done|].
    { set_solver. } { by rewrite length_insert. }
    intros want' m' (Hlw' & Hu' & Hf' & Hlv' & Hw' & Hv'). split_and!; [done|congruence|by transitivity m2|done| |].
    + intros j. rewrite Hw'. destruct (decide (s = j)) as [<-|Hne].
      * rewrite list_lookup_total_insert_eq, orb_true_r by lia.
        symmetry. apply orb_true_iff. left. apply bool_decide_eq_true. set_solver.
      * rewrite list_lookup_total_insert_ne by done. f_equal. apply bool_decide_ext. set_solver.
    + intros j. rewrite Hv'. destruct (decide (j ∈ ss)); [by rewrite decide_True by set_solver|].
      rewrite Hv2, write_slr by (rewrite Hv1, write_regs_len, Hlv; done).
      rewrite Hv1. destruct (decide (s = j)) as [<-|Hne].
      * rewrite decide_True by set_solver. rewrite write_sor by (by rewrite Hlv).
        by rewrite decide_True.
      * rewrite (decide_False (P := j ∈ s :: ss)) by set_solver. rewrite write_sor by (by rewrite Hlv).
        by rewrite decide_False.
Qed.

(** Marking segments: the loop that ends [lisa_mmu_switch] (and, with nothing
    wanted, [lisa_mmu_init]'s). [kill s] tells which segments get an invalid
    limit. *)
Definition mark_body (c : nat) (kill : bool) (s : nat) (w : bool) : M mmu unit :=
  when kill (add_write (Z.shiftl (Z.of_nat s) SEG_SHIFT + MMU_SLR) MMU_ACC_INVAL);;
  upd_uctx c (fun u => u <| seg_valid ::= <[s := w]> |>).

Record marked (c : nat) (ss : list nat) (kill want : nat -> bool) (m m' : mmu) : Prop := {
  mk_frame : hw_frame m m';
  mk_len : length (uctxs m') = length (uctxs m) /\ length (vregs m') = NSEGS /\
    length (seg_valid (uctxs m' !!! c)) = NSEGS;
  mk_other c' : c' <> c -> uctxs m' !!! c' = uctxs m !!! c';
  mk_same : u_proc (uctxs m' !!! c) = u_proc (uctxs m !!! c) /\ u_map (uctxs m' !!! c) = u_map (uctxs m !!! c);
  mk_valid j : seg_valid (uctxs m' !!! c) !!! j =
    if decide (j ∈ ss) then want j else seg_valid (uctxs m !!! c) !!! j;
  mk_vregs j : vregs m' !!! j =
    if decide (j ∈ ss /\ kill j = true) then mk_regs (sor (vregs m !!! j)) MMU_ACC_INVAL
    else vregs m !!! j;
}.

Lemma mark_one_ok m c s (kill w : bool) : (selected m < length (hw m))%nat ->
  length (vregs m) = NSEGS -> (c < length (uctxs m))%nat -> length (seg_valid (uctxs m !!! c)) = NSEGS ->
  (s < NSEGS)%nat ->
  wp (mark_body c kill s w) (fun _ m' => marked c [s] (fun _ => kill) (fun _ => w) m m') m.
Proof.
  intros Hsel Hlv Hc Hls Hs. unfold mark_body, upd_uctx. wp_steps.
  apply wp_mono with (fun _ m1 => uctxs m1 = uctxs m /\ hw_frame m m1 /\ length (vregs m1) = NSEGS /\
    forall j, vregs m1 !!! j = if decide (s = j /\ kill = true)
      then mk_regs (sor (vregs m !!! j)) MMU_ACC_INVAL else vregs m !!! j).
  { apply wp_when; intros ->.
    - eapply wp_mono; [by apply add_write_ok|]. intros [] m1 (Hv & Hu & Hf). split_and!; try done.
      + by rewrite Hv, write_regs_len.
      + intros j. rewrite Hv, write_slr by (by rewrite Hlv).
        destruct (decide (s = j)); [rewrite decide_True by done|rewrite decide_False by naive_solver]; done.
    - split_and!; try done. intros j. by rewrite decide_False by naive_solver. }
  intros [] m1 (Hu & Hf & Hl1 & Hv). wp_steps.
  assert (Hc1 : (c < length (uctxs m1))%nat) by (by rewrite Hu).
  assert (Heq : alter (fun u => u <| seg_valid ::= <[s := w]> |>) c (uctxs m1) !!! c =
    (uctxs m !!! c) <| seg_valid ::= <[s := w]> |>) by (rewrite tbl_alter_eq, Hu; done).
  split.
  - by destruct Hf; split.
  - split_and!; [by cbn -[alter]; rewrite length_alter, Hu|done|].
    cbn -[alter lookup_total]. rewrite Heq. cbn. by rewrite length_insert.
  - intros c' Hne. cbn -[alter lookup_total]. by rewrite tbl_alter_ne, Hu.
  - cbn -[alter lookup_total]. by rewrite Heq.
  - intros j. cbn -[alter lookup_total]. rewrite Heq. cbn -[alter lookup_total].
    destruct (decide (s = j)) as [<-|Hne].
    + rewrite decide_True by set_solver. rewrite list_lookup_total_insert_eq; [done|]. by rewrite Hls.
    + rewrite decide_False by set_solver. by rewrite list_lookup_total_insert_ne.
  - intros j. change (vregs (m1 <| uctxs ::= _ |>)) with (vregs m1). rewrite Hv.
    destruct (decide (s = j /\ kill = true)) as [[-> ?]|Hn]; [by rewrite decide_True by set_solver|].
    rewrite decide_False; [done|]. intros [->%list_elem_of_singleton ?]. naive_solver.
Qed.

Lemma mark_loop_ok c (kill : uctx -> nat -> bool) (want : nat -> bool) :
  (forall u u' s, seg_valid u !!! s = seg_valid u' !!! s -> kill u s = kill u' s) ->
  forall ss m, (selected m < length (hw m))%nat ->
  length (vregs m) = NSEGS -> (c < length (uctxs m))%nat -> length (seg_valid (uctxs m !!! c)) = NSEGS ->
  NoDup ss -> (forall s, s ∈ ss -> (s < NSEGS)%nat) ->
  wp (for_each ss (fun s => u ← gets (fun m => uctxs m !!! c); mark_body c (kill u s) s (want s)))
    (fun _ m' => marked c ss (kill (uctxs m !!! c)) want m m') m.
Proof.
  intros Hk. induction ss as [|s ss IH]; intros m Hsel Hlv Hc Hls Hnd Hlt; cbn [for_each].
  - wp_steps. split; try done; intros j; by rewrite decide_False by set_solver.
  - apply NoDup_cons in Hnd as [Hns Hnd]. wp_steps.
    eapply wp_mono; [apply mark_one_ok; try done; apply Hlt; set_solver|].
    intros [] m1 [F1 (L1 & L2 & L3) O1 [S1 S1'] V1 R1].
    eapply wp_mono; [apply IH; try done|].
    { by rewrite (hw_frame_selected _ _ F1), (hf_len _ _ F1). } { by rewrite L1. } { set_solver. }
    intros [] m' [F2 (L4 & L5 & L6) O2 [S2 S2'] V2 R2]. split.
    + by transitivity m1.
    + split_and!; [congruence|done|done].
    + intros c' Hne. by rewrite O2, O1.
    + split; congruence.
    + intros j. rewrite V2, V1. destruct (decide (j ∈ ss)) as [Hj|Hj].
      { rewrite decide_True; [done|]. apply elem_of_cons; auto. }
      destruct (decide (j ∈ [s])) as [Hj'|Hj'].
      { apply list_elem_of_singleton in Hj'. rewrite decide_True; [by subst|]. apply elem_of_cons; auto. }
      rewrite decide_False; [done|]. rewrite elem_of_cons. rewrite list_elem_of_singleton in Hj'. tauto.
    + intros j. rewrite R2, R1.
      assert (Hkj : j <> s -> kill (uctxs m1 !!! c) j = kill (uctxs m !!! c) j).
      { intros Hne. apply Hk. rewrite V1, decide_False by set_solver. done. }
      destruct (decide (j = s)) as [->|Hne].
      * rewrite decide_False by naive_solver.
        destruct (kill (uctxs m !!! c) s); [rewrite !decide_True by set_solver; done|].
        rewrite !decide_False by naive_solver. done.
      * rewrite (Hkj Hne). rewrite (decide_False (P := j ∈ [s] /\ _)) by set_solver.
        apply decide_ext. set_solver.
Qed.

(** ** The image of a memory map *)
Definition nonempty (mp : segs) : list mem_map :=
  filter (fun m => mem_len m <> 0) [seg_T mp; seg_D mp; seg_S mp].
Definition seg_delta (m : mem_map) : Z := (mem_phys m - mem_vir m) * 256.

Definition img_lo (mp : segs) : Z := foldr Z.min 2147483647 ((fun m => mem_vir m * 256) <$> nonempty mp).
Definition img_hi (mp : segs) : Z := foldr Z.max 0 ((fun m => (mem_vir m + mem_len m) * 256) <$> nonempty mp).
Definition img_delta (mp : segs) : Z := default 0 (last (seg_delta <$> nonempty mp)).

(** A map [lisa_mmu_switch] accepts: the fields are 16-bit, the segments have
    one offset, a multiple of the page size, and the image ends below the I/O
    segments. *)
Record map_ok (mp : segs) : Prop := {
  mo_range m : m ∈ [seg_T mp; seg_D mp; seg_S mp] ->
    0 <= mem_vir m < 65536 /\ 0 <= mem_phys m < 65536 /\ 0 <= mem_len m < 65536;
  mo_delta m : m ∈ nonempty mp -> seg_delta m = img_delta mp;
  mo_page : img_delta mp mod 512 = 0;
  mo_high : img_hi mp <= 126 * 131072;
}.

Lemma scan_seg_ok p_nr lo hi delta first x m :
  (mem_len x <> 0 -> first = false -> seg_delta x = delta) ->
  wp (scan_seg p_nr (lo, hi, delta, first) x) (fun a m' => m' = m /\
    a = if decide (mem_len x = 0) then (lo, hi, delta, first)
        else (Z.min (mem_vir x * 256) lo, Z.max ((mem_vir x + mem_len x) * 256) hi, seg_delta x, false)) m.
Proof.
  intros Hd. unfold scan_seg. rewrite !Z.shiftl_mul_pow2 by done. change (2 ^ CLICK_SHIFT) with 256.
  destruct (Z.eqb_spec (mem_len x) 0) as [E|E].
  - wp_steps. by rewrite decide_True.
  - fold (seg_delta x). replace (negb first && negb (seg_delta x =? delta)) with false; last first.
    { destruct first; [done|]. by rewrite Hd, Z.eqb_refl. }
    wp_steps. rewrite decide_False by done. split; [done|].
    destruct (Z.ltb_spec (mem_vir x * 256) lo), (Z.ltb_spec hi ((mem_vir x + mem_len x) * 256));
      do 3 f_equal; lia.
Qed.

Lemma scan_map_ok p_nr mp m : map_ok mp ->
  wp (scan_map p_nr mp) (fun a m' => m' = m /\ a.1 = (img_lo mp, img_hi mp, img_delta mp)) m.
Proof.
  intros [_ Hd _ _]. unfold scan_map.
  assert (Hdd : forall x y, x ∈ nonempty mp -> y ∈ nonempty mp -> seg_delta x = seg_delta y).
  { intros x y Hx Hy. by rewrite (Hd x Hx), (Hd y Hy). }
  assert (Hin : forall x, x ∈ [seg_T mp; seg_D mp; seg_S mp] -> mem_len x <> 0 -> x ∈ nonempty mp).
  { intros x Hx Hl. by apply list_elem_of_filter. }
  assert (HT := Hin (seg_T mp) ltac:(set_solver)). assert (HD := Hin (seg_D mp) ltac:(set_solver)).
  assert (HS := Hin (seg_S mp) ltac:(set_solver)). clear Hd Hin.
  wp_steps. eapply wp_mono; [by apply scan_seg_ok|]. intros a1 m1 [-> ->].
  wp_steps. destruct (decide (mem_len (seg_T mp) = 0)) as [E1|E1];
    (eapply wp_mono; [apply scan_seg_ok; naive_solver|]; intros a2 m2 [-> ->]; wp_steps;
     destruct (decide (mem_len (seg_D mp) = 0)) as [E2|E2];
     (eapply wp_mono; [apply scan_seg_ok; naive_solver|]; intros a3 m3 [-> ->]; split; [done|];
      unfold img_lo, img_hi, img_delta, nonempty; rewrite !filter_cons, filter_nil;
      destruct (decide (mem_len (seg_S mp) = 0)) as [E3|E3]));
    repeat (case_decide; try (exfalso; tauto));
    cbn [fst fmap list_fmap foldr last default hd_error from_option]; try done;
    simpl; repeat match goal with |- (_, _) = (_, _) => apply (f_equal2 pair) end; try done; lia.
Qed.

(** ** The invariant of the contexts *)
Definition want_segs (mp : segs) : list nat :=
  if img_lo mp <? img_hi mp then seg_range (img_lo mp) (img_hi mp) else [].

(** The registers [l] hold exactly the image of [mp]. *)
Definition ctx_holds (membase : Z) (mp : segs) (l : list regs) : Prop :=
  forall j, (j < NSEGS)%nat ->
    if decide (j ∈ want_segs mp)
    then l !!! j = mk_regs (seg_origin membase (img_delta mp) j) (seg_limit (img_hi mp) j)
    else slr (l !!! j) = MMU_ACC_INVAL.

Record MI (membase : Z) (m : mmu) : Prop := {
  mi_hw : hw_ok m;
  mi_len : length (uctxs m) = NCTX;
  mi_valid c : (c < NCTX)%nat -> length (seg_valid (uctxs m !!! c)) = NSEGS /\
    forall j, (j < NSEGS)%nat -> seg_valid (uctxs m !!! c) !!! j = false ->
      slr (hw m !!! S c !!! j) = MMU_ACC_INVAL;
  mi_holds c p : (c < NCTX)%nat -> u_proc (uctxs m !!! c) = Some p ->
    ctx_holds membase (u_map (uctxs m !!! c)) (hw m !!! S c);
  mi_cur : cur_ctx m = -1 \/ 0 <= cur_ctx m < 3 /\ selected m = S (Z.to_nat (cur_ctx m));
}.

Definition ctx_of (p_nr : Z) : nat :=
  if p_nr =? MM_PROC_NR then 1%nat else if p_nr =? FS_PROC_NR then 2%nat else 0%nat.

Lemma ctx_of_lt p_nr : (ctx_of p_nr < NCTX)%nat.
Proof. unfold ctx_of, NCTX. repeat case_match; lia. Qed.

Lemma select_ctx_ok membase m c : MI membase m -> (c < NCTX)%nat ->
  wp (select_ctx (Z.of_nat c)) (fun _ m' => MI membase m' /\ selected m' = S c /\
    cur_ctx m' = Z.of_nat c /\ uctxs m' = uctxs m /\ hw m' = hw m) m.
Proof.
  intros [H1 H2 H3 H4 H5] Hc. unfold select_ctx. wp_steps.
  destruct (Z.eqb_spec (Z.of_nat c) (cur_ctx m)) as [E|E]; wp_steps.
  - split_and!; try done; destruct H5 as [?|[? ->]]; lia.
  - assert (Hs : selected (m <| seg1 := negb (Z.of_nat c =? 1) |> <| seg2 := negb (Z.of_nat c =? 0) |>
       <| cur_ctx := Z.of_nat c |>) = S c).
    { unfold NCTX in Hc. destruct c as [|[|[|c]]]; [done..|lia]. }
    split_and!; try done. split; try done. right. rewrite Hs. simpl. unfold NCTX in Hc. lia.
Qed.

Lemma shr_le_mono a b : a <= b -> Z.shiftr a SEG_SHIFT <= Z.shiftr b SEG_SHIFT.
Proof. intros. rewrite !Z.shiftr_div_pow2 by done. apply Z.div_le_mono; [done|lia]. Qed.

Lemma nonempty_in mp x : x ∈ nonempty mp -> x ∈ [seg_T mp; seg_D mp; seg_S mp] /\ mem_len x <> 0.
Proof. intros H%list_elem_of_filter. tauto. Qed.

Lemma img_lo_bound mp : map_ok mp -> 0 <= img_lo mp.
Proof.
  intros H. unfold img_lo. assert (Hall : Forall (fun x => 0 <= mem_vir x) (nonempty mp)).
  { apply Forall_forall. intros x [Hx _]%nonempty_in. by apply (mo_range _ H). }
  induction Hall as [|x l Hx Hl IH]; [done|]. rewrite fmap_cons. cbn [foldr]. lia.
Qed.

Lemma want_segs_spec mp j : map_ok mp ->
  j ∈ want_segs mp <-> img_lo mp < img_hi mp /\ img_lo mp / 131072 <= Z.of_nat j <= (img_hi mp - 1) / 131072.
Proof.
  intros Hmp. pose proof (img_lo_bound mp Hmp) as Hlo. unfold want_segs.
  destruct (Z.ltb_spec (img_lo mp) (img_hi mp)) as [Hl|Hl]; [|split; [set_solver|lia]].
  unfold seg_range. rewrite elem_of_seq, !Z.shiftr_div_pow2 by done. change (2 ^ SEG_SHIFT) with 131072.
  assert (0 <= img_lo mp / 131072) by (apply Z.div_pos; lia).
  assert (img_lo mp / 131072 <= (img_hi mp - 1) / 131072) by (apply Z.div_le_mono; lia). lia.
Qed.

Lemma want_segs_lt mp j : map_ok mp -> j ∈ want_segs mp -> (j < 126)%nat.
Proof.
  intros Hmp Hj. apply want_segs_spec in Hj as [H1 H2]; [|done]. pose proof (mo_high _ Hmp).
  assert ((img_hi mp - 1) / 131072 < 126) by (apply Z.div_lt_upper_bound; lia). lia.
Qed.

Lemma want_segs_NoDup mp : NoDup (want_segs mp).
Proof. unfold want_segs, seg_range. case_match; [apply NoDup_seq|apply NoDup_nil_2]. Qed.

Lemma land_4095 z : 0 <= z < 4096 -> Z.land z 4095 = z.
Proof. intros H. change 4095 with (Z.ones 12). rewrite Z.land_ones by done. by apply Z.mod_small. Qed.

Lemma seg_origin_range membase d j : Z.land (seg_origin membase d j) 4095 = seg_origin membase d j.
Proof.
  unfold seg_origin. rewrite <- Z.land_assoc. done.
Qed.

(** A 12-bit register value of a read-write segment. *)
Lemma limit_bits x : 0 <= x < 256 ->
  Z.lor MMU_ACC_RW x = 1792 + x /\ Z.land (1792 + x) 3840 = MMU_ACC_RW /\
  Z.land (1792 + x) 255 = x /\ Z.land (1792 + x) 4095 = 1792 + x.
Proof.
  intros Hx. assert (H : forallb (fun n => let x := Z.of_nat n in (Z.lor MMU_ACC_RW x =? 1792 + x) &&
    (Z.land (1792 + x) 3840 =? MMU_ACC_RW) && (Z.land (1792 + x) 255 =? x) &&
    (Z.land (1792 + x) 4095 =? 1792 + x)) (seq 0 256) = true) by by vm_compute.
  rewrite forallb_forall in H. specialize (H (Z.to_nat x)). rewrite in_seq, Z2Nat.id in H by lia.
  specialize (H ltac:(lia)). rewrite !andb_true_iff, !Z.eqb_eq in H. tauto.
Qed.

Lemma seg_limit_eq hi j : exists x, 0 <= x < 256 /\ seg_limit hi j = 1792 + x /\
  x = (256 - seg_pages hi j) mod 256.
Proof.
  unfold seg_limit. exists ((256 - seg_pages hi j) mod 256). pose proof (Z.mod_pos_bound (256 - seg_pages hi j) 256).
  change 255 with (Z.ones 8). rewrite Z.land_ones by done. change (2 ^ 8) with 256. unfold PAGES_PER_SEG.
  split_and!; try lia. apply limit_bits. lia.
Qed.

Lemma seg_limit_range hi j : Z.land (seg_limit hi j) 4095 = seg_limit hi j.
Proof. destruct (seg_limit_eq hi j) as (x & Hx & -> & _). by apply limit_bits. Qed.

Lemma land_511 z : nz (Z.land z (Z.shiftl 1 PAGE_SHIFT - 1)) = false <-> z mod 512 = 0.
Proof.
  rewrite nz_false. change (Z.shiftl 1 PAGE_SHIFT - 1) with (Z.ones 9). by rewrite Z.land_ones by done.
Qed.

Definition switch_body (c : nat) (want : list bool) (s : nat) : M mmu unit :=
  u ← gets (fun m => uctxs m !!! c);
  when ((seg_valid u !!! s) && negb (want !!! s))
    (add_write (Z.shiftl (Z.of_nat s) SEG_SHIFT + MMU_SLR) MMU_ACC_INVAL);;
  upd_uctx c (fun u => u <| seg_valid ::= <[s := want !!! s]> |>).

(** The load part, after the checks. *)
Lemma load_ctx_ok membase m c mp rp : MI membase m -> map_ok mp -> (c < NCTX)%nat ->
  selected m = S c -> cur_ctx m = Z.of_nat c ->
  wp (modify (fun m => m <| wtable := [] |>);;
      want ← (if img_lo mp <? img_hi mp
          then load_segs membase (img_delta mp) (img_hi mp) (seg_range (img_lo mp) (img_hi mp)) (replicate NSEGS false)
          else mret (replicate NSEGS false));
      for_each (seq 0 NSEGS) (switch_body c want);;
      flush_writes;;
      upd_uctx c (fun u => u <| u_proc := Some rp |>);;
      upd_uctx c (fun u => u <| u_map := mp |>))
    (fun _ m' => MI membase m' /\ selected m' = S c /\ ctx_holds membase mp (hw m' !!! S c) /\
      (forall c', c' <> S c -> hw m' !!! c' = hw m !!! c')) m.
Proof.
  intros HM Hmp Hc Hsel Hcur. pose proof HM as [Hhw Hlen Hval Hhold _]. destruct (Hval c Hc) as [Hvl Hvi].
  wp_steps. set (m0 := m <| wtable := [] |>).
  assert (Hok0 : hw_ok m0) by done.
  assert (Hv0 : vregs m0 = hw m !!! S c) by (unfold vregs; cbn; by rewrite <- Hsel).
  assert (Hlv0 : length (vregs m0) = NSEGS) by by apply hw_ok_vregs.
  apply wp_mono with (fun want m1 => length want = NSEGS /\ uctxs m1 = uctxs m /\ hw_frame m0 m1 /\
    length (vregs m1) = NSEGS /\ (forall j, (j < NSEGS)%nat -> want !!! j = bool_decide (j ∈ want_segs mp)) /\
    (forall j, vregs m1 !!! j = if decide (j ∈ want_segs mp)
      then mk_regs (seg_origin membase (img_delta mp) j) (seg_limit (img_hi mp) j) else vregs m0 !!! j)).
  { pose proof (want_segs_lt mp) as Hwl. pose proof (want_segs_NoDup mp) as Hwn.
    destruct (img_lo mp <? img_hi mp) eqn:E.
    - assert (Hws : want_segs mp = seg_range (img_lo mp) (img_hi mp)) by (unfold want_segs; by rewrite E).
      rewrite Hws in *. eapply wp_mono; [apply load_segs_ok; try done|].
      { intros s Hs. specialize (Hwl s Hmp Hs). unfold NSEGS. lia. }
      intros want m1 (L1 & U1 & F1 & L2 & W1 & V1). split_and!; try done.
      + intros j Hj. rewrite W1, lookup_total_replicate_2, orb_false_r by done. done.
      + intros j. by rewrite V1, seg_origin_range, seg_limit_range.
    - assert (Hws : want_segs mp = []) by (unfold want_segs; by rewrite E). rewrite Hws. wp_steps.
      split_and!; try done. intros j Hj. by rewrite lookup_total_replicate_2. }
  intros want m1 (L1 & U1 & F1 & L2 & W1 & V1).
  assert (Hlu1 : length (uctxs m1) = NCTX) by by rewrite U1.
  wp_steps. eapply wp_mono; [apply (mark_loop_ok c (fun u s => (seg_valid u !!! s) && negb (want !!! s)) (fun s => want !!! s))|].
  { by intros u u' s ->. }
  { rewrite (hw_frame_selected _ _ F1), (hf_len _ _ F1), (proj1 Hok0). apply selected_lt. }
  { done. } { by rewrite Hlu1. } { by rewrite U1. } { apply NoDup_seq. }
  { intros s Hs%elem_of_seq. lia. }
  intros [] m2 [F2 (M1 & M2 & M3) O2 [S2 S2'] V2 R2]. wp_steps.
  assert (F02 : hw_frame m0 m2) by by transitivity m1.
  eapply wp_mono; [apply flush_writes_ok|].
  { rewrite (hw_frame_selected _ _ F02), (hf_len _ _ F02), (proj1 Hok0). apply selected_lt. }
  intros [] m3 (Rv & Rw & Ru & F3). unfold upd_uctx. wp_steps.
  assert (F03 : hw_frame m0 m3) by by transitivity m2.
  pose proof (hw_frame_selected _ _ F03) as Hs3. change (selected m0) with (selected m) in Hs3. rewrite Hsel in Hs3.
  assert (Hr3 : hw m3 !!! S c = vregs m2) by (rewrite <- Rv; unfold vregs; rewrite Rw, Hs3; done).
  assert (Hc3 : (c < length (uctxs m3))%nat) by (rewrite Ru, M1, Hlu1; done).
  set (f1 := fun u : uctx => u <| u_proc := Some rp |>). set (f2 := fun u : uctx => u <| u_map := mp |>).
  assert (Hu4 : alter f2 c (alter f1 c (uctxs m3)) !!! c = f2 (f1 (uctxs m2 !!! c))).
  { rewrite !tbl_alter_eq by (rewrite ?length_alter; done). by rewrite Ru. }
  assert (Hu4' : forall c', c' <> c -> alter f2 c (alter f1 c (uctxs m3)) !!! c' = uctxs m !!! c').
  { intros c' Hne. rewrite !tbl_alter_ne by done. rewrite Ru, O2, U1 by done. done. }
  assert (Hother : forall c', c' <> S c -> hw m3 !!! c' = hw m !!! c').
  { intros c' Hne. apply (hf_other _ _ F03). change (selected m0) with (selected m). congruence. }
  assert (Hctx : ctx_holds membase mp (vregs m2)).
  { intros j Hj. rewrite R2, V1, Hv0, U1, (W1 j Hj). destruct (decide (j ∈ want_segs mp)) as [Hw|Hw].
    - rewrite bool_decide_true by done. rewrite andb_false_r, decide_False; [done|]. by intros [_ ?].
    - rewrite bool_decide_false by done. rewrite andb_true_r.
      destruct (seg_valid (uctxs m !!! c) !!! j) eqn:Ev.
      + rewrite decide_True; [done|]. split; [apply elem_of_seq; lia|done].
      + rewrite decide_False; [by apply Hvi|]. by intros [_ ?]. }
  split_and!; [|done|by cbn; rewrite Hr3|done]. split.
  - split; [cbn; rewrite (hf_len _ _ F03); apply Hhw|]. intros c' Hc'. cbn.
    destruct (decide (c' = S c)) as [->|Hne]; [by rewrite Hr3|]. rewrite Hother by done. by apply Hhw.
  - cbn. by rewrite !length_alter, Ru, M1.
  - intros c' Hc'. cbn -[alter lookup_total]. destruct (decide (c' = c)) as [->|Hne].
    + rewrite Hu4. cbn -[lookup_total]. split; [done|]. intros j Hj. rewrite V2, decide_True by (apply elem_of_seq; lia).
      rewrite (W1 j Hj). intros Hf%bool_decide_eq_false. rewrite Hr3. specialize (Hctx j Hj).
      by rewrite decide_False in Hctx.
    + rewrite Hu4', Hother by congruence. by apply Hval.
  - intros c' p Hc'. cbn -[alter lookup_total]. destruct (decide (c' = c)) as [->|Hne].
    + rewrite Hu4. cbn. intros _. by rewrite Hr3.
    + rewrite Hu4', Hother by congruence. by apply Hhold.
  - right. change (0 <= cur_ctx m3 < 3 /\ selected m3 = S (Z.to_nat (cur_ctx m3))).
    assert (Hcur3 : cur_ctx m3 = Z.of_nat c) by (destruct (hf_sel _ _ F03) as (_ & _ & ->); exact Hcur).
    rewrite Hcur3, Hs3. unfold NCTX in Hc. split; [lia|]. by rewrite Nat2Z.id.
Qed.

(** ** What a loaded context lets the process reach *)

(** The addresses that the image of [mp] maps: from the start of its first
    128 KB segment to its end, rounded up to a page. *)
Definition mapped (mp : segs) (v : Z) : bool :=
  (img_lo mp <? img_hi mp) && (img_lo mp / 131072 * 131072 <=? v) && (v <? (img_hi mp + 511) / 512 * 512).

Lemma seg_pages_eq hi j : Z.of_nat j <= (hi - 1) / 131072 -> 0 < hi ->
  seg_pages hi j = (Z.min (hi - Z.of_nat j * 131072) 131072 + 511) / 512 /\
  1 <= seg_pages hi j <= 256.
Proof.
  intros Hj Hhi. unfold seg_pages, SEG_SHIFT, PAGE_SHIFT.
  rewrite !Z.shiftl_mul_pow2, Z.shiftr_div_pow2 by lia.
  change (1 * 2 ^ 17) with 131072. change (1 * 2 ^ 9) with 512. change (2 ^ 17) with 131072. change (2 ^ 9) with 512.
  set (e := hi - Z.of_nat j * 131072).
  assert (He : 1 <= e).
  { unfold e. assert (Z.of_nat j * 131072 <= (hi - 1) / 131072 * 131072) by lia. zlia. }
  replace (if 131072 <? e then 131072 else e) with (Z.min e 131072)
    by (destruct (Z.ltb_spec 131072 e); lia).
  replace (Z.min e 131072 + 512 - 1) with (Z.min e 131072 + 511) by lia. split; [done|].
  split; [apply Z.div_le_lower_bound; lia|].
  enough ((Z.min e 131072 + 511) / 512 < 257) by lia. apply Z.div_lt_upper_bound; lia.
Qed.

Lemma page_in_seg v hi : 0 <= v -> v / 131072 <= (hi - 1) / 131072 ->
  v mod 131072 / 512 < (Z.min (hi - v / 131072 * 131072) 131072 + 511) / 512 <-> v < (hi + 511) / 512 * 512.
Proof.
  intros Hv Hs. destruct (Z.min_spec (hi - v / 131072 * 131072) 131072) as [[? ->]|[? ->]].
  - zlia.
  - change ((131072 + 511) / 512) with 256. split; intros; [|]; zlia.
Qed.

Lemma origin_addr membase d j off : (d + membase) mod 512 = 0 ->
  (seg_origin membase d j * 512 + off) mod 2 ^ 21 = (Z.of_nat j * 131072 + off + d + membase) mod 2 ^ 21.
Proof.
  intros Hp. unfold seg_origin, SEG_SHIFT, PAGE_SHIFT. rewrite Z.shiftl_mul_pow2, Z.shiftr_div_pow2 by lia.
  change 4095 with (Z.ones 12). rewrite Z.land_ones by done.
  change (2 ^ 17) with 131072. change (2 ^ 9) with 512. change (2 ^ 12) with 4096. change (2 ^ 21) with 2097152.
  set (x := d + membase) in *.
  replace (Z.of_nat j * 131072 + d + membase) with (Z.of_nat j * 131072 + x) by lia.
  replace (Z.of_nat j * 131072 + off + d + membase) with (Z.of_nat j * 131072 + off + x) by lia.
  zlia.
Qed.

Lemma ctx_holds_access membase mp l v : map_ok mp -> membase mod 512 = 0 -> ctx_holds membase mp l ->
  0 <= v < 2 ^ 24 ->
  access l v = if mapped mp v then Some ((v + img_delta mp + membase) mod 2 ^ 21) else None.
Proof.
  intros Hmp Hmb Hl Hv. unfold access, MMU_SEGSIZE. set (j := Z.to_nat (v / 131072)).
  assert (Hvj : v / 131072 = Z.of_nat j) by (unfold j; rewrite Z2Nat.id; [done|apply Z.div_pos; lia]).
  assert (Hj : (j < NSEGS)%nat).
  { unfold NSEGS. enough (v / 131072 < 128) by lia. apply Z.div_lt_upper_bound; lia. }
  pose proof (img_lo_bound _ Hmp) as Hlo.
  specialize (Hl j Hj). destruct (decide (j ∈ want_segs mp)) as [Hw|Hw].
  - rewrite Hl. cbn [slr sor]. apply want_segs_spec in Hw as [Hlt Hw]; [|done].
    destruct (seg_pages_eq (img_hi mp) j) as [Hpe Hpr]; [lia|lia|].
    destruct (seg_limit_eq (img_hi mp) j) as (x & Hx & -> & Hxe). destruct (limit_bits x Hx) as (_ & -> & -> & _).
    rewrite Z.eqb_refl. assert (H256 : 256 - x = seg_pages (img_hi mp) j).
    { destruct (decide (seg_pages (img_hi mp) j = 256)) as [E|E]; [by rewrite Hxe, E|].
      rewrite Z.mod_small in Hxe by lia. lia. }
    rewrite H256, Hpe, origin_addr by (rewrite Z.add_mod, (mo_page _ Hmp), Hmb by done; done).
    assert (Hiff := page_in_seg v (img_hi mp) ltac:(lia) ltac:(lia)). rewrite Hvj in Hiff.
    unfold mapped. replace (img_lo mp <? img_hi mp) with true by (symmetry; by apply Z.ltb_lt).
    replace (img_lo mp / 131072 * 131072 <=? v) with true.
    2:{ symmetry. apply Z.leb_le. assert (img_lo mp / 131072 * 131072 <= Z.of_nat j * 131072) by lia. zlia. }
    cbn [andb]. destruct (Z.ltb_spec (v mod 131072 / 512) ((Z.min (img_hi mp - Z.of_nat j * 131072) 131072 + 511) / 512)) as [H1|H1].
    + rewrite (proj2 (Z.ltb_lt _ _)) by (by apply Hiff). do 2 f_equal. rewrite <- Hvj. zlia.
    + rewrite (proj2 (Z.ltb_ge _ _)); [done|]. enough (~ v < (img_hi mp + 511) / 512 * 512) by lia.
      rewrite <- Hiff. lia.
  - rewrite Hl. change (Z.land MMU_ACC_INVAL 3840 =? MMU_ACC_RW) with false. cbv iota.
    enough (mapped mp v = false) as -> by done. unfold mapped.
    destruct (Z.ltb_spec (img_lo mp) (img_hi mp)) as [Hlt|]; [|done]. cbn [andb]. apply andb_false_iff.
    rewrite Z.leb_gt, Z.ltb_ge.
    assert (~ (img_lo mp / 131072 <= Z.of_nat j <= (img_hi mp - 1) / 131072)) as Hn.
    { intros H. apply Hw. by apply want_segs_spec. }
    destruct (decide (img_lo mp / 131072 <= Z.of_nat j)); [right|left]; zlia.
Qed.

Lemma lisa_mmu_switch_ok membase m rp p_nr mp :
  MI membase m -> map_ok mp -> membase mod 512 = 0 ->
  wp (lisa_mmu_switch membase rp p_nr mp) (fun _ m' =>
    MI membase m' /\ selected m' = S (ctx_of p_nr) /\
    (forall v, 0 <= v < 2 ^ 24 -> access (hw m' !!! selected m') v =
       if mapped mp v then Some ((v + img_delta mp + membase) mod 2 ^ 21) else None) /\
    (forall c, c <> selected m' -> hw m' !!! c = hw m !!! c)) m.
Proof.
  intros HM Hmp Hmb. unfold lisa_mmu_switch. fold (ctx_of p_nr). set (c := ctx_of p_nr).
  pose proof (ctx_of_lt p_nr) as Hc. fold c in Hc. wp_steps.
  eapply wp_mono; [by apply (select_ctx_ok membase m c)|]. intros [] m1 (HM1 & Hs1 & Hc1 & Hu1 & Hh1).
  wp_steps. destruct (bool_decide _ && _) eqn:E.
  - apply andb_true_iff in E as [E1%bool_decide_eq_true E2%bool_decide_eq_true]. wp_steps.
    pose proof (mi_holds _ _ HM1 c rp Hc E1) as Hh. rewrite <- E2 in Hh. split_and!; try done.
    + intros v Hv. rewrite Hs1. by apply ctx_holds_access.
    + intros c' _. by rewrite Hh1.
  - wp_steps. eapply wp_mono; [by apply (scan_map_ok p_nr mp m1)|].
    intros [[[lo hi] delta] first] m2 [-> [= -> -> ->]].
    rewrite (proj2 (land_511 _)) by apply Hmp.
    replace (Z.shiftl USER_SEGS SEG_SHIFT <? img_hi mp) with false
      by (symmetry; apply Z.ltb_ge; apply (mo_high _ Hmp)).
    eapply wp_mono; [by apply (load_ctx_ok membase m1 c mp rp)|].
    intros [] m' (HM' & Hs' & Hh' & Ho'). split_and!; try done.
    + intros v Hv. rewrite Hs'. by apply ctx_holds_access.
    + intros c' Hne. rewrite Ho', Hh1 by congruence. done.
Qed.


(** ** Start-up *)
Lemma for_each_ext {S A} (l : list A) (f g : A -> M S unit) Q s :
  (forall x, f x = g x) -> wp (for_each l f) Q s -> wp (for_each l g) Q s.
Proof.
  intros Hfg. revert s. induction l as [|x l IH]; intros s; [done|]. cbn [for_each].
  intros H%wp_bind_inv. apply wp_bind. rewrite <- Hfg. eapply wp_mono; [exact H|]. intros [] s'. apply IH.
Qed.

Definition ctx_invalid (m : mmu) (c : nat) : Prop :=
  (forall j, (j < NSEGS)%nat -> slr (hw m !!! S c !!! j) = MMU_ACC_INVAL /\
     seg_valid (uctxs m !!! c) !!! j = false) /\ u_proc (uctxs m !!! c) = None.

(** The state at start-up: nothing known of the registers and latches. *)
Record boot_ok (m : mmu) : Prop := {
  bo_hw : hw_ok m;
  bo_len : length (uctxs m) = NCTX;
  bo_valid c : (c < NCTX)%nat -> length (seg_valid (uctxs m !!! c)) = NSEGS;
}.

Definition init_one (c : nat) : M mmu unit :=
  select_ctx (Z.of_nat c);;
  modify (fun m => m <| wtable := [] |>);;
  for_each (seq 0 NSEGS) (fun s =>
    add_write (Z.shiftl (Z.of_nat s) SEG_SHIFT + MMU_SLR) MMU_ACC_INVAL;;
    upd_uctx c (fun u => u <| seg_valid ::= <[s := false]> |>));;
  flush_writes;;
  upd_uctx c (fun u => u <| u_proc := None |>).

Lemma init_one_ok m c : boot_ok m -> (c < NCTX)%nat ->
  (cur_ctx m = -1 \/ 0 <= cur_ctx m < 3 /\ selected m = S (Z.to_nat (cur_ctx m))) ->
  wp (init_one c) (fun _ m' => boot_ok m' /\ cur_ctx m' = Z.of_nat c /\ selected m' = S c /\
    ctx_invalid m' c /\
    (forall c', c' <> c -> (c' < NCTX)%nat -> hw m' !!! S c' = hw m !!! S c' /\ uctxs m' !!! c' = uctxs m !!! c')) m.
Proof.
  intros [Hhw Hlen Hval] Hc Hcur. unfold init_one, select_ctx. wp_steps.
  apply wp_mono with (fun _ m1 => hw m1 = hw m /\ uctxs m1 = uctxs m /\ selected m1 = S c /\ cur_ctx m1 = Z.of_nat c).
  { destruct (Z.eqb_spec (Z.of_nat c) (cur_ctx m)) as [E|E]; wp_steps.
    - split_and!; try done. destruct Hcur as [?|[? ->]]; lia.
    - split_and!; try done. unfold NCTX in Hc. destruct c as [|[|[|c]]]; [done..|lia]. }
  intros [] m1 (Hh1 & Hu1 & Hs1 & Hc1). wp_steps. set (m2 := m1 <| wtable := [] |>).
  assert (Hok2 : hw_ok m2) by (unfold hw_ok; cbn; by rewrite Hh1).
  eapply wp_mono; [apply (for_each_ext _ (fun s => u ← gets (fun m => uctxs m !!! c); mark_body c true s false)); [done|];
    apply (mark_loop_ok c (fun _ _ => true) (fun _ => false)); try done|].
  { rewrite (proj1 Hok2). apply selected_lt. } { by apply hw_ok_vregs. }
  { cbn. by rewrite Hu1, Hlen. } { cbn. rewrite Hu1. by apply Hval. } { apply NoDup_seq. }
  { intros s Hs%elem_of_seq. lia. }
  intros [] m3 [F3 (M1 & M2 & M3) O3 _ V3 R3]. wp_steps.
  pose proof (hw_frame_selected _ _ F3) as Hs3. change (selected m2) with (selected m1) in Hs3. rewrite Hs1 in Hs3.
  eapply wp_mono; [apply flush_writes_ok|].
  { rewrite (hf_len _ _ F3), (proj1 Hok2). apply selected_lt. }
  intros [] m4 (Rv & Rw & Ru & F4). unfold upd_uctx. wp_steps.
  assert (F24 : hw_frame m2 m4) by by transitivity m3.
  pose proof (hw_frame_selected _ _ F24) as Hs4. change (selected m2) with (selected m1) in Hs4. rewrite Hs1 in Hs4.
  assert (Hr4 : hw m4 !!! S c = vregs m3) by (rewrite <- Rv; unfold vregs; rewrite Rw, Hs4; done).
  assert (Hc4 : (c < length (uctxs m4))%nat) by (rewrite Ru, M1; cbn; by rewrite Hu1, Hlen).
  assert (Hoth : forall c', c' <> S c -> hw m4 !!! c' = hw m !!! c').
  { intros c' Hne. rewrite (hf_other _ _ F24); [cbn; by rewrite Hh1|]. change (selected m2) with (selected m1). congruence. }
  assert (Hin : forall j, (j < NSEGS)%nat -> j ∈ seq 0 NSEGS) by (intros j Hj; apply elem_of_seq; lia).
  set (f := fun u : uctx => u <| u_proc := None |>).
  assert (Hua : alter f c (uctxs m4) !!! c = f (uctxs m3 !!! c)) by (rewrite tbl_alter_eq, Ru; done).
  assert (Hub : forall c', c' <> c -> alter f c (uctxs m4) !!! c' = uctxs m !!! c').
  { intros c' Hne. rewrite tbl_alter_ne, Ru, O3 by done. cbn. by rewrite Hu1. }
  split_and!.
  - split.
    + split; [cbn; rewrite (hf_len _ _ F24); apply Hok2|]. intros c' Hc'. cbn.
      destruct (decide (c' = S c)) as [->|Hne]; [by rewrite Hr4|]. rewrite Hoth by done. by apply Hhw.
    + cbn. rewrite length_alter, Ru, M1. cbn. by rewrite Hu1.
    + intros c' Hc'. cbn -[alter lookup_total]. destruct (decide (c' = c)) as [->|Hne]; [by rewrite Hua|].
      rewrite Hub by done. by apply Hval.
  - cbn. destruct (hf_sel _ _ F24) as (_ & _ & ->). done.
  - done.
  - unfold ctx_invalid. cbn -[alter lookup_total]. rewrite Hua, Hr4. split; [|done]. intros j Hj. cbn -[lookup_total].
    by rewrite R3, V3, decide_True, decide_True by (try split; by auto).
  - intros c' Hne Hc'. cbn -[alter lookup_total]. rewrite Hub by done. split; [|done]. apply Hoth. congruence.
Qed.

Lemma lisa_mmu_init_ok membase m : boot_ok m -> cur_ctx m = -1 ->
  wp lisa_mmu_init (fun _ m' => MI membase m' /\ selected m' = 1%nat /\
    forall c v, (1 <= c <= 3)%nat -> 0 <= v < 2 ^ 24 -> access (hw m' !!! c) v = None) m.
Proof.
  intros Hb Hcur. change lisa_mmu_init with (for_each [2; 1; 0]%nat init_one). cbn [for_each].
  wp_steps. eapply wp_mono; [apply (init_one_ok m 2); auto; unfold NCTX; lia|].
  intros [] m1 (Hb1 & Hc1 & Hs1 & Hi1 & _).
  wp_steps. eapply wp_mono; [apply (init_one_ok m1 1); [done|unfold NCTX; lia|right; rewrite Hc1, Hs1; split; [lia|done]]|].
  intros [] m2 (Hb2 & Hc2 & Hs2 & Hi2 & Ho2).
  wp_steps. eapply wp_mono; [apply (init_one_ok m2 0); [done|unfold NCTX; lia|right; rewrite Hc2, Hs2; split; [lia|done]]|].
  intros [] m3 (Hb3 & Hc3 & Hs3 & Hi3 & Ho3). wp_steps.
  assert (Hall : forall c, (c < NCTX)%nat -> ctx_invalid m3 c).
  { unfold NCTX. intros c Hc. destruct c as [|[|[|c]]]; [done| | |lia]; unfold ctx_invalid.
    - destruct (Ho3 1%nat) as [-> ->]; [lia|unfold NCTX; lia|]. exact Hi2.
    - destruct (Ho3 2%nat) as [-> ->]; [lia|unfold NCTX; lia|].
      destruct (Ho2 2%nat) as [-> ->]; [lia|unfold NCTX; lia|]. exact Hi1. }
  split_and!; [|done|].
  - split; try apply Hb3.
    + intros c Hc. split; [by apply Hb3|]. intros j Hj _. by apply (Hall c Hc).
    + intros c p Hc Hp. destruct (Hall c Hc) as [_ Hn]. congruence.
    + right. rewrite Hc3, Hs3. split; [lia|done].
  - intros c v Hc Hv. destruct c as [|c]; [lia|]. unfold access, MMU_SEGSIZE.
    assert (Hj : (Z.to_nat (v / 131072) < NSEGS)%nat).
    { unfold NSEGS. enough (v / 131072 < 128) by lia. apply Z.div_lt_upper_bound; lia. }
    destruct (Hall c ltac:(unfold NCTX; lia)) as [Hi _]. destruct (Hi _ Hj) as [-> _]. done.
Qed.

(** Start-up: from registers and latches in any state, [lisa_mmu_init]
    establishes the invariant with all of contexts 1 to 3 invalid (every user
    access is a bus error) and context 1 selected. *)
Theorem lisa_mmu_init_correct membase m : boot_ok m -> cur_ctx m = -1 ->
  wp lisa_mmu_init (fun _ m' => MI membase m' /\ selected m' = 1%nat /\
    forall c v, (1 <= c <= 3)%nat -> 0 <= v < 2 ^ 24 -> access (hw m' !!! c) v = None) m.
Proof. apply lisa_mmu_init_ok. Qed.

(** ** Isolation *)

(** The physical bytes an image occupies, in whole pages. *)
Definition img_start (membase : Z) (mp : segs) : Z := img_lo mp + img_delta mp + membase.
Definition img_end (membase : Z) (mp : segs) : Z := (img_hi mp + 511) / 512 * 512 + img_delta mp + membase.

(** Isolation: two images that start on a 128 KB boundary of their
    address space (as every program that MM execs does) and occupy disjoint
    physical pages of the 2 MB of memory can reach no common byte. *)
Theorem mmu_isolation membase mp1 mp2 l1 l2 v1 v2 p1 p2 :
  map_ok mp1 -> map_ok mp2 -> membase mod 512 = 0 ->
  ctx_holds membase mp1 l1 -> ctx_holds membase mp2 l2 ->
  img_lo mp1 mod 131072 = 0 -> img_lo mp2 mod 131072 = 0 ->
  0 <= img_start membase mp1 -> img_end membase mp1 <= 2 ^ 21 ->
  0 <= img_start membase mp2 -> img_end membase mp2 <= 2 ^ 21 ->
  img_end membase mp1 <= img_start membase mp2 \/ img_end membase mp2 <= img_start membase mp1 ->
  0 <= v1 < 2 ^ 24 -> 0 <= v2 < 2 ^ 24 ->
  access l1 v1 = Some p1 -> access l2 v2 = Some p2 -> p1 <> p2.
Proof.
  intros M1 M2 Hmb H1 H2 B1 B2 S1 E1 S2 E2 Hd V1 V2.
  rewrite (ctx_holds_access membase mp1 l1 v1), (ctx_holds_access membase mp2 l2 v2) by done.
  assert (Hin : forall mp v, img_lo mp mod 131072 = 0 -> mapped mp v = true ->
    img_lo mp <= v < (img_hi mp + 511) / 512 * 512).
  { intros mp v Hb. unfold mapped. rewrite !andb_true_iff, Z.leb_le, !Z.ltb_lt. intros [[_ Ha] Hb']. split; [|done].
    clear -Ha Hb. zlia. }
  destruct (mapped mp1 v1) eqn:D1; [|done]. destruct (mapped mp2 v2) eqn:D2; [|done].
  apply Hin in D1, D2; try done. unfold img_start, img_end in *.
  intros [= <-] [= <-]. rewrite !Z.mod_small by lia. lia.
Qed.

(** ** Concrete contexts *)
Definition mmu0 : mmu :=
  mk_mmu (replicate 4 (replicate NSEGS (mk_regs 0 MMU_ACC_INVAL))) true false
    (replicate 3 (mk_uctx (replicate NSEGS false) None segs0)) 0 [].

(** A program at virtual 0 with its stack above a gap, at physical click 1024. *)
Definition map_a : segs := mk_segs (mk_map 0 1024 16) (mk_map 16 1040 16) (mk_map 48 1072 8).
Definition map_b : segs := mk_segs (mk_map 0 2048 16) (mk_map 16 2064 16) (mk_map 48 2096 8).

Lemma mmu0_regs c j : (c < 4)%nat -> (j < NSEGS)%nat -> hw mmu0 !!! c !!! j = mk_regs 0 MMU_ACC_INVAL.
Proof.
  intros Hc Hj. unfold mmu0. cbn [hw]. rewrite lookup_total_replicate_2 by done.
  by rewrite lookup_total_replicate_2.
Qed.

Lemma mmu0_MI membase : MI membase mmu0.
Proof.
  assert (Hu : forall c, (c < 3)%nat -> uctxs mmu0 !!! c = mk_uctx (replicate NSEGS false) None segs0).
  { intros c Hc. unfold mmu0. cbn [uctxs]. by rewrite lookup_total_replicate_2. }
  split; try done.
  - split; [done|]. intros c Hc. unfold mmu0. cbn [hw]. rewrite lookup_total_replicate_2 by done. done.
  - intros c Hc. rewrite Hu by done. split; [done|]. intros j Hj _. rewrite mmu0_regs by (unfold NCTX in *; lia). done.
  - intros c p Hc. rewrite Hu by done. done.
  - right. split; [cbn; lia|done].
Qed.

Lemma map_ok_ex b : 0 <= b < 60000 -> b mod 2 = 0 ->
  map_ok (mk_segs (mk_map 0 b 16) (mk_map 16 (b + 16) 16) (mk_map 48 (b + 48) 8)).
Proof.
  intros Hb He. set (mp := mk_segs _ _ _).
  assert (Hn : nonempty mp = [seg_T mp; seg_D mp; seg_S mp]).
  { unfold nonempty. by rewrite !filter_cons_True, filter_nil by (cbn; lia). }
  assert (Hd : img_delta mp = (b + 48 - 48) * 256) by (unfold img_delta; by rewrite Hn).
  split.
  - intros m. rewrite !elem_of_cons, elem_of_nil. intros [->|[->|[->|[]]]]; cbn; lia.
  - intros m. rewrite Hn, Hd, !elem_of_cons, elem_of_nil. unfold seg_delta.
    intros [->|[->|[->|[]]]]; cbn -[Z.mul Z.sub]; lia.
  - rewrite Hd. zlia.
  - unfold img_hi. rewrite Hn. cbn. lia.
Qed.

Lemma map_a_ok : map_ok map_a.
Proof. apply (map_ok_ex 1024); [lia|done]. Qed.
Lemma map_b_ok : map_ok map_b.
Proof. apply (map_ok_ex 2048); [lia|done]. Qed.


Lemma mmu0_boot : boot_ok (mmu0 <| cur_ctx := -1 |>).
Proof.
  destruct (mmu0_MI 0) as [H1 H2 H3 _ _]. split; [exact H1|exact H2|]. intros c Hc. apply (H3 c Hc).
Qed.

Lemma lisa_mmu_init_correct_witness :
  wp lisa_mmu_init (fun _ m' => MI 0 m' /\ selected m' = 1%nat /\
    forall c v, (1 <= c <= 3)%nat -> 0 <= v < 2 ^ 24 -> access (hw m' !!! c) v = None)
    (mmu0 <| cur_ctx := -1 |>).
Proof. exact (lisa_mmu_init_correct 0 (mmu0 <| cur_ctx := -1 |>) mmu0_boot eq_refl). Defined.

(** The registers [ctx_holds] asks for. *)
Definition load_regs (membase : Z) (mp : segs) : list regs :=
  (fun j => if decide (j ∈ want_segs mp)
    then mk_regs (seg_origin membase (img_delta mp) j) (seg_limit (img_hi mp) j)
    else mk_regs 0 MMU_ACC_INVAL) <$> seq 0 NSEGS.

Lemma load_regs_holds membase mp : ctx_holds membase mp (load_regs membase mp).
Proof.
  intros j Hj. assert (E : load_regs membase mp !!! j = if decide (j ∈ want_segs mp)
    then mk_regs (seg_origin membase (img_delta mp) j) (seg_limit (img_hi mp) j) else mk_regs 0 MMU_ACC_INVAL).
  { apply list_lookup_total_correct. unfold load_regs. by rewrite list_lookup_fmap, lookup_seq_lt by done. }
  rewrite E. by case_decide.
Qed.

Lemma mmu_isolation_witness :
  access (load_regs 0 map_a) 100 = Some 262244 /\ access (load_regs 0 map_b) 100 = Some 524388 /\ 262244 <> 524388.
Proof.
  assert (A : access (load_regs 0 map_a) 100 = Some 262244) by (vm_compute; reflexivity).
  assert (B : access (load_regs 0 map_b) 100 = Some 524388) by (vm_compute; reflexivity).
  split; [exact A|split; [exact B|]].
  apply (mmu_isolation 0 map_a map_b (load_regs 0 map_a) (load_regs 0 map_b) 100 100); try exact A; try exact B;
    try exact map_a_ok; try exact map_b_ok; try apply load_regs_holds; try reflexivity; try lia;
    try (left; vm_compute; discriminate); vm_compute; discriminate.
Defined.
