(* ===== verification/VduFont.v ===== *)
(** * The console's font: [font8] of [src/kernel/stfnt.c]

    Eight bytes for each of the characters 0 to 127, one byte for each of its
    scan lines; [font16] of the same file is not used on the Lisa. *)

From S2P Require Import Prelude.

Definition font8 : list Z := [
  0; 0; 0; 0; 0; 0; 0; 0;
  24; 60; 102; 195; 231; 36; 36; 60;
  60; 36; 36; 231; 195; 102; 60; 24;
  24; 28; 246; 131; 131; 246; 28; 24;
  24; 56; 111; 193; 193; 111; 56; 24;
  60; 153; 195; 231; 195; 153; 60; 0;
  255; 255; 254; 252; 249; 243; 231; 0;
  231; 195; 153; 60; 153; 195; 231; 0;
  1; 3; 6; 140; 216; 112; 32; 0;
  126; 195; 211; 211; 219; 195; 195; 126;
  24; 60; 60; 60; 126; 16; 56; 16;
  24; 28; 22; 16; 16; 112; 240; 96;
  240; 192; 254; 216; 222; 24; 24; 0;
  240; 192; 223; 219; 255; 30; 27; 0;
  5; 5; 5; 13; 13; 25; 121; 113;
  160; 160; 160; 176; 176; 152; 158; 142;
  124; 198; 198; 0; 198; 198; 124; 0;
  6; 6; 6; 0; 6; 6; 6; 0;
  124; 6; 6; 124; 192; 192; 124; 0;
  124; 6; 6; 124; 6; 6; 124; 0;
  198; 198; 198; 124; 6; 6; 6; 0;
  124; 192; 192; 124; 6; 6; 124; 0;
  124; 192; 192; 124; 198; 198; 124; 0;
  124; 6; 6; 0; 6; 6; 6; 0;
  124; 198; 198; 124; 198; 198; 124; 0;
  124; 198; 198; 124; 6; 6; 124; 0;
  0; 0; 60; 6; 126; 102; 60; 0;
  120; 96; 120; 96; 126; 24; 30; 0;
  7; 15; 31; 24; 24; 16; 30; 23;
  240; 248; 236; 4; 4; 4; 60; 84;
  17; 11; 13; 6; 7; 46; 57; 56;
  4; 40; 216; 40; 208; 16; 224; 0;
  0; 0; 0; 0; 0; 0; 0; 0;
  24; 24; 24; 24; 24; 0; 24; 0;
  102; 102; 102; 0; 0; 0; 0; 0;
  0; 108; 254; 108; 108; 254; 108; 0;
  24; 62; 96; 60; 6; 124; 24; 0;
  0; 102; 108; 24; 48; 102; 70; 0;
  56; 108; 56; 112; 222; 204; 118; 0;
  24; 24; 24; 0; 0; 0; 0; 0;
  14; 28; 24; 24; 24; 28; 14; 0;
  112; 56; 24; 24; 24; 56; 112; 0;
  0; 102; 60; 255; 60; 102; 0; 0;
  0; 24; 24; 126; 24; 24; 0; 0;
  0; 0; 0; 0; 0; 48; 48; 96;
  0; 0; 0; 126; 0; 0; 0; 0;
  0; 0; 0; 0; 0; 24; 24; 0;
  2; 6; 12; 24; 48; 96; 64; 0;
  60; 102; 110; 118; 102; 102; 60; 0;
  24; 56; 24; 24; 24; 24; 126; 0;
  60; 102; 6; 12; 24; 48; 126; 0;
  126; 12; 24; 12; 6; 102; 60; 0;
  12; 28; 60; 108; 126; 12; 12; 0;
  126; 96; 124; 6; 6; 102; 60; 0;
  60; 96; 96; 124; 102; 102; 60; 0;
  126; 6; 12; 24; 48; 48; 48; 0;
  60; 102; 102; 60; 102; 102; 60; 0;
  60; 102; 102; 62; 6; 12; 56; 0;
  0; 24; 24; 0; 24; 24; 0; 0;
  0; 24; 24; 0; 24; 24; 48; 0;
  6; 12; 24; 48; 24; 12; 6; 0;
  0; 0; 126; 0; 0; 126; 0; 0;
  96; 48; 24; 12; 24; 48; 96; 0;
  60; 102; 6; 12; 24; 0; 24; 0;
  60; 102; 110; 106; 110; 96; 62; 0;
  24; 60; 102; 102; 126; 102; 102; 0;
  124; 102; 102; 124; 102; 102; 124; 0;
  60; 102; 96; 96; 96; 102; 60; 0;
  120; 108; 102; 102; 102; 108; 120; 0;
  126; 96; 96; 124; 96; 96; 126; 0;
  126; 96; 96; 124; 96; 96; 96; 0;
  62; 96; 96; 110; 102; 102; 62; 0;
  102; 102; 102; 126; 102; 102; 102; 0;
  60; 24; 24; 24; 24; 24; 60; 0;
  6; 6; 6; 6; 6; 102; 60; 0;
  102; 108; 120; 112; 120; 108; 102; 0;
  96; 96; 96; 96; 96; 96; 126; 0;
  198; 238; 254; 214; 198; 198; 198; 0;
  102; 118; 126; 126; 110; 102; 102; 0;
  60; 102; 102; 102; 102; 102; 60; 0;
  124; 102; 102; 124; 96; 96; 96; 0;
  60; 102; 102; 102; 118; 108; 54; 0;
  124; 102; 102; 124; 108; 102; 102; 0;
  60; 102; 96; 60; 6; 102; 60; 0;
  126; 24; 24; 24; 24; 24; 24; 0;
  102; 102; 102; 102; 102; 102; 62; 0;
  102; 102; 102; 102; 102; 60; 24; 0;
  198; 198; 198; 214; 254; 238; 198; 0;
  102; 102; 60; 24; 60; 102; 102; 0;
  102; 102; 102; 60; 24; 24; 24; 0;
  126; 6; 12; 24; 48; 96; 126; 0;
  30; 24; 24; 24; 24; 24; 30; 0;
  64; 96; 48; 24; 12; 6; 2; 0;
  120; 24; 24; 24; 24; 24; 120; 0;
  16; 56; 108; 198; 0; 0; 0; 0;
  0; 0; 0; 0; 0; 0; 254; 0;
  0; 192; 96; 48; 0; 0; 0; 0;
  0; 0; 60; 6; 62; 102; 62; 0;
  96; 96; 124; 102; 102; 102; 124; 0;
  0; 0; 60; 96; 96; 96; 60; 0;
  6; 6; 62; 102; 102; 102; 62; 0;
  0; 0; 60; 102; 126; 96; 60; 0;
  28; 48; 124; 48; 48; 48; 48; 0;
  0; 0; 62; 102; 102; 62; 6; 124;
  96; 96; 124; 102; 102; 102; 102; 0;
  24; 0; 56; 24; 24; 24; 60; 0;
  24; 0; 24; 24; 24; 24; 24; 112;
  96; 96; 102; 108; 120; 108; 102; 0;
  56; 24; 24; 24; 24; 24; 60; 0;
  0; 0; 236; 254; 214; 198; 198; 0;
  0; 0; 124; 102; 102; 102; 102; 0;
  0; 0; 60; 102; 102; 102; 60; 0;
  0; 0; 124; 102; 102; 102; 124; 96;
  0; 0; 62; 102; 102; 102; 62; 6;
  0; 0; 124; 102; 96; 96; 96; 0;
  0; 0; 62; 96; 60; 6; 124; 0;
  0; 24; 126; 24; 24; 24; 14; 0;
  0; 0; 102; 102; 102; 102; 62; 0;
  0; 0; 102; 102; 102; 60; 24; 0;
  0; 0; 198; 198; 214; 124; 108; 0;
  0; 0; 102; 60; 24; 60; 102; 0;
  0; 0; 102; 102; 102; 62; 6; 124;
  0; 0; 126; 12; 24; 48; 126; 0;
  14; 24; 24; 48; 24; 24; 14; 0;
  24; 24; 24; 24; 24; 24; 24; 24;
  112; 24; 24; 12; 24; 24; 112; 0;
  0; 96; 242; 158; 12; 0; 0; 0;
  0; 24; 24; 52; 52; 98; 126; 0].
