(* ===== verification/Vdu.v ===== *)
(** * The Lisa's screen as a terminal: [src/kernel/lisa/lisavdu.c]

    A bitmap of 720 by 364 pixels, one bit each, on which 40 rows of 90
    characters are painted, with a subset of the ANSI escape sequences. The
    video page is a function from offsets to bytes; [vram] of the code is its
    base. [mode] is [tty_struct\[CONSOLE\].tty_mode], which the driver reads for
    the treatment of tabs and newlines.

    A partial escape sequence is collected in [vbuf] through the pointer
    [next], here an index or nil. The pointer can stand just past the array;
    the byte that [vdu_out] then stores lands in the top byte of [next]
    itself, which neither addressing (24 bits) nor the comparisons of the
    pointer with the end of the array see, and the model drops it. *)

From S2P Require Import Prelude KProc KSystem VduFont.

Definition NCOL : Z := 90.
Definition NROW : Z := 40.
Definition BYT_LIN : Z := 90.
Definition LINC : nat := 9.
Definition FONT_LINES : nat := 8.
Definition BYTR : Z := 810.
Definition TAB_MASK : Z := 7.
Definition VBUF : nat := 20.
Definition VIDEO_PAGE : Z := 32768.

(** Terminal modes ([sgtty.h]) that the driver looks at. *)
Definition XTABS : Z := 3072.
Definition CRMOD : Z := 16.

(** [struct vduinfo], the driver's own variables, and the two that it sets for
    the keyboard ([keypad], [app_mode] of lisakbd.c). *)
Record vdu := mk_vdu {
  vram : Z -> Z;
  curs : Z;
  attr : Z;
  ccol : Z;
  crow : Z;
  savattr : Z;
  savccol : Z;
  savcrow : Z;
  vbuf : list Z;
  next : option nat;
  vdu_ready : bool;
  cursor_shown : bool;
  keypad : bool;
  app_mode : bool;
  video_latch : Z;
}.
#[export] Instance vdu_upd : Updatable vdu := fun v =>
  mk_vdu (vram v) (curs v) (attr v) (ccol v) (crow v) (savattr v) (savccol v) (savcrow v)
    (vbuf v) (next v) (vdu_ready v) (cursor_shown v) (keypad v) (app_mode v) (video_latch v).

(** Static data: all zero. *)
Definition vdu0 : vdu := mk_vdu (fun _ => 0) 0 0 0 0 0 0 0 (replicate VBUF 0) None false false false false 0.

(** ** Video memory *)

Definition poke (a b : Z) : M vdu unit :=
  modify (fun v => v <| vram ::= fun m x => if x =? a then b else m x |>).
Definition peek (a : Z) : M vdu Z := gets (fun v => vram v a).

(** [for (k = 0; k < n; k++) f(i + k * step)]. *)
Fixpoint for_step (n : nat) (i step : Z) (f : Z -> M vdu unit) : M vdu unit :=
  match n with
  | O => mret tt
  | S n' => f i;; for_step n' (i + step) step f
  end.

Definition cpyline (r1 r2 : Z) : M vdu unit :=
  modify (fun v => v <| vram ::= mem_copy (r1 * BYTR) (r2 * BYTR) BYTR |>).
Definition clrline (r : Z) : M vdu unit :=
  modify (fun v => v <| vram ::= mem_zero (r * BYTR) BYTR |>).

Definition cpychar (r1 c1 r2 c2 : Z) : M vdu unit :=
  let src := r1 * BYTR + c1 in
  let dst := r2 * BYTR + c2 in
  for_step LINC 0 BYT_LIN (fun d => b ← peek (src + d); poke (dst + d) b).

Definition clrchar (r c : Z) : M vdu unit :=
  for_step LINC (r * BYTR + c) BYT_LIN (fun p => poke p 0).

(** [clrarea]: both ends are part of the area. *)
Definition clrarea (r1 c1 r2 c2 : Z) : M vdu unit :=
  let c2 := c2 + 1 in
  let '(r2, c2) := if c2 =? NCOL then (r2 + 1, 0) else (r2, c2) in
  let first := (0 <? c1) && (r1 <? r2) in
  when first (for_step (Z.to_nat (Z.max 1 (NCOL - c1))) c1 1 (clrchar r1));;
  let '(r1, c1) := if first then (r1 + 1, 0) else (r1, c1) in
  for_step (Z.to_nat (r2 - r1)) r1 1 clrline;;
  let r1 := Z.max r1 r2 in
  for_step (Z.to_nat (c2 - c1)) c1 1 (clrchar r1).

Definition moveto (r c : Z) : M vdu unit :=
  if (r <? 0) || (NROW <=? r) || (c <? 0) || (NCOL <? c) then mret tt else
  modify (fun v => v <| crow := r |> <| ccol := c |>);;
  let c := if c =? NCOL then c - 1 else c in
  modify (fun v => v <| curs := r * BYTR + c |>).

Fixpoint poke_lines (p : Z) (bs : list Z) : M vdu unit :=
  match bs with
  | [] => mret tt
  | b :: bs' => poke p b;; poke_lines (p + BYT_LIN) bs'
  end.

(** The complement of a byte. *)
Definition flip (b : Z) : Z := u8 (Z.lnot b).

Definition paint (c : Z) : M vdu unit :=
  let fp := take FONT_LINES (drop (Z.to_nat (Z.shiftl (Z.land c 127) 3)) font8) in
  vp ← gets curs;
  a ← gets attr;
  if a =? 0 then poke_lines vp (fp ++ [0]) else poke_lines vp ((flip <$> fp) ++ [255]).

Definition vducursor (onoff : bool) : M vdu unit :=
  rdy ← gets vdu_ready;
  sh ← gets cursor_shown;
  if negb rdy || Bool.eqb onoff sh then mret tt else
  modify (fun v => v <| cursor_shown := onoff |>);;
  vp ← gets curs;
  for_step LINC vp BYT_LIN (fun p => b ← peek p; poke p (flip b)).

(** ** Escape sequences *)

(** [*v->next++ = c] and [*v->next = c]. *)
Definition store (c : Z) : M vdu unit :=
  n ← gets next;
  match n with
  | None => panic "nil next"
  | Some n => modify (fun v => v <| vbuf ::= <[n := c]> |>)
  end.
Definition advance : M vdu unit := modify (fun v => v <| next ::= fmap S |>).
Definition set_next (n : option nat) : M vdu unit := modify (fun v => v <| next := n |>).
Definition at_next (n : nat) : M vdu Z := gets (fun v => default 0 (vbuf v !! n)).

Definition is_digit (c : Z) : bool := (48 <=? c) && (c <=? 57).

(** The digits from index [n] on: the number, and the index of the first
    character that is none. *)
Fixpoint vdu_digits (fuel n : nat) (i : Z) : M vdu (Z * nat) :=
  match fuel with
  | O => nofuel
  | S fuel' =>
      c ← at_next n;
      if is_digit c then vdu_digits fuel' (S n) (s16 (s16 (i * 10) + (c - 48))) else mret (i, n)
  end.

Definition vduparam : M vdu Z :=
  nx ← gets next;
  match nx with
  | None => panic "nil next"
  | Some n =>
      c ← at_next n;
      '(i, n) ← (if is_digit c then vdu_digits (S VBUF) n 0 else mret (-1, n));
      c ← at_next n;
      set_next (Some (if c =? 59 then S n else n));;
      mret i
  end.

(** The loop of SGR; each turn but the last takes at least one digit. *)
Fixpoint vdu_sgr (fuel : nat) (j : Z) : M vdu unit :=
  match fuel with
  | O => nofuel
  | S fuel' =>
      (if j <=? 0 then modify (fun v => v <| attr := 0 |>)
       else when ((j =? 4) || (j =? 7)) (modify (fun v => v <| attr := 1 |>)));;
      j ← vduparam;
      if 0 <=? j then vdu_sgr fuel' j else mret tt
  end.

(** The clauses of [vduansi]'s switch; [i] and [j] are its variables. *)
Definition vdu_up (i : Z) : M vdu unit :=
  r ← gets crow; c ← gets ccol;
  moveto (Z.max 0 (s16 (r - i))) c.
Definition vdu_down (i : Z) : M vdu unit :=
  r ← gets crow; c ← gets ccol;
  moveto (let i := s16 (i + r) in if NROW <=? i then NROW - 1 else i) c.
Definition vdu_forward (i : Z) : M vdu unit :=
  r ← gets crow; c ← gets ccol;
  moveto r (let i := s16 (i + c) in if NCOL <=? i then NCOL - 1 else i).
Definition vdu_backward (i : Z) : M vdu unit :=
  r ← gets crow; c ← gets ccol;
  moveto r (Z.max 0 (s16 (c - i))).
Definition vdu_position (i : Z) : M vdu unit :=
  j ← vduparam;
  let j := if j <=? 0 then 1 else j in
  moveto (Z.min i NROW - 1) (Z.min j NCOL - 1).
Definition vdu_erase_display (j : Z) : M vdu unit :=
  r ← gets crow; c ← gets ccol;
  if j <=? 0 then clrarea r c (NROW - 1) (NCOL - 1)
  else if j =? 1 then clrarea 0 0 r c
  else when (j =? 2) (clrarea 0 0 (NROW - 1) (NCOL - 1)).
Definition vdu_erase_line (j : Z) : M vdu unit :=
  r ← gets crow; c ← gets ccol;
  if j <=? 0 then clrarea r c r (NCOL - 1)
  else if j =? 1 then clrarea r 0 r c
  else when (j =? 2) (clrarea r 0 r (NCOL - 1)).
Definition vdu_insert_line (i : Z) : M vdu unit :=
  r ← gets crow;
  let i := Z.min i (NROW - r) in
  for_step (Z.to_nat (NROW - r - i)) (NROW - 1) (-1) (fun j => cpyline (j - i) j);;
  for_step (Z.to_nat i) (r + i - 1) (-1) clrline.
Definition vdu_delete_line (i : Z) : M vdu unit :=
  r ← gets crow;
  let i := Z.min i (NROW - r) in
  for_step (Z.to_nat (NROW - i - r)) r 1 (fun j => cpyline (j + i) j);;
  for_step (Z.to_nat i) (NROW - i) 1 clrline.
Definition vdu_insert_char (i : Z) : M vdu unit :=
  r ← gets crow; c ← gets ccol;
  let i := Z.min i (NCOL - c) in
  let j := NCOL - c - i in
  for_step (Z.to_nat j) (j - 1) (-1) (fun j => cpychar r (c + j) r (c + j + i));;
  clrarea r c r (c + i - 1).
Definition vdu_delete_char (i : Z) : M vdu unit :=
  r ← gets crow; c ← gets ccol;
  let i := Z.min i (NCOL - c) in
  let j := NCOL - c - i in
  for_step (Z.to_nat j) (j - 1) (-1) (fun j => cpychar r (NCOL - 1 - j) r (NCOL - 1 - j - i));;
  clrarea r (NCOL - i) r (NCOL - 1).
(** DECCKM is [?1]. *)
Definition vdu_mode (c : Z) : M vdu unit :=
  nx ← gets next;
  match nx with
  | None => panic "nil next"
  | Some n =>
      c0 ← at_next n; c1 ← at_next (S n);
      when ((c0 =? 63) && (c1 =? 49)) (modify (fun v => v <| app_mode := c =? 108 |>))
  end.

(** The switch of [vduansi]. *)
Definition vdu_switch (c j : Z) : M vdu unit :=
  let i := if j <=? 0 then 1 else j in
  if c =? 65 then vdu_up i
  else if c =? 66 then vdu_down i
  else if c =? 67 then vdu_forward i
  else if c =? 68 then vdu_backward i
  else if (c =? 72) || (c =? 102) then vdu_position i
  else if c =? 74 then vdu_erase_display j
  else if c =? 75 then vdu_erase_line j
  else if c =? 109 then vdu_sgr VBUF j
  else if c =? 76 then vdu_insert_line i
  else if c =? 77 then vdu_delete_line i
  else if c =? 64 then vdu_insert_char i
  else if c =? 80 then vdu_delete_char i
  else when ((c =? 108) || (c =? 104)) (vdu_mode c).

Definition vduansi (c : Z) : M vdu unit :=
  nx ← gets next;
  match nx with
  | None => panic "nil next"
  | Some n =>
      if (VBUF <=? n)%nat then mret tt else
      store 0;;
      set_next (Some 1%nat);;
      j ← vduparam;
      vdu_switch c j
  end.

Section vdu_out.
Context (mode : Z).

(** ** Control characters *)

(** [do ... while (v->ccol & TAB_MASK)]; a tab stop is at most 8 turns away,
    if the turns get there. *)
Definition TAB_FUEL : nat := 8.
Fixpoint tab_loop (fuel : nat) (out : Z -> M vdu unit) : M vdu unit :=
  match fuel with
  | O => nofuel
  | S fuel' =>
      (if Z.land mode XTABS =? XTABS then out 32
       else r ← gets crow; c ← gets ccol; moveto r (c + 1));;
      c ← gets ccol;
      if tst c TAB_MASK then tab_loop fuel' out else mret tt
  end.

(** VT and FF, and the rest of LF. *)
Definition vdu_line_down : M vdu unit :=
  r ← gets crow; c ← gets ccol;
  if r =? NROW - 1 then
    for_step (Z.to_nat (NROW - 1)) 0 1 (fun i => cpyline (i + 1) i);;
    clrline (NROW - 1)
  else moveto (r + 1) c.

(** [out] is [vdu_out], for the blanks of a tab. *)
Definition vductrl (out : Z -> M vdu unit) (c : Z) : M vdu unit :=
  if c =? 7 then mret tt
  else if c =? 8 then r ← gets crow; c ← gets ccol; moveto r (c - 1)
  else if c =? 9 then tab_loop TAB_FUEL out
  else if c =? 10 then
    when (tst mode CRMOD) (r ← gets crow; moveto r 0);;
    vdu_line_down
  else if (c =? 11) || (c =? 12) then vdu_line_down
  else if c =? 13 then r ← gets crow; moveto r 0
  else if (c =? 24) || (c =? 26) then set_next None
  else when (c =? 27) (set_next (Some 0%nat)).

(** The switch of [vduesc], on the first character of the sequence. *)
Definition vdu_esc_switch (out : Z -> M vdu unit) (b : Z) : M vdu unit :=
  if b =? 56 then
    modify (fun v => v <| ccol := savccol v |>);;
    modify (fun v => v <| crow := savcrow v |>);;
    modify (fun v => v <| attr := savattr v |>);;
    r ← gets crow; c ← gets ccol;
    moveto r c
  else if b =? 55 then
    modify (fun v => v <| savccol := ccol v |>);;
    modify (fun v => v <| savcrow := crow v |>);;
    modify (fun v => v <| savattr := attr v |>)
  else if b =? 61 then modify (fun v => v <| keypad := true |>)
  else if b =? 62 then modify (fun v => v <| keypad := false |>)
  else if b =? 69 then vductrl out 13;; vductrl out 10
  else if b =? 68 then vductrl out 10
  else if b =? 77 then
    r ← gets crow; c ← gets ccol;
    if r =? 0 then
      for_step (Z.to_nat (NROW - 1)) (NROW - 1) (-1) (fun i => cpyline (i - 1) i);;
      clrline 0
    else moveto (r - 1) c
  else when (b =? 99)
    (modify (fun v => v <| attr := 0 |>);;
     moveto 0 0;;
     clrarea 0 0 (NROW - 1) (NCOL - 1);;
     modify (fun v => v <| keypad := false |>);;
     modify (fun v => v <| app_mode := false |>)).

Definition vduesc (out : Z -> M vdu unit) (c : Z) : M vdu unit :=
  nx ← gets next;
  match nx with
  | None => panic "nil next"
  | Some n =>
      if (VBUF - 1 <=? n)%nat then mret tt else
      store c;;
      b ← at_next 0;
      vdu_esc_switch out b
  end.

(** A character that is no control character. *)
Definition vdu_graphic (out : Z -> M vdu unit) (c : Z) : M vdu unit :=
  let c := if tst c 128 then Z.land c 31 else c in
  nx ← gets next;
  match nx with
  | None =>
      paint c;;
      r ← gets crow; k ← gets ccol;
      moveto r (k + 1)
  | Some n =>
      b0 ← at_next 0;
      if Nat.eqb n 0 && (c =? 91) then store c;; advance
      else if (48 <=? c) && (Nat.eqb n 0 || negb (b0 =? 91)) then vduesc out c;; set_next None
      else if 64 <=? c then vduansi c;; set_next None
      else store c;; when (n <? VBUF)%nat advance
  end.

(** [vdu_out] calls itself for the blanks of a tab; a blank is no control
    character, so that two levels are enough. *)
Fixpoint vdu_out_at (depth : nat) (c : Z) : M vdu unit :=
  match depth with
  | O => nofuel
  | S depth' =>
      rdy ← gets vdu_ready;
      if negb rdy then mret tt else
      vducursor false;;
      let c := Z.land c 255 in
      if c =? 127 then mret tt
      else if Z.land c 96 =? 0 then vductrl (vdu_out_at depth') c
      else vdu_graphic (vdu_out_at depth') c
  end.
Definition vdu_out (c : Z) : M vdu unit := vdu_out_at 2 c.

Fixpoint vdu_puts (cs : list Z) : M vdu unit :=
  match cs with
  | [] => mret tt
  | c :: cs' => vdu_out c;; vdu_puts cs'
  end.
End vdu_out.

Definition vdu_init (lisa_membase lisa_memend : Z) : M vdu unit :=
  let screen := lisa_memend - VIDEO_PAGE in
  modify (fun v => v <| video_latch := Z.shiftr (screen + lisa_membase) 15 |>);;
  modify (fun v => v <| vram ::= fun m p => if (NROW * BYTR <=? p) && (p <? VIDEO_PAGE) then 255 else m p |>);;
  modify (fun v => v <| attr := 0 |>);;
  set_next None;;
  moveto 0 0;;
  clrarea 0 0 (NROW - 1) (NCOL - 1);;
  modify (fun v => v <| vdu_ready := true |>);;
  vducursor true.
