(* ===== verification/VduDraw.v ===== *)
(** * Drawing on the bitmap, in terms of character cells

    A row of characters is 9 scan lines of 90 bytes; the byte of scan line [l]
    in the cell at row [r] and column [c] is at [addr r c l]. [draws m f] says
    that [m] changes nothing but the video memory, no byte outside of the 40
    rows, and the cells as [f] does. *)

From S2P Require Import Prelude KProc KSystem VduFont Vdu.

Definition pixels := Z -> Z -> Z -> Z.

Definition addr (r c l : Z) : Z := r * BYTR + l * BYT_LIN + c.
Definition on_screen (r c l : Z) : Prop := 0 <= r < NROW /\ 0 <= c < NCOL /\ 0 <= l < 9.
#[global] Hint Unfold on_screen addr NROW NCOL BYTR BYT_LIN : screen.

(** Arithmetic on rows, columns and addresses. *)
Ltac screen := repeat autounfold with screen in *; lia.

Lemma addr_inj r c l r' c' l' :
  on_screen r c l -> on_screen r' c' l' -> addr r c l = addr r' c' l' -> r = r' /\ c = c' /\ l = l'.
Proof. intros ???. repeat split; screen. Qed.

Definition shown (m : Z -> Z) (g : pixels) : Prop :=
  forall r c l, on_screen r c l -> m (addr r c l) = g r c l.

(** Equal on the screen. *)
Definition same (g g' : pixels) : Prop := forall r c l, on_screen r c l -> g r c l = g' r c l.

Definition draws (m : M vdu unit) (f : pixels -> pixels) : Prop := forall v g,
  shown (vram v) g ->
  exists mem, m v = Done tt (v <| vram := mem |>) /\ shown mem (f g) /\
    (forall a, a < 0 \/ NROW * BYTR <= a -> mem a = vram v a).

Lemma draws_ret : draws (mret tt) (fun g => g).
Proof. intros [] g H. by eexists. Qed.

Lemma draws_seq m1 m2 f1 f2 :
  draws m1 f1 -> draws m2 f2 -> draws (m1;; m2) (fun g => f2 (f1 g)).
Proof.
  intros H1 H2 v g Hg. destruct (H1 v g Hg) as (m & E1 & Hs & Ho).
  set (v1 := v <| vram := m |>).
  destruct (H2 v1 (f1 g) Hs) as (m' & E2 & Hs' & Ho').
  exists m'. split_and!; [|done|].
  - unfold mbind, M_bind. rewrite E1. exact E2.
  - intros a Ha. by rewrite Ho', <-Ho.
Qed.

Lemma draws_ext m f f' : draws m f -> (forall g, same (f g) (f' g)) -> draws m f'.
Proof.
  intros H E v g Hg. destruct (H v g Hg) as (mem & Em & Hs & Ho). exists mem.
  split_and!; [done| |done]. intros r c l Hr. by rewrite Hs, E.
Qed.

Lemma draws_when b m f : draws m f -> draws (when b m) (fun g => if b then f g else g).
Proof. destruct b; [done|]. intros _. apply draws_ret. Qed.

(** A loop whose turns draw, with what has been drawn after [k] turns. *)
Lemma draws_for n i step body (F : nat -> pixels -> pixels) :
  (forall g, same g (F 0%nat g)) ->
  (forall k, (k < n)%nat -> exists f, draws (body (i + Z.of_nat k * step)) f /\
     forall g, same (f (F k g)) (F (S k) g)) ->
  draws (for_step n i step body) (F n).
Proof.
  intros H0 HS.
  cut (forall d k, (k + d = n)%nat -> forall v g, shown (vram v) (F k g) ->
    exists mem, for_step d (i + Z.of_nat k * step) step body v = Done tt (v <| vram := mem |>) /\
      shown mem (F n g) /\ (forall a, a < 0 \/ NROW * BYTR <= a -> mem a = vram v a)).
  { intros H v g Hg. specialize (H n 0%nat eq_refl v g).
    rewrite Z.add_0_r in H. apply H. intros r c l Hr. by rewrite <-H0, Hg. }
  induction d as [|d IH]; intros k Hk v g Hg; simpl.
  - replace n with k by lia. exists (vram v). by destruct v.
  - destruct (HS k ltac:(lia)) as (f & Hd & Hf).
    destruct (Hd v _ Hg) as (m & E1 & Hs & Ho).
    set (v1 := v <| vram := m |>).
    destruct (IH (S k) ltac:(lia) v1 g) as (m' & E2 & Hs' & Ho').
    { intros r c l Hr. change (m (addr r c l) = F (S k) g r c l). by rewrite Hs, Hf. }
    exists m'. split_and!; [|done|].
    + unfold mbind, M_bind. rewrite E1.
      by replace (i + Z.of_nat k * step + step) with (i + Z.of_nat (S k) * step) by lia.
    + intros a Ha. by rewrite Ho', <-Ho.
Qed.

(** ** Rows and cells *)

Ltac cases :=
  repeat match goal with
  | |- context [?a =? ?b] => destruct (Z.eqb_spec a b)
  | |- context [?a <=? ?b] => destruct (Z.leb_spec a b)
  | |- context [?a <? ?b] => destruct (Z.ltb_spec a b)
  end; simpl in *; try (exfalso; screen); try (f_equal; screen); try done.

Definition row_copied (r1 r2 : Z) (g : pixels) : pixels := fun r c l => if r =? r2 then g r1 c l else g r c l.
Definition row_blank (r0 : Z) (g : pixels) : pixels := fun r c l => if r =? r0 then 0 else g r c l.
Definition cell_set (r0 c0 : Z) (b : Z -> Z) (g : pixels) : pixels :=
  fun r c l => if (r =? r0) && (c =? c0) then b l else g r c l.
Definition cell_copied (r1 c1 r2 c2 : Z) (g : pixels) : pixels :=
  fun r c l => if (r =? r2) && (c =? c2) then g r1 c1 l else g r c l.

Lemma draws_cpyline r1 r2 : 0 <= r1 < NROW -> 0 <= r2 < NROW -> draws (cpyline r1 r2) (row_copied r1 r2).
Proof.
  intros H1 H2 v g Hg. eexists. split_and!; [reflexivity| |].
  - intros r c l Hr. unfold row_copied, mem_copy. destruct (Z.eqb_spec r r2) as [->|Hne].
    + rewrite <-Hg by screen. cases.
    + rewrite <-Hg by done. cases.
  - intros a Ha. unfold mem_copy. cases.
Qed.

Lemma draws_clrline r0 : 0 <= r0 < NROW -> draws (clrline r0) (row_blank r0).
Proof.
  intros H0 v g Hg. eexists. split_and!; [reflexivity| |].
  - intros r c l Hr. unfold row_blank, mem_zero. rewrite <-Hg by done. cases.
  - intros a Ha. unfold mem_zero. cases.
Qed.

(** A loop over the scan lines of a cell. *)
Lemma draws_poke r0 c0 k b : on_screen r0 c0 k ->
  draws (poke (addr r0 c0 k) b) (fun g r c l => if (r =? r0) && (c =? c0) && (l =? k) then b else g r c l).
Proof.
  intros H0 v g Hg. eexists. split_and!; [reflexivity| |].
  - intros r c l Hr. pose proof (addr_inj r c l r0 c0 k Hr H0). rewrite <-Hg by done. cases; naive_solver.
  - intros a Ha. cbv beta. cases.
Qed.

Lemma draws_clrchar r0 c0 : 0 <= r0 < NROW -> 0 <= c0 < NCOL ->
  draws (clrchar r0 c0) (cell_set r0 c0 (fun _ => 0)).
Proof.
  intros Hr0 Hc0. eapply draws_ext.
  - apply (draws_for _ _ _ _ (fun k g r c l =>
      if (r =? r0) && (c =? c0) && (l <? Z.of_nat k) then 0 else g r c l)).
    + intros g r c l Hr. cases.
    + intros k Hk. unfold LINC in Hk. eexists. split.
      * replace (r0 * BYTR + c0 + Z.of_nat k * BYT_LIN) with (addr r0 c0 (Z.of_nat k)) by (unfold addr; lia).
        apply draws_poke. screen.
      * intros g r c l Hr. cbv beta. cases.
  - intros g r c l Hr. unfold LINC, cell_set. cases.
Qed.

(** The cursor: a cell inverted. *)
Lemma draws_flip_cell r0 c0 : 0 <= r0 < NROW -> 0 <= c0 < NCOL ->
  draws (for_step LINC (r0 * BYTR + c0) BYT_LIN (fun p => b ← peek p; poke p (flip b)))
    (fun g => cell_set r0 c0 (fun l => flip (g r0 c0 l)) g).
Proof.
  intros Hr0 Hc0. eapply draws_ext.
  - apply (draws_for _ _ _ _ (fun k g r c l =>
      if (r =? r0) && (c =? c0) && (l <? Z.of_nat k) then flip (g r0 c0 l) else g r c l)).
    + intros g r c l Hr. cases.
    + intros k Hk. unfold LINC in Hk.
      exists (fun g r c l => if (r =? r0) && (c =? c0) && (l =? Z.of_nat k) then flip (g r0 c0 l) else g r c l).
      split.
      * intros v g Hg. replace (r0 * BYTR + c0 + Z.of_nat k * BYT_LIN) with (addr r0 c0 (Z.of_nat k)) by (unfold addr; lia).
        destruct (draws_poke r0 c0 (Z.of_nat k) (flip (vram v (addr r0 c0 (Z.of_nat k)))) ltac:(screen) v g Hg)
          as (m & E & Hs & Ho). exists m. split_and!; [exact E| |done].
        intros r c l Hr. rewrite (Hs r c l Hr), Hg by screen. cases. by subst.
      * intros g r c l Hr. cbv beta. cases; subst; cases.
  - intros g r c l Hr. unfold LINC, cell_set. cases.
Qed.

Lemma draws_cpychar r1 c1 r2 c2 : 0 <= r1 < NROW -> 0 <= c1 < NCOL -> 0 <= r2 < NROW -> 0 <= c2 < NCOL ->
  (r1, c1) <> (r2, c2) -> draws (cpychar r1 c1 r2 c2) (cell_copied r1 c1 r2 c2).
Proof.
  intros ???? Hne.
  eapply draws_ext.
  - apply (draws_for _ _ _ _ (fun k g r c l =>
      if (r =? r2) && (c =? c2) && (l <? Z.of_nat k) then g r1 c1 l else g r c l)).
    + intros g r c l Hr. cases.
    + intros k Hk. unfold LINC in Hk.
      exists (fun g r c l => if (r =? r2) && (c =? c2) && (l =? Z.of_nat k) then g r1 c1 (Z.of_nat k) else g r c l).
      split.
      * intros v g Hg. destruct (draws_poke r2 c2 (Z.of_nat k) (vram v (addr r1 c1 (Z.of_nat k))) ltac:(screen) v g Hg)
          as (m & E & Hs & Ho). exists m. split_and!; [|intros r c l Hr; rewrite (Hs r c l Hr), Hg by screen; done|done].
        rewrite <-E. unfold mbind, M_bind, peek, gets.
        replace (r1 * BYTR + c1 + (0 + Z.of_nat k * BYT_LIN)) with (addr r1 c1 (Z.of_nat k)) by (unfold addr; lia).
        by replace (r2 * BYTR + c2 + (0 + Z.of_nat k * BYT_LIN)) with (addr r2 c2 (Z.of_nat k)) by (unfold addr; lia).
      * intros g r c l Hr. cbv beta. cases.
  - intros g r c l Hr. unfold LINC, cell_copied. cases.
Qed.

Lemma draws_poke_lines r0 c0 bs : 0 <= r0 < NROW -> 0 <= c0 < NCOL -> length bs = 9%nat ->
  draws (poke_lines (r0 * BYTR + c0) bs) (cell_set r0 c0 (fun l => bs !!! Z.to_nat l)).
Proof.
  intros Hr Hc Hlen. do 10 (destruct bs as [|? bs]; try discriminate Hlen).
  eapply draws_ext.
  { cbn [poke_lines].
    replace (r0 * BYTR + c0) with (addr r0 c0 0) by (unfold addr; lia).
    repeat match goal with |- context [addr r0 c0 ?k + BYT_LIN] =>
      replace (addr r0 c0 k + BYT_LIN) with (addr r0 c0 (k + 1)) by (unfold addr; lia);
      let k' := eval cbv in (k + 1) in change (k + 1) with k' end.
    repeat (eapply draws_seq; [apply draws_poke; screen|]). apply draws_ret. }
  intros g r c l Hr0. cbv beta. unfold cell_set.
  assert (l = 0 \/ l = 1 \/ l = 2 \/ l = 3 \/ l = 4 \/ l = 5 \/ l = 6 \/ l = 7 \/ l = 8) as Hl by screen.
  destruct (r =? r0), (c =? c0); cbn; repeat case_match; try done; naive_solver.
Qed.

(** ** Loops over rows and columns *)

Definition rows_from (lo hi k : Z) (g : pixels) : pixels :=
  fun r c l => if (lo <=? r) && (r <? hi) then g (r + k) c l else g r c l.
Definition rows_blank (lo hi : Z) (g : pixels) : pixels :=
  fun r c l => if (lo <=? r) && (r <? hi) then 0 else g r c l.
Definition cells_from (r0 lo hi k : Z) (g : pixels) : pixels :=
  fun r c l => if (r =? r0) && (lo <=? c) && (c <? hi) then g r (c + k) l else g r c l.
Definition cells_blank (r0 lo hi : Z) (g : pixels) : pixels :=
  fun r c l => if (r =? r0) && (lo <=? c) && (c <? hi) then 0 else g r c l.

(** [draw_loop F lem]: a loop has drawn [F k] after [k] turns, by the lemma about
    one turn. *)
Ltac draw_loop F lem :=
  eapply draws_ext;
    [apply (draws_for _ _ _ _ F);
      [intros ??? l ?; cases
      |intros ? ?; eexists; split; [apply lem; try screen; intros [=]; screen
      |unfold row_copied, row_blank, cell_set, cell_copied; intros ??? l ?; cbv beta; cases]]
    |unfold rows_from, rows_blank, cells_from, cells_blank; intros ??? l ?; cbv beta; cases].

Lemma draws_rows_up n i k : 0 <= i -> 1 <= k -> i + Z.of_nat n + k <= NROW ->
  draws (for_step n i 1 (fun j => cpyline (j + k) j)) (rows_from i (i + Z.of_nat n) k).
Proof.
  intros Hi Hk Hn.
  draw_loop (fun (m : nat) (g : pixels) r c l =>
    if (i <=? r) && (r <? i + Z.of_nat m) then g (r + k) c l else g r c l) draws_cpyline.
Qed.

Lemma draws_rows_down n i k : i < NROW -> 1 <= k -> k <= i - Z.of_nat n + 1 ->
  draws (for_step n i (-1) (fun j => cpyline (j - k) j)) (rows_from (i - Z.of_nat n + 1) (i + 1) (- k)).
Proof.
  intros Hi Hk Hn.
  draw_loop (fun (m : nat) (g : pixels) r c l =>
    if (i - Z.of_nat m + 1 <=? r) && (r <? i + 1) then g (r + - k) c l else g r c l) draws_cpyline.
Qed.

Lemma draws_blank_up n i : 0 <= i -> i + Z.of_nat n <= NROW ->
  draws (for_step n i 1 clrline) (rows_blank i (i + Z.of_nat n)).
Proof.
  intros Hi Hn.
  draw_loop (fun (m : nat) (g : pixels) r c l =>
    if (i <=? r) && (r <? i + Z.of_nat m) then 0 else g r c l) draws_clrline.
Qed.

Lemma draws_blank_down n i : i < NROW -> 0 <= i - Z.of_nat n + 1 ->
  draws (for_step n i (-1) clrline) (rows_blank (i - Z.of_nat n + 1) (i + 1)).
Proof.
  intros Hi Hn.
  draw_loop (fun (m : nat) (g : pixels) r c l =>
    if (i - Z.of_nat m + 1 <=? r) && (r <? i + 1) then 0 else g r c l) draws_clrline.
Qed.

Lemma draws_cells_blank n r0 c0 : 0 <= r0 < NROW -> 0 <= c0 -> c0 + Z.of_nat n <= NCOL ->
  draws (for_step n c0 1 (clrchar r0)) (cells_blank r0 c0 (c0 + Z.of_nat n)).
Proof.
  intros Hr Hc Hn.
  draw_loop (fun (m : nat) (g : pixels) r c l =>
    if (r =? r0) && (c0 <=? c) && (c <? c0 + Z.of_nat m) then 0 else g r c l) draws_clrchar.
Qed.

Lemma draws_cells_right n r0 c0 j k : 0 <= r0 < NROW -> 0 <= c0 -> 1 <= k ->
  c0 + j + k < NCOL -> 0 <= j - Z.of_nat n + 1 ->
  draws (for_step n j (-1) (fun j => cpychar r0 (c0 + j) r0 (c0 + j + k)))
    (cells_from r0 (c0 + j + k - Z.of_nat n + 1) (c0 + j + k + 1) (- k)).
Proof.
  intros Hr Hc Hk Hj Hn.
  draw_loop (fun (m : nat) (g : pixels) r c l =>
    if (r =? r0) && (c0 + j + k - Z.of_nat m + 1 <=? c) && (c <? c0 + j + k + 1) then g r (c + - k) l else g r c l)
    draws_cpychar.
Qed.

Lemma draws_cells_left n r0 j k : 0 <= r0 < NROW -> 1 <= k ->
  j + k < NCOL -> 0 <= j - Z.of_nat n + 1 ->
  draws (for_step n j (-1) (fun j => cpychar r0 (NCOL - 1 - j) r0 (NCOL - 1 - j - k)))
    (cells_from r0 (NCOL - 1 - j - k) (NCOL - 1 - j - k + Z.of_nat n) k).
Proof.
  intros Hr Hk Hj Hn.
  draw_loop (fun (m : nat) (g : pixels) r c l =>
    if (r =? r0) && (NCOL - 1 - j - k <=? c) && (c <? NCOL - 1 - j - k + Z.of_nat m) then g r (c + k) l else g r c l)
    draws_cpychar.
Qed.

Ltac area_cases :=
  repeat match goal with
  | |- context [?a =? ?b] => destruct (Z.eqb_spec a b)
  | |- context [?a <=? ?b] => destruct (Z.leb_spec a b)
  | |- context [?a <? ?b] => destruct (Z.ltb_spec a b)
  end; cbn [andb]; try reflexivity; exfalso; screen.

(** ** [clrarea]: everything from one cell to the other, in reading order *)
Definition area_blank (r1 c1 r2 c2 : Z) (g : pixels) : pixels :=
  fun r c l => if (r1 * NCOL + c1 <=? r * NCOL + c) && (r * NCOL + c <=? r2 * NCOL + c2) then 0 else g r c l.

Lemma draws_row_tail r c1 c2 : 0 <= r -> 0 <= c1 -> c2 <= NCOL -> (r < NROW \/ c2 <= c1) ->
  draws (for_step (Z.to_nat (c2 - c1)) c1 1 (clrchar r)) (cells_blank r c1 c2).
Proof.
  intros Hr Hc1 Hc2 Hor. destruct (decide (c2 <= c1)) as [Hd|Hd].
  - replace (Z.to_nat (c2 - c1)) with 0%nat by lia.
    eapply draws_ext; [apply draws_ret|]. intros g r' c l ?. unfold cells_blank. cases.
  - eapply draws_ext; [apply draws_cells_blank; screen|].
    intros g r' c l ?. unfold cells_blank. cases.
Qed.

Lemma draws_clrarea r1 c1 r2 c2 : 0 <= r1 -> r2 < NROW -> 0 <= c1 < NCOL -> 0 <= c2 < NCOL ->
  r1 * NCOL + c1 <= r2 * NCOL + c2 -> draws (clrarea r1 c1 r2 c2) (area_blank r1 c1 r2 c2).
Proof.
  intros Hr1 Hr2 Hc1 Hc2 Hle. unfold clrarea.
  assert (exists R C, (if c2 + 1 =? NCOL then (r2 + 1, 0) else (r2, c2 + 1)) = (R, C) /\
    R * NCOL + C = r2 * NCOL + c2 + 1 /\ 0 <= C < NCOL) as (R & C & -> & HRC & HC).
  { destruct (Z.eqb_spec (c2 + 1) NCOL); eexists _, _; split_and!; try done; screen. }
  destruct (((0 <? c1) && (r1 <? R))%bool) eqn:Hf; cbv beta iota zeta; unfold when.
  - apply andb_true_iff in Hf as [? ?]. rewrite Z.ltb_lt in *.
    eapply draws_ext.
    { eapply draws_seq; [apply draws_cells_blank; screen|].
      eapply draws_seq; [apply draws_blank_up; screen|].
      apply draws_row_tail; screen. }
    intros g r c l ?. unfold cells_blank, rows_blank, area_blank. area_cases.
  - eapply draws_ext.
    { eapply draws_seq; [apply draws_ret|].
      eapply draws_seq; [apply draws_blank_up; screen|].
      apply draws_row_tail; screen. }
    intros g r c l ?. apply andb_false_iff in Hf. rewrite !Z.ltb_ge in Hf.
    unfold cells_blank, rows_blank, area_blank. area_cases.
Qed.
