(* ===== verification/VduTerm.v ===== *)
(** * The screen as a character terminal

    What the driver is for, without bitmap and escape sequences: a terminal of
    40 rows of 90 cells that carries out commands ([tcmd]); [encode] is the
    sequence of bytes by which a program asks for a command. Sending the bytes
    of commands to [vdu_out] does to the screen what the commands say.

    A cursor past the last column (column 90, after a character has been
    painted in column 89) is excluded for the commands that erase from the
    cursor: the driver then erases outside of the row. *)

From S2P Require Import Prelude KProc KSystem VduFont Vdu VduDraw.

Inductive tcmd :=
| TPrint (c : Z) | TBack | TNewline | TReturn | TIndex | TReverseIndex
| TUp (n : Z) | TDown (n : Z) | TForward (n : Z) | TBackward (n : Z) | TPosition (r c : Z)
| TEraseDisplay (j : Z) | TEraseLine (j : Z)
| TInsertLine (n : Z) | TDeleteLine (n : Z) | TInsertChar (n : Z) | TDeleteChar (n : Z)
| TReverse (b : bool) | TSave | TRestore | TReset | TKeypad (b : bool).

(** ** What the commands do *)

Record term := mk_term {
  cells : pixels;
  trow : Z;
  tcol : Z;
  tattr : Z;
  tsaved : Z * Z * Z;
  tkeypad : bool;
  tapp : bool;
}.
#[export] Instance term_upd : Updatable term := fun t =>
  mk_term (cells t) (trow t) (tcol t) (tattr t) (tsaved t) (tkeypad t) (tapp t).

(** The scan lines of a character; the ninth is blank. *)
Definition glyph (a c l : Z) : Z :=
  let b := if l <? 8 then font8 !!! Z.to_nat (8 * c + l) else 0 in
  if a =? 0 then b else flip b.

Definition goto (r c : Z) (t : term) : term :=
  if (0 <=? r) && (r <? NROW) && (0 <=? c) && (c <=? NCOL) then t <| trow := r |> <| tcol := c |> else t.

Definition index (t : term) : term :=
  if trow t =? NROW - 1 then t <| cells ::= fun g => rows_blank 39 40 (rows_from 0 39 1 g) |>
  else goto (trow t + 1) (tcol t) t.

Definition tstep (mode : Z) (cmd : tcmd) (t : term) : term :=
  let r := trow t in
  let c := tcol t in
  match cmd with
  | TPrint ch => goto r (c + 1) (t <| cells ::= cell_set r (Z.min c 89) (glyph (tattr t) ch) |>)
  | TBack => goto r (c - 1) t
  | TNewline => index (if tst mode CRMOD then goto r 0 t else t)
  | TReturn => goto r 0 t
  | TIndex => index (if tst mode CRMOD then goto r 0 t else t)
  | TReverseIndex =>
      if r =? 0 then t <| cells ::= fun g => rows_blank 0 1 (rows_from 1 40 (-1) g) |> else goto (r - 1) c t
  | TUp n => goto (Z.max 0 (r - n)) c t
  | TDown n => goto (Z.min 39 (r + n)) c t
  | TForward n => goto r (Z.min 89 (c + n)) t
  | TBackward n => goto r (Z.max 0 (c - n)) t
  | TPosition i j => goto (Z.min i 40 - 1) (Z.min j 90 - 1) t
  | TEraseDisplay j =>
      t <| cells ::= if j =? 0 then area_blank r c 39 89 else if j =? 1 then area_blank 0 0 r c else area_blank 0 0 39 89 |>
  | TEraseLine j =>
      t <| cells ::= if j =? 0 then area_blank r c r 89 else if j =? 1 then area_blank r 0 r c else area_blank r 0 r 89 |>
  | TInsertLine n => let n := Z.min n (40 - r) in
      t <| cells ::= fun g => rows_blank r (r + n) (rows_from (r + n) 40 (- n) g) |>
  | TDeleteLine n => let n := Z.min n (40 - r) in
      t <| cells ::= fun g => rows_blank (40 - n) 40 (rows_from r (40 - n) n g) |>
  | TInsertChar n => let n := Z.min n (90 - c) in
      t <| cells ::= fun g => cells_blank r c (c + n) (cells_from r (c + n) 90 (- n) g) |>
  | TDeleteChar n => let n := Z.min n (90 - c) in
      t <| cells ::= fun g => cells_blank r (90 - n) 90 (cells_from r c (90 - n) n g) |>
  | TReverse b => t <| tattr := if b then 1 else 0 |>
  | TSave => t <| tsaved := (r, c, tattr t) |>
  | TRestore => let '(r, c, a) := tsaved t in goto r c (t <| tattr := a |>)
  | TReset => goto 0 0 (t <| tattr := 0 |> <| cells ::= area_blank 0 0 39 89 |> <| tkeypad := false |> <| tapp := false |>)
  | TKeypad b => t <| tkeypad := b |>
  end.

Definition trun (mode : Z) (cmds : list tcmd) (t : term) : term := foldl (fun t cmd => tstep mode cmd t) t cmds.

(** ** The bytes of a command *)

(** A number in decimal; five digits are enough. *)
Fixpoint dec_at (fuel : nat) (n : Z) : list Z :=
  match fuel with
  | O => []
  | S fuel' => if n <? 10 then [48 + n] else dec_at fuel' (n / 10) ++ [48 + n mod 10]
  end.
Definition dec (n : Z) : list Z := dec_at 5 n.

Definition csi (ps : list Z) (c : Z) : list Z := 27 :: 91 :: ps ++ [c].

Definition encode (cmd : tcmd) : list Z :=
  match cmd with
  | TPrint c => [c]
  | TBack => [8]
  | TNewline => [10]
  | TReturn => [13]
  | TIndex => [27; 68]
  | TReverseIndex => [27; 77]
  | TUp n => csi (dec n) 65
  | TDown n => csi (dec n) 66
  | TForward n => csi (dec n) 67
  | TBackward n => csi (dec n) 68
  | TPosition r c => csi (dec r ++ 59 :: dec c) 72
  | TEraseDisplay j => csi (dec j) 74
  | TEraseLine j => csi (dec j) 75
  | TInsertLine n => csi (dec n) 76
  | TDeleteLine n => csi (dec n) 77
  | TInsertChar n => csi (dec n) 64
  | TDeleteChar n => csi (dec n) 80
  | TReverse b => csi (dec (if b then 7 else 0)) 109
  | TSave => [27; 55]
  | TRestore => [27; 56]
  | TReset => [27; 99]
  | TKeypad b => [27; if b then 61 else 62]
  end.

(** Numbers that are in range, characters of the font, and no erasing with
    the cursor past the last column. *)
Definition allowed (cmd : tcmd) (t : term) : bool :=
  let num n := (1 <=? n) && (n <=? 30000) in
  match cmd with
  | TPrint c => (32 <=? c) && (c <? 127)
  | TUp n | TDown n | TForward n | TBackward n | TInsertLine n | TDeleteLine n => num n
  | TPosition r c => num r && num c
  | TEraseDisplay j | TEraseLine j => (0 <=? j) && (j <=? 2) && (tcol t <? NCOL)
  | TInsertChar n | TDeleteChar n => num n && (tcol t <? NCOL)
  | _ => true
  end.

Fixpoint all_allowed (mode : Z) (cmds : list tcmd) (t : term) : bool :=
  match cmds with
  | [] => true
  | cmd :: cmds' => allowed cmd t && all_allowed mode cmds' (tstep mode cmd t)
  end.

(** ** The driver's state as a terminal

    The page below the rows of characters stays black. *)

Record view (v : vdu) (t : term) : Prop := {
  view_ready : vdu_ready v = true;
  view_hidden : cursor_shown v = false;
  view_cells : shown (vram v) (cells t);
  view_row : crow v = trow t /\ 0 <= trow t < NROW;
  view_col : ccol v = tcol t /\ 0 <= tcol t <= NCOL;
  view_curs : curs v = trow t * BYTR + Z.min (tcol t) 89;
  view_attr : attr v = tattr t;
  view_saved : (savcrow v, savccol v, savattr v) = tsaved t;
  view_saved_ok : 0 <= savcrow v < NROW /\ 0 <= savccol v <= NCOL;
  view_vbuf : length (vbuf v) = VBUF;
  view_keypad : keypad v = tkeypad t;
  view_app : app_mode v = tapp t;
  view_black : forall a, NROW * BYTR <= a < VIDEO_PAGE -> vram v a = 255;
}.

Definition kept (v v' : vdu) : Prop := next v' = next v /\ vbuf v' = vbuf v.
