(* ===== verification/VduOk.v ===== *)
(** * The screen driver is a character terminal

    Simulation proofs: each clause of the driver's switches does to the
    terminal of VduTerm what its command says, and the bytes of a command lead
    to its clause. Then the theorems about whole sequences of commands, and
    about the tab, which does not always end. *)

From S2P Require Import Prelude KProc KSystem VduFont Vdu VduDraw VduTerm.

Definition acts (v : vdu) (t : term) (m : M vdu unit) (t' : term) : Prop :=
  wp m (fun _ v' => view v' t' /\ kept v v') v.

Lemma vkept_refl v : kept v v.
Proof. done. Qed.
Lemma vkept_trans v1 v2 v3 : kept v1 v2 -> kept v2 v3 -> kept v1 v3.
Proof. intros [] []. split; congruence. Qed.

Lemma acts_ret v t : view v t -> acts v t (mret tt) t.
Proof. by split. Qed.

Lemma acts_seq v t t1 t2 m1 m2 :
  acts v t m1 t1 -> (forall v1, view v1 t1 -> acts v1 t1 m2 t2) -> acts v t (m1;; m2) t2.
Proof.
  intros H1 H2. apply wp_bind. eapply wp_mono; [exact H1|]. intros _ v1 [Hv Hk].
  eapply wp_mono; [by apply H2|]. intros _ v2 [? ?]. split; [done|]. by eapply vkept_trans.
Qed.

Lemma acts_draw v t m f : draws m f -> view v t -> acts v t m (t <| cells ::= f |>).
Proof.
  intros Hd Hv. destruct (Hd v (cells t)) as (mem & E & Hs & Ho); [by destruct Hv|].
  pose proof (view_black _ _ Hv). unfold acts, wp. rewrite E. destruct Hv. split; [|done]. split; try done.
  intros a Ha. change (mem a = 255). rewrite Ho by lia. auto.
Qed.

Lemma acts_moveto v t r c : view v t -> acts v t (moveto r c) (goto r c t).
Proof.
  intros Hv. pose proof Hv as []. unfold acts, moveto, goto.
  destruct ((r <? 0) || (NROW <=? r) || (c <? 0) || (NCOL <? c)) eqn:Hb.
  - rewrite !orb_true_iff in Hb.
    replace ((0 <=? r) && (r <? NROW) && (0 <=? c) && (c <=? NCOL)) with false by (symmetry; cases).
    by apply wp_ret.
  - rewrite !orb_false_iff, !Z.ltb_ge, Z.leb_gt in Hb. destruct Hb as [[[? ?] ?] ?].
    replace ((0 <=? r) && (r <? NROW) && (0 <=? c) && (c <=? NCOL)) with true by (symmetry; cases).
    wp_steps. split; [|done]. split; try done; cbn; try (split; [done|screen]).
    cases.
Qed.

Lemma acts_set v t t' f : view (f v) t' -> kept v (f v) -> acts v t (modify f) t'.
Proof. by split. Qed.

Lemma acts_gets {A} v t t' (f : vdu -> A) k : acts v t (k (f v)) t' -> acts v t (gets f ≫= k) t'.
Proof. done. Qed.

(** The driver's position is the terminal's. *)
Ltac at_cursor Hv :=
  apply acts_gets; try apply acts_gets;
  let Er := fresh "Er" in let Ec := fresh "Ec" in
  destruct (view_row _ _ Hv) as [Er Hrow]; destruct (view_col _ _ Hv) as [Ec Hcol];
  rewrite ?Er, ?Ec; clear Er Ec.

Section clauses.
Context (v : vdu) (t : term) (Hv : view v t).

Lemma acts_up n : 1 <= n <= 30000 -> acts v t (vdu_up n) (goto (Z.max 0 (trow t - n)) (tcol t) t).
Proof.
  intros Hn. unfold vdu_up. at_cursor Hv. rewrite s16_id by screen. by apply acts_moveto.
Qed.

Lemma acts_down n : 1 <= n <= 30000 -> acts v t (vdu_down n) (goto (Z.min 39 (trow t + n)) (tcol t) t).
Proof.
  intros Hn. unfold vdu_down. at_cursor Hv. cbv zeta. rewrite s16_id by screen.
  replace (if NROW <=? n + trow t then NROW - 1 else n + trow t) with (Z.min 39 (trow t + n)) by cases.
  by apply acts_moveto.
Qed.

Lemma acts_forward n : 1 <= n <= 30000 -> acts v t (vdu_forward n) (goto (trow t) (Z.min 89 (tcol t + n)) t).
Proof.
  intros Hn. unfold vdu_forward. at_cursor Hv. cbv zeta. rewrite s16_id by screen.
  replace (if NCOL <=? n + tcol t then NCOL - 1 else n + tcol t) with (Z.min 89 (tcol t + n)) by cases.
  by apply acts_moveto.
Qed.

Lemma acts_backward n : 1 <= n <= 30000 -> acts v t (vdu_backward n) (goto (trow t) (Z.max 0 (tcol t - n)) t).
Proof.
  intros Hn. unfold vdu_backward. at_cursor Hv. rewrite s16_id by screen. by apply acts_moveto.
Qed.

Lemma acts_erase_display mode j : allowed (TEraseDisplay j) t = true ->
  acts v t (vdu_erase_display j) (tstep mode (TEraseDisplay j) t).
Proof.
  intros Ha. simpl in Ha. unfold vdu_erase_display. at_cursor Hv.
  cbn [tstep]. destruct (Z.leb_spec j 0), (Z.eqb_spec j 0), (Z.eqb_spec j 1), (Z.eqb_spec j 2);
    try (exfalso; cbn in Ha; lia); apply acts_draw; try done; try apply draws_when; apply draws_clrarea; screen.
Qed.

Lemma acts_erase_line mode j : allowed (TEraseLine j) t = true ->
  acts v t (vdu_erase_line j) (tstep mode (TEraseLine j) t).
Proof.
  intros Ha. simpl in Ha. unfold vdu_erase_line. at_cursor Hv.
  cbn [tstep]. destruct (Z.leb_spec j 0), (Z.eqb_spec j 0), (Z.eqb_spec j 1), (Z.eqb_spec j 2);
    try (exfalso; cbn in Ha; lia); apply acts_draw; try done; try apply draws_when; apply draws_clrarea; screen.
Qed.

Lemma acts_insert_line mode n : 1 <= n <= 30000 ->
  acts v t (vdu_insert_line n) (tstep mode (TInsertLine n) t).
Proof.
  intros Hn. unfold vdu_insert_line. at_cursor Hv. apply acts_draw; [|done].
  eapply draws_ext; [eapply draws_seq; [apply draws_rows_down|apply draws_blank_down]; screen|].
  intros g r c l ?. unfold rows_blank, rows_from. cases.
Qed.

Lemma acts_delete_line mode n : 1 <= n <= 30000 ->
  acts v t (vdu_delete_line n) (tstep mode (TDeleteLine n) t).
Proof.
  intros Hn. unfold vdu_delete_line. at_cursor Hv. apply acts_draw; [|done].
  eapply draws_ext; [eapply draws_seq; [apply draws_rows_up|apply draws_blank_up]; screen|].
  intros g r c l ?. unfold rows_blank, rows_from. cases.
Qed.

Lemma acts_insert_char mode n : 1 <= n <= 30000 -> tcol t < NCOL ->
  acts v t (vdu_insert_char n) (tstep mode (TInsertChar n) t).
Proof.
  intros Hn Hc. unfold vdu_insert_char. at_cursor Hv. apply acts_draw; [|done].
  eapply draws_ext; [eapply draws_seq; [apply draws_cells_right|apply draws_clrarea]; screen|].
  intros g r c l ?. unfold area_blank, cells_blank, cells_from. cases.
Qed.

Lemma acts_delete_char mode n : 1 <= n <= 30000 -> tcol t < NCOL ->
  acts v t (vdu_delete_char n) (tstep mode (TDeleteChar n) t).
Proof.
  intros Hn Hc. unfold vdu_delete_char. at_cursor Hv. apply acts_draw; [|done].
  eapply draws_ext; [eapply draws_seq; [apply draws_cells_left|apply draws_clrarea]; screen|].
  intros g r c l ?. unfold area_blank, cells_blank, cells_from. cases.
Qed.
End clauses.

Section controls.
Context (mode : Z) (v : vdu) (t : term) (Hv : view v t).

Lemma acts_line_down : acts v t vdu_line_down (index t).
Proof.
  unfold vdu_line_down, index. at_cursor Hv. destruct (trow t =? NROW - 1).
  - apply acts_draw; [|done].
    eapply draws_ext; [eapply draws_seq; [apply draws_rows_up|apply draws_clrline]; screen|].
    intros g r c l ?. unfold rows_blank, rows_from, row_blank. cases.
  - by apply acts_moveto.
Qed.
End controls.

Lemma acts_newline mode v t : view v t ->
  acts v t (when (tst mode CRMOD) (r ← gets crow; moveto r 0);; vdu_line_down)
    (index (if tst mode CRMOD then goto (trow t) 0 t else t)).
Proof.
  intros Hv. eapply acts_seq; [|intros; by apply acts_line_down].
  destruct (tst mode CRMOD); simpl; [|by apply acts_ret].
  at_cursor Hv. by apply acts_moveto.
Qed.

Lemma acts_reverse_index mode v t : view v t ->
  acts v t (r ← gets crow; c ← gets ccol;
        if r =? 0 then
          for_step (Z.to_nat (NROW - 1)) (NROW - 1) (-1) (fun i => cpyline (i - 1) i);;
          clrline 0
        else moveto (r - 1) c) (tstep mode TReverseIndex t).
Proof.
  intros Hv. at_cursor Hv. cbn [tstep]. destruct (trow t =? 0).
  - apply acts_draw; [|done].
    eapply draws_ext; [eapply draws_seq; [apply draws_rows_down|apply draws_clrline]; screen|].
    intros g r c l ?. unfold rows_blank, rows_from, row_blank. cases.
  - by apply acts_moveto.
Qed.

(** ** Printing *)

Lemma font8_length : length font8 = 1024%nat.
Proof. reflexivity. Qed.

Lemma glyph_lines c : 32 <= c < 127 ->
  take FONT_LINES (drop (Z.to_nat (Z.shiftl (Z.land c 127) 3)) font8) =
  (fun l => font8 !!! Z.to_nat (8 * c + Z.of_nat l)) <$> seq 0 8.
Proof.
  intros Hc. change 127 with (Z.ones 7). rewrite Z.land_ones by lia. rewrite Z.mod_small by lia.
  rewrite Z.shiftl_mul_pow2 by lia.
  apply list_eq_same_length with 8%nat; [done| |].
  - rewrite length_take, length_drop, font8_length. unfold FONT_LINES. lia.
  - intros k x y Hk. rewrite lookup_take_lt, lookup_drop by (unfold FONT_LINES; lia).
    rewrite list_lookup_fmap, lookup_seq_lt by lia. simpl. intros Hx [= <-].
    replace (Z.to_nat (8 * c + Z.of_nat k)) with (Z.to_nat (c * 2 ^ 3) + k)%nat by lia.
    symmetry. by apply list_lookup_total_correct.
Qed.

Lemma draws_glyph r0 c0 bs a c : 0 <= r0 < NROW -> 0 <= c0 < NCOL -> length bs = 9%nat ->
  (forall l, 0 <= l < 9 -> bs !!! Z.to_nat l = glyph a c l) ->
  draws (poke_lines (r0 * BYTR + c0) bs) (cell_set r0 c0 (glyph a c)).
Proof.
  intros Hr Hc Hl Hb. eapply draws_ext; [by apply draws_poke_lines|].
  intros g r c' l [? [? ?]]. unfold cell_set. by rewrite Hb.
Qed.

Lemma acts_paint v t c : view v t -> 32 <= c < 127 ->
  acts v t (paint c) (t <| cells ::= cell_set (trow t) (Z.min (tcol t) 89) (glyph (tattr t) c) |>).
Proof.
  intros Hv Hc. unfold paint. rewrite glyph_lines by done. apply acts_gets, acts_gets.
  rewrite (view_curs _ _ Hv), (view_attr _ _ Hv).
  pose proof (view_row _ _ Hv). pose proof (view_col _ _ Hv).
  assert (forall l, 0 <= l < 9 -> l = 0 \/ l = 1 \/ l = 2 \/ l = 3 \/ l = 4 \/ l = 5 \/ l = 6 \/ l = 7 \/ l = 8) as Hl by lia.
  destruct (tattr t =? 0) eqn:Ha; (apply acts_draw; [|done]); apply draws_glyph; try done; try screen;
    intros l [-> | [-> | [-> | [-> | [-> | [-> | [-> | [-> | ->]]]]]]]]%Hl; unfold glyph; rewrite Ha; reflexivity.
Qed.

(** ** Parameters of an escape sequence *)

Fixpoint digits (i : Z) (ps : list Z) : Z * list Z :=
  match ps with
  | c :: ps' => if is_digit c then digits (s16 (s16 (i * 10) + (c - 48))) ps' else (i, ps)
  | [] => (i, [])
  end.
Definition skip_semicolon (ps : list Z) : list Z :=
  match ps with c :: ps' => if c =? 59 then ps' else ps | [] => [] end.
Definition param (ps : list Z) : Z * list Z :=
  let '(i, rest) := match ps with
                    | c :: _ => if is_digit c then digits 0 ps else (-1, ps)
                    | [] => (-1, [])
                    end in
  (i, skip_semicolon rest).

(** What is left to parse from index [n] on, up to the final nul. *)
Definition pending (v : vdu) (n : nat) (ps : list Z) : Prop :=
  exists rest, drop n (vbuf v) = ps ++ 0 :: rest.

Lemma pending_at v n ps : pending v n ps -> default 0 (vbuf v !! n) = hd 0 ps.
Proof.
  intros [rest E]. replace n with (n + 0)%nat by lia. rewrite <-lookup_drop, E. by destruct ps.
Qed.

Lemma pending_tail v n c ps : pending v n (c :: ps) -> pending v (S n) ps.
Proof.
  intros [rest E]. exists rest. replace (S n) with (n + 1)%nat by lia.
  by rewrite <-drop_drop, E.
Qed.

Lemma vdu_digits_spec fuel v ps : forall n i, pending v n ps -> (length ps < fuel)%nat ->
  exists n', vdu_digits fuel n i v = Done (fst (digits i ps), n') v /\ pending v n' (snd (digits i ps)).
Proof.
  revert ps. induction fuel as [|fuel IH]; [lia|]. intros ps n i Hp Hf.
  cbn [vdu_digits]. unfold at_next, mbind, M_bind, gets. rewrite (pending_at _ _ _ Hp).
  destruct ps as [|c ps]; [by exists n|]. cbn [hd digits]. destruct (is_digit c).
  - apply IH; [by eapply pending_tail|simpl in Hf; lia].
  - by exists n.
Qed.

Lemma bind_run {A B} (m : M vdu A) (k : A -> M vdu B) v a v' : m v = Done a v' -> (m ≫= k) v = k a v'.
Proof. intros E. unfold mbind, M_bind. by rewrite E. Qed.

(** The part of [vduparam] before the semicolon. *)
Lemma vdu_number_spec v n ps : pending v n ps -> (length ps <= VBUF)%nat ->
  exists n1 i rest, (if is_digit (default 0 (vbuf v !! n)) then vdu_digits (S VBUF) n 0 else mret (-1, n)) v
      = Done (i, n1) v /\ pending v n1 rest /\ param ps = (i, skip_semicolon rest).
Proof.
  intros Hp Hl. rewrite (pending_at _ _ _ Hp). unfold param.
  destruct ps as [|c ps]; [by exists n, (-1), []|]. cbn [hd].
  destruct (is_digit c); [|by exists n, (-1), (c :: ps)].
  destruct (vdu_digits_spec (S VBUF) v (c :: ps) n 0) as (n1 & E & Hp1); [done|lia|].
  exists n1, (fst (digits 0 (c :: ps))), (snd (digits 0 (c :: ps))). split_and!; [done|done|].
  by destruct (digits 0 (c :: ps)).
Qed.

Lemma vduparam_spec v n ps : next v = Some n -> pending v n ps -> (length ps <= VBUF)%nat ->
  exists n', vduparam v = Done (fst (param ps)) (v <| next := Some n' |>) /\ pending v n' (snd (param ps)).
Proof.
  intros Hn Hp Hl. destruct (vdu_number_spec v n ps Hp Hl) as (n1 & i & rest & E & Hp1 & ->).
  unfold vduparam. rewrite (bind_run _ _ v (Some n) v) by (unfold gets; by rewrite Hn).
  rewrite (bind_run (at_next n) _ v _ v) by done. rewrite (bind_run _ _ v _ v E).
  rewrite (bind_run (at_next n1) _ v _ v) by done. rewrite (pending_at _ _ _ Hp1).
  eexists. split; [reflexivity|].
  destruct rest as [|c rest]; [done|]. simpl.
  destruct (c =? 59); [by eapply pending_tail|done].
Qed.

(** Decimal numbers read back. *)
Lemma digits_dec fuel : forall n rest, 0 <= n < 10 ^ Z.of_nat fuel -> n < 32768 ->
  digits 0 (dec_at fuel n ++ rest) = digits n rest.
Proof.
  induction fuel as [|fuel IH]; intros n rest Hn Hn'.
  - change (10 ^ Z.of_nat 0) with 1 in Hn. by replace n with 0 by lia.
  - rewrite Nat2Z.inj_succ, Z.pow_succ_r in Hn by lia. simpl.
    destruct (Z.ltb_spec n 10).
    + simpl. replace (is_digit (48 + n)) with true by (unfold is_digit; cases).
      f_equal. rewrite Z.mul_0_l, (s16_id 0), s16_id by lia. lia.
    + rewrite <-app_assoc. rewrite IH by zlia. simpl.
      replace (is_digit (48 + n mod 10)) with true by (unfold is_digit; cases; zlia).
      f_equal. rewrite (s16_id (n / 10 * 10)), s16_id by zlia. zlia.
Qed.

Lemma dec_digits fuel : forall n, 0 <= n -> Forall (fun c => is_digit c = true) (dec_at fuel n).
Proof.
  induction fuel as [|fuel IH]; intros n Hn; simpl; [done|].
  destruct (Z.ltb_spec n 10).
  - constructor; [unfold is_digit; cases|done].
  - apply Forall_app. split; [apply IH; zlia|].
    constructor; [unfold is_digit; cases; zlia|done].
Qed.

Lemma dec_length fuel n : (length (dec_at fuel n) <= fuel)%nat.
Proof.
  revert n. induction fuel as [|fuel IH]; intros n; simpl; [lia|].
  destruct (n <? 10); simpl; [lia|]. rewrite length_app. simpl. specialize (IH (n / 10)). lia.
Qed.

Lemma dec_nonempty n : exists c ps, dec n = c :: ps.
Proof.
  unfold dec. simpl. destruct (n <? 10); [by eexists _, _|].
  match goal with |- context [?l ++ [_]] => destruct l; by eexists _, _ end.
Qed.

Lemma param_dec n rest : 0 <= n < 32768 -> (forall c, head rest = Some c -> is_digit c = false) ->
  param (dec n ++ rest) = (n, skip_semicolon rest).
Proof.
  intros Hn Hr. assert (digits 0 (dec n ++ rest) = (n, rest)) as E.
  { unfold dec. rewrite digits_dec; [|change (10 ^ Z.of_nat 5) with 100000; lia|lia].
    destruct rest as [|c rest]; [done|]. simpl. by rewrite Hr. }
  unfold param. destruct (dec_nonempty n) as (c & ps & Ed).
  pose proof (dec_digits 5 n ltac:(lia)) as Hd. fold (dec n) in Hd. rewrite Ed in E, Hd |- *.
  inversion_clear Hd as [|?? Hc _]. change ((c :: ps) ++ rest) with (c :: (ps ++ rest)) in *. cbv beta iota. by rewrite Hc, E.
Qed.

Lemma param_dec_semicolon n ps : 0 <= n < 32768 -> param (dec n ++ 59 :: ps) = (n, ps).
Proof. intros Hn. rewrite param_dec; [done|done|]. intros c E. by injection E as <-. Qed.

(** ** From bytes to clauses *)

Lemma store_after (b c x : Z) ps rest :
  <[S (length ps) := c]> (b :: ps ++ x :: rest) = b :: (ps ++ [c]) ++ rest.
Proof. simpl. f_equal. induction ps; simpl; [done|by f_equal]. Qed.

Section bytes.
Context (mode : Z).

Lemma vdu_out_shown out v t c : view v t ->
  vdu_out_at mode (S out) c v =
  (let c := Z.land c 255 in
   if c =? 127 then mret tt
   else if Z.land c 96 =? 0 then vductrl mode (vdu_out_at mode out) c
   else vdu_graphic mode (vdu_out_at mode out) c) v.
Proof.
  intros []. cbn [vdu_out_at]. rewrite (bind_run _ _ v true v) by (unfold gets; congruence).
  cbn [negb]. rewrite (bind_run (vducursor false) _ v tt v); [done|].
  unfold vducursor. rewrite (bind_run _ _ v true v) by (unfold gets; congruence).
  rewrite (bind_run _ _ v false v) by (unfold gets; congruence). done.
Qed.

(** [v] has seen [ESC \[] and then [ps]. *)
Definition collecting (v : vdu) (ps : list Z) : Prop :=
  next v = Some (S (length ps)) /\ exists rest, vbuf v = 91 :: ps ++ rest.

Lemma view_escape v t n b : view v t -> length b = VBUF -> view (v <| next := n |> <| vbuf := b |>) t.
Proof. by intros []. Qed.

Lemma land_255 c : 0 <= c < 256 -> Z.land c 255 = c.
Proof. intros Hc. change 255 with (Z.ones 8). rewrite Z.land_ones by lia. by apply Z.mod_small. Qed.

(** Facts about a byte, by going over all of them. *)
Lemma byte_case (p : Z -> bool) : forallb p (seqZ 0 256) = true -> forall c, 0 <= c < 256 -> p c = true.
Proof. rewrite forallb_forall. intros H c Hc. apply H, list_elem_of_In, elem_of_seqZ. lia. Qed.

Lemma graphic_not_control c : 32 <= c < 127 -> Z.land c 96 =? 0 = false.
Proof.
  intros Hc. pose proof (byte_case (fun c => (c <? 32) || (127 <=? c) || negb (Z.land c 96 =? 0)) eq_refl c ltac:(lia)) as H. cbv beta in H.
  destruct (Z.land c 96 =? 0); [|done]. exfalso.
  rewrite orb_false_r, orb_true_iff, Z.ltb_lt, Z.leb_le in H. lia.
Qed.

Lemma graphic_ascii c : 32 <= c < 127 -> tst c 128 = false.
Proof.
  intros Hc. pose proof (byte_case (fun c => (127 <=? c) || negb (tst c 128)) eq_refl c ltac:(lia)) as H. cbv beta in H.
  destruct (tst c 128); [|done]. exfalso. rewrite orb_false_r, Z.leb_le in H. lia.
Qed.

Lemma vdu_out_graphic v t c : view v t -> 32 <= c < 127 ->
  vdu_out mode c v = vdu_graphic mode (vdu_out_at mode 1) c v.
Proof.
  intros Hv Hc. unfold vdu_out. rewrite (vdu_out_shown _ _ _ _ Hv). cbv zeta.
  rewrite land_255 by lia. rewrite graphic_not_control by done.
  destruct (Z.eqb_spec c 127); [lia|done].
Qed.

Lemma vdu_out_control v t c : view v t -> 0 <= c < 32 ->
  vdu_out mode c v = vductrl mode (vdu_out_at mode 1) c v.
Proof.
  intros Hv Hc. unfold vdu_out. rewrite (vdu_out_shown _ _ _ _ Hv). cbv zeta.
  rewrite land_255 by lia. destruct (Z.eqb_spec c 127); [lia|].
  pose proof (byte_case (fun c => (32 <=? c) || (Z.land c 96 =? 0)) eq_refl c ltac:(lia)) as H. cbv beta in H.
  destruct (Z.leb_spec 32 c); [lia|]. by replace (Z.land c 96 =? 0) with true.
Qed.

Lemma vdu_out_esc v t : view v t -> vdu_out mode 27 v = Done tt (v <| next := Some 0%nat |>).
Proof. intros Hv. by rewrite (vdu_out_control _ _ _ Hv) by lia. Qed.

Lemma vdu_out_bracket v t : view v t -> next v = Some 0%nat ->
  exists v', vdu_out mode 91 v = Done tt v' /\ view v' t /\ collecting v' [].
Proof.
  intros Hv Hn. rewrite (vdu_out_graphic _ _ _ Hv) by lia. unfold vdu_graphic.
  change (if tst 91 128 then Z.land 91 31 else 91) with 91.
  rewrite (bind_run _ _ v (Some 0%nat) v) by (unfold gets; by rewrite Hn). cbv iota.
  rewrite (bind_run (at_next 0) _ v _ v) by done.
  change (Nat.eqb 0 0 && (91 =? 91)) with true. cbv iota.
  rewrite (bind_run _ _ v tt (v <| vbuf ::= <[0%nat := 91]> |>));
    [|unfold store; by rewrite (bind_run _ _ v (Some 0%nat) v) by (unfold gets; by rewrite Hn)].
  eexists. split; [reflexivity|]. destruct Hv. split.
  - split; try done. cbn. by rewrite length_insert.
  - split; [cbn; by rewrite Hn|]. cbn. destruct (vbuf v); [done|]. by eexists.
Qed.

Lemma vdu_out_param v t ps c : view v t -> collecting v ps -> 48 <= c < 64 -> (length ps <= 16)%nat ->
  exists v', vdu_out mode c v = Done tt v' /\ view v' t /\ collecting v' (ps ++ [c]).
Proof.
  intros Hv [Hn [rest Hb]] Hc Hl. rewrite (vdu_out_graphic _ _ _ Hv) by lia. unfold vdu_graphic.
  rewrite graphic_ascii by lia. cbv zeta iota.
  rewrite (bind_run _ _ v _ v) by (unfold gets; by rewrite Hn). cbv iota.
  rewrite (bind_run (at_next 0) _ v 91 v) by (unfold at_next, gets; by rewrite Hb). cbn [Nat.eqb andb orb].
  change (negb (91 =? 91)) with false. rewrite andb_false_r. destruct (Z.leb_spec 64 c); [lia|].
  rewrite (bind_run _ _ v tt (v <| vbuf ::= <[S (length ps) := c]> |>));
    [|unfold store; by rewrite (bind_run _ _ v _ v) by (unfold gets; by rewrite Hn)].
  destruct (Nat.ltb_spec (S (length ps)) VBUF); [|unfold VBUF in *; lia]. unfold when.
  eexists. split; [reflexivity|]. destruct Hv as [??????????Hvb ??]. split.
  - split; try done. cbn. by rewrite length_insert.
  - split; [cbn; rewrite Hn, length_app; simpl; f_equal; lia|].
    change (vbuf (set_field next _ _)) with (<[S (length ps) := c]> (vbuf v)).
    rewrite Hb in Hvb |- *. destruct rest as [|x rest].
    { rewrite app_nil_r in Hvb. simpl in Hvb. unfold VBUF in *. lia. }
    exists rest. by rewrite store_after.
Qed.
End bytes.

Section commands.
Context (mode : Z).

Lemma vdu_puts_app cs1 cs2 v v' : vdu_puts mode cs1 v = Done tt v' ->
  vdu_puts mode (cs1 ++ cs2) v = vdu_puts mode cs2 v'.
Proof.
  revert v. induction cs1 as [|c cs1 IH]; intros v; simpl; [by intros [= ->]|].
  destruct (vdu_out mode c v) as [[] v1|w v1|] eqn:E; unfold mbind, M_bind; rewrite E; [apply IH|done|done].
Qed.

Lemma vdu_puts_one c v : vdu_puts mode [c] v = vdu_out mode c v.
Proof. simpl. unfold mbind, M_bind. by destruct (vdu_out mode c v) as [[] ?| |]. Qed.

Lemma vdu_puts_params t ps : forall v qs, view v t -> collecting v qs ->
  Forall (fun c => 48 <= c < 64) ps -> (length qs + length ps <= 17)%nat ->
  exists v', vdu_puts mode ps v = Done tt v' /\ view v' t /\ collecting v' (qs ++ ps).
Proof.
  induction ps as [|c ps IH]; intros v qs Hv Hc Hps Hl; simpl in *.
  - exists v. by rewrite app_nil_r.
  - inversion_clear Hps as [|?? Hc0 Hps'].
    destruct (vdu_out_param mode v t qs c Hv Hc Hc0 ltac:(lia)) as (v1 & E & Hv1 & Hc1).
    rewrite (bind_run _ _ _ _ _ E).
    destruct (IH v1 (qs ++ [c]) Hv1 Hc1 Hps') as (v' & E' & Hv' & Hc'); [rewrite length_app; simpl; lia|].
    exists v'. split_and!; [done|done|by rewrite <-app_assoc in Hc'].
Qed.

(** [v1] has the number parsed and what follows it pending. *)
Lemma vduansi_switch v t ps c : view v t -> collecting v ps -> (length ps <= 17)%nat ->
  exists v1 n, vduansi c v = vdu_switch c (fst (param ps)) v1 /\ view v1 t /\
    next v1 = Some n /\ pending v1 n (snd (param ps)).
Proof.
  intros Hv [Hn [rest Hb]] Hl. unfold vduansi.
  rewrite (bind_run _ _ v _ v) by (unfold gets; by rewrite Hn). cbv iota.
  destruct (Nat.leb_spec VBUF (S (length ps))); [unfold VBUF in *; lia|].
  rewrite (bind_run _ _ v tt (v <| vbuf ::= <[S (length ps) := 0]> |>));
    [|unfold store; by rewrite (bind_run _ _ v _ v) by (unfold gets; by rewrite Hn)].
  pose proof (view_vbuf _ _ Hv) as Hvb. rewrite Hb in Hvb.
  destruct rest as [|x rest]; [rewrite app_nil_r in Hvb; simpl in Hvb; unfold VBUF in *; lia|].
  set (v0 := v <| vbuf ::= <[S (length ps) := 0]> |>).
  rewrite (bind_run (set_next _) _ v0 tt (v0 <| next := Some 1%nat |>)) by done.
  set (v1 := v0 <| next := Some 1%nat |>).
  destruct (vduparam_spec v1 1 ps) as (n' & E & Hp); [done| |unfold VBUF; lia|].
  { exists rest. change (vbuf v1) with (<[S (length ps) := 0]> (vbuf v)).
    rewrite Hb, store_after. cbn [drop app]. by rewrite <-app_assoc. }
  rewrite (bind_run _ _ _ _ _ E). eexists _, n'. split_and!; [reflexivity| |done|exact Hp].
  destruct Hv. split; try done. change (vbuf _) with (<[S (length ps) := 0]> (vbuf v)).
  by rewrite length_insert.
Qed.

(** A whole sequence [ESC \[ ps c]. *)
Lemma csi_run v t t' ps c : view v t -> next v = None ->
  Forall (fun c => 48 <= c < 64) ps -> (length ps <= 17)%nat -> 64 <= c < 127 ->
  (forall v1 n, view v1 t -> next v1 = Some n -> pending v1 n (snd (param ps)) ->
     wp (vdu_switch c (fst (param ps))) (fun _ v' => view v' t') v1) ->
  wp (vdu_puts mode (csi ps c)) (fun _ v' => view v' t' /\ next v' = None) v.
Proof.
  intros Hv Hn Hps Hl Hc Hsw. unfold csi.
  change (27 :: 91 :: ps ++ [c]) with ([27] ++ [91] ++ (ps ++ [c])).
  unfold wp. rewrite (vdu_puts_app [27] _ v _) by (rewrite vdu_puts_one; by eapply vdu_out_esc).
  destruct (vdu_out_bracket mode (v <| next := Some 0%nat |>) t) as (v1 & E1 & Hv1 & Hc1); [by destruct Hv|done|].
  rewrite (vdu_puts_app [91] _ _ v1) by by rewrite vdu_puts_one.
  destruct (vdu_puts_params t ps v1 [] Hv1 Hc1 Hps ltac:(simpl; lia)) as (v2 & E2 & Hv2 & Hc2).
  rewrite (vdu_puts_app ps _ _ v2) by done. rewrite vdu_puts_one.
  rewrite (vdu_out_graphic _ _ _ _ Hv2) by lia. unfold vdu_graphic.
  rewrite graphic_ascii by lia. cbv zeta iota.
  pose proof Hc2 as [Hn2 [rest Hb2]].
  rewrite (bind_run _ _ v2 _ v2) by (unfold gets; by rewrite Hn2). cbv iota.
  rewrite (bind_run (at_next 0) _ v2 91 v2) by (unfold at_next, gets; by rewrite Hb2).
  cbn [app Nat.eqb andb orb]. change (negb (91 =? 91)) with false. rewrite andb_false_r.
  destruct (Z.leb_spec 64 c); [|lia].
  destruct (vduansi_switch v2 t ps c Hv2 Hc2 Hl) as (v3 & n & E3 & Hv3 & Hn3 & Hp3).
  specialize (Hsw v3 n Hv3 Hn3 Hp3). unfold wp in Hsw. rewrite <-E3 in Hsw.
  destruct (vduansi c v2) as [[] v4| |] eqn:E4; [|done|done].
  rewrite (bind_run _ _ _ _ _ E4). split; [|done]. by destruct Hsw.
Qed.

(** A sequence [ESC c] that is not ANSI. *)
Lemma esc_run v t t' c : view v t -> next v = None -> 48 <= c < 127 -> c <> 91 ->
  (forall v1, view v1 t -> next v1 = Some 0%nat -> wp (vduesc mode (vdu_out_at mode 1) c) (fun _ v' => view v' t') v1) ->
  wp (vdu_puts mode [27; c]) (fun _ v' => view v' t' /\ next v' = None) v.
Proof.
  intros Hv Hn Hc Hne Hesc. unfold wp.
  change [27; c] with ([27] ++ [c]).
  rewrite (vdu_puts_app [27] _ v _) by (rewrite vdu_puts_one; by eapply vdu_out_esc).
  rewrite vdu_puts_one. set (v1 := v <| next := Some 0%nat |>).
  assert (view v1 t) as Hv1 by by destruct Hv.
  rewrite (vdu_out_graphic _ _ _ _ Hv1) by lia. unfold vdu_graphic.
  rewrite graphic_ascii by lia. cbv zeta iota.
  rewrite (bind_run _ _ v1 (Some 0%nat) v1) by done. cbv iota.
  rewrite (bind_run (at_next 0) _ v1 _ v1) by done.
  destruct (Z.eqb_spec c 91); [done|]. cbn [Nat.eqb andb orb].
  destruct (Z.leb_spec 48 c); [|lia]. cbn [andb].
  specialize (Hesc v1 Hv1 eq_refl). unfold wp in Hesc.
  destruct (vduesc mode (vdu_out_at mode 1) c v1) as [[] v4| |] eqn:E4; [|done|done].
  rewrite (bind_run _ _ _ _ _ E4). split; [|done]. by destruct Hesc.
Qed.

Lemma param_digits n : 0 <= n < 32768 -> fst (param (dec n)) = n.
Proof. intros Hn. rewrite <-(app_nil_r (dec n)), param_dec; done. Qed.

Lemma dec_params n : 0 <= n -> Forall (fun c => 48 <= c < 64) (dec n).
Proof.
  intros Hn. eapply Forall_impl; [by apply dec_digits|]. unfold is_digit. intros c Hc. simpl in Hc. lia.
Qed.

(** The commands with one number. *)
Lemma csi_one v t t' n c : view v t -> next v = None -> 0 <= n <= 30000 -> 64 <= c < 127 ->
  (forall v1, view v1 t -> acts v1 t (vdu_switch c n) t') ->
  wp (vdu_puts mode (csi (dec n) c)) (fun _ v' => view v' t' /\ next v' = None) v.
Proof.
  intros Hv Hn Hd Hc Ha. eapply csi_run; try done.
  - apply dec_params. lia.
  - pose proof (dec_length 5 n). unfold dec. lia.
  - intros v1 k Hv1 _ _. rewrite param_digits by lia.
    eapply wp_mono; [by apply Ha|]. by intros _ ? [? _].
Qed.
End commands.

(** ** Every command *)

Section simulation.
Context (mode : Z) (v : vdu) (t : term) (Hv : view v t) (Hn : next v = None).

Lemma out_print depth c : 32 <= c < 127 ->
  wp (vdu_out_at mode (S depth) c) (fun _ v' => view v' (tstep mode (TPrint c) t) /\ next v' = None) v.
Proof.
  intros Hc. unfold wp. rewrite (vdu_out_shown _ _ _ _ _ Hv). cbv zeta.
  rewrite land_255, graphic_not_control by lia. destruct (Z.eqb_spec c 127); [lia|].
  unfold vdu_graphic. rewrite graphic_ascii by lia. cbv zeta iota.
  rewrite (bind_run _ _ v None v) by (unfold gets; by rewrite Hn). cbv iota.
  assert (acts v t (paint c;; r ← gets crow; k ← gets ccol; moveto r (k + 1)) (tstep mode (TPrint c) t)) as Ha.
  { eapply acts_seq; [by apply acts_paint|]. intros v1 Hv1. at_cursor Hv1. by apply acts_moveto. }
  eapply (wp_mono _ _ _ v); [exact Ha|]. intros _ v' [? [E _]]. split; [done|congruence].
Qed.

Lemma run_print c : 32 <= c < 127 ->
  wp (vdu_puts mode [c]) (fun _ v' => view v' (tstep mode (TPrint c) t) /\ next v' = None) v.
Proof. intros Hc. unfold wp. rewrite vdu_puts_one. by apply out_print. Qed.

Lemma run_control c t' : 0 <= c < 32 ->
  acts v t (vductrl mode (vdu_out_at mode 1) c) t' ->
  wp (vdu_puts mode [c]) (fun _ v' => view v' t' /\ next v' = None) v.
Proof.
  intros Hc Ha. unfold wp. rewrite vdu_puts_one, (vdu_out_control _ _ _ _ Hv) by done.
  unfold acts, wp in Ha. destruct (vductrl _ _ _ _) as [[] v'| |]; [|done|done].
  destruct Ha as [? [E _]]. split; [done|congruence].
Qed.

Lemma run_position r c : 1 <= r <= 30000 -> 1 <= c <= 30000 ->
  wp (vdu_puts mode (encode (TPosition r c))) (fun _ v' => view v' (tstep mode (TPosition r c) t) /\ next v' = None) v.
Proof.
  intros Hr Hc. simpl encode. eapply csi_run; try done.
  - apply Forall_app. split; [apply dec_params; lia|]. constructor; [lia|apply dec_params; lia].
  - rewrite length_app. pose proof (dec_length 5 r). pose proof (dec_length 5 c). unfold dec. simpl in *. lia.
  - intros v1 n Hv1 Hn1 Hp1. rewrite param_dec in Hp1 |- * by (try lia; by intros ? [= <-]).
    cbn [fst snd skip_semicolon] in *. change (59 =? 59) with true in Hp1. cbv iota in Hp1.
    unfold vdu_switch. destruct (Z.leb_spec r 0); [lia|]. cbn -[vdu_position tstep]. unfold vdu_position.
    destruct (vduparam_spec v1 n _ Hn1 Hp1) as (n' & E & _).
    { pose proof (dec_length 5 c). unfold dec, VBUF. lia. }
    unfold wp. rewrite (bind_run _ _ _ _ _ E). rewrite param_digits by lia.
    destruct (Z.leb_spec c 0); [lia|].
    assert (view (v1 <| next := Some n' |>) t) as Hv2 by by destruct Hv1.
    pose proof (acts_moveto _ _ (Z.min r NROW - 1) (Z.min c NCOL - 1) Hv2) as Ha.
    unfold acts, wp in Ha. destruct (moveto _ _ _); [|done|done]. by destruct Ha.
Qed.

Lemma run_reverse b :
  wp (vdu_puts mode (encode (TReverse b))) (fun _ v' => view v' (tstep mode (TReverse b) t) /\ next v' = None) v.
Proof.
  simpl encode. eapply csi_run; try done.
  - apply dec_params. by destruct b.
  - destruct b; vm_compute; lia.
  - intros v1 n Hv1 Hn1 Hp1.
    assert (param (dec (if b then 7 else 0)) = (if b then 7 else 0, [])) as E by by destruct b.
    rewrite E in Hp1 |- *. cbn [fst snd] in *. unfold vdu_switch. cbn -[tstep vdu_sgr vduparam].
    set (a := if b then 1 else 0). set (v2 := v1 <| attr := a |>).
    change VBUF with (S 19). cbn [vdu_sgr]. unfold wp.
    rewrite (bind_run _ _ v1 tt v2) by by destruct b.
    destruct (vduparam_spec v2 n [] Hn1 Hp1) as (n' & E' & _); [unfold VBUF; simpl; lia|].
    rewrite (bind_run _ _ _ _ _ E'). change (fst (param [])) with (-1). cbn.
    destruct Hv1. by split.
Qed.

End simulation.

(** The character of a sequence of one character. *)
Lemma vduesc_first mode out c v t t' : view v t -> next v = Some 0%nat ->
  (forall v1, view v1 t -> wp (vdu_esc_switch mode out c) (fun _ v' => view v' t') v1) ->
  wp (vduesc mode out c) (fun _ v' => view v' t') v.
Proof.
  intros Hv Hn Hsw. unfold vduesc, wp.
  rewrite (bind_run _ _ v _ v) by (unfold gets; by rewrite Hn). cbv iota.
  change (VBUF - 1 <=? 0)%nat with false. cbv iota.
  set (v1 := v <| vbuf ::= <[0%nat := c]> |>).
  rewrite (bind_run _ _ v tt v1);
    [|unfold store; by rewrite (bind_run _ _ v _ v) by (unfold gets; by rewrite Hn)].
  pose proof (view_vbuf _ _ Hv) as Hvb.
  rewrite (bind_run (at_next 0) _ v1 c v1).
  - apply Hsw. destruct Hv. split; try done. change (vbuf v1) with (<[0%nat := c]> (vbuf v)). by rewrite length_insert.
  - unfold at_next, gets. change (vbuf v1) with (<[0%nat := c]> (vbuf v)).
    by rewrite list_lookup_insert_eq by (rewrite Hvb; unfold VBUF; lia).
Qed.

Lemma run_esc_switch mode v t t' c : view v t -> next v = None -> 48 <= c < 127 -> c <> 91 ->
  (forall v1, view v1 t -> acts v1 t (vdu_esc_switch mode (vdu_out_at mode 1) c) t') ->
  wp (vdu_puts mode [27; c]) (fun _ v' => view v' t' /\ next v' = None) v.
Proof.
  intros Hv Hn Hc Hne Ha. eapply esc_run; try done. intros v1 Hv1 Hn1.
  eapply vduesc_first; [done|done|]. intros v2 Hv2.
  eapply wp_mono; [by apply Ha|]. by intros _ ? [? _].
Qed.

Lemma acts_restore mode out v t : view v t -> acts v t (vdu_esc_switch mode out 56) (tstep mode TRestore t).
Proof.
  intros Hv. pose proof (view_saved _ _ Hv) as Hs. pose proof (view_saved_ok _ _ Hv) as Hok.
  unfold vdu_esc_switch. change (56 =? 56) with true. cbv iota.
  assert (Hg : tstep mode TRestore t =
    t <| tattr := savattr v |> <| trow := savcrow v |> <| tcol := savccol v |>).
  { cbn [tstep]. rewrite <-Hs. unfold goto.
    replace ((0 <=? savcrow v) && (savcrow v <? NROW) && (0 <=? savccol v) && (savccol v <=? NCOL)) with true; [done|].
    symmetry. cases. }
  rewrite Hg. unfold acts. wp_steps. cbn -[moveto]. unfold moveto.
  replace ((savcrow v <? 0) || (NROW <=? savcrow v) || (savccol v <? 0) || (NCOL <? savccol v)) with false; [|symmetry; cases].
  wp_steps. split; [|done]. destruct Hv. split; try done; cbn; try (split; [done|screen]). cases.
Qed.

Lemma acts_save mode out v t : view v t -> acts v t (vdu_esc_switch mode out 55) (tstep mode TSave t).
Proof.
  intros Hv. pose proof (view_row _ _ Hv) as [Er ?]. pose proof (view_col _ _ Hv) as [Ec ?].
  split; [|done]. destruct Hv. split; try done; cbn; rewrite ?Er, ?Ec; [congruence|done].
Qed.

Lemma acts_reset mode out v t : view v t -> acts v t (vdu_esc_switch mode out 99) (tstep mode TReset t).
Proof.
  intros Hv.
  change (vdu_esc_switch mode out 99) with
   (modify (fun v => v <| attr := 0 |>);; moveto 0 0;; clrarea 0 0 (NROW - 1) (NCOL - 1);;
    modify (fun v => v <| keypad := false |>);; modify (fun v => v <| app_mode := false |>)).
  eapply acts_seq with (t1 := t <| tattr := 0 |>); [apply acts_set; [by destruct Hv|done]|]. intros v1 Hv1.
  eapply acts_seq; [by apply acts_moveto|]. intros v2 Hv2.
  eapply acts_seq; [apply acts_draw; [apply draws_clrarea; screen|done]|]. intros v3 Hv3.
  match type of Hv3 with view _ ?t3 => eapply acts_seq with (t1 := t3 <| tkeypad := false |>) end.
  - apply acts_set; [by destruct Hv3|done].
  - intros v4 Hv4. apply acts_set; [by destruct Hv4|done].
Qed.

(** A clause whose variable [i] is the parameter itself. *)
Ltac vdu_clause lem :=
  match goal with |- acts _ _ (vdu_switch _ ?n) _ => unfold vdu_switch; destruct (Z.leb_spec n 0); [lia|] end;
  apply lem; (done || lia).

(** The bytes of a command carry it out. *)
Lemma cmd_run mode v t cmd : view v t -> next v = None -> allowed cmd t = true ->
  wp (vdu_puts mode (encode cmd)) (fun _ v' => view v' (tstep mode cmd t) /\ next v' = None) v.
Proof.
  intros Hv Hn Ha. destruct cmd; cbn [encode]; cbn [allowed] in Ha;
    repeat (apply andb_true_iff in Ha as [Ha ?]); rewrite ?Z.leb_le, ?Z.ltb_lt in *.
  - apply run_print; try done; lia.
  - eapply run_control; try done. change (vductrl mode (vdu_out_at mode 1) 8) with
      (r ← gets crow; c ← gets ccol; moveto r (c - 1)). at_cursor Hv. by apply acts_moveto.
  - eapply run_control; try done. by apply acts_newline.
  - eapply run_control; try done. change (vductrl mode (vdu_out_at mode 1) 13) with
      (r ← gets crow; moveto r 0). at_cursor Hv. by apply acts_moveto.
  - eapply run_esc_switch; try done. intros v1 Hv1. by apply acts_newline.
  - eapply run_esc_switch; try done. intros v1 Hv1. by apply acts_reverse_index.
  - eapply csi_one; try done; try lia. intros v1 Hv1. vdu_clause acts_up.
  - eapply csi_one; try done; try lia. intros v1 Hv1. vdu_clause acts_down.
  - eapply csi_one; try done; try lia. intros v1 Hv1. vdu_clause acts_forward.
  - eapply csi_one; try done; try lia. intros v1 Hv1. vdu_clause acts_backward.
  - apply run_position; try done; lia.
  - eapply csi_one; try done; try lia. intros v1 Hv1. apply acts_erase_display; [done|]. simpl. cases.
  - eapply csi_one; try done; try lia. intros v1 Hv1. apply acts_erase_line; [done|]. simpl. cases.
  - eapply csi_one; try done; try lia. intros v1 Hv1. vdu_clause acts_insert_line.
  - eapply csi_one; try done; try lia. intros v1 Hv1. vdu_clause acts_delete_line.
  - eapply csi_one; try done; try lia. intros v1 Hv1. vdu_clause acts_insert_char.
  - eapply csi_one; try done; try lia. intros v1 Hv1. vdu_clause acts_delete_char.
  - by apply run_reverse.
  - eapply run_esc_switch; try done. intros v1 Hv1. by apply acts_save.
  - eapply run_esc_switch; try done. intros v1 Hv1. by apply acts_restore.
  - eapply run_esc_switch; try done. intros v1 Hv1. by apply acts_reset.
  - destruct b; eapply run_esc_switch; try done; intros v1 Hv1;
      (apply acts_set; [by destruct Hv1|done]).
Qed.

Lemma cmds_run mode cmds : forall v t, view v t -> next v = None -> all_allowed mode cmds t = true ->
  wp (vdu_puts mode (concat (map encode cmds))) (fun _ v' => view v' (trun mode cmds t) /\ next v' = None) v.
Proof.
  induction cmds as [|cmd cmds IH]; intros v t Hv Hn Ha; simpl in *; [done|].
  apply andb_true_iff in Ha as [Ha1 Ha2].
  pose proof (cmd_run mode v t cmd Hv Hn Ha1) as Hr. unfold wp in Hr |- *.
  destruct (vdu_puts mode (encode cmd) v) as [[] v1| |] eqn:E; [|done|done].
  destruct Hr. rewrite (vdu_puts_app _ _ _ _ _ E). by apply IH.
Qed.

(** ** Start-up *)

Definition blank : term := mk_term (fun _ _ _ => 0) 0 0 0 (0, 0, 0) false false.

Lemma flip_flip b : 0 <= b < 256 -> flip (flip b) = b.
Proof. intros Hb. apply Z.eqb_eq. by apply (byte_case (fun b => flip (flip b) =? b)). Qed.

(** Before the screen is cleared. *)
Definition vdu_start (lisa_membase lisa_memend : Z) : vdu :=
  vdu0 <| video_latch := Z.shiftr (lisa_memend - VIDEO_PAGE + lisa_membase) 15 |>
       <| vram := fun p => if (NROW * BYTR <=? p) && (p <? VIDEO_PAGE) then 255 else 0 |>.

Lemma vdu_init_run lisa_membase lisa_memend :
  vdu_init lisa_membase lisa_memend vdu0 =
  (clrarea 0 0 (NROW - 1) (NCOL - 1);; modify (fun v => v <| vdu_ready := true |>);; vducursor true)
    (vdu_start lisa_membase lisa_memend).
Proof. reflexivity. Qed.

(** Showing or hiding the cursor inverts its cell. *)
Lemma cursor_drawn v on r0 c0 : vdu_ready v = true -> cursor_shown v = negb on ->
  0 <= r0 < NROW -> 0 <= c0 < NCOL -> curs v = r0 * BYTR + c0 ->
  exists mem, vducursor on v = Done tt (v <| cursor_shown := on |> <| vram := mem |>) /\
    (forall g, shown (vram v) g -> shown mem (cell_set r0 c0 (fun l => flip (g r0 c0 l)) g)) /\
    (forall a, NROW * BYTR <= a -> mem a = vram v a).
Proof.
  intros Hr Hs Hr0 Hc0 Hc. unfold vducursor.
  rewrite (bind_run _ _ v true v) by (unfold gets; congruence).
  rewrite (bind_run _ _ v (negb on) v) by (unfold gets; congruence).
  replace (negb true || Bool.eqb on (negb on)) with false by by destruct on.
  set (v1 := v <| cursor_shown := on |>). rewrite (bind_run _ _ v tt v1) by done.
  rewrite (bind_run _ _ v1 (r0 * BYTR + c0) v1) by (unfold gets; by change (curs v1) with (curs v); rewrite Hc).
  set (g0 := fun r c l => vram v (addr r c l)).
  destruct (draws_flip_cell r0 c0 Hr0 Hc0 v1 g0) as (mem & E & Hm & Ho); [done|].
  exists mem. split_and!; [exact E| |by intros a ?; rewrite Ho by lia].
  intros g Hg r c l Hrc. rewrite (Hm r c l Hrc). unfold cell_set, g0.
  destruct (_ && _) eqn:E0; [|by apply Hg].
  f_equal. apply Hg. apply andb_true_iff in E0 as [? ?]. screen.
Qed.

Lemma init_view lisa_membase lisa_memend :
  wp (vdu_init lisa_membase lisa_memend;; vducursor false) (fun _ v => view v blank /\ next v = None) vdu0.
Proof.
  unfold wp, mbind, M_bind at 1. rewrite vdu_init_run.
  set (v0 := vdu_start lisa_membase lisa_memend).
  destruct (draws_clrarea 0 0 (NROW - 1) (NCOL - 1) ltac:(lia) ltac:(screen) ltac:(screen) ltac:(screen) ltac:(screen)
    v0 (fun r c l => vram v0 (addr r c l))) as (m1 & E1 & Hm1 & Ho1); [done|].
  rewrite (bind_run _ _ _ _ _ E1).
  set (v1 := (v0 <| vram := m1 |>) <| vdu_ready := true |>).
  rewrite (bind_run _ _ _ tt v1) by done.
  assert (shown m1 (cells blank)) as Hs1.
  { intros r c l Hr. rewrite (Hm1 r c l Hr). unfold area_blank. cases. }
  destruct (cursor_drawn v1 true 0 0) as (m2 & E2 & Hm2 & Ho2); [done..|]. rewrite E2. cbv iota beta.
  set (v2 := v1 <| cursor_shown := true |> <| vram := m2 |>).
  destruct (cursor_drawn v2 false 0 0) as (m3 & E3 & Hm3 & Ho3); [done..|]. rewrite E3.
  split; [|done]. split; try done; try (split; [done|screen]).
  - intros r c l Hr. change (m3 (addr r c l) = 0). rewrite (Hm3 _ (Hm2 _ Hs1) r c l Hr). unfold cell_set. cases.
  - intros a Ha. change (m3 a = 255). rewrite Ho3 by lia. change (m2 a = 255). rewrite Ho2 by lia.
    change (m1 a = 255). rewrite Ho1 by lia. change ((if (NROW * BYTR <=? a) && (a <? VIDEO_PAGE) then 255 else 0) = 255).
    cases.
Qed.


(** Text at the bottom of the screen, where it scrolls, and in the middle of a
    line. *)
Definition vdu_demo : list tcmd :=
  [TPosition 40 3; TPrint 77; TReverse true; TPrint 120; TNewline; TPrint 33; TUp 1; TForward 1; TInsertChar 2;
   TSave; TDeleteLine 1; TRestore; TEraseLine 1; TReset; TPrint 65; TBackward 5; TDeleteChar 1].


(** ** Tabs *)

(** A blank painted, or only passed over, by one turn of [tab_loop]. *)
Definition tab_turn (mode : Z) (t : term) : term :=
  if Z.land mode XTABS =? XTABS then tstep mode (TPrint 32) t else goto (trow t) (tcol t + 1) t.

Fixpoint tab_turns (mode : Z) (n : nat) (t : term) : term :=
  match n with O => t | S n' => tab_turns mode n' (tab_turn mode t) end.

Lemma tab_turn_col mode t : 0 <= trow t < NROW -> 0 <= tcol t ->
  tcol (tab_turn mode t) = Z.min 90 (tcol t + 1) \/ tcol t > 90.
Proof.
  intros Hr Hc. destruct (decide (tcol t > 90)); [by right|left].
  unfold tab_turn, tstep, goto. destruct (_ =? XTABS); cbn; cases.
Qed.

Lemma tab_turn_run mode v t : view v t -> next v = None ->
  wp (if Z.land mode XTABS =? XTABS then vdu_out_at mode 1 32
      else r ← gets crow; c ← gets ccol; moveto r (c + 1))
    (fun _ v' => view v' (tab_turn mode t) /\ next v' = None) v.
Proof.
  intros Hv Hn. unfold tab_turn. destruct (_ =? XTABS).
  - by apply out_print.
  - assert (acts v t (r ← gets crow; c ← gets ccol; moveto r (c + 1)) (goto (trow t) (tcol t + 1) t)) as Ha.
    { at_cursor Hv. by apply acts_moveto. }
    eapply wp_mono; [exact Ha|]. intros _ v' [? [E _]]. split; [done|congruence].
Qed.

Lemma tab_loop_step mode fuel v t : view v t -> next v = None -> exists v',
  view v' (tab_turn mode t) /\ next v' = None /\
  tab_loop mode (S fuel) (vdu_out_at mode 1) v =
  (if tst (tcol (tab_turn mode t)) TAB_MASK then tab_loop mode fuel (vdu_out_at mode 1) v' else Done tt v').
Proof.
  intros Hv Hn. pose proof (tab_turn_run mode v t Hv Hn) as Hr. unfold wp in Hr. cbn [tab_loop].
  match type of Hr with match ?x with _ => _ end => destruct x as [[] v'| |] eqn:E; [|done|done] end.
  destruct Hr as [Hv' Hn']. exists v'. split_and!; [done|done|].
  rewrite (bind_run _ _ _ _ _ E). rewrite (bind_run _ _ v' (tcol (tab_turn mode t)) v').
  - by destruct (tst _ _).
  - unfold gets. f_equal. apply (view_col _ _ Hv').
Qed.

Lemma tab_stop_mod c : 0 <= c < 256 -> tst c TAB_MASK = negb (c mod 8 =? 0).
Proof.
  intros Hc. apply Bool.eqb_prop. by apply (byte_case (fun c => Bool.eqb (tst c TAB_MASK) (negb (c mod 8 =? 0)))).
Qed.



(** ** Edges *)

(** What the screen shows in cell (r, c), scan line l, after the bytes [cs]. *)
Definition screen_after (cs : list Z) (r c l : Z) : option Z :=
  match (vdu_init 0 1048576;; vdu_puts 3088 cs) vdu0 with
  | Done _ v => Some (vram v (addr r c l))
  | _ => None
  end.

(** Erasing to the end of the line with the cursor past the last column
    erases scan lines 1 to 8 of the row's first character, and the first
    scan line of the next row's. *)
Example erase_past_last_column :
  let full := replicate 90 65 in
  screen_after full 0 0 3 = Some 102 /\ screen_after (full ++ csi [] 75) 0 0 3 = Some 0.
Proof. vm_compute. done. Qed.

(** A tab inside an escape sequence never leaves the column. *)
Example tab_in_escape_hangs : screen_after [65; 27; 9] 0 0 0 = None.
Proof. vm_compute. reflexivity. Qed.

(** DECCKM: "set" turns the application mode of the arrow keys off, "reset"
    turns it on. *)
Example decckm_inverted :
  let app cs := match (vdu_init 0 1048576;; vdu_puts 3088 cs) vdu0 with Done _ v => Some (app_mode v) | _ => None end in
  app (csi [63; 49] 104) = Some false /\ app (csi [63; 49] 108) = Some true.
Proof. vm_compute. done. Qed.
