(* ===== verification/Tty.v ===== *)
(** * The terminal task: [src/kernel/tty.c] and [src/kernel/lisa/lisacons.c]

    The device-independent half of the terminal driver and the Lisa's console
    under it, with one terminal ([NR_CONS] is 1, [NR_RS_LINES] 0). The kernel
    and physical memory are those of KSystem, the screen is that of Vdu; what
    the task sends is recorded in [replies], what goes out on the serial port
    in [serial], each in order. Characters are [char]s, signed; the positions
    in the circular input queue are indices. *)

From S2P Require Import Prelude KProc KSystem Vdu.

Definition TTY : Z := -9.
Definition CONSOLE : Z := 0.
Definition OPERATOR : Z := -1.
Definition TTY_IN_BYTES : nat := 1000.
Definition TTY_BUF_SIZE : Z := 256.
Definition MAX_OVERRUN : Z := 500.
Definition THRESHOLD : Z := 20.
Definition DUMP_CHAR : Z := 20.
Definition MARKER : Z := -128.

(** [sgtty.h] *)
Definition CBREAK : Z := 2.
Definition ECHO : Z := 8.
Definition RAW : Z := 32.
Definition COOKED : Z := 0.
Definition TIOCGETP : Z := 29704.
Definition TIOCSETP : Z := 29705.
Definition TIOCFLUSH : Z := 29712.
Definition TIOCSETC : Z := 29713.
Definition TIOCGETC : Z := 29714.

(** Message types, reply codes and error numbers. *)
Definition TTY_READ : Z := 3.
Definition TTY_WRITE : Z := 4.
Definition TTY_IOCTL : Z := 5.
Definition TTY_SETPGRP : Z := 6.
Definition CANCEL : Z := 0.
Definition TASK_REPLY : Z := 68.
Definition REVIVE : Z := 67.
Definition SUSPEND : Z := -998.
Definition EINTR : Z := -4.
Definition EINVAL : Z := -22.
Definition R_BIT : Z := 4.
Definition W_BIT : Z := 2.
Definition SIGINT : Z := 2.
Definition SIGQUIT : Z := 3.

(** [tty_waiting] *)
Definition NOT_WAITING : Z := 0.
Definition WAITING : Z := 1.

(** [struct tty_struct], less the fields that only other drivers use;
    [tty_devstart] is always [console]. *)
Record tty := mk_tty {
  tty_inqueue : list Z;
  tty_inhead : nat;
  tty_intail : nat;
  tty_incount : Z;
  tty_lfct : Z;
  tty_ramqueue : list Z;
  tty_rwords : Z;
  tty_mode : Z;
  tty_speed : Z;
  tty_escaped : bool;
  tty_inhibited : bool;
  tty_waiting : Z;
  tty_erase : Z;
  tty_kill : Z;
  tty_intr : Z;
  tty_quit : Z;
  tty_xon : Z;
  tty_xoff : Z;
  tty_eof : Z;
  tty_incaller : Z;
  tty_inproc : Z;
  tty_in_vir : Z;
  tty_inleft : Z;
  tty_otcaller : Z;
  tty_outproc : Z;
  tty_out_vir : Z;
  tty_phys : Z;
  tty_outleft : Z;
  tty_cum : Z;
  tty_pgrp : Z;
}.
#[export] Instance tty_upd : Updatable tty := fun t =>
  mk_tty (tty_inqueue t) (tty_inhead t) (tty_intail t) (tty_incount t) (tty_lfct t)
    (tty_ramqueue t) (tty_rwords t) (tty_mode t) (tty_speed t) (tty_escaped t)
    (tty_inhibited t) (tty_waiting t) (tty_erase t) (tty_kill t) (tty_intr t) (tty_quit t)
    (tty_xon t) (tty_xoff t) (tty_eof t) (tty_incaller t) (tty_inproc t) (tty_in_vir t)
    (tty_inleft t) (tty_otcaller t) (tty_outproc t) (tty_out_vir t) (tty_phys t)
    (tty_outleft t) (tty_cum t) (tty_pgrp t).
Definition tty0 : tty :=
  mk_tty (replicate TTY_IN_BYTES 0) 0 0 0 0 (replicate 640 0) 0 0 0 false false 0
    0 0 0 0 0 0 0 0 0 0 0 0 0 0 0 0 0 0.

(** A message from [tty_reply], with its destination. *)
Record treply := mk_treply {
  rep_code : Z; rep_to : Z; REP_PROC_NR : Z; REP_STATUS : Z; rep_flags : Z; rep_spek : Z }.

(** The task's state. [drv_buf] and [tty_copy_buf] hold pairs of a character
    and its line; [drv_count] and [drv_max] are the first two words of
    [tty_driver_buf]. *)
Record con := mk_con {
  csys : sst;
  tp : tty;
  drv_count : Z;
  drv_max : Z;
  drv_buf : list Z;
  tty_copy_buf : list Z;
  tty_buf : list Z;
  output_done : Z;
  flush_flag : Z;
  screen : vdu;
  serial : list Z;
  replies : list treply;
}.
#[export] Instance con_upd : Updatable con := fun c =>
  mk_con (csys c) (tp c) (drv_count c) (drv_max c) (drv_buf c) (tty_copy_buf c) (tty_buf c)
    (output_done c) (flush_flag c) (screen c) (serial c) (replies c).

(** [&tty_struct\[line\]]: there is only one. *)
Definition on_line {A} (line : Z) (m : M con A) : M con A :=
  if line =? CONSOLE then m else panic "no such terminal".

Definition upd_tp (f : tty -> tty) : M con unit := modify (fun c => c <| tp ::= f |>).
Definition get_tp {A} (f : tty -> A) : M con A := gets (fun c => f (tp c)).
Definition in_sys {A} (m : M sst A) : M con A := zoom csys (fun s c => c <| csys := s |>) m.
Definition in_vdu {A} (m : M vdu A) : M con A := zoom screen (fun v c => c <| screen := v |>) m.

(** ** Output *)

Definition scc_putc (c : Z) : M con unit := modify (fun s => s <| serial ::= fun l => l ++ [c] |>).

Definition out_char (c : Z) : M con unit :=
  let c := Z.land c 255 in
  mode ← get_tp tty_mode;
  in_vdu (vdu_out mode c);;
  when ((c =? 10) && tst mode CRMOD) (scc_putc 13);;
  scc_putc c.

Definition tty_reply (code replyee proc_nr status extra other : Z) : M con unit :=
  modify (fun c => c <| replies ::= fun l => l ++ [mk_treply code replyee proc_nr status extra other] |>).

Definition finish (code : Z) : M con unit :=
  upd_tp (fun t => t <| tty_rwords := 0 |> <| tty_outleft := 0 |>);;
  outproc ← get_tp tty_outproc;
  in_sys (updP (proc_addr outproc) (fun p => p <| p_physio := false |>));;
  w ← get_tp tty_waiting;
  if w =? NOT_WAITING then mret tt else
  replyee ← get_tp tty_otcaller;
  tty_reply TASK_REPLY replyee outproc code 0 0;;
  upd_tp (fun t => t <| tty_waiting := NOT_WAITING |>).

(** The loop of [flush] over the RAM queue, from its byte [k] on. *)
Fixpoint flush_loop (fuel k : nat) : M con unit :=
  match fuel with
  | O => nofuel
  | S fuel' =>
      inh ← get_tp tty_inhibited;
      if inh : bool then mret tt else
      c ← get_tp (fun t => default 0 (tty_ramqueue t !! k));
      out_char c;;
      upd_tp (fun t => t <| tty_phys ::= fun a => s32 (a + 1) |> <| tty_cum ::= fun n => s16 (n + 1) |>);;
      upd_tp (fun t => t <| tty_rwords ::= fun n => s16 (n - 1) |>);;
      n ← get_tp tty_rwords;
      if n =? 0 then mret tt else flush_loop fuel' (S k)
  end.

Definition flush : M con unit :=
  n ← get_tp tty_rwords;
  if n =? 0 then mret tt else
  flush_loop (Z.to_nat (u16 n)) 0;;
  in_vdu (vducursor true).

(** The loop of [console]: one turn per character left. *)
Fixpoint console_loop (fuel : nat) (charptr count : Z) : M con Z :=
  match fuel with
  | O => nofuel
  | S fuel' =>
      left ← get_tp tty_outleft;
      inh ← get_tp tty_inhibited;
      if (0 <? left) && negb inh then
        b ← in_sys (gets (fun s => pmem s charptr));
        out_char b;;
        upd_tp (fun t => t <| tty_outleft ::= fun n => s16 (n - 1) |>);;
        console_loop fuel' (charptr + 1) (s16 (count + 1))
      else mret count
  end.

Definition console : M con unit :=
  charptr ← get_tp tty_phys;
  in_vdu (vducursor false);;
  left ← get_tp tty_outleft;
  count ← console_loop (S (Z.to_nat left)) charptr 0;
  in_vdu (vducursor true);;
  flush;;
  upd_tp (fun t => t <| tty_phys ::= fun a => s32 (a + count) |> <| tty_cum ::= fun n => s16 (n + count) |>);;
  left ← get_tp tty_outleft;
  cum ← get_tp tty_cum;
  when (left =? 0) (finish cum).

Definition echo (c : Z) : M con unit :=
  mode ← get_tp tty_mode;
  if negb (tst mode ECHO) then mret tt else
  when (negb (c =? MARKER) || tst mode (Z.lor CBREAK RAW))
    (in_vdu (vducursor false);;
     out_char c;;
     in_vdu (vducursor true));;
  flush.

(** ** Input *)

(** [chuck]: [false] is -1. *)
Definition chuck : M con bool :=
  n ← get_tp tty_incount;
  if n =? 0 then mret false else
  h ← get_tp tty_inhead;
  let prev := if Nat.eqb h 0 then (TTY_IN_BYTES - 1)%nat else (h - 1)%nat in
  ch ← get_tp (fun t => default 0 (tty_inqueue t !! prev));
  if (ch =? 10) || (ch =? 13) then mret false else
  upd_tp (fun t => t <| tty_inhead := prev |> <| tty_incount ::= fun n => s16 (n - 1) |>);;
  mret true.

(** [while (chuck(tp) == OK)]: the queue empties. *)
Fixpoint chuck_all (fuel : nat) : M con unit :=
  match fuel with
  | O => nofuel
  | S fuel' => r ← chuck; if r : bool then chuck_all fuel' else mret tt
  end.

(** [*tp->tty_inhead++ = ch] with the wrap-around, and the count. *)
Definition enqueue_char (ch : Z) : M con unit :=
  upd_tp (fun t => t <| tty_inqueue ::= <[tty_inhead t := ch]> |>
                     <| tty_inhead := if Nat.eqb (S (tty_inhead t)) TTY_IN_BYTES then 0%nat else S (tty_inhead t) |>
                     <| tty_incount ::= fun n => s16 (n + 1) |>).

Definition discard_input : M con unit :=
  upd_tp (fun t => t <| tty_inhead := 0%nat |> <| tty_intail := 0%nat |> <| tty_incount := 0 |> <| tty_lfct := 0 |>).

Definition sigchar (sig : Z) : M con unit :=
  upd_tp (fun t => t <| tty_inhibited := false |>);;
  finish EINTR;;
  discard_input;;
  pgrp ← get_tp tty_pgrp;
  when (nz pgrp) (in_sys (in_ker (cause_sig pgrp sig))).

(** The treatment of a character in cooked mode: [Some] the character to go
    on with, [None] if it has been dealt with. *)
Definition cooked_char (ch : Z) : M con (option Z) :=
  t ← get_tp (fun t => t);
  if (ch =? tty_erase t) && negb (tty_escaped t) then
    r ← chuck;
    when r (echo 8;; echo 32;; echo 8);;
    mret None
  else if (ch =? tty_kill t) && negb (tty_escaped t) then
    chuck_all (S (S TTY_IN_BYTES));;
    echo (tty_kill t);;
    echo 10;;
    mret None
  else if negb (tty_escaped t) then
    if ch =? 92 then
      upd_tp (fun t => t <| tty_escaped := true |>);;
      echo ch;;
      mret None
    else if ch =? tty_eof t then
      upd_tp (fun t => t <| tty_lfct ::= fun n => s16 (n + 1) |>);;
      mret (Some MARKER)
    else mret (Some ch)
  else
    upd_tp (fun t => t <| tty_escaped := false |>);;
    when (negb (ch =? tty_erase t) && negb (ch =? tty_kill t) && negb (ch =? tty_eof t)) (enqueue_char 92);;
    mret (Some ch).

(** The checks that cooked and cbreak mode share. *)
Definition control_char (ch : Z) : M con (option Z) :=
  t ← get_tp (fun t => t);
  let ch := if (ch =? 13) && tst (tty_mode t) CRMOD then 10 else ch in
  if (ch =? tty_intr t) || (ch =? tty_quit t) then
    sigchar (if ch =? tty_intr t then SIGINT else SIGQUIT);;
    mret None
  else if ch =? tty_xoff t then
    upd_tp (fun t => t <| tty_inhibited := true |>);;
    mret None
  else if tty_inhibited t then
    upd_tp (fun t => t <| tty_inhibited := false |>);;
    console;;
    mret None
  else mret (Some ch).

(** The end of [in_char]: all three modes come here. *)
Definition store_char (ch : Z) : M con unit :=
  when (ch =? 10) (upd_tp (fun t => t <| tty_lfct ::= fun n => s16 (n + 1) |>));;
  enqueue_char ch;;
  echo ch.

(** The function keys are [F1] to [F10], 1 to 10; [func_key] does nothing. *)
Definition in_char (line ch : Z) : M con unit :=
  if (line =? OPERATOR) && (1 <=? ch) && (ch <=? 10) then mret tt else
  on_line line (
    n ← get_tp tty_incount;
    if Z.of_nat TTY_IN_BYTES <=? n then mret tt else
    m ← get_tp tty_mode;
    let mode := Z.land m (Z.lor RAW CBREAK) in
    let ch := if mode =? RAW then ch else Z.land ch 127 in
    if (mode =? COOKED) || (mode =? CBREAK) then
      r ← (if mode =? COOKED then cooked_char ch else mret (Some ch));
      match r with
      | None => mret tt
      | Some ch =>
          r ← control_char ch;
          match r with
          | None => mret tt
          | Some ch => store_char ch
          end
      end
    else store_char ch).

(** ** Reading *)

(** The inner loop of [rd_chars]: fill [tty_buf] from its byte [ct] on. The
    result is [ct], [eot_seen] and [enough]. *)
Fixpoint fill_buf (buf_ct : nat) (cooked : bool) (ct eot_seen enough : Z) : M con (Z * Z * Z) :=
  match buf_ct with
  | O => mret (ct, eot_seen, enough)
  | S buf_ct' =>
      ch ← get_tp (fun t => default 0 (tty_inqueue t !! tty_intail t));
      upd_tp (fun t => t <| tty_intail := if Nat.eqb (S (tty_intail t)) TTY_IN_BYTES then 0%nat else S (tty_intail t) |>);;
      modify (fun c => c <| tty_buf ::= <[Z.to_nat ct := ch]> |>);;
      let ct := ct + 1 in
      if (ch =? 10) || ((ch =? MARKER) && cooked) then
        upd_tp (fun t => t <| tty_lfct ::= fun n => s16 (n - 1) |>);;
        let eot_seen := if ch =? MARKER then eot_seen + 1 else eot_seen in
        let enough := enough + 1 in
        if cooked then mret (ct, eot_seen, enough)
        else fill_buf buf_ct' cooked ct eot_seen enough
      else fill_buf buf_ct' cooked ct eot_seen enough
  end.

(** The outer loop: one buffer load per turn. [tty_buf] is the kernel's own
    data; bytes in memory are unsigned. *)
Fixpoint rd_loop (fuel : nat) (cooked : bool) (user_phys cum eot_seen enough : Z) : M con Z :=
  match fuel with
  | O => nofuel
  | S fuel' =>
      inleft ← get_tp tty_inleft;
      if negb (0 <? inleft) then mret cum else
      incount ← get_tp tty_incount;
      let buf_ct := Z.min (Z.min inleft incount) TTY_BUF_SIZE in
      '(ct, eot_seen, enough) ← fill_buf (Z.to_nat buf_ct) cooked 0 eot_seen enough;
      let user_ct := if nz eot_seen then ct - 1 else ct in
      buf ← gets tty_buf;
      in_sys (modify (fun s => s <| pmem ::= put_bytes user_phys (u8 <$> take (Z.to_nat user_ct) buf) |>));;
      upd_tp (fun t => t <| tty_inleft ::= fun n => s16 (n - ct) |> <| tty_incount ::= fun n => s16 (n - ct) |>);;
      n ← get_tp tty_incount;
      if (n =? 0) || nz enough then mret (s16 (cum + user_ct))
      else rd_loop fuel' cooked (s32 (user_phys + user_ct)) (s16 (cum + user_ct)) eot_seen enough
  end.

Definition rd_chars : M con Z :=
  t ← get_tp (fun t => t);
  let cooked := negb (tst (tty_mode t) (Z.lor RAW CBREAK)) in
  if (tty_incount t =? 0) || (cooked && (tty_lfct t =? 0)) then mret SUSPEND else
  user_phys ← in_sys (numap (tty_inproc t) (tty_in_vir t) (tty_inleft t));
  if user_phys =? 0 then mret E_BAD_ADDR else
  cum ← rd_loop (S (Z.to_nat (tty_inleft t))) cooked user_phys 0 0 0;
  upd_tp (fun t => t <| tty_inleft := 0 |>);;
  mret cum.

(** The fields of a request. *)
Record treq := mk_treq {
  tq_source : Z; tq_type : Z; TTY_LINE : Z; PROC_NR : Z; COUNT : Z; TTY_SPEK : Z; TTY_FLAGS : Z; ADDRESS : Z }.

(** A [char] field of [tty_struct] keeps 8 bits of what is stored in it. *)
Definition do_read (m : treq) : M con unit :=
  inleft ← get_tp tty_inleft;
  if 0 <? inleft then tty_reply TASK_REPLY (tq_source m) (PROC_NR m) EIO 0 0 else
  upd_tp (fun t => t <| tty_incaller := s8 (tq_source m) |> <| tty_inproc := s8 (PROC_NR m) |>
                     <| tty_in_vir := ADDRESS m |> <| tty_inleft := COUNT m |>);;
  code ← rd_chars;
  caller ← get_tp tty_inproc;
  tty_reply TASK_REPLY (tq_source m) caller code 0 0.

Definition do_write (m : treq) : M con unit :=
  outleft ← get_tp tty_outleft;
  if 0 <? outleft then tty_reply TASK_REPLY (tq_source m) (PROC_NR m) EIO 0 0 else
  upd_tp (fun t => t <| tty_otcaller := s8 (tq_source m) |> <| tty_outproc := s8 (PROC_NR m) |>
                     <| tty_out_vir := ADDRESS m |> <| tty_outleft := COUNT m |>
                     <| tty_waiting := WAITING |> <| tty_cum := 0 |>);;
  t ← get_tp (fun t => t);
  phys ← in_sys (numap (tty_outproc t) (tty_out_vir t) (tty_outleft t));
  upd_tp (fun t => t <| tty_phys := phys |>);;
  when (phys =? 0) (upd_tp (fun t => t <| tty_cum := E_BAD_ADDR |> <| tty_outleft := 0 |>));;
  in_sys (updP (proc_addr (tty_outproc t)) (fun p => p <| p_physio := true |>));;
  console;;
  when (nz (TTY_LINE m))
    (tty_reply TASK_REPLY (tty_otcaller t) (tty_outproc t) SUSPEND 0 0).

(** [x & BYTE] of a [char] made [long]. *)
Definition as_byte (c : Z) : Z := Z.land c 255.

Definition do_ioctl (m : treq) : M con unit :=
  let reply r flags erki := tty_reply TASK_REPLY (tq_source m) (PROC_NR m) r flags erki in
  let spek k := s8 (as_byte (Z.shiftr (TTY_SPEK m) k)) in
  let request := COUNT m in
  if request =? TIOCSETP then
    upd_tp (fun t => t <| tty_erase := spek 8 |> <| tty_kill := spek 0 |> <| tty_mode := s16 (TTY_FLAGS m) |>);;
    let speed := Z.land (Z.shiftr (TTY_SPEK m) 16) 65535 in
    when (nz speed) (upd_tp (fun t => t <| tty_speed := s16 speed |>));;
    reply OK 0 0
  else if request =? TIOCSETC then
    upd_tp (fun t => t <| tty_intr := spek 24 |> <| tty_quit := spek 16 |> <| tty_xon := spek 8 |>
                       <| tty_xoff := spek 0 |> <| tty_eof := s8 (as_byte (Z.shiftr (TTY_FLAGS m) 8)) |>);;
    reply OK 0 0
  else if request =? TIOCGETP then
    t ← get_tp (fun t => t);
    reply OK (tty_mode t)
      (Z.lor (Z.lor (s32 (Z.shiftl (tty_speed t) 16)) (Z.shiftl (as_byte (tty_erase t)) 8)) (as_byte (tty_kill t)))
  else if request =? TIOCGETC then
    t ← get_tp (fun t => t);
    reply OK (Z.shiftl (as_byte (tty_eof t)) 8)
      (Z.lor (Z.lor (Z.lor (s32 (Z.shiftl (as_byte (tty_intr t)) 24)) (Z.shiftl (as_byte (tty_quit t)) 16))
        (Z.shiftl (as_byte (tty_xon t)) 8)) (as_byte (tty_xoff t)))
  else if request =? TIOCFLUSH then
    modify (fun c => c <| drv_count := 0 |>);;
    reply OK 0 0
  else reply EINVAL 0 0.

Definition do_setpgrp (m : treq) : M con unit :=
  upd_tp (fun t => t <| tty_pgrp := COUNT m |>);;
  tty_reply TASK_REPLY (tq_source m) (PROC_NR m) OK 0 0.

Definition do_cancel (m : treq) : M con unit :=
  t ← get_tp (fun t => t);
  if (tty_inleft t =? 0) && (tty_outleft t =? 0) then mret tt else
  let mode := COUNT m in
  when (tst mode R_BIT)
    (discard_input;;
     upd_tp (fun t => t <| tty_inleft := 0 |> <| tty_inhibited := false |>));;
  when (tst mode W_BIT)
    (upd_tp (fun t => t <| tty_outleft := 0 |> <| tty_waiting := NOT_WAITING |>));;
  tty_reply TASK_REPLY (tq_source m) (PROC_NR m) EINTR 0 0.

(** ** Typed characters *)

(** Give a hanging reader what has arrived. *)
Definition wake_reader (line : Z) : M con unit :=
  on_line line (
    t ← get_tp (fun t => t);
    if 0 <? tty_inleft t then
      let m := Z.land (tty_mode t) (Z.lor CBREAK RAW) in
      if (0 <? tty_lfct t) || (nz m && (0 <? tty_incount t)) then
        m ← rd_chars;
        t ← get_tp (fun t => t);
        tty_reply REVIVE (tty_incaller t) (tty_inproc t) m 0 0
      else mret tt
    else mret tt).

(** The loop of [charint], from byte [k] of the copy. *)
Fixpoint charint_loop (count k : nat) : M con unit :=
  match count with
  | O => mret tt
  | S count' =>
      ch ← gets (fun c => s8 (default 0 (tty_copy_buf c !! k)));
      n ← gets (fun c => s8 (default 0 (tty_copy_buf c !! S k)));
      in_char n ch;;
      wake_reader n;;
      charint_loop count' (S (S k))
  end.

Definition charint : M con unit :=
  count ← gets drv_count;
  modify (fun c => c <| tty_copy_buf := take (Z.to_nat (count + count)) (drv_buf c) ++
                                        drop (Z.to_nat (count + count)) (tty_copy_buf c) |>);;
  modify (fun c => c <| drv_count := 0 |>);;
  charint_loop (Z.to_nat count) 0.

(** [tty_o_done] never has anything to do. *)
Definition do_int : M con unit := charint.

(** One turn of [tty_task]'s loop. *)
Definition tty_turn (m : treq) : M con unit :=
  if tq_type m =? HARD_INT then do_int
  else if tq_type m =? TTY_READ then on_line (TTY_LINE m) (do_read m)
  else if tq_type m =? TTY_WRITE then on_line (TTY_LINE m) (do_write m)
  else if tq_type m =? TTY_IOCTL then on_line (TTY_LINE m) (do_ioctl m)
  else if tq_type m =? TTY_SETPGRP then on_line (TTY_LINE m) (do_setpgrp m)
  else if tq_type m =? CANCEL then on_line (TTY_LINE m) (do_cancel m)
  else tty_reply TASK_REPLY (tq_source m) (PROC_NR m) EINVAL 0 0.

(** ** The console's side: [lisacons.c] *)

Definition tty_init : M con unit :=
  upd_tp (fun t => t <| tty_inhead := 0%nat |> <| tty_intail := 0%nat |>
    <| tty_mode := Z.lor CRMOD (Z.lor XTABS ECHO) |>
    <| tty_erase := 8 |> <| tty_kill := 64 |> <| tty_intr := 127 |> <| tty_quit := 28 |>
    <| tty_xon := 17 |> <| tty_xoff := 19 |> <| tty_eof := 4 |>);;
  modify (fun c => c <| drv_max := MAX_OVERRUN |>);;
  modify (fun c => c <| drv_count := 0 |>).

Section drivers.
(** The dumps of the process table on the screen (stdmp.c). *)
Context (dumps : M con unit).

Definition kbdput (c line : Z) : M con unit :=
  if c =? DUMP_CHAR then dumps else
  k ← gets drv_count;
  mx ← gets drv_max;
  if mx <=? k then mret tt else
  modify (fun s => s <| drv_buf ::= <[Z.to_nat (2 * k) := u8 c]> |>);;
  modify (fun s => s <| drv_buf ::= <[S (Z.to_nat (2 * k)) := u8 line]> |>);;
  modify (fun s => s <| drv_count ::= fun n => n + 1 |>).

Definition rs_flush : M con unit :=
  modify (fun s => s <| flush_flag := 0 |>);;
  n ← gets drv_count;
  o ← gets output_done;
  if (n =? 0) && (o =? 0) then mret tt else
  in_sys (in_ker (interrupt TTY)).

(** The end of [lisa_scc_int] and [flush_input] of lisakbd.c. *)
Definition flush_input : M con unit :=
  n ← gets drv_count;
  if n <? THRESHOLD then modify (fun s => s <| flush_flag ::= fun n => s16 (n + 1) |>)
  else rs_flush.

(** [rx]: the characters that the serial controller has received. *)
Fixpoint scc_receive (rx : list Z) : M con unit :=
  match rx with
  | [] => mret tt
  | c :: rx' => kbdput (Z.land c 255) CONSOLE;; scc_receive rx'
  end.
Definition lisa_scc_int (rx : list Z) : M con unit :=
  scc_receive rx;;
  flush_input.

(** [putc], the kernel's own output. *)
Definition putc (c : Z) : M con unit :=
  out_char c;;
  in_vdu (vducursor true).
End drivers.
