(* ===== verification/TtyEdit.v ===== *)
(** * Typing at the terminal: echo and line editing

    The circular queue of typed characters as a list; [in_char] in cooked mode
    edits it as the function [edit] says ([in_char_typed]). The echo ends
    because the screen driver does (VduOk). *)

From S2P Require Import Prelude KProc KSystem VduFont Vdu VduDraw VduTerm VduOk Tty.

(** Steps through the monad, the accessors of the state unfolded. *)
Ltac con_steps := unfold get_tp, upd_tp, in_vdu, in_sys; wp_steps.

(** ** The echo ends *)

Definition bytes_ok (t : term) : Prop := forall r c l, on_screen r c l -> 0 <= cells t r c l < 256.

(** The screen is a terminal outside of escape sequences; the cursor may be
    shown. *)
Definition screen_ok (v : vdu) : Prop := exists v0 t, view v0 t /\ next v0 = None /\ bytes_ok t /\
  (v = v0 \/ vducursor true v0 = Done tt v).

Lemma view_cell v t : view v t -> 0 <= trow t < NROW /\ 0 <= Z.min (tcol t) 89 < NCOL /\
  curs v = trow t * BYTR + Z.min (tcol t) 89.
Proof. intros []. screen. Qed.

Lemma vducursor_same v : vducursor (cursor_shown v) v = Done tt v.
Proof.
  unfold vducursor, mbind, M_bind, gets. by rewrite eqb_reflx, orb_true_r.
Qed.

Lemma cursor_hidden v : screen_ok v -> exists v' t, vducursor false v = Done tt v' /\
  view v' t /\ next v' = None /\ bytes_ok t.
Proof.
  intros (v0 & t & Hv & Hn & Hb & [->|E]).
  { exists v0, t. pose proof (vducursor_same v0) as E. rewrite (view_hidden _ _ Hv) in E. done. }
  destruct (view_cell _ _ Hv) as (Hr & Hc & Hcurs). pose proof Hv as [].
  destruct (cursor_drawn v0 true (trow t) (Z.min (tcol t) 89)) as (m1 & E1 & Hm1 & Ho1); try done.
  rewrite E1 in E. injection E as <-.
  set (v1 := v0 <| cursor_shown := true |> <| vram := m1 |>).
  destruct (cursor_drawn v1 false (trow t) (Z.min (tcol t) 89)) as (m2 & E2 & Hm2 & Ho2); try done.
  exists (v1 <| cursor_shown := false |> <| vram := m2 |>), t. split_and!; try done.
  split; try done.
  - intros r c l Hrc. change (m2 (addr r c l) = cells t r c l).
    rewrite (Hm2 _ (Hm1 _ view_cells) r c l Hrc). unfold cell_set.
    destruct (_ && _) eqn:E; [|done]. rewrite !Z.eqb_refl. cbn [andb].
    apply andb_true_iff in E as [->%Z.eqb_eq ->%Z.eqb_eq]. by apply flip_flip, Hb.
  - intros a Ha. change (m2 a = 255). rewrite Ho2 by lia. change (m1 a = 255). rewrite Ho1 by lia.
    by apply view_black.
Qed.

Lemma cursor_back v t : view v t -> next v = None -> bytes_ok t ->
  exists v', vducursor true v = Done tt v' /\ screen_ok v'.
Proof.
  intros Hv Hn Hb. destruct (view_cell _ _ Hv) as (Hr & Hc & Hcurs). pose proof Hv as [].
  destruct (cursor_drawn v true (trow t) (Z.min (tcol t) 89)) as (m & E & _); try done.
  eexists. split; [exact E|]. exists v, t. split_and!; try done. by right.
Qed.

Lemma font8_bytes : Forall (fun b => 0 <= b < 256) font8.
Proof.
  assert (forallb (fun b => (0 <=? b) && (b <? 256)) font8 = true) as H by (vm_compute; reflexivity).
  rewrite forallb_forall in H. apply Forall_forall. intros b Hb. apply list_elem_of_In, H in Hb. lia.
Qed.

Lemma glyph_byte a c l : 0 <= glyph a c l < 256.
Proof.
  unfold glyph. destruct (a =? 0); [|apply u8_range]. destruct (l <? 8); [|lia].
  destruct (font8 !! Z.to_nat (8 * c + l)) as [b|] eqn:E.
  - rewrite (list_lookup_total_correct _ _ _ E). eapply (Forall_lookup_1 _ _ _ _ font8_bytes E).
  - rewrite list_lookup_total_alt, E. simpl. unfold inhabitant. cbn. lia.
Qed.

(** The characters that move the cursor or paint. *)
Definition echoed (ch : Z) : option tcmd :=
  if ch =? 8 then Some TBack else if ch =? 10 then Some TNewline else if ch =? 13 then Some TReturn
  else if (32 <=? ch) && (ch <? 127) then Some (TPrint ch) else None.

Lemma bytes_goto r c t : bytes_ok t -> bytes_ok (goto r c t).
Proof. intros H. unfold goto. by destruct (_ && _). Qed.

Lemma bytes_index t : bytes_ok t -> bytes_ok (index t).
Proof.
  intros H. unfold index. destruct (_ =? _); [|by apply bytes_goto].
  intros r c l Hr. cbn. unfold rows_blank, rows_from. cases; apply H; screen.
Qed.

Lemma bytes_echoed mode ch cmd t : echoed ch = Some cmd -> bytes_ok t -> bytes_ok (tstep mode cmd t).
Proof.
  unfold echoed. intros E H.
  repeat case_match; try discriminate; injection E as <-; cbn [tstep].
  - by apply bytes_goto.
  - apply bytes_index. destruct (tst _ _); [by apply bytes_goto|done].
  - by apply bytes_goto.
  - apply bytes_goto. intros r c l Hr. cbn. unfold cell_set. case_match; [apply glyph_byte|by apply H].
Qed.

Lemma echoed_cmd ch cmd t : echoed ch = Some cmd -> encode cmd = [ch] /\ allowed cmd t = true /\ 0 <= ch < 127.
Proof.
  unfold echoed. intros E.
  destruct (Z.eqb_spec ch 8) as [->|]; [by injection E as <-|].
  destruct (Z.eqb_spec ch 10) as [->|]; [by injection E as <-|].
  destruct (Z.eqb_spec ch 13) as [->|]; [by injection E as <-|].
  destruct (_ && _) eqn:Hb; [|done]. injection E as <-. split_and!; [done|done|lia|lia].
Qed.

(** A part of the console's state that output leaves alone. *)
Definition quiet (c c' : con) : Prop := csys c' = csys c /\ tp c' = tp c /\ drv_count c' = drv_count c /\
  drv_max c' = drv_max c /\ drv_buf c' = drv_buf c /\ tty_copy_buf c' = tty_copy_buf c /\
  tty_buf c' = tty_buf c /\ replies c' = replies c /\ flush_flag c' = flush_flag c /\ output_done c' = output_done c.

Lemma quiet_refl c : quiet c c.
Proof. done. Qed.
Lemma quiet_trans c1 c2 c3 : quiet c1 c2 -> quiet c2 c3 -> quiet c1 c3.
Proof. unfold quiet. intuition congruence. Qed.

(** [echo] of a character the screen can show, with nothing in the RAM queue. *)
Lemma echo_ok ch c : screen_ok (screen c) -> tty_rwords (tp c) = 0 ->
  (echoed ch <> None \/ ch = MARKER /\ tst (tty_mode (tp c)) (Z.lor CBREAK RAW) = false) ->
  wp (echo ch) (fun _ c' => screen_ok (screen c') /\ quiet c c') c.
Proof.
  intros Hs Hw Hch. unfold echo. con_steps.
  destruct (tst (tty_mode (tp c)) ECHO); cbn [negb]; [|by con_steps].
  con_steps. apply wp_when.
  - intros Hb. destruct Hch as [Hch|[-> Hm]]; [|by rewrite Hm in Hb].
    destruct (echoed ch) as [cmd|] eqn:Ecmd; [|done].
    destruct (cursor_hidden _ Hs) as (v1 & t & E1 & Hv1 & Hn1 & Hb1).
    destruct (echoed_cmd ch cmd t Ecmd) as (Henc & Hal & Hr).
    pose proof (cmd_run (tty_mode (tp c)) v1 t cmd Hv1 Hn1 Hal) as Hrun.
    rewrite Henc in Hrun. unfold wp in Hrun. rewrite vdu_puts_one in Hrun.
    destruct (vdu_out (tty_mode (tp c)) ch v1) as [[] v2| |] eqn:E2; [|done|done].
    destruct Hrun as [Hv2 Hn2].
    destruct (cursor_back _ _ Hv2 Hn2) as (v3 & E3 & Hs3); [by eapply bytes_echoed|].
    assert (wp (in_vdu (vducursor false);; out_char ch;; in_vdu (vducursor true))
      (fun _ c' => screen_ok (screen c') /\ quiet c c') c) as Hout.
    { unfold in_vdu. con_steps. unfold wp at 1. rewrite E1. unfold out_char. rewrite land_255 by lia.
      con_steps. cbn [tp set_field screen]. unfold wp at 1. rewrite E2.
      destruct ((ch =? 10) && _); unfold when, scc_putc; con_steps; unfold wp; cbn; rewrite E3; done. }
    eapply wp_mono; [exact Hout|]. intros _ c' [? Hq]. unfold flush. con_steps.
    destruct Hq as (?&Ht&?). rewrite Ht, Hw. con_steps. split; [done|]. by unfold quiet.
  - intros _. unfold flush. con_steps. rewrite Hw. by con_steps.
Qed.

(** ** The circular queue as a list *)

Definition slot (tl i : nat) : nat := if (tl + i <? TTY_IN_BYTES)%nat then (tl + i)%nat else (tl + i - TTY_IN_BYTES)%nat.

Record holds_q (t : tty) (q : list Z) : Prop := {
  hq_array : length (tty_inqueue t) = TTY_IN_BYTES;
  hq_tail : (tty_intail t < TTY_IN_BYTES)%nat;
  hq_count : tty_incount t = Z.of_nat (length q);
  hq_room : (length q <= TTY_IN_BYTES)%nat;
  hq_head : tty_inhead t = slot (tty_intail t) (length q);
  hq_chars : forall i, (i < length q)%nat -> tty_inqueue t !! slot (tty_intail t) i = q !! i;
}.

Lemma bytes_pos : (1 < TTY_IN_BYTES)%nat /\ Z.of_nat TTY_IN_BYTES = 1000.
Proof. unfold TTY_IN_BYTES. lia. Qed.

#[local] Opaque TTY_IN_BYTES.

Lemma s16_nat n : (n <= 2000)%nat -> s16 (Z.of_nat n) = Z.of_nat n.
Proof. intros H. apply s16_id. lia. Qed.

Ltac slots := unfold slot in *; pose proof bytes_pos;
  repeat match goal with
  | |- context [Nat.ltb ?a ?b] => destruct (Nat.ltb_spec a b)
  | H : context [Nat.ltb ?a ?b] |- _ => destruct (Nat.ltb_spec a b)
  | |- context [Nat.eqb ?a ?b] => destruct (Nat.eqb_spec a b)
  end; try lia.

Lemma slot_inj tl i j : (tl < TTY_IN_BYTES)%nat -> (i < TTY_IN_BYTES)%nat -> (j < TTY_IN_BYTES)%nat ->
  slot tl i = slot tl j -> i = j.
Proof. intros. slots. Qed.
Lemma slot_lt tl i : (tl < TTY_IN_BYTES)%nat -> (i <= TTY_IN_BYTES)%nat -> (slot tl i < TTY_IN_BYTES)%nat.
Proof. intros. slots. Qed.

(** The fields of the queue. *)
Lemma holds_q_mono t t' q : holds_q t q -> tty_inqueue t' = tty_inqueue t -> tty_inhead t' = tty_inhead t ->
  tty_intail t' = tty_intail t -> tty_incount t' = tty_incount t -> holds_q t' q.
Proof. intros [] E1 E2 E3 E4. by split; rewrite ?E1, ?E2, ?E3, ?E4. Qed.

Definition enqueued (ch : Z) (t : tty) : tty :=
  t <| tty_inqueue ::= <[tty_inhead t := ch]> |>
    <| tty_inhead := if Nat.eqb (S (tty_inhead t)) TTY_IN_BYTES then 0%nat else S (tty_inhead t) |>
    <| tty_incount ::= fun n => s16 (n + 1) |>.

Lemma enqueued_q t q ch : holds_q t q -> (length q < TTY_IN_BYTES)%nat -> holds_q (enqueued ch t) (q ++ [ch]).
Proof.
  intros [Ha Htl Hc Hr Hh Hq] Hlt. pose proof bytes_pos. split; cbn -[Nat.eqb].
  - by rewrite length_insert.
  - done.
  - rewrite Hc, length_app. cbn [length]. replace (Z.of_nat (length q) + 1) with (Z.of_nat (length q + 1)) by lia.
    apply s16_nat. lia.
  - rewrite length_app. cbn [length]. lia.
  - rewrite Hh, length_app. cbn [length]. slots.
  - intros i Hi. rewrite length_app in Hi. cbn [length] in Hi. rewrite Hh.
    destruct (decide (i = length q)) as [->|Hne].
    + rewrite list_lookup_insert_eq by (rewrite Ha; apply slot_lt; lia).
      by rewrite lookup_app_r, Nat.sub_diag by lia.
    + rewrite list_lookup_insert_ne by (intros E; apply slot_inj in E; lia).
      rewrite lookup_app_l by lia. apply Hq. lia.
Qed.

(** What erasing a character and a line leave: nothing beyond a newline or a
    carriage return is erased. *)
Definition line_end (ch : Z) : bool := (ch =? 10) || (ch =? 13).
Definition rub (q : list Z) : option (list Z) :=
  match last q with
  | Some ch => if line_end ch then None else Some (removelast q)
  | None => None
  end.
Fixpoint kill_at (fuel : nat) (q : list Z) : list Z :=
  match fuel with
  | O => q
  | S fuel' => match rub q with Some q' => kill_at fuel' q' | None => q end
  end.
Definition kill_line (q : list Z) : list Z := kill_at (length q) q.

Definition chucked (t : tty) : tty :=
  t <| tty_inhead := if Nat.eqb (tty_inhead t) 0 then (TTY_IN_BYTES - 1)%nat else (tty_inhead t - 1)%nat |>
    <| tty_incount ::= fun n => s16 (n - 1) |>.

Lemma chucked_q t q ch : holds_q t (q ++ [ch]) -> holds_q (chucked t) q.
Proof.
  intros [Ha Htl Hc Hr Hh Hq]. pose proof bytes_pos.
  rewrite length_app in *. cbn [length] in *. split; cbn -[Nat.eqb].
  - done.
  - done.
  - rewrite Hc. replace (Z.of_nat (length q + 1) - 1) with (Z.of_nat (length q)) by lia. apply s16_nat. lia.
  - lia.
  - rewrite Hh. slots.
  - intros i Hi. rewrite Hq by lia. by rewrite lookup_app_l by lia.
Qed.

Lemma chuck_run c q : holds_q (tp c) q ->
  chuck c = match rub q with
            | Some _ => Done true (c <| tp ::= chucked |>)
            | None => Done false c
            end.
Proof.
  intros Hh. pose proof bytes_pos. unfold chuck, get_tp, gets, mbind, M_bind, rub. rewrite (hq_count _ _ Hh).
  destruct q as [|ch q _] using rev_ind; [done|].
  rewrite last_snoc, length_app. cbn [length].
  destruct (Z.eqb_spec (Z.of_nat (length q + 1)) 0); [lia|].
  replace (default 0 (tty_inqueue (tp c) !! (if Nat.eqb (tty_inhead (tp c)) 0 then (TTY_IN_BYTES - 1)%nat else (tty_inhead (tp c) - 1)%nat)))
    with ch.
  - unfold line_end. by destruct ((ch =? 10) || (ch =? 13)).
  - destruct Hh as [Ha Htl Hc Hr Hh Hq]. rewrite length_app in *. cbn [length] in *.
    replace (if Nat.eqb _ 0 then _ else _) with (slot (tty_intail (tp c)) (length q)) by (rewrite Hh; slots).
    rewrite Hq, lookup_app_r, Nat.sub_diag by lia. done.
Qed.

Lemma rub_q t q q' : holds_q t q -> rub q = Some q' -> holds_q (chucked t) q'.
Proof.
  unfold rub. intros Hh E. destruct q as [|ch q _] using rev_ind; [done|].
  rewrite last_snoc, removelast_last in E. destruct (line_end ch); [done|]. injection E as <-.
  by eapply chucked_q.
Qed.

Lemma rub_length q q' : rub q = Some q' -> length q = S (length q').
Proof.
  unfold rub. intros E. destruct q as [|ch q _] using rev_ind; [done|].
  rewrite last_snoc, removelast_last in E. destruct (line_end ch); [done|]. injection E as <-.
  rewrite length_app. simpl. lia.
Qed.


(** ** Line editing in cooked mode *)

(** A terminal with its input queue, line count and escape flag blanked out:
    what editing does not touch. *)
Definition frame (t : tty) : tty :=
  t <| tty_inqueue := [] |> <| tty_inhead := 0%nat |> <| tty_intail := 0%nat |> <| tty_incount := 0 |>
    <| tty_lfct := 0 |> <| tty_escaped := false |>.

Definition special (t : tty) (ch : Z) : bool :=
  (ch =? tty_intr t) || (ch =? tty_quit t) || (ch =? tty_xoff t) || (ch =? tty_eof t).

(** Cooked mode, output not stopped, and neither the kill character nor the
    newline made into something else. *)
Record canonical (t : tty) : Prop := {
  ca_mode : tst (tty_mode t) (Z.lor RAW CBREAK) = false;
  ca_running : tty_inhibited t = false;
  ca_rwords : tty_rwords t = 0;
  ca_kill : echoed (tty_kill t) <> None;
  ca_newline : special t 10 = false;
}.

(** Characters that are typed as text: printable ones, backspace, CR, LF. *)
Definition text (t : tty) (ch : Z) : Prop := echoed ch <> None /\ special t ch = false.

(** The edited lines and the state of the escape, after one more character. *)
Definition edit (t : tty) (st : list Z * bool) (ch : Z) : list Z * bool :=
  let '(q, esc) := st in
  if (ch =? tty_erase t) && negb esc then (default q (rub q), false)
  else if (ch =? tty_kill t) && negb esc then (kill_line q, false)
  else if negb esc && (ch =? 92) then (q, true)
  else
    let q := if esc && negb (ch =? tty_erase t) && negb (ch =? tty_kill t) then q ++ [92] else q in
    (q ++ [if (ch =? 13) && tst (tty_mode t) CRMOD then 10 else ch], false).

Definition lines (q : list Z) : Z := Z.of_nat (count_occ Z.eq_dec q 10).

Record typed (c : con) (q : list Z) (esc : bool) : Prop := {
  ty_q : holds_q (tp c) q;
  ty_esc : tty_escaped (tp c) = esc;
  ty_lines : tty_lfct (tp c) = lines q;
  ty_canonical : canonical (tp c);
  ty_screen : screen_ok (screen c);
}.

(** What typing leaves alone: all but the screen, the serial line and the
    queue. *)
Definition stays (c c' : con) : Prop := csys c' = csys c /\ frame (tp c') = frame (tp c) /\
  drv_count c' = drv_count c /\ drv_max c' = drv_max c /\ drv_buf c' = drv_buf c /\
  tty_copy_buf c' = tty_copy_buf c /\ replies c' = replies c /\ flush_flag c' = flush_flag c /\
  tty_buf c' = tty_buf c.

Lemma stays_trans c1 c2 c3 : stays c1 c2 -> stays c2 c3 -> stays c1 c3.
Proof. unfold stays. intuition congruence. Qed.
Lemma quiet_stays c c' : quiet c c' -> stays c c'.
Proof. unfold quiet, stays. intuition congruence. Qed.

Lemma typed_quiet c c' q esc : typed c q esc -> quiet c c' -> screen_ok (screen c') -> typed c' q esc.
Proof. intros [] (_&Ht&_) Hs. by split; rewrite ?Ht. Qed.

(** A change of the queue, the line count and the escape. *)
Lemma typed_tp c q esc t' q' esc' : typed c q esc -> frame t' = frame (tp c) -> holds_q t' q' ->
  tty_escaped t' = esc' -> tty_lfct t' = lines q' ->
  typed (c <| tp := t' |>) q' esc' /\ stays c (c <| tp := t' |>).
Proof.
  intros [_ _ _ [Hm Hi Hw Hk Hn] Hs] Hf Hq He Hl. split; [|by unfold stays].
  split; try done. change (tp (c <| tp := t' |>)) with t'.
  unfold special in Hn.
  rewrite <-(f_equal tty_mode Hf : tty_mode t' = tty_mode (tp c)) in Hm.
  rewrite <-(f_equal tty_inhibited Hf : tty_inhibited t' = tty_inhibited (tp c)) in Hi.
  rewrite <-(f_equal tty_rwords Hf : tty_rwords t' = tty_rwords (tp c)) in Hw.
  rewrite <-(f_equal tty_kill Hf : tty_kill t' = tty_kill (tp c)) in Hk.
  rewrite <-(f_equal tty_intr Hf : tty_intr t' = tty_intr (tp c)) in Hn.
  rewrite <-(f_equal tty_quit Hf : tty_quit t' = tty_quit (tp c)) in Hn.
  rewrite <-(f_equal tty_xoff Hf : tty_xoff t' = tty_xoff (tp c)) in Hn.
  rewrite <-(f_equal tty_eof Hf : tty_eof t' = tty_eof (tp c)) in Hn.
  by split.
Qed.

Lemma lines_app q1 q2 : lines (q1 ++ q2) = lines q1 + lines q2.
Proof. unfold lines. rewrite count_occ_app. lia. Qed.

Lemma lines_le q : 0 <= lines q <= Z.of_nat (length q).
Proof. unfold lines. pose proof (count_occ_bound Z.eq_dec 10 q). lia. Qed.

Lemma rub_lines q q' : rub q = Some q' -> lines q' = lines q.
Proof.
  unfold rub. intros E. destruct q as [|ch q _] using rev_ind; [done|].
  rewrite last_snoc, removelast_last in E. unfold line_end in E.
  destruct (Z.eqb_spec ch 10); [done|]. cbn [orb] in E. destruct (ch =? 13); [done|]. injection E as <-.
  rewrite lines_app. unfold lines at 3. simpl. destruct (Z.eq_dec ch 10); [done|]. lia.
Qed.

(** [echo] keeps what is typed. *)
Lemma echo_typed ch c q esc : typed c q esc -> echoed ch <> None ->
  wp (echo ch) (fun _ c' => typed c' q esc /\ stays c c') c.
Proof.
  intros Ht He. eapply wp_mono; [apply echo_ok; [apply Ht|apply Ht|by left]|].
  intros _ c' [Hs Hq]. split; [by eapply typed_quiet|by apply quiet_stays].
Qed.

Lemma wp_then {A B} (m : M con A) (k : A -> M con B) c (R : A -> con -> Prop) Q :
  wp m R c -> (forall a c', R a c' -> wp (k a) Q c') -> wp (m ≫= k) Q c.
Proof. intros H1 H2. apply wp_bind. eapply wp_mono; [exact H1|exact H2]. Qed.

Lemma chuck_typed c q esc q' : typed c q esc -> rub q = Some q' ->
  typed (c <| tp ::= chucked |>) q' esc /\ stays c (c <| tp ::= chucked |>).
Proof.
  intros Ht Hr. apply (typed_tp _ _ _ (chucked (tp c)) q' esc Ht); try done.
  - eapply rub_q; [apply Ht|done].
  - apply Ht.
  - rewrite (rub_lines _ _ Hr). apply Ht.
Qed.

Lemma chuck_wp c q esc (Q : bool -> con -> Prop) : typed c q esc ->
  (rub q = None -> Q false c) ->
  (forall q', rub q = Some q' -> typed (c <| tp ::= chucked |>) q' esc /\ stays c (c <| tp ::= chucked |>) ->
     Q true (c <| tp ::= chucked |>)) ->
  wp chuck Q c.
Proof.
  intros Ht HN HS. unfold wp. rewrite (chuck_run c q (ty_q _ _ _ Ht)).
  destruct (rub q) as [q'|] eqn:E; [|by apply HN]. by apply (HS q' eq_refl), chuck_typed with q.
Qed.

Lemma kill_at_fuel n : forall q m, (length q <= n)%nat -> (n <= m)%nat -> kill_at m q = kill_at n q.
Proof.
  induction n as [|n IH]; intros q m Hq Hm.
  - destruct q; [|simpl in Hq; lia]. by destruct m.
  - destruct m as [|m]; [lia|]. simpl. destruct (rub q) as [q'|] eqn:E; [|done].
    apply rub_length in E. apply IH; lia.
Qed.

Lemma chuck_all_typed esc : forall fuel q c, typed c q esc -> (length q < fuel)%nat ->
  wp (chuck_all fuel) (fun _ c' => typed c' (kill_line q) esc /\ stays c c') c.
Proof.
  unfold kill_line. induction fuel as [|fuel IH]; intros q c Ht Hf; [lia|].
  cbn [chuck_all]. apply wp_bind. eapply chuck_wp; [exact Ht| |].
  - intros E. apply wp_ret. split; [|done]. destruct q; [done|]. simpl length. cbn [kill_at]. by rewrite E.
  - intros q' E [Ht' Hs]. pose proof (rub_length _ _ E) as Hl.
    eapply wp_mono; [apply (IH q' _ Ht'); lia|]. intros _ c' [Ht2 Hs2].
    split; [|by eapply stays_trans]. rewrite Hl. cbn [kill_at]. by rewrite E.
Qed.

(** ** One character *)

Lemma special_false t ch : special t ch = false ->
  (ch =? tty_intr t) = false /\ (ch =? tty_quit t) = false /\ (ch =? tty_xoff t) = false /\ (ch =? tty_eof t) = false.
Proof. unfold special. rewrite !orb_false_iff. tauto. Qed.

Lemma echoed_range ch : echoed ch <> None -> 0 <= ch < 127 /\ ch <> MARKER.
Proof.
  intros H. destruct (echoed ch) as [cmd|] eqn:E; [|done].
  destruct (echoed_cmd ch cmd blank E) as (_ & _ & Hr). unfold MARKER. lia.
Qed.

Lemma store_typed ch c q esc : typed c q esc -> (length q < TTY_IN_BYTES)%nat -> echoed ch <> None ->
  wp (store_char ch) (fun _ c' => typed c' (q ++ [ch]) esc /\ stays c c') c.
Proof.
  intros Ht Hl He. unfold store_char, enqueue_char.
  set (t' := enqueued ch (tp c) <| tty_lfct ::= fun n => if ch =? 10 then s16 (n + 1) else n |>).
  assert (typed (c <| tp := t' |>) (q ++ [ch]) esc /\ stays c (c <| tp := t' |>)) as [Ht' Hs'].
  { apply (typed_tp _ _ _ t' _ _ Ht); try done.
    - eapply (holds_q_mono (enqueued ch (tp c))); try done. apply enqueued_q; [apply Ht|done].
    - apply Ht.
    - cbn. rewrite (ty_lines _ _ _ Ht), lines_app. pose proof (lines_le q). pose proof bytes_pos.
      unfold lines at 4. simpl. destruct (Z.eqb_spec ch 10), (Z.eq_dec ch 10); try done; simpl; [rewrite s16_id|]; lia. }
  con_steps. apply wp_when; intros Hb; con_steps.
  - replace (set_field tp _ (set_field tp _ c)) with (c <| tp := t' |>) by (subst t'; by rewrite Hb).
    eapply wp_mono; [by apply echo_typed|]. intros _ c' [? ?]. split; [done|by eapply stays_trans].
  - replace (set_field tp _ c) with (c <| tp := t' |>) by (subst t'; rewrite Hb; by destruct c as [? []]).
    eapply wp_mono; [by apply echo_typed|]. intros _ c' [? ?]. split; [done|by eapply stays_trans].
Qed.

Lemma control_store ch c q esc : typed c q esc -> (length q < TTY_IN_BYTES)%nat -> text (tp c) ch ->
  wp (control_char ch) (fun r => wp (match r with None => mret tt | Some ch => store_char ch end)
    (fun _ c' => typed c' (q ++ [if (ch =? 13) && tst (tty_mode (tp c)) CRMOD then 10 else ch]) esc /\ stays c c')) c.
Proof.
  intros Ht Hl [He Hsp]. pose proof (ty_canonical _ _ _ Ht) as [Hm Hi Hw Hk Hn].
  unfold control_char. con_steps.
  set (ch' := if (ch =? 13) && tst (tty_mode (tp c)) CRMOD then 10 else ch).
  assert (special (tp c) ch' = false /\ echoed ch' <> None) as [Hsp' He'] by (subst ch'; by destruct (_ && _)).
  destruct (special_false _ _ Hsp') as (-> & -> & -> & _). cbn [orb]. rewrite Hi. con_steps.
  by apply store_typed.
Qed.

Lemma typed_escape b c q esc : typed c q esc ->
  typed (c <| tp ::= fun t => t <| tty_escaped := b |> |>) q b /\
  stays c (c <| tp ::= fun t => t <| tty_escaped := b |> |>).
Proof.
  intros Ht. apply (typed_tp _ _ _ ((tp c) <| tty_escaped := b |>) q b Ht); try done; [|apply Ht].
  by eapply holds_q_mono; [apply Ht|..].
Qed.

Lemma in_char_typed ch c q esc : typed c q esc -> text (tp c) ch -> (length q + 2 <= TTY_IN_BYTES)%nat ->
  wp (in_char CONSOLE ch)
    (fun _ c' => typed c' (fst (edit (tp c) (q, esc) ch)) (snd (edit (tp c) (q, esc) ch)) /\ stays c c') c.
Proof.
  intros Ht [He Hsp] Hl. pose proof bytes_pos. destruct (echoed_range ch He) as [Hr _].
  pose proof (ty_canonical _ _ _ Ht) as [Hm Hi Hw Hk Hn].
  destruct (special_false _ _ Hsp) as (Hintr & Hquit & Hxoff & Heof).
  unfold in_char, on_line. change (CONSOLE =? OPERATOR) with false. change (CONSOLE =? CONSOLE) with true.
  cbn [andb]. cbv iota. con_steps.
  rewrite (hq_count _ _ (ty_q _ _ _ Ht)). destruct (Z.leb_spec (Z.of_nat TTY_IN_BYTES) (Z.of_nat (length q))); [lia|].
  con_steps. assert (Z.land (tty_mode (tp c)) (Z.lor RAW CBREAK) = 0) as -> by by apply nz_false.
  change (0 =? RAW) with false. change (0 =? COOKED) with true. cbn [orb]. cbv iota zeta.
  replace (Z.land ch 127) with ch by (change 127 with (Z.ones 7); rewrite Z.land_ones, Z.mod_small; lia).
  unfold cooked_char. con_steps. rewrite (ty_esc _ _ _ Ht). unfold edit.
  destruct ((ch =? tty_erase (tp c)) && negb esc) eqn:Her.
  { apply andb_true_iff in Her as [_ ->%negb_true_iff]. con_steps. eapply chuck_wp; [exact Ht| |].
    - intros E. rewrite E. con_steps. unfold when. con_steps. done.
    - intros q' E [Ht1 Hs1]. rewrite E. unfold when. con_steps.
      eapply wp_mono; [by apply echo_typed|]. intros _ c2 [Ht2 Hs2]. con_steps.
      eapply wp_mono; [by apply echo_typed|]. intros _ c3 [Ht3 Hs3]. con_steps.
      eapply wp_mono; [by apply echo_typed|]. intros _ c4 [Ht4 Hs4]. con_steps.
      split; [done|]. repeat (eapply stays_trans; [eassumption|]). by split_and!. }
  destruct ((ch =? tty_kill (tp c)) && negb esc) eqn:Hki.
  { apply andb_true_iff in Hki as [_ ->%negb_true_iff].
    con_steps. eapply wp_mono; [apply (chuck_all_typed false _ q c Ht); lia|]. intros _ c1 [Ht1 Hs1]. con_steps.
    eapply wp_mono; [by apply echo_typed|]. intros _ c2 [Ht2 Hs2]. con_steps.
    eapply wp_mono; [by apply echo_typed|]. intros _ c3 [Ht3 Hs3]. con_steps.
    split; [done|]. repeat (eapply stays_trans; [eassumption|]). by split_and!. }
  destruct esc; cbn [negb andb].
  - con_steps. set (c1 := set_field tp _ c).
    destruct (typed_escape false _ _ _ Ht) as [Ht1 Hs1]. fold c1 in Ht1, Hs1.
    rewrite Heof. cbn [negb andb]. rewrite andb_true_r. apply wp_when; intros Hb; rewrite Hb.
    + unfold enqueue_char. con_steps.
      destruct (typed_tp c1 q false (enqueued 92 (tp c1)) (q ++ [92]) false Ht1) as [Ht2 Hs2]; try done.
      { apply enqueued_q; [apply Ht1|lia]. }
      { cbn. rewrite lines_app, (ty_lines _ _ _ Ht). unfold lines at 3. simpl. lia. }
      con_steps. eapply wp_mono; [apply (control_store ch _ (q ++ [92]) false Ht2)|].
      * rewrite length_app. cbn [length]. lia.
      * done.
      * intros r c2 Hc2. eapply wp_mono; [exact Hc2|]. intros _ c3 [Ht3 Hs3].
        split; [done|]. exact (stays_trans _ _ _ Hs1 (stays_trans _ _ _ Hs2 Hs3)).
    + con_steps. eapply wp_mono; [apply (control_store ch c1 q false Ht1); [lia|done]|].
      intros r c2 Hc2. eapply wp_mono; [exact Hc2|]. intros _ c3 [Ht3 Hs3].
      split; [done|]. exact (stays_trans _ _ _ Hs1 Hs3).
  - destruct (Z.eqb_spec ch 92) as [->|Hne]; cbn [fst snd].
    + con_steps. destruct (typed_escape true _ _ _ Ht) as [Ht1 Hs1].
      eapply wp_mono; [by apply (echo_typed _ _ _ _ Ht1)|]. intros _ c2 [Ht2 Hs2]. con_steps.
      split; [done|by eapply stays_trans].
    + rewrite Heof. con_steps. eapply wp_mono; [apply (control_store ch c q false Ht); [lia|done]|].
      intros r c2 Hc2. exact Hc2.
Qed.

(** ** A sequence of characters *)

Definition edits (t : tty) (chs : list Z) (st : list Z * bool) : list Z * bool := foldl (edit t) st chs.

(** Characters as they arrive, one after the other, with nobody reading. *)
Fixpoint type_in (chs : list Z) : M con unit :=
  match chs with
  | [] => mret tt
  | ch :: chs' => in_char CONSOLE ch;; type_in chs'
  end.

Lemma frame_settings t t' : frame t' = frame t -> edit t' = edit t /\ text t' = text t /\
  tty_mode t' = tty_mode t /\ tty_inleft t' = tty_inleft t.
Proof.
  intros E. pose proof (f_equal tty_mode E : tty_mode t' = tty_mode t) as Em.
  pose proof (f_equal tty_erase E : tty_erase t' = tty_erase t) as Ee.
  pose proof (f_equal tty_kill E : tty_kill t' = tty_kill t) as Ek.
  pose proof (f_equal tty_intr E : tty_intr t' = tty_intr t) as Ei.
  pose proof (f_equal tty_quit E : tty_quit t' = tty_quit t) as Eq.
  pose proof (f_equal tty_xoff E : tty_xoff t' = tty_xoff t) as Ex.
  pose proof (f_equal tty_eof E : tty_eof t' = tty_eof t) as Eo.
  pose proof (f_equal tty_inleft E : tty_inleft t' = tty_inleft t) as El.
  unfold edit, text, special. by rewrite Em, Ee, Ek, Ei, Eq, Ex, Eo.
Qed.

Lemma kill_length q : (length (kill_line q) <= length q)%nat.
Proof.
  unfold kill_line. generalize (length q) at 1. intros fuel. revert q.
  induction fuel as [|fuel IH]; intros q; simpl; [lia|].
  destruct (rub q) as [q'|] eqn:E; [|lia]. apply rub_length in E. specialize (IH q'). lia.
Qed.

Lemma edit_length t q esc ch :
  (length (fst (edit t (q, esc) ch)) + Nat.b2n (snd (edit t (q, esc) ch)) <= length q + Nat.b2n esc + 1)%nat.
Proof.
  unfold edit. destruct (_ && negb esc).
  { simpl. destruct (rub q) as [q'|] eqn:E; simpl; [apply rub_length in E|]; lia. }
  destruct (_ && negb esc). { simpl. pose proof (kill_length q). lia. }
  destruct esc; simpl; [|destruct (ch =? 92); simpl; rewrite ?length_app; simpl; lia].
  destruct (_ && _); rewrite ?length_app; simpl; lia.
Qed.

Lemma type_in_typed chs : forall c q esc, typed c q esc -> Forall (text (tp c)) chs ->
  (length q + Nat.b2n esc + length chs + 1 <= TTY_IN_BYTES)%nat ->
  wp (type_in chs)
    (fun _ c' => typed c' (fst (edits (tp c) chs (q, esc))) (snd (edits (tp c) chs (q, esc))) /\ stays c c') c.
Proof.
  unfold edits. induction chs as [|ch chs IH]; intros c q esc Ht Hch Hl; cbn [type_in foldl length] in *; [by apply wp_ret|].
  inversion_clear Hch as [|?? Hc0 Hcs]. apply wp_bind.
  eapply wp_mono; [apply (in_char_typed ch c q esc Ht Hc0); lia|]. intros _ c1 [Ht1 Hs1].
  pose proof (edit_length (tp c) q esc ch) as He.
  destruct (frame_settings _ _ (proj1 (proj2 Hs1))) as (Ee & Etx & _).
  destruct (edit (tp c) (q, esc) ch) as [q1 esc1]. cbn [fst snd] in *.
  eapply wp_mono; [apply (IH c1 q1 esc1 Ht1)|].
  - by rewrite Etx.
  - lia.
  - intros _ c2 [Ht2 Hs2]. rewrite Ee in Ht2. split; [done|by eapply stays_trans].
Qed.
