(* ===== verification/TtyRead.v ===== *)
(** * Reading from the terminal

    What a read takes from the queue and puts into the reader's memory
    ([rd_chars_line]), the way of the characters from the serial line to the
    queue, and the theorems about a line typed before or after it is read. *)

From S2P Require Import Prelude KProc KSystem VduFont Vdu VduDraw VduTerm VduOk Tty TtyEdit.

#[local] Opaque TTY_IN_BYTES.

(** ** Reading a line *)

(** At most [n] characters, up to and including a newline. *)
Fixpoint take_line (n : nat) (q : list Z) : list Z :=
  match n, q with
  | S n', ch :: q' => if ch =? 10 then [ch] else ch :: take_line n' q'
  | _, _ => []
  end.

Definition ended (q : list Z) : Z := if bool_decide (10 ∈ q) then 1 else 0.

Lemma take_line_prefix n q : take_line n q = take (length (take_line n q)) q /\
  (length (take_line n q) <= n)%nat /\ (length (take_line n q) <= length q)%nat.
Proof.
  revert q. induction n as [|n IH]; intros [|ch q]; simpl; try (split_and!; (done || lia)).
  destruct (ch =? 10); simpl; [split_and!; (done || lia)|].
  destruct (IH q) as (E & ? & ?). split_and!; [by rewrite <-E|lia|lia].
Qed.

Lemma lines_cons ch q : lines (ch :: q) = (if ch =? 10 then 1 else 0) + lines q.
Proof. unfold lines. simpl. destruct (Z.eq_dec ch 10), (Z.eqb_spec ch 10); try done; lia. Qed.

Lemma take_line_lines n q : lines (take_line n q) = ended (take_line n q).
Proof.
  revert q. induction n as [|n IH]; intros [|ch q]; simpl; try done.
  unfold ended. destruct (Z.eqb_spec ch 10) as [->|Hne]; [done|].
  rewrite lines_cons. destruct (Z.eqb_spec ch 10); [done|]. rewrite IH. unfold ended. simpl.
  f_equal. repeat case_bool_decide; set_solver.
Qed.

(** The queue while it is being read: [tty_incount] is brought up to date
    after each buffer load. *)
Record reading (t : tty) (q : list Z) : Prop := {
  re_array : length (tty_inqueue t) = TTY_IN_BYTES;
  re_tail : (tty_intail t < TTY_IN_BYTES)%nat;
  re_room : (length q <= TTY_IN_BYTES)%nat;
  re_head : tty_inhead t = slot (tty_intail t) (length q);
  re_chars : forall i, (i < length q)%nat -> tty_inqueue t !! slot (tty_intail t) i = q !! i;
}.

Definition next_tail (t : tty) : nat :=
  if Nat.eqb (S (tty_intail t)) TTY_IN_BYTES then 0%nat else S (tty_intail t).

Lemma reading_next t ch q : reading t (ch :: q) -> reading (t <| tty_intail ::= fun _ => next_tail t |>) q.
Proof.
  intros [Ha Htl Hr Hh Hq]. pose proof bytes_pos. cbn [length] in *.
  assert (forall i, (i <= length q)%nat -> slot (next_tail t) i = slot (tty_intail t) (S i)) as Hs.
  { intros i Hi. unfold next_tail. slots. }
  split; cbn -[Nat.eqb].
  - done.
  - unfold next_tail. slots.
  - lia.
  - rewrite Hs by lia. done.
  - intros i Hi. rewrite Hs by lia. by rewrite Hq by lia.
Qed.

Definition fill_kept (c c' : con) : Prop := frame (tp c') = frame (tp c) /\ tty_incount (tp c') = tty_incount (tp c) /\
  tty_escaped (tp c') = tty_escaped (tp c) /\ csys c' = csys c /\ screen c' = screen c /\ replies c' = replies c.

Lemma fill_kept_trans c1 c2 c3 : fill_kept c1 c2 -> fill_kept c2 c3 -> fill_kept c1 c3.
Proof. unfold fill_kept. intuition congruence. Qed.

(** No end-of-file marks. *)
Definition unmarked (q : list Z) : Prop := Forall (fun ch => ch <> MARKER) q.

Lemma take_S_insert (l : list Z) k x y : l !! k = Some y -> take (S k) (<[k := x]> l) = take k l ++ [x].
Proof.
  intros Hk. rewrite (take_S_r _ _ x).
  - by rewrite take_insert_ge by lia.
  - apply list_lookup_insert_eq. by eapply lookup_lt_Some.
Qed.

Definition fill_result (n : nat) (q : list Z) (k : nat) (enough : Z) (c : con) (r : Z * Z * Z) (c' : con) : Prop :=
  let l := take_line n q in
  r = (Z.of_nat (k + length l), 0, enough + ended l) /\
  reading (tp c') (drop (length l) q) /\
  tty_lfct (tp c') = tty_lfct (tp c) - ended l /\
  length (tty_buf c') = length (tty_buf c) /\
  take (k + length l) (tty_buf c') = take k (tty_buf c) ++ l /\ fill_kept c c'.

Lemma ended_cons ch q : ended (ch :: q) = if ch =? 10 then 1 else ended q.
Proof. unfold ended. destruct (Z.eqb_spec ch 10); repeat case_bool_decide; set_solver. Qed.

(** One turn of [fill_buf]: the next character goes to [tty_buf]. *)
Definition fill_step (ch : Z) (k : nat) (c : con) : con :=
  c <| tp ::= fun t => t <| tty_intail ::= fun _ => next_tail t |> |> <| tty_buf ::= <[k := ch]> |>.

Lemma fill_buf_step n ch q k enough c : reading (tp c) (ch :: q) -> ch <> MARKER ->
  fill_buf (S n) true (Z.of_nat k) 0 enough c =
  (if ch =? 10 then
     upd_tp (fun t => t <| tty_lfct ::= fun n => s16 (n - 1) |>);; mret (Z.of_nat k + 1, 0, enough + 1)
   else fill_buf n true (Z.of_nat k + 1) 0 enough) (fill_step ch k c).
Proof.
  intros Hr Hm. cbn [fill_buf]. unfold get_tp, upd_tp, mbind, M_bind, gets, modify.
  assert (default 0 (tty_inqueue (tp c) !! tty_intail (tp c)) = ch) as ->.
  { pose proof (re_chars _ _ Hr 0%nat) as H0. pose proof (re_tail _ _ Hr).
    replace (slot (tty_intail (tp c)) 0) with (tty_intail (tp c)) in H0 by slots.
    rewrite H0; [done|simpl; lia]. }
  rewrite Nat2Z.id. destruct (Z.eqb_spec ch MARKER); [done|]. cbn [andb]. rewrite orb_false_r.
  by destruct (ch =? 10).
Qed.

Lemma fill_line n : forall q k enough c, reading (tp c) q -> (n <= length q)%nat -> unmarked q ->
  0 <= tty_lfct (tp c) - ended (take_line n q) -> tty_lfct (tp c) <= 2000 -> (k + n <= length (tty_buf c))%nat ->
  wp (fill_buf n true (Z.of_nat k) 0 enough) (fill_result n q k enough c) c.
Proof.
  induction n as [|n IH]; intros q k enough c Hr Hn Hu Hl Hl2 Hk.
  - apply wp_ret. unfold fill_result. simpl. unfold ended. simpl.
    rewrite Nat.add_0_r, app_nil_r, Z.add_0_r, Z.sub_0_r. by destruct q.
  - destruct q as [|ch q]; [simpl in Hn; lia|]. inversion_clear Hu as [|?? Hch Hu'].
    unfold wp. rewrite (fill_buf_step n ch q k enough c Hr Hch). cbn [take_line] in Hl |- *.
    pose proof (reading_next _ _ _ Hr) as Hr1. set (c1 := fill_step ch k c).
    assert (take (S k) (tty_buf c1) = take k (tty_buf c) ++ [ch]) as Hb1.
    { destruct (lookup_lt_is_Some_2 (tty_buf c) k) as [y Hy]; [lia|]. by apply take_S_insert with y. }
    assert (length (tty_buf c1) = length (tty_buf c)) as Hb2 by (cbn; by rewrite length_insert).
    unfold fill_result. cbn [take_line].
    destruct (Z.eqb_spec ch 10) as [->|Hne].
    + change (ended [10]) with 1 in *. simpl.
      split_and!; try done.
      * f_equal. f_equal. lia.
      * by destruct Hr1.
      * rewrite s16_id by lia. done.
      * rewrite Nat.add_1_r. exact Hb1.
    + replace (Z.of_nat k + 1) with (Z.of_nat (S k)) by lia.
      rewrite ended_cons in Hl |- *. destruct (Z.eqb_spec ch 10) as [|_]; [done|].
      specialize (IH q (S k) enough c1 Hr1 ltac:(simpl in Hn; lia) Hu' Hl Hl2 ltac:(lia)).
      unfold wp in IH. destruct (fill_buf n true (Z.of_nat (S k)) 0 enough c1) as [r c2| |]; [|done|done].
      destruct IH as (-> & Hr2 & Hf2 & Hlen2 & Hb3 & Hk2). cbn [length drop].
      rewrite Nat.add_succ_r. split_and!; try done.
      * by rewrite Hlen2.
      * etransitivity; [exact Hb3|]. rewrite Hb1. by rewrite <-app_assoc.
Qed.

(** ** The chunks in the reader's memory *)

(** A long read is a short one and the rest, unless the short one ended. *)
Lemma take_line_more m : forall n q, (m <= n)%nat -> (m <= length q)%nat ->
  if decide (ended (take_line m q) = 0)
  then length (take_line m q) = m /\ take_line n q = take_line m q ++ take_line (n - m) (drop m q)
  else ended (take_line m q) = 1 /\ take_line n q = take_line m q.
Proof.
  induction m as [|m IH]; intros n q Hn Hq.
  - simpl. by rewrite Nat.sub_0_r.
  - destruct q as [|ch q]; [simpl in Hq; lia|]. destruct n as [|n]; [lia|].
    cbn [take_line drop Nat.sub]. destruct (Z.eqb_spec ch 10) as [->|Hne]; [done|].
    rewrite ended_cons. destruct (Z.eqb_spec ch 10) as [|_]; [done|].
    specialize (IH n q ltac:(lia) ltac:(simpl in Hq; lia)).
    destruct (decide _) as [E|E], IH as [H1 ->]; [|done]. simpl. by rewrite H1.
Qed.

Definition rd_result (n : nat) (q : list Z) (user_phys cum : Z) (c : con) (r : Z) (c' : con) : Prop :=
  let l := take_line n q in
  r = cum + Z.of_nat (length l) /\ holds_q (tp c') (drop (length l) q) /\
  tty_lfct (tp c') = tty_lfct (tp c) - ended l /\
  (forall x, pmem (csys c') x = put_bytes user_phys l (pmem (csys c)) x) /\
  ker (csys c') = ker (csys c) /\
  frame ((tp c') <| tty_inleft := 0 |>) = frame ((tp c) <| tty_inleft := 0 |>) /\
  tty_escaped (tp c') = tty_escaped (tp c) /\ screen c' = screen c /\ replies c' = replies c.

Definition chars_ok (q : list Z) : Prop := Forall (fun ch => 0 <= ch < 128) q.

Lemma chars_unmarked q : chars_ok q -> unmarked q.
Proof. intros H. eapply Forall_impl; [exact H|]. unfold MARKER. intros ch ?. simpl in *. lia. Qed.

Lemma chars_u8 q : chars_ok q -> u8 <$> q = q.
Proof.
  induction 1 as [|ch q Hc _ IH]; [done|]. rewrite fmap_cons, IH. f_equal. unfold u8. apply Z.mod_small. lia.
Qed.

Lemma lines_drop k q : lines q = lines (take k q) + lines (drop k q).
Proof. by rewrite <-lines_app, take_drop. Qed.

Lemma take_line_ended n q : ended (take_line n q) <= lines q /\ 0 <= ended (take_line n q) <= 1.
Proof.
  destruct (take_line_prefix n q) as (E & _ & _). rewrite <-take_line_lines.
  pose proof (lines_drop (length (take_line n q)) q) as Hd. rewrite <-E in Hd.
  pose proof (lines_le (drop (length (take_line n q)) q)).
  rewrite take_line_lines in *. unfold ended in *. case_bool_decide; lia.
Qed.

Lemma ended_app l1 l2 : ended l1 = 0 -> ended (l1 ++ l2) = ended l2.
Proof. unfold ended. repeat case_bool_decide; set_solver. Qed.

Lemma holds_reading t q : holds_q t q -> reading t q.
Proof. intros []. by split. Qed.

Lemma rd_loop_line fuel : forall n q user_phys cum c,
  holds_q (tp c) q -> chars_ok q -> q <> [] -> tty_inleft (tp c) = Z.of_nat n ->
  (n < fuel)%nat -> tty_lfct (tp c) = lines q -> length (tty_buf c) = 256%nat ->
  0 <= cum -> cum + Z.of_nat n < 2 ^ 15 -> 0 <= user_phys -> user_phys + Z.of_nat n < 2 ^ 31 ->
  wp (rd_loop fuel true user_phys cum 0 0) (rd_result n q user_phys cum c) c.
Proof.
  induction fuel as [|fuel IH]; intros n q user_phys cum c Hq Hc Hne Hn Hf Hl Hb H0 H1 H2 H3; [lia|].
  cbn [rd_loop]. con_steps. rewrite Hn. destruct (Z.ltb_spec 0 (Z.of_nat n)) as [Hpos|Hz]; cbn [negb].
  2:{ con_steps. replace n with 0%nat by lia. unfold rd_result. simpl. unfold ended. simpl.
      split_and!; try done; try lia. intros x. unfold put_bytes. simpl. cases. }
  con_steps. rewrite (hq_count _ _ Hq).
  pose proof bytes_pos. pose proof (hq_room _ _ Hq). pose proof (lines_le q).
  assert (0 < length q)%nat as Hq0 by (destruct q; [done|simpl; lia]).
  set (m := Nat.min (Nat.min n (length q)) 256).
  replace (Z.to_nat (Z.min (Z.min (Z.of_nat n) (Z.of_nat (length q))) TTY_BUF_SIZE)) with m by (unfold TTY_BUF_SIZE; lia).
  pose proof (take_line_ended m q) as [He1 He2].
  eapply wp_mono.
  { apply (fill_line m q 0 0 c (holds_reading _ _ Hq)); [lia|by apply chars_unmarked|rewrite Hl; lia|lia|rewrite Hb; lia]. }
  intros r c1 (-> & Hr1 & Hl1 & Hb1 & Ht1 & Hk1). cbn [Nat.add] in Ht1 |- *.
  set (l := take_line m q) in *. destruct (take_line_prefix m q) as (El & Hlm & Hlq). fold l in El, Hlm, Hlq.
  con_steps. change (nz 0) with false. cbv iota. rewrite Nat2Z.id.
  change (take 0 (tty_buf c) ++ l) with l in Ht1. rewrite Ht1.
  assert (chars_ok l) as Hcl by (rewrite El; by apply Forall_take). rewrite (chars_u8 l Hcl).
  set (c2 := set_field tp _ _).
  destruct Hk1 as (Kf & Kc & Ke & Ks & Kv & Kr).
  assert (tty_inleft (tp c1) = Z.of_nat n) as Kn by (rewrite <-Hn; exact (f_equal tty_inleft Kf)).
  assert (holds_q (tp c2) (drop (length l) q)) as Hq2.
  { destruct Hr1. split; try done. cbn. rewrite Kc, (hq_count _ _ Hq), length_drop, s16_id by lia. lia. }
  assert (tty_inleft (tp c2) = Z.of_nat (n - length l)) as Hn2.
  { cbn. rewrite Kn, s16_id by lia. lia. }
  assert (frame ((tp c2) <| tty_inleft := 0 |>) = frame ((tp c) <| tty_inleft := 0 |>)) as Hf2
    by exact (f_equal (fun t => t <| tty_inleft := 0 |>) Kf).
  assert (ker (csys c2) = ker (csys c)) as Hker2 by (cbn; by rewrite Ks).
  assert (forall x, pmem (csys c2) x = put_bytes user_phys l (pmem (csys c)) x) as Hm2.
  { intros x. cbn. by rewrite Ks. }
  assert (tty_lfct (tp c2) = lines (drop (length l) q)) as Hl2.
  { change (tty_lfct (tp c2)) with (tty_lfct (tp c1)). rewrite Hl1, Hl, (lines_drop (length l) q), <-El.
    rewrite (take_line_lines m q : lines l = ended l). lia. }
  pose proof (take_line_more m n q ltac:(lia) ltac:(lia)) as Hmore. fold l in Hmore.
  rewrite (hq_count _ _ Hq2), Z.add_0_l.
  destruct (decide (ended l = 0)) as [E|E].
  - destruct Hmore as [Hlen Hmore]. rewrite E. change (nz 0) with false. rewrite orb_false_r.
    destruct (Z.eqb_spec (Z.of_nat (length (drop (length l) q))) 0) as [Hz|Hnz].
    + (* the queue is empty *)
      con_steps. assert (drop (length l) q = []) as Hd by (destruct (drop _ q); [done|simpl in Hz; lia]).
      rewrite Hlen in Hd. rewrite Hd in Hmore.
      assert (take_line n q = l) as Hl' by (rewrite Hmore; by destruct (n - m)%nat; rewrite app_nil_r).
      unfold rd_result. rewrite Hl'. split_and!; try done.
      by rewrite s16_id by lia.
    + assert (unmarked (drop (length l) q) /\ drop (length l) q <> []) as [_ Hd] by
        (split; [by apply chars_unmarked, Forall_drop|intros Hd; by rewrite Hd in Hnz]).
      change (0 + ended l) with (ended l) in *.
      rewrite (s16_id (cum + Z.of_nat (length l))), (s32_id (user_phys + Z.of_nat (length l))) by lia.
      eapply wp_mono.
      { apply (IH (n - length l)%nat (drop (length l) q)); try done; try lia.
        - by apply Forall_drop.
        - change (tty_buf c2) with (tty_buf c1). congruence. }
      intros r c3 (-> & Hq3 & Hl3 & Hm3 & Hker3 & Hf3 & He3 & Hv3 & Hr3).
      rewrite <-Hlen in Hmore. unfold rd_result. rewrite Hmore, length_app, <-drop_drop.
      split_and!; try done; try congruence.
      * lia.
      * change (tty_lfct (tp c2)) with (tty_lfct (tp c1)) in Hl3. rewrite Hl3, Hl1.
        rewrite ended_app by done. lia.
      * intros x. rewrite Hm3, <-put_bytes_app. by apply put_bytes_ext.
      * exact (eq_trans Hf3 Hf2).
      * exact (eq_trans He3 Ke).
      * exact (eq_trans Hv3 Kv).
      * exact (eq_trans Hr3 Kr).
  - destruct Hmore as [E1 Hmore]. rewrite E1. change (nz 1) with true. rewrite orb_true_r. con_steps.
    unfold rd_result. rewrite Hmore, E1. split_and!; try done.
    + by rewrite s16_id by lia.
    + change (tty_lfct (tp c2)) with (tty_lfct (tp c1)). by rewrite Hl1, E1.
Qed.

(** ** [rd_chars] and [do_read] *)

Lemma lines_pos q : 0 < lines q -> q <> [].
Proof. by destruct q. Qed.

(** Editing does not look at the request that is waiting. *)
Definition unread (t : tty) : tty := t <| tty_incaller := 0 |> <| tty_inproc := 0 |> <| tty_in_vir := 0 |> <| tty_inleft := 0 |>.

Lemma canonical_unread t t' : frame (unread t') = frame (unread t) -> canonical t ->
  canonical t' /\ edit t' = edit t /\ text t' = text t /\ tty_pgrp t' = tty_pgrp t.
Proof.
  intros E [Hm Hi Hw Hk Hn].
  pose proof (f_equal tty_mode E : tty_mode t' = tty_mode t) as Em.
  pose proof (f_equal tty_inhibited E : tty_inhibited t' = tty_inhibited t) as Eh.
  pose proof (f_equal tty_rwords E : tty_rwords t' = tty_rwords t) as Ew.
  pose proof (f_equal tty_erase E : tty_erase t' = tty_erase t) as Ee.
  pose proof (f_equal tty_kill E : tty_kill t' = tty_kill t) as Ek.
  pose proof (f_equal tty_intr E : tty_intr t' = tty_intr t) as Ei.
  pose proof (f_equal tty_quit E : tty_quit t' = tty_quit t) as Eq.
  pose proof (f_equal tty_xoff E : tty_xoff t' = tty_xoff t) as Ex.
  pose proof (f_equal tty_eof E : tty_eof t' = tty_eof t) as Eo.
  pose proof (f_equal tty_pgrp E : tty_pgrp t' = tty_pgrp t) as Eg.
  split_and!; [|unfold edit; by rewrite Ee, Ek, Em|unfold text, special; by rewrite Ei, Eq, Ex, Eo|done].
  split; unfold special in *; by rewrite ?Em, ?Eh, ?Ew, ?Ek, ?Ei, ?Eq, ?Ex, ?Eo.
Qed.

(** The user's buffer: its physical address, and no overflow in it. *)
Definition user_buffer (c : con) (proc vir n : Z) : Z := umap (P (proc_addr proc) (ker (csys c))) seg_D_nr vir n.

Definition delivered (l : list Z) (phys : Z) (q : list Z) (rs : list treply) (c c' : con) : Prop :=
  replies c' = replies c ++ rs /\ typed c' q (tty_escaped (tp c')) /\ tty_inleft (tp c') = 0 /\
  (forall x, pmem (csys c') x = put_bytes phys l (pmem (csys c)) x) /\
  frame (unread (tp c')) = frame (unread (tp c)).

Lemma rd_chars_line c q esc n phys : typed c q esc -> chars_ok q -> 0 < lines q ->
  tty_inleft (tp c) = n -> 0 < n < 2 ^ 15 -> length (tty_buf c) = 256%nat ->
  user_buffer c (tty_inproc (tp c)) (tty_in_vir (tp c)) n = phys -> 0 < phys -> phys + n < 2 ^ 31 ->
  wp rd_chars (fun r c' => let l := take_line (Z.to_nat n) q in
    r = Z.of_nat (length l) /\ delivered l phys (drop (length l) q) [] c c' /\
    tty_incaller (tp c') = tty_incaller (tp c) /\ tty_inproc (tp c') = tty_inproc (tp c) /\
    tty_escaped (tp c') = tty_escaped (tp c)) c.
Proof.
  intros Ht Hc Hl Hn Hn2 Hb Hp Hp0 Hp2. unfold rd_chars, numap. con_steps.
  rewrite (hq_count _ _ (ty_q _ _ _ Ht)), (ty_lines _ _ _ Ht).
  pose proof (lines_le q). destruct (Z.eqb_spec (Z.of_nat (length q)) 0); [lia|].
  destruct (Z.eqb_spec (lines q) 0); [lia|]. rewrite andb_false_r. cbn [orb].
  unfold getP. con_steps. rewrite Hn. change (umap _ _ _ _) with (user_buffer c (tty_inproc (tp c)) (tty_in_vir (tp c)) n).
  rewrite Hp. destruct (Z.eqb_spec phys 0); [lia|].
  rewrite (ca_mode _ (ty_canonical _ _ _ Ht)). cbn [negb].
  replace (set_field csys _ c) with c by by destruct c. con_steps.
  eapply wp_mono.
  { apply (rd_loop_line _ (Z.to_nat n) q phys 0 c); try done; try lia; try apply Ht. by apply lines_pos. }
  intros r c1 (-> & Hq1 & Hl1 & Hm1 & Hker1 & Hf1 & He1 & Hv1 & Hr1). con_steps.
  set (c2 := set_field tp _ c1).
  assert (frame (unread (tp c2)) = frame (unread (tp c))) as Hf2 by exact (f_equal unread Hf1).
  destruct (canonical_unread _ _ Hf2 (ty_canonical _ _ _ Ht)) as (Hcan & _).
  split_and!; try done.
  - unfold delivered. split_and!; try done; [by rewrite app_nil_r|].
    split; try done.
    + by eapply holds_q_mono; [exact Hq1|..].
    + change (tty_lfct (tp c2)) with (tty_lfct (tp c1)). rewrite Hl1, (ty_lines _ _ _ Ht).
      destruct (take_line_prefix (Z.to_nat n) q) as (E & _ & _).
      rewrite (lines_drop (length (take_line (Z.to_nat n) q)) q), <-E, take_line_lines. lia.
    + change (screen c2) with (screen c1). rewrite Hv1. apply Ht.
  - exact (f_equal tty_incaller Hf1).
  - exact (f_equal tty_inproc Hf1).
Qed.

Lemma rd_chars_none c q esc : typed c q esc -> lines q = 0 -> rd_chars c = Done SUSPEND c.
Proof.
  intros Ht Hl. unfold rd_chars, get_tp, mbind, M_bind, gets.
  rewrite (ca_mode _ (ty_canonical _ _ _ Ht)), (ty_lines _ _ _ Ht), Hl. change (0 =? 0) with true.
  by rewrite orb_true_r.
Qed.

(** Starting to read: the request is noted. *)
Definition requested (m : treq) (c : con) : con :=
  c <| tp ::= fun t => t <| tty_incaller := s8 (tq_source m) |> <| tty_inproc := s8 (PROC_NR m) |>
                         <| tty_in_vir := ADDRESS m |> <| tty_inleft := COUNT m |> |>.

Lemma requested_typed m c q esc : typed c q esc -> typed (requested m c) q esc /\
  frame (unread (tp (requested m c))) = frame (unread (tp c)).
Proof.
  intros Ht. split; [|done]. pose proof Ht as [Hq He Hl Hc Hs].
  destruct (canonical_unread (tp c) (tp (requested m c)) eq_refl Hc) as (Hc' & _).
  split; try done. by eapply holds_q_mono; [exact Hq|..].
Qed.

(** A read request for [n] characters, from a process whose buffer is mapped. *)
Record request_ok (m : treq) (c : con) (phys : Z) : Prop := {
  rq_count : 0 < COUNT m < 2 ^ 15;
  rq_free : tty_inleft (tp c) = 0;
  rq_buf : length (tty_buf c) = 256%nat;
  rq_phys : user_buffer c (s8 (PROC_NR m)) (ADDRESS m) (COUNT m) = phys;
  rq_range : 0 < phys /\ phys + COUNT m < 2 ^ 31;
}.

Lemma do_read_requested m c : tty_inleft (tp c) = 0 ->
  do_read m c = (code ← rd_chars; caller ← get_tp tty_inproc;
    tty_reply TASK_REPLY (tq_source m) caller code 0 0) (requested m c).
Proof. intros E. unfold do_read, get_tp, mbind at 1, M_bind at 1, gets at 1. by rewrite E. Qed.

(** With a line in the queue, a read delivers it. *)
Lemma do_read_line m c q esc phys : typed c q esc -> chars_ok q -> 0 < lines q -> request_ok m c phys ->
  let l := take_line (Z.to_nat (COUNT m)) q in
  wp (do_read m) (fun _ c' => delivered l phys (drop (length l) q)
    [mk_treply TASK_REPLY (tq_source m) (s8 (PROC_NR m)) (Z.of_nat (length l)) 0 0] c c' /\
    tty_escaped (tp c') = esc) c.
Proof.
  intros Ht Hc Hl [Hn Hfree Hb Hp Hr] l. unfold wp. rewrite do_read_requested by done.
  destruct (requested_typed m c q esc Ht) as [Ht1 Hf1].
  assert (wp (code ← rd_chars; caller ← get_tp tty_inproc;
      tty_reply TASK_REPLY (tq_source m) caller code 0 0)
    (fun _ c' => delivered l phys (drop (length l) q)
      [mk_treply TASK_REPLY (tq_source m) (s8 (PROC_NR m)) (Z.of_nat (length l)) 0 0] c c' /\
      tty_escaped (tp c') = esc) (requested m c)) as H; [|exact H].
  con_steps. eapply wp_mono.
  { apply (rd_chars_line (requested m c) q esc (COUNT m) phys); try done; apply Hr. }
  intros r c1 (-> & (Hr1 & Ht2 & Hi & Hm & Hf2) & Hca & Hpr & He). unfold tty_reply. con_steps.
  split; [|exact (eq_trans He (ty_esc _ _ _ Ht))].
  rewrite app_nil_r in Hr1. unfold delivered.
  split_and!; [|by destruct Ht2|done|done|exact (eq_trans Hf2 Hf1)].
  cbn. rewrite Hr1, Hpr. done.
Qed.

(** Without one, the reader is told to wait. *)
Lemma do_read_wait m c q esc phys : typed c q esc -> lines q = 0 -> request_ok m c phys ->
  wp (do_read m) (fun _ c' => typed c' q esc /\ c' = requested m c <| replies ::= fun rs =>
    rs ++ [mk_treply TASK_REPLY (tq_source m) (s8 (PROC_NR m)) SUSPEND 0 0] |>) c.
Proof.
  intros Ht Hl [Hn Hfree Hb Hp Hr]. unfold wp. rewrite do_read_requested by done.
  destruct (requested_typed m c q esc Ht) as [Ht1 Hf1].
  unfold mbind, M_bind. rewrite (rd_chars_none _ _ _ Ht1 Hl). split; [|done].
  destruct Ht1. by split.
Qed.

(** ** Characters from the driver *)

(** Pairs of a character and its line, as [kbdput] stores them. *)
Fixpoint pairs (chs : list Z) : list Z :=
  match chs with [] => [] | ch :: chs' => ch :: 0 :: pairs chs' end.

Lemma pairs_app l1 l2 : pairs (l1 ++ l2) = pairs l1 ++ pairs l2.
Proof. induction l1; simpl; by rewrite ?IHl1. Qed.
Lemma pairs_length l : length (pairs l) = (2 * length l)%nat.
Proof. induction l; simpl; lia. Qed.

Lemma take_two_more (l : list Z) n x y : (S n < length l)%nat ->
  take (S (S n)) (<[S n := y]> (<[n := x]> l)) = take n l ++ [x; y].
Proof.
  intros Hl. destruct (lookup_lt_is_Some_2 l n) as [a Ha]; [lia|].
  destruct (lookup_lt_is_Some_2 l (S n)) as [b Hb]; [lia|].
  rewrite (take_S_insert _ _ _ b) by (by rewrite list_lookup_insert_ne by lia).
  rewrite (take_S_insert _ _ _ a) by done. by rewrite <-app_assoc.
Qed.

(** The characters received by the serial line are in the driver's buffer. *)
Definition buffered (c : con) (chs : list Z) : Prop :=
  drv_count c = Z.of_nat (length chs) /\ drv_max c = MAX_OVERRUN /\
  length (drv_buf c) = Z.to_nat (2 * MAX_OVERRUN) /\
  take (2 * length chs) (drv_buf c) = pairs chs.

Lemma one_more c n : drv_count c + 1 = n ->
  c <| drv_count ::= fun n => n + 1 |> = c <| drv_count := n |>.
Proof. by intros <-. Qed.

Lemma kbdput_buffered dumps c chs ch : buffered c chs -> 0 <= ch < 128 -> ch <> DUMP_CHAR ->
  Z.of_nat (length chs) < MAX_OVERRUN ->
  exists buf, kbdput dumps (Z.land ch 255) CONSOLE c =
    Done tt (c <| drv_buf := buf |> <| drv_count := Z.of_nat (length (chs ++ [ch])) |>) /\
    buffered (c <| drv_buf := buf |> <| drv_count := Z.of_nat (length (chs ++ [ch])) |>) (chs ++ [ch]).
Proof.
  intros (Hc & Hm & Hl & Ht) Hr Hd Hlt. unfold kbdput. rewrite land_255 by lia.
  destruct (Z.eqb_spec ch DUMP_CHAR); [done|]. unfold mbind, M_bind, gets, modify. rewrite Hc, Hm.
  destruct (Z.leb_spec MAX_OVERRUN (Z.of_nat (length chs))); [lia|].
  replace (Z.to_nat (2 * Z.of_nat (length chs))) with (2 * length chs)%nat by lia.
  assert (u8 ch = ch) as -> by (unfold u8; rewrite Z.mod_small; lia). change (u8 CONSOLE) with 0.
  exists (<[S (2 * length chs) := 0]> (<[(2 * length chs)%nat := ch]> (drv_buf c))). split.
  - rewrite length_app. cbn [length]. f_equal. apply one_more. cbn. lia.
  - unfold buffered. split_and!; try done.
    + cbn. by rewrite !length_insert.
    + change (drv_buf _) with (<[S (2 * length chs) := 0]> (<[(2 * length chs)%nat := ch]> (drv_buf c))).
      rewrite length_app, pairs_app. cbn [length pairs].
      replace (2 * (length chs + 1))%nat with (S (S (2 * length chs))) by lia.
      rewrite take_two_more, Ht; [done|]. unfold MAX_OVERRUN in *. lia.
Qed.

(** [c] with another driver buffer. *)
Definition rebuffered (c c' : con) : Prop :=
  c' = c <| drv_buf := drv_buf c' |> <| drv_count := drv_count c' |>.

Lemma scc_receive_buffered dumps chs : forall c pre, buffered c pre ->
  Forall (fun ch => 0 <= ch < 128 /\ ch <> DUMP_CHAR) chs ->
  Z.of_nat (length pre + length chs) <= MAX_OVERRUN ->
  wp (scc_receive dumps chs) (fun _ c' => rebuffered c c' /\ buffered c' (pre ++ chs)) c.
Proof.
  induction chs as [|ch chs IH]; intros c pre Hb Hch Hl; simpl.
  - apply wp_ret. rewrite app_nil_r. split; [|done]. by destruct c.
  - inversion_clear Hch as [|?? [Hr Hd] Hch']. cbn [length] in Hl.
    destruct (kbdput_buffered dumps c pre ch Hb Hr Hd) as (buf & E & Hb1); [lia|].
    apply wp_bind. unfold wp at 1. rewrite E.
    eapply wp_mono; [apply (IH _ _ Hb1 Hch'); rewrite length_app; cbn [length]; lia|].
    intros _ c2 [Hc2 Hb2]. split; [|by rewrite <-app_assoc in Hb2].
    unfold rebuffered in *. rewrite Hc2. by destruct c.
Qed.

(** ** Edited text *)

Lemma kill_lines q : lines (kill_line q) = lines q.
Proof.
  unfold kill_line. generalize (length q) as fuel. intros fuel. revert q.
  induction fuel as [|fuel IH]; intros q; simpl; [done|].
  destruct (rub q) as [q'|] eqn:E; [|done]. by rewrite IH, (rub_lines _ _ E).
Qed.

Lemma edit_lines t q esc ch : ch <> 10 -> ch <> 13 -> lines (fst (edit t (q, esc) ch)) = lines q.
Proof.
  intros H1 H2. unfold edit. destruct (_ && negb esc).
  { simpl. destruct (rub q) as [q'|] eqn:E; simpl; [by rewrite (rub_lines _ _ E)|done]. }
  destruct (_ && negb esc); [apply kill_lines|].
  destruct (Z.eqb_spec ch 13); [done|]. cbn [andb].
  assert (lines [ch] = 0) as Hch by (rewrite lines_cons; by destruct (Z.eqb_spec ch 10)).
  destruct (_ && (ch =? 92)); [done|]. cbn [fst]. rewrite lines_app, Hch.
  destruct (_ && _); rewrite ?lines_app; change (lines [92]) with 0; lia.
Qed.

Lemma rub_prefix q q' : rub q = Some q' -> exists ch, q = q' ++ [ch].
Proof.
  unfold rub. intros E. destruct q as [|ch q _] using rev_ind; [done|].
  rewrite last_snoc, removelast_last in E. destruct (line_end ch); [done|]. injection E as <-. by exists ch.
Qed.

Lemma edit_chars t q esc ch : chars_ok q -> echoed ch <> None -> chars_ok (fst (edit t (q, esc) ch)).
Proof.
  intros Hq He. destruct (echoed_range _ He) as [Hr _].
  assert (forall q', rub q = Some q' -> chars_ok q') as Hrub.
  { intros q' [ch' ->]%rub_prefix. by apply Forall_app in Hq as [? _]. }
  unfold edit. destruct (_ && negb esc).
  { simpl. destruct (rub q) as [q'|] eqn:E; simpl; auto. }
  destruct (_ && negb esc).
  { cbn [fst]. unfold kill_line. generalize (length q) as fuel. intros fuel. clear Hrub. revert q Hq.
    induction fuel as [|fuel IH]; intros q Hq; simpl; [done|].
    destruct (rub q) as [q'|] eqn:E; [|done]. apply IH.
    apply rub_prefix in E as [ch' ->]. by apply Forall_app in Hq as [? _]. }
  destruct (_ && (ch =? 92)); [done|]. cbn [fst]. apply Forall_app. split.
  - destruct (_ && _); [|done]. apply Forall_app. split; [done|]. repeat constructor; lia.
  - constructor; [|done]. destruct (_ && _); lia.
Qed.

Lemma edits_chars t chs : forall q esc, chars_ok q -> Forall (text t) chs ->
  chars_ok (fst (edits t chs (q, esc))).
Proof.
  unfold edits. induction chs as [|ch chs IH]; intros q esc Hq Hch; cbn [foldl]; [done|].
  inversion_clear Hch as [|?? [He _] Hcs]. pose proof (edit_chars t q esc ch Hq He) as H1.
  destruct (edit t (q, esc) ch) as [q1 esc1]. by apply IH.
Qed.

(** ** The task's side: [charint] *)

Definition no_reader (c : con) (q chs : list Z) : Prop :=
  tty_inleft (tp c) = 0 \/ lines q = 0 /\ Forall (fun ch => ch <> 10 /\ ch <> 13) chs.

Lemma wake_reader_none c q esc : typed c q esc -> tty_inleft (tp c) = 0 \/ lines q = 0 ->
  wake_reader CONSOLE c = Done tt c.
Proof.
  intros Ht Hor. unfold wake_reader, on_line. change (CONSOLE =? CONSOLE) with true. cbv iota.
  unfold get_tp, mbind, M_bind, gets. destruct (Z.ltb_spec 0 (tty_inleft (tp c))); [|done].
  rewrite (ty_lines _ _ _ Ht). pose proof (lines_le q).
  replace (0 <? lines q) with false by (symmetry; apply Z.ltb_ge; destruct Hor; lia).
  change (Z.lor CBREAK RAW) with (Z.lor RAW CBREAK).
  pose proof (ca_mode _ (ty_canonical _ _ _ Ht)) as Hm. unfold tst in Hm. by rewrite Hm.
Qed.

Lemma copied_char c k ch chs rest : drop k (tty_copy_buf c) = pairs (ch :: chs) ++ rest -> 0 <= ch < 128 ->
  s8 (default 0 (tty_copy_buf c !! k)) = ch /\ s8 (default 0 (tty_copy_buf c !! S k)) = CONSOLE /\
  drop (S (S k)) (tty_copy_buf c) = pairs chs ++ rest.
Proof.
  intros E Hr.
  pose proof (lookup_drop (tty_copy_buf c) k 0) as H0. pose proof (lookup_drop (tty_copy_buf c) k 1) as H1.
  rewrite E in H0, H1. cbn in H0, H1. rewrite Nat.add_0_r in H0. rewrite Nat.add_1_r in H1.
  rewrite <-H0, <-H1. split_and!.
  - cbn. unfold s8, sx. change (8 - 1) with 7. rewrite Z.mod_small by lia.
    destruct (Z.ltb_spec ch (2 ^ 7)); lia.
  - done.
  - replace (S (S k)) with (k + 2)%nat by lia. by rewrite <-drop_drop, E.
Qed.

Lemma charint_loop_typed chs : forall k c q esc rest, typed c q esc -> Forall (text (tp c)) chs ->
  drop k (tty_copy_buf c) = pairs chs ++ rest -> no_reader c q chs ->
  (length q + Nat.b2n esc + length chs + 1 <= TTY_IN_BYTES)%nat ->
  wp (charint_loop (length chs) k)
    (fun _ c' => typed c' (fst (edits (tp c) chs (q, esc))) (snd (edits (tp c) chs (q, esc))) /\ stays c c') c.
Proof.
  unfold edits. induction chs as [|ch chs IH]; intros k c q esc rest Ht Hch Hd Hno Hl;
    cbn [charint_loop foldl length] in *; [by apply wp_ret|].
  inversion_clear Hch as [|?? Hc0 Hcs]. destruct (echoed_range _ (proj1 Hc0)) as [Hr _].
  destruct (copied_char c k ch chs rest Hd ltac:(lia)) as (E1 & E2 & Hd').
  con_steps. rewrite E1, E2.
  eapply wp_mono; [apply (in_char_typed ch c q esc Ht Hc0); lia|]. intros _ c1 [Ht1 Hs1].
  pose proof (edit_length (tp c) q esc ch) as He.
  destruct (frame_settings _ _ (proj1 (proj2 Hs1))) as (Ee & Etx & _ & Ein).
  assert (tty_inleft (tp c1) = 0 \/ lines (fst (edit (tp c) (q, esc) ch)) = 0) as Hor.
  { rewrite Ein. destruct Hno as [?|[? Hf]]; [by left|right].
    inversion_clear Hf as [|?? [? ?] _]. by rewrite edit_lines. }
  assert (no_reader c1 (fst (edit (tp c) (q, esc) ch)) chs) as Hno1.
  { unfold no_reader. rewrite Ein. destruct Hno as [?|[? Hf]]; [by left|right].
    inversion_clear Hf as [|?? [? ?] ?]. by rewrite edit_lines. }
  destruct (edit (tp c) (q, esc) ch) as [q1 esc1]. cbn [fst snd] in *.
  con_steps. unfold wp at 1. rewrite (wake_reader_none _ _ _ Ht1 Hor).
  eapply wp_mono; [apply (IH (S (S k)) c1 q1 esc1 rest Ht1)|].
  - by rewrite Etx.
  - destruct Hs1 as (_&_&_&_&_&Ecb&_). by rewrite Ecb.
  - done.
  - lia.
  - intros _ c2 [Ht2 Hs2]. rewrite Ee in Ht2. split; [done|by eapply stays_trans].
Qed.

Lemma typed_same c c' q esc : typed c q esc -> tp c' = tp c -> screen c' = screen c -> typed c' q esc.
Proof. intros [] E1 E2. split; by rewrite ?E1, ?E2. Qed.

(** Characters received and taken over by the task. *)
Definition arrived (chs : list Z) (c : con) : con :=
  c <| tty_copy_buf := take (2 * length chs) (drv_buf c) ++ drop (2 * length chs) (tty_copy_buf c) |>
    <| drv_count := 0 |>.

Lemma charint_arrived c chs : buffered c chs -> charint c = charint_loop (length chs) 0 (arrived chs c).
Proof.
  intros (Hc & _). unfold charint, mbind, M_bind, gets, modify. rewrite Hc.
  replace (Z.to_nat (Z.of_nat (length chs) + Z.of_nat (length chs))) with (2 * length chs)%nat by lia.
  by rewrite Nat2Z.id.
Qed.

Lemma arrived_copy c chs : buffered c chs ->
  drop 0 (tty_copy_buf (arrived chs c)) = pairs chs ++ drop (2 * length chs) (tty_copy_buf c).
Proof. intros (_ & _ & _ & Ht). cbn [drop]. unfold arrived. cbn [tty_copy_buf]. by rewrite <-Ht. Qed.

Lemma text_driver t chs : Forall (text t) chs -> Forall (fun ch => 0 <= ch < 128 /\ ch <> DUMP_CHAR) chs.
Proof.
  intros H. eapply Forall_impl; [exact H|]. intros ch [He _].
  destruct (echoed_range _ He) as [? _]. split; [lia|]. intros ->. by apply He.
Qed.

Lemma charint_loop_app n m : forall k c, charint_loop (n + m) k c =
  (charint_loop n k;; charint_loop m (k + 2 * n)) c.
Proof.
  induction n as [|n IH]; intros k c.
  - unfold mbind, M_bind. simpl. by rewrite Nat.add_0_r.
  - cbn [charint_loop Nat.add]. unfold mbind, M_bind, gets. 
    destruct (in_char _ _ c) as [[] c1|w c1|]; [|done|done].
    destruct (wake_reader _ c1) as [[] c2|w c2|]; [|done|done].
    rewrite IH. unfold mbind, M_bind. by replace (k + 2 * S n)%nat with (S (S k) + 2 * n)%nat by lia.
Qed.

(** What the request says is unchanged by typing. *)
Lemma request_stays m c c' phys : request_ok m c phys -> csys c' = csys c -> tty_inleft (tp c') = tty_inleft (tp c) ->
  tty_buf c' = tty_buf c -> request_ok m c' phys.
Proof.
  intros [] E1 E2 E3. split; [done|congruence|by rewrite E3|unfold user_buffer in *; by rewrite E1|done].
Qed.

Lemma delivered_from l phys q rs c0 c c' : delivered l phys q rs c c' -> csys c = csys c0 ->
  frame (unread (tp c)) = frame (unread (tp c0)) -> replies c = replies c0 -> delivered l phys q rs c0 c'.
Proof.
  intros (H1 & H2 & H3 & H4 & H5) E1 E2 E3. unfold delivered. rewrite <-E1, <-E2, <-E3. done.
Qed.

(** A line being typed: it ends with its newline, and has no other. *)
Definition one_line (body : list Z) : Prop := Forall (fun ch => ch <> 10 /\ ch <> 13) body.

Lemma edits_lines t body : one_line body -> forall q esc, lines (fst (edits t body (q, esc))) = lines q.
Proof.
  unfold edits. induction 1 as [|ch body [H1 H2] _ IH]; intros q esc; [done|]. cbn [foldl].
  pose proof (edit_lines t q esc ch H1 H2) as E. destruct (edit t (q, esc) ch) as [q1 esc1]. by rewrite IH.
Qed.

Lemma edit_newline t q esc : tty_erase t <> 10 -> tty_kill t <> 10 -> 0 < lines (fst (edit t (q, esc) 10)).
Proof.
  intros He Hk. unfold edit. destruct (Z.eqb_spec 10 (tty_erase t)); [congruence|].
  destruct (Z.eqb_spec 10 (tty_kill t)); [congruence|]. cbn [andb].
  rewrite andb_false_r. change (10 =? 13) with false. cbn [andb fst]. rewrite lines_app.
  change (lines [10]) with 1. pose proof (lines_le (if esc && negb false && negb false then q ++ [92] else q)). lia.
Qed.

Lemma edits_length t chs : forall q esc,
  (length (fst (edits t chs (q, esc))) + Nat.b2n (snd (edits t chs (q, esc))) <= length q + Nat.b2n esc + length chs)%nat.
Proof.
  unfold edits. induction chs as [|ch chs IH]; intros q esc; cbn [foldl fst snd length]; [lia|].
  pose proof (edit_length t q esc ch). destruct (edit t (q, esc) ch) as [q1 esc1]. cbn [fst snd] in *.
  specialize (IH q1 esc1). lia.
Qed.

(** The newline that a reader is waiting for. *)
Lemma newline_wakes c q esc k rest n phys : typed c q esc -> chars_ok q -> text (tp c) 10 ->
  tty_erase (tp c) <> 10 -> tty_kill (tp c) <> 10 -> (length q + 2 <= TTY_IN_BYTES)%nat ->
  drop k (tty_copy_buf c) = pairs [10] ++ rest ->
  tty_inleft (tp c) = n -> 0 < n < 2 ^ 15 -> length (tty_buf c) = 256%nat ->
  user_buffer c (tty_inproc (tp c)) (tty_in_vir (tp c)) n = phys -> 0 < phys -> phys + n < 2 ^ 31 ->
  let q' := fst (edit (tp c) (q, esc) 10) in
  let l := take_line (Z.to_nat n) q' in
  wp (charint_loop 1 k) (fun _ c' => delivered l phys (drop (length l) q')
    [mk_treply REVIVE (tty_incaller (tp c)) (tty_inproc (tp c)) (Z.of_nat (length l)) 0 0] c c') c.
Proof.
  intros Ht Hch Hx He Hk Hl Hd Hn Hn2 Hb Hp Hp0 Hp2 q' l. cbn [charint_loop].
  destruct (copied_char c k 10 [] rest Hd ltac:(lia)) as (E1 & E2 & _). con_steps. rewrite E1, E2.
  eapply wp_mono; [by apply (in_char_typed 10 c q esc)|]. fold q'. intros _ c1 [Ht1 Hs1].
  pose proof (edit_newline (tp c) q esc He Hk) as Hlines. fold q' in Hlines.
  destruct Hs1 as (S1 & S2 & _ & _ & _ & _ & S6 & _ & S8).
  pose proof (f_equal tty_incaller S2 : tty_incaller (tp c1) = tty_incaller (tp c)) as Eca.
  pose proof (f_equal tty_inproc S2 : tty_inproc (tp c1) = tty_inproc (tp c)) as Epr.
  pose proof (f_equal tty_in_vir S2 : tty_in_vir (tp c1) = tty_in_vir (tp c)) as Evi.
  destruct (frame_settings _ _ S2) as (_ & _ & _ & Ein).
  con_steps. unfold wake_reader, on_line. change (CONSOLE =? CONSOLE) with true. cbv iota. con_steps.
  destruct (Z.ltb_spec 0 (tty_inleft (tp c1))); [|lia]. rewrite (ty_lines _ _ _ Ht1).
  destruct (Z.ltb_spec 0 (lines q')); [|lia]. cbn [orb]. con_steps.
  eapply wp_mono.
  { apply (rd_chars_line c1 q' _ n phys Ht1); try done; try congruence.
    - apply edit_chars; [done|apply Hx].
    - unfold user_buffer in *. by rewrite Epr, Evi, S1. }
  fold l. intros r c2 (-> & Hd2 & Hca & Hpr & _). con_steps. unfold tty_reply. con_steps.
  eapply delivered_from with (c := c1); [|congruence|exact (f_equal unread S2)|congruence].
  destruct Hd2 as (Hr2 & Ht2 & Hi2 & Hm2 & Hf2). rewrite app_nil_r in Hr2. unfold delivered.
  split_and!; [cbn; by rewrite Hr2, Hca, Hpr, Eca, Epr|by destruct Ht2|done|done|done].
Qed.

Section console.
Context (dumps : M con unit) (c : con) (m : treq) (phys : Z).
Hypothesis Hc : typed c [] false.
Hypothesis Hdrv : buffered c [].
Hypothesis Hm : request_ok m c phys.

Lemma typed_arrived chs c1 q esc : rebuffered c c1 -> typed c q esc -> typed (arrived chs c1) q esc.
Proof. intros E Ht. apply (typed_same c); [done|by rewrite E|by rewrite E]. Qed.

(** The line is typed first. *)
Lemma type_then_read chs : Forall (text (tp c)) chs -> Z.of_nat (length chs) <= MAX_OVERRUN ->
  let q := fst (edits (tp c) chs ([], false)) in
  let l := take_line (Z.to_nat (COUNT m)) q in
  wp (scc_receive dumps chs;; do_int;; do_read m)
    (fun _ c' =>
       if 0 <? lines q
       then delivered l phys (drop (length l) q)
              [mk_treply TASK_REPLY (tq_source m) (s8 (PROC_NR m)) (Z.of_nat (length l)) 0 0] c c'
       else typed c' q (tty_escaped (tp c')) /\ tty_inleft (tp c') = COUNT m /\ csys c' = csys c /\
         replies c' = replies c ++ [mk_treply TASK_REPLY (tq_source m) (s8 (PROC_NR m)) SUSPEND 0 0]) c.
Proof.
  intros Hch Hlen q l. pose proof bytes_pos. unfold MAX_OVERRUN in Hlen.
  apply wp_bind. eapply wp_mono.
  { apply (scc_receive_buffered dumps chs c []); [done|by eapply text_driver|simpl; unfold MAX_OVERRUN; lia]. }
  intros _ c1 [E1 Hb1]. apply wp_bind. unfold do_int, wp at 1. rewrite (charint_arrived _ _ Hb1).
  assert (typed (arrived chs c1) [] false) as Ht1 by by apply typed_arrived.
  assert (tp (arrived chs c1) = tp c) as Etp by (cbn; by rewrite E1).
  assert (csys (arrived chs c1) = csys c) as Esys by (cbn; by rewrite E1).
  assert (replies (arrived chs c1) = replies c) as Erep by (cbn; by rewrite E1).
  assert (tty_buf (arrived chs c1) = tty_buf c) as Ebuf by (cbn; by rewrite E1).
  eapply wp_mono.
  { apply (charint_loop_typed chs 0 _ [] false (drop (2 * length chs) (tty_copy_buf c1)) Ht1); [by rewrite Etp|by apply arrived_copy|left; rewrite Etp; apply Hm|simpl; lia]. }
  rewrite Etp. fold q. intros _ c2 [Ht2 Hs2].
  destruct Hs2 as (S1 & S2 & _ & _ & _ & _ & S6 & _ & S8).
  destruct (frame_settings _ _ S2) as (_ & _ & _ & Ein).
  assert (request_ok m c2 phys) as Hm2.
  { apply (request_stays m c); [done|congruence|congruence|congruence]. }
  assert (frame (unread (tp c2)) = frame (unread (tp c))) as Hf by (rewrite <-Etp; exact (f_equal unread S2)).
  destruct (Z.ltb_spec 0 (lines q)) as [Hl|Hl].
  - eapply wp_mono; [apply (do_read_line m c2 q _ phys Ht2); [apply edits_chars; [by constructor|done]|done|done]|].
    intros _ c3 [Hd _]. eapply delivered_from; [exact Hd|congruence|done|congruence].
  - pose proof (lines_le q). eapply wp_mono; [apply (do_read_wait m c2 q _ phys Ht2); [lia|done]|].
    intros _ c3 [Ht3 ->]. split_and!; [|done|cbn; congruence|cbn; congruence].
    pose proof (ty_esc _ _ _ Ht3) as Ee. by rewrite Ee.
Qed.
(** The reader comes first. *)
Lemma read_then_type body : Forall (text (tp c)) (body ++ [10]) -> one_line body ->
  tty_erase (tp c) <> 10 -> tty_kill (tp c) <> 10 -> Z.of_nat (length (body ++ [10])) <= MAX_OVERRUN ->
  let q := fst (edits (tp c) (body ++ [10]) ([], false)) in
  let l := take_line (Z.to_nat (COUNT m)) q in
  wp (do_read m;; scc_receive dumps (body ++ [10]);; do_int)
    (fun _ c' => delivered l phys (drop (length l) q)
       [mk_treply TASK_REPLY (tq_source m) (s8 (PROC_NR m)) SUSPEND 0 0;
        mk_treply REVIVE (s8 (tq_source m)) (s8 (PROC_NR m)) (Z.of_nat (length l)) 0 0] c c') c.
Proof.
  intros Hch Hone He Hk Hlen q l. pose proof bytes_pos. unfold MAX_OVERRUN in Hlen.
  apply wp_bind. eapply wp_mono; [apply (do_read_wait m c [] false phys Hc); done|].
  intros _ c0 [Ht0 Hc0].
  assert (buffered c0 []) as Hb0 by by rewrite Hc0.
  assert (edit (tp c0) = edit (tp c) /\ text (tp c0) = text (tp c)) as [Eed Etx].
  { rewrite Hc0. destruct (canonical_unread (tp c) (tp (requested m c)) eq_refl (ty_canonical _ _ _ Hc)) as (_ & ? & ? & _).
    done. }
  apply wp_bind. eapply wp_mono.
  { apply (scc_receive_buffered dumps (body ++ [10]) c0 []); [done|by eapply text_driver|cbn [length]; unfold MAX_OVERRUN; lia]. }
  change ([] ++ body ++ [10]) with (body ++ [10]).
  intros _ c1 [E1 Hb1]. unfold do_int, wp at 1. rewrite (charint_arrived _ _ Hb1).
  set (ca := arrived (body ++ [10]) c1).
  assert (typed ca [] false) as Hta by (apply (typed_same c0); [done|by unfold ca; rewrite E1|by unfold ca; rewrite E1]).
  assert (tp ca = tp c0) as Etp by (unfold ca; by rewrite E1).
  assert (csys ca = csys c0 /\ replies ca = replies c0 /\ tty_buf ca = tty_buf c0) as (Esys & Erep & Ebuf)
    by (unfold ca; by rewrite E1).
  pose proof (arrived_copy _ _ Hb1) as Hcopy. fold ca in Hcopy. rewrite pairs_app, <-app_assoc in Hcopy.
  apply Forall_app in Hch as [Hbody Hnl]. rewrite length_app, charint_loop_app.
  apply wp_bind. eapply wp_mono.
  { apply (charint_loop_typed body 0 ca [] false
      (pairs [10] ++ drop (2 * length (body ++ [10])) (tty_copy_buf c1)) Hta); [by rewrite Etp, Etx|exact Hcopy|by right|].
    rewrite length_app in Hlen. cbn [length Nat.b2n] in *. lia. }
  rewrite Etp. intros _ c2 [Ht2 Hs2]. unfold edits in Ht2 |- *. rewrite Eed in Ht2.
  pose proof (edits_lines (tp c) body Hone [] false) as Hl1. unfold edits in Hl1.
  pose proof (edits_chars (tp c) body [] false ltac:(by constructor) Hbody) as Hch1. unfold edits in Hch1.
  assert (q = fst (edit (tp c) (foldl (edit (tp c)) ([], false) body) 10)) as Eq
    by (unfold q, edits; by rewrite foldl_app).
  destruct Hs2 as (S1 & S2 & _ & _ & _ & S5 & S6 & _ & S8).
  destruct (frame_settings _ _ S2) as (Eed2 & Etx2 & _ & Ein2).
  pose proof (f_equal tty_incaller S2 : tty_incaller (tp c2) = tty_incaller (tp ca)) as Eca.
  pose proof (f_equal tty_inproc S2 : tty_inproc (tp c2) = tty_inproc (tp ca)) as Epr.
  pose proof (f_equal tty_in_vir S2 : tty_in_vir (tp c2) = tty_in_vir (tp ca)) as Evi.
  pose proof (f_equal tty_erase S2 : tty_erase (tp c2) = tty_erase (tp ca)) as Eer.
  pose proof (f_equal tty_kill S2 : tty_kill (tp c2) = tty_kill (tp ca)) as Eki.
  rewrite Etp, Hc0 in Ein2, Eca, Epr, Evi, Eer, Eki.
  pose proof Hm as [Hn Hfree Hbuf Hphys [Hph0 Hph1]].
  pose proof (edits_length (tp c) body [] false) as Hlen1. unfold edits in Hlen1.
  rewrite length_app in Hlen. cbn [length Nat.b2n] in Hlen, Hlen1.
  destruct (foldl (edit (tp c)) ([], false) body) as [q1 esc1]. cbn [fst snd] in *.
  assert (edit (tp c2) = edit (tp c)) as Eedit by (rewrite Eed2, Etp; exact Eed).
  assert (replies c2 = replies c ++ [mk_treply TASK_REPLY (tq_source m) (s8 (PROC_NR m)) SUSPEND 0 0]) as Er2
    by (rewrite S6, Erep, Hc0; done).
  assert (csys c2 = csys c) as Ec2 by (rewrite S1, Esys, Hc0; done).
  assert (frame (unread (tp c2)) = frame (unread (tp c))) as Ef2
    by (rewrite (f_equal unread S2 : frame (unread (tp c2)) = frame (unread (tp ca))), Etp, Hc0; done).
  pose proof (newline_wakes c2 q1 esc1 (0 + 2 * length body) (drop (2 * length (body ++ [10])) (tty_copy_buf c1))
    (COUNT m) phys Ht2 Hch1) as Hw. rewrite Eedit, <-Eq in Hw. fold l in Hw.
  eapply wp_mono; [apply Hw|].
  - rewrite Etx2, Etp, Etx. by inversion_clear Hnl.
  - by rewrite Eer.
  - by rewrite Eki.
  - lia.
  - rewrite S5. change (0 + 2 * length body)%nat with (2 * length body)%nat. rewrite drop_0 in Hcopy.
    by rewrite Hcopy, <-(pairs_length body), drop_app_length.
  - done.
  - done.
  - rewrite S8, Ebuf, Hc0. exact Hbuf.
  - unfold user_buffer in *. by rewrite Epr, Evi, Ec2.
  - done.
  - done.
  - intros [] c3 Hd3. rewrite Eca, Epr in Hd3. destruct Hd3 as (H1 & H2 & H3 & H4 & H5).
    unfold delivered. rewrite <-Ec2, <-Ef2. split_and!; try done. by rewrite H1, Er2, <-app_assoc.
Qed.
End console.

(** C30. What a reader gets. Characters that arrive on the serial line are
    taken over by the task, echoed, and edited: erase and kill take back what
    they should, a backslash protects them, CR becomes LF. A read then
    delivers the first line of the edited text, as much of it as was asked
    for, puts it where the process wanted it, leaves the rest in the queue and
    tells the caller how much it was; if there is no whole line yet, it
    delivers nothing and tells the caller to wait. *)
Theorem console_delivers_line dumps c m phys chs :
  typed c [] false -> buffered c [] -> request_ok m c phys ->
  Forall (text (tp c)) chs -> Z.of_nat (length chs) <= MAX_OVERRUN ->
  let q := fst (edits (tp c) chs ([], false)) in
  let l := take_line (Z.to_nat (COUNT m)) q in
  wp (scc_receive dumps chs;; do_int;; do_read m)
    (fun _ c' =>
       if 0 <? lines q
       then delivered l phys (drop (length l) q)
              [mk_treply TASK_REPLY (tq_source m) (s8 (PROC_NR m)) (Z.of_nat (length l)) 0 0] c c'
       else typed c' q (tty_escaped (tp c')) /\ tty_inleft (tp c') = COUNT m /\ csys c' = csys c /\
         replies c' = replies c ++ [mk_treply TASK_REPLY (tq_source m) (s8 (PROC_NR m)) SUSPEND 0 0]) c.
Proof. intros Hc Hdrv Hm. by apply type_then_read. Qed.

(** C31. A reader that comes before the line is typed is told to wait, is
    woken by the line's newline and by nothing before it, and gets the same
    bytes, in the same place, as one that comes after; the queue is left the
    same as well. *)
Theorem reader_may_come_first dumps c m phys body :
  typed c [] false -> buffered c [] -> request_ok m c phys ->
  Forall (text (tp c)) (body ++ [10]) -> one_line body ->
  tty_erase (tp c) <> 10 -> tty_kill (tp c) <> 10 -> Z.of_nat (length (body ++ [10])) <= MAX_OVERRUN ->
  let q := fst (edits (tp c) (body ++ [10]) ([], false)) in
  let l := take_line (Z.to_nat (COUNT m)) q in
  let got rs := fun (_ : unit) c' => delivered l phys (drop (length l) q) rs c c' in
  wp (scc_receive dumps (body ++ [10]);; do_int;; do_read m)
    (got [mk_treply TASK_REPLY (tq_source m) (s8 (PROC_NR m)) (Z.of_nat (length l)) 0 0]) c /\
  wp (do_read m;; scc_receive dumps (body ++ [10]);; do_int)
    (got [mk_treply TASK_REPLY (tq_source m) (s8 (PROC_NR m)) SUSPEND 0 0;
          mk_treply REVIVE (s8 (tq_source m)) (s8 (PROC_NR m)) (Z.of_nat (length l)) 0 0]) c.
Proof.
  intros Hc Hdrv Hm Hch Hone He Hk Hlen q l got. split; [|by apply read_then_type].
  eapply wp_mono; [by apply type_then_read|]. intros [] c' H.
  assert (0 < lines q) as Hl.
  { unfold q, edits. rewrite foldl_app. cbn [foldl].
    destruct (foldl (edit (tp c)) ([], false) body) as [q1 esc1]. by apply edit_newline. }
  destruct (Z.ltb_spec 0 (lines (fst (edits (tp c) (body ++ [10]) ([], false))))); [exact H|].
  unfold q in Hl. lia.
Qed.

(** ** A console *)

(** All processes have the same map: data in 64 clicks from click 1024 on. *)
Definition demo_kernel : kst :=
  mk_kst (replicate NR_SLOTS (proc0 <| p_map := mk_segs (mk_map 0 1024 16) (mk_map 16 1040 64) (mk_map 96 1120 8) |>))
    0 0 (replicate NQ None) (replicate NQ None) None None 0 false 0 ∅ 0.

Definition demo_screen : vdu :=
  match (vdu_init 0 1048576;; vducursor false) vdu0 with Done _ v => v | _ => vdu0 end.

Definition demo_con : con :=
  mk_con (mk_sst demo_kernel (fun _ => 0) false 0)
    (tty0 <| tty_mode := Z.lor CRMOD (Z.lor XTABS ECHO) |> <| tty_erase := 8 |> <| tty_kill := 64 |>
       <| tty_intr := 127 |> <| tty_quit := 28 |> <| tty_xon := 17 |> <| tty_xoff := 19 |> <| tty_eof := 4 |>)
    0 MAX_OVERRUN (replicate 1000 0) (replicate 1000 0) (replicate 256 0) 0 0 demo_screen [] [].

Lemma demo_screen_ok : screen_ok demo_screen.
Proof.
  destruct (proj1 (wp_run _ _ _) (init_view 0 1048576)) as ([] & v & E & Hv & Hn).
  assert (demo_screen = v) as -> by (unfold demo_screen; rewrite E; reflexivity).
  assert (bytes_ok blank) as Hb by (intros r c l _; cbn; lia).
  exists v, blank. exact (conj Hv (conj Hn (conj Hb (or_introl eq_refl)))).
Qed.

Lemma demo_typed : typed demo_con [] false.
Proof.
  split; [|reflexivity|reflexivity| |exact demo_screen_ok].
  - pose proof bytes_pos. split; [apply length_replicate|cbn; lia|reflexivity|cbn; lia|reflexivity|cbn; lia].
  - split; [reflexivity|reflexivity|reflexivity|discriminate|reflexivity].
Qed.

(** FS asks for 100 characters for process 5, at address 4097. *)
Definition demo_read : treq := mk_treq 1 TTY_READ CONSOLE 5 100 0 0 4097.

Lemma demo_request : request_ok demo_read demo_con (4097 + 1024 * 256).
Proof. split; try done; cbn; lia. Qed.

(** [ls ox], erase, newline. *)
Definition demo_line : list Z := [108; 115; 32; 111; 120; 8].

Lemma demo_text : Forall (text (tp demo_con)) (demo_line ++ [10]).
Proof. repeat constructor; vm_compute; congruence. Qed.

Lemma console_delivers_line_witness :
  wp (scc_receive (mret tt) (demo_line ++ [10]);; do_int;; do_read demo_read)
    (fun _ c' => delivered [108; 115; 32; 111; 10] (4097 + 1024 * 256) []
      [mk_treply TASK_REPLY 1 5 5 0 0] demo_con c') demo_con.
Proof.
  apply (console_delivers_line (mret tt) demo_con demo_read (4097 + 1024 * 256) (demo_line ++ [10])
    demo_typed); [split_and!; reflexivity|exact demo_request|exact demo_text|].
  vm_compute. discriminate.
Defined.

Lemma reader_may_come_first_witness :
  let got rs := fun (_ : unit) c' => delivered [108; 115; 32; 111; 10] (4097 + 1024 * 256) [] rs demo_con c' in
  wp (scc_receive (mret tt) (demo_line ++ [10]);; do_int;; do_read demo_read)
    (got [mk_treply TASK_REPLY 1 5 5 0 0]) demo_con /\
  wp (do_read demo_read;; scc_receive (mret tt) (demo_line ++ [10]);; do_int)
    (got [mk_treply TASK_REPLY 1 5 SUSPEND 0 0; mk_treply REVIVE 1 5 5 0 0]) demo_con.
Proof.
  apply (reader_may_come_first (mret tt) demo_con demo_read (4097 + 1024 * 256) demo_line demo_typed);
    [split_and!; reflexivity|exact demo_request|exact demo_text|
     repeat constructor; discriminate|discriminate|discriminate|vm_compute; discriminate].
Defined.

(** ** Edges *)

Transparent TTY_IN_BYTES.

Definition after (m : M con unit) (c : con) : option (Z * Z * list Z) :=
  match m c with
  | Done _ c' => Some (tty_incount (tp c'), tty_lfct (tp c'), map REP_STATUS (replies c'))
  | _ => None
  end.

(** CTRL-D as the character that restarts stopped output is counted as a line
    but not stored: the next read does not wait for the end of its line. *)
Example stopped_eof_counts :
  after (in_char CONSOLE 19;; in_char CONSOLE 4;; in_char CONSOLE 97;; do_read demo_read) demo_con =
  Some (0, 1, [1]).
Proof. vm_compute. reflexivity. Qed.

(** Erasing an end of file takes it back but leaves it counted. *)
Example erased_eof_counts :
  after (in_char CONSOLE 4;; in_char CONSOLE 8;; in_char CONSOLE 97;; do_read demo_read) demo_con =
  Some (0, 1, [1]).
Proof. vm_compute. reflexivity. Qed.

(** A read into a bad address leaves the terminal busy for good. *)
Example bad_address_blocks :
  let bad := mk_treq 1 TTY_READ CONSOLE 5 100 0 0 900000 in
  after (in_char CONSOLE 97;; in_char CONSOLE 10;; do_read bad;; do_read demo_read) demo_con =
  Some (2, 1, [E_BAD_ADDR; EIO]).
Proof. vm_compute. reflexivity. Qed.

(** With one place left in the queue, a backslash and a character that it does
    not protect overwrite the oldest character: 1001 are counted. *)
Example escape_overflows :
  let full := demo_con <| tp ::= fun t => t <| tty_inhead := 999%nat |> <| tty_incount := 999 |> |> in
  after (in_char CONSOLE 92;; in_char CONSOLE 97) full = Some (1001, 0, []).
Proof. vm_compute. reflexivity. Qed.
