(* ===== verification/Boot.v ===== *)
(** * Start-up: [main] of [src/kernel/lisa/lisamain.c]

    What the machine does between the boot loader's jump to the kernel and the
    first process: the devices are set up, the process table is filled and the
    tasks, the two servers and [init] are made ready. The state is that of the
    kernel (KSystem), of the MMU (Mmu) and of the screen (Vdu), with the writes
    to the other devices' registers in order. *)

From S2P Require Import Prelude KProc KQueues KIpc KIntr KSys KSystem Mmu VduFont Vdu VduDraw VduTerm VduOk.

(** Registers that start-up writes ([lisaaddr.h]). *)
Inductive port := VIA_PAR_IER | VIA_COPS_IER | VIA_COPS_IFR | SCC_B_CTRL | VRT_ON.

Record machine := mk_machine {
  msys : sst;
  mmmu : mmu;
  mvdu : vdu;
  ports : list (port * Z);
  cons_ready : bool;
}.
#[export] Instance machine_upd : Updatable machine := fun m =>
  mk_machine (msys m) (mmmu m) (mvdu m) (ports m) (cons_ready m).

Definition on_sys {A} (m : M sst A) : M machine A := zoom msys (fun k s => s <| msys := k |>) m.
Definition on_ker {A} (m : M kst A) : M machine A := on_sys (in_ker m).
Definition mker (m : machine) : kst := ker (msys m).
Definition on_mmu {A} (m : M mmu A) : M machine A := zoom mmmu (fun k s => s <| mmmu := k |>) m.
Definition on_vdu {A} (m : M vdu A) : M machine A := zoom mvdu (fun k s => s <| mvdu := k |>) m.
Definition REG8 (r : port) (v : Z) : M machine unit := modify (fun s => s <| ports ::= fun l => l ++ [(r, v)] |>).

Definition scc_wr (reg val : Z) : M machine unit := REG8 SCC_B_CTRL reg;; REG8 SCC_B_CTRL val.

Definition SCC_PCLK : Z := 4000000.

Definition lisa_cons_init : M machine unit :=
  r ← gets cons_ready;
  if r : bool then mret tt else
  scc_wr 9 64;;
  scc_wr 4 68;;
  scc_wr 11 80;;
  scc_wr 12 (s16 (SCC_PCLK / (2 * 16 * 9600) - 2));;
  scc_wr 13 0;;
  scc_wr 14 3;;
  scc_wr 3 193;;
  scc_wr 5 234;;
  scc_wr 15 0;;
  scc_wr 1 16;;
  scc_wr 9 10;;
  modify (fun s => s <| cons_ready := true |>).

Definition VIA_IRQ_CA1 : Z := 2.

Definition lisa_kbd_init : M machine unit :=
  REG8 VIA_COPS_IER 127;;
  REG8 VIA_COPS_IFR 127;;
  REG8 VIA_COPS_IER (Z.lor 128 VIA_IRQ_CA1).

Definition initlisa (lisa_membase lisa_memend : Z) : M machine unit :=
  REG8 VIA_PAR_IER 127;;
  REG8 VIA_COPS_IER 127;;
  lisa_cons_init;;
  on_vdu (vdu_init lisa_membase lisa_memend);;
  lisa_kbd_init;;
  on_mmu lisa_mmu_init;;
  REG8 VRT_ON 0.

(** [lisa_user_mem_end]: the memory that Minix may use. *)
Definition lisa_user_mem_end (lisa_memend : Z) : Z := s32 (lisa_memend - VIDEO_PAGE).

(** [tasktab\[i\].stksize] (table.c): TTY, IDLE, printer, winchester, floppy,
    memory, clock, system, hardware. *)
Definition SMALL_STACK : Z := 128 * 4.
Definition stksize (i : nat) : Z :=
  default 0 ([2 * SMALL_STACK; SMALL_STACK; SMALL_STACK; SMALL_STACK; 3 * SMALL_STACK / 2; SMALL_STACK; SMALL_STACK;
              SMALL_STACK; 0] !! i).
Definition TOT_STACK_SPACE : Z := foldr Z.add 0 (stksize <$> seq 0 9).
Definition ALIGNMENT : Z := 4.

Section main.
(** [sizes\[\]], patched by the build: text and data of the kernel, MM, FS and
    init, in clicks; where the tasks' stacks are and where the tasks begin. *)
Context (sizes : list Z) (t_stack : Z) (initial_pc : nat -> Z).

Definition size (i : nat) : Z := u16 (default 0 (sizes !! i)).

Definition clear_slot (i : nat) : M kst unit :=
  upd_proc i (fun p => p <| p_flags := P_SLOT_FREE |>);;
  upd_proc i (fun p => p <| p_nr := Z.of_nat i - NR_TASKS |>).

Definition isidlehardware (n : Z) : bool := (n =? IDLE) || (n =? HARDWARE).

(** [t_stack] rounded up to [ALIGNMENT]. *)
Definition stack_base : Z := Z.land (u32 (t_stack + (ALIGNMENT - 1))) (Z.lnot (ALIGNMENT - 1)).

(** The loop over the drivers: [ktsb] is the top of the stack given last. *)
Fixpoint start_tasks (ts : list nat) (ktsb : Z) : M kst unit :=
  match ts with
  | [] => mret tt
  | rp :: ts' =>
      upd_proc rp (fun p => p <| p_flags := 0 |>);;
      let ktsb := u32 (ktsb + stksize rp) in
      upd_proc rp (fun p => p <| p_sp := ktsb |> <| p_splow := ktsb |> <| p_pc := initial_pc rp |>);;
      (if negb (isidlehardware (Z.of_nat rp - NR_TASKS)) then
         lock_ready rp;;
         upd_proc rp (fun p => p <| p_psw := 8192 |>)
       else upd_proc rp (fun p => p <| p_psw := 0 |>));;
      upd_proc rp (fun p => p <| p_map := mk_segs
        ((seg_T (p_map p)) <| mem_len := size 0 |>)
        (mk_map (size 0) (size 0) (size 1))
        (mk_map (u16 (size 0 + size 1)) (u16 (size 0 + size 1)) (mem_len (seg_S (p_map p)))) |>);;
      start_tasks ts' ktsb
  end.

(** The loop over MM, FS and init: [base] is where the image begins. *)
Fixpoint start_servers (ts : list nat) (base : Z) : M kst unit :=
  match ts with
  | [] => mret tt
  | t :: ts' =>
      let rp := proc_addr (Z.of_nat t) in
      upd_proc rp (fun p => p <| p_flags := 0 |>);;
      lock_ready rp;;
      upd_proc rp (fun p => p <| p_psw := 0 |> <| p_pc := u32 (Z.shiftl base CLICK_SHIFT) |>);;
      let st := size (2 * t + 2) in
      let dbase := u16 (base + st) in
      let sd := size (2 * t + 3) in
      let sbase := u16 (dbase + sd) in
      upd_proc rp (fun p => p <| p_map := mk_segs (mk_map base base st) (mk_map dbase dbase sd) (mk_map sbase sbase 0) |>);;
      start_servers ts' sbase
  end.

Definition main_table : M kst unit :=
  for_each (seq 0 NR_SLOTS) clear_slot;;
  start_tasks (seq 0 9) stack_base;;
  upd_proc (proc_addr HARDWARE) (fun p => p <| p_map ::= fun m => m <| seg_D := mk_map 0 0 65535 |> |>);;
  start_servers [0; 1; 2]%nat (u16 (size 0 + size 1));;
  modify (fun s => s <| bill_ptr := proc_addr HARDWARE |>);;
  lock_pick_proc.

Definition main (lisa_membase lisa_memend : Z) : M machine unit :=
  initlisa lisa_membase lisa_memend;;
  on_ker main_table.

(** ** The state that [main] leaves *)

(** The kernel's variables before [main]: all zero, but for the address of
    system.c's message buffer. *)
Definition kst_bss (mem : gmap Z message) (buf : Z) : kst :=
  mk_kst (replicate NR_SLOTS proc0) 0 0 (replicate NQ None) (replicate NQ None) None None 0 false 0 mem buf.

Definition task_top (i : nat) : Z := foldl (fun k j => u32 (k + stksize j)) stack_base (seq 0 (S i)).
Definition image_base (t : nat) : Z :=
  foldl (fun b k => u16 (u16 (b + size (2 * k + 2)) + size (2 * k + 3))) (u16 (size 0 + size 1)) (seq 0 t).

Definition boot_map (i : nat) : segs :=
  if decide (i < 9)%nat then
    mk_segs (mk_map 0 0 (size 0))
      (if decide (i = 8)%nat then mk_map 0 0 65535 else mk_map (size 0) (size 0) (size 1))
      (mk_map (u16 (size 0 + size 1)) (u16 (size 0 + size 1)) 0)
  else if decide (i < 12)%nat then
    let t := (i - 9)%nat in let b := image_base t in let d := u16 (b + size (2 * t + 2)) in
    let e := u16 (d + size (2 * t + 3)) in
    mk_segs (mk_map b b (size (2 * t + 2))) (mk_map d d (size (2 * t + 3))) (mk_map e e 0)
  else segs0.

Definition boot_next (i : nat) : option nat :=
  default None ([Some 2; None; Some 3; Some 4; Some 5; Some 6; Some 7; None; None; Some 10]%nat !! i).

Definition boot_proc (i : nat) : proc :=
  let p := proc0 <| p_nr := Z.of_nat i - NR_TASKS |> <| p_map := boot_map i |> <| p_nextready := boot_next i |> in
  if decide (i < 9)%nat then
    p <| p_sp := task_top i |> <| p_splow := task_top i |> <| p_pc := initial_pc i |>
      <| p_psw := if decide (i = 1 \/ i = 8)%nat then 0 else 8192 |>
  else if decide (i < 12)%nat then p <| p_pc := u32 (Z.shiftl (image_base (i - 9)) CLICK_SHIFT) |>
  else p <| p_flags := P_SLOT_FREE |>.

Definition boot_kst (mem : gmap Z message) (buf : Z) : kst :=
  mk_kst (boot_proc <$> seq 0 NR_SLOTS) 0 HW [Some 0; Some 9; Some 11; None]%nat [Some 7; Some 10; Some 11; None]%nat
    None None 0 false 0 mem buf.

Lemma main_table_runs mem buf : main_table (kst_bss mem buf) = Done tt (boot_kst mem buf).
Proof. cbv -[u16 u32 size stack_base Z.shiftl]. reflexivity. Qed.

Context (mem : gmap Z message) (buf : Z).
Abbreviation bs := (boot_kst mem buf).

Lemma boot_P i : slot_ok i -> P i bs = boot_proc i.
Proof.
  intros Hi. unfold P. apply list_lookup_total_correct. cbn [procs boot_kst].
  rewrite list_lookup_fmap, lookup_seq_lt by done. done.
Qed.

Lemma boot_flags i : slot_ok i -> flags bs i = if decide (i < 12)%nat then 0 else P_SLOT_FREE.
Proof. intros Hi. rewrite boot_P by done. unfold boot_proc. destruct (decide (i < 9)%nat), (decide (i < 12)%nat); try lia; done. Qed.

(** The ready queues: the tasks in the order of their numbers, MM and FS, init. *)
Definition boot_queues (q : nat) : list nat :=
  default [] ([[0; 2; 3; 4; 5; 6; 7]; [9; 10]; [11]; []]%nat !! q).

Lemma boot_SI : SI bs boot_queues.
Proof.
  split.
  - split_and!; [done|done|done|]. intros q Hq. unfold NQ in Hq.
    assert (Hin : forallb (fun i => (i <? NR_SLOTS)%nat && Nat.eqb (queue_of bs i) q) (boot_queues q) = true).
    { destruct q as [|[|[|[|q]]]]; [vm_compute; reflexivity..|lia]. }
    split_and!.
    + destruct q as [|[|[|[|q]]]]; [repeat (split; [done|]); done..|lia].
    + destruct q as [|[|[|[|q]]]]; [match goal with |- NoDup ?l => apply (bool_decide_eq_true_1 (NoDup l)) end; vm_compute; reflexivity..|lia].
    + destruct q as [|[|[|[|q]]]]; [done..|lia].
    + intros i Hi. rewrite forallb_forall in Hin. specialize (Hin i ltac:(by apply list_elem_of_In)).
      apply andb_true_iff in Hin as [H1%Nat.ltb_lt H2%Nat.eqb_eq]. done.
  - intros i Hi.
    assert (H := all_slots (fun i => Bool.eqb (bool_decide (i ∈ boot_queues (queue_of bs i)))
      ((flags bs i =? 0) && negb (Nat.eqb i IDLEP) && negb (Nat.eqb i HW))) ltac:(by vm_compute) i Hi).
    cbn beta in H. apply Bool.eqb_prop in H. rewrite <- (bool_decide_eq_true (i ∈ _)), H.
    rewrite !andb_true_iff, !negb_true_iff, Z.eqb_eq, !Nat.eqb_neq. tauto.
Qed.

Lemma boot_tst i m : slot_ok i -> Z.land P_SLOT_FREE m = 0 -> tst (flags bs i) m = false.
Proof.
  intros Hi Hm. rewrite boot_flags by done. case_decide; [apply tst_0|].
  unfold tst. by rewrite Hm.
Qed.

Lemma boot_CQ : CQ bs (fun _ => []).
Proof.
  split; try set_solver.
  - intros d Hd. split; [|apply NoDup_nil_2]. simpl. rewrite boot_P by done.
    unfold boot_proc. case_decide; [done|]. by case_decide.
  - intros i Hi. by rewrite boot_tst.
Qed.

Lemma boot_KI : 0 <= buf -> buf + MESS_SIZE <= 65535 * CLICK_SIZE -> KI bs.
Proof.
  intros H0 H1. unfold MESS_SIZE, CLICK_SIZE in H1.
  assert (HW_slot : slot_ok HW) by (vm_compute; lia).
  split_and!; [exists boot_queues; apply boot_SI|exists (fun _ => []); apply boot_CQ| |].
  - split.
    + reflexivity.
    + intros i Hi. rewrite boot_P by done. unfold boot_proc. case_decide; [done|]. by case_decide.
    + intros i Hi. by rewrite boot_tst.
    + intros i Hi. by rewrite boot_tst.
    + by rewrite boot_flags by done.
    + rewrite boot_flags; [done|vm_compute; lia].
    + rewrite boot_flags; [done|vm_compute; lia].
    + rewrite boot_P by done. change (seg_D (p_map (boot_proc HW))) with (mk_map 0 0 65535). cbn [mem_vir mem_len m_addr boot_kst].
      unfold bad_mess_addr, CLICK_SHIFT, MESS_SIZE. cbn [mem_vir mem_len].
      rewrite s32_id by lia. rewrite !Z.shiftr_div_pow2 by done. change (2 ^ 8) with 256.
      rewrite Z.sub_0_r, !u16_id by zlia. apply orb_false_iff. rewrite Z.ltb_ge, Z.leb_gt. zlia.
    + rewrite boot_P by done. unfold mess_addr.
      change (seg_D (p_map (boot_proc HW))) with (mk_map 0 0 65535). change (p_shadow (boot_proc HW)) with 0.
      transitivity (s32 (buf + 0)); [reflexivity|]. rewrite Z.add_0_r. exact (s32_id buf ltac:(lia)).
  - vm_compute. reflexivity.
Qed.

Lemma boot_HQ : HQ bs [].
Proof.
  split; try done; [apply NoDup_nil_2| |set_solver].
  intros i Hi. rewrite boot_P by done. unfold boot_proc. case_decide; [set_solver|]. case_decide; set_solver.
Qed.

Lemma boot_TK : TK bs.
Proof. intros i Hi. rewrite boot_flags by (unfold slot_ok, NR_SLOTS; lia). by rewrite decide_True by lia. Qed.

(** ** Stacks and images *)

(** The first [k] of [sizes], added up. *)
Definition clicks (k : nat) : Z := foldr Z.add 0 (size <$> seq 0 k).
Definition stacks (k : nat) : Z := foldr Z.add 0 (stksize <$> seq 0 k).

Lemma size_range k : 0 <= size k < 65536.
Proof. apply u16_range. Qed.

Lemma clicks_S k : clicks (S k) = clicks k + size k.
Proof.
  unfold clicks. rewrite seq_S, fmap_app, foldr_app. cbn [fmap list_fmap foldr Nat.add].
  generalize (size <$> seq 0 k). intros l. induction l as [|x l IH]; cbn [foldr]; lia.
Qed.

Lemma clicks_mono j k : (j <= k)%nat -> 0 <= clicks j <= clicks k.
Proof.
  induction 1 as [|k H IH].
  - split; [|lia]. induction j as [|j IH]; [done|]. rewrite clicks_S. pose proof (size_range j). lia.
  - rewrite clicks_S. pose proof (size_range k). lia.
Qed.

Lemma image_base_clicks t : clicks 8 < 65536 -> (t <= 3)%nat -> image_base t = clicks (2 * t + 2).
Proof.
  intros H8. assert (Hc : forall k, (k <= 8)%nat -> 0 <= clicks k < 65536).
  { intros k Hk. pose proof (clicks_mono k 8 Hk). lia. }
  assert (H2 : u16 (size 0 + size 1) = clicks 2).
  { change (clicks 2) with (size 0 + (size 1 + 0)). rewrite Z.add_0_r. apply u16_id.
    pose proof (Hc 2%nat ltac:(lia)) as H. change (clicks 2) with (size 0 + (size 1 + 0)) in H. lia. }
  induction t as [|t IH]; intros Ht; [exact H2|].
  unfold image_base in *. rewrite seq_S, foldl_app. cbn [foldl Nat.add]. rewrite IH by lia.
  replace (2 * S t + 2)%nat with (S (S (2 * t + 2))) by lia. rewrite !clicks_S.
  pose proof (Hc (S (2 * t + 2)) ltac:(lia)) as A. rewrite clicks_S in A.
  pose proof (Hc (S (S (2 * t + 2))) ltac:(lia)) as B. rewrite !clicks_S in B.
  replace (S (2 * t + 2)) with (2 * t + 3)%nat in * by lia. rewrite !u16_id by (rewrite ?u16_id; lia). lia.
Qed.

Lemma stacks_S k : stacks (S k) = stacks k + stksize k.
Proof.
  unfold stacks. rewrite seq_S, fmap_app, foldr_app. cbn [fmap list_fmap foldr Nat.add].
  generalize (stksize <$> seq 0 k). intros l. induction l as [|x l IH]; cbn [foldr]; lia.
Qed.

Lemma stacks_range k : (k <= 9)%nat -> 0 <= stacks k <= TOT_STACK_SPACE.
Proof.
  intros Hk. assert (H := all_slots (fun k => (9 <? k)%nat || ((0 <=? stacks k) && (stacks k <=? TOT_STACK_SPACE)))
    ltac:(by vm_compute) k ltac:(unfold slot_ok, NR_SLOTS; lia)).
  cbn beta in H. apply orb_true_iff in H as [H%Nat.ltb_lt|H]; [lia|].
  apply andb_true_iff in H as [H1%Z.leb_le H2%Z.leb_le]. done.
Qed.

Lemma stack_base_range : 0 <= t_stack -> t_stack + 3 < 2 ^ 32 ->
  t_stack <= stack_base <= t_stack + 3 /\ stack_base mod ALIGNMENT = 0.
Proof.
  intros H0 H1. unfold stack_base, ALIGNMENT. rewrite u32_id by lia.
  replace (Z.land (t_stack + (4 - 1)) (Z.lnot (4 - 1))) with ((t_stack + 3) / 4 * 4); [zlia|].
  change (4 - 1) with (Z.ones 2). rewrite <- Z.ldiff_land, Z.ldiff_ones_r by done.
  rewrite Z.shiftl_mul_pow2, Z.shiftr_div_pow2 by done. done.
Qed.

Lemma task_top_stacks i : 0 <= t_stack -> t_stack + 3 + TOT_STACK_SPACE < 2 ^ 32 -> (i < 9)%nat ->
  task_top i = stack_base + stacks (S i).
Proof.
  intros H0 H1. assert (HT : 0 <= TOT_STACK_SPACE) by (vm_compute; done).
  destruct (stack_base_range H0 ltac:(lia)) as [Hb _].
  unfold task_top. induction i as [|i IH]; intros Hi.
  - pose proof (stacks_range 1 ltac:(lia)). rewrite stacks_S in *. change (stacks 0) with 0 in *. cbn [seq foldl]. rewrite u32_id by lia. lia.
  - rewrite seq_S, foldl_app, IH by lia. cbn [foldl Nat.add]. rewrite (stacks_S (S i)).
    pose proof (stacks_range (S (S i)) ltac:(lia)) as A. rewrite (stacks_S (S i)) in A. rewrite u32_id by lia. lia.
Qed.

(** What [main] leaves in the kernel. *)
Record kernel_booted (k : kst) : Prop := {
  kb_inv : KI k /\ HQ k [] /\ TK k /\ SI k boot_queues;
  kb_cur : proc_ptr k = 0%nat /\ bill_ptr k = HW;
  kb_images t : (t < 3)%nat -> let b := clicks (2 * t + 2) in let d := clicks (2 * t + 3) in let e := clicks (2 * t + 4) in
    p_map (P (9 + t) k) = mk_segs (mk_map b b (d - b)) (mk_map d d (e - d)) (mk_map e e 0);
  kb_stacks i : (i < 9)%nat -> p_sp (P i k) = stack_base + stacks (S i) /\ p_pc (P i k) = initial_pc i;
}.

Lemma boot_kernel : clicks 8 < 65536 -> 0 <= t_stack -> t_stack + 3 + TOT_STACK_SPACE < 2 ^ 32 ->
  0 <= buf -> buf + MESS_SIZE <= 65535 * CLICK_SIZE -> kernel_booted bs.
Proof.
  intros H8 Ht0 Ht1 Hb0 Hb1. split.
  - split_and!; [by apply boot_KI|apply boot_HQ|apply boot_TK|apply boot_SI].
  - done.
  - intros t Ht. cbv zeta. rewrite boot_P by (unfold slot_ok, NR_SLOTS; lia).
    transitivity (boot_map (9 + t)); [unfold boot_proc; rewrite decide_False, decide_True by lia; done|].
    unfold boot_map. rewrite decide_False, decide_True by lia. replace (9 + t - 9)%nat with t by lia.
    rewrite image_base_clicks by (lia || done). cbv zeta.
    pose proof (clicks_mono (2 * t + 2) 8 ltac:(lia)) as A.
    pose proof (clicks_mono (S (2 * t + 2)) 8 ltac:(lia)) as B. pose proof (clicks_mono (S (S (2 * t + 2))) 8 ltac:(lia)) as C.
    replace (2 * t + 4)%nat with (S (S (2 * t + 2))) by lia. replace (2 * t + 3)%nat with (S (2 * t + 2)) by lia.
    rewrite !clicks_S in *. pose proof (size_range (2 * t + 2)). pose proof (size_range (S (2 * t + 2))).
    rewrite (u16_id (clicks _ + _)) by lia. rewrite (u16_id (_ + _ + _)) by lia.
    f_equal; f_equal; lia.
  - intros i Hi. rewrite boot_P by (unfold slot_ok, NR_SLOTS; lia). unfold boot_proc. rewrite decide_True by lia.
    rewrite <- task_top_stacks by done. done.
Qed.
End main.

Definition set_ker (m : machine) (k : kst) : machine := m <| msys := (msys m) <| ker := k |> |>.
Lemma wp_on_ker {A} (m : M kst A) Q s : wp m (fun a k => Q a (set_ker s k)) (mker s) -> wp (on_ker m) Q s.
Proof. intros H. by apply wp_zoom, wp_zoom. Qed.
Lemma wp_on_mmu {A} (m : M mmu A) Q s : wp m (fun a k => Q a (s <| mmmu := k |>)) (mmmu s) -> wp (on_mmu m) Q s.
Proof. intros H. by apply wp_zoom. Qed.
Lemma wp_on_vdu {A} (m : M vdu A) Q s : wp m (fun a k => Q a (s <| mvdu := k |>)) (mvdu s) -> wp (on_vdu m) Q s.
Proof. intros H. by apply wp_zoom. Qed.

Definition same_parts (m m' : machine) : Prop := mker m' = mker m /\ mmmu m' = mmmu m /\ mvdu m' = mvdu m.

Lemma lisa_cons_init_ok m : wp lisa_cons_init (fun _ m' => same_parts m m') m.
Proof. unfold lisa_cons_init. wp_steps. destruct (cons_ready m); [done|]. unfold scc_wr, REG8. by wp_steps. Qed.

Lemma initlisa_ok membase memend m : boot_ok (mmmu m) -> cur_ctx (mmmu m) = -1 -> mvdu m = vdu0 ->
  wp (initlisa membase memend) (fun _ m' => mker m' = mker m /\
    MI membase (mmmu m') /\
    (forall c v, (1 <= c <= 3)%nat -> 0 <= v < 2 ^ 24 -> access (hw (mmmu m') !!! c) v = None) /\
    wp (vducursor false) (fun _ v => view v blank /\ next v = None) (mvdu m')) m.
Proof.
  intros Hb Hc Hv. unfold initlisa, lisa_kbd_init, REG8. wp_steps.
  eapply wp_mono; [apply lisa_cons_init_ok|]. intros [] m1 (K1 & M1 & V1). wp_steps. apply wp_on_vdu.
  replace (mvdu m1) with vdu0 by (rewrite V1; symmetry; exact Hv).
  eapply wp_mono; [exact (wp_bind_inv _ _ _ _ (init_view membase memend))|]. intros [] v Hview. wp_steps. apply wp_on_mmu.
  apply wp_mono with (fun _ mm => MI membase mm /\ selected mm = 1%nat /\
    forall c v, (1 <= c <= 3)%nat -> 0 <= v < 2 ^ 24 -> access (hw mm !!! c) v = None).
  { apply lisa_mmu_init_ok; cbn; by rewrite M1. }
  intros [] mm (HM & _ & Hacc). wp_steps.
  split_and!; [exact K1|done|done|exact Hview].
Qed.

(** C2. Start-up. From the kernel's zeroed variables and MMU registers and
    latches in any state, [main] returns; no user address is accessible and
    the screen is blank; the kernel invariant holds, no interrupt is held up,
    the tasks, then the servers, then init are ready in the order of their
    numbers, and the terminal task runs first; the images of MM, FS and init
    lie one behind the other after the kernel, and the tasks' stacks one above
    the other in [t_stack], aligned and within its space. *)
Theorem boot_correct sizes t_stack initial_pc mem buf membase memend m :
  mker m = kst_bss mem buf -> boot_ok (mmmu m) -> cur_ctx (mmmu m) = -1 -> mvdu m = vdu0 ->
  clicks sizes 8 < 65536 -> 0 <= t_stack -> t_stack + 3 + TOT_STACK_SPACE < 2 ^ 32 ->
  0 <= buf -> buf + MESS_SIZE <= 65535 * CLICK_SIZE ->
  wp (main sizes t_stack initial_pc membase memend) (fun _ m' =>
    kernel_booted sizes t_stack initial_pc (mker m') /\ MI membase (mmmu m') /\
    (forall c v, (1 <= c <= 3)%nat -> 0 <= v < 2 ^ 24 -> access (hw (mmmu m') !!! c) v = None) /\
    wp (vducursor false) (fun _ v => view v blank) (mvdu m') /\
    t_stack <= stack_base t_stack /\ stack_base t_stack mod ALIGNMENT = 0 /\
    stack_base t_stack + stacks 9 <= t_stack + (TOT_STACK_SPACE + ALIGNMENT - 1)) m.
Proof.
  intros Hk Hm Hc Hv H8 Ht0 Ht1 Hb0 Hb1. unfold main. wp_steps.
  eapply wp_mono; [by apply initlisa_ok|]. intros [] m1 (K1 & HM & Ha & Hview). apply wp_on_ker.
  rewrite K1, Hk. unfold wp at 1. rewrite main_table_runs.
  assert (HT : 0 <= TOT_STACK_SPACE) by (vm_compute; done).
  destruct (stack_base_range t_stack Ht0 ltac:(lia)) as [Hr Hal].
  split_and!; [by apply boot_kernel|done|done| |lia|done|].
  - eapply wp_mono; [exact Hview|]. naive_solver.
  - pose proof (stacks_range 9 ltac:(lia)). unfold ALIGNMENT. lia.
Qed.

(** A machine with every MMU register writable, that is to say in a wrong
    state. *)
Definition cold_mmu : mmu :=
  mk_mmu (replicate 4 (replicate NSEGS (mk_regs 0 1792))) true true (replicate 3 (mk_uctx (replicate NSEGS true) None segs0)) (-1) [].
Definition cold_machine : machine := mk_machine (mk_sst (kst_bss ∅ 16384) (fun _ => 0) false 0) cold_mmu vdu0 [] false.
Definition demo_sizes : list Z := [256; 128; 64; 128; 128; 512; 16; 16].

Lemma boot_correct_witness :
  wp (main demo_sizes 65537 (fun i => 4096 + 64 * Z.of_nat i) 0 1048576) (fun _ m' =>
    kernel_booted demo_sizes 65537 (fun i => 4096 + 64 * Z.of_nat i) (mker m') /\ MI 0 (mmmu m') /\
    (forall c v, (1 <= c <= 3)%nat -> 0 <= v < 2 ^ 24 -> access (hw (mmmu m') !!! c) v = None) /\
    wp (vducursor false) (fun _ v => view v blank) (mvdu m') /\
    65537 <= stack_base 65537 /\ stack_base 65537 mod ALIGNMENT = 0 /\
    stack_base 65537 + stacks 9 <= 65537 + (TOT_STACK_SPACE + ALIGNMENT - 1)) cold_machine.
Proof.
  apply (boot_correct demo_sizes 65537 (fun i => 4096 + 64 * Z.of_nat i) ∅ 16384 0 1048576 cold_machine);
    try reflexivity; try (vm_compute; congruence).
  split; [|reflexivity|].
  - split; [reflexivity|]. intros c Hc. cbn [hw cold_machine mmmu cold_mmu]. by rewrite lookup_total_replicate_2.
  - intros c Hc. cbn [uctxs cold_machine mmmu cold_mmu]. by rewrite lookup_total_replicate_2.
Defined.
