(* ===== verification/KRun.v ===== *)
(** * What the message system keeps besides its invariant

    [steady]: the process that runs heads a ready queue (or is IDLE), the
    queue of held-up interrupts and the entry count are untouched, tasks are
    blocked by messages only, and the numbers, maps and modes of the processes
    are the same. Every routine of proc.c but [interrupt] and [unhold], and
    [cause_sig] for a process, keep it. *)

From S2P Require Import Prelude KProc KQueues KIpc KIntr.

(** The process that runs is the first of its ready queue. *)
Definition RUNNING (s : kst) : Prop :=
  proc_ptr s = IDLEP \/ exists q, (q < NQ)%nat /\ rdy_head s !!! q = Some (proc_ptr s).

(** What of a process no message, signal or switch changes. *)
Definition fixed_part (p : proc) : Z * segs * Z := (p_nr p, p_map p, p_psw p).
Definition held_part (p : proc) : option nat * bool := (p_nextheld p, p_int_held p).

(** Maps and modes stay, no slot is taken into use, the entry count stays. *)
Record calm (s s' : kst) : Prop := {
  cm_part j : fixed_part (P j s') = fixed_part (P j s);
  cm_free j : tst (flags s j) P_SLOT_FREE = true -> tst (flags s' j) P_SLOT_FREE = true;
  cm_re : k_reenter s' = k_reenter s;
}.
#[export] Instance calm_pre : PreOrder calm.
Proof. split; [by intros s; split|]. intros s1 s2 s3 [A1 A2 A3] [B1 B2 B3]. split; [intros j; by rewrite B1|auto|congruence]. Qed.

Record still (s s' : kst) : Prop := {
  st_calm : calm s s';
  st_held : held_head s' = held_head s /\ held_tail s' = held_tail s;
  st_link j : held_part (P j s') = held_part (P j s);
  st_tasks : TK s -> TK s';
}.
#[export] Instance still_pre : PreOrder still.
Proof.
  split; [by intros s; split|]. intros s1 s2 s3 [A1 [A2 A3] A4 A5] [B1 [B2 B3] B4 B5].
  split; [by transitivity s2|split; congruence|intros j; by rewrite B4|auto].
Qed.

Definition steady (s s' : kst) : Prop := still s s' /\ (RUNNING s -> RUNNING s').
#[export] Instance steady_pre : PreOrder steady.
Proof. split; [by intros s; split|]. intros s1 s2 s3 [A1 A2] [B1 B2]. split; [by transitivity s2|auto]. Qed.

(** A change of one table entry: which flags may it set and clear? *)
Definition flags_kept (i : nat) (f : proc -> proc) : Prop := forall p,
  (tst (p_flags p) P_SLOT_FREE = true -> tst (p_flags (f p)) P_SLOT_FREE = true) /\
  ((i < 9)%nat -> Z.ldiff (p_flags p) (Z.lor RECEIVING SENDING) = 0 ->
     Z.ldiff (p_flags (f p)) (Z.lor RECEIVING SENDING) = 0).

Lemma P_alter_or s i f j : P j (s <| procs ::= alter f i |>) = P j s \/
  i = j /\ P j (s <| procs ::= alter f i |>) = f (P j s).
Proof.
  unfold P. change (procs (set_field _ _ s)) with (alter f i (procs s)).
  destruct (decide (i = j)) as [->|Hne]; [|left; by rewrite tbl_alter_ne].
  destruct (decide (j < length (procs s))%nat) as [Hlt|Hge]; [right; by rewrite tbl_alter_eq|left].
  rewrite !list_lookup_total_alt. by rewrite !lookup_ge_None_2 by (rewrite ?length_alter; lia).
Qed.

Lemma still_upd i f s : (forall p, fixed_part (f p) = fixed_part p) -> (forall p, held_part (f p) = held_part p) ->
  flags_kept i f -> still s (s <| procs ::= alter f i |>).
Proof.
  intros Hu Hh Ht. assert (HP := P_alter_or s i f). split; [split| | |]; try done.
  - intros j. by destruct (HP j) as [->|[_ ->]].
  - intros j. destruct (HP j) as [->|[_ ->]]; [done|]. apply Ht.
  - intros j. by destruct (HP j) as [->|[_ ->]].
  - intros HT j Hj. destruct (HP j) as [->|[-> ->]]; [by apply HT|]. apply Ht; [done|by apply HT].
Qed.

Lemma steady_upd i f : (forall p, fixed_part (f p) = fixed_part p) -> (forall p, held_part (f p) = held_part p) ->
  flags_kept i f -> keeps steady (upd_proc i f).
Proof. intros. apply keeps_modify. intros s. split; [by apply still_upd|done]. Qed.

Lemma ldiff_bclr x b m : Z.ldiff x m = 0 -> Z.ldiff (bclr x b) m = 0.
Proof. intros H. unfold bclr. rewrite !Z.ldiff_land in *. rewrite <- Z.land_assoc, (Z.land_comm (Z.lnot b)), Z.land_assoc, H. done. Qed.

Lemma ldiff_bset x b m : Z.ldiff x m = 0 -> Z.land b m = b -> Z.ldiff (bset x b) m = 0.
Proof.
  intros H1 H2. unfold bset. rewrite Z.ldiff_land, Z.land_lor_distr_l, <- !Z.ldiff_land, H1.
  rewrite <- H2 at 1. rewrite Z.ldiff_land, <- Z.land_assoc, Z.land_lnot_diag, Z.land_0_r. done.
Qed.

Lemma flags_bclr i b : Z.land b P_SLOT_FREE = 0 -> flags_kept i (fun p => p <| p_flags := bclr (p_flags p) b |>).
Proof. intros Hb p. cbn. split; [by rewrite tst_bclr|intros _; apply ldiff_bclr]. Qed.
Lemma flags_bset i b : (9 <= i)%nat \/ Z.land b (Z.lor RECEIVING SENDING) = b ->
  flags_kept i (fun p => p <| p_flags := bset (p_flags p) b |>).
Proof.
  intros Hb p. cbn. split; [rewrite tst_bset; by intros ->|]. intros Hi H. destruct Hb as [?|Hb]; [lia|]. by apply ldiff_bset.
Qed.
Lemma flags_same i f : (forall p, p_flags (f p) = p_flags p) -> flags_kept i f.
Proof. intros H p. by rewrite H. Qed.

Lemma still_globals (f : kst -> kst) : (forall s, procs (f s) = procs s /\ held_head (f s) = held_head s /\
  held_tail (f s) = held_tail s /\ k_reenter (f s) = k_reenter s) -> keeps still (modify f).
Proof.
  intros Hf. apply keeps_modify. intros s. destruct (Hf s) as (E1 & E4 & E5 & E6).
  split; [split| | |]; try done; unfold P, TK; try (intros j; by rewrite ?E1).
  intros H j Hj. unfold P. rewrite E1. by apply H.
Qed.
Lemma steady_globals (f : kst -> kst) : (forall s, (procs (f s) = procs s /\ held_head (f s) = held_head s /\
  held_tail (f s) = held_tail s /\ k_reenter (f s) = k_reenter s) /\ proc_ptr (f s) = proc_ptr s /\
  rdy_head (f s) = rdy_head s) -> keeps steady (modify f).
Proof.
  intros Hf s. split; [apply (still_globals f); intros s'; apply Hf|].
  destruct (Hf s) as (_ & E1 & E2). unfold RUNNING. by rewrite E1, E2.
Qed.

Ltac flags_tac := first
  [ apply flags_bclr; reflexivity
  | apply flags_bset; first [right; reflexivity|left; assumption]
  | apply flags_same; reflexivity ].
#[export] Hint Extern 1 (keeps steady (upd_proc _ _)) => (apply steady_upd; [done|done|flags_tac]) : keeps_db.
#[export] Hint Extern 1 (keeps steady (modify _)) => (apply steady_globals; done) : keeps_db.

(** ** The scheduler *)

Lemma keeps_and {S A} (R1 R2 : S -> S -> Prop) (m : M S A) : keeps R1 m -> keeps R2 m ->
  keeps (fun s s' => R1 s s' /\ R2 s s') m.
Proof. intros H1 H2 s. specialize (H1 s). specialize (H2 s). by destruct (m s). Qed.

Lemma pick_proc_runs s : wp pick_proc (fun _ s' => RUNNING s') s.
Proof.
  unfold pick_proc. wp_steps. destruct (rdy_head s !!! TASK_Q) eqn:E1; wp_steps.
  { right. exists TASK_Q. split; [vm_compute; lia|done]. }
  destruct (rdy_head s !!! SERVER_Q) eqn:E2; wp_steps.
  { right. exists SERVER_Q. split; [vm_compute; lia|done]. }
  destruct (rdy_head s !!! USER_Q) eqn:E3; wp_steps.
  { right. exists USER_Q. split; [vm_compute; lia|done]. }
  by left.
Qed.

Lemma still_link i v : keeps still (upd_proc i (fun p => p <| p_nextready := v |>)).
Proof. apply keeps_modify. intros s. apply still_upd; [done|done|flags_tac]. Qed.
#[local] Hint Extern 1 (keeps still (modify _)) => (apply still_globals; done) : keeps_db.
#[local] Hint Resolve still_link : keeps_db.

Lemma pick_proc_still : keeps still pick_proc.
Proof. unfold pick_proc. keeps_auto. Qed.
Lemma pick_proc_steady : keeps steady pick_proc.
Proof.
  apply keeps_and; [apply pick_proc_still|]. intros s. pose proof (pick_proc_runs s) as H. unfold wp in H.
  by destruct (pick_proc s).
Qed.
#[export] Hint Resolve pick_proc_still pick_proc_steady : keeps_db.

(** A queue other than the running process's may change its head. *)
Lemma running_other s q h : RUNNING s -> rdy_head s !!! q <> Some (proc_ptr s) -> RUNNING (s <| rdy_head ::= <[q := h]> |>).
Proof.
  intros [Hi|(q' & Hq & Hh)] Hne; [by left|]. right. exists q'. split; [done|]. cbn [rdy_head proc_ptr set_field].
  rewrite list_lookup_total_insert_ne; [done|]. intros ->. done.
Qed.

Lemma enqueue_steady q rp : keeps steady (enqueue q rp).
Proof.
  unfold enqueue. apply keeps_and; [keeps_auto|]. intros s. unfold mbind, M_bind, gets, modify, upd_proc.
  destruct (rdy_head s !!! q) as [h|] eqn:Eh.
  - destruct (rdy_tail s !!! q); cbn; [intros H; exact H|done].
  - cbn. intros H. apply (running_other s q (Some rp)) in H; [exact H|by rewrite Eh].
Qed.
#[export] Hint Resolve enqueue_steady : keeps_db.
Lemma ready_steady rp : keeps steady (ready rp).
Proof. unfold ready. keeps_auto. Qed.
Lemma unready_find_steady fuel rp xp : keeps steady (unready_find fuel rp xp).
Proof. revert xp. induction fuel as [|fuel IH]; intros xp; cbn [unready_find]; keeps_auto. Qed.
Lemma last_from_steady fuel xp : keeps steady (last_from fuel xp).
Proof. revert xp. induction fuel as [|fuel IH]; intros xp; cbn [last_from]; keeps_auto. Qed.
#[export] Hint Resolve ready_steady unready_find_steady last_from_steady : keeps_db.

Lemma unready_head_steady q rp : forall s, rdy_head s !!! q = Some rp ->
  match (next ← gets (fun s => p_nextready (P rp s));
         modify (fun s => s <| rdy_head ::= <[q := next]> |>);;
         cur ← gets proc_ptr;
         when (Nat.eqb rp cur) pick_proc) s with
  | Done _ s' => steady s s' | Panicked _ s' => steady s s' | NoFuel => True end.
Proof.
  intros s Hh. assert (Hs : keeps still (next ← gets (fun s => p_nextready (P rp s));
         modify (fun s => s <| rdy_head ::= <[q := next]> |>);;
         cur ← gets proc_ptr;
         when (Nat.eqb rp cur) pick_proc)) by keeps_auto.
  specialize (Hs s). revert Hs. unfold mbind, M_bind, gets, modify. cbn [proc_ptr set_field].
  set (s1 := s <| rdy_head ::= <[q := p_nextready (P rp s)]> |>).
  change (proc_ptr (set_field _ _ s)) with (proc_ptr s). unfold when.
  destruct (Nat.eqb_spec rp (proc_ptr s)) as [E|E].
  - pose proof (pick_proc_runs s1) as H. unfold wp in H. destruct (pick_proc s1); try done.
  - cbn. intros Hs. split; [exact Hs|]. intros HR. apply running_other; [done|]. rewrite Hh. congruence.
Qed.

Lemma unready_steady rp : keeps steady (unready rp).
Proof.
  assert (Hq : forall q, keeps steady (unready_q q rp)).
  { intros q s. unfold unready_q. unfold mbind at 1, M_bind at 1, gets at 1.
    destruct (rdy_head s !!! q) as [xp|] eqn:E; [|cbn; reflexivity].
    destruct (decide (xp = rp)) as [->|Hne]; [by apply unready_head_steady|].
    clear E. revert s. change (keeps steady (f ← unready_find (S NR_SLOTS) rp xp;
        match f with
        | None => mret tt
        | Some xp =>
            next2 ← gets (fun s => p_nextready (P rp s));
            upd_proc xp (fun p => p <| p_nextready := next2 |>);;
            l ← last_from (S NR_SLOTS) xp;
            modify (fun s => s <| rdy_tail ::= <[q := Some l]> |>)
        end)). keeps_auto. }
  unfold unready. keeps_auto.
Qed.
#[export] Hint Resolve unready_steady : keeps_db.

Lemma sched_steady : keeps steady sched.
Proof.
  apply keeps_and; [unfold sched; keeps_auto|]. intros s. unfold sched, mbind, M_bind, gets, modify, upd_proc.
  destruct (rdy_head s !!! USER_Q); cbn; [|done]. destruct (rdy_tail s !!! USER_Q); cbn; [|done].
  match goal with |- match pick_proc ?x with _ => _ end => pose proof (pick_proc_runs x) as H; unfold wp in H; by destruct (pick_proc x) end.
Qed.
#[export] Hint Resolve sched_steady : keeps_db.
Lemma lock_switch_steady {A} (m : M kst A) : keeps steady m -> keeps steady (lock_switch m).
Proof. intros Hm. unfold lock_switch. keeps_auto. Qed.
Lemma lock_pick_proc_steady : keeps steady lock_pick_proc.
Proof. apply lock_switch_steady, pick_proc_steady. Qed.
Lemma lock_ready_steady rp : keeps steady (lock_ready rp).
Proof. apply lock_switch_steady, ready_steady. Qed.
Lemma lock_unready_steady rp : keeps steady (lock_unready rp).
Proof. apply lock_switch_steady, unready_steady. Qed.
Lemma lock_sched_steady : keeps steady lock_sched.
Proof. apply lock_switch_steady, sched_steady. Qed.
#[export] Hint Resolve lock_pick_proc_steady lock_ready_steady lock_unready_steady lock_sched_steady : keeps_db.

(** ** Messages and signals *)

Lemma on_sendlist_steady fuel d p : keeps steady (on_sendlist fuel d p).
Proof. revert p. induction fuel as [|fuel IH]; intros p; cbn [on_sendlist]; keeps_auto. Qed.
Lemma last_sender_steady fuel p : keeps steady (last_sender fuel p).
Proof. revert p. induction fuel as [|fuel IH]; intros p; cbn [last_sender]; keeps_auto. Qed.
Lemma cp_mess_steady src sp sm dp dm : keeps steady (cp_mess src sp sm dp dm).
Proof. unfold cp_mess, put_msg. keeps_auto. Qed.
Lemma find_sender_steady fuel src prev p : keeps steady (find_sender fuel src prev p).
Proof. revert prev p. induction fuel as [|fuel IH]; intros prev p; cbn [find_sender]; keeps_auto. Qed.
#[export] Hint Resolve on_sendlist_steady last_sender_steady cp_mess_steady find_sender_steady : keeps_db.
Lemma mini_send_steady c d m : keeps steady (mini_send c d m).
Proof. unfold mini_send. keeps_auto. Qed.
Lemma lock_mini_send_steady c d m : keeps steady (lock_mini_send c d m).
Proof. apply lock_switch_steady, mini_send_steady. Qed.
Lemma done_one_sig_steady i : keeps steady (done_one_sig i).
Proof. unfold done_one_sig. keeps_auto. Qed.
#[export] Hint Resolve mini_send_steady lock_mini_send_steady done_one_sig_steady : keeps_db.
Lemma inform_steady : keeps steady inform.
Proof. unfold inform, put_msg. keeps_auto. Qed.
#[export] Hint Resolve inform_steady : keeps_db.
Lemma cause_sig_steady n sg : 0 <= n -> keeps steady (cause_sig n sg).
Proof.
  intros Hn. assert (Hi : (9 <= proc_addr n)%nat) by (unfold proc_addr, NR_TASKS; lia).
  unfold cause_sig. keeps_auto.
Qed.
Lemma mini_rec_steady c src m : keeps steady (mini_rec c src m).
Proof. unfold mini_rec, put_msg. keeps_auto. Qed.
#[export] Hint Resolve mini_rec_steady : keeps_db.
Lemma sys_call_steady f d m : keeps steady (sys_call f d m).
Proof. unfold sys_call. keeps_auto. Qed.

(** ** A task that runs goes on running *)

Definition tasking (c : nat) (s s' : kst) : Prop :=
  rdy_head s !!! TASK_Q = Some c -> proc_ptr s = c -> rdy_head s' !!! TASK_Q = Some c /\ proc_ptr s' = c.
#[export] Instance tasking_pre c : PreOrder (tasking c).
Proof. split; [by intros s|]. intros s1 s2 s3 A B H1 H2. destruct (A H1 H2). by apply B. Qed.

Lemma tasking_globals c (f : kst -> kst) : (forall s, proc_ptr (f s) = proc_ptr s /\ rdy_head (f s) = rdy_head s) ->
  keeps (tasking c) (modify f).
Proof. intros Hf. apply keeps_modify. intros s. destruct (Hf s) as [E1 E2]. unfold tasking. by rewrite E1, E2. Qed.
Lemma tasking_upd c i f : keeps (tasking c) (upd_proc i f).
Proof. by apply tasking_globals. Qed.
#[export] Hint Resolve tasking_upd : keeps_db.
#[export] Hint Extern 1 (keeps (tasking _) (modify _)) => (apply tasking_globals; done) : keeps_db.

Lemma pick_proc_tasking c : keeps (tasking c) pick_proc.
Proof.
  intros s. unfold pick_proc, tasking, mbind, M_bind, gets, modify.
  destruct (rdy_head s !!! TASK_Q) as [n|] eqn:E1.
  { intros H1 _. assert (n = c) as -> by congruence. by split. }
  destruct (rdy_head s !!! SERVER_Q); [intros; congruence|]. by destruct (rdy_head s !!! USER_Q); intros; congruence.
Qed.
Lemma head_tasking c q h s : q <> TASK_Q -> tasking c s (s <| rdy_head ::= <[q := h]> |>).
Proof. intros Hq H1 H2. split; [|done]. change (<[q := h]> (rdy_head s) !!! TASK_Q = Some c). by rewrite list_lookup_total_insert_ne. Qed.
Lemma enqueue_tasking c q rp : keeps (tasking c) (enqueue q rp).
Proof.
  unfold enqueue. intros s. unfold mbind, M_bind, gets, modify, upd_proc.
  destruct (rdy_head s !!! q) as [h|] eqn:Eh.
  - destruct (rdy_tail s !!! q); cbn; done.
  - cbn. destruct (decide (q = TASK_Q)) as [->|Hq]; [by intros H; rewrite Eh in H|by apply head_tasking].
Qed.
#[export] Hint Resolve pick_proc_tasking enqueue_tasking : keeps_db.
Lemma ready_tasking c rp : keeps (tasking c) (ready rp).
Proof. unfold ready. keeps_auto. Qed.
Lemma unready_find_tasking c fuel rp xp : keeps (tasking c) (unready_find fuel rp xp).
Proof. revert xp. induction fuel as [|fuel IH]; intros xp; cbn [unready_find]; keeps_auto. Qed.
Lemma last_from_tasking c fuel xp : keeps (tasking c) (last_from fuel xp).
Proof. revert xp. induction fuel as [|fuel IH]; intros xp; cbn [last_from]; keeps_auto. Qed.
#[export] Hint Resolve ready_tasking unready_find_tasking last_from_tasking : keeps_db.

Lemma unready_tasking c rp : rp <> c -> keeps (tasking c) (unready rp).
Proof.
  intros Hc. assert (Hq : forall q, keeps (tasking c) (unready_q q rp)).
  { intros q s. unfold unready_q. unfold mbind at 1, M_bind at 1, gets at 1.
    destruct (rdy_head s !!! q) as [xp|] eqn:E; [|cbn; reflexivity].
    destruct (decide (xp = rp)) as [->|Hne].
    - assert (Hs : tasking c s (s <| rdy_head ::= <[q := p_nextready (P rp s)]> |>)).
      { destruct (decide (q = TASK_Q)) as [->|Hq]; [intros H; congruence|by apply head_tasking]. }
      unfold mbind, M_bind, gets, modify, when. destruct (Nat.eqb _ _); [|exact Hs].
      match goal with |- match pick_proc ?x with _ => _ end => pose proof (pick_proc_tasking c x) as H; destruct (pick_proc x) end;
        try done; etransitivity; [exact Hs|exact H|exact Hs|exact H].
    - clear E. revert s. change (keeps (tasking c) (f ← unready_find (S NR_SLOTS) rp xp;
        match f with
        | None => mret tt
        | Some xp =>
            next2 ← gets (fun s => p_nextready (P rp s));
            upd_proc xp (fun p => p <| p_nextready := next2 |>);;
            l ← last_from (S NR_SLOTS) xp;
            modify (fun s => s <| rdy_tail ::= <[q := Some l]> |>)
        end)). keeps_auto. }
  unfold unready. keeps_auto.
Qed.
#[export] Hint Extern 1 (keeps (tasking _) (unready _)) => (apply unready_tasking; solve [congruence|auto]) : keeps_db.
Lemma sched_tasking c : keeps (tasking c) sched.
Proof.
  unfold sched. intros s. unfold mbind, M_bind, gets, modify, upd_proc.
  destruct (rdy_head s !!! USER_Q) as [hd|]; cbn; [|done]. destruct (rdy_tail s !!! USER_Q); cbn; [|done].
  match goal with |- match pick_proc ?x with _ => _ end => pose proof (pick_proc_tasking c x) as H; set (s1 := x) in *; assert (tasking c s s1) end.
  { intros H1 H2. split; [|done]. unfold s1. cbn. by rewrite list_lookup_total_insert_ne. }
  destruct (pick_proc s1); try done; by transitivity s1.
Qed.
Lemma lock_switch_tasking {A} c (m : M kst A) : keeps (tasking c) m -> keeps (tasking c) (lock_switch m).
Proof. intros Hm. unfold lock_switch. keeps_auto. Qed.
Lemma lock_tasking c rp : keeps (tasking c) lock_pick_proc /\ keeps (tasking c) lock_sched /\
  keeps (tasking c) (lock_ready rp) /\ (rp <> c -> keeps (tasking c) (lock_unready rp)).
Proof. split_and!; [..|intros H]; apply lock_switch_tasking; [apply pick_proc_tasking|apply sched_tasking|apply ready_tasking|by apply unready_tasking]. Qed.
#[export] Hint Extern 1 (keeps (tasking ?c) lock_pick_proc) => (apply (lock_tasking c 0)) : keeps_db.
#[export] Hint Extern 1 (keeps (tasking ?c) (lock_ready ?rp)) => (apply (lock_tasking c rp)) : keeps_db.
#[export] Hint Extern 1 (keeps (tasking ?c) (lock_unready ?rp)) => (apply (lock_tasking c rp); solve [congruence|auto]) : keeps_db.
Lemma on_sendlist_tasking c fuel d p : keeps (tasking c) (on_sendlist fuel d p).
Proof. revert p. induction fuel as [|fuel IH]; intros p; cbn [on_sendlist]; keeps_auto. Qed.
Lemma last_sender_tasking c fuel p : keeps (tasking c) (last_sender fuel p).
Proof. revert p. induction fuel as [|fuel IH]; intros p; cbn [last_sender]; keeps_auto. Qed.
Lemma cp_mess_tasking c src sp sm dp dm : keeps (tasking c) (cp_mess src sp sm dp dm).
Proof. unfold cp_mess, put_msg. keeps_auto. Qed.
#[export] Hint Resolve on_sendlist_tasking last_sender_tasking cp_mess_tasking : keeps_db.
Lemma mini_send_tasking c i d m : i <> c -> keeps (tasking c) (mini_send i d m).
Proof. intros Hi. unfold mini_send. keeps_auto. Qed.
Lemma done_one_sig_tasking c i : keeps (tasking c) (done_one_sig i).
Proof. unfold done_one_sig. keeps_auto. Qed.
#[export] Hint Resolve done_one_sig_tasking : keeps_db.
Lemma inform_tasking c : HW <> c -> keeps (tasking c) inform.
Proof.
  intros Hc. assert (Hs : forall d m, keeps (tasking c) (lock_mini_send (proc_addr HARDWARE) d m))
    by (intros; by apply lock_switch_tasking, mini_send_tasking).
  unfold inform, put_msg. keeps_auto.
Qed.
#[export] Hint Resolve inform_tasking : keeps_db.
Lemma cause_sig_tasking c n sg : (c < 9)%nat -> HW <> c -> 0 <= n -> keeps (tasking c) (cause_sig n sg).
Proof.
  intros Hc Hh Hn. assert (Hi : proc_addr n <> c) by (unfold proc_addr, NR_TASKS; lia).
  unfold cause_sig. keeps_auto.
Qed.

(** ** When a routine is done, no switch is under way *)

(** Like [keeps], for runs that end without a panic. *)
Definition ends {A} (m : M kst A) : Prop := forall s, switching s = false -> wlp m (fun _ s' => switching s' = false) s.

Lemma ends_bind {A B} (m : M kst A) (k : A -> M kst B) : ends m -> (forall a, ends (k a)) -> ends (m ≫= k).
Proof. intros Hm Hk s Hs. apply wlp_bind. eapply wlp_mono; [by apply Hm|]. intros a s'. apply Hk. Qed.
Lemma ends_when b (m : M kst unit) : ends m -> ends (when b m).
Proof. destruct b; [done|]. intros _ s Hs. exact Hs. Qed.
Lemma ends_modify f : (forall s, switching (f s) = switching s) -> ends (modify f).
Proof. intros Hf s Hs. cbn. by rewrite Hf. Qed.
Lemma ends_upd i f : ends (upd_proc i f).
Proof. by apply ends_modify. Qed.
Lemma ends_lock {A} (m : M kst A) : ends (lock_switch m).
Proof. intros s _. unfold lock_switch, wlp, mbind, M_bind, modify. cbn. by destruct (m _). Qed.
Create HintDb ends_db.
#[export] Hint Resolve ends_upd : ends_db.
#[export] Hint Extern 1 (ends (modify _)) => (apply ends_modify; done) : ends_db.
Ltac ends_auto :=
  repeat (intros; cbv beta zeta iota;
    lazymatch goal with
    | |- ends (mbind _ _) => apply ends_bind
    | |- ends (mret _) => by intros ? ?
    | |- ends (gets _) => by intros ? ?
    | |- ends (panic _) => by intros ? ?
    | |- ends nofuel => by intros ? ?
    | |- ends (when _ _) => apply ends_when
    | |- ends (lock_switch _) => apply ends_lock
    | |- ends (match ?x with _ => _ end) => destruct x
    | |- ends _ => solve [eauto with ends_db]
    end).

Lemma pick_proc_ends : ends pick_proc.
Proof. unfold pick_proc. ends_auto. Qed.
Lemma enqueue_ends q rp : ends (enqueue q rp).
Proof. unfold enqueue. ends_auto. Qed.
#[export] Hint Resolve pick_proc_ends enqueue_ends : ends_db.
Lemma ready_ends rp : ends (ready rp).
Proof. unfold ready. ends_auto. Qed.
Lemma unready_find_ends fuel rp xp : ends (unready_find fuel rp xp).
Proof. revert xp. induction fuel as [|fuel IH]; intros xp; cbn [unready_find]; ends_auto. Qed.
Lemma last_from_ends fuel xp : ends (last_from fuel xp).
Proof. revert xp. induction fuel as [|fuel IH]; intros xp; cbn [last_from]; ends_auto. Qed.
#[export] Hint Resolve ready_ends unready_find_ends last_from_ends : ends_db.
Lemma unready_ends rp : ends (unready rp).
Proof. unfold unready, unready_q. ends_auto. Qed.
Lemma on_sendlist_ends fuel d p : ends (on_sendlist fuel d p).
Proof. revert p. induction fuel as [|fuel IH]; intros p; cbn [on_sendlist]; ends_auto. Qed.
Lemma last_sender_ends fuel p : ends (last_sender fuel p).
Proof. revert p. induction fuel as [|fuel IH]; intros p; cbn [last_sender]; ends_auto. Qed.
Lemma find_sender_ends fuel src prev p : ends (find_sender fuel src prev p).
Proof. revert prev p. induction fuel as [|fuel IH]; intros prev p; cbn [find_sender]; ends_auto. Qed.
#[export] Hint Resolve unready_ends on_sendlist_ends last_sender_ends find_sender_ends : ends_db.
Lemma mini_send_ends c d m : ends (mini_send c d m).
Proof. unfold mini_send, cp_mess, put_msg. ends_auto. Qed.
Lemma done_one_sig_ends i : ends (done_one_sig i).
Proof. unfold done_one_sig, lock_ready. ends_auto. Qed.
#[export] Hint Resolve mini_send_ends done_one_sig_ends : ends_db.
Lemma inform_ends : ends inform.
Proof. unfold inform, put_msg, lock_mini_send, lock_pick_proc. ends_auto. Qed.
#[export] Hint Resolve inform_ends : ends_db.
Lemma cause_sig_ends n sg : ends (cause_sig n sg).
Proof. unfold cause_sig, lock_unready. ends_auto. Qed.
Lemma mini_rec_ends c src m : ends (mini_rec c src m).
Proof. unfold mini_rec, cp_mess, put_msg. ends_auto. Qed.
#[export] Hint Resolve mini_rec_ends : ends_db.
Lemma sys_call_ends f d m : ends (sys_call f d m).
Proof. unfold sys_call. ends_auto. Qed.
Lemma interrupt_ends t : ends (interrupt t).
Proof. unfold interrupt, put_msg. ends_auto. Qed.
#[export] Hint Resolve interrupt_ends : ends_db.
Lemma unhold_ends : ends unhold.
Proof.
  assert (Hl : forall fuel rp, ends (unhold_loop fuel rp)).
  { intros fuel. induction fuel as [|fuel IH]; intros rp; cbn [unhold_loop]; ends_auto. }
  unfold unhold. ends_auto.
Qed.

Lemma wp_wlp_and {S A} (m : M S A) (Q R : A -> S -> Prop) s : wp m Q s -> wlp m R s -> wp m (fun a s' => Q a s' /\ R a s') s.
Proof. unfold wp, wlp. by destruct (m s). Qed.

(** ** Interrupts *)

(** What delivering and holding interrupts keeps. *)
Definition lively (s s' : kst) : Prop :=
  calm s s' /\ proc_ptr s' = proc_ptr s /\ (RUNNING s -> RUNNING s') /\
  (forall c, tasking c s s').
#[export] Instance lively_pre : PreOrder lively.
Proof.
  split; [by intros s; split_and!|]. intros s1 s2 s3 (A1 & A2 & A3 & A4) (B1 & B2 & B3 & B4).
  split_and!; [by transitivity s2|congruence|auto|intros c; by transitivity s2].
Qed.

Lemma calm_upd i f s : (forall p, fixed_part (f p) = fixed_part p) ->
  (forall p, tst (p_flags p) P_SLOT_FREE = true -> tst (p_flags (f p)) P_SLOT_FREE = true) ->
  calm s (s <| procs ::= alter f i |>).
Proof.
  intros Hu Ht. assert (HP := P_alter_or s i f). split; try done.
  - intros j. by destruct (HP j) as [->|[_ ->]].
  - intros j. destruct (HP j) as [->|[_ ->]]; [done|]. apply Ht.
Qed.
Lemma lively_upd i f : (forall p, fixed_part (f p) = fixed_part p) ->
  (forall p, tst (p_flags p) P_SLOT_FREE = true -> tst (p_flags (f p)) P_SLOT_FREE = true) -> keeps lively (upd_proc i f).
Proof. intros H1 H2. apply keeps_modify. intros s. split_and!; [by apply calm_upd|done|done|done]. Qed.
Lemma lively_globals (f : kst -> kst) : (forall s, procs (f s) = procs s /\ k_reenter (f s) = k_reenter s /\
  proc_ptr (f s) = proc_ptr s /\ rdy_head (f s) = rdy_head s) -> keeps lively (modify f).
Proof.
  intros Hf. apply keeps_modify. intros s. destruct (Hf s) as (E1 & E2 & E3 & E4).
  split_and!; [|done|unfold RUNNING; by rewrite E3, E4|intros c; unfold tasking; by rewrite E3, E4].
  split; try done; unfold P; intros j; by rewrite E1.
Qed.
Lemma lively_enqueue q rp : keeps lively (enqueue q rp).
Proof.
  intros s. pose proof (enqueue_steady q rp s) as H1. pose proof (fun c => enqueue_tasking c q rp s) as H2.
  assert (H3 : keeps (fun s s' => proc_ptr s' = proc_ptr s) (enqueue q rp)).
  { unfold enqueue. assert (PreOrder (fun s s' : kst => proc_ptr s' = proc_ptr s)).
    { split; [by intros ?|]. intros a b c E1 E2. congruence. }
    keeps_auto; by intros ?. }
  specialize (H3 s). destruct (enqueue q rp s); try done; destruct H1 as [[? ? ? ?] ?]; split_and!; done.
Qed.
#[export] Hint Resolve lively_enqueue : keeps_db.
#[export] Hint Extern 1 (keeps lively (modify _)) => (apply lively_globals; done) : keeps_db.
#[export] Hint Extern 1 (keeps lively (upd_proc _ (fun p => set_field p_flags _ p))) =>
  (apply lively_upd; [done|intros p; cbn; by rewrite tst_bclr]) : keeps_db.
#[export] Hint Extern 2 (keeps lively (upd_proc _ _)) => (apply lively_upd; done) : keeps_db.
Lemma interrupt_lively t : keeps lively (interrupt t).
Proof. unfold interrupt, put_msg. keeps_auto. Qed.
#[export] Hint Resolve interrupt_lively : keeps_db.
Lemma unhold_lively : keeps lively unhold.
Proof.
  assert (Hl : forall fuel rp, keeps lively (unhold_loop fuel rp)).
  { intros fuel. induction fuel as [|fuel IH]; intros rp; cbn [unhold_loop]; keeps_auto. }
  unfold unhold. keeps_auto.
Qed.
