(* ===== verification/KSafe.v ===== *)
(** * The kernel at rest: what the system task's requests keep

    The invariant of the kernel while a process runs (record [KRUN]), and the
    proof that every request of the system task keeps it, with the task that
    asks still running: fork, maps, exec, exit, signals, tracing and the rest,
    on the conditions under which MM and FS make them. *)

From S2P Require Import Prelude KProc KQueues KIpc KIntr KSys KSystem KTask KRun SysTask Mmu.

(** The S bit of a status register. *)
Definition kernel_mode (psw : Z) : bool := tst psw 8192.

(** ** The invariant *)

Record KRUN (k : kst) : Prop := {
  kr_ki : KI k;
  kr_hq : exists L, HQ k L;
  kr_tk : TK k;
  kr_run : RUNNING k;
  kr_mode i : slot_ok i -> i <> HW -> kernel_mode (p_psw (P i k)) = istaskp i;
  kr_stack i : (i < 9)%nat -> mem_len (seg_S (p_map (P i k))) = 0;
  kr_map i : slot_ok i -> istaskp i = false -> i <> HW -> tst (flags k i) P_SLOT_FREE = false -> map_ok (p_map (P i k));
}.

(** ** Kernel parts *)

Lemma KRUN_calm k k' : KRUN k -> calm k k' -> KI k' -> (exists L, HQ k' L) -> TK k' -> RUNNING k' -> KRUN k'.
Proof.
  intros [_ _ _ _ H5 H6 H7] [C1 C2 _] HK HH HT HR. unfold fixed_part in C1.
  assert (Hm : forall i, p_map (P i k') = p_map (P i k)) by (intros i; specialize (C1 i); congruence).
  assert (Hp : forall i, p_psw (P i k') = p_psw (P i k)) by (intros i; specialize (C1 i); congruence).
  split; try done.
  - intros i Hi Hh. rewrite Hp. by apply H5.
  - intros i Hi. rewrite Hm. by apply H6.
  - intros i Hi H1 H2 H3. rewrite Hm. apply H7; try done.
    specialize (C2 i). destruct (tst (flags k i) P_SLOT_FREE); [rewrite C2 in H3|]; done.
Qed.

Lemma KRUN_steady k k' : KRUN k -> steady k k' -> KI k' -> KRUN k'.
Proof.
  intros HK [[S1 S2 S3 S4] S5] HK'. pose proof HK as [_ [L HH] HT HR _ _ _].
  apply (KRUN_calm k); auto. exists L. apply (HQ_ext k); try apply S2; [|done].
  intros i. specialize (S3 i). unfold held_part in S3. split; congruence.
Qed.

(** Registers of the processes and counters of the kernel. *)
Lemma KRUN_upd k i g : KRUN k ->
  (forall p, p_nr (g p) = p_nr p /\ p_flags (g p) = p_flags p /\ p_map (g p) = p_map p /\
     p_nextready (g p) = p_nextready p /\ p_shadow (g p) = p_shadow p /\
     p_callerq (g p) = p_callerq p /\ p_sendlink (g p) = p_sendlink p) ->
  (forall p, p_getfrom (g p) = p_getfrom p) -> (forall p, held_part (g p) = held_part p) ->
  (kernel_mode (p_psw (P i k)) = istaskp i -> kernel_mode (p_psw (g (P i k))) = istaskp i) ->
  KRUN (k <| procs ::= alter g i |>).
Proof.
  intros [H1 [L H2] H3 H4 H5 H6 H7] Hg1 Hg2 Hg3 Hm. set (k' := k <| procs ::= _ |>).
  assert (HP := P_alter_or k i g : forall j, P j k' = P j k \/ i = j /\ P j k' = g (P j k)).
  split.
  - by apply KI_quiet.
  - exists L. apply (HQ_ext k); try done. intros j. destruct (HP j) as [->|[_ ->]]; [done|].
    specialize (Hg3 (P j k)). unfold held_part in Hg3. split; congruence.
  - intros j Hj. destruct (HP j) as [->|[_ ->]]; [by apply H3|]. rewrite (proj1 (proj2 (Hg1 _))). by apply H3.
  - exact H4.
  - intros j Hj Hh. destruct (HP j) as [->|[-> ->]]; [by apply H5|]. apply Hm. by apply H5.
  - intros j Hj. destruct (HP j) as [->|[_ ->]]; [by apply H6|]. destruct (Hg1 (P j k)) as (_ & _ & -> & _). by apply H6.
  - intros j Hj. destruct (HP j) as [->|[_ ->]]; [by apply H7|]. destruct (Hg1 (P j k)) as (_ & -> & -> & _). by apply H7.
Qed.

Lemma KI_globals s s' : procs s' = procs s -> rdy_head s' = rdy_head s -> rdy_tail s' = rdy_tail s ->
  sig_procs s' = sig_procs s -> m_addr s' = m_addr s -> KI s -> KI s'.
Proof.
  intros E1 E2 E3 E4 E5 ([Q HS] & [C HC] & HA & HG).
  assert (HP : forall j, P j s' = P j s) by (intros j; unfold P; by rewrite E1).
  split_and!.
  - exists Q. apply (SI_ext s); try done; [by rewrite E1|]. intros i. by rewrite HP.
  - exists C. apply (CQ_ext s); [|done]. intros j. unfold sendlink. by rewrite HP.
  - apply (AUX_ext s); try done; [by rewrite E1|]. intros j. by rewrite HP.
  - unfold SG. rewrite E4, HG. f_equal. symmetry. apply pendings_ext. intros j. by rewrite HP.
Qed.

Lemma KRUN_globals s s' : procs s' = procs s -> rdy_head s' = rdy_head s -> rdy_tail s' = rdy_tail s ->
  sig_procs s' = sig_procs s -> m_addr s' = m_addr s -> held_head s' = held_head s -> held_tail s' = held_tail s ->
  proc_ptr s' = proc_ptr s -> KRUN s -> KRUN s'.
Proof.
  intros E1 E2 E3 E4 E5 E6 E7 E8 [H1 [L H2] H3 H4 H5 H6 H7].
  assert (HP : forall j, P j s' = P j s) by (intros j; unfold P; by rewrite E1).
  split; try (intros i; rewrite HP; by auto).
  - by apply (KI_globals s).
  - exists L. apply (HQ_ext s); try done. intros j. by rewrite HP.
  - unfold RUNNING. by rewrite E2, E8.
Qed.

Lemma KRUN_reenter k d : KRUN k -> KRUN (k <| k_reenter ::= fun v => u8 (v + d) |>).
Proof. by apply KRUN_globals. Qed.

Lemma running_slot k : KI k -> RUNNING k -> slot_ok (proc_ptr k) /\ flags k (proc_ptr k) = 0 /\ proc_ptr k <> HW.
Proof.
  intros ([Q HS] & _ & HA & _) [->|(q & Hq & Hh)].
  - split_and!; [vm_compute; lia|apply HA|done].
  - destruct HS as [HQ Hr]. rewrite (rq_head _ _ _ HQ Hq) in Hh.
    assert (Hin : proc_ptr k ∈ Q q) by (destruct (Q q); [done|]; cbn in Hh; set_solver).
    pose proof HQ as (_ & _ & _ & Hall). destruct (Hall q Hq) as (_ & _ & _ & Hs).
    destruct (Hs _ Hin) as [Hso Hqq]. rewrite <- Hqq in Hin. apply (Hr _ Hso) in Hin. naive_solver.
Qed.

Lemma task_small i : istaskp i = true -> (i < 9)%nat /\ i <> IDLEP.
Proof.
  unfold istaskp. intros [H1%Z.ltb_lt H2]%andb_true_iff. unfold NR_TASKS in H1. split; [lia|].
  intros ->. by rewrite Nat.eqb_refl in H2.
Qed.
Lemma not_task i : istaskp i = false -> i = IDLEP \/ (9 <= i)%nat.
Proof.
  unfold istaskp. intros [H1%Z.ltb_ge|H2]%andb_false_iff; [right; unfold NR_TASKS in H1; lia|left].
  apply negb_false_iff, Nat.eqb_eq in H2. done.
Qed.

(** A task that runs heads the queue of the tasks. *)
Lemma running_task k : KI k -> RUNNING k -> istaskp (proc_ptr k) = true ->
  rdy_head k !!! TASK_Q = Some (proc_ptr k) /\ (proc_ptr k < 9)%nat /\ HW <> proc_ptr k.
Proof.
  intros HK HR Ht. destruct (task_small _ Ht) as [Hlt Hid].
  destruct (running_slot k HK HR) as (Hso & _ & Hhw). split_and!; [|done|congruence].
  destruct HR as [?|(q & Hq & Hh)]; [done|]. destruct HK as ([Q [HQ Hr]] & _).
  pose proof Hh as Hin. rewrite (rq_head _ _ _ HQ Hq) in Hin.
  assert (Hin' : proc_ptr k ∈ Q q) by (destruct (Q q); [done|]; cbn in Hin; set_solver).
  pose proof HQ as (_ & _ & _ & Hall). destruct (Hall q Hq) as (_ & _ & _ & Hs).
  destruct (Hs _ Hin') as [_ <-]. by rewrite (tasks_queue k) in Hh.
Qed.

(** ** Signals *)

Lemma cause_sig_run k n sg : KRUN k -> 0 <= n < NR_PROCS ->
  wp (cause_sig n sg) (fun _ k' => KRUN k' /\ steady k k' /\ (switching k = false -> switching k' = false)) k.
Proof.
  intros HK Hn. pose proof (cause_sig_ok k n sg (kr_ki _ HK) Hn) as H.
  apply (wp_keeps steady) in H; [|apply cause_sig_steady; lia].
  destruct (switching k) eqn:Hs.
  { eapply wp_mono; [exact H|]. intros _ k' [H1 H2]. split_and!; [by apply (KRUN_steady k)|done|done]. }
  eapply wp_mono; [apply (wp_wlp_and _ _ _ _ H (cause_sig_ends n sg k Hs))|].
  intros _ k' [[H1 H2] H3]. split_and!; [by apply (KRUN_steady k)|done|done].
Qed.

(** ** What handlers leave alone *)

Lemma keeps_bind_gets {S A B} (R : S -> S -> Prop) (f : S -> A) (k : A -> M S B) :
  (forall s, keeps R (k (f s))) -> keeps R (gets f ≫= k).
Proof. intros Hk s. unfold mbind, M_bind, gets. apply Hk. Qed.

Lemma shadow_of_ge i k q : shadow_of i k = Some q -> (11 <= q)%nat.
Proof.
  unfold shadow_of. destruct (list_find _ _) as [[n x]|] eqn:E; [|done]. intros [= <-].
  apply list_find_Some in E as (H & _). apply lookup_seq in H. lia.
Qed.

(** A relation between kernel states, of the states of the system task. *)
Definition lifted (R : kst -> kst -> Prop) (s s' : sst) : Prop := R (ker s) (ker s').
#[export] Instance lifted_pre R `{!PreOrder R} : PreOrder (lifted R).
Proof. split; [by intros s; unfold lifted|]. intros s1 s2 s3 A B. unfold lifted in *. by transitivity (ker s2). Qed.
Lemma keeps_in_ker {A} R (m : M kst A) : keeps R m -> keeps (lifted R) (in_ker m).
Proof. intros H s. specialize (H (ker s)). unfold in_ker, zoom. by destruct (m (ker s)). Qed.
Lemma keeps_pmem R `{!PreOrder R} (f : sst -> sst) : (forall s, ker (f s) = ker s) -> keeps (lifted R) (modify f).
Proof. intros Hf. apply keeps_modify. intros s. unfold lifted. by rewrite Hf. Qed.

(** What exit does to the kernel state, whichever relation is asked for. *)
Section exits.
Context (R : kst -> kst -> Prop) `{!PreOrder R} (rc rp : nat).
Context (R_upd : forall i f, (forall p, fixed_part (f p) = fixed_part p) -> (forall p, held_part (f p) = held_part p) ->
  flags_kept i f -> keeps R (upd_proc i f)).
Context (R_count : keeps R (modify (fun s => s <| sig_procs ::= fun n => n - 1 |>))).
Context (R_lock : forall q, (9 <= q)%nat -> keeps R (lock_unready q) /\ keeps R (lock_ready q)).
Context (Hrc : (9 <= rc)%nat).

Lemma rmshadow_lifted i : (9 <= i)%nat -> keeps (lifted R) (rmshadow i).
Proof.
  intros Hi. assert (Hupd : forall j, keeps (lifted R) (updP j (fun p => p <| p_shadow := 0 |>))).
  { intros j. apply keeps_in_ker, R_upd; [done|done|flags_tac]. }
  unfold rmshadow, getP, copyclicks. apply keeps_bind; [apply _|keeps_auto|]. intros p.
  destruct (nz (p_shadow p)); [keeps_auto|]. apply keeps_bind_gets. intros s.
  destruct (shadow_of i (ker s)) as [q|] eqn:E; [|keeps_auto]. apply shadow_of_ge in E.
  destruct (R_lock q) as [H1 H2]; [lia|]. pose proof (keeps_in_ker R _ H1). pose proof (keeps_in_ker R _ H2).
  assert (Hm : forall f : sst -> sst, (forall s, ker (f s) = ker s) -> keeps (lifted R) (modify f)) by (intros; by apply keeps_pmem).
  apply keeps_bind; [apply _|keeps_auto|]. intros pq. destruct (p_shadow pq =? 0); [keeps_auto|].
  destruct (p_physio pq); [keeps_auto|]. apply keeps_bind; [apply _|by apply Hm|]. intros _. keeps_auto.
Qed.

Lemma xit_slots_R slots : keeps R (xit_slots rc slots).
Proof.
  assert (Hu : forall fuel np, keeps R (xit_unlink fuel rc np)).
  { intros fuel. induction fuel as [|fuel IH]; intros np; cbn [xit_unlink]; keeps_auto.
    intros. apply R_upd; [done|done|flags_tac]. }
  induction slots as [|x slots IH]; cbn [xit_slots]; keeps_auto. intros. apply R_upd; [done|done|flags_tac].
Qed.

Lemma do_xit_lifted PROC1 PROC2 : proc_addr PROC2 = rc -> keeps (lifted R) (do_xit PROC1 PROC2).
Proof.
  intros E. unfold do_xit. rewrite E.
  assert (Hupd : forall j f, (forall p, fixed_part (f p) = fixed_part p) -> (forall p, held_part (f p) = held_part p) ->
    flags_kept j f -> keeps (lifted R) (updP j f)) by (intros; by apply keeps_in_ker, R_upd).
  assert (Hfree : keeps (lifted R) (updP rc (fun p => p <| p_flags := P_SLOT_FREE |>))).
  { apply Hupd; [done|done|]. intros p. split; [done|]. lia. }
  pose proof (keeps_in_ker R _ (proj1 (R_lock rc Hrc))). pose proof (keeps_in_ker R _ (xit_slots_R (seq 0 NR_SLOTS))).
  pose proof (keeps_in_ker R _ R_count). pose proof (rmshadow_lifted rc Hrc). unfold getP.
  repeat (first [apply keeps_bind; [apply _| |intros ?]|progress keeps_auto|intros; apply Hupd; [done|done|flags_tac]]).
Qed.
End exits.

Lemma do_xit_steady p n : (9 <= proc_addr n)%nat -> keeps (lifted steady) (do_xit p n).
Proof.
  intros Hn. apply (do_xit_lifted steady (proc_addr n)); try done.
  - intros. by apply steady_upd.
  - intros q _. split; auto with keeps_db.
Qed.
Lemma do_xit_tasking c p n : (c < 9)%nat -> (9 <= proc_addr n)%nat -> keeps (lifted (tasking c)) (do_xit p n).
Proof.
  intros Hc Hn. apply (do_xit_lifted (tasking c) (proc_addr n)); try done.
  - intros q Hq. destruct (lock_tasking c q) as (_ & _ & H1 & H2). split; [apply H2; lia|done].
Qed.

(** When exit is done, no switch is under way. *)
Definition endsS {A} (m : M sst A) : Prop :=
  forall s, switching (ker s) = false -> wlp m (fun _ s' => switching (ker s') = false) s.
Lemma endsS_bind {A B} (m : M sst A) (k : A -> M sst B) : endsS m -> (forall a, endsS (k a)) -> endsS (m ≫= k).
Proof. intros Hm Hk s Hs. apply wlp_bind. eapply wlp_mono; [by apply Hm|]. intros a s'. apply Hk. Qed.
Lemma endsS_when b (m : M sst unit) : endsS m -> endsS (when b m).
Proof. destruct b; [done|]. intros _ s Hs. exact Hs. Qed.
Lemma endsS_ker {A} (m : M kst A) : ends m -> endsS (in_ker m).
Proof. intros Hm s Hs. apply wlp_zoom. eapply wlp_mono; [by apply Hm|]. done. Qed.
Lemma endsS_modify f : (forall s, ker (f s) = ker s) -> endsS (modify f).
Proof. intros Hf s Hs. cbn. by rewrite Hf. Qed.
Ltac endsS_auto :=
  repeat (intros; cbv beta zeta iota;
    lazymatch goal with
    | |- endsS (mbind _ _) => apply endsS_bind
    | |- endsS (mret _) => by intros ? ?
    | |- endsS (gets _) => by intros ? ?
    | |- endsS (panic _) => by intros ? ?
    | |- endsS (when _ _) => apply endsS_when
    | |- endsS (in_ker _) => apply endsS_ker
    | |- endsS (updP _ _) => apply endsS_ker, ends_upd
    | |- endsS (modify _) => by apply endsS_modify
    | |- ends (lock_switch _) => apply ends_lock
    | |- ends (modify _) => by apply ends_modify
    | |- endsS (match ?x with _ => _ end) => destruct x
    end).

Lemma do_xit_ends p n : endsS (do_xit p n).
Proof.
  assert (Hu : forall fuel rc np, ends (xit_unlink fuel rc np)).
  { intros fuel rc. induction fuel as [|fuel IH]; intros np; cbn [xit_unlink]; ends_auto. }
  assert (Hx : forall rc slots, ends (xit_slots rc slots)).
  { intros rc. induction slots as [|x slots IH]; cbn [xit_slots]; ends_auto. }
  unfold do_xit, rmshadow, getP, copyclicks, lock_unready, lock_ready. endsS_auto. apply Hx.
Qed.

(** ** Fork: the child's map is as good as the parent's *)

Definition moved (t base : Z) (m : mem_map) : mem_map := m <| mem_phys := u16 (base + (mem_phys m - t)) |>.
Definition moved_segs (base : Z) (mp : segs) : segs :=
  let t := mem_phys (seg_T mp) in mk_segs (moved t base (seg_T mp)) (moved t base (seg_D mp)) (moved t base (seg_S mp)).

Lemma nonempty_moved base mp : nonempty (moved_segs base mp) = moved (mem_phys (seg_T mp)) base <$> nonempty mp.
Proof.
  unfold nonempty, moved_segs. cbn [seg_T seg_D seg_S]. rewrite !filter_cons, !filter_nil.
  cbn [mem_len moved set_field]. by repeat case_decide.
Qed.

Lemma map_ok_moved base mp : map_ok mp -> image_wf mp -> 0 <= base ->
  base + (mem_phys (seg_S mp) - mem_phys (seg_T mp) + mem_len (seg_S mp)) < 65536 ->
  (base - mem_phys (seg_T mp)) mod 2 = 0 -> map_ok (moved_segs base mp).
Proof.
  intros [M1 M2 M3 M4] [Hpos Hord Hend] Hb Hbe Heven. set (t := mem_phys (seg_T mp)) in *.
  assert (Hid : forall x, x ∈ [seg_T mp; seg_D mp; seg_S mp] -> mem_phys (moved t base x) = base + (mem_phys x - t) /\
     0 <= base + (mem_phys x - t) < 65536).
  { intros x Hx. cbn [mem_phys moved set_field]. rewrite !elem_of_cons, elem_of_nil in Hx.
    destruct Hx as [->|[->|[->|[]]]]; rewrite u16_id; unfold t in *; lia. }
  assert (Hd : forall x, x ∈ nonempty mp -> seg_delta (moved t base x) = img_delta mp + (base - t) * 256).
  { intros x Hx. rewrite <- (M2 x Hx). apply nonempty_in in Hx as [Hx _]. unfold seg_delta. rewrite (proj1 (Hid x Hx)).
    cbn [mem_vir moved set_field]. lia. }
  assert (Hdel : nonempty mp <> [] -> img_delta (moved_segs base mp) = img_delta mp + (base - t) * 256).
  { intros Hne. unfold img_delta at 1. rewrite nonempty_moved. fold t.
    destruct (exists_last Hne) as (l & x & E). rewrite E, !fmap_app, last_app. cbn. apply Hd. rewrite E. set_solver. }
  split.
  - intros x Hx. unfold moved_segs in Hx. cbn [seg_T seg_D seg_S] in Hx. fold t in Hx.
    assert (exists y, y ∈ [seg_T mp; seg_D mp; seg_S mp] /\ x = moved t base y) as (y & Hy & ->) by set_solver.
    destruct (M1 y Hy) as (V & _ & L). rewrite (proj1 (Hid y Hy)). exact (conj V (conj (proj2 (Hid y Hy)) L)).
  - intros x Hx. rewrite nonempty_moved in Hx. fold t in Hx. apply list_elem_of_fmap in Hx as (y & -> & Hy).
    rewrite Hd by done. symmetry. apply Hdel. intros E. rewrite E in Hy. set_solver.
  - destruct (decide (nonempty mp = [])) as [E|E].
    + unfold img_delta. rewrite nonempty_moved, E. done.
    + rewrite Hdel by done. zlia.
  - unfold img_hi in *. rewrite nonempty_moved, <- list_fmap_compose. exact M4.
Qed.

Lemma KRUN_fork k i c : KRUN k -> (9 < i < 41)%nat -> KI (kupd i (fun _ => c) k) ->
  held_part c = (p_nextheld c, false) -> kernel_mode (p_psw c) = false -> map_ok (p_map c) ->
  KRUN (kupd i (fun _ => c) k).
Proof.
  intros [H1 [L H2] H3 H4 H5 H6 H7] Hi HK Hh Hm Hmap. unfold kupd in *. set (k' := k <| procs ::= _ |>) in *.
  assert (HP := P_alter_or k i (fun _ => c) : forall j, P j k' = P j k \/ i = j /\ P j k' = c).
  assert (HPo : forall j, j <> i -> P j k' = P j k) by (intros j Hj; by destruct (HP j) as [->|[-> ->]]).
  split; try done.
  - exists L. destruct H2 as [A1 A2 A3 A4 A5]. assert (HL : forall j, j ∈ L -> j <> i) by (intros j Hj; specialize (A5 j Hj); lia).
    split; try done.
    + eapply lseg_frame; [|exact A1]. intros j Hj. unfold nextheld. rewrite HPo; [done|]. apply HL. exact Hj.
    + intros j Hj. destruct (HP j) as [->|[-> ->]]; [by apply A4|]. unfold held_part in Hh.
      replace (p_int_held c) with false by congruence. split; [done|]. intros Hin. by destruct (HL j Hin).
  - intros j Hj. rewrite HPo by lia. by apply H3.
  - intros j Hj Hh'. destruct (HP j) as [->|[-> ->]]; [by apply H5|]. rewrite Hm. unfold istaskp. symmetry. apply andb_false_iff. left.
    apply Z.ltb_ge. unfold NR_TASKS. lia.
  - intros j Hj. rewrite HPo by lia. by apply H6.
  - intros j Hj. destruct (HP j) as [->|[-> ->]]; [by apply H7|done].
Qed.


(** MM forks a process that waits for it into a free slot and gives it memory,
    an even number of clicks from the parent's. *)
Record fork_asked (k : kst) (parent child base : Z) : Prop := {
  fa_nr : 0 <= parent < NR_PROCS /\ 0 < child < NR_PROCS /\ parent <> child;
  fa_child : let pc := P (proc_addr child) k in p_flags pc = P_SLOT_FREE /\ p_callerq pc = None;
  fa_parent : let pp := P (proc_addr parent) k in tst (p_flags pp) RECEIVING = true /\ tst (p_flags pp) SENDING = false /\
    tst (p_flags pp) P_SLOT_FREE = false /\ p_callerq pp = None /\ image_wf (p_map pp);
  fa_base : let pp := P (proc_addr parent) k in 0 <= base /\ base + fork_clicks pp < 65536 /\
    (base - mem_phys (seg_T (p_map pp))) mod 2 = 0;
}.


(** ** Who waits for a message, other than MM, still does after a signal *)

Definition waits (i : nat) (k k' : kst) : Prop := tst (flags k i) RECEIVING = true -> tst (flags k' i) RECEIVING = true.
#[export] Instance waits_pre i : PreOrder (waits i).
Proof. split; [intros k H; exact H|]. unfold waits. intros a b c. auto. Qed.

Section waiting.
Context (i : nat) (Hi : i <> MMP).
Lemma waits_upd j f : j <> i \/ (forall p, tst (p_flags p) RECEIVING = true -> tst (p_flags (f p)) RECEIVING = true) ->
  keeps (waits i) (upd_proc j f).
Proof.
  intros H. apply keeps_modify. intros k. unfold waits. destruct (P_alter_or k j f i) as [->|[E ->]]; [done|].
  destruct H as [?|H]; [done|]. apply H.
Qed.
Lemma waits_globals (f : kst -> kst) : (forall k, procs (f k) = procs k) -> keeps (waits i) (modify f).
Proof. intros Hf. apply keeps_modify. intros k. unfold waits, P. by rewrite Hf. Qed.
#[local] Hint Extern 1 (keeps (waits i) (modify _)) => (apply waits_globals; done) : keeps_db.
#[local] Hint Extern 1 (keeps (waits i) (upd_proc _ _)) => (apply waits_upd; right; intros p Hp; first
  [exact Hp | cbn; rewrite tst_bset, Hp; done | cbn; rewrite tst_bclr by done; exact Hp]) : keeps_db.

Lemma pick_proc_waits : keeps (waits i) pick_proc.
Proof. unfold pick_proc. keeps_auto. Qed.
Lemma enqueue_waits q rp : keeps (waits i) (enqueue q rp).
Proof. unfold enqueue. keeps_auto. Qed.
#[local] Hint Resolve pick_proc_waits enqueue_waits : keeps_db.
Lemma ready_waits rp : keeps (waits i) (ready rp).
Proof. unfold ready. keeps_auto. Qed.
Lemma unready_find_waits fuel rp xp : keeps (waits i) (unready_find fuel rp xp).
Proof. revert xp. induction fuel as [|fuel IH]; intros xp; cbn [unready_find]; keeps_auto. Qed.
Lemma last_from_waits fuel xp : keeps (waits i) (last_from fuel xp).
Proof. revert xp. induction fuel as [|fuel IH]; intros xp; cbn [last_from]; keeps_auto. Qed.
#[local] Hint Resolve ready_waits unready_find_waits last_from_waits : keeps_db.
Lemma unready_waits rp : keeps (waits i) (unready rp).
Proof. unfold unready, unready_q. keeps_auto. Qed.
Lemma on_sendlist_waits fuel d p : keeps (waits i) (on_sendlist fuel d p).
Proof. revert p. induction fuel as [|fuel IH]; intros p; cbn [on_sendlist]; keeps_auto. Qed.
Lemma last_sender_waits fuel p : keeps (waits i) (last_sender fuel p).
Proof. revert p. induction fuel as [|fuel IH]; intros p; cbn [last_sender]; keeps_auto. Qed.
Lemma lock_switch_waits {A} (m : M kst A) : keeps (waits i) m -> keeps (waits i) (lock_switch m).
Proof. intros Hm. unfold lock_switch. keeps_auto. Qed.
#[local] Hint Resolve unready_waits on_sendlist_waits last_sender_waits lock_switch_waits : keeps_db.
Lemma send_mm_waits j a : keeps (waits i) (lock_mini_send j MM_PROC_NR a).
Proof.
  apply lock_switch_waits. unfold mini_send, cp_mess, put_msg. change (proc_addr MM_PROC_NR) with MMP.
  assert (Hmm : forall f, keeps (waits i) (upd_proc MMP f)) by (intros f; apply waits_upd; left; congruence). keeps_auto.
Qed.
#[local] Hint Resolve send_mm_waits : keeps_db.
Lemma done_one_sig_waits rp : keeps (waits i) (done_one_sig rp).
Proof. unfold done_one_sig, lock_ready. keeps_auto. Qed.
#[local] Hint Resolve done_one_sig_waits : keeps_db.
Lemma cause_sig_waits n sg : keeps (waits i) (cause_sig n sg).
Proof. unfold cause_sig, inform, put_msg, lock_unready, lock_pick_proc. keeps_auto. Qed.
End waiting.

(** ** A task at work

    Between two of its calls the task [c] runs, at the head of the tasks'
    queue, with no switch under way. *)
Record in_step (c : nat) (k : kst) : Prop := {
  is_run : KRUN k;
  is_re : k_reenter k = 255;
  is_sw : switching k = false;
  is_head : rdy_head k !!! TASK_Q = Some c;
  is_cur : proc_ptr k = c;
  is_task : istaskp c = true;
  is_hw : HW <> c;
}.

Section steps.
Context (c : nat).
Implicit Types (k : kst).
(** A user process, or a server other than MM. *)
Definition client (i : nat) : Prop := (9 < i < 41)%nat.

Lemma client_slot i : client i -> slot_ok i /\ i <> HW /\ i <> IDLEP /\ i <> MMP /\ (9 <= i)%nat /\ istaskp i = false.
Proof.
  intros Hi. change HW with 8%nat. change IDLEP with 1%nat. change MMP with 9%nat. unfold slot_ok, NR_SLOTS, client in *.
  split_and!; try lia. unfold istaskp. apply andb_false_iff. left. apply Z.ltb_ge. unfold NR_TASKS. lia.
Qed.
Lemma client_nr n : 0 < n < NR_PROCS -> client (proc_addr n).
Proof. unfold client, proc_addr, NR_TASKS, NR_PROCS. lia. Qed.

Lemma in_step_wp {A} (m : M kst A) k : in_step c k -> wp m (fun _ k' => KI k') k ->
  keeps steady m -> keeps (tasking c) m -> ends m -> wp m (fun _ k' => in_step c k') k.
Proof.
  intros [HK Hre Hsw Hh Hc Ht Hhw] H Hst Hta Hen.
  apply (wp_keeps steady) in H; [|exact Hst]. apply (wp_keeps (tasking c)) in H; [|exact Hta].
  eapply wp_mono; [apply (wp_wlp_and _ _ _ _ H (Hen k Hsw))|]. intros a k' [[[A1 A2] A3] A4].
  destruct (A3 Hh Hc) as [B1 B2]. split; try done; [by apply (KRUN_steady k)|].
  pose proof A2 as [[[_ _ A5] _ _ _] _]. congruence.
Qed.

Lemma in_step_upd k i g : in_step c k ->
  (forall p, p_nr (g p) = p_nr p /\ p_flags (g p) = p_flags p /\ p_map (g p) = p_map p /\
     p_nextready (g p) = p_nextready p /\ p_shadow (g p) = p_shadow p /\
     p_callerq (g p) = p_callerq p /\ p_sendlink (g p) = p_sendlink p) ->
  (forall p, p_getfrom (g p) = p_getfrom p) -> (forall p, held_part (g p) = held_part p) ->
  (forall p, kernel_mode (p_psw (g p)) = kernel_mode (p_psw p)) -> in_step c (kupd i g k).
Proof.
  intros [HK Hre Hsw Hh Hc Ht Hhw] H1 H2 H3 H4. split; try done. unfold kupd. apply KRUN_upd; try done. intros H. by rewrite H4.
Qed.

(** A process's last reason to wait goes, or one of several. *)
Definition wake_flag (i : nat) (b : Z) : M kst unit :=
  upd_proc i (fun p => p <| p_flags := bclr (p_flags p) b |>);;
  f ← gets (fun s => p_flags (P i s));
  when (f =? 0) (lock_ready i).
Lemma wake_flag_sst i b Q s : wp (in_ker (wake_flag i b)) Q s ->
  wp (updP i (fun p => p <| p_flags := bclr (p_flags p) b |>);;
      f ← gets (fun s => p_flags (P i (ker s)));
      when (f =? 0) (in_ker (lock_ready i))) Q s.
Proof.
  unfold wp, wake_flag, updP, in_ker, zoom, mbind, M_bind, upd_proc, modify, gets, when, mret, M_ret. cbn [ker set_field].
  destruct (_ =? 0); [|done]. by destruct (lock_ready i _).
Qed.

Lemma wake_run k i b : in_step c k -> client i -> tst (flags k i) b = true ->
  Z.land b (Z.lor (Z.lor SENDING PENDING) P_SLOT_FREE) = 0 -> Z.land b SIG_PENDING = 0 ->
  wp (wake_flag i b) (fun _ k' => in_step c k') k.
Proof.
  intros HS Hi Hb H1 H2. destruct (client_slot i Hi) as (Hso & Hhw & Hid & _ & H9 & _). apply in_step_wp; [done|..].
  - pose proof (kr_ki _ (is_run _ _ HS)) as (HQ & HC & HA & HG).
    pose proof (KI1_wake k i b true ltac:(by split_and!) Hso Hhw Hid (tst_nonzero _ _ Hb) H1 (fun _ => H2)) as H.
    unfold wake_flag, upd_proc. wp_steps. eapply wp_mono; [exact H|]. intros _ k' (A1 & A2 & _).
    apply KI_of_KI1; [exact A1|]. by apply (SG_frame k).
  - assert (Hf : Z.land b P_SLOT_FREE = 0).
    { rewrite <- (Z.land_diag P_SLOT_FREE) at 1. change P_SLOT_FREE with (Z.land (Z.lor (Z.lor SENDING PENDING) P_SLOT_FREE) P_SLOT_FREE) at 1.
      by rewrite !Z.land_assoc, H1. }
    unfold wake_flag. apply keeps_bind; [apply _|apply steady_upd; [done|done|by apply flags_bclr]|]. intros []. keeps_auto.
  - unfold wake_flag. keeps_auto.
  - unfold wake_flag, lock_ready. ends_auto.
Qed.

(** A process is stopped, whether it was ready or not. *)
Definition stop_flag (i : nat) : M kst unit :=
  lock_unready i;;
  upd_proc i (fun p => p <| p_flags := bset (p_flags p) P_STOP |>).

Lemma KI_stop k i : KI k -> client i -> wp (stop_flag i) (fun _ k' => KI k') k.
Proof.
  intros (HQ & HC & HA & HG) Hi. destruct (client_slot i Hi) as (Hso & Hhw & Hid & _).
  assert (H1 : KI1 k) by by split_and!.
  assert (Hsleep : forall k1, KI1 k1 -> SG k1 ->
    wp (when (flags k1 i =? 0) (lock_unready i);; upd_proc i (fun p => p <| p_flags := bset (p_flags p) P_STOP |>)) (fun _ k' => KI k') k1).
  { intros k1 K1 G1. apply wp_bind.
    eapply wp_mono; [apply (KI1_sleep k1 i P_STOP true); try done|]. cbv zeta.
    intros _ k2 (A1 & A2 & A3 & _). unfold upd_proc. wp_steps. apply KI_of_KI1; [exact A1|].
    unfold SG in *. change (sig_procs k2 = sig_procs k1) in A2.
    match goal with |- sig_procs ?t = _ => change (sig_procs t) with (sig_procs k2) end.
    rewrite A2, G1. f_equal. symmetry. apply pendings_ext.
    intros j. etransitivity; [exact (A3 j)|]. case_decide; [subst j; by rewrite orb_false_r|done]. }
  unfold stop_flag. destruct (Z.eqb_spec (flags k i) 0) as [E|E].
  - specialize (Hsleep k H1 HG). by rewrite E in Hsleep.
  - destruct HQ as [Q [HQ Hr]]. apply wp_bind. unfold lock_unready. apply wp_lock.
    eapply wp_mono; [by apply (unready_ok _ Q)|]. cbv zeta. intros [] k1 (B1 & B2 & _).
    set (k2 := k1 <| switching := false |>).
    assert (Hni : i ∉ Q (queue_of k i)) by (rewrite (Hr i Hso); naive_solver).
    assert (Hfr : sched_frame k k2) by (destruct B2; by split).
    assert (HS : SI k2 Q).
    { split.
      - change (queue_of (k <| switching := true |>) i) with (queue_of k i) in B1. rewrite (del_notin _ _ Hni) in B1.
        destruct B1 as (C1 & C2 & C3 & C4). split_and!; try done. intros q Hq. specialize (C4 q Hq).
        revert C4. unfold qset. case_decide; [by subst|done].
      - intros j Hj. rewrite (queue_of_frame _ _ _ Hfr), (sched_frame_field p_flags _ _ _ ltac:(done) Hfr). by apply Hr. }
    assert (E2 : flags k2 i <> 0) by (by rewrite (sched_frame_field p_flags k k2)).
    assert (K2 : KI1 k2) by (apply (KI1_frame k); [done|by exists Q|done]).
    assert (G2 : SG k2) by (apply (SG_frame k); [by apply sched_ipc_frame|done]).
    specialize (Hsleep k2 K2 G2). by rewrite (proj2 (Z.eqb_neq _ _) E2) in Hsleep.
Qed.

Lemma stop_run k i : in_step c k -> client i -> wp (stop_flag i) (fun _ k' => in_step c k') k.
Proof.
  intros HS Hi. destruct (client_slot i Hi) as (_ & _ & _ & _ & H9 & _).
  assert (Hic : i <> c) by (pose proof (task_small c (is_task _ _ HS)); lia).
  apply in_step_wp; [done|apply KI_stop; [apply HS|done]|..].
  - unfold stop_flag. apply keeps_bind; [apply _|auto with keeps_db|]. intros _. apply steady_upd; [done|done|].
    apply flags_bset. by left.
  - unfold stop_flag. apply keeps_bind; [apply _|by apply (lock_tasking c i)|]. intros _. auto with keeps_db.
  - unfold stop_flag, lock_unready. ends_auto.
Qed.

(** A client's memory map may change. *)
Lemma in_step_map k i mp : in_step c k -> client i -> map_ok mp -> in_step c (kupd i (fun p => p <| p_map := mp |>) k).
Proof.
  intros [[H1 [L H2] H3 H4 H5 H6 H7] Hre Hsw Hh Hc Ht Hhw] Hi Hmp. destruct (client_slot i Hi) as (Hso & Nh & Ni & Nm & H9 & _).
  set (k' := kupd i _ k). assert (HP := P_alter_or k i (fun p => p <| p_map := mp |>) : forall j, P j k' = P j k \/ i = j /\ P j k' = (P j k) <| p_map := mp |>).
  assert (HF : forall A (proj : proc -> A) j, (forall p, proj (p <| p_map := mp |>) = proj p) -> proj (P j k') = proj (P j k)).
  { intros A proj j Hp. by apply tbl_alter_proj. }
  assert (Ho : forall j, j <> i -> P j k' = P j k) by (intros j Hj; by destruct (HP j) as [->|[-> ->]]).
  assert (HK : KI k').
  { destruct H1 as ([Q HQ] & [C HC] & [X1 X2 X3 X4 X5 X6 X7 X8 X9] & HG). split_and!.
    - exists Q. apply (SI_ext k); try done; [apply length_alter|]. intros j. split_and!; by apply HF.
    - exists C. apply (CQ_ext k); [|done]. intros j. unfold sendlink. split_and!; [by apply HF|by apply (HF _ p_sendlink)|].
      by rewrite (HF _ p_flags).
    - assert (HPh : P HW k' = P HW k) by (by apply Ho). split; rewrite ?HPh, ?(HF _ p_flags) by done; try done.
      + unfold k', kupd. cbn. by rewrite length_alter.
      + intros j Hj. rewrite (HF _ p_nr) by done. auto.
      + intros j Hj. rewrite (HF _ p_flags), (HF _ p_getfrom) by done. auto.
      + intros j Hj. rewrite !(HF _ p_flags) by done. auto.
    - unfold SG. change (sig_procs k') with (sig_procs k). rewrite HG. f_equal. symmetry. apply pendings_ext.
      intros j. by rewrite (HF _ p_flags). }
  split; try done. split; try done.
  - exists L. apply (HQ_ext k); try done. intros j. split; by apply HF.
  - intros j Hj. rewrite (HF _ p_flags) by done. by apply H3.
  - intros j Hj Hw. rewrite (HF _ p_psw) by done. by apply H5.
  - intros j Hj. rewrite Ho by lia. by apply H6.
  - intros j Hj A1 A2 A3. rewrite (HF _ p_flags) in A3 by done. destruct (HP j) as [->|[_ ->]]; [by apply H7|done].
Qed.

Lemma signal_step k n sg : in_step c k -> 0 <= n < NR_PROCS -> wp (cause_sig n sg) (fun _ k' => in_step c k') k.
Proof.
  intros HS Hn. destruct (task_small c (is_task _ _ HS)) as [Hc _].
  apply in_step_wp; [done|apply cause_sig_ok; [apply HS|done]|apply cause_sig_steady; lia|..].
  - apply cause_sig_tasking; [done|apply HS|lia].
  - apply cause_sig_ends.
Qed.

Lemma done_one_sig_step k i : in_step c k -> client i -> pending k i = false -> tst (flags k i) SIG_PENDING = true ->
  wp (done_one_sig i) (fun _ k' => in_step c k') k.
Proof.
  intros HS Hi Hp Hs. destruct (client_slot i Hi) as (Hso & Hhw & Hid & _).
  apply in_step_wp; [done| |apply done_one_sig_steady|apply done_one_sig_tasking|apply done_one_sig_ends].
  pose proof (kr_ki _ (is_run _ _ HS)) as (HQ & HC & HA & HG).
  eapply wp_mono; [apply done_one_sig_ok; try done; by split_and!|].
  intros _ k' (A1 & A2 & _). apply KI_of_KI1; [done|]. by apply (SG_frame k).
Qed.

(** ** The requests *)

(** The handler leaves the task at work. *)
Definition served {A} (m : M sst A) (s : sst) : Prop := wp m (fun _ s' => in_step c (ker s')) s.

Lemma served_ker {A} (m : M kst A) (s : sst) : wp m (fun _ k => in_step c k) (ker s) -> served (in_ker m) s.
Proof. intros H. by apply wp_in_ker. Qed.
Lemma served_ret {A} (a : A) (s : sst) : in_step c (ker s) -> served (mret a) s.
Proof. done. Qed.
Lemma served_bind {A B} (m : M sst A) (f : A -> M sst B) s :
  served m s -> (forall a s', in_step c (ker s') -> served (f a) s') -> served (m ≫= f) s.
Proof. intros Hm Hf. apply wp_bind. eapply wp_mono; [exact Hm|]. intros a s' H. by apply Hf. Qed.

Lemma fork_step p ch pid base s : in_step c (ker s) -> fork_asked (ker s) p ch base -> served (do_fork p ch pid base) s.
Proof.
  intros HS [(Hp & Hc & Hne) [Hcf Hcq] (Pr & Ps & Pf & Pq & Pw) (B0 & B1 & B2)]. pose proof HS as [HK Hre Hsw Hh Hcur Ht Hhw].
  pose proof (kernel_fork_ok s p ch pid base (kr_ki _ HK) Hp Hc Hne Hcf Hcq Pr Ps Pq Pw B0 B1) as H.
  assert (Hok : isoksusern p = true /\ isoksusern ch = true).
  { unfold isoksusern, u16, NR_PROCS in *. rewrite !Z.ltb_lt. split; zlia. }
  assert (Hsl : (9 < proc_addr ch < 41)%nat /\ (9 <= proc_addr p < 41)%nat /\ proc_addr ch <> proc_addr p).
  { unfold proc_addr, NR_TASKS, NR_PROCS in *. lia. }
  destruct Hsl as (Sc & Sp & Hcp). set (pp := P (proc_addr p) (ker s)) in *.
  pose proof (fork_run s p ch pid base (proj1 Hok) (proj2 Hok) Hcp) as H'. fold pp in H'.
  eapply wp_mono; [exact (wp_wlp_and _ _ _ _ H (wp_wlp _ _ _ H'))|].
  assert (Hu : u16 base = base).
  { apply u16_id. unfold fork_clicks in B1. pose proof (u16_range (mem_phys (seg_S (p_map pp)) - mem_phys (seg_T (p_map pp)) + mem_len (seg_S (p_map pp)))). lia. }
  rewrite Hu. intros r s' [(_ & A1 & _) [_ ->]]. cbn [ker forking] in *.
  assert (Hso : slot_ok (proc_addr p)) by (unfold slot_ok, NR_SLOTS; lia).
  assert (Hnt : istaskp (proc_addr p) = false).
  { unfold istaskp. apply andb_false_iff. left. apply Z.ltb_ge. unfold NR_TASKS. lia. }
  assert (Hhp : proc_addr p <> HW) by (change HW with 8%nat; lia).
  assert (Hheld : p_int_held pp = false).
  { destruct (kr_hq _ HK) as [L HL]. destruct (p_int_held pp) eqn:E; [|done]. apply (hq_held _ _ HL _ Hso) in E.
    apply (hq_task _ _ HL) in E. lia. }
  assert (Hmap : map_ok (p_map pp)) by (by apply (kr_map _ HK)).
  split; try done. apply (KRUN_fork (ker s)); [done|done|exact A1| | |].
  - unfold held_part. cbn. by rewrite Hheld.
  - change (kernel_mode (p_psw pp) = false). rewrite <- Hnt. by apply (kr_mode _ HK).
  - change (map_ok (moved_segs base (p_map pp))). apply map_ok_moved; try done.
    unfold fork_clicks in B1. fold pp in B1. destruct Pw as [W1 W2 W3]. rewrite u16_id in B1 by (unfold pp in *; lia). exact B1.
Qed.

Lemma exit_step p n s : in_step c (ker s) -> 0 <= p < NR_PROCS -> 0 < n < NR_PROCS -> unshared (proc_addr n) (ker s) ->
  served (do_xit p n) s.
Proof.
  intros HS Hp Hn Hu. pose proof HS as [HK Hre Hsw Hh Hcur Ht Hhw]. destruct (task_small c Ht) as [Hc _].
  assert (Hi : (9 <= proc_addr n)%nat) by (unfold proc_addr, NR_TASKS; lia).
  pose proof (kernel_xit_ok s p n (kr_ki _ HK) Hp Hn Hu) as H.
  apply (wp_keeps (lifted steady)) in H; [|by apply do_xit_steady].
  apply (wp_keeps (lifted (tasking c))) in H; [|by apply do_xit_tasking].
  eapply wp_mono; [apply (wp_wlp_and _ _ _ _ H (do_xit_ends p n s Hsw))|]. intros r s' [[[(A1 & _) A2] A3] A4].
  pose proof A2 as [[[_ _ A5] _ _ _] _]. destruct (A3 Hh Hcur) as [A6 A7].
  split; try done; [by apply (KRUN_steady (ker s))|congruence].
Qed.

Definition map_asked (caller n ptr : Z) (s : sst) : Prop :=
  0 < n < NR_PROCS /\ let a := umap (P (proc_addr caller) (ker s)) seg_D_nr ptr 18 in
  a <> 0 /\ map_ok (read_segs (pmem s) a).

Lemma newmap_step caller n ptr s : in_step c (ker s) -> map_asked caller n ptr s -> served (do_newmap caller n ptr) s.
Proof.
  intros HS (Hk & Ha & Hm). unfold do_newmap, served, getP. destruct (isokprocn n); [|done]. cbn [negb]. wp_steps.
  rewrite (proj2 (Z.eqb_neq _ _) Ha). wp_steps. apply wp_updP. wp_steps. cbn [ker set_field]. apply in_step_map; [done|by apply client_nr|done].
Qed.

Lemma updP_step i g s : in_step c (ker s) ->
  (forall p, p_nr (g p) = p_nr p /\ p_flags (g p) = p_flags p /\ p_map (g p) = p_map p /\
     p_nextready (g p) = p_nextready p /\ p_shadow (g p) = p_shadow p /\
     p_callerq (g p) = p_callerq p /\ p_sendlink (g p) = p_sendlink p) ->
  (forall p, p_getfrom (g p) = p_getfrom p) -> (forall p, held_part (g p) = held_part p) ->
  (forall p, kernel_mode (p_psw (g p)) = kernel_mode (p_psw p)) -> served (updP i g) s.
Proof. intros. apply wp_updP. cbn [ker set_field]. by apply in_step_upd. Qed.

(** Updates of registers and times keep the flags too. *)
Lemma updP_keeps i g s (Q : sst -> Prop) (R : unit -> sst -> Prop) : in_step c (ker s) ->
  (forall p, p_nr (g p) = p_nr p /\ p_flags (g p) = p_flags p /\ p_map (g p) = p_map p /\
     p_nextready (g p) = p_nextready p /\ p_shadow (g p) = p_shadow p /\
     p_callerq (g p) = p_callerq p /\ p_sendlink (g p) = p_sendlink p) ->
  (forall p, p_getfrom (g p) = p_getfrom p) -> (forall p, held_part (g p) = held_part p) ->
  (forall p, kernel_mode (p_psw (g p)) = kernel_mode (p_psw p)) ->
  (forall s', in_step c (ker s') -> (forall j, flags (ker s') j = flags (ker s) j) -> R tt s') -> wp (updP i g) R s.
Proof.
  intros HS H1 H2 H3 H4 HR. apply wp_updP. apply HR; [by apply in_step_upd|].
  intros j. apply (tbl_alter_proj p_flags). apply H1.
Qed.

Lemma wp_assoc {S A B C} (m : M S A) (f : A -> M S B) (g : B -> M S C) Q s :
  wp ((m ≫= f) ≫= g) Q s -> wp (m ≫= fun a => f a ≫= g) Q s.
Proof. unfold wp, mbind, M_bind. by destruct (m s). Qed.

(** Wake a client and go on. *)
Lemma wake_step {A} i b (next : M sst A) s : in_step c (ker s) -> client i -> tst (flags (ker s) i) b = true ->
  Z.land b (Z.lor (Z.lor SENDING PENDING) P_SLOT_FREE) = 0 -> Z.land b SIG_PENDING = 0 ->
  (forall s', in_step c (ker s') -> served next s') ->
  served (updP i (fun p => p <| p_flags := bclr (p_flags p) b |>);;
      f ← gets (fun s => p_flags (P i (ker s)));
      when (f =? 0) (in_ker (lock_ready i));;
      next) s.
Proof.
  intros HS Hi Hb H1 H2 Hn. unfold served.
  apply (wp_assoc (updP i _) (fun _ => gets _) (fun f => when (f =? 0) (in_ker (lock_ready i));; next)).
  apply (wp_assoc _ (fun f => when (f =? 0) (in_ker (lock_ready i))) (fun _ => next)).
  apply wp_bind. apply wp_mono with (fun _ s' => in_step c (ker s')); [|intros _ s'; apply Hn].
  assert (H : served (in_ker (wake_flag i b)) s) by (apply wp_in_ker; by apply wake_run).
  apply wake_flag_sst in H. revert H. unfold wp, mbind, M_bind. by destruct (updP i _ s).
Qed.

Lemma exec_step n traced sp s : in_step c (ker s) -> 0 < n < NR_PROCS -> tst (flags (ker s) (proc_addr n)) RECEIVING = true ->
  served (do_exec n traced sp) s.
Proof.
  intros HS Hn Hr. pose proof (client_nr n Hn) as Hi. destruct (client_slot _ Hi) as (_ & _ & _ & Hm & _).
  unfold do_exec. destruct (isoksusern n); [|by apply served_ret]. cbn [negb]. set (i := proc_addr n) in *. unfold served. apply wp_bind.
  apply wp_mono with (fun _ s' => in_step c (ker s') /\ tst (flags (ker s') i) RECEIVING = true).
  { apply wp_when; intros _; [|done]. apply wp_in_ker. cbn [ker set_field].
    pose proof (wp_keeps (waits i) _ _ _ (cause_sig_waits i Hm n SIGTRAP) (signal_step _ n SIGTRAP HS ltac:(lia))) as H.
    eapply wp_mono; [exact H|]. intros _ k' [A1 A2]. split; [exact A1|]. by apply A2. }
  intros _ s1 [HS1 Hr1]. 
  apply wp_bind, (updP_keeps _ _ _ (fun _ => True)); [done..|]. intros s2 HS2 F2.
  apply wp_bind, (updP_keeps _ _ _ (fun _ => True)); [done..|]. intros s3 HS3 F3.
  apply wp_bind, (updP_keeps _ _ _ (fun _ => True)); [done..|]. intros s4 HS4 F4.
  apply wp_bind, (updP_keeps _ _ _ (fun _ => True)); [done..|]. intros s5 HS5 F5.
  assert (Hr5 : tst (flags (ker s5) i) RECEIVING = true) by by rewrite F5, F4, F3, F2.
  by apply wake_step.
Qed.

Lemma fresh_step caller n i2 ptr s : in_step c (ker s) -> unshared (proc_addr n) (ker s) -> map_asked caller n ptr s ->
  served (do_fresh caller n i2 ptr) s.
Proof.
  intros HS Hu Hm. unfold do_fresh, served, getP, zeroclicks. destruct (_ || _); [by apply served_ret|].
  apply wp_bind. eapply wp_mono; [by apply rmshadow_unshared|]. intros bs s1 [-> _].
  apply wp_bind. eapply wp_mono; [by apply newmap_step|]. intros r s2 H2. by wp_steps.
Qed.

Definition signal_asked (n sg : Z) (s : sst) : Prop := let i := proc_addr n in
  if sg =? -1 then pending (ker s) i = false /\ tst (flags (ker s) i) SIG_PENDING = true
  else umap (P i (ker s)) seg_S_nr (s32 (p_sp (P i (ker s)) - SIG_PUSH_BYTES)) SIG_PUSH_BYTES <> 0.

Lemma isokusern_range n : -32768 <= n < 32768 -> isokusern n = true -> 0 < n < NR_PROCS.
Proof. unfold isokusern, u16, LOW_USER, NR_PROCS. rewrite Z.ltb_lt. zlia. Qed.

Lemma sig_step n sg func s : in_step c (ker s) -> -32768 <= n < 32768 -> (isokusern n = true -> signal_asked n sg s) ->
  served (do_sig n sg func) s.
Proof.
  intros HS Hn Ha. unfold do_sig, served, getP. destruct (isokusern n) eqn:E; [|by apply served_ret]. cbn [negb].
  specialize (Ha eq_refl). apply isokusern_range in E; [|done]. pose proof (client_nr n E) as Hi. unfold signal_asked in Ha.
  destruct (sg =? -1).
  - apply wp_bind, wp_in_ker. destruct Ha as [A1 A2]. eapply wp_mono; [by apply done_one_sig_step|]. intros [] k' H. by wp_steps.
  - wp_steps. rewrite (proj2 (Z.eqb_neq _ _) Ha). wp_steps. apply updP_step; done.
Qed.

Lemma kill_step n sg s : in_step c (ker s) -> -32768 <= n < 32768 -> served (do_kill n sg) s.
Proof.
  intros HS Hn. unfold do_kill, served. destruct (isokusern n) eqn:E; [|by apply served_ret]. cbn [negb].
  apply isokusern_range in E; [|done]. apply wp_bind, wp_in_ker.
  eapply wp_mono; [apply signal_step; [done|lia]|]. intros [] k' H. by wp_steps.
Qed.

(** ** Tracing *)

(** A tracer changes neither the S bit nor the interrupt mask. *)
Lemma SETBITS_mode d p : kernel_mode (p_psw (SETBITS d p)) = kernel_mode (p_psw p).
Proof.
  unfold kernel_mode, SETBITS. cbn [p_psw set_field]. change 8192 with (2 ^ 13). rewrite !tst_bit by lia. unfold u16.
  rewrite <- Z.land_ones by lia. rewrite Z.land_spec, Z.lor_spec, !Z.land_spec, Z.lnot_spec by lia.
  change 255 with (Z.ones 8). rewrite !Z.ones_spec_high by lia. rewrite Z.ones_spec_low by lia.
  cbn [negb]. by rewrite andb_false_r, orb_false_r, !andb_true_r.
Qed.
Lemma set_reg_keeps r v p : p_nr (set_reg r v p) = p_nr p /\ p_flags (set_reg r v p) = p_flags p /\
  p_map (set_reg r v p) = p_map p /\ p_nextready (set_reg r v p) = p_nextready p /\ p_shadow (set_reg r v p) = p_shadow p /\
  p_callerq (set_reg r v p) = p_callerq p /\ p_sendlink (set_reg r v p) = p_sendlink p /\
  p_getfrom (set_reg r v p) = p_getfrom p /\ held_part (set_reg r v p) = held_part p /\ p_psw (set_reg r v p) = p_psw p.
Proof. unfold set_reg. by repeat case_match. Qed.

(** MM traces its children, with an address in the entry, and lets go on only
    what is stopped. *)
Record trace_asked (m : message) (s : sst) : Prop := {
  ta_nr : 0 < PROCNR m < NR_PROCS;
  ta_addr : REQUEST m = 3 \/ REQUEST m = 6 -> 0 <= ADDR m;
  ta_stop : REQUEST m = 7 \/ REQUEST m = 9 -> tst (flags (ker s) (target m)) P_STOP = true;
}.

Lemma offset_in m n : 0 <= n < 32768 -> 0 <= ADDR m -> (n <? ADDR m) = false -> 0 <= s16 (ADDR m) <= n.
Proof. intros Hn Ha H%Z.ltb_ge. rewrite s16_id; lia. Qed.

Lemma peek_user_step rp seg m s : in_step c (ker s) -> served (peek_user rp seg m) s.
Proof. intros HS. unfold peek_user, served, getP. wp_steps. destruct (_ =? 0); wp_steps; exact HS. Qed.
Lemma poke_user_step rp seg m s : in_step c (ker s) -> served (poke_user rp seg m) s.
Proof. intros HS. unfold poke_user, served, getP. wp_steps. destruct (_ =? 0); wp_steps; exact HS. Qed.
Lemma peek_proc_step proc_at rp m s : in_step c (ker s) -> 0 <= ADDR m -> served (peek_proc proc_at rp m) s.
Proof.
  intros HS Ha. unfold peek_proc, served, getP. change (SIZEOF_PROC - SIZEOF_LONG) with 154. destruct (nz _); [exact HS|]. cbn [orb].
  destruct (154 <? ADDR m) eqn:E; [exact HS|]. apply offset_in in E; [|lia|done].
  rewrite (proj2 (Z.ltb_ge _ 0)), (proj2 (Z.ltb_ge _ _)) by lia. cbn [orb]. by wp_steps.
Qed.
Lemma poke_proc_step rp m s : in_step c (ker s) -> 0 <= ADDR m -> served (poke_proc rp m) s.
Proof.
  intros HS Ha. unfold poke_proc, served. change (SIZEOF_FRAME - SIZEOF_LONG) with 68. destruct (nz _); [exact HS|]. cbn [orb].
  destruct (68 <? ADDR m) eqn:E; [exact HS|]. apply offset_in in E; [|lia|done]. unfold PSW_OFFSET. destruct (Z.eqb_spec (s16 (ADDR m)) 68).
  - apply wp_bind. eapply wp_mono; [apply updP_step; try done; intros p; apply SETBITS_mode|]. intros [] s' H. by wp_steps.
  - rewrite (proj2 (Z.ltb_ge _ 0)), (proj2 (Z.ltb_ge _ _)) by lia. cbn [orb].
    apply wp_bind. eapply wp_mono; [apply updP_step; [done|..]; intros p; (destruct (set_reg_keeps (Z.to_nat (Z.quot (s16 (ADDR m)) 4)) (DATA m) p) as (?&?&?&?&?&?&?&?&?&E2); rewrite ?E2; by split_and?)|].
    intros [] s' H. by wp_steps.
Qed.

Lemma trace_step proc_at m s : in_step c (ker s) -> trace_asked m s -> served (do_trace proc_at m) s.
Proof.
  intros HS [Hn Ha Hst]. pose proof (client_nr _ Hn) as Hi. unfold do_trace, served, getP. fold (target m) in *. wp_steps.
  destruct (tst _ P_SLOT_FREE); [exact HS|].
  destruct (REQUEST m =? -1).
  { apply (wp_assoc (in_ker (lock_unready (target m))) (fun _ => updP (target m) _)). apply wp_bind.
    apply wp_mono with (fun _ s' => in_step c (ker s')).
    - assert (H : served (in_ker (stop_flag (target m))) s) by (apply served_ker; by apply stop_run).
      revert H. unfold served, wp, stop_flag, updP, in_ker, zoom, mbind, M_bind. by destruct (lock_unready _ _) as [[] k| |].
    - intros [] s1 H1. apply wp_bind. eapply wp_mono; [apply updP_step; [exact H1|done|done|done|]|].
      + intros p. unfold kernel_mode. cbn [p_psw set_field]. by apply tst_bclr.
      + intros [] s2 H2. by wp_steps. }
  destruct (REQUEST m =? 1); [by apply peek_user_step|]. destruct (REQUEST m =? 2); [by apply peek_user_step|].
  destruct (Z.eqb_spec (REQUEST m) 3); [apply peek_proc_step; auto|].
  destruct (REQUEST m =? 4); [by apply poke_user_step|]. destruct (REQUEST m =? 5); [by apply poke_user_step|].
  destruct (Z.eqb_spec (REQUEST m) 6); [apply poke_proc_step; auto|].
  assert (Hresume : forall s1 (r : Z * message), in_step c (ker s1) -> tst (flags (ker s1) (target m)) P_STOP = true ->
    wp (resume (target m);; mret r) (fun _ s' => in_step c (ker s')) s1).
  { intros s1 r H1 Hp. apply wp_bind. unfold resume.
    pose proof (wake_step (target m) P_STOP (mret tt : M sst unit) s1 H1 Hi Hp eq_refl eq_refl (fun _ H => H)) as H. unfold served in H.
    revert H. unfold wp, mbind, M_bind, mret, M_ret. destruct (updP _ _ s1); [|done|done]. cbn [gets]. unfold gets.
    by destruct (when _ _ _). }
  destruct (Z.eqb_spec (REQUEST m) 7); [apply Hresume; auto|].
  destruct (Z.eqb_spec (REQUEST m) 9); [|exact HS].
  apply wp_bind, (updP_keeps _ _ _ (fun _ => True)); [done|done|done|done| |].
  - intros p. unfold kernel_mode. cbn [p_psw set_field]. rewrite tst_bset. by rewrite orb_false_r.
  - intros s1 H1 F1. apply Hresume; [done|]. rewrite F1. auto.
Qed.

(** ** What MM and FS ask for

    FS asks for copies and times; the others are MM's. Only [SYS_ABORT] is
    meant to end in a panic. *)
Record request_ok (m : message) (s : sst) : Prop := {
  ro_fork : m_type m = SYS_FORK -> fork_asked (ker s) (int_at 0 m) (int_at 1 m) (long_at 3 m);
  ro_newmap : m_type m = SYS_NEWMAP -> map_asked (m_source m) (int_at 0 m) (long_at 3 m) s;
  ro_exec : m_type m = SYS_EXEC -> 0 < int_at 0 m < NR_PROCS /\
    tst (flags (ker s) (proc_addr (int_at 0 m))) RECEIVING = true;
  ro_xit : m_type m = SYS_XIT -> 0 <= int_at 0 m < NR_PROCS /\ 0 < int_at 1 m < NR_PROCS /\
    unshared (proc_addr (int_at 1 m)) (ker s);
  ro_abort : m_type m <> SYS_ABORT;
  ro_fresh : m_type m = SYS_FRESH -> unshared (proc_addr (int_at 0 m)) (ker s) /\
    map_asked (m_source m) (int_at 0 m) (long_at 3 m) s;
  ro_sig : m_type m = SYS_SIG -> isokusern (int_at 0 m) = true -> signal_asked (int_at 0 m) (int_at 1 m) s;
  ro_gboot : m_type m = SYS_GBOOT ->
    umap (P (proc_addr (int_at 0 m)) (ker s)) seg_D_nr (long_at 3 m) (Z.of_nat (length boot_parameters)) <> 0;
  ro_trace : m_type m = SYS_TRACE -> trace_asked m s;
}.

Lemma int_at_range j m : -32768 <= int_at j m < 32768.
Proof.
  unfold int_at, s16, sx. cbv zeta. change (2 ^ 16) with 65536. change (2 ^ (16 - 1)) with 32768.
  destruct (Z.ltb_spec (m_words m !!! j mod 65536) 32768); zlia.
Qed.

Lemma served_map {A B} (m : M sst A) (f : A -> B) s : served m s -> served (r ← m; mret (f r)) s.
Proof. intros H. apply served_bind; [exact H|]. intros a s' H'. by apply served_ret. Qed.

Lemma dispatch_step proc_at me m s : in_step c (ker s) -> request_ok m s -> served (dispatch proc_at me m) s.
Proof.
  intros HS [R1 R2 R3 R4 R5 R6 R7 R8 R9]. unfold dispatch. pose proof (int_at_range 0 m) as H0. pose proof (int_at_range 1 m) as H1.
  destruct (Z.eqb_spec (m_type m) SYS_FORK); [apply served_map, fork_step; auto|].
  destruct (Z.eqb_spec (m_type m) SYS_NEWMAP); [apply served_map, newmap_step; auto|].
  destruct (Z.eqb_spec (m_type m) SYS_EXEC); [apply served_map, exec_step; [exact HS|apply R3; done..]|].
  destruct (Z.eqb_spec (m_type m) SYS_XIT); [apply served_map, exit_step; [exact HS|apply R4; done..]|].
  destruct (Z.eqb_spec (m_type m) SYS_GETSP).
  { apply served_map. unfold do_getsp, served, getP. destruct (negb _); [exact HS|]. by wp_steps. }
  destruct (Z.eqb_spec (m_type m) SYS_TIMES).
  { apply served_map. unfold do_times, served, getP. destruct (negb _); [exact HS|]. by wp_steps. }
  destruct (Z.eqb_spec (m_type m) SYS_ABORT); [done|].
  destruct (Z.eqb_spec (m_type m) SYS_FRESH); [apply served_map, fresh_step; [exact HS|apply R6; done..]|].
  destruct (Z.eqb_spec (m_type m) SYS_SIG); [apply served_map, sig_step; auto|].
  destruct (Z.eqb_spec (m_type m) SYS_KILL); [apply served_map, kill_step; auto|].
  destruct (Z.eqb_spec (m_type m) SYS_COPY).
  { apply served_map. unfold do_copy, served, getP, phys_copy. wp_steps. destruct (_ || _); by wp_steps. }
  destruct (Z.eqb_spec (m_type m) SYS_GBOOT).
  { apply served_map. unfold do_gboot, served, getP. wp_steps. rewrite (proj2 (Z.eqb_neq _ _)) by auto. by wp_steps. }
  destruct (Z.eqb_spec (m_type m) SYS_UMAP); [apply served_map; exact HS|].
  destruct (Z.eqb_spec (m_type m) SYS_MEM).
  { apply served_map. unfold do_mem, served. wp_steps. destruct (beenhere s); by wp_steps. }
  destruct (Z.eqb_spec (m_type m) SYS_TRACE); [apply trace_step; auto|exact HS].
Qed.

Lemma turn_step proc_at me m s : in_step c (ker s) -> request_ok m s -> served (sys_turn proc_at me m) s.
Proof. intros HS HR. by apply served_map, dispatch_step. Qed.
End steps.
