(* ===== verification/Entry.v ===== *)
(** * Entries into the kernel: [lisampx.s] and [lisamain.c]

    What the kernel does from the moment a processor exception or interrupt
    enters it until it returns to a process: [save], the C routine, [restart]
    with the delivery of held-up interrupts, the check of the stack and the
    switch of the MMU. Exceptions from user mode, system calls and interrupts
    are the steps of a transition system, with the operations that the system
    and clock tasks perform on the process table; every state that they reach
    from start-up satisfies the kernel's invariant. *)

From S2P Require Import Prelude KProc KQueues KIpc KIntr KSys KSystem KTask KRun SysTask Mmu KSafe VduFont Vdu Boot.

(** What [save] finds of an interrupted process: its registers (d1 to d7 and
    a0 to a6 in a list) and the number of the vector in [trapno]. *)
Record saved := mk_saved {
  sv_d0 : Z; sv_regs : list Z; sv_sp : Z; sv_pc : Z; sv_psw : Z; trapno : Z }.

Definition SIGILL : Z := 4.
Definition SIGABRT : Z := 6.
Definition SIGEMT : Z := 7.
Definition SIGFPE : Z := 8.
Definition SIGBUS : Z := 10.
Definition SIGSEGV : Z := 11.

(** [add.b #1,k_reenter], [sub.b #1,k_reenter] *)
Definition reenter (d : Z) : M kst unit := modify (fun s => s <| k_reenter ::= fun k => u8 (k + d) |>).

Definition save_context (c : saved) (p : proc) : proc :=
  p <| p_retreg := sv_d0 c |> <| p_regs := sv_regs c |> <| p_sp := sv_sp c |>
    <| p_trap := s16 (Z.lor (Z.land (u16 (p_trap p)) 65280) (u8 (trapno c))) |>
    <| p_psw := sv_psw c |> <| p_pc := sv_pc c |>.
Definition save (c : saved) : M kst unit :=
  cur ← gets proc_ptr;
  upd_proc cur (save_context c);;
  reenter 1.

Definition vecsig : list Z :=
  [0; 0; SIGSEGV; SIGBUS; SIGILL; SIGILL; SIGILL; SIGABRT; SIGILL; SIGTRAP; SIGEMT; SIGFPE; SIGSTKFLT].

(** What it prints is left out. *)
Definition trap : M kst unit :=
  rp ← gets proc_ptr;
  p ← gets (P rp);
  let t := p_trap p in
  if kernel_mode (p_psw p) then panic "trap via vector" else
  let sig := if (0 <=? t) && (t <? Z.of_nat (length vecsig)) then default 0 (vecsig !! Z.to_nat t) else 0 in
  cause_sig (p_nr p) (if nz sig then sig else SIGILL).

Definition checksp : M kst unit :=
  rp ← gets proc_ptr;
  p ← gets (P rp);
  if (0 <=? p_nr p) && kernel_mode (p_psw p) then mret tt else
  when (p_sp p <? p_splow p) (upd_proc rp (fun p => p <| p_splow := p_sp p |>));;
  if mem_len (seg_S (p_map p)) =? 0 then mret tt else
  if s32 (Z.shiftl (mem_vir (seg_S (p_map p))) CLICK_SHIFT) <? s32 (p_sp p) then mret tt else
  upd_proc rp (fun p => p <| p_trap := 12 |>);;
  trap.

Abbreviation cur m := (proc_ptr (mker m)).

Section entries.
(** Where memory starts and ends, and where the process table is. *)
Context (lisa_membase lisa_memend : Z) (proc_at : nat -> Z).

Definition restart : M machine unit :=
  k ← gets (fun m => k_reenter (mker m));
  h ← gets (fun m => held_head (mker m));
  when ((k =? 0) && bool_decide (h <> None)) (on_ker unhold);;
  on_ker (reenter (-1));;
  on_ker checksp;;
  cur ← gets (fun m => proc_ptr (mker m));
  p ← gets (fun m => P cur (mker m));
  if kernel_mode (p_psw p) then mret tt
  else on_mmu (lisa_mmu_switch lisa_membase cur (p_nr p) (p_map p)).

(** [sys]: the system call's arguments are in registers; its result goes
    into the caller's saved register 0. *)
Definition sys (c : saved) (function src_dest m_ptr : Z) : M machine unit :=
  on_ker (save c);;
  a6 ← gets (fun m => proc_ptr (mker m));
  d0 ← on_ker (sys_call function src_dest m_ptr);
  on_ker (upd_proc a6 (fun p => p <| p_retreg := d0 |>));;
  restart.

(** [trp]: any other exception. *)
Definition trp (c : saved) : M machine unit :=
  on_ker (save c);;
  on_ker trap;;
  restart.

(** [async]: a hardware interrupt, whose handler calls [interrupt] for some
    tasks. *)
Definition async (c : saved) (tasks : list Z) : M machine unit :=
  on_ker (reenter 1);;
  on_ker (for_each tasks interrupt);;
  on_ker (reenter (-1));;
  if kernel_mode (sv_psw c) then mret tt else
  h ← gets (fun m => rdy_head (mker m) !!! TASK_Q);
  match h with
  | None => mret tt
  | Some _ => on_ker (save c);; on_ker lock_pick_proc;; restart
  end.

(** An interrupt that arrives while a task runs. *)
Definition nested_interrupt (t : Z) : M kst unit := reenter 1;; interrupt t;; reenter (-1).

(** [lock_sched] of the clock task, with interrupts that arrive before it is
    through. *)
Definition sched_interrupted (tasks : list Z) : M kst unit :=
  lock_switch (sched;; for_each tasks nested_interrupt).

(** A step of the machine, as far as the kernel is concerned. *)
Inductive entry :=
| SysCall (c : saved) (function src_dest m_ptr : Z)
| Exception (c : saved)
| Interrupts (c : saved) (tasks : list Z)
| TaskSched (tasks : list Z)
| TaskSignal (proc_nr sig : Z)
| TaskRequest (m : message).

Definition run (e : entry) : M machine unit :=
  match e with
  | SysCall c f d m => sys c f d m
  | Exception c => trp c
  | Interrupts c tasks => async c tasks
  | TaskSched tasks => on_ker (sched_interrupted tasks)
  | TaskSignal n sig => on_ker (cause_sig n sig)
  | TaskRequest m => on_sys (sys_turn proc_at (lisa_user_mem_end lisa_memend) m);; mret tt
  end.

(** ** What is asked of processes and tasks *)

(** The processor is in kernel mode exactly while a task runs. *)
Definition mode_ok (c : saved) (m : machine) : Prop := kernel_mode (sv_psw c) = istaskp (cur m).
Definition ok_task (t : Z) : Prop := -9 <= t < 0.
(** The running process is a task. *)
Definition in_task (m : machine) : Prop := istaskp (cur m) = true.

(** User processes may try anything, in any state of the kernel; servers and
    tasks do not send to [ANY]; only user processes raise exceptions; the
    system task's requests are those of [request_ok]. *)
Definition entry_ok (e : entry) (m : machine) : Prop :=
  match e with
  | SysCall c f d _ => mode_ok c m /\ cur m <> IDLEP /\ -32768 <= d < 32768 /\
      (isuserp (cur m) = false -> tst f SEND = true -> d <> ANY)
  | Exception c => mode_ok c m /\ (9 <= cur m)%nat
  | Interrupts c tasks => mode_ok c m /\ Forall ok_task tasks
  | TaskSched tasks => in_task m /\ Forall ok_task tasks
  | TaskSignal n _ => in_task m /\ 0 <= n < NR_PROCS
  | TaskRequest rq => in_task m /\ request_ok rq (msys m)
  end.

(** ** The invariant *)

(** The running process, if in user mode, sees its own image and nothing else. *)
Definition sees_image (m : machine) : Prop :=
  istaskp (cur m) = false -> forall v, 0 <= v < 2 ^ 24 ->
  access (hw (mmmu m) !!! selected (mmmu m)) v =
    (let mp := p_map (P (cur m) (mker m)) in
     if mapped mp v then Some ((v + img_delta mp + lisa_membase) mod 2 ^ 21) else None).

Record INV (m : machine) : Prop := {
  inv_kernel : KRUN (mker m);
  inv_mmu : MI lisa_membase (mmmu m);
  inv_quiet : k_reenter (mker m) = 255 /\ switching (mker m) = false;
  inv_image : sees_image m;
}.
End entries.

Lemma checksp_run k : KRUN k -> switching k = false ->
  wp checksp (fun _ k' => KRUN k' /\ k_reenter k' = k_reenter k /\ switching k' = false) k.
Proof.
  intros HK Hs. unfold checksp. wp_steps. set (i := proc_ptr k).
  destruct (running_slot k (kr_ki _ HK) (kr_run _ HK)) as (Hso & Hfl & Hhw). fold i in Hso, Hfl, Hhw.
  destruct ((0 <=? p_nr (P i k)) && kernel_mode (p_psw (P i k))) eqn:Hk; wp_steps; [done|].
  apply wp_mono with (fun _ k' => KRUN k' /\ k_reenter k' = k_reenter k /\ switching k' = false /\ proc_ptr k' = i /\
    fixed_part (P i k') = fixed_part (P i k)).
  { apply wp_when; intros _; [|done]. unfold upd_proc. wp_steps. split_and!; try done; [by apply KRUN_upd|].
    destruct (P_alter_or k i (fun p => p <| p_splow := p_sp p |>) i) as [->|[_ ->]]; done. }
  intros [] k1 (HK1 & Hr1 & Hs1 & Hc1 & Hp1). wp_steps. destruct (Z.eqb_spec (mem_len (seg_S (p_map (P i k)))) 0) as [E|E]; wp_steps; [done|].
  destruct (_ <? _); wp_steps; [done|].
  assert (Hi : (9 <= i < 41)%nat).
  { unfold slot_ok, NR_SLOTS in Hso. split; [|done]. destruct (decide (i < 9)%nat); [|lia]. by rewrite (kr_stack _ HK) in E. }
  unfold fixed_part in Hp1. assert (Hnr : p_nr (P i k1) = p_nr (P i k) /\ p_psw (P i k1) = p_psw (P i k)) by (split; congruence).
  assert (Hnr2 : p_nr (P i k) = Z.of_nat i - NR_TASKS) by (apply (kr_ki _ HK); done).
  unfold upd_proc. wp_steps.
  set (k2 := k1 <| procs ::= alter (fun p => p <| p_trap := 12 |>) i |>).
  assert (HK2 : KRUN k2) by by apply KRUN_upd.
  assert (HP2 : fixed_part (P i k2) = fixed_part (P i k1)).
  { unfold k2. destruct (P_alter_or k1 i (fun p => p <| p_trap := 12 |>) i) as [->|[_ ->]]; done. }
  unfold fixed_part in HP2. assert (Hnr3 : p_nr (P i k2) = p_nr (P i k) /\ p_psw (P i k2) = p_psw (P i k)) by (split; destruct Hnr; congruence).
  unfold trap. wp_steps. change (proc_ptr k2) with (proc_ptr k1). rewrite Hc1. destruct Hnr3 as [-> ->].
  rewrite Hnr2 in Hk. rewrite (proj2 (Z.leb_le _ _)) in Hk by (unfold NR_TASKS; lia). cbn [andb] in Hk. rewrite Hk. wp_steps.
  change (k_reenter k1) with (k_reenter k2) in Hr1. change (switching k1) with (switching k2) in Hs1.
  eapply wp_mono; [apply cause_sig_run; [done|]|].
  { rewrite Hnr2. unfold NR_TASKS, NR_PROCS. lia. }
  intros _ k' (H1 & [[[_ _ H2] _ _ _] _] & H3). split_and!; [done|congruence|auto].
Qed.

(** ** Held-up interrupts *)

Lemma unhold_run k : KRUN k -> k_reenter k = 0 -> switching k = false -> held_head k <> None ->
  wp unhold (fun _ k' => KRUN k' /\ lively k k' /\ switching k' = false) k.
Proof.
  intros HK Hre Hsw Hh. pose proof HK as [H1 [L H2] H3 H4 _ _ _].
  assert (Hu : wp unhold (fun _ k' => KI k' /\ HQ k' [] /\ TK k') k).
  { unfold unhold. wp_steps. rewrite Hsw. wp_steps. destruct L as [|x L].
    { pose proof (hq_list _ _ H2) as Hn. cbn in Hn. congruence. }
    rewrite (lseg_head _ _ _ _ _ (hq_list _ _ H2)). pose proof (HQ_length _ _ H2) as Hl. cbn [length] in Hl.
    eapply wp_mono; [apply (unhold_loop_ok L); try done; unfold NR_SLOTS; lia|]. naive_solver. }
  apply (wp_keeps lively) in Hu; [|apply unhold_lively].
  eapply wp_mono; [apply (wp_wlp_and _ _ _ _ Hu (unhold_ends k Hsw))|].
  intros _ k' [[(A1 & A2 & A3) Hl] A4]. split_and!; [|done|done].
  destruct Hl as (C1 & _ & C3 & _). apply (KRUN_calm k); auto. by exists [].
Qed.

Lemma interrupts_run k tasks : KRUN k -> k_reenter k = 0 -> switching k = false -> Forall ok_task tasks ->
  wp (for_each tasks interrupt) (fun _ k' => KRUN k' /\ lively k k' /\ switching k' = false) k.
Proof.
  intros HK Hre Hsw Ht. revert k HK Hre Hsw. induction Ht as [|t ts Ht Hts IH]; intros k HK Hre Hsw; cbn [for_each].
  { wp_steps. by split_and!. }
  wp_steps. pose proof HK as [H1 [L H2] H3 H4 _ _ _].
  pose proof (interrupt_deliver_ok k L t H1 H2 H3 Ht Hre Hsw) as Hi.
  apply (wp_keeps lively) in Hi; [|apply interrupt_lively].
  eapply wp_mono; [apply (wp_wlp_and _ _ _ _ Hi (interrupt_ends t k Hsw))|].
  intros [] k1 [[(A1 & A2 & A3 & _) Hl] A4]. pose proof Hl as (C1 & _ & C3 & _).
  assert (HK1 : KRUN k1) by (apply (KRUN_calm k); auto; by exists L).
  eapply wp_mono; [apply IH; [done|by rewrite (cm_re _ _ C1)|done]|].
  intros [] k2 (B1 & B2 & B3). split_and!; [done|by transitivity k1|done].
Qed.

(** ** Entries *)

Section steps.
Context (membase : Z) (Hbase : membase mod 512 = 0).

Lemma free_running k : KRUN k -> tst (flags k (proc_ptr k)) P_SLOT_FREE = false.
Proof. intros HK. destruct (running_slot k (kr_ki _ HK) (kr_run _ HK)) as (_ & -> & _). apply tst_0. Qed.

Lemma restart_run m : KRUN (mker m) -> k_reenter (mker m) = 0 -> switching (mker m) = false -> MI membase (mmmu m) ->
  wp (restart membase) (fun _ m' => INV membase m') m.
Proof.
  intros HK Hre Hsw HM. unfold restart. wp_steps. rewrite Hre. cbn [Z.eqb andb].
  apply wp_mono with (fun _ m1 => KRUN (mker m1) /\ k_reenter (mker m1) = 0 /\ switching (mker m1) = false /\ mmmu m1 = mmmu m).
  { apply wp_when; intros Hh; [|done]. apply wp_on_ker.
    eapply wp_mono; [apply unhold_run; try done|].
    { by apply bool_decide_eq_true in Hh. }
    intros [] k1 (A1 & (A2 & _) & A3). split_and!; try done. change (k_reenter k1 = 0). by rewrite (cm_re _ _ A2). }
  intros [] m1 (K1 & R1 & S1 & M1). wp_steps. apply wp_on_ker. unfold reenter. wp_steps. apply wp_on_ker.
  eapply wp_mono; [apply checksp_run; [by apply KRUN_reenter|exact S1]|].
  intros [] k2 (K2 & R2 & S2). wp_steps.
  match goal with |- context [set_ker ?a k2] => set (m2 := set_ker a k2) end.
  assert (E2 : mker m2 = k2) by done. assert (M2 : mmmu m2 = mmmu m) by (rewrite <- M1; done). rewrite E2.
  assert (R2' : k_reenter k2 = 255) by (rewrite R2; cbn; by rewrite R1). clearbody m2.
  set (i := proc_ptr k2). destruct (running_slot k2 (kr_ki _ K2) (kr_run _ K2)) as (Hso & Hfl & Hhw). fold i in Hso, Hfl, Hhw.
  destruct (kernel_mode (p_psw (P i k2))) eqn:Hmode; rewrite (kr_mode _ K2 i Hso Hhw) in Hmode; wp_steps.
  - split; try (by rewrite ?E2, ?M2). intros Ht. rewrite E2 in Ht. unfold i in Hmode. congruence.
  - apply wp_on_mmu. assert (HM2 : MI membase (mmmu m2)) by by rewrite M2.
    assert (Hmap : map_ok (p_map (P i k2))) by (apply (kr_map _ K2); try done; by rewrite Hfl).
    eapply wp_mono; [exact (lisa_mmu_switch_ok membase (mmmu m2) i (p_nr (P i k2)) _ HM2 Hmap Hbase)|].
    intros [] mm (A1 & A2 & A3 & _).
    change (INV membase (m2 <| mmmu := mm |>)). split; try done.
    + change (KRUN (mker m2)). by rewrite E2.
    + change (k_reenter (mker m2) = 255 /\ switching (mker m2) = false). by rewrite E2.
    + intros _ v Hv. change (access (hw mm !!! selected mm) v = let mp := p_map (P (proc_ptr (mker m2)) (mker m2)) in
          if mapped mp v then Some ((v + img_delta mp + membase) mod 2 ^ 21) else None). rewrite E2. by apply A3.
Qed.

Lemma save_run c m : INV membase m -> mode_ok c m ->
  wp (save c) (fun _ k => KRUN k /\ k_reenter k = 0 /\ switching k = false /\ proc_ptr k = proc_ptr (mker m) /\
    (forall i, flags k i = flags (mker m) i) /\ (forall i, p_nr (P i k) = p_nr (P i (mker m))) /\
    kernel_mode (p_psw (P (proc_ptr k) k)) = istaskp (proc_ptr k)) (mker m).
Proof.
  intros [HK HM [Hre Hsw] _] Hm. unfold save, reenter, upd_proc. wp_steps.
  set (i := proc_ptr (mker m)) in *.
  assert (H1 : KRUN ((mker m) <| procs ::= alter (save_context c) i |>)).
  { apply KRUN_upd; try done. }
  split_and!.
  - by apply KRUN_reenter.
  - change (u8 (k_reenter (mker m) + 1) = 0). by rewrite Hre.
  - exact Hsw.
  - done.
  - intros j. match goal with |- flags ?s j = _ => change (flags s j) with (flags ((mker m) <| procs ::= alter (save_context c) i |>) j) end.
    destruct (P_alter_or (mker m) i (save_context c) j) as [->|[_ ->]]; done.
  - intros j. match goal with |- p_nr (P j ?s) = _ => change (P j s) with (P j ((mker m) <| procs ::= alter (save_context c) i |>)) end.
    destruct (P_alter_or (mker m) i (save_context c) j) as [->|[_ ->]]; done.
  - apply (kr_mode _ H1); change (proc_ptr _) with i; apply (running_slot _ (kr_ki _ HK) (kr_run _ HK)).
Qed.

Lemma sys_run c f d mp m : INV membase m -> entry_ok (SysCall c f d mp) m ->
  wp (sys membase c f d mp) (fun _ m' => INV membase m') m.
Proof.
  intros HI (Hm & Hid & Hd & Htr). unfold sys. wp_steps. apply wp_on_ker.
  eapply wp_mono; [by apply save_run|]. intros [] k1 (K1 & R1 & S1 & P1 & F1 & _). wp_steps.
  change (mker (set_ker m k1)) with k1. apply wp_on_ker. change (mker (set_ker m k1)) with k1.
  destruct (running_slot k1 (kr_ki _ K1) (kr_run _ K1)) as (Hso & Hfl & Hhw).
  assert (Hc : call_ok k1 f d) by (split; rewrite ?P1 in *; try done; split_and!; done).
  pose proof (sys_call_ok k1 f d mp (kr_ki _ K1) Hc) as H.
  apply (wp_keeps steady) in H; [|apply sys_call_steady].
  eapply wp_mono; [apply (wp_wlp_and _ _ _ _ H (sys_call_ends f d mp k1 S1))|].
  intros d0 k2 [[A1 A2] A3]. wp_steps. apply wp_on_ker. unfold upd_proc. wp_steps.
  assert (K2 : KRUN k2) by (by apply (KRUN_steady k1)).
  apply restart_run.
  - by apply KRUN_upd.
  - destruct A2 as [[[_ _ A2] _ _ _] _]. change (k_reenter k2 = 0). congruence.
  - exact A3.
  - apply HI.
Qed.

Lemma trp_run c m : INV membase m -> entry_ok (Exception c) m ->
  wp (trp membase c) (fun _ m' => INV membase m') m.
Proof.
  intros HI (Hm & Hi). unfold trp. wp_steps. apply wp_on_ker.
  eapply wp_mono; [by apply save_run|]. intros [] k1 (K1 & R1 & S1 & P1 & _ & _ & Hmode). wp_steps.
  apply wp_on_ker. change (mker (set_ker m k1)) with k1. unfold trap. wp_steps. rewrite Hmode.
  assert (Hnt : istaskp (proc_ptr k1) = false).
  { rewrite P1. apply not_true_is_false. intros E%task_small. lia. }
  rewrite Hnt. wp_steps. destruct (running_slot k1 (kr_ki _ K1) (kr_run _ K1)) as (Hso & _ & _).
  assert (Hnr : p_nr (P (proc_ptr k1) k1) = Z.of_nat (proc_ptr k1) - NR_TASKS) by (apply (kr_ki _ K1); done).
  eapply wp_mono; [apply cause_sig_run; [done|]|].
  { rewrite Hnr, P1 in *. unfold slot_ok, NR_SLOTS, NR_TASKS, NR_PROCS in *. lia. }
  intros [] k2 (A1 & [[[_ _ A2] _ _ _] _] & A3). apply restart_run; [done| |by apply A3|apply HI].
  change (k_reenter k2 = 0). congruence.
Qed.

(** The running process and its map stay the same. *)
Lemma sees_image_same m m' : mmmu m' = mmmu m -> proc_ptr (mker m') = proc_ptr (mker m) ->
  p_map (P (proc_ptr (mker m)) (mker m')) = p_map (P (proc_ptr (mker m)) (mker m)) -> sees_image membase m -> sees_image membase m'.
Proof. intros E1 E2 E3 H. unfold sees_image. rewrite E1, E2, E3. exact H. Qed.

Lemma calm_map k k' i : calm k k' -> p_map (P i k') = p_map (P i k).
Proof. intros [H _ _]. specialize (H i). unfold fixed_part in H. congruence. Qed.

Lemma async_run c tasks m : INV membase m -> entry_ok (Interrupts c tasks) m ->
  wp (async membase c tasks) (fun _ m' => INV membase m') m.
Proof.
  intros HI (Hm & Ht). pose proof HI as [HK HM [Hre Hsw] Him]. unfold async, reenter. wp_steps.
  apply wp_on_ker. wp_steps. apply wp_on_ker.
  match goal with |- wp _ _ (mker (set_ker m ?x)) => set (k0 := x); change (mker (set_ker m k0)) with k0 end.
  assert (K0 : KRUN k0) by by apply KRUN_reenter.
  eapply wp_mono; [apply interrupts_run; [exact K0| |exact Hsw|exact Ht]|].
  { change (u8 (k_reenter (mker m) + 1) = 0). by rewrite Hre. }
  intros [] k1 (K1 & Hl & S1). wp_steps. apply wp_on_ker. wp_steps.
  match goal with |- context [set_ker (set_ker ?a k1) ?x] => set (k2 := x); set (m2 := set_ker (set_ker a k1) k2) end.
  assert (E2 : mker m2 = k2) by done. assert (M2 : mmmu m2 = mmmu m) by done.
  destruct Hl as (C1 & P1 & _ & _). assert (Hre1 : k_reenter k1 = 0).
  { rewrite (cm_re _ _ C1). change (u8 (k_reenter (mker m) + 1) = 0). by rewrite Hre. }
  assert (HI2 : INV membase m2).
  { split.
    - rewrite E2. by apply KRUN_reenter.
    - by rewrite M2.
    - rewrite E2. change (u8 (k_reenter k1 + -1) = 255 /\ switching k1 = false). by rewrite Hre1.
    - apply (sees_image_same m); [done|rewrite E2; exact P1| |done]. rewrite E2.
      change (p_map (P (proc_ptr (mker m)) k1) = p_map (P (proc_ptr (mker m)) k0)). by apply calm_map. }
  clearbody m2. destruct (kernel_mode (sv_psw c)) eqn:Hmode; wp_steps; [done|].
  destruct (rdy_head (mker m2) !!! TASK_Q); wp_steps; [|done].
  apply wp_on_ker. eapply wp_mono; [apply (save_run c m2); [done|]|].
  { unfold mode_ok. rewrite Hmode, E2. change (proc_ptr k2) with (proc_ptr k1). rewrite P1. change (proc_ptr k0) with (proc_ptr (mker m)).
    unfold mode_ok in Hm. congruence. }
  intros [] k3 (K3 & R3 & S3 & _). wp_steps. apply wp_on_ker. change (mker (set_ker m2 k3)) with k3.
  pose proof (kr_ki _ K3) as (HS & HC & HA & HG).
  assert (H : wp lock_pick_proc (fun _ k4 => KI k4) k3).
  { eapply wp_mono; [apply lock_pick_proc_ok; by split_and!|]. intros [] k4 (A1 & A2 & _). apply KI_of_KI1; [done|]. by apply (SG_frame k3). }
  apply (wp_keeps steady) in H; [|apply lock_pick_proc_steady].
  eapply wp_mono; [apply (wp_wlp_and _ _ _ _ H (ends_lock pick_proc k3 S3))|].
  intros [] k4 [[A1 A2] A3]. apply restart_run; [by apply (KRUN_steady k3)| |exact A3|by rewrite <- M2 in HM].
  destruct A2 as [[[_ _ A2] _ _ _] _]. change (k_reenter k4 = 0). congruence.
Qed.
End steps.

(** ** The operations of the tasks *)

Section task_steps.
Context (membase : Z).

(** A task goes on: nothing is asked of the MMU. *)
Lemma INV_task m' : KRUN (mker m') -> k_reenter (mker m') = 255 -> switching (mker m') = false -> MI membase (mmmu m') ->
  istaskp (cur m') = true -> INV membase m'.
Proof. intros H1 H2 H3 H4 H5. split; [done|done|done|]. intros H. congruence. Qed.

Lemma in_task_runs m : INV membase m -> in_task m ->
  rdy_head (mker m) !!! TASK_Q = Some (cur m) /\ (cur m < 9)%nat /\ HW <> cur m.
Proof. intros [HK _ _ _] Ht. apply running_task; [apply HK|apply HK|exact Ht]. Qed.

(** A routine of a task at work. *)
Lemma task_run {A} (op : M sst A) m : INV membase m -> in_task m -> (in_step (cur m) (mker m) -> served (cur m) op (msys m)) ->
  wp (on_sys op;; mret tt) (fun _ m' => INV membase m') m.
Proof.
  intros HI Ht Hop. pose proof HI as [HK HM [Hre Hsw] _]. destruct (in_task_runs m HI Ht) as (Hh & Hc & Hhw).
  assert (HS : in_step (cur m) (mker m)) by (by split).
  wp_steps. unfold on_sys. apply wp_zoom. eapply wp_mono; [exact (Hop HS)|]. intros a s [K1 K2 K3 _ K5 K6 _]. wp_steps.
  apply INV_task; [exact K1|exact K2|exact K3|exact HM|]. change (istaskp (proc_ptr (ker s)) = true). by rewrite K5.
Qed.

Lemma signal_run n sg m : INV membase m -> entry_ok (TaskSignal n sg) m ->
  wp (on_ker (cause_sig n sg)) (fun _ m' => INV membase m') m.
Proof.
  intros HI (Ht & Hn). pose proof (task_run (in_ker (cause_sig n sg)) m HI Ht) as H.
  assert (Hs : in_step (cur m) (mker m) -> served (cur m) (in_ker (cause_sig n sg)) (msys m)).
  { intros HS. apply served_ker. by apply signal_step. }
  specialize (H Hs). revert H. unfold wp, on_ker, mbind, M_bind. by destruct (on_sys _ m).
Qed.

Definition same_switching (s s' : kst) : Prop := switching s' = switching s.
#[local] Instance same_switching_pre : PreOrder same_switching.
Proof. split; [by intros s|]. unfold same_switching. intros a b c. congruence. Qed.
Lemma interrupt_switching t : keeps same_switching (interrupt t).
Proof.
  assert (Hm : forall f, (forall s, switching (f s) = switching s) -> keeps same_switching (modify f)) by (intros; by apply keeps_modify).
  assert (Hu : forall i f, keeps same_switching (upd_proc i f)) by (intros; by apply Hm).
  assert (He : forall q rp, keeps same_switching (enqueue q rp)).
  { intros. unfold enqueue. keeps_auto; intros; by apply Hm. }
  unfold interrupt, put_msg. keeps_auto; intros; by apply Hm.
Qed.

(** Interrupts during a switch are held up. *)
Lemma nested_run t k : ok_task t -> KRUN k -> k_reenter k = 255 -> switching k = true ->
  wp (nested_interrupt t) (fun _ k' => KRUN k' /\ k_reenter k' = 255 /\ switching k' = true /\ proc_ptr k' = proc_ptr k) k.
Proof.
  intros Ht HK Hre Hsw. unfold nested_interrupt, reenter. wp_steps. set (k0 := k <| k_reenter ::= fun v => u8 (v + 1) |>).
  assert (K0 : KRUN k0) by by apply KRUN_reenter.
  pose proof K0 as [H1 [L H2] H3 H4 _ _ _]. pose proof (interrupt_hold_ok k0 L t H1 H2 Ht (or_intror Hsw)) as H.
  apply (wp_keeps lively) in H; [|apply interrupt_lively].
  apply (wp_keeps same_switching) in H; [|apply interrupt_switching].
  eapply wp_mono; [exact H|]. intros [] k1 [[(A1 & A2 & A3 & _) (C1 & C2 & C3 & _)] A4]. wp_steps. split_and!.
  - apply KRUN_reenter, (KRUN_calm k0); auto; [by eexists|]. intros j Hj. rewrite (proj1 (A3 j)). by apply H3.
  - change (u8 (k_reenter k1 + -1) = 255). rewrite (cm_re _ _ C1). change (u8 (u8 (k_reenter k + 1) + -1) = 255). by rewrite Hre.
  - exact (eq_trans A4 Hsw).
  - exact C2.
Qed.

Lemma held_run tasks k : Forall ok_task tasks -> KRUN k -> k_reenter k = 255 -> switching k = true ->
  wp (for_each tasks nested_interrupt) (fun _ k' => KRUN k' /\ k_reenter k' = 255 /\ proc_ptr k' = proc_ptr k) k.
Proof.
  intros Ht. revert k. induction Ht as [|t ts Ht Hts IH]; intros k HK Hre Hsw; cbn [for_each]; [by wp_steps|].
  wp_steps. eapply wp_mono; [by apply nested_run|]. intros [] k1 (A1 & A2 & A3 & A4).
  eapply wp_mono; [by apply IH|]. intros [] k2 (B1 & B2 & B3). split_and!; [done|done|congruence].
Qed.

Lemma sched_run tasks m : INV membase m -> entry_ok (TaskSched tasks) m ->
  wp (on_ker (sched_interrupted tasks)) (fun _ m' => INV membase m') m.
Proof.
  intros HI (Ht & Hts). pose proof HI as [HK HM [Hre Hsw] _]. destruct (in_task_runs m HI Ht) as (Hh & Hc & Hhw).
  apply wp_on_ker. unfold sched_interrupted. apply wp_lock. set (k0 := (mker m) <| switching := true |>). wp_steps.
  assert (K0 : KRUN k0) by by apply (KRUN_globals (mker m)).
  pose proof (KI_sched k0 (kr_ki _ K0)) as H.
  apply (wp_keeps steady) in H; [|apply sched_steady]. apply (wp_keeps (tasking (cur m))) in H; [|apply sched_tasking].
  assert (Hs : keeps same_switching sched).
  { assert (Hm : forall f, (forall s, switching (f s) = switching s) -> keeps same_switching (modify f)) by (intros; by apply keeps_modify).
    assert (Hu : forall i f, keeps same_switching (upd_proc i f)) by (intros; by apply Hm).
    unfold sched, pick_proc. keeps_auto; intros; by apply Hm. }
  apply (wp_keeps same_switching) in H; [|exact Hs].
  eapply wp_mono; [exact H|]. intros [] k1 [[[A1 A2] A3] A4]. destruct (A3 Hh eq_refl) as [_ A5].
  assert (K1 : KRUN k1) by by apply (KRUN_steady k0).
  eapply wp_mono; [apply held_run; [done|done| |exact A4]|].
  { destruct A2 as [[[_ _ A2] _ _ _] _]. rewrite A2. exact Hre. }
  intros [] k2 (B1 & B2 & B3).
  apply INV_task; [by apply (KRUN_globals k2)|exact B2|done|exact HM|].
  change (istaskp (proc_ptr k2) = true). rewrite B3, A5. exact Ht.
Qed.

End task_steps.

(** ** From start-up on *)

Lemma map_ok_identity mp :
  (forall x, x ∈ [seg_T mp; seg_D mp; seg_S mp] -> mem_phys x = mem_vir x /\ 0 <= mem_vir x /\ 0 <= mem_len x /\
     mem_vir x + mem_len x <= 64512) -> map_ok mp.
Proof.
  intros H. assert (Hd : forall x, x ∈ nonempty mp -> seg_delta x = 0).
  { intros x [Hx _]%nonempty_in. unfold seg_delta. destruct (H x Hx) as (-> & _). lia. }
  assert (H0 : img_delta mp = 0).
  { unfold img_delta. destruct (last (seg_delta <$> nonempty mp)) as [d|] eqn:E; [|done]. cbn.
    apply last_Some_elem_of, list_elem_of_fmap in E as (x & -> & Hx). by apply Hd. }
  split.
  - intros x Hx. destruct (H x Hx) as (-> & ?). lia.
  - intros x Hx. by rewrite H0, Hd.
  - by rewrite H0.
  - unfold img_hi. assert (Hall : Forall (fun z => z <= 126 * 131072) ((fun m => (mem_vir m + mem_len m) * 256) <$> nonempty mp)).
    { apply Forall_fmap, Forall_forall. intros x [Hx _]%nonempty_in. destruct (H x Hx). cbn. lia. }
    induction Hall as [|z l Hz Hl IH]; [done|]. cbn [foldr]. lia.
Qed.

Section reach.
(** The build and the loader: sizes in clicks, addresses of the kernel's data
    and of the tasks, where memory is and where it ends. *)
Context (sizes : list Z) (t_stack : Z) (initial_pc : nat -> Z) (mem : gmap Z message) (buf membase memend : Z)
  (proc_at : nat -> Z).

Record config_ok : Prop := {
  cf_base : membase mod 512 = 0;
  cf_sizes : clicks sizes 8 <= 64512;
  cf_buf : 0 <= buf /\ buf + MESS_SIZE <= 65535 * CLICK_SIZE;
}.

(** The machine when the loader jumps to the kernel. *)
Record cold (m : machine) : Prop := {
  co_ker : mker m = kst_bss mem buf;
  co_mmu : boot_ok (mmmu m) /\ cur_ctx (mmmu m) = -1;
  co_vdu : mvdu m = vdu0;
}.

(** [start] of lisampx.s. *)
Definition start : M machine unit :=
  main sizes t_stack initial_pc membase memend;;
  restart membase.

Inductive reachable : machine -> Prop :=
| reach_start m0 m : cold m0 -> start m0 = Done tt m -> reachable m
| reach_step m e m' : reachable m -> entry_ok e m -> run membase memend proc_at e m = Done tt m' -> reachable m'.

Context (Hcf : config_ok).

Lemma boot_KRUN : KRUN (boot_kst sizes t_stack initial_pc mem buf).
Proof.
  destruct Hcf as [_ Hs [Hb0 Hb1]].
  assert (HP := boot_P sizes t_stack initial_pc mem buf).
  assert (Hc : forall k, (k <= 8)%nat -> 0 <= clicks sizes k <= 64512).
  { intros k Hk. pose proof (clicks_mono sizes k 8 Hk). lia. }
  split.
  - by apply boot_KI.
  - exists []. apply boot_HQ.
  - apply boot_TK.
  - right. exists TASK_Q. split; [vm_compute; lia|done].
  - intros i Hi Hh. rewrite HP by done.
    assert (H := all_slots (fun i => Nat.eqb i 8 || Bool.eqb (kernel_mode (p_psw (boot_proc sizes t_stack initial_pc i))) (istaskp i))
      ltac:(by vm_compute) i Hi). cbn beta in H. apply orb_true_iff in H as [H%Nat.eqb_eq|H%Bool.eqb_prop]; [|done]. by rewrite H in Hh.
  - intros i Hi. rewrite HP by (unfold slot_ok, NR_SLOTS; lia).
    transitivity (mem_len (seg_S (boot_map sizes i))); [unfold boot_proc; by rewrite decide_True by lia|].
    unfold boot_map. by rewrite decide_True by lia.
  - intros i Hi Ht Hh Hf. apply map_ok_identity.
    assert (Hm : p_map (P i (boot_kst sizes t_stack initial_pc mem buf)) = boot_map sizes i).
    { rewrite HP by done. unfold boot_proc. by repeat case_decide. }
    rewrite Hm. rewrite boot_flags in Hf by done. destruct (decide (i < 12)%nat); [|done].
    apply not_task in Ht. destruct (decide (9 <= i)%nat) as [H9|H9].
    + assert (Hi3 : (i - 9 < 3)%nat) by lia.
      pose proof (Hc (2 * (i - 9) + 2)%nat ltac:(lia)) as A. pose proof (Hc (S (2 * (i - 9) + 2)) ltac:(lia)) as B.
      pose proof (Hc (S (S (2 * (i - 9) + 2))) ltac:(lia)) as C. rewrite clicks_S in B. rewrite !clicks_S in C.
      pose proof (size_range sizes (2 * (i - 9) + 2)). pose proof (size_range sizes (S (2 * (i - 9) + 2))).
      unfold boot_map. rewrite (decide_False (P := (i < 9)%nat)), (decide_True (P := (i < 12)%nat)) by lia. rewrite (image_base_clicks sizes (i - 9) ltac:(lia) ltac:(lia)). cbv zeta.
      replace (2 * (i - 9) + 3)%nat with (S (2 * (i - 9) + 2)) by lia.
            rewrite (u16_id (clicks sizes _ + _)) by lia. rewrite (u16_id (_ + _ + _)) by lia.
      intros x Hx. rewrite !elem_of_cons, elem_of_nil in Hx. destruct Hx as [->|[->|[->|[]]]]; cbn [seg_T seg_D seg_S mem_phys mem_vir mem_len]; lia.
    + destruct Ht as [->|?]; [|lia]. change (boot_map sizes IDLEP) with
        (mk_segs (mk_map 0 0 (size sizes 0)) (mk_map (size sizes 0) (size sizes 0) (size sizes 1))
          (mk_map (u16 (size sizes 0 + size sizes 1)) (u16 (size sizes 0 + size sizes 1)) 0)).
      pose proof (Hc 2%nat ltac:(lia)) as A. change 2%nat with (S (S 0)) in A. rewrite !clicks_S in A. change (clicks sizes 0) with 0 in A.
      pose proof (size_range sizes 0). pose proof (size_range sizes 1). rewrite u16_id by lia.
      intros x Hx. rewrite !elem_of_cons, elem_of_nil in Hx. destruct Hx as [->|[->|[->|[]]]]; cbn [seg_T seg_D seg_S mem_phys mem_vir mem_len]; lia.
Qed.

Lemma start_run m : cold m -> wp start (fun _ m' => INV membase m') m.
Proof.
  intros [Hk [Hm Hc] Hv]. unfold start, main. wp_steps.
  eapply wp_mono; [by apply initlisa_ok|]. intros [] m1 (K1 & HM & _ & _). apply wp_on_ker. rewrite K1, Hk.
  unfold wp at 1. rewrite main_table_runs. apply restart_run; [apply Hcf|exact boot_KRUN|done|done|exact HM].
Qed.

Lemma step_run e m : INV membase m -> entry_ok e m -> wp (run membase memend proc_at e) (fun _ m' => INV membase m') m.
Proof.
  intros HI He. destruct e; cbn [run]; [apply sys_run|apply trp_run|apply async_run|apply sched_run|apply signal_run|];
    try (done || apply Hcf).
  destruct He as [Ht Hr]. apply task_run; [done|done|]. intros HS. by apply turn_step.
Qed.

Lemma reachable_INV m : reachable m -> INV membase m.
Proof.
  induction 1 as [m0 m Hc Hs|m e m' Hr IH He Hs].
  - pose proof (start_run m0 Hc) as H. unfold wp in H. by rewrite Hs in H.
  - pose proof (step_run e m IH He) as H. unfold wp in H. by rewrite Hs in H.
Qed.
End reach.


(** The demonstration machine, started: an interrupt for the clock task; then,
    in the same state, a request to send signal 15 to init. *)
Definition demo_pc (i : nat) : Z := 4096 + 64 * Z.of_nat i.
Lemma demo_start_tty : match start demo_sizes 65537 demo_pc 0 1048576 cold_machine with Done _ m => cur m = 0%nat | _ => False end.
Proof. vm_compute. reflexivity. Qed.

Definition demo_proc_at (i : nat) : Z := 20480 + SIZEOF_PROC * Z.of_nat i.
Definition demo_kill : message := put_int 1 15 (put_int 0 2 (mk_msg 0 SYS_KILL (replicate 11 0))).

