(* ===== verification/Driver.v ===== *)
(** * What the disk tasks share: [do_vrdwt] of [src/kernel/misc.c]

    A driver works on a state of its own that contains the kernel's and
    physical memory (class [HasSys]). [do_vrdwt] unpacks a vector of requests
    for a driver that transfers one run of blocks at a time; what a driver has
    to promise for that is the class [BlockDriver], and what [do_vrdwt] then
    does to the blocks and to the users' memory is [vrdwt_spec]. *)

From S2P Require Import Prelude KProc KSystem.

Definition DISK_READ : Z := 3.
Definition DISK_WRITE : Z := 4.
Definition DISK_IOCTL : Z := 5.
Definition SCATTERED_IO : Z := 6.
Definition OPTIONAL_IO : Z := 16.
Definition NR_BUFS : Z := 30.
Definition BLOCK_SIZE : Z := 1024.
Definition EINVAL : Z := -22.
Definition ENXIO : Z := -6.
Definition E_BAD_ADDR : Z := -10.

(** Register accesses of a device with states [D]; all values are bytes. *)
Class Port (D : Type) := {
  port_rd : Z -> D -> Z * D;
  port_wr : Z -> Z -> D -> D;
}.

(** A request to a disk task: message format m2. *)
Record dreq := mk_dreq {
  rq_type : Z; DEVICE : Z; PROC_NR : Z; COUNT : Z; POSITION : Z; ADDRESS : Z }.
#[export] Instance dreq_upd : Updatable dreq := fun r =>
  mk_dreq (rq_type r) (DEVICE r) (PROC_NR r) (COUNT r) (POSITION r) (ADDRESS r).

(** A reply: to whom, for whom, with what status. *)
Record dreply := mk_dreply { dr_to : Z; dr_proc : Z; dr_status : Z }.

(** A state with the kernel's in it. *)
Class HasSys (X : Type) := {
  the_sys : X -> sst;
  put_sys : sst -> X -> X;
  the_put k s : the_sys (put_sys k s) = k;
  put_put k k' s : put_sys k (put_sys k' s) = put_sys k s;
  put_the s : put_sys (the_sys s) s = s;
}.
Definition in_sst {X} `{HasSys X} {A} (m : M sst A) : M X A := zoom the_sys put_sys m.
Definition memory {X} `{HasSys X} (s : X) : Z -> Z := pmem (the_sys s).

(** [struct iorequest_s]: position, buffer, count, request. *)
Definition IOREQ_SIZE : Z := 12.
Definition get32 (m : Z -> Z) (a : Z) : Z := get16 m a * 65536 + get16 m (a + 2).
Definition poke16 {X} `{HasSys X} (a v : Z) : M X unit := in_sst (modify (fun s => s <| pmem ::= put_bytes a (be16 v) |>)).

Section vrdwt.
Context {X : Type} `{HasSys X}.
(** The address of [iovec]. *)
Context (iovec : Z).

(** The loop over [n] requests, from number [request] on. *)
Fixpoint vrdwt_loop (do_rdwt : dreq -> M X Z) (device proc_nr : Z) (n : nat) (request : Z) : M X unit :=
  match n with
  | O => mret tt
  | S n' =>
      let iop := iovec + IOREQ_SIZE * request in
      m ← gets memory;
      result ← do_rdwt (mk_dreq (Z.land (get16 m (iop + 10)) (Z.lnot OPTIONAL_IO)) device proc_nr
                          (s16 (get16 m (iop + 8))) (s32 (get32 m iop)) (s32 (get32 m (iop + 4))));
      if result =? 0 then mret tt else
      m ← gets memory;
      if result <? 0 then
        poke16 (iop + 8) result;;
        if tst (get16 m (iop + 10)) OPTIONAL_IO then mret tt
        else vrdwt_loop do_rdwt device proc_nr n' (request + 1)
      else
        poke16 (iop + 8) (get16 m (iop + 8) - result);;
        vrdwt_loop do_rdwt device proc_nr n' (request + 1)
  end.

Definition do_vrdwt (rq : dreq) (do_rdwt : dreq -> M X Z) : M X Z :=
  let nr_requests := u16 (COUNT rq) in
  if NR_BUFS <? nr_requests then panic "FS gave some driver too big an i/o vector" else
  me ← gets (fun s => P (proc_ptr (ker (the_sys s))) (ker (the_sys s)));
  let iovec_phys := umap me seg_D_nr iovec (NR_BUFS * IOREQ_SIZE) in
  user_iovec_phys ← in_sst (numap (PROC_NR rq) (ADDRESS rq) (nr_requests * IOREQ_SIZE));
  if user_iovec_phys =? 0 then panic "FS gave some driver bad i/o vector" else
  in_sst (phys_copy user_iovec_phys iovec_phys (nr_requests * IOREQ_SIZE));;
  vrdwt_loop do_rdwt (DEVICE rq) (PROC_NR rq) (Z.to_nat nr_requests) 0;;
  in_sst (phys_copy iovec_phys user_iovec_phys (nr_requests * IOREQ_SIZE));;
  mret OK.
End vrdwt.

(** ** Stretches of memory *)

(** The [n] bytes at [a]. *)
Definition bytes_of (m : Z -> Z) (a : Z) (n : nat) : list Z := (fun i => m (a + Z.of_nat i)) <$> seq 0 n.
Definition within (a base n : Z) : Prop := base <= a < base + n.

Lemma bytes_of_length m a n : length (bytes_of m a n) = n.
Proof. unfold bytes_of. by rewrite length_fmap, length_seq. Qed.

Lemma bytes_of_lookup m a n i : (i < n)%nat -> bytes_of m a n !!! i = m (a + Z.of_nat i).
Proof.
  intros Hi. unfold bytes_of. apply list_lookup_total_correct. rewrite list_lookup_fmap, lookup_seq_lt by done. done.
Qed.

Lemma bytes_of_ext m m' a a' n : (forall i, 0 <= i < Z.of_nat n -> m (a + i) = m' (a' + i)) -> bytes_of m a n = bytes_of m' a' n.
Proof.
  intros He. unfold bytes_of. apply list_fmap_ext. intros i j Hj. apply lookup_seq in Hj as [-> Hj]. cbn. apply He. lia.
Qed.

Lemma mem_copy_in src dst n m a : within a dst n -> mem_copy src dst n m a = m (src + (a - dst)).
Proof. unfold within, mem_copy. intros [H1 H2]. by rewrite (proj2 (Z.leb_le _ _)), (proj2 (Z.ltb_lt _ _)) by lia. Qed.
Lemma mem_copy_out src dst n m a : ~ within a dst n -> mem_copy src dst n m a = m a.
Proof.
  unfold within, mem_copy. intros Ha. destruct (dst <=? a) eqn:E1; [|done]. destruct (a <? dst + n) eqn:E2; [|done].
  apply Z.leb_le in E1. apply Z.ltb_lt in E2. lia.
Qed.

Lemma put_bytes_in a l m x : within x a (Z.of_nat (length l)) -> put_bytes a l m x = l !!! Z.to_nat (x - a).
Proof. unfold within, put_bytes. intros [H1 H2]. by rewrite (proj2 (Z.leb_le _ _)), (proj2 (Z.ltb_lt _ _)) by lia. Qed.
Lemma put_bytes_out a l m x : ~ within x a (Z.of_nat (length l)) -> put_bytes a l m x = m x.
Proof.
  unfold within, put_bytes. intros Ha. destruct (a <=? x) eqn:E1; [|done]. destruct (x <? a + _) eqn:E2; [|done].
  apply Z.leb_le in E1. apply Z.ltb_lt in E2. lia.
Qed.

Lemma bytes_of_copied src dst n m : bytes_of (mem_copy src dst (Z.of_nat n) m) dst n = bytes_of m src n.
Proof. apply bytes_of_ext. intros i Hi. rewrite mem_copy_in by (unfold within; lia). f_equal. lia. Qed.
Lemma put_bytes_copy src dst n m a : put_bytes dst (bytes_of m src n) m a = mem_copy src dst (Z.of_nat n) m a.
Proof.
  destruct (decide (within a dst (Z.of_nat n))) as [Hi|Ho].
  - rewrite put_bytes_in, mem_copy_in by (rewrite ?bytes_of_length; done). unfold within in Hi. rewrite bytes_of_lookup by lia.
    f_equal. lia.
  - by rewrite put_bytes_out, mem_copy_out by (rewrite ?bytes_of_length; done).
Qed.

(** ** Words in memory *)
Lemma get16_be16 m a v : bytes_of m a 2 = be16 v -> get16 m a = u16 v.
Proof.
  intros E. unfold be16 in E. cbn in E. injection E as E0 E1. unfold get16. rewrite Z.add_0_r in E0. change (Z.of_nat 1) with 1 in E1. rewrite E0, E1.
  unfold u8, u16. rewrite Z.shiftr_div_pow2 by done. change (2 ^ 8) with 256. zlia.
Qed.

Lemma bytes_of_app m a n k : bytes_of m a (n + k) = bytes_of m a n ++ bytes_of m (a + Z.of_nat n) k.
Proof.
  unfold bytes_of. rewrite seq_app, fmap_app. f_equal. rewrite Nat.add_0_l, <- (Nat.add_0_r n) at 1.
  rewrite <- fmap_add_seq, <- list_fmap_compose. apply list_fmap_ext. intros i j _. cbn. f_equal. lia.
Qed.

Lemma bytes_of_split m a n k l1 l2 : bytes_of m a (n + k) = l1 ++ l2 -> length l1 = n ->
  bytes_of m a n = l1 /\ bytes_of m (a + Z.of_nat n) k = l2.
Proof. rewrite bytes_of_app. intros E Hl. apply app_inj_1 in E; [done|]. by rewrite bytes_of_length. Qed.

Lemma get32_be32 m a v : bytes_of m a 4 = be32 v -> get32 m a = u32 v.
Proof.
  intros E. apply (bytes_of_split m a 2 2) in E as [E1 E2]; [|done].
  apply get16_be16 in E1, E2. unfold get32. change (Z.of_nat 2) with 2 in E2. rewrite E1, E2.
  unfold u16, u32. rewrite Z.shiftr_div_pow2 by done. change (2 ^ 16) with 65536. zlia.
Qed.

Lemma bytes_of_put a l m : bytes_of (put_bytes a l m) a (length l) = l.
Proof.
  apply list_eq. intros i. destruct (decide (i < length l)%nat) as [Hi|Hi].
  - unfold bytes_of. rewrite list_lookup_fmap, lookup_seq_lt by done. cbn. rewrite put_bytes_in by (unfold within; lia).
    replace (Z.to_nat (a + Z.of_nat i - a)) with i by lia. symmetry. apply list_lookup_lookup_total_lt. lia.
  - rewrite !lookup_ge_None_2; [done|lia|rewrite bytes_of_length; lia].
Qed.

Lemma bytes_of_put_out b l a n m : b + Z.of_nat (length l) <= a \/ a + Z.of_nat n <= b ->
  bytes_of (put_bytes b l m) a n = bytes_of m a n.
Proof. intros Ho. apply bytes_of_ext. intros i Hi. apply put_bytes_out. unfold within. lia. Qed.

Lemma s32_u32 v : s32 (u32 v) = s32 v.
Proof. unfold s32, u32, sx. by rewrite Z.mod_mod. Qed.

(** ** What always ends

    [total R m]: [m] returns, from any state, and relates it to the one it
    ends in by [R]. *)
Definition total {X A} (R : X -> X -> Prop) (m : M X A) : Prop := forall s, wp m (fun _ s' => R s s') s.

Section total.
Context {X : Type} (R : X -> X -> Prop) `{!PreOrder R}.
Lemma total_ret {A} (a : A) : total R (mret a).
Proof. intros s. by apply wp_ret. Qed.
Lemma total_gets {A} (f : X -> A) : total R (gets f).
Proof. intros s. by apply wp_gets. Qed.
Lemma total_bind {A B} (m : M X A) (k : A -> M X B) : total R m -> (forall a, total R (k a)) -> total R (m ≫= k).
Proof.
  intros Hm Hk s. apply wp_bind. eapply wp_mono; [apply Hm|]. cbn beta. intros a s1 H1.
  eapply wp_mono; [apply Hk|]. cbn beta. intros b s2 H2. by transitivity s1.
Qed.
Lemma total_if {A} (b : bool) (m1 m2 : M X A) : total R m1 -> total R m2 -> total R (if b then m1 else m2).
Proof. by destruct b. Qed.
Lemma total_when b (m : M X unit) : total R m -> total R (when b m).
Proof. destruct b; [done|intros _; apply total_ret]. Qed.
Lemma total_modify f : (forall s, R s (f s)) -> total R (modify f).
Proof. intros Hf s. apply wp_modify, Hf. Qed.
End total.

Create HintDb total_db.
#[export] Hint Resolve total_ret total_gets : total_db.
(** Goes over the text of a function; the hints know the routines it calls. *)
Ltac total_tac := repeat lazymatch goal with
  | |- total _ (_ ≫= _) => apply total_bind; [apply _| |intros ?]
  | |- total _ (if _ then _ else _) => apply total_if
  | |- total _ (when _ _) => apply total_when; [apply _|]
  | |- total _ (modify _) => apply total_modify; by split
  | |- total _ _ => solve [eauto with total_db typeclass_instances]
  | |- _ => progress intros
  end.

(** ** What a driver promises *)

(** The kernel's process table as the address translation sees it. *)
Definition same_maps (k k' : kst) : Prop := proc_ptr k' = proc_ptr k /\ forall i, p_map (P i k') = p_map (P i k).
#[export] Instance same_maps_po : PreOrder same_maps.
Proof.
  split; [by intros k|]. intros k1 k2 k3 [A1 A2] [B1 B2]. split; [congruence|]. intros i. by rewrite B2, A2.
Qed.

Lemma umap_same p p' seg vir n : p_map p' = p_map p -> umap p' seg vir n = umap p seg vir n.
Proof. intros E. unfold umap. by rewrite E. Qed.

Definition kern {X} `{HasSys X} (s : X) : kst := ker (the_sys s).
Definition set_memory {X} `{HasSys X} (m : Z -> Z) (s : X) : X := put_sys ((the_sys s) <| pmem := m |>) s.
Lemma memory_set {X} `{HasSys X} m (s : X) : memory (set_memory m s) = m.
Proof. unfold memory, set_memory. by rewrite the_put. Qed.
Lemma kern_set {X} `{HasSys X} m (s : X) : kern (set_memory m s) = kern s.
Proof. unfold kern, set_memory. by rewrite the_put. Qed.

Definition set_block (d b : Z) (data : list Z) (f : Z -> Z -> list Z) : Z -> Z -> list Z :=
  fun d' b' => if decide (d' = d /\ b' = b) then data else f d' b'.

Section driver.
Context {X : Type} `{HasSys X} (do_rdwt : dreq -> M X Z).

(** A transfer of block [blk] of a device with [size] blocks, from or to the
    physical address [u], which is not the driver's own memory. *)
Record block_request (own : Z -> Prop) (size : Z) (s : X) (rq : dreq) (blk u : Z) : Prop := {
  br_count : COUNT rq = BLOCK_SIZE;
  br_position : POSITION rq = blk * BLOCK_SIZE;
  br_blk : 0 <= blk < size;
  br_umap : umap (P (proc_addr (PROC_NR rq)) (kern s)) seg_D_nr (ADDRESS rq) BLOCK_SIZE = u;
  br_u : u <> 0;
  br_free a : within a u BLOCK_SIZE -> ~ own a;
}.

Class BlockDriver := {
  bd_ok : X -> Prop;
  bd_own : Z -> Prop;
  bd_size : Z -> Z;
  bd_block : X -> Z -> Z -> list Z;
  bd_length s d b : bd_ok s -> length (bd_block s d b) = Z.to_nat BLOCK_SIZE;
  bd_ext s m : bd_ok s -> (forall a, bd_own a -> m a = memory s a) ->
    bd_ok (set_memory m s) /\ forall d b, bd_block (set_memory m s) d b = bd_block s d b;
  bd_read s rq blk u : bd_ok s -> rq_type rq = DISK_READ -> block_request bd_own (bd_size (DEVICE rq)) s rq blk u ->
    wp (do_rdwt rq) (fun r s' => r = BLOCK_SIZE /\ bd_ok s' /\ same_maps (kern s) (kern s') /\
      (forall d b, bd_block s' d b = bd_block s d b) /\
      forall a, ~ bd_own a -> memory s' a = put_bytes u (bd_block s (DEVICE rq) blk) (memory s) a) s;
  bd_write s rq blk u : bd_ok s -> rq_type rq = DISK_WRITE -> block_request bd_own (bd_size (DEVICE rq)) s rq blk u ->
    wp (do_rdwt rq) (fun r s' => r = BLOCK_SIZE /\ bd_ok s' /\ same_maps (kern s) (kern s') /\
      (forall d b, bd_block s' d b =
         set_block (DEVICE rq) blk (bytes_of (memory s) u (Z.to_nat BLOCK_SIZE)) (bd_block s) d b) /\
      forall a, ~ bd_own a -> memory s' a = memory s a) s;
}.
End driver.
Arguments bd_ok {X _ do_rdwt _} _.
Arguments bd_own {X _ do_rdwt _} _.
Arguments bd_size {X _ do_rdwt _} _.
Arguments bd_block {X _ do_rdwt _} _ _ _.
Arguments bd_length {X _ do_rdwt _} _ _ _ _.
Arguments bd_ext {X _ do_rdwt _} _ _ _ _.
Arguments bd_read {X _ do_rdwt _} _ _ _ _ _ _ _.
Arguments bd_write {X _ do_rdwt _} _ _ _ _ _ _ _.

(** ** Vectors of requests *)

(** A request of a vector: block, user address, code. *)
Record vreq := mk_vreq { v_blk : Z; v_buf : Z; v_req : Z }.
Definition v_write (v : vreq) : bool := v_req v =? DISK_WRITE.
(** As it lies in memory, with the count of bytes still to be transferred. *)
Definition vreq_bytes (v : vreq) (nbytes : Z) : list Z :=
  be32 (v_blk v * BLOCK_SIZE) ++ be32 (v_buf v) ++ be16 nbytes ++ be16 (v_req v).

Record vreq_ok (size : Z) (v : vreq) : Prop := {
  vo_blk : 0 <= v_blk v < size /\ v_blk v * BLOCK_SIZE < 2 ^ 31;
  vo_buf : - 2 ^ 31 <= v_buf v < 2 ^ 31;
  vo_req : v_req v = DISK_WRITE \/ v_req v = DISK_READ \/ v_req v = DISK_READ + OPTIONAL_IO;
}.

(** What a request does to the device's blocks and to memory; [u] gives the
    physical address of its buffer. *)
Definition vrdwt_step (d : Z) (u : vreq -> Z) (v : vreq) (st : (Z -> Z -> list Z) * (Z -> Z)) : (Z -> Z -> list Z) * (Z -> Z) :=
  let (B, m) := st in
  if v_write v then (set_block d (v_blk v) (bytes_of m (u v) (Z.to_nat BLOCK_SIZE)) B, m)
  else (B, put_bytes (u v) (B d (v_blk v)) m).
Fixpoint vrdwt_spec (d : Z) (u : vreq -> Z) (l : list vreq) (st : (Z -> Z -> list Z) * (Z -> Z)) : (Z -> Z -> list Z) * (Z -> Z) :=
  match l with
  | [] => st
  | v :: l' => vrdwt_spec d u l' (vrdwt_step d u v st)
  end.

Lemma bytes_of_12 m a :
  bytes_of m a 12 = bytes_of m a 4 ++ bytes_of m (a + 4) 4 ++ bytes_of m (a + 8) 2 ++ bytes_of m (a + 10) 2.
Proof.
  change 12%nat with (4 + (4 + (2 + 2)))%nat. rewrite !bytes_of_app, <- !Z.add_assoc. done.
Qed.

Lemma vreq_bytes_iff m a v n : bytes_of m a 12 = vreq_bytes v n <->
  bytes_of m a 4 = be32 (v_blk v * BLOCK_SIZE) /\ bytes_of m (a + 4) 4 = be32 (v_buf v) /\
  bytes_of m (a + 8) 2 = be16 n /\ bytes_of m (a + 10) 2 = be16 (v_req v).
Proof.
  rewrite bytes_of_12. unfold vreq_bytes. split; [|by intros (-> & -> & -> & ->)].
  intros E. apply app_inj_1 in E as [E1 E]; [|by rewrite bytes_of_length].
  apply app_inj_1 in E as [E2 E]; [|by rewrite bytes_of_length]. apply app_inj_1 in E as [E3 E4]; [done|by rewrite bytes_of_length].
Qed.

Lemma vreq_parts m a v n : bytes_of m a 12 = vreq_bytes v n ->
  get32 m a = u32 (v_blk v * BLOCK_SIZE) /\ get32 m (a + 4) = u32 (v_buf v) /\ get16 m (a + 8) = u16 n /\
  get16 m (a + 10) = u16 (v_req v).
Proof.
  intros E. apply vreq_bytes_iff in E as (E1 & E2 & E3 & E4). split_and!; by first [apply get32_be32|apply get16_be16].
Qed.

(** The count is two bytes of twelve. *)
Lemma vreq_poke m a v n n' : bytes_of m a 12 = vreq_bytes v n ->
  bytes_of (put_bytes (a + 8) (be16 n') m) a 12 = vreq_bytes v n'.
Proof.
  rewrite !vreq_bytes_iff. intros (E1 & E2 & E3 & E4). 
  split_and!; [rewrite bytes_of_put_out by (cbn; lia); done..| |rewrite bytes_of_put_out by (cbn; lia); done]. exact (bytes_of_put (a + 8) (be16 n') m).
Qed.

Section vector.
Context {X : Type} `{HasSys X} (do_rdwt : dreq -> M X Z) `{!BlockDriver do_rdwt}.
Context (iovec d proc_nr : Z) (u : vreq -> Z) (k0 : kst).

Definition IOVEC_BYTES : Z := NR_BUFS * IOREQ_SIZE.

(** The requests are good, and their buffers lie in the user's memory. *)
Record vector_ok (l : list vreq) : Prop := {
  vec_size : (length l <= 30)%nat;
  vec_req v : v ∈ l -> vreq_ok (bd_size d) v;
  vec_umap v : v ∈ l -> umap (P (proc_addr proc_nr) k0) seg_D_nr (v_buf v) BLOCK_SIZE = u v /\ u v <> 0;
  vec_free v a : v ∈ l -> within a (u v) BLOCK_SIZE -> ~ bd_own a /\ ~ within a iovec IOVEC_BYTES;
  vec_iovec a : within a iovec IOVEC_BYTES -> ~ bd_own a;
}.

Lemma vector_ok_tail v l : vector_ok (v :: l) -> vector_ok l.
Proof. intros [H1 H2 H3 H4 H5]. split; [cbn in H1; lia| | | |done]; intros; eauto using list_elem_of_further. Qed.

Lemma wp_poke16 a v (s : X) Q : Q tt (set_memory (put_bytes a (be16 v) (memory s)) s) -> wp (poke16 a v) Q s.
Proof. intros HQ. unfold poke16, in_sst. apply wp_zoom, wp_modify. exact HQ. Qed.

(** The memory that a transfer leaves alone. *)
Definition outside (a : Z) : Prop := ~ bd_own a /\ ~ within a iovec IOVEC_BYTES.

Lemma vreq_code v : vreq_ok (bd_size d) v ->
  Z.land (u16 (v_req v)) (Z.lnot OPTIONAL_IO) = if v_write v then DISK_WRITE else DISK_READ.
Proof. intros [_ _ [E|[E|E]]]; unfold v_write; rewrite E; reflexivity. Qed.

(** The body of the loop: one request, and its count afterwards. *)
Lemma vrdwt_turn v l request (s : X) B m Q :
  vector_ok (v :: l) -> 0 <= request < NR_BUFS -> bd_ok s -> same_maps k0 (kern s) ->
  bytes_of (memory s) (iovec + IOREQ_SIZE * request) 12 = vreq_bytes v BLOCK_SIZE ->
  (forall d' b, bd_block s d' b = B d' b) -> (forall a, outside a -> memory s a = m a) ->
  (forall s' , bd_ok s' -> same_maps k0 (kern s') ->
     (forall d' b, bd_block s' d' b = fst (vrdwt_step d u v (B, m)) d' b) ->
     (forall a, outside a -> memory s' a = snd (vrdwt_step d u v (B, m)) a) ->
     (forall a, within a iovec IOVEC_BYTES -> ~ within a (iovec + IOREQ_SIZE * request) IOREQ_SIZE -> memory s' a = memory s a) ->
     bytes_of (memory s') (iovec + IOREQ_SIZE * request) 12 = vreq_bytes v 0 ->
     wp (vrdwt_loop iovec do_rdwt d proc_nr (length l) (request + 1)) Q s') ->
  wp (vrdwt_loop iovec do_rdwt d proc_nr (length (v :: l)) request) Q s.
Proof.
  intros Hv Hr Hok Hsm He HB Hm HQ. cbn [length vrdwt_loop]. apply wp_bind, wp_gets.
  set (iop := iovec + IOREQ_SIZE * request) in *.
  pose proof (vreq_parts _ _ _ _ He) as (E1 & E2 & E3 & E4). rewrite E1, E2, E3, E4.
  pose proof (vec_req _ Hv v (list_elem_of_here v l)) as Hvo. pose proof Hvo as [[Hb1 Hb2] Hbuf _].
  rewrite (vreq_code v Hvo).
  change (s16 (u16 BLOCK_SIZE)) with BLOCK_SIZE.
  replace (s32 (u32 (v_blk v * BLOCK_SIZE))) with (v_blk v * BLOCK_SIZE) by (unfold BLOCK_SIZE in *; rewrite u32_id, s32_id; lia).
  replace (s32 (u32 (v_buf v))) with (v_buf v) by (rewrite s32_u32, s32_id; done).
  set (rq := mk_dreq _ d proc_nr _ _ _).
  destruct (vec_umap _ Hv v (list_elem_of_here v l)) as [Hu Hu0].
  pose proof (fun a => vec_free _ Hv v a (list_elem_of_here v l)) as Hfree.
  assert (Hbr : block_request bd_own (bd_size (DEVICE rq)) s rq (v_blk v) (u v)).
  { split; try done; [|by intros a [? ?]%Hfree]. rewrite <- Hu. apply umap_same. apply (proj2 Hsm). }
  assert (Hdata : bytes_of (memory s) (u v) (Z.to_nat BLOCK_SIZE) = bytes_of m (u v) (Z.to_nat BLOCK_SIZE)).
  { apply bytes_of_ext. intros i Hi. apply Hm, Hfree. unfold within. unfold BLOCK_SIZE in *. lia. }
  assert (Hlen : length (bd_block s d (v_blk v)) = Z.to_nat BLOCK_SIZE) by by apply bd_length.
  apply wp_bind.
  assert (Hrun : wp (do_rdwt rq) (fun r s' => r = BLOCK_SIZE /\ bd_ok s' /\ same_maps (kern s) (kern s') /\
     (forall d' b, bd_block s' d' b = fst (vrdwt_step d u v (B, m)) d' b) /\
     (forall a, outside a -> memory s' a = snd (vrdwt_step d u v (B, m)) a) /\
     (forall a, within a iovec IOVEC_BYTES -> memory s' a = memory s a)) s).
  { destruct (v_write v) eqn:Ew.
    - eapply wp_mono; [exact (bd_write s rq (v_blk v) (u v) Hok eq_refl Hbr)|]. cbn beta.
      intros r s' (-> & Hok' & Hsm' & HB' & Hm'). unfold vrdwt_step. rewrite Ew. cbn [fst snd]. split_and!; try done.
      + intros d' b. rewrite HB', Hdata. change (DEVICE rq) with d. unfold set_block. case_decide; [done|apply HB].
      + intros a [Ha1 Ha2]. rewrite Hm' by done. apply Hm. by split.
      + intros a Ha. apply Hm'. by apply (vec_iovec _ Hv).
    - eapply wp_mono; [exact (bd_read s rq (v_blk v) (u v) Hok eq_refl Hbr)|]. cbn beta.
      intros r s' (-> & Hok' & Hsm' & HB' & Hm'). unfold vrdwt_step. rewrite Ew. cbn [fst snd]. split_and!; try done.
      + intros d' b. by rewrite HB'.
      + intros a [Ha1 Ha2]. rewrite Hm' by done. rewrite <- HB. apply put_bytes_ext. apply Hm. by split.
      + intros a Ha. rewrite Hm' by by apply (vec_iovec _ Hv). apply put_bytes_out. change (DEVICE rq) with d. rewrite Hlen. intros Hin.
        destruct (Hfree a Hin) as [_ Hn]. by apply Hn. }
  eapply wp_mono; [exact Hrun|]. cbn beta. intros r s1 (-> & Hok1 & Hsm1 & HB1 & Hm1 & Hi1).
  change (BLOCK_SIZE =? 0) with false. change (BLOCK_SIZE <? 0) with false. cbn beta iota.
  apply wp_bind, wp_gets.
  assert (Hsame : bytes_of (memory s1) iop 12 = vreq_bytes v BLOCK_SIZE).
  { rewrite <- He. apply bytes_of_ext. intros i Hi. apply Hi1. unfold within, iop, IOVEC_BYTES, IOREQ_SIZE, NR_BUFS in *. lia. }
  pose proof (vreq_parts _ _ _ _ Hsame) as (_ & _ & E3' & _). rewrite E3'.
  change (u16 BLOCK_SIZE - BLOCK_SIZE) with 0. apply wp_bind, wp_poke16.
  assert (Hpoke : forall a, ~ within a iop IOREQ_SIZE -> put_bytes (iop + 8) (be16 0) (memory s1) a = memory s1 a).
  { intros a Ha. apply put_bytes_out. unfold within, IOREQ_SIZE in *. cbn. lia. }
  assert (Hsub : forall a, within a iop IOREQ_SIZE -> within a iovec IOVEC_BYTES).
  { intros a Ha. unfold within, iop, IOVEC_BYTES, IOREQ_SIZE, NR_BUFS in *. lia. }
  destruct (bd_ext s1 (put_bytes (iop + 8) (be16 0) (memory s1)) Hok1) as [Hok2 HB2].
  { intros a Ha. apply Hpoke. intros Hin. by apply (vec_iovec _ Hv a (Hsub a Hin)). }
  apply HQ.
  - done.
  - rewrite kern_set. by transitivity (kern s).
  - intros d' b. by rewrite HB2.
  - intros a [Ha1 Ha2]. rewrite memory_set, Hpoke; [apply Hm1; by split|]. intros Hin. by apply Ha2, Hsub.
  - intros a Ha Hn. rewrite memory_set, Hpoke by done. by apply Hi1.
  - rewrite memory_set. eapply vreq_poke. exact Hsame.
Qed.

Lemma vrdwt_loop_ok l : forall request (s : X) B m, vector_ok l -> 0 <= request -> request + Z.of_nat (length l) <= NR_BUFS ->
  bd_ok s -> same_maps k0 (kern s) ->
  (forall i v, l !! i = Some v -> bytes_of (memory s) (iovec + IOREQ_SIZE * (request + Z.of_nat i)) 12 = vreq_bytes v BLOCK_SIZE) ->
  (forall d' b, bd_block s d' b = B d' b) -> (forall a, outside a -> memory s a = m a) ->
  wp (vrdwt_loop iovec do_rdwt d proc_nr (length l) request) (fun _ s' =>
    bd_ok s' /\ same_maps k0 (kern s') /\
    (forall d' b, bd_block s' d' b = fst (vrdwt_spec d u l (B, m)) d' b) /\
    (forall a, outside a -> memory s' a = snd (vrdwt_spec d u l (B, m)) a) /\
    (forall i v, l !! i = Some v -> bytes_of (memory s') (iovec + IOREQ_SIZE * (request + Z.of_nat i)) 12 = vreq_bytes v 0) /\
    (forall a, within a iovec (IOREQ_SIZE * request) -> memory s' a = memory s a)) s.
Proof.
  induction l as [|v l IH]; intros request s B m Hv H0 H1 Hok Hsm He HB Hm.
  { apply wp_ret. split_and!; done. }
  cbn [length] in H1. pose proof (He 0%nat v eq_refl) as He0. rewrite Z.add_0_r in He0.
  apply (vrdwt_turn v l request s B m); try done; [lia|].
  intros s1 Hok1 Hsm1 HB1 Hm1 Hi1 Hd1.
  destruct (vrdwt_step d u v (B, m)) as [B1 m1] eqn:Es. cbn [fst snd] in HB1, Hm1.
  eapply wp_mono; [apply (IH (request + 1) s1 B1 m1); try done; [by eapply vector_ok_tail|lia|lia|]|].
  - intros i w Hw. pose proof (lookup_lt_Some _ _ _ Hw) as Hlt. rewrite <- (He (S i) w Hw).
    replace (request + Z.of_nat (S i)) with (request + 1 + Z.of_nat i) by lia.
    apply bytes_of_ext. intros j Hj. apply Hi1; unfold within, IOVEC_BYTES, IOREQ_SIZE, NR_BUFS in *; lia.
  - cbn beta. intros _ s2 (Hok2 & Hsm2 & HB2 & Hm2 & Hd2 & Hf2). cbn [vrdwt_spec]. rewrite Es. split_and!; try done.
    + intros [|i] w Hw; cbn in Hw.
      * injection Hw as <-. rewrite <- Hd1, Z.add_0_r. apply bytes_of_ext. intros j Hj. apply Hf2. unfold within, IOREQ_SIZE in *. lia.
      * rewrite <- (Hd2 i w Hw). f_equal. unfold IOREQ_SIZE. lia.
    + intros a Ha. rewrite Hf2 by (unfold within, IOREQ_SIZE in *; lia).
      apply Hi1; unfold within, IOVEC_BYTES, IOREQ_SIZE, NR_BUFS in *; lia.
Qed.
End vector.

Section whole.
Context {X : Type} `{HasSys X} (do_rdwt : dreq -> M X Z) `{!BlockDriver do_rdwt}.

Lemma wp_in_sst_copy src dst n (s : X) (Q : unit -> X -> Prop) :
  Q tt (set_memory (mem_copy src dst n (memory s)) s) -> wp (in_sst (phys_copy src dst n)) Q s.
Proof. intros HQ. unfold in_sst, phys_copy. apply wp_zoom, wp_modify. exact HQ. Qed.

Lemma wp_numap n a b (s : X) (Q : Z -> X -> Prop) :
  Q (umap (P (proc_addr n) (kern s)) seg_D_nr a b) s -> wp (in_sst (numap n a b)) Q s.
Proof. unfold wp, in_sst, zoom, numap, getP, gets, mbind, M_bind, mret, M_ret. by rewrite put_the. Qed.

(** The request for vector [l], which lies at the physical address [uv]. *)
Record vector_request (iovec : Z) (u : vreq -> Z) (s : X) (rq : dreq) (l : list vreq) (uv : Z) : Prop := {
  vr_ok : vector_ok do_rdwt iovec (DEVICE rq) (PROC_NR rq) u (kern s) l;
  vr_count : COUNT rq = Z.of_nat (length l);
  vr_umap : umap (P (proc_addr (PROC_NR rq)) (kern s)) seg_D_nr (ADDRESS rq) (IOREQ_SIZE * Z.of_nat (length l)) = uv;
  vr_uv : uv <> 0;
  vr_iovec : umap (P (proc_ptr (kern s)) (kern s)) seg_D_nr iovec IOVEC_BYTES = iovec;
  vr_there i v : l !! i = Some v -> bytes_of (memory s) (uv + IOREQ_SIZE * Z.of_nat i) 12 = vreq_bytes v BLOCK_SIZE;
  vr_apart a : within a uv (IOREQ_SIZE * Z.of_nat (length l)) -> ~ bd_own a /\ ~ within a iovec IOVEC_BYTES /\
    forall v, v ∈ l -> ~ within a (u v) BLOCK_SIZE;
}.

(** Copying the vector does not touch what the driver owns. *)
Lemma bd_ext_copy src dst n (s : X) : bd_ok s -> (forall a, within a dst n -> ~ bd_own a) ->
  let s' := set_memory (mem_copy src dst n (memory s)) s in
  bd_ok s' /\ forall d b, bd_block s' d b = bd_block s d b.
Proof. intros Hok Hd. apply bd_ext; [done|]. intros a Ha. apply mem_copy_out. intros Hin. by apply (Hd a Hin). Qed.

(** [do_vrdwt] does what its requests say, one after the other, and leaves a
    count of 0 in each of them. *)
Lemma do_vrdwt_ok iovec u (s : X) rq l uv : bd_ok s -> vector_request iovec u s rq l uv ->
  wp (do_vrdwt iovec rq do_rdwt) (fun r s' => r = OK /\ bd_ok s' /\ same_maps (kern s) (kern s') /\
    (forall d b, bd_block s' d b = fst (vrdwt_spec (DEVICE rq) u l (bd_block s, memory s)) d b) /\
    (forall i v, l !! i = Some v -> bytes_of (memory s') (uv + IOREQ_SIZE * Z.of_nat i) 12 = vreq_bytes v 0) /\
    (forall a, ~ bd_own a -> ~ within a iovec IOVEC_BYTES -> ~ within a uv (IOREQ_SIZE * Z.of_nat (length l)) ->
       memory s' a = snd (vrdwt_spec (DEVICE rq) u l (bd_block s, memory s)) a)) s.
Proof.
  intros Hok [Hv Hc Hum Huv Hio Hth Hap]. pose proof (vec_size _ _ _ _ _ _ _ Hv) as Hl. unfold do_vrdwt. rewrite Hc, u16_id by lia.
  rewrite (proj2 (Z.ltb_ge NR_BUFS _)) by (unfold NR_BUFS; lia).
  apply wp_bind, wp_gets. apply wp_bind, wp_numap. rewrite !(Z.mul_comm _ IOREQ_SIZE), Hum.
  change (ker (the_sys s)) with (kern s).
  rewrite (proj2 (Z.eqb_neq uv 0)) by done. apply wp_bind, wp_in_sst_copy.
  change (IOREQ_SIZE * NR_BUFS) with IOVEC_BYTES. rewrite Hio, Nat2Z.id.
  set (n := IOREQ_SIZE * Z.of_nat (length l)) in *.
  assert (Hn : 0 <= n <= IOVEC_BYTES) by (unfold n, IOVEC_BYTES, IOREQ_SIZE, NR_BUFS; lia).
  pose proof (vec_iovec _ _ _ _ _ _ _ Hv) as Hown.
  destruct (bd_ext_copy uv iovec n s Hok) as [Hok1 HB1].
  { intros a Ha. apply Hown. unfold within in *. lia. }
  set (s1 := set_memory _ s) in *.
  assert (Hm1 : memory s1 = mem_copy uv iovec n (memory s)) by apply memory_set.
  assert (Hk1 : kern s1 = kern s) by apply kern_set.
  apply wp_bind. eapply wp_mono; [apply (vrdwt_loop_ok do_rdwt iovec (DEVICE rq) (PROC_NR rq) u (kern s) l 0 s1 (bd_block s) (memory s));
    try done; [unfold NR_BUFS; lia|by rewrite Hk1| |]|].
  - intros i v Hi. pose proof (lookup_lt_Some _ _ _ Hi) as Hlt. rewrite <- (Hth i v Hi), Hm1. apply bytes_of_ext. intros j Hj.
    rewrite mem_copy_in by (unfold within, n, IOREQ_SIZE in *; lia). f_equal. lia.
  - intros a [Ha1 Ha2]. rewrite Hm1. apply mem_copy_out. unfold within in *. lia.
  - cbn beta. intros _ s2 (Hok2 & Hsm2 & HB2 & Hm2 & Hd2 & _). apply wp_bind, wp_in_sst_copy, wp_ret.
    destruct (bd_ext_copy iovec uv n s2 Hok2) as [Hok3 HB3]; [by intros a [? _]%Hap|].
    rewrite !memory_set, !kern_set. split_and!; try done.
    + intros d' b. by rewrite HB3.
    + intros i v Hi. pose proof (lookup_lt_Some _ _ _ Hi) as Hlt. rewrite <- (Hd2 i v Hi). apply bytes_of_ext. intros j Hj.
      rewrite mem_copy_in by (unfold within, n, IOREQ_SIZE in *; lia). f_equal. lia.
    + intros a H1 H2 H3. rewrite mem_copy_out by done. by apply Hm2.
Qed.
End whole.
