(* ===== verification/Mem.v ===== *)
(** * The memory task: [src/kernel/memory.c]

    The drivers of /dev/ram, /dev/mem, /dev/kmem and /dev/null, with the proof
    that the RAM disk is a disk: it does to its blocks and to the users'
    buffers what [BlockDriver] asks for, alone and in vectors. *)

From S2P Require Import Prelude KProc KSystem Driver.

Definition NR_RAMS : Z := 4.
Definition RAM_DEV : Z := 0.
Definition MEM_DEV : Z := 1.
Definition KMEM_DEV : Z := 2.
Definition NULL_DEV : Z := 3.
Definition MEM_BYTES : Z := 16777216.
Definition SYSTASK : Z := -2.

(** The task's variables. *)
Record mst := mk_mst { m_sys : sst; ram_origin : list Z; ram_limit : list Z }.
#[export] Instance ram_upd : Updatable mst := fun s => mk_mst (m_sys s) (ram_origin s) (ram_limit s).
#[export, refine] Instance mst_sys : HasSys mst := {| the_sys := m_sys; put_sys k s := s <| m_sys := k |> |}.
Proof. all: by intros; destruct_and?; try destruct s. Defined.

Definition set_origin (device : nat) (a : Z) : M mst unit := modify (fun s => s <| ram_origin ::= <[device := a]> |>).
Definition set_limit (device : nat) (a : Z) : M mst unit := modify (fun s => s <| ram_limit ::= <[device := a]> |>).

(** The initialization at the top of [mem_task]; [sizes1] is [sizes\[1\]]. *)
Definition mem_task_init (sizes1 : Z) : M mst unit :=
  a ← in_sst (numap SYSTASK 0 1);
  set_origin (Z.to_nat KMEM_DEV) a;;
  set_limit (Z.to_nat KMEM_DEV) (s32 (Z.shiftl sizes1 CLICK_SHIFT + a));;
  set_limit (Z.to_nat MEM_DEV) MEM_BYTES.

Definition do_mem (rq : dreq) : M mst Z :=
  let device := DEVICE rq in
  if (device <? 0) || (NR_RAMS <=? device) then mret ENXIO else
  if device =? NULL_DEV then mret (if rq_type rq =? DISK_READ then 0 else COUNT rq) else
  if POSITION rq <? 0 then mret ENXIO else
  origin ← gets (fun s => ram_origin s !!! Z.to_nat device);
  limit ← gets (fun s => ram_limit s !!! Z.to_nat device);
  let mem_phys := s32 (origin + POSITION rq) in
  if limit <=? mem_phys then mret 0 else
  let count := if limit <? s32 (mem_phys + COUNT rq) then s16 (limit - mem_phys) else COUNT rq in
  user_phys ← in_sst (numap (PROC_NR rq) (ADDRESS rq) count);
  if user_phys =? 0 then mret E_BAD_ADDR else
  (if rq_type rq =? DISK_READ then in_sst (phys_copy mem_phys user_phys count)
   else in_sst (phys_copy user_phys mem_phys count));;
  mret count.

Definition do_setup (rq : dreq) : M mst Z :=
  if negb (DEVICE rq =? RAM_DEV) then mret ENXIO else
  set_origin (Z.to_nat (DEVICE rq)) (POSITION rq);;
  set_limit (Z.to_nat (DEVICE rq)) (s32 (POSITION rq + s32 (COUNT rq * BLOCK_SIZE)));;
  mret OK.

(** A turn of the task's main loop, on a message from [source]. *)
Definition mem_turn (iovec source : Z) (rq : dreq) : M mst dreply :=
  if source <? 0 then panic "mem task got message from" else
  r ← (if (rq_type rq =? DISK_READ) || (rq_type rq =? DISK_WRITE) then do_mem rq
       else if rq_type rq =? SCATTERED_IO then do_vrdwt iovec rq do_mem
       else if rq_type rq =? DISK_IOCTL then do_setup rq
       else mret EINVAL);
  mret (mk_dreply source (PROC_NR rq) r).

(** ** One transfer *)

(** Where device [d] lies in memory. *)
Definition mem_device (s : mst) (d origin limit : Z) : Prop :=
  ram_origin s !!! Z.to_nat d = origin /\ ram_limit s !!! Z.to_nat d = limit /\ 0 <= origin <= limit /\ limit < 2 ^ 31 - 2 ^ 15.

(** How much of a request of [count] bytes at [pos] there is. *)
Definition there_is (origin limit pos count : Z) : Z := Z.max 0 (Z.min count (limit - (origin + pos))).

Record mem_request (s : mst) (rq : dreq) (origin limit u : Z) : Prop := {
  mq_device : 0 <= DEVICE rq < NULL_DEV;
  mq_mem : mem_device s (DEVICE rq) origin limit;
  mq_position : 0 <= POSITION rq /\ origin + POSITION rq < 2 ^ 31 - 2 ^ 15;
  mq_count : 0 < COUNT rq < 2 ^ 15;
  mq_umap : u <> 0 /\ umap (P (proc_addr (PROC_NR rq)) (kern s)) seg_D_nr (ADDRESS rq)
    (there_is origin limit (POSITION rq) (COUNT rq)) = u;
}.

Lemma do_mem_ok s rq origin limit u (Q : Z -> mst -> Prop) :
  (0 < there_is origin limit (POSITION rq) (COUNT rq) -> mem_request s rq origin limit u) ->
  (there_is origin limit (POSITION rq) (COUNT rq) = 0 -> 0 <= DEVICE rq < NULL_DEV /\ mem_device s (DEVICE rq) origin limit /\
     0 <= POSITION rq /\ origin + POSITION rq < 2 ^ 31 - 2 ^ 15 /\ 0 < COUNT rq) ->
  let n := there_is origin limit (POSITION rq) (COUNT rq) in
  let a := origin + POSITION rq in
  Q n (if n =? 0 then s else
       set_memory (if rq_type rq =? DISK_READ then mem_copy a u n (memory s) else mem_copy u a n (memory s)) s) ->
  wp (do_mem rq) Q s.
Proof.
  intros H1 H0 n a HQ. fold n in H1, H0.
  assert (Hn : 0 <= n) by (unfold n, there_is; lia).
  assert (Hcom : 0 <= DEVICE rq < NULL_DEV /\ mem_device s (DEVICE rq) origin limit /\
     0 <= POSITION rq /\ origin + POSITION rq < 2 ^ 31 - 2 ^ 15 /\ 0 < COUNT rq).
  { destruct (decide (n = 0)) as [E|E]; [by apply H0|]. destruct (H1 ltac:(lia)) as [? ? [? ?] ? ?]. split_and!; try done; lia. }
  destruct Hcom as ([Hd0 Hd1] & (Ho & Hl & Hol & Hl2) & Hp0 & Hp1 & Hc). unfold NULL_DEV in *.
  unfold do_mem. rewrite (proj2 (Z.ltb_ge (DEVICE rq) 0)), (proj2 (Z.leb_gt NR_RAMS _)) by (unfold NR_RAMS; lia). cbn [orb].
  rewrite (proj2 (Z.eqb_neq _ NULL_DEV)) by (unfold NULL_DEV; lia). rewrite (proj2 (Z.ltb_ge _ 0)) by done.
  apply wp_bind, wp_gets. rewrite Ho. apply wp_bind, wp_gets. rewrite Hl. rewrite s32_id by lia. fold a.
  destruct (Z.leb_spec limit a) as [Hle|Hlt].
  - apply wp_ret. assert (E : n = 0) by (unfold n, there_is, a in *; lia). by rewrite E in HQ.
  - assert (Hpos : 0 < n) by (unfold n, there_is, a in *; lia).
    destruct (H1 Hpos) as [_ _ _ Hc2 [Hu Hum]]. fold n in Hum.
    replace (if limit <? s32 (a + COUNT rq) then s16 (limit - a) else COUNT rq) with n.
    2:{ rewrite s32_id by (unfold a in *; lia). unfold n, there_is, a in *. destruct (Z.ltb_spec limit (origin + POSITION rq + COUNT rq)).
        - rewrite s16_id by lia. lia.
        - lia. }
    apply wp_bind, wp_numap. rewrite Hum. rewrite (proj2 (Z.eqb_neq u 0)) by done.
    rewrite (proj2 (Z.eqb_neq n 0)) in HQ by lia. apply wp_bind. destruct (rq_type rq =? DISK_READ); apply wp_in_sst_copy; exact HQ.
Qed.

(** ** The RAM disk *)
Section ram.
Context (origin nblk : Z).

Definition ram_ok (s : mst) : Prop :=
  ram_origin s !!! 0%nat = origin /\ ram_limit s !!! 0%nat = origin + nblk * BLOCK_SIZE.
Definition ram_own (a : Z) : Prop := within a origin (nblk * BLOCK_SIZE).
Definition ram_size (d : Z) : Z := if d =? RAM_DEV then nblk else 0.
Definition ram_block (s : mst) (d b : Z) : list Z :=
  if decide (d = RAM_DEV /\ 0 <= b < nblk) then bytes_of (memory s) (origin + b * BLOCK_SIZE) (Z.to_nat BLOCK_SIZE)
  else replicate (Z.to_nat BLOCK_SIZE) 0.

Context (Ho : 0 <= origin) (Hn : 0 <= nblk) (Hl : origin + nblk * BLOCK_SIZE < 2 ^ 31 - 2 ^ 15).

Lemma ram_block_length s d b : length (ram_block s d b) = Z.to_nat BLOCK_SIZE.
Proof. unfold ram_block. case_decide; [apply bytes_of_length|apply length_replicate]. Qed.

Lemma ram_there blk : 0 <= blk < nblk ->
  there_is origin (origin + nblk * BLOCK_SIZE) (blk * BLOCK_SIZE) BLOCK_SIZE = BLOCK_SIZE.
Proof. intros Hb. unfold there_is, BLOCK_SIZE in *. nia. Qed.

(** Blocks of the same memory are the same. *)
Lemma ram_block_ext s s' d b : (forall a, ram_own a -> memory s' a = memory s a) -> ram_block s' d b = ram_block s d b.
Proof.
  intros He. unfold ram_block. case_decide as Hb; [|done]. apply bytes_of_ext. intros i Hi. apply He.
  unfold ram_own, within, BLOCK_SIZE in *. nia.
Qed.

Lemma ram_request s rq blk u : ram_ok s -> block_request ram_own (ram_size (DEVICE rq)) s rq blk u ->
  DEVICE rq = 0 /\ 0 <= blk < nblk /\ mem_request s rq origin (origin + nblk * BLOCK_SIZE) u.
Proof.
  intros [Hs1 Hs2] [B1 B2 B3 B4 B5 B6]. unfold ram_size, RAM_DEV in B3. destruct (Z.eqb_spec (DEVICE rq) 0) as [E|]; [|lia].
  unfold BLOCK_SIZE in *. split_and!; [done|lia|lia|]. split.
  - rewrite E. done.
  - unfold mem_device. rewrite E. split_and!; try done; lia.
  - rewrite B2. lia.
  - rewrite B1. lia.
  - split; [done|]. rewrite B1, B2. replace (there_is _ _ _ _) with 1024; [done|]. symmetry. by apply (ram_there blk).
Qed.

Lemma ram_read s rq blk u : ram_ok s -> rq_type rq = DISK_READ -> block_request ram_own (ram_size (DEVICE rq)) s rq blk u ->
  wp (do_mem rq) (fun r s' => r = BLOCK_SIZE /\ ram_ok s' /\ same_maps (kern s) (kern s') /\
    (forall d b, ram_block s' d b = ram_block s d b) /\
    forall a, ~ ram_own a -> memory s' a = put_bytes u (ram_block s (DEVICE rq) blk) (memory s) a) s.
Proof.
  intros Hok Ht Hbr. destruct (ram_request _ _ _ _ Hok Hbr) as (Hd & Hb & Hmr). destruct Hbr as [B1 B2 _ B4 B5 B6].
  assert (Hth : there_is origin (origin + nblk * BLOCK_SIZE) (POSITION rq) (COUNT rq) = BLOCK_SIZE) by (rewrite B1, B2; by apply ram_there).
  apply (do_mem_ok s rq origin (origin + nblk * BLOCK_SIZE) u); rewrite ?Hth; [done|done|]. cbv zeta.
  change (BLOCK_SIZE =? 0) with false. rewrite Ht. cbn beta iota. change (DISK_READ =? DISK_READ) with true. cbn beta iota.
  rewrite kern_set. split_and!; [done|done|done| |].
  - intros d b. apply ram_block_ext. intros a Ha. rewrite memory_set. apply mem_copy_out. intros Hin. by apply (B6 a Hin).
  - intros a Ha. rewrite memory_set. unfold ram_block. rewrite Hd, decide_True by done. rewrite put_bytes_copy, B2. done.
Qed.

Lemma ram_write s rq blk u : ram_ok s -> rq_type rq = DISK_WRITE -> block_request ram_own (ram_size (DEVICE rq)) s rq blk u ->
  wp (do_mem rq) (fun r s' => r = BLOCK_SIZE /\ ram_ok s' /\ same_maps (kern s) (kern s') /\
    (forall d b, ram_block s' d b =
       set_block (DEVICE rq) blk (bytes_of (memory s) u (Z.to_nat BLOCK_SIZE)) (ram_block s) d b) /\
    forall a, ~ ram_own a -> memory s' a = memory s a) s.
Proof.
  intros Hok Ht Hbr. destruct (ram_request _ _ _ _ Hok Hbr) as (Hd & Hb & Hmr). destruct Hbr as [B1 B2 _ B4 B5 B6].
  assert (Hth : there_is origin (origin + nblk * BLOCK_SIZE) (POSITION rq) (COUNT rq) = BLOCK_SIZE) by (rewrite B1, B2; by apply ram_there).
  apply (do_mem_ok s rq origin (origin + nblk * BLOCK_SIZE) u); rewrite ?Hth; [done|done|]. cbv zeta.
  change (BLOCK_SIZE =? 0) with false. rewrite Ht. cbn beta iota. change (DISK_WRITE =? DISK_READ) with false. cbn beta iota.
  rewrite kern_set. split_and!; [done|done|done| |].
  - intros d b. rewrite Hd, B2. unfold set_block, ram_block. rewrite memory_set. destruct (decide (d = 0 /\ b = blk)) as [[-> ->]|Hne].
    + rewrite decide_True by done. exact (bytes_of_copied u (origin + blk * BLOCK_SIZE) (Z.to_nat BLOCK_SIZE) (memory s)).
    + case_decide as Hdb; [|done]. destruct Hdb as [-> Hb2]. apply bytes_of_ext. intros i Hi. apply mem_copy_out.
      unfold within, BLOCK_SIZE, RAM_DEV in *. assert (b <> blk) by naive_solver. nia.
  - intros a Ha. rewrite memory_set. apply mem_copy_out. intros Hin. apply Ha. rewrite B2 in Hin.
    unfold ram_own, within, BLOCK_SIZE in *. nia.
Qed.

Definition ram_driver : BlockDriver do_mem.
Proof.
  refine {| bd_ok := ram_ok; bd_own := ram_own; bd_size := ram_size; bd_block := ram_block; bd_read := ram_read; bd_write := ram_write |}.
  - intros. apply ram_block_length.
  - intros s m Hok He. split; [exact Hok|]. intros d b. apply ram_block_ext. intros a Ha. rewrite memory_set. by apply He.
Defined.
#[local] Existing Instance ram_driver.

Lemma turn_setup iovec source s rq : 0 <= source -> rq_type rq = DISK_IOCTL -> DEVICE rq = RAM_DEV ->
  POSITION rq = origin -> COUNT rq = nblk -> length (ram_origin s) = 4%nat -> length (ram_limit s) = 4%nat ->
  wp (mem_turn iovec source rq) (fun r s' => r = mk_dreply source (PROC_NR rq) OK /\ ram_ok s') s.
Proof.
  intros Hs Ht Hd Hp Hc L1 L2. unfold mem_turn. rewrite (proj2 (Z.ltb_ge _ 0)), Ht by done. cbn [Z.eqb orb].
  unfold do_setup. rewrite Hd, Hp, Hc. cbn [Z.eqb RAM_DEV negb]. unfold set_origin, set_limit. wp_steps. split; [done|].
  unfold BLOCK_SIZE in *. split; cbn; change (Z.to_nat RAM_DEV) with 0%nat; rewrite list_lookup_total_insert_eq by lia; [done|].
  by rewrite (s32_id (nblk * 1024)), s32_id by lia.
Qed.

Lemma turn_rdwt iovec source s rq (Q : dreply -> mst -> Prop) : 0 <= source ->
  rq_type rq = DISK_READ \/ rq_type rq = DISK_WRITE ->
  wp (do_mem rq) (fun r s' => Q (mk_dreply source (PROC_NR rq) r) s') s -> wp (mem_turn iovec source rq) Q s.
Proof.
  intros Hs Ht HQ. unfold mem_turn. rewrite (proj2 (Z.ltb_ge _ 0)) by done.
  assert (E : (rq_type rq =? DISK_READ) || (rq_type rq =? DISK_WRITE) = true) by by destruct Ht as [-> | ->].
  rewrite E. apply wp_bind. eapply wp_mono; [exact HQ|]. intros r s' H. by apply wp_ret.
Qed.
End ram.

(** C13. The RAM disk is a disk. A DISK_IOCTL sets it up; then a DISK_READ of a
    block puts its bytes into the caller's buffer and changes nothing else; a
    DISK_WRITE changes that block only; and a vector of requests has the effect
    of its requests one after the other, each reported as complete, with no
    other memory touched than the buffers that are read into, the vector
    itself and the task's copy of it. *)
Theorem ram_disk_is_a_disk origin nblk (Ho : 0 <= origin) (Hn : 0 <= nblk) (Hl : origin + nblk * BLOCK_SIZE < 2 ^ 31 - 2 ^ 15)
    iovec source s (Hs : 0 <= source) :
  let D := ram_driver origin nblk Ho Hl in
  (forall rq, rq_type rq = DISK_IOCTL -> DEVICE rq = RAM_DEV -> POSITION rq = origin -> COUNT rq = nblk ->
     length (ram_origin s) = 4%nat -> length (ram_limit s) = 4%nat ->
     wp (mem_turn iovec source rq) (fun r s' => r = mk_dreply source (PROC_NR rq) OK /\ ram_ok origin nblk s') s) /\
  (ram_ok origin nblk s ->
   (forall rq blk u, block_request (ram_own origin nblk) (ram_size nblk (DEVICE rq)) s rq blk u -> rq_type rq = DISK_READ ->
      wp (mem_turn iovec source rq) (fun r s' => r = mk_dreply source (PROC_NR rq) BLOCK_SIZE /\ ram_ok origin nblk s' /\
        (forall d b, ram_block origin nblk s' d b = ram_block origin nblk s d b) /\
        forall a, ~ ram_own origin nblk a -> memory s' a = put_bytes u (ram_block origin nblk s (DEVICE rq) blk) (memory s) a) s) /\
   (forall rq blk u, block_request (ram_own origin nblk) (ram_size nblk (DEVICE rq)) s rq blk u -> rq_type rq = DISK_WRITE ->
      wp (mem_turn iovec source rq) (fun r s' => r = mk_dreply source (PROC_NR rq) BLOCK_SIZE /\ ram_ok origin nblk s' /\
        (forall d b, ram_block origin nblk s' d b =
           set_block (DEVICE rq) blk (bytes_of (memory s) u (Z.to_nat BLOCK_SIZE)) (ram_block origin nblk s) d b) /\
        forall a, ~ ram_own origin nblk a -> memory s' a = memory s a) s) /\
   (forall rq l uv u, vector_request do_mem iovec u s rq l uv -> rq_type rq = SCATTERED_IO ->
      let final := vrdwt_spec (DEVICE rq) u l (ram_block origin nblk s, memory s) in
      wp (mem_turn iovec source rq) (fun r s' => r = mk_dreply source (PROC_NR rq) OK /\ ram_ok origin nblk s' /\
        (forall d b, ram_block origin nblk s' d b = fst final d b) /\
        (forall i v, l !! i = Some v -> bytes_of (memory s') (uv + IOREQ_SIZE * Z.of_nat i) 12 = vreq_bytes v 0) /\
        (forall a, ~ ram_own origin nblk a -> ~ within a iovec IOVEC_BYTES -> ~ within a uv (IOREQ_SIZE * Z.of_nat (length l)) ->
           memory s' a = snd final a)) s)).
Proof.
  intros D. split; [intros; by apply turn_setup|]. intros Hok. split_and!.
  - intros rq blk u Hbr Ht. apply turn_rdwt; [done|by left|]. eapply wp_mono; [by apply (ram_read origin nblk)|].
    cbn beta. intros r s' (-> & ? & _ & ? & ?). done.
  - intros rq blk u Hbr Ht. apply turn_rdwt; [done|by right|]. eapply wp_mono; [by apply (ram_write origin nblk)|].
    cbn beta. intros r s' (-> & ? & _ & ? & ?). done.
  - intros rq l uv u Hv Ht final. unfold mem_turn. rewrite (proj2 (Z.ltb_ge _ 0)), Ht by done. cbn [Z.eqb orb].
    apply wp_bind. eapply wp_mono; [exact (do_vrdwt_ok do_mem iovec u s rq l uv Hok Hv)|].
    cbn beta. intros r s' (-> & ? & _ & ? & ? & ?). apply wp_ret. done.
Qed.

(** A RAM disk of 4 blocks from 65536 on, and FS's request to write two of
    them. *)
Definition demo_proc : proc := proc0 <| p_map := mk_segs (mk_map 0 0 0) (mk_map 0 0 1024) (mk_map 0 0 0) |>.
Definition demo_kst : kst :=
  mk_kst (replicate NR_SLOTS demo_proc) 5 8 (replicate NQ None) (replicate NQ None) None None 0 false 0 ∅ 0.
Definition demo_vector : list vreq := [mk_vreq 2 8192 DISK_WRITE; mk_vreq 0 12288 DISK_WRITE].
Definition demo_memory : Z -> Z :=
  put_bytes 4096 (flat_map (fun v => vreq_bytes v BLOCK_SIZE) demo_vector) (fun a => a mod 251).
Definition demo_mst : mst :=
  mk_mst (mk_sst demo_kst demo_memory false 0) [65536; 0; 0; 0] [69632; MEM_BYTES; 0; 0].
Definition demo_rq : dreq := mk_dreq SCATTERED_IO RAM_DEV 1 2 0 4096.

Lemma ram_disk_is_a_disk_witness :
  wp (mem_turn 1024 1 demo_rq) (fun r s' => r = mk_dreply 1 1 OK /\
    ram_block 65536 4 s' RAM_DEV 2 = bytes_of demo_memory 8192 1024 /\
    ram_block 65536 4 s' RAM_DEV 0 = bytes_of demo_memory 12288 1024 /\
    ram_block 65536 4 s' RAM_DEV 1 = bytes_of demo_memory 66560 1024) demo_mst.
Proof.
  assert (Ho : 0 <= 65536) by lia. assert (Hn : 0 <= 4) by lia.
  assert (Hl : 65536 + 4 * BLOCK_SIZE < 2 ^ 31 - 2 ^ 15) by (vm_compute; reflexivity).
  destruct (ram_disk_is_a_disk 65536 4 Ho Hn Hl 1024 1 demo_mst ltac:(lia)) as [_ H].
  destruct (H (conj eq_refl eq_refl)) as (_ & _ & Hv).
  eapply wp_mono; [apply (Hv demo_rq demo_vector 4096 v_buf); [|reflexivity]|].
  - assert (Hin : forall v, v ∈ demo_vector -> v = mk_vreq 2 8192 DISK_WRITE \/ v = mk_vreq 0 12288 DISK_WRITE).
    { intros v. unfold demo_vector. rewrite !elem_of_cons, elem_of_nil. tauto. }
    split; try reflexivity; try done.
    + split.
      * vm_compute. lia.
      * intros v [-> | ->]%Hin; (split; [vm_compute; repeat split; congruence|vm_compute; split; congruence|by left]).
      * intros v [-> | ->]%Hin; split; reflexivity || done.
      * intros v a [-> | ->]%Hin; unfold within, bd_own, ram_driver, ram_own, within, IOVEC_BYTES, IOREQ_SIZE, NR_BUFS, BLOCK_SIZE; cbn; lia.
      * intros a. unfold within, bd_own, ram_driver, ram_own, within, IOVEC_BYTES, IOREQ_SIZE, NR_BUFS, BLOCK_SIZE; cbn; lia.
    + intros [|[|i]] v Hi; [injection Hi as <-; vm_compute; reflexivity..|done].
    + intros a Ha. unfold within, bd_own, ram_driver, ram_own, within, IOVEC_BYTES, IOREQ_SIZE, NR_BUFS, BLOCK_SIZE in *. cbn in *.
      split_and!; [lia|lia|]. intros v [-> | ->]%Hin; cbn; lia.
  - cbn beta zeta. intros r s' (-> & _ & HB & _). rewrite !HB. split_and!; [reflexivity|vm_compute; reflexivity..].
Defined.
