(* ===== verification/Kbd.v ===== *)
(** * The keyboard and the real-time clock: [src/kernel/lisa/lisakbd.c]

    The COPS sends key transitions, mouse movements, reset codes and clock
    readings as bytes, one per interrupt. The driver takes them apart, turns
    keys into characters for the terminal task, repeats a key that is held
    down, and sets the time of day. The state is the terminal's ([con]) with
    the driver's variables and the clock's [boot_time] and [realtime]. *)

From S2P Require Import Prelude KProc KIpc KSystem VduFont Vdu Tty TtyEdit TtyRead Driver.

Definition KEY_DOWN : Z := 128.
Definition KC_LEFT : Z := 34.
Definition KC_RIGHT : Z := 35.
Definition KC_UP : Z := 39.
Definition KC_DOWN : Z := 43.
Definition KC_LOCK : Z := 125.
Definition KC_SHIFT : Z := 126.
Definition KC_COMMAND : Z := 127.
Definition RC_CLOCK : Z := 224.
Definition REPEAT_DELAY : Z := 24.
Definition REPEAT_RATE : Z := 4.
Definition HZ : Z := 60.

(** The states of the byte stream: [S_KEY], [S_RESET], ... *)
Inductive kb_st := S_KEY | S_RESET | S_MOUSE_X | S_MOUSE_Y | S_CLOCK.

Definition kb_normal : list Z :=
  [27; 45; 0; 0; 55; 56; 57; 0; 52; 53; 54; 0; 46; 50; 51; 10;
   0; 0; 0; 0; 0; 0; 0; 0; 0; 0; 0; 0; 0; 0; 0; 0;
   45; 61; 92; 0; 112; 8; 10; 0; 13; 48; 0; 0; 47; 49; 27; 0;
   57; 48; 117; 105; 106; 107; 91; 93; 109; 108; 59; 39; 32; 44; 46; 111;
   101; 54; 55; 56; 53; 114; 116; 121; 96; 102; 103; 104; 118; 99; 98; 110;
   97; 50; 51; 52; 49; 113; 115; 119; 9; 122; 120; 100; 27; 0; 0; 0].

Definition kb_shifted : list Z :=
  [127; 45; 43; 42; 55; 56; 57; 47; 52; 53; 54; 44; 46; 50; 51; 10;
   0; 0; 0; 0; 0; 0; 0; 0; 0; 0; 0; 0; 0; 0; 0; 0;
   95; 43; 124; 0; 80; 8; 10; 0; 13; 48; 0; 0; 63; 49; 27; 0;
   40; 41; 85; 73; 74; 75; 123; 125; 77; 76; 58; 34; 32; 60; 62; 79;
   69; 94; 38; 42; 37; 82; 84; 89; 126; 70; 71; 72; 86; 67; 66; 78;
   65; 64; 35; 36; 33; 81; 83; 87; 9; 90; 88; 68; 27; 0; 0; 0].

Record kbd := mk_kbd {
  kcon : con;
  boot_time : Z;
  realtime : Z;
  kb_state : kb_st;
  kb_count : Z;
  rtc_year : Z;
  rtc_bytes : list Z;
  kb_shift : Z;
  kb_lock : Z;
  kb_command : Z;
  repeat_code : Z;
  repeat_tics : Z;
}.
#[export] Instance kbd_upd : Updatable kbd := fun k =>
  mk_kbd (kcon k) (boot_time k) (realtime k) (kb_state k) (kb_count k) (rtc_year k) (rtc_bytes k)
    (kb_shift k) (kb_lock k) (kb_command k) (repeat_code k) (repeat_tics k).

Definition on_con {A} (m : M con A) : M kbd A := zoom kcon (fun c k => k <| kcon := c |>) m.

Definition clock_set_boot_time (t : Z) : M kbd unit :=
  now ← gets realtime;
  modify (fun k => k <| boot_time := s32 (t - Z.quot now HZ) |>).

Definition HI (b : Z) : Z := Z.land (Z.shiftr b 4) 15.
Definition LO (b : Z) : Z := Z.land b 15.

(** [for (y = 1970; y < year; y++)] *)
Definition days_to (year : Z) : Z :=
  foldl (fun t y => s32 (t + (if Z.rem y 4 =? 0 then 366 else 365))) 0 (seqZ 1970 (year - 1970)).

Definition rtc_reading : M kbd unit :=
  p ← gets rtc_bytes;
  y ← gets rtc_year;
  let b i := p !!! i in
  let year := 1980 + y in
  let day := HI (b 0%nat) * 100 + LO (b 0%nat) * 10 + HI (b 1%nat) in
  let hour := LO (b 1%nat) * 10 + HI (b 2%nat) in
  let min := LO (b 2%nat) * 10 + HI (b 3%nat) in
  let sec := LO (b 3%nat) * 10 + HI (b 4%nat) in
  if (day <? 1) || (366 <? day) || (23 <? hour) || (59 <? min) || (59 <? sec) then mret tt else
  let t := s32 (days_to year + s16 (day - 1)) in
  clock_set_boot_time (s32 (s32 (s32 (s32 (s32 (t * 24) + hour) * 60) + min) * 60 + sec)).

Section keyboard.
(** What Control-T prints ([stdmp.c]). *)
Context (dumps : M con unit).

Definition put (c : Z) : M kbd unit := on_con (kbdput dumps c CONSOLE).

(** The character of an arrow key, or 0. *)
Definition arrow (code : Z) : Z :=
  if code =? KC_UP then 65 else if code =? KC_DOWN then 66 else if code =? KC_RIGHT then 67
  else if code =? KC_LEFT then 68 else 0.

Definition key_down (code : Z) : M kbd unit :=
  if code <? 32 then mret tt else
  shift ← gets kb_shift;
  let c := if nz shift then 0 else arrow code in
  if nz c then
    put 27;;
    am ← on_con (in_vdu (gets app_mode));
    put (if am : bool then 79 else 91);;
    put c
  else
    let c := Z.land ((if nz shift then kb_shifted else kb_normal) !!! Z.to_nat (code - 32)) 255 in
    if c =? 0 then mret tt else
    lock ← gets kb_lock;
    command ← gets kb_command;
    let c := if nz lock && (97 <=? c) && (c <=? 122) then c + (65 - 97) else c in
    put (if nz command then Z.land c 31 else c).

Definition cops_byte (b : Z) : M kbd unit :=
  let code := Z.land b 127 in
  let down := Z.land b KEY_DOWN in
  st ← gets kb_state;
  match st with
  | S_RESET =>
      modify (fun k => k <| kb_state := S_KEY |>);;
      when ((RC_CLOCK <=? b) && (b <=? RC_CLOCK + 15))
        (modify (fun k => k <| kb_state := S_CLOCK |> <| kb_count := 5 |> <| rtc_year := Z.land b 15 |>));;
      modify (fun k => k <| kb_shift := 0 |> <| kb_command := 0 |> <| repeat_code := 0 |>)
  | S_MOUSE_X => modify (fun k => k <| kb_state := S_MOUSE_Y |>)
  | S_MOUSE_Y => modify (fun k => k <| kb_state := S_KEY |>)
  | S_CLOCK =>
      n ← gets kb_count;
      modify (fun k => k <| rtc_bytes ::= <[Z.to_nat (5 - n) := b]> |> <| kb_count := n - 1 |>);;
      if n - 1 =? 0 then
        modify (fun k => k <| kb_state := S_KEY |>);;
        rtc_reading
      else mret tt
  | S_KEY =>
      if code =? 0 then modify (fun k => k <| kb_state := if nz down then S_RESET else S_MOUSE_X |>)
      else if code =? KC_SHIFT then modify (fun k => k <| kb_shift := down |>)
      else if code =? KC_LOCK then modify (fun k => k <| kb_lock := down |>)
      else if code =? KC_COMMAND then modify (fun k => k <| kb_command := down |>)
      else if nz down then
        key_down code;;
        when (32 <=? code) (modify (fun k => k <| repeat_code := code |> <| repeat_tics := REPEAT_DELAY |>))
      else
        rc ← gets repeat_code;
        when (code =? rc) (modify (fun k => k <| repeat_code := 0 |>))
  end.

(** [lisa_cops_int]: the COPS has a byte, or has none after all. *)
Definition lisa_cops_int (b : option Z) : M kbd unit :=
  match b with
  | Some b => cops_byte (Z.land b 255)
  | None => mret tt
  end;;
  on_con flush_input.

Definition kb_timer : M kbd unit :=
  code ← gets repeat_code;
  if code =? 0 then mret tt else
  modify (fun k => k <| repeat_tics ::= fun n => s16 (n - 1) |>);;
  n ← gets repeat_tics;
  if n =? 0 then
    key_down code;;
    modify (fun k => k <| repeat_tics := REPEAT_RATE |>);;
    on_con flush_input
  else mret tt.
End keyboard.

(** [lisa_read_rtc]: the read-clock command, over a port to the COPS. The
    result is whether the COPS took it. *)
Section read_rtc.
Context {D : Type} `{Port D}.
Definition VIA_ORB : Z := 0.
Definition VIA_DDRA : Z := 3.
Definition VIA_ORA_NH : Z := 15.
Definition COPS_CRDY : Z := 64.
Definition COPS_READ_CLOCK : Z := 2.
Definition cops_rd (r : Z) : M D Z := fun d => let (v, d') := port_rd r d in Done v d'.
Definition cops_wr (r v : Z) : M D unit := modify (port_wr r v).

(** [for (wait = 0; wait < 1000; wait++)]: whether CRDY went low. *)
Fixpoint crdy_wait (n : nat) : M D bool :=
  match n with
  | O => mret false
  | S n' => v ← cops_rd VIA_ORB; if tst v COPS_CRDY then crdy_wait n' else mret true
  end.
Fixpoint read_rtc_tries (n : nat) : M D bool :=
  match n with
  | O => mret false
  | S n' =>
      cops_wr VIA_ORA_NH COPS_READ_CLOCK;;
      v ← cops_rd VIA_ORB;
      ok ← (if tst v COPS_CRDY then crdy_wait 1000 else mret false);
      if ok : bool then
        cops_wr VIA_DDRA 255;;
        cops_wr VIA_DDRA 0;;
        mret true
      else read_rtc_tries n'
  end.
Definition lisa_read_rtc : M D bool := read_rtc_tries 100.

(** It always ends. *)
Lemma crdy_wait_ends n d : wp (crdy_wait n) (fun _ _ => True) d.
Proof.
  revert d. induction n as [|n IH]; intros d; [done|]. cbn [crdy_wait]. apply wp_bind. unfold wp at 1, cops_rd.
  destruct (port_rd VIA_ORB d) as [v d']. destruct (tst v COPS_CRDY); [apply IH|done].
Qed.
Lemma lisa_read_rtc_ends d : wp lisa_read_rtc (fun _ _ => True) d.
Proof.
  unfold lisa_read_rtc. generalize 100%nat as n. intros n. revert d. induction n as [|n IH]; intros d; [done|].
  cbn [read_rtc_tries]. generalize 1000%nat as k. intros k. unfold cops_wr. apply wp_bind, wp_modify, wp_bind.
  unfold wp at 1, cops_rd. destruct (port_rd VIA_ORB (port_wr VIA_ORA_NH COPS_READ_CLOCK d)) as [v d'].
  apply wp_bind. apply (wp_mono _ (fun _ _ => True)).
  - destruct (tst v COPS_CRDY); [apply crdy_wait_ends|done].
  - intros ok d2 _. destruct ok; [by wp_steps|apply IH].
Qed.
End read_rtc.

(** ** Reports and ticks

    What the COPS has to say, whatever bytes it takes, and a keyboard as one
    would describe it: which of the modifiers are down, which key is held and
    for how many ticks yet. *)
Inductive report :=
| Key (down : bool) (code : Z)
| Mouse (x y : Z)
| Reset (code : Z)
| Reading (year : Z) (bs : list Z).

Definition report_bytes (r : report) : list Z :=
  match r with
  | Key down code => [if down then 128 + code else code]
  | Mouse x y => [0; x; y]
  | Reset b => [128; b]
  | Reading y bs => [128; RC_CLOCK + y] ++ bs
  end.

Definition is_byte (b : Z) : Prop := 0 <= b < 256.
Definition report_ok (r : report) : Prop :=
  match r with
  | Key _ code => 1 <= code < 128
  | Mouse x y => is_byte x /\ is_byte y
  | Reset b => is_byte b /\ ~ RC_CLOCK <= b <= RC_CLOCK + 15
  | Reading y bs => 0 <= y <= 15 /\ length bs = 5%nat /\ Forall is_byte bs
  end.

Record board := mk_board { shift : bool; lock : bool; command : bool; held : option (Z * Z) }.
#[export] Instance board_upd : Updatable board := fun b => mk_board (shift b) (lock b) (command b) (held b).
Definition board0 : board := mk_board false false false None.

(** What a key puts into the terminal's buffer: characters, and the one of
    ESC [ or ESC O that the screen is set to. *)
Inductive token := Char (c : Z) | Intro.

Definition key_tokens (b : board) (code : Z) : list token :=
  if code <? 32 then [] else
  if negb (shift b) && nz (arrow code) then [Char 27; Intro; Char (arrow code)] else
  let c := (if shift b then kb_shifted else kb_normal) !!! Z.to_nat (code - 32) in
  if c =? 0 then [] else
  let c := if lock b && (97 <=? c) && (c <=? 122) then c - 32 else c in
  [Char (if command b then c mod 32 else c)].

(** Modifiers give no characters, other keys are held from now on. *)
Definition modifier (code : Z) : bool := (code =? KC_SHIFT) || (code =? KC_LOCK) || (code =? KC_COMMAND).

Definition apply_report (r : report) (b : board) : board :=
  match r with
  | Key down code =>
      if code =? KC_SHIFT then b <| shift := down |>
      else if code =? KC_LOCK then b <| lock := down |>
      else if code =? KC_COMMAND then b <| command := down |>
      else if down then (if 32 <=? code then b <| held := Some (code, REPEAT_DELAY) |> else b)
      else if bool_decide (fst <$> held b = Some code) then b <| held := None |> else b
  | Mouse _ _ => b
  | Reset _ | Reading _ _ => b <| shift := false |> <| command := false |> <| held := None |>
  end.

Definition report_tokens (r : report) (b : board) : list token :=
  match r with Key true code => if modifier code then [] else key_tokens b code | _ => [] end.

Inductive event := Report (r : report) | Tick.

Definition event_ok (e : event) : Prop := match e with Report r => report_ok r | Tick => True end.

Definition apply_event (e : event) (b : board) : board :=
  match e with
  | Report r => apply_report r b
  | Tick => match held b with
            | None => b
            | Some (c, n) => b <| held := Some (c, if n =? 1 then REPEAT_RATE else n - 1) |>
            end
  end.
Definition event_tokens (e : event) (b : board) : list token :=
  match e with
  | Report r => report_tokens r b
  | Tick => match held b with Some (c, n) => if n =? 1 then key_tokens b c else [] | None => [] end
  end.

(** How often the terminal task may be told. *)
Definition event_flushes (e : event) (b : board) : nat :=
  match e with
  | Report r => length (report_bytes r)
  | Tick => match held b with Some (_, n) => if n =? 1 then 1 else 0 | None => 0 end
  end.

(** The seconds since 1970 that a reading stands for. *)
Definition reading_time (y : Z) (bs : list Z) : option Z :=
  let b i := bs !!! i in
  let day := HI (b 0%nat) * 100 + LO (b 0%nat) * 10 + HI (b 1%nat) in
  let hour := LO (b 1%nat) * 10 + HI (b 2%nat) in
  let min := LO (b 2%nat) * 10 + HI (b 3%nat) in
  let sec := LO (b 3%nat) * 10 + HI (b 4%nat) in
  if (1 <=? day) && (day <=? 366) && (hour <=? 23) && (min <=? 59) && (sec <=? 59) then
    Some ((((days_to (1980 + y) + day - 1) * 24 + hour) * 60 + min) * 60 + sec)
  else None.
Definition apply_clock (e : event) (now boot : Z) : Z :=
  match e with
  | Report (Reading y bs) => match reading_time y bs with Some t => s32 (t - Z.quot now HZ) | None => boot end
  | _ => boot
  end.

Section refine.
Context (dumps : M con unit).

Definition put_token (t : token) : M con unit :=
  match t with
  | Char c => kbdput dumps c CONSOLE
  | Intro => am ← in_vdu (gets app_mode); kbdput dumps (if am : bool then 79 else 91) CONSOLE
  end.

(** What an event does to the terminal. *)
Definition event_con (e : event) (b : board) : M con unit :=
  for_each (event_tokens e b) put_token;;
  for_each (replicate (event_flushes e b) tt) (fun _ => flush_input).

Definition run_event (e : event) : M kbd unit :=
  match e with
  | Report r => for_each (report_bytes r) (fun b => lisa_cops_int dumps (Some b))
  | Tick => kb_timer dumps
  end.

(** The driver's variables and the keyboard. *)
Record stands (b : board) (k : kbd) : Prop := {
  st_key : kb_state k = S_KEY;
  st_shift : nz (kb_shift k) = shift b;
  st_lock : nz (kb_lock k) = lock b;
  st_command : nz (kb_command k) = command b;
  st_bytes : length (rtc_bytes k) = 5%nat;
  st_held : match held b with
            | None => repeat_code k = 0
            | Some (c, n) => repeat_code k = c /\ repeat_tics k = n /\ 32 <= c < 128 /\ 1 <= n <= REPEAT_DELAY
            end;
}.

Lemma wp_on_con {A} (m : M con A) (Q : A -> kbd -> Prop) k :
  wp m (fun a c => Q a (k <| kcon := c |>)) (kcon k) -> wp (on_con m) Q k.
Proof. intros HQ. apply wp_zoom. exact HQ. Qed.

Lemma wp_for_each_nil {S A} (body : A -> M S unit) Q s : Q tt s -> wp (for_each [] body) Q s.
Proof. done. Qed.
Lemma wp_for_each_cons {S A} (body : A -> M S unit) x l Q s :
  wp (body x) (fun _ s' => wp (for_each l body) Q s') s -> wp (for_each (x :: l) body) Q s.
Proof. intros HQ. apply wp_bind. exact HQ. Qed.

Lemma table_range i : (i < 96)%nat -> 0 <= kb_normal !!! i < 128 /\ 0 <= kb_shifted !!! i < 128.
Proof.
  intros Hi. assert (H : forallb (fun i => (0 <=? kb_normal !!! i) && (kb_normal !!! i <? 128) && (0 <=? kb_shifted !!! i) &&
    (kb_shifted !!! i <? 128)) (seq 0 96) = true) by (vm_compute; reflexivity).
  rewrite forallb_forall in H. specialize (H i). rewrite in_seq in H. specialize (H ltac:(lia)).
  rewrite !andb_true_iff, !Z.leb_le, !Z.ltb_lt in H. lia.
Qed.

Lemma land_small c n : 0 <= n -> 0 <= c < 2 ^ n -> Z.land c (Z.ones n) = c.
Proof. intros Hn Hc. by rewrite Z.land_ones, Z.mod_small. Qed.

(** A key pressed: its characters. *)
Lemma key_down_ok b k code (Q : unit -> kbd -> Prop) :
  nz (kb_shift k) = shift b -> nz (kb_lock k) = lock b -> nz (kb_command k) = command b -> 0 <= code < 128 ->
  wp (for_each (key_tokens b code) put_token) (fun _ c => Q tt (k <| kcon := c |>)) (kcon k) ->
  wp (key_down dumps code) Q k.
Proof.
  intros Hs Hl Hc Hr HQ. unfold key_down, key_tokens in *. destruct (Z.ltb_spec code 32) as [Hlt|Hge].
  { apply wp_ret. by destruct k. }
  apply wp_bind, wp_gets. rewrite Hs. cbv zeta in HQ |- *.
  destruct (table_range (Z.to_nat (code - 32)) ltac:(lia)) as [T1 T2].
  set (v := (if shift b then kb_shifted else kb_normal) !!! Z.to_nat (code - 32)) in *.
  assert (Hv : 0 <= v < 128) by (unfold v; destruct (shift b); done). clearbody v.
  change 255 with (Z.ones 8). rewrite (land_small v 8) by lia.
  destruct (shift b); cbn [negb andb] in HQ; [change (nz 0) with false; cbn beta iota|
    destruct (nz (arrow code)) eqn:Ea; cbn beta iota].
  2:{ apply wp_bind, wp_on_con. apply wp_bind_inv in HQ. cbn [put_token] in HQ. eapply wp_mono; [exact HQ|]. cbn beta.
      intros _ c1 HQ1. apply wp_bind, wp_on_con. apply wp_bind_inv, wp_bind_inv in HQ1. cbn [kcon].
      eapply wp_mono; [exact HQ1|]. cbn beta. intros am c2 HQ2. apply wp_bind, wp_on_con. eapply wp_mono; [exact HQ2|].
      cbn beta. intros _ c3 HQ3. apply wp_on_con. apply wp_bind_inv in HQ3. eapply wp_mono; [exact HQ3|]. intros [] c4 H4. destruct k. exact H4. }
  all: destruct (v =? 0) eqn:Ev; [apply wp_ret; by destruct k|]; apply wp_bind, wp_gets, wp_bind, wp_gets, wp_on_con;
    rewrite Hl, Hc; apply wp_bind_inv in HQ; cbn [put_token] in HQ; cbv zeta;
    change (65 - 97) with (-32); change (v + -32) with (v - 32);
    (eapply wp_mono; [|intros [] c1 H1; exact H1]); change 31 with (Z.ones 5); rewrite Z.land_ones by done; exact HQ.
Qed.

(** ** Bytes that give no characters *)

(** [bytes] take the driver from [k] to [k'], whatever the terminal's state. *)
Fixpoint quiet (bytes : list Z) (k k' : kbd) : Prop :=
  match bytes with
  | [] => k = k'
  | b :: bs => exists k1, (forall c, cops_byte dumps (Z.land b 255) (k <| kcon := c |>) = Done tt (k1 <| kcon := c |>)) /\
                 quiet bs k1 k'
  end.

Lemma quiet_run bytes : forall k k' (Q : unit -> kbd -> Prop), quiet bytes k k' ->
  wp (for_each (replicate (length bytes) tt) (fun _ => flush_input)) (fun _ c => Q tt (k' <| kcon := c |>)) (kcon k) ->
  wp (for_each bytes (fun b => lisa_cops_int dumps (Some b))) Q k.
Proof.
  induction bytes as [|b bs IH]; intros k k' Q Hq HQ; cbn [quiet] in Hq.
  - subst k'. apply wp_ret. unfold wp in HQ. cbn in HQ. by destruct k.
  - destruct Hq as (k1 & Hk & Hq). apply wp_for_each_cons. unfold lisa_cops_int. apply wp_bind.
    pose proof (Hk (kcon k)) as E. replace (k <| kcon := kcon k |>) with k in E by by destruct k.
    unfold wp at 1. rewrite E. cbn [length replicate] in HQ. apply wp_bind_inv in HQ. apply wp_on_con.
    change (kcon (k1 <| kcon := kcon k |>)) with (kcon k). eapply wp_mono; [exact HQ|]. cbn beta. intros [] c HQ1.
    change (k1 <| kcon := kcon k |> <| kcon := c |>) with (k1 <| kcon := c |>).
    apply (IH _ (k' <| kcon := c |>)); [|exact HQ1].
    clear -Hq. revert k1 Hq. induction bs as [|b' bs IH]; intros k1 Hq; cbn [quiet] in *; [by subst|].
    destruct Hq as (k2 & Hk2 & Hq). exists (k2 <| kcon := c |>). split; [|by apply IH].
    intros c'. exact (Hk2 c').
Qed.

Lemma byte_land b : is_byte b -> Z.land b 255 = b.
Proof. intros Hb. exact (land_small b 8 ltac:(lia) Hb). Qed.

Lemma nibbles b : is_byte b -> 0 <= HI b <= 15 /\ 0 <= LO b <= 15.
Proof.
  intros Hb. unfold HI, LO. change 15 with (Z.ones 4). rewrite !Z.land_ones by done.
  pose proof (Z.mod_pos_bound (Z.shiftr b 4) (2 ^ 4)). pose proof (Z.mod_pos_bound b (2 ^ 4)).
  change (Z.ones 4) with 15 in *. change (2 ^ 4) with 16 in *. lia.
Qed.

(** The days of the years that the COPS can name. *)
Lemma days_range y : 0 <= y <= 15 -> 3652 <= days_to (1980 + y) <= 9131.
Proof.
  intros Hy. assert (H : forallb (fun y => (3652 <=? days_to (1980 + y)) && (days_to (1980 + y) <=? 9131)) (seqZ 0 16) = true)
    by (vm_compute; reflexivity).
  rewrite forallb_forall in H. specialize (H y ltac:(apply list_elem_of_In, elem_of_seqZ; lia)).
  apply andb_true_iff in H as [H1%Z.leb_le H2%Z.leb_le]. done.
Qed.

Lemma rtc_reading_ok k bs : rtc_bytes k = bs -> length bs = 5%nat -> Forall is_byte bs -> 0 <= rtc_year k <= 15 ->
  rtc_reading k = Done tt (k <| boot_time := apply_clock (Report (Reading (rtc_year k) bs)) (realtime k) (boot_time k) |>).
Proof.
  intros E Hl Hb Hy. unfold rtc_reading, mbind, M_bind, gets. rewrite E. cbv zeta. unfold apply_clock, reading_time.
  rewrite Forall_forall in Hb.
  assert (Hn : forall i, (i < 5)%nat -> 0 <= HI (bs !!! i) <= 15 /\ 0 <= LO (bs !!! i) <= 15).
  { intros i Hi. apply nibbles, Hb, list_elem_of_lookup_total_2. lia. }
  pose proof (Hn 0%nat ltac:(lia)). pose proof (Hn 1%nat ltac:(lia)). pose proof (Hn 2%nat ltac:(lia)).
  pose proof (Hn 3%nat ltac:(lia)). pose proof (Hn 4%nat ltac:(lia)). pose proof (days_range _ Hy).
  set (day := HI (bs !!! 0%nat) * 100 + LO (bs !!! 0%nat) * 10 + HI (bs !!! 1%nat)).
  set (hour := LO (bs !!! 1%nat) * 10 + HI (bs !!! 2%nat)). set (min := LO (bs !!! 2%nat) * 10 + HI (bs !!! 3%nat)).
  set (sec := LO (bs !!! 3%nat) * 10 + HI (bs !!! 4%nat)).
  set (D := days_to (1980 + rtc_year k)) in *.
  assert (Hc : ((day <? 1) || (366 <? day) || (23 <? hour) || (59 <? min) || (59 <? sec)) =
    negb ((1 <=? day) && (day <=? 366) && (hour <=? 23) && (min <=? 59) && (sec <=? 59))) by
    (apply Bool.eq_iff_eq_true; rewrite negb_true_iff, !orb_true_iff, !andb_false_iff, !Z.ltb_lt, !Z.leb_gt; lia).
  rewrite Hc. destruct (_ && _) eqn:Ev; cbn [negb].
  - rewrite !andb_true_iff, !Z.leb_le in Ev.
    unfold clock_set_boot_time, mbind, M_bind, gets, modify.
    rewrite (s16_id (day - 1)) by lia. rewrite (s32_id (D + (day - 1))) by lia.
    rewrite (s32_id ((D + (day - 1)) * 24)) by lia. rewrite (s32_id (_ + hour)) by lia.
    rewrite (s32_id (_ * 60)) by lia. rewrite (s32_id (_ + min)) by lia.
    rewrite (s32_id (_ + sec)) by lia. replace (D + (day - 1)) with (D + day - 1) by lia. done.
  - by destruct k.
Qed.

(** ** Events *)

Lemma key_byte (down : bool) code : 0 <= code < 128 -> let b := if down then 128 + code else code in
  Z.land (Z.land b 255) 127 = code /\ nz (Z.land (Z.land b 255) KEY_DOWN) = down.
Proof.
  intros Hr. assert (H : forallb (fun code => forallb (fun down : bool => let b := if down then 128 + code else code in
    (Z.land (Z.land b 255) 127 =? code) && Bool.eqb (nz (Z.land (Z.land b 255) KEY_DOWN)) down) [true; false]) (seqZ 0 128) = true)
    by (vm_compute; reflexivity).
  rewrite forallb_forall in H. specialize (H code ltac:(apply list_elem_of_In, elem_of_seqZ; lia)).
  rewrite forallb_forall in H. specialize (H down ltac:(destruct down; cbn; tauto)).
  apply andb_true_iff in H as [H1%Z.eqb_eq H2%Bool.eqb_prop]. done.
Qed.

Definition event_post (e : event) (b : board) (k : kbd) (Q : unit -> con -> Prop) (u : unit) (k' : kbd) : Prop :=
  stands (apply_event e b) k' /\ boot_time k' = apply_clock e (realtime k) (boot_time k) /\ realtime k' = realtime k /\ Q u (kcon k').

(** A report without characters: only the driver's variables change. *)
Lemma quiet_event r b k k' Q : report_tokens r b = [] -> quiet (report_bytes r) k k' ->
  stands (apply_report r b) k' -> boot_time k' = apply_clock (Report r) (realtime k) (boot_time k) -> realtime k' = realtime k ->
  wp (event_con (Report r) b) Q (kcon k) -> wp (run_event (Report r)) (event_post (Report r) b k Q) k.
Proof.
  intros Ht Hq Hs Hb Hr HQ. cbn [run_event]. apply (quiet_run _ _ k' _ Hq).
  unfold event_con in HQ. cbn [event_tokens event_flushes] in HQ. rewrite Ht in HQ. cbn [for_each] in HQ. apply wp_bind_inv in HQ.
  eapply wp_mono; [exact HQ|]. cbn beta. intros [] c HQ1. split_and!; [|exact Hb|exact Hr|exact HQ1].
  destruct Hs. split; done.
Qed.

Lemma quiet_one b k k1 : (forall c, cops_byte dumps (Z.land b 255) (k <| kcon := c |>) = Done tt (k1 <| kcon := c |>)) -> quiet [b] k k1.
Proof. intros H. exists k1. done. Qed.

Lemma mouse_event x y b k Q : report_ok (Mouse x y) -> stands b k ->
  wp (event_con (Report (Mouse x y)) b) Q (kcon k) -> wp (run_event (Report (Mouse x y))) (event_post (Report (Mouse x y)) b k Q) k.
Proof.
  intros Hok Hs. apply (quiet_event _ b k (k <| kb_state := S_KEY |>)); try done.
  - exists (k <| kb_state := S_MOUSE_X |>). split; [intros c; unfold cops_byte, mbind, M_bind, gets;
      change (kb_state (k <| kcon := c |>)) with (kb_state k); by rewrite (st_key _ _ Hs)|].
    exists (k <| kb_state := S_MOUSE_Y |>). split; [done|]. exists (k <| kb_state := S_KEY |>). done.
  - destruct Hs. split; done.
Qed.

Lemma reset_event code b k Q : report_ok (Reset code) -> stands b k ->
  wp (event_con (Report (Reset code)) b) Q (kcon k) -> wp (run_event (Report (Reset code))) (event_post (Report (Reset code)) b k Q) k.
Proof.
  intros [Hb Hn] Hs. set (k' := k <| kb_state := S_KEY |> <| kb_shift := 0 |> <| kb_command := 0 |> <| repeat_code := 0 |>).
  apply (quiet_event _ b k k'); try done.
  - exists (k <| kb_state := S_RESET |>). split; [intros c; unfold cops_byte, mbind, M_bind, gets;
      change (kb_state (k <| kcon := c |>)) with (kb_state k); by rewrite (st_key _ _ Hs)|].
    exists k'. split; [|done]. intros c. rewrite (byte_land code Hb). unfold cops_byte, mbind, M_bind, gets. cbn [kb_state].
    cbv zeta. replace ((RC_CLOCK <=? code) && (code <=? RC_CLOCK + 15)) with false; [done|].
    symmetry. apply andb_false_iff. rewrite !Z.leb_gt. lia.
  - destruct Hs. split; done.
Qed.

Lemma reading_event y bs b k Q : report_ok (Reading y bs) -> stands b k ->
  wp (event_con (Report (Reading y bs)) b) Q (kcon k) -> wp (run_event (Report (Reading y bs))) (event_post (Report (Reading y bs)) b k Q) k.
Proof.
  intros (Hy & Hl & Hbs) Hs.
  set (k2 := k <| kb_state := S_CLOCK |> <| kb_count := 0 |> <| rtc_year := y |> <| kb_shift := 0 |> <| kb_command := 0 |>
    <| repeat_code := 0 |> <| rtc_bytes := bs |>).
  set (k' := k2 <| kb_state := S_KEY |> <| boot_time := apply_clock (Report (Reading y bs)) (realtime k) (boot_time k) |>).
  apply (quiet_event _ b k k'); try done.
  - assert (Hry : is_byte (RC_CLOCK + y)) by (unfold is_byte, RC_CLOCK; lia).
    assert (Hy' : Z.land (RC_CLOCK + y) 15 = y).
    { change 15 with (Z.ones 4). rewrite Z.land_ones by done. unfold RC_CLOCK. change (2 ^ 4) with 16. zlia. }
    pose proof (st_bytes _ _ Hs) as Hlen.
    destruct bs as [|b0 [|b1 [|b2 [|b3 [|b4 [|]]]]]]; try discriminate Hl.
    destruct (rtc_bytes k) as [|c0 [|c1 [|c2 [|c3 [|c4 [|]]]]]] eqn:Er; try discriminate Hlen.
    rewrite !Forall_cons in Hbs. destruct Hbs as (B0 & B1 & B2 & B3 & B4 & _).
    cbn [report_bytes app].
    exists (k <| kb_state := S_RESET |>). split; [intros c; unfold cops_byte, mbind, M_bind, gets;
      change (kb_state (k <| kcon := c |>)) with (kb_state k); by rewrite (st_key _ _ Hs)|].
    set (k3 := k <| kb_state := S_CLOCK |> <| kb_count := 5 |> <| rtc_year := y |> <| kb_shift := 0 |> <| kb_command := 0 |> <| repeat_code := 0 |>).
    exists k3. split.
    { intros c. rewrite (byte_land _ Hry). unfold cops_byte, mbind, M_bind, gets. cbn [kb_state]. cbv zeta.
      replace ((RC_CLOCK <=? RC_CLOCK + y) && (RC_CLOCK + y <=? RC_CLOCK + 15)) with true
        by (symmetry; apply andb_true_iff; rewrite !Z.leb_le; lia). cbn [when]. rewrite Hy'. done. }
    exists (k3 <| kb_count := 4 |> <| rtc_bytes := [b0; c1; c2; c3; c4] |>).
    split; [intros c; rewrite (byte_land _ B0); cbv -[rtc_bytes]; rewrite Er; reflexivity|].
    exists (k3 <| kb_count := 3 |> <| rtc_bytes := [b0; b1; c2; c3; c4] |>). split; [intros c; rewrite (byte_land _ B1); reflexivity|].
    exists (k3 <| kb_count := 2 |> <| rtc_bytes := [b0; b1; b2; c3; c4] |>). split; [intros c; rewrite (byte_land _ B2); reflexivity|].
    exists (k3 <| kb_count := 1 |> <| rtc_bytes := [b0; b1; b2; b3; c4] |>). split; [intros c; rewrite (byte_land _ B3); reflexivity|].
    exists k'. split; [|done]. intros c. rewrite (byte_land _ B4).
    set (k4 := k2 <| kb_state := S_KEY |> <| kcon := c |>).
    transitivity (rtc_reading k4); [reflexivity|].
    rewrite (rtc_reading_ok k4 [b0; b1; b2; b3; b4]); [reflexivity|done|done| |exact Hy].
    repeat (apply Forall_cons; split; [done|]). by apply Forall_nil.
  - destruct Hs. split; done.
Qed.

(** A byte with its characters, then the flush. *)
Lemma one_byte_event r b k k' bt Q : report_bytes r = [bt] ->
  (forall P, wp (for_each (report_tokens r b) put_token) (fun _ c => P tt (k' <| kcon := c |>)) (kcon k) -> wp (cops_byte dumps (Z.land bt 255)) P k) ->
  stands (apply_report r b) k' -> boot_time k' = apply_clock (Report r) (realtime k) (boot_time k) -> realtime k' = realtime k ->
  wp (event_con (Report r) b) Q (kcon k) -> wp (run_event (Report r)) (event_post (Report r) b k Q) k.
Proof.
  intros Hb Hrun Hs Hbt Hrt HQ. cbn [run_event]. rewrite Hb. apply wp_for_each_cons. unfold lisa_cops_int. apply wp_bind, Hrun.
  apply wp_bind_inv in HQ. cbn [event_tokens event_flushes] in HQ. rewrite Hb in HQ. cbn [length replicate for_each] in HQ.
  eapply wp_mono; [exact HQ|]. cbn beta. intros [] c HQ1. apply wp_bind_inv in HQ1. apply wp_on_con.
  eapply wp_mono; [exact HQ1|]. cbn beta. intros [] c2 HQ2. apply wp_ret. split_and!; [|exact Hbt|exact Hrt|exact HQ2].
  destruct Hs. split; done.
Qed.

Lemma key_event down code b k Q : report_ok (Key down code) -> stands b k ->
  wp (event_con (Report (Key down code)) b) Q (kcon k) ->
  wp (run_event (Report (Key down code))) (event_post (Report (Key down code)) b k Q) k.
Proof.
  intros Hr Hs. cbn in Hr. destruct (key_byte down code ltac:(lia)) as [K1 K2].
  assert (Hstep : forall P, wp (
      if code =? KC_SHIFT then modify (fun k => k <| kb_shift := Z.land (Z.land (if down then 128 + code else code) 255) KEY_DOWN |>)
      else if code =? KC_LOCK then modify (fun k => k <| kb_lock := Z.land (Z.land (if down then 128 + code else code) 255) KEY_DOWN |>)
      else if code =? KC_COMMAND then modify (fun k => k <| kb_command := Z.land (Z.land (if down then 128 + code else code) 255) KEY_DOWN |>)
      else if down then
        key_down dumps code;;
        when (32 <=? code) (modify (fun k => k <| repeat_code := code |> <| repeat_tics := REPEAT_DELAY |>))
      else
        rc ← gets repeat_code;
        when (code =? rc) (modify (fun k => k <| repeat_code := 0 |>))) P k ->
    wp (cops_byte dumps (Z.land (if down then 128 + code else code) 255)) P k).
  { intros P HP. unfold cops_byte. cbv zeta. apply wp_bind, wp_gets. rewrite (st_key _ _ Hs), K1, K2.
    by rewrite (proj2 (Z.eqb_neq code 0)) by lia. }
  destruct Hs as [S1 S2 S3 S4 S5 S6].
  destruct (Z.eqb_spec code KC_SHIFT) as [Ec|N1].
  { apply (one_byte_event (Key down code) b k (k <| kb_shift := Z.land (Z.land (if down then 128 + code else code) 255) KEY_DOWN |>) (if down then 128 + code else code) Q eq_refl); try done.
    - intros P HP. apply Hstep. apply wp_modify. cbn [report_tokens] in HP. unfold modifier in HP. rewrite Ec in HP |- *.
      destruct down; cbn in HP; (destruct k; exact HP).
    - cbn [apply_report]. rewrite Ec. split; cbn; try done. rewrite <- Ec. done. }
  destruct (Z.eqb_spec code KC_LOCK) as [Ec|N2].
  { apply (one_byte_event (Key down code) b k (k <| kb_lock := Z.land (Z.land (if down then 128 + code else code) 255) KEY_DOWN |>) (if down then 128 + code else code) Q eq_refl); try done.
    - intros P HP. apply Hstep. apply wp_modify. cbn [report_tokens] in HP. unfold modifier in HP. rewrite Ec in HP |- *.
      destruct down; cbn in HP; (destruct k; exact HP).
    - cbn [apply_report]. rewrite Ec. split; cbn; try done. rewrite <- Ec. done. }
  destruct (Z.eqb_spec code KC_COMMAND) as [Ec|N3].
  { apply (one_byte_event (Key down code) b k (k <| kb_command := Z.land (Z.land (if down then 128 + code else code) 255) KEY_DOWN |>) (if down then 128 + code else code) Q eq_refl); try done.
    - intros P HP. apply Hstep. apply wp_modify. cbn [report_tokens] in HP. unfold modifier in HP. rewrite Ec in HP |- *.
      destruct down; cbn in HP; (destruct k; exact HP).
    - cbn [apply_report]. rewrite Ec. split; cbn; try done. rewrite <- Ec. done. }
  assert (Em : modifier code = false) by (unfold modifier; rewrite !(proj2 (Z.eqb_neq _ _)) by done; done).
  destruct down.
  - apply (one_byte_event (Key true code) b k (if 32 <=? code then k <| repeat_code := code |> <| repeat_tics := REPEAT_DELAY |> else k) (128 + code) Q eq_refl).
    + intros P HP. apply Hstep. apply wp_bind. apply (key_down_ok b); try done; [lia|]. cbn [report_tokens] in HP. rewrite Em in HP.
      eapply wp_mono; [exact HP|]. cbn beta. intros _ c H. destruct (32 <=? code); exact H.
    + cbn [apply_report]. rewrite !(proj2 (Z.eqb_neq code _)) by done. destruct (Z.leb_spec 32 code); split; try done.
      cbn. unfold REPEAT_DELAY. lia.
    + by destruct (32 <=? code).
    + by destruct (32 <=? code).
  - apply (one_byte_event (Key false code) b k (if code =? repeat_code k then k <| repeat_code := 0 |> else k) code Q eq_refl).
    + intros P HP. apply Hstep. apply wp_bind, wp_gets. cbn [report_tokens for_each] in HP.
      assert (Hk : k <| kcon := kcon k |> = k) by by destruct k.
      destruct (code =? repeat_code k); [apply wp_modify|apply wp_ret].
      * change (wp (mret tt) (fun _ c => P tt (k <| repeat_code := 0 |> <| kcon := c |>)) (kcon k)) in HP. by destruct k.
      * unfold wp in HP. cbn in HP. by rewrite Hk in HP.
    + cbn [apply_report]. rewrite !(proj2 (Z.eqb_neq code _)) by done.
      destruct (held b) as [[c n]|] eqn:Eh; cbn [fmap option_fmap option_map fst].
      * destruct S6 as (E1 & E2 & H1 & H2). rewrite E1. destruct (Z.eqb_spec code c) as [->|Hne].
        -- rewrite bool_decide_true by done. split; try done.
        -- rewrite bool_decide_false by congruence. split; try done. by rewrite Eh.
      * rewrite bool_decide_false by done. destruct (Z.eqb_spec code (repeat_code k)); split; try done; by rewrite Eh.
    + by destruct (code =? repeat_code k).
    + by destruct (code =? repeat_code k).
Qed.

Lemma tick_event b k Q : stands b k ->
  wp (event_con Tick b) Q (kcon k) -> wp (run_event Tick) (event_post Tick b k Q) k.
Proof.
  intros [S1 S2 S3 S4 S5 S6] HQ. cbn [run_event]. unfold kb_timer. apply wp_bind, wp_gets.
  unfold event_post. cbn [apply_event apply_clock].
  unfold event_con in HQ. cbn [event_tokens event_flushes] in HQ.
  destruct (held b) as [[code n]|] eqn:Eh.
  - destruct S6 as (E1 & E2 & H1 & H2). unfold REPEAT_DELAY in H2. rewrite E1, (proj2 (Z.eqb_neq code 0)) by lia.
    apply wp_bind, wp_modify, wp_bind, wp_gets. cbn [repeat_tics kbd_upd set_field]. rewrite E2, s16_id by lia.
    replace (n - 1 =? 0) with (n =? 1) by (apply Bool.eq_iff_eq_true; rewrite !Z.eqb_eq; lia).
    destruct (Z.eqb_spec n 1) as [->|Hn].
    + apply wp_bind. apply wp_bind_inv in HQ. apply (key_down_ok b); try done; [lia|]. cbn [kcon].
      eapply wp_mono; [exact HQ|]. cbn beta. intros [] c HQ1. apply wp_bind, wp_modify, wp_on_con.
      cbn [replicate for_each] in HQ1. apply wp_bind_inv in HQ1. eapply wp_mono; [exact HQ1|]. cbn beta. intros [] c2 HQ2.
      split_and!; [|done|done|exact HQ2]. by split.
    + apply wp_ret. split_and!; [|done|done|exact HQ]. split; try done. cbn. unfold REPEAT_DELAY. rewrite E2, s16_id by lia. lia.
  - rewrite S6. apply wp_ret. split_and!; [|done|done|exact HQ]. split; try done. by rewrite Eh.
Qed.

Lemma event_run e b k Q : event_ok e -> stands b k ->
  wp (event_con e b) Q (kcon k) -> wp (run_event e) (event_post e b k Q) k.
Proof.
  destruct e as [[down code|x y|code|y bs]|]; cbn [event_ok];
    [apply key_event|apply mouse_event|apply reset_event|apply reading_event|intros _; apply tick_event].
Qed.

(** ** Any sequence of events *)

Fixpoint events_con (es : list event) (b : board) : M con unit :=
  match es with
  | [] => mret tt
  | e :: es' => event_con e b;; events_con es' (apply_event e b)
  end.
Definition apply_events (es : list event) (b : board) : board := foldl (fun b e => apply_event e b) b es.
Definition apply_clocks (es : list event) (now boot : Z) : Z := foldl (fun t e => apply_clock e now t) boot es.

Lemma events_run es : forall b k (Q : unit -> con -> Prop), Forall event_ok es -> stands b k ->
  wp (events_con es b) Q (kcon k) ->
  wp (for_each es run_event) (fun u k' => stands (apply_events es b) k' /\
    boot_time k' = apply_clocks es (realtime k) (boot_time k) /\ realtime k' = realtime k /\ Q u (kcon k')) k.
Proof.
  induction es as [|e es IH]; intros b k Q Hok Hs HQ; cbn [for_each events_con] in *.
  - apply wp_ret. split_and!; done.
  - apply Forall_cons in Hok as [He Hok]. apply wp_bind. apply wp_bind_inv in HQ.
    eapply wp_mono; [exact (event_run e b k _ He Hs HQ)|]. intros [] k1 (Hs1 & Hb1 & Hr1 & HQ1).
    eapply wp_mono; [exact (IH _ k1 Q Hok Hs1 HQ1)|]. cbn beta. intros [] k2 (Hs2 & Hb2 & Hr2 & HQ2).
    split_and!; [exact Hs2| |congruence|exact HQ2]. rewrite Hb2, Hr1, Hb1. done.
Qed.
End refine.

(** ** The calendar *)

(** A Gregorian year's days, written down independently of the code. *)
Definition leap (y : Z) : bool := (y mod 4 =? 0) && (negb (y mod 100 =? 0) || (y mod 400 =? 0)).
Definition year_days (y : Z) : Z := if leap y then 366 else 365.
Definition unix_time (year day hour min sec : Z) : Z :=
  (((foldr Z.add 0 (year_days <$> seqZ 1970 (year - 1970)) + (day - 1)) * 24 + hour) * 60 + min) * 60 + sec.

(** The bytes that the COPS sends for a date and time. *)
Definition bcd_bytes (day hour min sec tenth : Z) : list Z :=
  [day / 100 * 16 + day / 10 mod 10; day mod 10 * 16 + hour / 10; hour mod 10 * 16 + min / 10;
   min mod 10 * 16 + sec / 10; sec mod 10 * 16 + tenth].

Lemma hi_lo h l : 0 <= h <= 15 -> 0 <= l <= 15 -> HI (h * 16 + l) = h /\ LO (h * 16 + l) = l.
Proof.
  intros Hh Hl. unfold HI, LO. change 15 with (Z.ones 4). rewrite !Z.land_ones, Z.shiftr_div_pow2 by done.
  change (2 ^ 4) with 16. split; zlia.
Qed.

Lemma days_gregorian y : 0 <= y <= 15 -> days_to (1980 + y) = foldr Z.add 0 (year_days <$> seqZ 1970 (1980 + y - 1970)).
Proof.
  intros Hy.
  assert (H : forallb (fun y => days_to (1980 + y) =? foldr Z.add 0 (year_days <$> seqZ 1970 (1980 + y - 1970))) (seqZ 0 16) = true)
    by (vm_compute; reflexivity).
  rewrite forallb_forall in H. apply Z.eqb_eq, (H y), list_elem_of_In, elem_of_seqZ. lia.
Qed.

Lemma reading_of_date y day hour min sec tenth : 0 <= y <= 15 -> 1 <= day <= 366 -> 0 <= hour <= 23 -> 0 <= min <= 59 ->
  0 <= sec <= 59 -> 0 <= tenth <= 9 ->
  reading_time y (bcd_bytes day hour min sec tenth) = Some (unix_time (1980 + y) day hour min sec).
Proof.
  intros Hy Hd Hh Hm Hs Ht. unfold reading_time, bcd_bytes. cbv zeta. cbn [lookup_total list_lookup_total].
  pose proof (days_gregorian y Hy) as Hdays.
  destruct (hi_lo (day / 100) (day / 10 mod 10)) as [A1 A2]; [zlia..|].
  destruct (hi_lo (day mod 10) (hour / 10)) as [B1 B2]; [zlia..|].
  destruct (hi_lo (hour mod 10) (min / 10)) as [C1 C2]; [zlia..|].
  destruct (hi_lo (min mod 10) (sec / 10)) as [D1 D2]; [zlia..|].
  destruct (hi_lo (sec mod 10) tenth) as [E1 _]; [zlia..|].
  rewrite A1, A2, B1, B2, C1, C2, D1, D2, E1.
  replace (day / 100 * 100 + day / 10 mod 10 * 10 + day mod 10) with day by zlia.
  replace (hour / 10 * 10 + hour mod 10) with hour by zlia.
  replace (min / 10 * 10 + min mod 10) with min by zlia. replace (sec / 10 * 10 + sec mod 10) with sec by zlia.
  replace ((1 <=? day) && (day <=? 366) && (hour <=? 23) && (min <=? 59) && (sec <=? 59)) with true
    by (symmetry; rewrite !andb_true_iff, !Z.leb_le; lia).
  unfold unix_time. rewrite Hdays. f_equal. lia.
Qed.

(** ** Typing *)

(** The modifiers and the key for a character: the first in the tables. *)
Definition stroke_for (ch : Z) (st : bool * bool * Z) : bool :=
  let '(sh, cmd, code) := st in
  negb (modifier code) && match key_tokens (mk_board sh false cmd None) code with [Char c] => c =? ch | _ => false end.
Definition strokes (ch : Z) : option (bool * bool * Z) :=
  find (stroke_for ch)
    (cmd ← [false; true]; sh ← [false; true]; code ← seqZ 32 96; [(sh, cmd, code)]).

Definition key (down : bool) (code : Z) : event := Report (Key down code).
Definition type_char (ch : Z) : list event :=
  match strokes ch with
  | None => []
  | Some (sh, cmd, code) =>
      (if cmd : bool then [key true KC_COMMAND] else []) ++ (if sh : bool then [key true KC_SHIFT] else []) ++
      [key true code; key false code] ++
      (if sh : bool then [key false KC_SHIFT] else []) ++ (if cmd : bool then [key false KC_COMMAND] else [])
  end.

(** Every ASCII character has its keys. *)
Lemma strokes_ok ch : 0 <= ch < 128 -> exists sh cmd code, strokes ch = Some (sh, cmd, code) /\ 32 <= code < 128 /\
  modifier code = false /\ key_tokens (mk_board sh false cmd None) code = [Char ch].
Proof.
  intros Hch.
  assert (H : forallb (fun ch => match strokes ch with
    | Some (sh, cmd, code) => (32 <=? code) && (code <? 128) && stroke_for ch (sh, cmd, code)
    | None => false end) (seqZ 0 128) = true) by (vm_compute; reflexivity).
  rewrite forallb_forall in H. specialize (H ch ltac:(apply list_elem_of_In, elem_of_seqZ; lia)).
  destruct (strokes ch) as [[[sh cmd] code]|]; [|done]. rewrite !andb_true_iff in H. destruct H as [[H1%Z.leb_le H2%Z.ltb_lt] [H3 H4]%andb_true_iff].
  exists sh, cmd, code. split_and!; [done|done|done|by apply negb_true_iff|].
  destruct (key_tokens _ code) as [|[c|] [|]]; try done. apply Z.eqb_eq in H4. by subst.
Qed.

Section typing.
Context (dumps : M con unit) (c0 : con).

(** The driver's buffer holds [chs]; the rest of the terminal is as it was. *)
Definition arrived (c : con) (chs : list Z) : Prop :=
  buffered c chs /\ tp c = tp c0 /\ csys c = csys c0 /\ screen c = screen c0 /\ replies c = replies c0.

Lemma flush_arrived c chs : arrived c chs -> Z.of_nat (length chs) < THRESHOLD -> wp flush_input (fun _ c' => arrived c' chs) c.
Proof.
  intros ((B1 & B2 & B3 & B4) & A) Hl. unfold flush_input. apply wp_bind, wp_gets. rewrite B1, (proj2 (Z.ltb_lt _ _)) by done.
  apply wp_modify. by split.
Qed.

Lemma put_arrived c chs ch : arrived c chs -> 0 <= ch < 128 -> ch <> DUMP_CHAR -> Z.of_nat (length chs) < THRESHOLD ->
  wp (kbdput dumps ch CONSOLE) (fun _ c' => arrived c' (chs ++ [ch])) c.
Proof.
  intros [B A] Hr Hd Hl. destruct (kbdput_buffered dumps c chs ch B Hr Hd) as (buf & E & B').
  { unfold THRESHOLD, MAX_OVERRUN in *. lia. }
  change 255 with (Z.ones 8) in E. rewrite (land_small ch 8) in E by lia. unfold wp. rewrite E. by split.
Qed.

Lemma quiet_arrived e b c chs : event_tokens e b = [] -> event_flushes e b = 1%nat -> arrived c chs ->
  Z.of_nat (length chs) < THRESHOLD -> wp (event_con dumps e b) (fun _ c' => arrived c' chs) c.
Proof.
  intros Ht Hf Hc Hl. unfold event_con. rewrite Ht, Hf. cbn [replicate]. apply wp_bind, wp_for_each_nil, wp_for_each_cons.
  by apply flush_arrived.
Qed.

Lemma char_arrived e b c chs ch : event_tokens e b = [Char ch] -> event_flushes e b = 1%nat -> arrived c chs ->
  0 <= ch < 128 -> ch <> DUMP_CHAR -> Z.of_nat (length chs) + 1 < THRESHOLD ->
  wp (event_con dumps e b) (fun _ c' => arrived c' (chs ++ [ch])) c.
Proof.
  intros Ht Hf Hc Hr Hd Hl. unfold event_con. rewrite Ht, Hf. cbn [replicate]. apply wp_bind, wp_for_each_cons. cbn [put_token].
  eapply wp_mono; [apply put_arrived; try done; lia|]. cbn beta. intros _ c1 Hc1. apply wp_for_each_nil, wp_for_each_cons.
  apply flush_arrived; [done|]. rewrite length_app. cbn [length]. lia.
Qed.

Lemma events_con_app es1 es2 : forall b c (Q : unit -> con -> Prop),
  wp (events_con dumps es1 b) (fun _ c1 => wp (events_con dumps es2 (apply_events es1 b)) Q c1) c ->
  wp (events_con dumps (es1 ++ es2) b) Q c.
Proof.
  induction es1 as [|e es1 IH]; intros b c Q HQ; [exact HQ|]. cbn [app events_con] in *. apply wp_bind. apply wp_bind_inv in HQ.
  eapply wp_mono; [exact HQ|]. cbn beta. intros [] c1 H1. by apply IH.
Qed.

(** One character: its key alone gives a character, and at the end all keys
    are up. *)
Lemma type_char_con c chs ch : arrived c chs -> 0 <= ch < 128 -> ch <> DUMP_CHAR -> Z.of_nat (length chs) + 1 < THRESHOLD ->
  Forall event_ok (type_char ch) /\ apply_events (type_char ch) board0 = board0 /\
  wp (events_con dumps (type_char ch) board0) (fun _ c' => arrived c' (chs ++ [ch])) c.
Proof.
  intros Hc Hr Hd Hl. destruct (strokes_ok ch Hr) as (sh & cmd & code & Es & Hcode & Hm & Ht). unfold type_char. rewrite Es.
  assert (Hm' : code <> KC_SHIFT /\ code <> KC_LOCK /\ code <> KC_COMMAND).
  { unfold modifier in Hm. rewrite !orb_false_iff, !Z.eqb_neq in Hm. tauto. }
  destruct Hm' as (N1 & N2 & N3).
  assert (Hdown : forall b, apply_event (key true code) b = b <| held := Some (code, REPEAT_DELAY) |>).
  { intros b. cbn [key apply_event apply_report]. rewrite !(proj2 (Z.eqb_neq code _)) by done. by rewrite (proj2 (Z.leb_le 32 code)) by lia. }
  assert (Hup : forall b n, held b = Some (code, n) -> apply_event (key false code) b = b <| held := None |>).
  { intros b n Hb. cbn [key apply_event apply_report]. rewrite !(proj2 (Z.eqb_neq code _)) by done. rewrite Hb. cbn [fmap option_fmap option_map fst].
    by rewrite bool_decide_true. }
  assert (Hpair : forall chs c, arrived c chs -> Z.of_nat (length chs) + 1 < THRESHOLD ->
    let b := mk_board sh false cmd None in
    apply_events [key true code; key false code] b = b /\
    wp (events_con dumps [key true code; key false code] b) (fun _ c' => arrived c' (chs ++ [ch])) c).
  { clear c chs Hc Hl. intros chs c Hc Hl b. unfold apply_events. cbn [foldl]. rewrite Hdown, (Hup (b <| held := Some (code, REPEAT_DELAY) |>) REPEAT_DELAY) by done. split; [done|].
    cbn [events_con]. apply wp_bind. eapply wp_mono; [apply (char_arrived _ _ c chs ch); try done|].
    - cbn [event_tokens key report_tokens]. by rewrite Hm.
    - cbn beta. intros _ c1 Hc1. apply wp_bind. eapply wp_mono; [apply (quiet_arrived _ _ c1 (chs ++ [ch])); try done|].
      + rewrite length_app. cbn [length]. lia.
      + cbn beta. intros _ c2 Hc2. by apply wp_ret. }
  assert (Hok : event_ok (key true code) /\ event_ok (key false code)) by (cbn; lia).
  set (pre := (if cmd then [key true KC_COMMAND] else []) ++ (if sh then [key true KC_SHIFT] else [])).
  set (post := (if sh then [key false KC_SHIFT] else []) ++ (if cmd then [key false KC_COMMAND] else [])).
  rewrite app_assoc. fold pre.
  assert (Hpre : apply_events pre board0 = mk_board sh false cmd None) by (unfold pre; by destruct sh, cmd).
  assert (Hpost : apply_events post (mk_board sh false cmd None) = board0) by (unfold post; by destruct sh, cmd).
  destruct (Hpair chs c Hc Hl) as [HA _].
  assert (Hq : forall es b c chs, es = pre \/ es = post -> arrived c chs -> Z.of_nat (length chs) < THRESHOLD ->
    wp (events_con dumps es b) (fun _ c' => arrived c' chs) c).
  { intros es b c1 chs1 He Hc1 Hl1.
    assert (Hall : Forall (fun e => forall b, event_tokens e b = [] /\ event_flushes e b = 1%nat) es)
      by (destruct He as [-> | ->]; unfold pre, post; destruct sh, cmd; repeat (apply Forall_cons; split); done).
    clear He. revert b c1 Hc1. induction Hall as [|e es He _ IH]; intros b c1 Hc1; cbn [events_con]; [by apply wp_ret|].
    apply wp_bind. destruct (He b) as [E1 E2]. eapply wp_mono; [by apply (quiet_arrived _ _ c1 chs1)|]. cbn beta. intros [] c2 Hc2. by apply IH. }
  split; [|split].
  - rewrite !Forall_app. split_and!; [unfold pre; destruct sh, cmd|repeat (apply Forall_cons; split); try apply Forall_nil; tauto|unfold post; destruct sh, cmd];
      repeat (apply Forall_cons; split); try apply Forall_nil; try done; cbn; unfold KC_SHIFT, KC_COMMAND; lia.
  - unfold apply_events in *. by rewrite !foldl_app, Hpre, HA.
  - apply events_con_app. eapply wp_mono; [apply (Hq pre board0 c chs); [by left|done|lia]|]. cbn beta. intros _ c1 Hc1.
    rewrite Hpre. apply events_con_app. destruct (Hpair chs c1 Hc1 Hl) as [_ Hrun]. eapply wp_mono; [exact Hrun|]. cbn beta.
    intros _ c2 Hc2. rewrite HA. apply (Hq post); [by right|done|]. rewrite length_app. cbn [length]. lia.
Qed.

Lemma type_text_con text : forall c chs, arrived c chs -> Forall (fun ch => 0 <= ch < 128 /\ ch <> DUMP_CHAR) text ->
  Z.of_nat (length chs + length text) < THRESHOLD ->
  Forall event_ok (flat_map type_char text) /\ apply_events (flat_map type_char text) board0 = board0 /\
  wp (events_con dumps (flat_map type_char text) board0) (fun _ c' => arrived c' (chs ++ text)) c.
Proof.
  induction text as [|ch text IH]; intros c chs Hc Hch Hl; cbn [flat_map length] in *.
  - split_and!; [apply Forall_nil; done|done|]. apply wp_ret. by rewrite app_nil_r.
  - apply Forall_cons in Hch as [[Hr Hd] Hch]. destruct (type_char_con c chs ch Hc Hr Hd ltac:(lia)) as (O1 & A1 & R1).
    assert (Hrest : forall c1, arrived c1 (chs ++ [ch]) -> _) by (intros c1 Hc1; exact (IH c1 (chs ++ [ch]) Hc1 Hch
      ltac:(rewrite length_app; cbn [length]; lia))).
    apply wp_run in R1 as ([] & c1 & E1 & Hc1). destruct (Hrest c1 Hc1) as (O2 & A2 & R2).
    split_and!; [by apply Forall_app|unfold apply_events in *; by rewrite foldl_app, A1|].
    apply events_con_app. unfold wp at 1. rewrite E1, A1. by rewrite <- app_assoc in R2.
Qed.
End typing.

(** ** Properties *)


(** Typing a text: with all keys up, pressing and releasing the keys of
    any ASCII text (Control-T excepted), with Shift and Command where they are
    needed, puts exactly that text into the driver's buffer, behind what was
    there, and leaves all keys up; the rest of the terminal is as it was. *)
Theorem typed_text_arrives dumps k chs text : stands board0 k -> buffered (kcon k) chs ->
  Forall (fun ch => 0 <= ch < 128 /\ ch <> DUMP_CHAR) text -> Z.of_nat (length chs + length text) < THRESHOLD ->
  wp (for_each (flat_map type_char text) (run_event dumps)) (fun _ k' => stands board0 k' /\
    buffered (kcon k') (chs ++ text) /\ tp (kcon k') = tp (kcon k) /\ screen (kcon k') = screen (kcon k)) k.
Proof.
  intros Hs Hb Ht Hl.
  destruct (type_text_con dumps (kcon k) text (kcon k) chs) as (Hok & Ha & Hc); [by split|done|done|].
  eapply wp_mono; [exact (events_run dumps _ _ k _ Hok Hs Hc)|]. cbn beta.
  intros [] k' (Hs' & _ & _ & (Hb' & E1 & _ & E2 & _)). by rewrite Ha in Hs'.
Qed.

(** C33. Reading the clock chip: the bytes that stand for a date and time of
    1980 to 1995, sent while the driver waits for a key, set the time of day
    ([boot_time] and the seconds since) to the seconds from 1970 to that date
    in the Gregorian calendar. *)
Theorem clock_reading_round_trip dumps b k y day hour min sec tenth : stands b k ->
  drv_count (kcon k) < THRESHOLD -> 0 <= realtime k < 2 ^ 31 ->
  0 <= y <= 15 -> 1 <= day <= year_days (1980 + y) -> 0 <= hour <= 23 -> 0 <= min <= 59 -> 0 <= sec <= 59 -> 0 <= tenth <= 9 ->
  wp (for_each (report_bytes (Reading y (bcd_bytes day hour min sec tenth))) (fun c => lisa_cops_int dumps (Some c)))
    (fun _ k' => boot_time k' + Z.quot (realtime k') HZ = unix_time (1980 + y) day hour min sec /\ realtime k' = realtime k /\
       stands (b <| shift := false |> <| command := false |> <| held := None |>) k') k.
Proof.
  intros Hs Hd Hr Hy Hday Hh Hm Hsec Ht.
  assert (Hy366 : year_days (1980 + y) <= 366) by (unfold year_days; destruct (leap _); lia).
  set (bs := bcd_bytes day hour min sec tenth).
  assert (Hbs : report_ok (Reading y bs)).
  { split_and!; [lia|lia|done|]. unfold bs, bcd_bytes. repeat (apply Forall_cons; split); try apply Forall_nil; try done; unfold is_byte; zlia. }
  assert (Hflush : forall n c, drv_count c < THRESHOLD ->
    wp (for_each (replicate n tt) (fun _ => flush_input)) (fun _ _ => True) c).
  { induction n as [|n IH]; intros c Hc; [done|]. cbn [replicate]. apply wp_for_each_cons. unfold flush_input.
    apply wp_bind, wp_gets. rewrite (proj2 (Z.ltb_lt _ _)) by done. apply wp_modify. by apply IH. }
  eapply wp_mono; [apply (event_run dumps (Report (Reading y bs)) b k (fun _ _ => True) Hbs Hs)|].
  - unfold event_con. cbn [event_tokens report_tokens]. apply wp_bind, wp_for_each_nil. by apply Hflush.
  - intros [] k' (Hs' & Hb' & Hr' & _). split_and!; [|exact Hr'|exact Hs'].
    rewrite Hb', Hr'. cbn [apply_clock]. unfold bs. rewrite reading_of_date by lia.
    assert (Hu : 0 <= unix_time (1980 + y) day hour min sec < 2 ^ 30).
    { unfold unix_time. rewrite <- days_gregorian by done. pose proof (days_range y Hy). lia. }
    assert (Hq : 0 <= Z.quot (realtime k) HZ < 2 ^ 31).
    { unfold HZ. rewrite Z.quot_div_nonneg by lia. zlia. }
    rewrite s32_id by lia. lia.
Qed.

(** ** Examples *)
Definition demo_con : con :=
  mk_con (mk_sst (mk_kst [] 0 0 [] [] None None 0 false 0 ∅ 0) (fun _ => 0) false 0) tty0 0 MAX_OVERRUN
    (replicate (Z.to_nat (2 * MAX_OVERRUN)) 0) [] [] 0 0 vdu0 [] [].
Definition demo_kbd : kbd := mk_kbd demo_con 0 600 S_KEY 0 0 [0; 0; 0; 0; 0] 0 0 0 0 0.

Lemma demo_stands : stands board0 demo_kbd.
Proof. by split. Qed.


(** Hello. *)
Lemma typed_text_arrives_witness :
  wp (for_each (flat_map type_char [72; 105; 33; 10]) (run_event (mret tt))) (fun _ k' => stands board0 k' /\
    buffered (kcon k') [72; 105; 33; 10] /\ tp (kcon k') = tp demo_con /\ screen (kcon k') = screen demo_con) demo_kbd.
Proof.
  apply (typed_text_arrives (mret tt) demo_kbd [] [72; 105; 33; 10]).
  - exact demo_stands.
  - by split_and!.
  - repeat (apply Forall_cons; split); try apply Forall_nil; try done; unfold DUMP_CHAR; lia.
  - done.
Defined.

(** 29 February 1984, 23:59:58. *)
Lemma clock_reading_round_trip_witness :
  unix_time 1984 60 23 59 58 = 446947198 /\
  wp (for_each (report_bytes (Reading 4 (bcd_bytes 60 23 59 58 7))) (fun c => lisa_cops_int (mret tt) (Some c)))
    (fun _ k' => boot_time k' + Z.quot (realtime k') HZ = unix_time 1984 60 23 59 58 /\ realtime k' = 600 /\ stands board0 k') demo_kbd.
Proof.
  split; [by vm_compute|].
  apply (clock_reading_round_trip (mret tt) board0 demo_kbd 4 60 23 59 58 7); try lia; try done.
Defined.
