(* ===== verification/Profile.v ===== *)
(** * The ProFile hard disk: [src/kernel/lisa/lisapro.c]

    The driver polls a 6522 on the parallel port. The device behind the port
    is a parameter (class [Port]): any answers to reads, any effect of writes.
    What a ProFile answers, as the head of lisapro.c describes its protocol,
    is the automaton of [Protocol] and the class [Drive] of the ports that
    keep to it. *)

From S2P Require Import Prelude KProc KSystem Driver.

Definition V_ORB : Z := 0.
Definition V_ORA : Z := 1.
Definition V_DDRB : Z := 2.
Definition V_DDRA : Z := 3.
Definition V_ACR : Z := 11.
Definition V_PCR : Z := 12.
Definition V_IER : Z := 14.
Definition PB_BSY : Z := 2.
Definition PB_DEN : Z := 4.
Definition PB_DRW : Z := 8.
Definition PB_CMD : Z := 16.
Definition S_CMD : Z := 1.
Definition S_READ : Z := 2.
Definition S_WRITE : Z := 3.
Definition S_PERFORM : Z := 6.
Definition P_GO : Z := 85.
Definition P_IDLE : Z := 0.
Definition PRO_READ : Z := 0.
Definition PRO_WRITE : Z := 1.
Definition STATUS_BYTES : nat := 4.
Definition TAG_BYTES : nat := 20.
Definition SECTOR_SIZE : Z := 512.
Definition SECTOR : nat := 512.
Definition SPARE_TABLE : Z := 16777215.
Definition ST1_ERRORS : Z := 221.
Definition ST3_RESET : Z := 128.
Definition MAX_ERRORS : nat := 5.
Definition BSY_WAIT : nat := Z.to_nat 200000.
Definition NR_MINORS : Z := 2.
Definition MINOR_FS : nat := 0.
Definition MINOR_WHOLE : nat := 1.
Definition HDR_MAGIC : Z := 1296979020.
Definition H_FS_FIRST : nat := 24.
Definition H_FS_COUNT : nat := 28.

(** A partition: first ProFile block and size. *)
Record partition := mk_part { start : Z; psize : Z }.
#[export] Instance partition_inh : Inhabited partition := populate (mk_part 0 0).

Section profile.
Context {D : Type} `{Port D}.

Record pst := mk_pst {
  p_sys : sst;
  pdev : D;
  part : list partition;
  status : list Z;
  blockbuf : list Z;
}.
#[export] Instance pst_upd : Updatable pst := fun s =>
  mk_pst (p_sys s) (pdev s) (part s) (status s) (blockbuf s).
#[export, refine] Instance pst_sys : HasSys pst := {| the_sys := p_sys; put_sys k s := s <| p_sys := k |> |}.
Proof. all: by intros; try destruct s. Defined.

Definition via_rd (r : Z) : M pst Z :=
  fun s => let (v, d) := port_rd r (pdev s) in Done v (s <| pdev := d |>).
Definition via_wr (r v : Z) : M pst unit := modify (fun s => s <| pdev ::= port_wr r v |>).
Definition via_or (r m : Z) : M pst unit := v ← via_rd r; via_wr r (Z.lor v m).
Definition via_clr (r m : Z) : M pst unit := v ← via_rd r; via_wr r (Z.land v (Z.lnot m)).

Definition pro_idle : M pst unit :=
  via_wr V_IER 127;;
  via_wr V_ACR 0;;
  via_wr V_PCR 107;;
  via_wr V_DDRA 0;;
  via_wr V_DDRB (Z.lor (Z.lor PB_DEN PB_DRW) PB_CMD);;
  v ← via_rd V_ORB;
  via_wr V_ORB (Z.lor (Z.lor (Z.land v (Z.lnot PB_DEN)) PB_DRW) PB_CMD).

(** [for (n = BSY_WAIT; /BSY is not as wanted; n--) if (n == 0) goto timeout;]
    The result is whether /BSY came. *)
Fixpoint bsy_wait (want : bool) (n : nat) : M pst bool :=
  v ← via_rd V_ORB;
  if Bool.eqb (tst v PB_BSY) want then mret true else
  match n with
  | O => mret false
  | S n' => bsy_wait want n'
  end.

Definition timeout : M pst Z := pro_idle;; mret EIO.

Definition pro_handshake (state : Z) : M pst Z :=
  ok ← bsy_wait true BSY_WAIT;
  if negb ok then timeout else
  via_or V_ORB PB_DRW;;
  via_wr V_DDRA 0;;
  via_clr V_ORB PB_CMD;;
  ok ← bsy_wait false BSY_WAIT;
  if negb ok then timeout else
  resp ← via_rd V_ORA;
  let resp := Z.land resp 255 in
  via_clr V_ORB PB_DRW;;
  via_wr V_DDRA 255;;
  via_wr V_ORA (if resp =? state then P_GO else P_IDLE);;
  via_or V_ORB PB_CMD;;
  ok ← bsy_wait true BSY_WAIT;
  if negb ok then timeout else
  if negb (resp =? state) then pro_idle;; mret EIO else
  mret OK.

(** [n] reads of the data register, and writes to it. *)
Fixpoint ora_read (n : nat) : M pst (list Z) :=
  match n with
  | O => mret []
  | S n' => v ← via_rd V_ORA; l ← ora_read n'; mret (v :: l)
  end.
Definition ora_write (l : list Z) : M pst unit := for_each l (via_wr V_ORA).

Definition pro_block (cmd block : Z) : M pst Z :=
  modify (fun s => s <| status := replicate STATUS_BYTES 0 |>);;
  r ← pro_handshake S_CMD;
  if negb (r =? OK) then mret EIO else
  ora_write [cmd; Z.land (s16 (Z.shiftr block 16)) 255; Z.land (s16 (Z.shiftr block 8)) 255; Z.land (s16 block) 255; 10; 3];;
  r ← (if cmd =? PRO_READ then pro_handshake S_READ else
       r ← pro_handshake S_WRITE;
       if negb (r =? OK) then mret EIO else
       via_clr V_ORB PB_DRW;;
       via_wr V_DDRA 255;;
       buf ← gets blockbuf;
       ora_write (take (TAG_BYTES + SECTOR) buf);;
       pro_handshake S_PERFORM);
  if negb (r =? OK) then mret EIO else
  via_or V_ORB PB_DRW;;
  via_wr V_DDRA 0;;
  st ← ora_read STATUS_BYTES;
  modify (fun s => s <| status := st |>);;
  when (cmd =? PRO_READ)
    (l ← ora_read (TAG_BYTES + SECTOR); modify (fun s => s <| blockbuf := l |>));;
  pro_idle;;
  if tst (st !!! 0%nat) ST1_ERRORS || tst (st !!! 2%nat) ST3_RESET then mret EIO else mret OK.

(** Up to [n] tries. *)
Fixpoint pro_retry (n : nat) (cmd block r : Z) : M pst Z :=
  match n with
  | O => mret r
  | S n' => r ← pro_block cmd block; if r =? OK then mret OK else pro_retry n' cmd block r
  end.

(** The loop of [do_rdwt] from block [n] on, for [k] more: the status and the
    count of blocks tried. *)
Fixpoint rdwt_loop (k : nat) (rq : dreq) (address block n : Z) : M pst (Z * Z) :=
  match k with
  | O => mret (OK, n)
  | S k' =>
      let p := address + n * SECTOR_SIZE in
      when (rq_type rq =? DISK_WRITE)
        (m ← gets memory;
         modify (fun s => s <| blockbuf := replicate TAG_BYTES 0 ++ bytes_of m p SECTOR |>));;
      r ← pro_retry MAX_ERRORS (if rq_type rq =? DISK_WRITE then PRO_WRITE else PRO_READ) (s32 (block + n)) OK;
      when ((r =? OK) && (rq_type rq =? DISK_READ))
        (buf ← gets blockbuf;
         in_sst (modify (fun s => s <| pmem ::= put_bytes p (take SECTOR (drop TAG_BYTES buf)) |>)));;
      if r =? OK then rdwt_loop k' rq address block (n + 1) else mret (r, n + 1)
  end.

Definition do_rdwt (rq : dreq) : M pst Z :=
  let minor := DEVICE rq in
  size ← gets (fun s => psize (part s !!! Z.to_nat minor));
  if (minor <? 0) || (NR_MINORS <=? minor) || (size =? 0) then mret EIO else
  if nz (Z.rem (POSITION rq) SECTOR_SIZE) || nz (Z.rem (COUNT rq) SECTOR_SIZE) then mret EINVAL else
  let block := Z.quot (POSITION rq) SECTOR_SIZE in
  let count := Z.quot (COUNT rq) SECTOR_SIZE in
  let rp := proc_addr (PROC_NR rq) in
  address ← in_sst (numap (PROC_NR rq) (ADDRESS rq) (COUNT rq));
  if address =? 0 then mret EINVAL else
  let avail := s32 (size - block) in
  if avail <=? 0 then mret 0 else
  let count := if avail <? count then avail else count in
  first ← gets (fun s => start (part s !!! Z.to_nat minor));
  in_sst (updP rp (fun p => p <| p_physio := true |>));;
  '(r, n) ← rdwt_loop (Z.to_nat count) rq address (s32 (block + first)) 0;
  in_sst (updP rp (fun p => p <| p_physio := false |>));;
  mret (if negb (r =? OK) then (if 1 <? n then (n - 1) * SECTOR_SIZE else EIO) else count * SECTOR_SIZE).

(** Four bytes of a block, most significant first. *)
Definition get_long (b : list Z) (i : nat) : Z :=
  s32 (Z.lor (Z.lor (Z.shiftl (b !!! i) 24) (Z.shiftl (b !!! (i + 1)%nat) 16))
    (Z.lor (Z.shiftl (b !!! (i + 2)%nat) 8) (b !!! (i + 3)%nat))).

Definition set_part (i : nat) (p : partition) : M pst unit := modify (fun s => s <| part ::= <[i := p]> |>).

(** The start of [winchester_task]: the sizes of the disk and of the file
    system. *)
Definition winchester_init : M pst unit :=
  pro_idle;;
  r ← pro_block PRO_READ SPARE_TABLE;
  when (r =? OK)
    (b ← gets blockbuf;
     whole ← gets (fun s => part s !!! MINOR_WHOLE);
     set_part MINOR_WHOLE (mk_part (start whole)
       (Z.lor (Z.lor (Z.shiftl (b !!! 18%nat) 16) (Z.shiftl (b !!! 19%nat) 8)) (b !!! 20%nat))));;
  size ← gets (fun s => psize (part s !!! MINOR_WHOLE));
  if size =? 0 then mret tt else
  r ← pro_block PRO_READ 1;
  when (r =? OK)
    (b ← gets (fun s => drop TAG_BYTES (blockbuf s));
     when (get_long b 0 =? HDR_MAGIC)
       (set_part MINOR_FS (mk_part (get_long b H_FS_FIRST) (get_long b H_FS_COUNT)))).

Definition winchester_turn (iovec source : Z) (rq : dreq) : M pst dreply :=
  if source <? 0 then panic "disk task got message from" else
  r ← (if (rq_type rq =? DISK_READ) || (rq_type rq =? DISK_WRITE) then do_rdwt rq
       else if rq_type rq =? SCATTERED_IO then do_vrdwt iovec rq do_rdwt
       else mret EINVAL);
  mret (mk_dreply source (PROC_NR rq) r).
End profile.
Arguments pst D : clear implicits.

(** ** Whatever the port answers *)
Section any_port.
Context {D : Type} `{Port D}.

(** Only the port and the driver's buffers change. *)
Definition port_only (s s' : pst D) : Prop := p_sys s' = p_sys s /\ part s' = part s.
#[local] Instance port_only_po : PreOrder port_only.
Proof. split; [by split|]. intros s1 s2 s3 [A1 A2] [B1 B2]. split; congruence. Qed.

(** [m] returns, and touches nothing else. *)
Abbreviation safe := (total port_only).

Lemma safe_rd r : safe (via_rd r).
Proof. intros s. unfold wp, via_rd. destruct (port_rd r (pdev s)) as [v d]. by split. Qed.
Lemma safe_wr r v : safe (via_wr r v).
Proof. apply total_modify. by split. Qed.
Hint Resolve safe_rd safe_wr : total_db.
Lemma safe_bsy want n : safe (bsy_wait want n).
Proof. induction n as [|n IH]; cbn [bsy_wait]; total_tac. Qed.
Lemma safe_idle : safe pro_idle.
Proof. unfold pro_idle. total_tac. Qed.
Hint Resolve safe_bsy safe_idle : total_db.
Lemma safe_handshake st : safe (pro_handshake st).
Proof. unfold pro_handshake, timeout, via_or, via_clr. total_tac. Qed.
Lemma safe_ora_read n : safe (ora_read n).
Proof. induction n as [|n IH]; cbn [ora_read]; total_tac. Qed.
Lemma safe_ora_write l : safe (ora_write l).
Proof. unfold ora_write. induction l as [|v l IH]; cbn [for_each]; total_tac. Qed.
Hint Resolve safe_handshake safe_ora_read safe_ora_write : total_db.
Lemma safe_block cmd block : safe (pro_block cmd block).
Proof. unfold pro_block, via_or, via_clr. total_tac. Qed.
Hint Resolve safe_block : total_db.
Lemma safe_retry n cmd block : forall r, safe (pro_retry n cmd block r).
Proof. induction n as [|n IH]; intros r; cbn [pro_retry]; total_tac. Qed.

(** What a transfer of [count] sectors may do to memory. *)
Definition only_buffer (rq : dreq) (address count : Z) (s s' : pst D) : Prop :=
  kern s' = kern s /\ part s' = part s /\
  forall a, memory s' a <> memory s a -> rq_type rq = DISK_READ /\ within a address (count * SECTOR_SIZE).

Lemma rdwt_loop_safe k : forall rq address block n count s s0, 0 <= n -> n + Z.of_nat k = count -> only_buffer rq address count s0 s ->
  wp (rdwt_loop k rq address block n) (fun x s' => n <= snd x <= count /\ (fst x = OK -> snd x = count) /\
    (fst x <> OK -> n < snd x) /\ only_buffer rq address count s0 s') s.
Proof.
  induction k as [|k IH]; intros rq address block n count s s0 Hn Hc Ho; cbn [rdwt_loop].
  { apply wp_ret. cbn [fst snd]. split_and!; first [done|lia]. }
  assert (Hport : forall s1 s2, port_only s1 s2 -> only_buffer rq address count s0 s1 -> only_buffer rq address count s0 s2).
  { intros s1 s2 [E1 E2] [O1 [O2 O3]]. unfold only_buffer, kern, memory in *. cbn [the_sys pst_sys] in *. rewrite E1, E2. done. }
  apply wp_bind.
  assert (Hfill : safe (when (rq_type rq =? DISK_WRITE) (m ← gets memory;
     modify (fun s : pst D => s <| blockbuf := replicate TAG_BYTES 0 ++ bytes_of m (address + n * SECTOR_SIZE) SECTOR |>)))) by total_tac.
  eapply wp_mono; [apply Hfill|]. cbn beta. intros _ s1 H1. apply wp_bind.
  eapply wp_mono; [apply safe_retry|]. cbn beta. intros r s2 H2. apply wp_bind.
  assert (Ho2 : only_buffer rq address count s0 s2) by eauto.
  assert (Hfin : forall s3, only_buffer rq address count s0 s3 -> wp (if r =? OK then rdwt_loop k rq address block (n + 1) else mret (r, n + 1))
    (fun x s' => n <= snd x <= count /\ (fst x = OK -> snd x = count) /\ (fst x <> OK -> n < snd x) /\ only_buffer rq address count s0 s') s3).
  { intros s3 Ho3. destruct (Z.eqb_spec r OK) as [->|Hr].
    - eapply wp_mono; [apply (IH rq address block (n + 1) count s3 s0); [lia|lia|done]|]. cbn beta. intros x s4 (A1 & A2 & A3 & A4).
      split_and!; first [done|lia|intros Hx; specialize (A3 Hx); lia].
    - apply wp_ret. cbn [fst snd]. split_and!; first [done|lia]. }
  apply wp_when; [|intros _; by apply Hfin].
  intros [_ Ht%Z.eqb_eq]%andb_true_iff. apply wp_bind, wp_gets. unfold in_sst. apply wp_zoom, wp_modify. apply Hfin.
  destruct Ho2 as (O1 & O2 & O3). split_and!; [done|done|]. intros a Ha. cbn in Ha.
  set (l := take SECTOR (drop TAG_BYTES (blockbuf s2))) in *.
  destruct (decide (within a (address + n * SECTOR_SIZE) (Z.of_nat (length l)))) as [Hi|Hno].
  - split; [done|]. assert (length l <= SECTOR)%nat by (unfold l; rewrite length_take; lia).
    unfold within, SECTOR, SECTOR_SIZE in *. lia.
  - rewrite put_bytes_out in Ha by done. by apply O3.
Qed.

(** A transfer with any device: it ends, with an error or a number of bytes
    that was asked for; the process table is as before, and memory too, but for
    the buffer of a read. *)
Lemma do_rdwt_any rq s address : - 2 ^ 15 <= COUNT rq < 2 ^ 15 ->
  umap (P (proc_addr (PROC_NR rq)) (kern s)) seg_D_nr (ADDRESS rq) (COUNT rq) = address ->
  wp (do_rdwt rq) (fun r s' => (r = EIO \/ r = EINVAL \/ 0 <= r <= COUNT rq /\ r mod SECTOR_SIZE = 0) /\
    part s' = part s /\ (forall i, P i (kern s') = P i (kern s) \/ P i (kern s') = (P i (kern s)) <| p_physio := false |>) /\
    forall a, memory s' a <> memory s a -> rq_type rq = DISK_READ /\ within a address (COUNT rq)) s.
Proof.
  intros Hc Hu. unfold do_rdwt. apply wp_bind, wp_gets.
  assert (Hsame : forall r, (r = EIO \/ r = EINVAL) \/ r = 0 /\ 0 <= COUNT rq ->
    wp (mret r : M (pst D) Z) (fun r s' => (r = EIO \/ r = EINVAL \/ 0 <= r <= COUNT rq /\ r mod SECTOR_SIZE = 0) /\
    part s' = part s /\ (forall i, P i (kern s') = P i (kern s) \/ P i (kern s') = (P i (kern s)) <| p_physio := false |>) /\
    forall a, memory s' a <> memory s a -> rq_type rq = DISK_READ /\ within a address (COUNT rq)) s).
  { intros r Hr. apply wp_ret. split_and!; [|done|by left|done]. destruct Hr as [[->| ->]|[-> ?]]; [tauto|tauto|right; right; split; [lia|done]]. }
  destruct (_ || _ || _); [apply Hsame; tauto|]. destruct (_ || _) eqn:Er; [apply Hsame; tauto|].
  apply wp_bind, wp_numap. rewrite Hu. destruct (Z.eqb_spec address 0) as [|Ha]; [apply Hsame; tauto|].
  assert (Hpos : 0 < COUNT rq).
  { destruct (Z.ltb_spec 0 (COUNT rq)) as [Hp|Hp]; [lia|]. unfold umap in Hu. rewrite (proj2 (Z.leb_le _ 0)) in Hu by lia. lia. }
  destruct (_ <=? 0) eqn:Ea; [apply Hsame; right; lia|]. apply Z.leb_gt in Ea.
  apply orb_false_iff in Er as [_ Er]. unfold nz in Er. apply negb_false_iff, Z.eqb_eq in Er.
  rewrite Z.rem_mod_nonneg in Er by (unfold SECTOR_SIZE; lia). rewrite (Z.quot_div_nonneg (COUNT rq)) by (unfold SECTOR_SIZE; lia).
  cbv zeta. set (avail := s32 _) in *. set (cnt := if avail <? _ then _ else _).
  assert (Hcnt : 0 <= cnt <= COUNT rq / SECTOR_SIZE) by (unfold cnt; destruct (Z.ltb_spec avail (COUNT rq / SECTOR_SIZE)); unfold SECTOR_SIZE in *; zlia).
  assert (Hmul : COUNT rq = COUNT rq / SECTOR_SIZE * SECTOR_SIZE) by (unfold SECTOR_SIZE in *; zlia).
  apply wp_bind, wp_gets. apply wp_bind. unfold in_sst at 1, updP. apply wp_zoom. unfold in_ker, upd_proc. wp_steps.
  set (s1 := put_sys _ s).
  eapply wp_mono; [apply (rdwt_loop_safe (Z.to_nat cnt) rq address _ 0 cnt s1 s1); [lia|lia|by split_and!]|]. cbn beta.
  intros [r n] s2 (B1 & B2 & B3 & O1 & O2 & O3). cbn [fst snd] in *. unfold in_sst, updP. wp_steps. unfold in_ker, upd_proc. wp_steps.
  split_and!.
  - destruct (Z.eqb_spec r OK) as [->|Hr]; cbn [negb].
    + right; right. split; [unfold SECTOR_SIZE in *; lia|]. apply Z_mod_mult.
    + destruct (Z.ltb_spec 1 n); [|by left]. right; right. split; [unfold SECTOR_SIZE in *; lia|]. apply Z_mod_mult.
  - exact O2.
  - intros i. unfold kern in O1. cbn in O1 |- *. rewrite O1. unfold s1. cbn. unfold P. cbn [procs kst_upd set_field].
    destruct (decide (i = proc_addr (PROC_NR rq))) as [->|Hne].
    + destruct (decide (proc_addr (PROC_NR rq) < length (procs (ker (p_sys s))))%nat) as [Hlt|Hge].
      * right. apply list_lookup_total_correct. rewrite !list_lookup_alter_eq.
        rewrite (list_lookup_lookup_total_lt (procs (ker (p_sys s)))) by done. done.
      * left. rewrite !list_lookup_total_alt.
        by rewrite !(lookup_ge_None_2 _ (proc_addr (PROC_NR rq))) by (rewrite ?length_alter; unfold kern; cbn; lia).
    + left. by rewrite !list_lookup_total_alter_ne by done.
  - intros a Hm. cbn in Hm. destruct (O3 a) as [E1 E2]; [exact Hm|]. split; [done|]. unfold within in *. unfold SECTOR_SIZE in *. lia.
Qed.
End any_port.

(** ** The protocol *)
Module Protocol.

(** What the drive has been told to do: nothing, to read a block, to write
    one, to perform the write of the data it has. *)
Inductive job := NoJob | JRead (b : Z) | JWrite (b : Z) | JPerform (b : Z) (l : list Z).
Definition wants (j : job) : Z :=
  match j with NoJob => S_CMD | JRead _ => S_READ | JWrite _ => S_WRITE | JPerform _ _ => S_PERFORM end.

(** Waiting for /CMD; its state byte on the bus; told to go; taking a command,
    or data; giving status and data. *)
Inductive phase :=
| Ready (j : job)
| Asked (j : job)
| Granted (j : job)
| Command (l : list Z)
| Taking (b : Z) (l : list Z)
| Giving (l : list Z).

(** The level of /BSY when the drive has settled: high but in a handshake. *)
Definition line (p : phase) : bool := match p with Asked _ | Granted _ => false | _ => true end.

(** The drive and the port's outputs: direction (from the drive or not), /CMD,
    data port as output, and whether the host has seen /BSY settle. *)
Record pview := mk_view { ph : phase; drw : bool; cmd : bool; out : bool; fresh : bool; disk : Z -> list Z }.
#[export] Instance view_upd : Updatable pview := fun v => mk_view (ph v) (drw v) (cmd v) (out v) (fresh v) (disk v).

Definition BLOCK : nat := TAG_BYTES + SECTOR.

Section automaton.
(** The status bytes of a drive without errors. *)
Context (good : list Z).

Definition accept (j : job) (v : pview) : pview :=
  match j with
  | NoJob => v <| ph := Command [] |>
  | JRead b => v <| ph := Giving (good ++ disk v b) |>
  | JWrite b => v <| ph := Taking b [] |>
  | JPerform b l => v <| ph := Giving good |> <| disk ::= fun f => fun b' => if decide (b' = b) then l else f b' |>
  end.

Definition command_of (l : list Z) : option job :=
  let b := l !!! 1%nat * 65536 + l !!! 2%nat * 256 + l !!! 3%nat in
  if l !!! 0%nat =? PRO_READ then Some (JRead b) else if l !!! 0%nat =? PRO_WRITE then Some (JWrite b) else None.

(** A write to a register: [None] is an access outside the protocol. *)
Definition proto_wr (r x : Z) (v : pview) : option pview :=
  if r =? V_ORB then
    let v' := v <| drw := tst x PB_DRW |> <| cmd := tst x PB_CMD |> in
    match cmd v, tst x PB_CMD, ph v with
    | true, false, Ready j => if fresh v then Some (v' <| ph := Asked j |> <| fresh := false |>) else None
    | false, true, Granted j => Some (accept j v' <| fresh := false |>)
    | true, true, _ | false, false, _ => Some v'
    | _, _, _ => None
    end
  else if r =? V_ORA then
    if drw v || negb (out v) || negb (fresh v) then None else
    match ph v with
    | Asked j => if x =? P_GO then Some (v <| ph := Granted j |>) else None
    | Command l =>
        let l := l ++ [x] in
        if (length l <? 6)%nat then Some (v <| ph := Command l |>)
        else j ← command_of l; Some (v <| ph := Ready j |>)
    | Taking b l =>
        let l := l ++ [x] in
        Some (v <| ph := if (length l <? BLOCK)%nat then Taking b l else Ready (JPerform b l) |>)
    | _ => None
    end
  else if r =? V_DDRA then Some (v <| out := nz x |>)
  else Some v.

(** A read of the data register. *)
Definition proto_ora (v : pview) : option (Z * pview) :=
  if negb (drw v) || out v || negb (fresh v) then None else
  match ph v with
  | Asked j => Some (wants j, v)
  | Giving (x :: l) => Some (x, v <| ph := match l with [] => Ready NoJob | _ => Giving l end |>)
  | _ => None
  end.
End automaton.

(** A port with a ProFile on it that answers every command: used as the
    protocol says, it behaves as the automaton, and /BSY settles before the
    driver gives up. *)
Class Drive (D : Type) `{Port D} := {
  view : D -> pview;
  good : list Z;
  dr_good : length good = STATUS_BYTES /\ tst (good !!! 0%nat) ST1_ERRORS = false /\ tst (good !!! 2%nat) ST3_RESET = false;
  dr_wr r x d w : 0 <= x < 256 -> proto_wr good r x (view d) = Some w -> view (port_wr r x d) = w;
  dr_data x d w : proto_wr good V_ORA x (view d) = Some w -> view (port_wr V_ORA x d) = w;
  dr_ora d x w : proto_ora (view d) = Some (x, w) ->
    fst (port_rd V_ORA d) = x /\ view (snd (port_rd V_ORA d)) = w;
  dr_orb d : let x := fst (port_rd V_ORB d) in
    0 <= x < 256 /\ tst x PB_DRW = drw (view d) /\ tst x PB_CMD = cmd (view d) /\
    (fresh (view d) = true -> tst x PB_BSY = line (ph (view d))) /\
    view (snd (port_rd V_ORB d)) =
      if Bool.eqb (tst x PB_BSY) (line (ph (view d))) then (view d) <| fresh := true |> else view d;
  dr_settle d : exists n, (n <= BSY_WAIT)%nat /\
    tst (fst (port_rd V_ORB (Nat.iter n (fun d => snd (port_rd V_ORB d)) d))) PB_BSY = line (ph (view d));
}.

(** ** The driver and the protocol *)
Section protocol.
Context {D : Type} `{Drive D}.
Implicit Types (s : pst D) (v : pview).

Definition vw (s : pst D) : pview := view (pdev s).
(** Only the drive has changed. *)
Definition frame (s s' : pst D) : Prop := s' = s <| pdev := pdev s' |>.
#[local] Instance frame_po : PreOrder frame.
Proof.
  split; [by intros []|]. intros [] [] []. unfold frame. cbn. intros E1 E2. injection E1 as -> -> -> ->. by injection E2 as -> -> -> ->.
Qed.

(** From view [v] to view [v'], with a result in [R]. *)
Definition moves {A} (m : M (pst D) A) (v : pview) (R : A -> Prop) (v' : pview) : Prop :=
  forall s, vw s = v -> wp m (fun a s' => R a /\ vw s' = v' /\ frame s s') s.

Lemma moves_bind {A B} (m : M (pst D) A) (k : A -> M (pst D) B) v R1 v1 R v' :
  moves m v R1 v1 -> (forall a, R1 a -> moves (k a) v1 R v') -> moves (m ≫= k) v R v'.
Proof.
  intros Hm Hk s Hs. apply wp_bind. eapply wp_mono; [by apply Hm|]. cbn beta. intros a s1 (Ha & Hv & Hf).
  eapply wp_mono; [exact (Hk a Ha s1 Hv)|]. cbn beta. intros b s2 (Hb & Hv2 & Hf2). split_and!; [done|done|by transitivity s1].
Qed.
Lemma moves_ret {A} (a : A) v (R : A -> Prop) : R a -> moves (mret a) v R v.
Proof. intros Ha s Hs. apply wp_ret. split_and!; [done|done|reflexivity]. Qed.

Lemma moves_wr r x v v' : 0 <= x < 256 -> proto_wr good r x v = Some v' -> moves (via_wr r x) v (fun _ => True) v'.
Proof.
  intros Hx Hp s Hs. apply wp_modify. split_and!; [done| |done]. unfold vw. cbn. apply (dr_wr r x (pdev s)); [done|].
  fold (vw s). by rewrite Hs.
Qed.

Lemma moves_data x v v' : proto_wr good V_ORA x v = Some v' -> moves (via_wr V_ORA x) v (fun _ => True) v'.
Proof.
  intros Hp s Hs. apply wp_modify. split_and!; [done| |done]. unfold vw. cbn. apply (dr_data x (pdev s)).
  fold (vw s). by rewrite Hs.
Qed.

Lemma moves_ora x v v' : proto_ora v = Some (x, v') -> moves (via_rd V_ORA) v (fun y => y = x) v'.
Proof.
  intros Hp s Hs. unfold wp, via_rd. pose proof (dr_ora (pdev s) x v') as Hr. fold (vw s) in Hr. rewrite Hs in Hr.
  destruct (Hr Hp) as [E1 E2]. destruct (port_rd V_ORA (pdev s)) as [y d]. cbn in *. done.
Qed.

(** Reading port B with /BSY settled and seen. *)
Lemma moves_orb v : fresh v = true -> moves (via_rd V_ORB) v (fun x => 0 <= x < 256 /\ tst x PB_DRW = drw v /\ tst x PB_CMD = cmd v) v.
Proof.
  intros Hf s Hs. unfold wp, via_rd. pose proof (dr_orb (pdev s)) as (E1 & E2 & E3 & E4 & E5). fold (vw s) in *. rewrite Hs in *.
  destruct (port_rd V_ORB (pdev s)) as [x d]. cbn in *. split_and!; try done; [tauto|tauto|].
  unfold vw. cbn. rewrite E5, (E4 Hf), Bool.eqb_reflx. destruct v. cbn in *. by subst.
Qed.

(** The bits of port B. *)
Lemma port_bits x : 0 <= x < 256 ->
  (0 <= Z.lor x PB_DRW < 256 /\ tst (Z.lor x PB_DRW) PB_DRW = true /\ tst (Z.lor x PB_DRW) PB_CMD = tst x PB_CMD) /\
  (0 <= Z.land x (Z.lnot PB_DRW) < 256 /\ tst (Z.land x (Z.lnot PB_DRW)) PB_DRW = false /\
     tst (Z.land x (Z.lnot PB_DRW)) PB_CMD = tst x PB_CMD) /\
  (0 <= Z.lor x PB_CMD < 256 /\ tst (Z.lor x PB_CMD) PB_CMD = true /\ tst (Z.lor x PB_CMD) PB_DRW = tst x PB_DRW) /\
  (0 <= Z.land x (Z.lnot PB_CMD) < 256 /\ tst (Z.land x (Z.lnot PB_CMD)) PB_CMD = false /\
     tst (Z.land x (Z.lnot PB_CMD)) PB_DRW = tst x PB_DRW) /\
  let y := Z.lor (Z.lor (Z.land x (Z.lnot PB_DEN)) PB_DRW) PB_CMD in
  0 <= y < 256 /\ tst y PB_CMD = true /\ tst y PB_DRW = true.
Proof.
  intros Hx.
  assert (Hb : forallb (fun x =>
    let inb y := (0 <=? y) && (y <? 256) in
    let y := Z.lor (Z.lor (Z.land x (Z.lnot PB_DEN)) PB_DRW) PB_CMD in
    inb (Z.lor x PB_DRW) && Bool.eqb (tst (Z.lor x PB_DRW) PB_DRW) true && Bool.eqb (tst (Z.lor x PB_DRW) PB_CMD) (tst x PB_CMD) &&
    (inb (Z.land x (Z.lnot PB_DRW)) && Bool.eqb (tst (Z.land x (Z.lnot PB_DRW)) PB_DRW) false &&
      Bool.eqb (tst (Z.land x (Z.lnot PB_DRW)) PB_CMD) (tst x PB_CMD)) &&
    (inb (Z.lor x PB_CMD) && Bool.eqb (tst (Z.lor x PB_CMD) PB_CMD) true && Bool.eqb (tst (Z.lor x PB_CMD) PB_DRW) (tst x PB_DRW)) &&
    (inb (Z.land x (Z.lnot PB_CMD)) && Bool.eqb (tst (Z.land x (Z.lnot PB_CMD)) PB_CMD) false &&
      Bool.eqb (tst (Z.land x (Z.lnot PB_CMD)) PB_DRW) (tst x PB_DRW)) &&
    (inb y && Bool.eqb (tst y PB_CMD) true && Bool.eqb (tst y PB_DRW) true)) (seqZ 0 256) = true) by (vm_compute; reflexivity).
  rewrite forallb_forall in Hb. specialize (Hb x ltac:(apply list_elem_of_In, elem_of_seqZ; lia)). cbv zeta in Hb |- *.
  rewrite !andb_true_iff, !Bool.eqb_true_iff, !Z.leb_le, !Z.ltb_lt in Hb. tauto.
Qed.

Lemma moves_or_drw v : fresh v = true -> moves (via_or V_ORB PB_DRW) v (fun _ => True) (v <| drw := true |>).
Proof.
  intros Hf. unfold via_or. eapply moves_bind; [by apply moves_orb|]. cbn beta. intros x (Hx & E1 & E2).
  destruct (port_bits x Hx) as ((B0 & B1 & B2) & _). apply moves_wr; [done|]. unfold proto_wr. cbn [Z.eqb V_ORB].
  rewrite B1, B2, E2. by destruct v as [p d [] o f di].
Qed.

Lemma moves_clr_drw v : fresh v = true -> moves (via_clr V_ORB PB_DRW) v (fun _ => True) (v <| drw := false |>).
Proof.
  intros Hf. unfold via_clr. eapply moves_bind; [by apply moves_orb|]. cbn beta. intros x (Hx & E1 & E2).
  destruct (port_bits x Hx) as (_ & (B0 & B1 & B2) & _). apply moves_wr; [done|]. unfold proto_wr. cbn [Z.eqb V_ORB].
  rewrite B1, B2, E2. by destruct v as [p d [] o f di].
Qed.

(** /CMD goes low: the handshake begins. *)
Lemma moves_ask v j : fresh v = true -> ph v = Ready j -> cmd v = true ->
  moves (via_clr V_ORB PB_CMD) v (fun _ => True) (v <| cmd := false |> <| ph := Asked j |> <| fresh := false |>).
Proof.
  intros Hf Hp Hc. unfold via_clr. eapply moves_bind; [by apply moves_orb|]. cbn beta. intros x (Hx & E1 & E2).
  destruct (port_bits x Hx) as (_ & _ & _ & (B0 & B1 & B2) & _). apply moves_wr; [done|]. unfold proto_wr. cbn [Z.eqb V_ORB].
  rewrite B1, B2, E1, Hc, Hp, Hf. by destruct v.
Qed.

(** /CMD goes high: the drive does what it has been told to. *)
Lemma moves_go v j : fresh v = true -> ph v = Granted j -> cmd v = false ->
  moves (via_or V_ORB PB_CMD) v (fun _ => True) ((accept good j (v <| cmd := true |>)) <| fresh := false |>).
Proof.
  intros Hf Hp Hc. unfold via_or. eapply moves_bind; [by apply moves_orb|]. cbn beta. intros x (Hx & E1 & E2).
  destruct (port_bits x Hx) as (_ & _ & (B0 & B1 & B2) & _). apply moves_wr; [done|]. unfold proto_wr. cbn [Z.eqb V_ORB].
  rewrite B1, B2, E1, Hc, Hp. by destruct v, j.
Qed.

Lemma moves_idle v : fresh v = true -> ph v = Ready NoJob -> cmd v = true ->
  moves pro_idle v (fun _ => True) (v <| out := false |> <| drw := true |>).
Proof.
  intros Hf Hp Hc. unfold pro_idle.
  eapply moves_bind; [by apply moves_wr|intros _ _]. eapply moves_bind; [by apply moves_wr|intros _ _].
  eapply moves_bind; [by apply moves_wr|intros _ _].
  eapply moves_bind; [apply (moves_wr V_DDRA 0 v (v <| out := false |>)); [lia|by destruct v]|intros _ _].
  eapply moves_bind; [by apply moves_wr|intros _ _]. eapply moves_bind; [by apply moves_orb|]. cbn beta. intros x (Hx & E1 & E2).
  destruct (port_bits x Hx) as (_ & _ & _ & _ & (B0 & B1 & B2)). apply moves_wr; [done|]. unfold proto_wr. cbn [Z.eqb V_ORB].
  rewrite B1, B2. destruct v as [p d c o f di]. cbn in *. by rewrite Hc.
Qed.

(** /BSY settles before the driver gives up. *)
Lemma moves_bsy v : moves (bsy_wait (line (ph v)) BSY_WAIT) v (fun ok => ok = true) (v <| fresh := true |>).
Proof.
  intros s Hs. destruct (dr_settle (pdev s)) as (n & Hn & Hset). fold (vw s) in Hset. rewrite Hs in Hset.
  revert Hn s Hs Hset. generalize BSY_WAIT as k. intros k Hn s Hs. revert n Hn. revert s Hs.
  induction k as [|k IH]; intros s Hs n Hn Hset; cbn [bsy_wait]; apply wp_bind.
  all: unfold wp at 1, via_rd; pose proof (dr_orb (pdev s)) as (_ & _ & _ & _ & E5); fold (vw s) in E5; rewrite Hs in E5.
  all: destruct (port_rd V_ORB (pdev s)) as [x d] eqn:Ed; cbn in E5.
  all: destruct (Bool.eqb (tst x PB_BSY) (line (ph v))) eqn:Eb; [apply wp_ret; split_and!; done|].
  - assert (n = 0)%nat as -> by lia. cbn in Hset. rewrite Ed in Hset. cbn in Hset. by rewrite Hset, Bool.eqb_reflx in Eb.
  - destruct n as [|n].
    { cbn in Hset. rewrite Ed in Hset. cbn in Hset. by rewrite Hset, Bool.eqb_reflx in Eb. }
    rewrite Nat.iter_succ_r, Ed in Hset. cbn [snd] in Hset.
    eapply wp_mono; [apply (IH (s <| pdev := d |>) ltac:(exact E5) n); [lia|exact Hset]|]. cbn beta. intros ok s' (A1 & A2 & A3).
    split_and!; [done|done|]. transitivity (s <| pdev := d |>); [by destruct s|done].
Qed.

(** One handshake: the state byte is as expected, and the drive goes on. *)
Lemma moves_handshake v j : fresh v = true -> ph v = Ready j -> cmd v = true ->
  moves (pro_handshake (wants j)) v (fun r => r = OK)
    ((accept good j (v <| drw := false |> <| out := true |>)) <| fresh := true |>).
Proof.
  intros Hf Hp Hc. unfold pro_handshake.
  eapply moves_bind.
  { replace true with (line (ph v)) at 1 by by rewrite Hp. apply moves_bsy. }
  intros ok ->. cbn [negb].
  replace (v <| fresh := true |>) with v by (destruct v; cbn in *; by subst).
  eapply moves_bind; [by apply moves_or_drw|intros _ _].
  eapply moves_bind; [apply (moves_wr V_DDRA 0 _ (v <| drw := true |> <| out := false |>)); [lia|by destruct v]|intros _ _].
  eapply moves_bind; [by apply (moves_ask _ j)|intros _ _].
  eapply moves_bind; [apply moves_bsy|intros ok ->]. cbn [negb].
  set (v1 := _ <| fresh := true |>).
  eapply moves_bind; [apply (moves_ora (wants j) v1 v1); by destruct v; cbn in *|intros resp ->].
  cbv zeta. replace (Z.land (wants j) 255) with (wants j) by by destruct j. rewrite Z.eqb_refl.
  eapply moves_bind; [by apply moves_clr_drw|intros _ _].
  eapply moves_bind; [apply (moves_wr V_DDRA 255 _ (v1 <| drw := false |> <| out := true |>)); [lia|by destruct v]|intros _ _].
  eapply moves_bind; [apply (moves_wr V_ORA P_GO _ (v1 <| drw := false |> <| out := true |> <| ph := Granted j |>)); [done|by destruct v]|intros _ _].
  eapply moves_bind; [by apply (moves_go _ j)|intros _ _].
  set (v2 := _ <| fresh := false |>).
  assert (Hl : line (ph v2) = true) by by destruct j.
  eapply moves_bind; [rewrite <- Hl; apply moves_bsy|intros ok ->]. cbn [negb].
  replace (v2 <| fresh := true |>) with ((accept good j (v <| drw := false |> <| out := true |>)) <| fresh := true |>).
  - by apply moves_ret.
  - unfold v2, v1. destruct v as [p d c o f di]. cbn in Hc. subst c. by destruct j.
Qed.

(** ** Streams of bytes *)

(** The drive gives the bytes that it has. *)
Lemma moves_give l : forall v rest, drw v = true -> out v = false -> fresh v = true -> ph v = Giving (l ++ rest) -> l <> [] ->
  moves (ora_read (length l)) v (fun x => x = l) (v <| ph := match rest with [] => Ready NoJob | _ => Giving rest end |>).
Proof.
  induction l as [|x l IH]; intros v rest Hd Ho Hf Hp Hne; [done|]. cbn [length ora_read].
  set (v1 := v <| ph := match l ++ rest with [] => Ready NoJob | _ => Giving (l ++ rest) end |>).
  eapply moves_bind; [apply (moves_ora x v v1)|intros y ->].
  { unfold proto_ora. rewrite Hd, Ho, Hf, Hp. done. }
  destruct l as [|x2 l].
  - cbn [length ora_read app] in *. eapply moves_bind; [by apply (moves_ret [] _ (fun l => l = []))|intros a ->]. by apply moves_ret.
  - eapply moves_bind; [apply (IH v1 rest); done|]. cbn beta. intros a ->.
    replace (v1 <| ph := match rest with [] => Ready NoJob | _ => Giving rest end |>) with
      (v <| ph := match rest with [] => Ready NoJob | _ => Giving rest end |>) by by destruct v.
    by apply moves_ret.
Qed.

(** The six bytes of a command. *)
Lemma moves_command l v j : length l = 6%nat -> command_of l = Some j ->
  drw v = false -> out v = true -> fresh v = true -> ph v = Command [] ->
  moves (ora_write l) v (fun _ => True) (v <| ph := Ready j |>).
Proof.
  intros Hl Hj Hd Ho Hf Hp. destruct l as [|x0 [|x1 [|x2 [|x3 [|x4 [|x5 [|]]]]]]]; try discriminate Hl.
  unfold ora_write. cbn [for_each]. destruct v as [p d c o f di]. cbn in Hd, Ho, Hf, Hp. subst.
  do 5 (eapply moves_bind; [apply moves_data; reflexivity|intros _ _]).
  eapply moves_bind; [|intros _ _; by apply moves_ret].
  apply moves_data. cbn -[command_of]. by rewrite Hj.
Qed.

(** The data of a block. *)
Lemma moves_take l : forall v b done, drw v = false -> out v = true -> fresh v = true -> ph v = Taking b done ->
  (length done + length l = BLOCK)%nat -> l <> [] ->
  moves (ora_write l) v (fun _ => True) (v <| ph := Ready (JPerform b (done ++ l)) |>).
Proof.
  induction l as [|x l IH]; intros v b dn Hd Ho Hf Hp Hlen Hne; [done|]. unfold ora_write. cbn [for_each].
  cbn [length] in Hlen.
  set (v1 := v <| ph := if (length (dn ++ [x]) <? BLOCK)%nat then Taking b (dn ++ [x]) else Ready (JPerform b (dn ++ [x])) |>).
  eapply moves_bind; [apply (moves_data x v v1)|intros _ _].
  { unfold proto_wr. cbn [Z.eqb V_ORA V_ORB]. rewrite Hd, Ho, Hf, Hp. done. }
  destruct l as [|x2 l].
  - cbn [for_each]. unfold v1. rewrite (proj2 (Nat.ltb_ge _ _)) by (rewrite length_app; cbn [length] in *; lia). by apply moves_ret.
  - replace (v <| ph := Ready (JPerform b (dn ++ x :: x2 :: l)) |>) with (v1 <| ph := Ready (JPerform b ((dn ++ [x]) ++ x2 :: l)) |>)
      by (rewrite <- app_assoc; by destruct v).
    apply IH; try done.
    + unfold v1. rewrite (proj2 (Nat.ltb_lt _ _)) by (rewrite length_app; cbn [length] in *; lia). done.
    + rewrite length_app. cbn [length] in *. lia.
Qed.

(** ** A block *)

(** The drive waits for a command. *)
Record idle (v : pview) : Prop := { id_ph : ph v = Ready NoJob; id_cmd : cmd v = true; id_fresh : fresh v = true }.

Lemma wp_moves {A} (m : M (pst D) A) v (R : A -> Prop) v' s (Q : A -> pst D -> Prop) : moves m v R v' -> vw s = v ->
  (forall a s', R a -> vw s' = v' -> frame s s' -> Q a s') -> wp m Q s.
Proof. intros Hm Hs HQ. eapply wp_mono; [by apply Hm|]. cbn beta. intros a s' (?&?&?). by apply HQ. Qed.

Lemma byte_of x : Z.land (s16 x) 255 = x mod 256.
Proof.
  change 255 with (Z.ones 8). rewrite Z.land_ones by done. unfold s16, sx. change (2 ^ 8) with 256. change (16 - 1) with 15.
  destruct (Z.ltb_spec (x mod 2 ^ 16) (2 ^ 15)); zlia.
Qed.

Lemma command_bytes c b : 0 <= b < 2 ^ 24 -> c = PRO_READ \/ c = PRO_WRITE ->
  command_of [c; Z.land (s16 (Z.shiftr b 16)) 255; Z.land (s16 (Z.shiftr b 8)) 255; Z.land (s16 b) 255; 10; 3] =
  Some (if c =? PRO_READ then JRead b else JWrite b).
Proof.
  intros Hb Hc. rewrite !byte_of, !Z.shiftr_div_pow2 by done. unfold command_of. cbn [lookup_total list_lookup_total].
  replace (b / 2 ^ 16 mod 256 * 65536 + b / 2 ^ 8 mod 256 * 256 + b mod 256) with b.
  - by destruct Hc as [-> | ->].
  - change (2 ^ 16) with 65536. change (2 ^ 8) with 256. zlia.
Qed.

(** What a block's transfer leaves alone. *)
Definition same_rest s s' : Prop := p_sys s' = p_sys s /\ part s' = part s.

Lemma frame_rest s s' : frame s s' -> same_rest s s' /\ blockbuf s' = blockbuf s.
Proof. intros ->. by repeat split. Qed.

Lemma pro_block_read b s : idle (vw s) -> 0 <= b < 2 ^ 24 -> length (disk (vw s) b) = BLOCK ->
  wp (pro_block PRO_READ b) (fun r s' => r = OK /\ idle (vw s') /\ disk (vw s') = disk (vw s) /\ same_rest s s' /\
    blockbuf s' = disk (vw s) b) s.
Proof.
  intros [Hp Hc Hf] Hb Hl. unfold pro_block. apply wp_bind, wp_modify.
  set (s0 := s <| status := _ |>). set (v := vw s) in *.
  assert (Hv0 : vw s0 = v) by done. clearbody v.
  apply wp_bind. eapply wp_moves; [exact (moves_handshake v NoJob Hf Hp Hc)|exact Hv0|]. cbn beta. intros r s1 -> Hv1 Hf1.
  cbn [negb Z.eqb OK]. set (v1 := (accept good NoJob _) <| fresh := true |>) in Hv1.
  apply wp_bind. eapply wp_moves; [|exact Hv1|].
  { apply (moves_command _ v1 (JRead b)); [done|exact (command_bytes PRO_READ b Hb (or_introl eq_refl))|done..]. }
  cbn beta. intros _ s2 _ Hv2 Hf2. change (PRO_READ =? PRO_READ) with true. cbn beta iota.
  apply wp_bind. eapply wp_moves; [|exact Hv2|].
  { apply (moves_handshake (v1 <| ph := Ready (JRead b) |>) (JRead b)); [done|done|]. unfold v1. by destruct v. }
  cbn beta. intros r s3 -> Hv3 Hf3. cbn [negb Z.eqb OK].
  set (v3 := (accept good (JRead b) _) <| fresh := true |>) in Hv3.
  assert (Hdisk : disk v3 = disk v) by (unfold v3, v1; by destruct v).
  assert (Hph : ph v3 = Giving (good ++ disk v b)) by (unfold v3, v1; by destruct v).
  assert (Hcmd : cmd v3 = true) by (unfold v3, v1; by destruct v).
  assert (Hfr : fresh v3 = true) by (unfold v3, v1; by destruct v). clearbody v3.
  apply wp_bind. eapply wp_moves; [by apply (moves_or_drw v3)|exact Hv3|]. cbn beta. intros _ s4 _ Hv4 Hf4.
  apply wp_bind. eapply wp_moves; [apply (moves_wr V_DDRA 0 _ (v3 <| drw := true |> <| out := false |>)); [lia|by destruct v3]|exact Hv4|].
  cbn beta. intros _ s5 _ Hv5 Hf5.
  destruct dr_good as (Hg & Hg0 & Hg2).
  apply wp_bind. rewrite <- Hg. eapply wp_moves; [apply (moves_give good (v3 <| drw := true |> <| out := false |>) (disk v b)); [done|done|exact Hfr|exact Hph|intros E; by rewrite E in Hg]|exact Hv5|].
  cbn beta. intros st s6 -> Hv6 Hf6. apply wp_bind, wp_modify. cbn [when].
  assert (Hne : disk v b <> []) by (intros E; by rewrite E in Hl).
  assert (Hv6' : vw (s6 <| status := good |>) = v3 <| drw := true |> <| out := false |> <| ph := Giving (disk v b ++ []) |>).
  { unfold vw in *. cbn. rewrite Hv6, app_nil_r. destruct (disk v b); [done|]. by destruct v3. }
  apply wp_bind, wp_bind. change (TAG_BYTES + SECTOR)%nat with BLOCK. rewrite <- Hl.
  eapply wp_moves; [apply (moves_give (disk v b) (v3 <| drw := true |> <| out := false |> <| ph := Giving (disk v b ++ []) |>) []); done|exact Hv6'|].
  cbn beta. intros l s7 -> Hv7 Hf7. apply wp_modify.
  set (s8 := s7 <| blockbuf := disk v b |>).
  assert (Hv8 : vw s8 = v3 <| drw := true |> <| out := false |> <| ph := Ready NoJob |>) by (change (vw s8) with (vw s7); rewrite Hv7; by destruct v3).
  apply wp_bind. eapply wp_moves; [apply (moves_idle (v3 <| drw := true |> <| out := false |> <| ph := Ready NoJob |>)); done|exact Hv8|]. cbn beta. intros _ s9 _ Hv9 Hf9.
  rewrite Hg0, Hg2. cbn [orb]. apply wp_ret. split_and!; [done|rewrite Hv9; by split|rewrite Hv9; exact Hdisk| |].
  - apply frame_rest in Hf1, Hf2, Hf3, Hf4, Hf5, Hf6, Hf7, Hf9. destruct Hf1 as [[A1 B1] _], Hf2 as [[A2 B2] _], Hf3 as [[A3 B3] _],
      Hf4 as [[A4 B4] _], Hf5 as [[A5 B5] _], Hf6 as [[A6 B6] _], Hf7 as [[A7 B7] _], Hf9 as [[A9 B9] _].
    cbn in *. split; congruence.
  - apply frame_rest in Hf9 as [_ E9]. by rewrite E9.
Qed.

Lemma pro_block_write b s : idle (vw s) -> 0 <= b < 2 ^ 24 -> length (blockbuf s) = BLOCK ->
  wp (pro_block PRO_WRITE b) (fun r s' => r = OK /\ idle (vw s') /\
    (forall b', disk (vw s') b' = if decide (b' = b) then blockbuf s else disk (vw s) b') /\ same_rest s s' /\
    blockbuf s' = blockbuf s) s.
Proof.
  intros [Hp Hc Hf] Hb Hl. unfold pro_block. apply wp_bind, wp_modify.
  set (s0 := s <| status := _ |>). set (v := vw s) in *. set (buf := blockbuf s) in *.
  assert (Hv0 : vw s0 = v) by done. clearbody v.
  apply wp_bind. eapply wp_moves; [exact (moves_handshake v NoJob Hf Hp Hc)|exact Hv0|]. cbn beta. intros r s1 -> Hv1 Hf1.
  cbn [negb Z.eqb OK]. set (v1 := (accept good NoJob _) <| fresh := true |>) in Hv1.
  apply wp_bind. eapply wp_moves; [|exact Hv1|].
  { apply (moves_command _ v1 (JWrite b)); [done|exact (command_bytes PRO_WRITE b Hb (or_intror eq_refl))|done..]. }
  cbn beta. intros _ s2 _ Hv2 Hf2. change (PRO_WRITE =? PRO_READ) with false. cbn beta iota.
  apply wp_bind, wp_bind. eapply wp_moves; [|exact Hv2|].
  { apply (moves_handshake (v1 <| ph := Ready (JWrite b) |>) (JWrite b)); [done|done|]. unfold v1. by destruct v. }
  cbn beta. intros r s3 -> Hv3 Hf3. cbn [negb Z.eqb OK].
  set (v3 := (accept good (JWrite b) _) <| fresh := true |>) in Hv3.
  assert (Hdisk : disk v3 = disk v) by (unfold v3, v1; by destruct v).
  assert (Hph : ph v3 = Taking b []) by (unfold v3, v1; by destruct v).
  assert (Hcmd : cmd v3 = true) by (unfold v3, v1; by destruct v).
  assert (Hfr : fresh v3 = true) by (unfold v3, v1; by destruct v). clearbody v3.
  apply wp_bind. eapply wp_moves; [by apply (moves_clr_drw v3)|exact Hv3|]. cbn beta. intros _ s4 _ Hv4 Hf4.
  apply wp_bind. eapply wp_moves; [apply (moves_wr V_DDRA 255 _ (v3 <| drw := false |> <| out := true |>)); [lia|by destruct v3]|exact Hv4|].
  cbn beta. intros _ s5 _ Hv5 Hf5. apply wp_bind, wp_gets.
  assert (Hbuf : blockbuf s5 = buf).
  { apply frame_rest in Hf1 as [_ E1], Hf2 as [_ E2], Hf3 as [_ E3], Hf4 as [_ E4], Hf5 as [_ E5]. by rewrite E5, E4, E3, E2, E1. }
  rewrite Hbuf, (take_ge buf) by (rewrite Hl; done).
  apply wp_bind. eapply wp_moves; [|exact Hv5|].
  { apply (moves_take buf (v3 <| drw := false |> <| out := true |>) b []); try done. intros E. by rewrite E in Hl. }
  cbn beta. intros _ s6 _ Hv6 Hf6. cbn [app] in Hv6.
  eapply wp_moves; [|exact Hv6|].
  { apply (moves_handshake (v3 <| drw := false |> <| out := true |> <| ph := Ready (JPerform b buf) |>) (JPerform b buf)); done. }
  cbn beta. intros r s7 -> Hv7 Hf7. cbn [negb Z.eqb OK].
  set (v7 := (accept good (JPerform b buf) _) <| fresh := true |>) in Hv7.
  assert (Hdisk7 : disk v7 = fun b' => if decide (b' = b) then buf else disk v b') by (unfold v7; rewrite <- Hdisk; by destruct v3).
  assert (Hph7 : ph v7 = Giving (good ++ [])) by (unfold v7; rewrite app_nil_r; by destruct v3).
  assert (Hcmd7 : cmd v7 = true) by (unfold v7; by destruct v3).
  assert (Hfr7 : fresh v7 = true) by (unfold v7; by destruct v3). clearbody v7.
  destruct dr_good as (Hg & Hg0 & Hg2).
  apply wp_bind. eapply wp_moves; [by apply (moves_or_drw v7)|exact Hv7|]. cbn beta. intros _ s8 _ Hv8 Hf8.
  apply wp_bind. eapply wp_moves; [apply (moves_wr V_DDRA 0 _ (v7 <| drw := true |> <| out := false |>)); [lia|by destruct v7]|exact Hv8|].
  cbn beta. intros _ s9 _ Hv9 Hf9.
  apply wp_bind. rewrite <- Hg. eapply wp_moves; [apply (moves_give good (v7 <| drw := true |> <| out := false |>) []);
    [done|done|exact Hfr7|exact Hph7|intros E; by rewrite E in Hg]|exact Hv9|].
  cbn beta. intros st s10 -> Hv10 Hf10. apply wp_bind, wp_modify. cbn [when].
  assert (Hv11 : vw (s10 <| status := good |>) = v7 <| drw := true |> <| out := false |> <| ph := Ready NoJob |>) by (exact Hv10).
  apply wp_bind, wp_ret.
  apply wp_bind. eapply wp_moves; [apply (moves_idle (v7 <| drw := true |> <| out := false |> <| ph := Ready NoJob |>)); done|exact Hv11|].
  cbn beta. intros _ s12 _ Hv12 Hf12.
  rewrite Hg0, Hg2. cbn [orb]. apply wp_ret.
  apply frame_rest in Hf1, Hf2, Hf3, Hf4, Hf5, Hf6, Hf7, Hf8, Hf9, Hf10, Hf12.
  destruct Hf1 as [[A1 B1] _], Hf2 as [[A2 B2] _], Hf3 as [[A3 B3] _], Hf4 as [[A4 B4] _], Hf5 as [[A5 B5] _], Hf6 as [[A6 B6] C6],
    Hf7 as [[A7 B7] C7], Hf8 as [[A8 B8] C8], Hf9 as [[A9 B9] C9], Hf10 as [[A10 B10] C10], Hf12 as [[A12 B12] C12].
  split_and!; [done|rewrite Hv12; by split| | |].
  - intros b'. rewrite Hv12. transitivity (disk v7 b'); [by destruct v7|]. rewrite Hdisk7. by rewrite <- Hdisk.
  - cbn in *. split; congruence.
  - cbn in *. congruence.
Qed.

(** ** Transfers *)

Lemma retry_ok n c b r s (Q : Z -> pst D -> Prop) :
  wp (pro_block c b) (fun r s' => r = OK /\ Q OK s') s -> wp (pro_retry (S n) c b r) Q s.
Proof. intros HQ. cbn [pro_retry]. apply wp_bind. eapply wp_mono; [exact HQ|]. cbn beta. intros r' s' [-> H']. by apply wp_ret. Qed.

Definition all_whole s : Prop := forall b, length (disk (vw s) b) = BLOCK.
(** The data of a block. *)
Definition data (l : list Z) : list Z := drop TAG_BYTES l.

Lemma read_step k rq address block n s (Q : Z * Z -> pst D -> Prop) : rq_type rq = DISK_READ ->
  idle (vw s) -> all_whole s -> 0 <= block + n < 2 ^ 24 ->
  (forall s', idle (vw s') -> disk (vw s') = disk (vw s) -> part s' = part s -> kern s' = kern s ->
     memory s' = put_bytes (address + n * SECTOR_SIZE) (data (disk (vw s) (block + n))) (memory s) ->
     wp (rdwt_loop k rq address block (n + 1)) Q s') ->
  wp (rdwt_loop (S k) rq address block n) Q s.
Proof.
  intros Ht Hi Hl Hb HQ. cbn [rdwt_loop]. rewrite Ht. change (DISK_READ =? DISK_WRITE) with false.
  change (DISK_READ =? DISK_READ) with true. cbn [when andb]. apply wp_bind, wp_ret. rewrite s32_id by lia.
  apply wp_bind. unfold MAX_ERRORS. apply retry_ok. eapply wp_mono; [by apply pro_block_read|].
  cbn beta. intros r s1 (-> & Hi1 & Hd1 & [Hs1 Hp1] & Hb1). split; [done|]. change (OK =? OK) with true. cbn [when andb].
  apply wp_bind, wp_bind, wp_gets. unfold in_sst. apply wp_zoom, wp_modify. rewrite Hb1.
  assert (Htk : take SECTOR (drop TAG_BYTES (disk (vw s) (block + n))) = data (disk (vw s) (block + n))).
  { unfold data. apply take_ge. rewrite length_drop, Hl. unfold BLOCK, TAG_BYTES, SECTOR. lia. }
  rewrite Htk. apply HQ; [exact Hi1|exact Hd1|exact Hp1| |].
  - unfold kern. cbn. by rewrite Hs1.
  - unfold memory. cbn. by rewrite Hs1.
Qed.

Lemma write_step k rq address block n s (Q : Z * Z -> pst D -> Prop) : rq_type rq = DISK_WRITE ->
  idle (vw s) -> 0 <= block + n < 2 ^ 24 ->
  (forall s', idle (vw s') -> part s' = part s -> kern s' = kern s -> memory s' = memory s ->
     (forall b, disk (vw s') b = if decide (b = block + n)
        then replicate TAG_BYTES 0 ++ bytes_of (memory s) (address + n * SECTOR_SIZE) SECTOR else disk (vw s) b) ->
     wp (rdwt_loop k rq address block (n + 1)) Q s') ->
  wp (rdwt_loop (S k) rq address block n) Q s.
Proof.
  intros Ht Hi Hb HQ. cbn [rdwt_loop]. rewrite Ht. change (DISK_WRITE =? DISK_WRITE) with true.
  change (DISK_WRITE =? DISK_READ) with false. cbn [when]. apply wp_bind, wp_bind, wp_gets, wp_modify. rewrite s32_id by lia.
  apply wp_bind. unfold MAX_ERRORS. apply retry_ok. set (s0 := s <| blockbuf := _ |>).
  eapply wp_mono; [apply (pro_block_write (block + n) s0); [exact Hi|done|]|].
  { change (blockbuf s0) with (replicate TAG_BYTES 0 ++ bytes_of (memory s) (address + n * SECTOR_SIZE) SECTOR).
    by rewrite length_app, length_replicate, bytes_of_length. }
  cbn beta. intros r s1 (-> & Hi1 & Hd1 & [Hs1 Hp1] & Hb1). split; [done|]. rewrite andb_false_r. cbn [when].
  apply wp_bind, wp_ret. change (OK =? OK) with true. cbn beta iota. apply HQ; [exact Hi1|exact Hp1| | |exact Hd1].
  - unfold kern. cbn. by rewrite Hs1.
  - unfold memory. cbn. by rewrite Hs1.
Qed.

Lemma physio_maps i x k j : p_map (P j (k <| procs ::= alter (fun p => p <| p_physio := x |>) i |>)) = p_map (P j k).
Proof.
  unfold P. cbn. rewrite !list_lookup_total_alt. destruct (decide (j = i)) as [->|Hne].
  - rewrite list_lookup_alter_eq. by destruct (procs k !! i).
  - by rewrite list_lookup_alter_ne.
Qed.

Lemma wp_physio i x s (Q : unit -> pst D -> Prop) :
  (forall s', vw s' = vw s -> part s' = part s -> memory s' = memory s -> same_maps (kern s) (kern s') -> Q tt s') ->
  wp (in_sst (updP i (fun p => p <| p_physio := x |>))) Q s.
Proof.
  intros HQ. unfold in_sst, updP, in_ker, upd_proc. apply wp_zoom, wp_zoom, wp_modify. apply HQ; try done.
  split; [done|]. intros j. apply physio_maps.
Qed.

(** ** A partition as a disk *)
Section partition.
(** The minor device, its first block and its size. *)
Context (mn first size : Z).
Record part_ok : Prop := {
  po_minor : 0 <= mn < NR_MINORS;
  po_first : 0 <= first;
  po_size : 0 < size;
  po_end : first + size <= 2 ^ 24;
}.
Context (Hpart : part_ok).

Definition pro_ok s : Prop := idle (vw s) /\ all_whole s /\ part s !!! Z.to_nat mn = mk_part first size.
Definition pro_size (d : Z) : Z := if d =? mn then Z.min (size / 2) (2 ^ 21) else 0.
Definition sector s (b : Z) : list Z := data (disk (vw s) (first + b)).
Definition pro_blk s (d b : Z) : list Z :=
  if decide (d = mn /\ 0 <= b < size / 2) then sector s (2 * b) ++ sector s (2 * b + 1) else replicate (Z.to_nat BLOCK_SIZE) 0.
Definition pro_own (a : Z) : Prop := False.

Lemma data_length l : length l = BLOCK -> length (data l) = SECTOR.
Proof. intros Hl. unfold data. rewrite length_drop, Hl. done. Qed.

Lemma pro_blk_length s d b : pro_ok s -> length (pro_blk s d b) = Z.to_nat BLOCK_SIZE.
Proof.
  intros (_ & Hw & _). unfold pro_blk. case_decide; [|apply length_replicate]. unfold sector. rewrite length_app, !data_length by apply Hw. done.
Qed.

Lemma pro_blk_ext s s' d b : (forall b, disk (vw s') b = disk (vw s) b) -> pro_blk s' d b = pro_blk s d b.
Proof. intros He. unfold pro_blk, sector. by rewrite !He. Qed.

(** The start of [do_rdwt] on a request for a block. *)
Lemma do_rdwt_start s rq blk u (Q : Z -> pst D -> Prop) : pro_ok s -> block_request pro_own (pro_size (DEVICE rq)) s rq blk u ->
  (forall s', vw s' = vw s -> part s' = part s -> memory s' = memory s -> same_maps (kern s) (kern s') ->
     wp (rdwt_loop 2 rq u (first + 2 * blk) 0) (fun x s' => fst x = OK /\
       forall s'', vw s'' = vw s' -> part s'' = part s' -> memory s'' = memory s' -> same_maps (kern s') (kern s'') -> Q BLOCK_SIZE s'') s') ->
  wp (do_rdwt rq) Q s.
Proof.
  intros (Hi & Hw & Hpt) [B1 B2 B3 B4 B5 _] HQ. destruct Hpart as [[P0 P1] P2 P3 P4].
  unfold pro_size in B3. destruct (Z.eqb_spec (DEVICE rq) mn) as [Ed|]; [|lia].
  unfold do_rdwt. rewrite Ed. apply wp_bind, wp_gets. rewrite Hpt. cbn [psize].
  rewrite (proj2 (Z.ltb_ge mn 0)), (proj2 (Z.leb_gt NR_MINORS mn)), (proj2 (Z.eqb_neq size 0)) by lia. cbn [orb].
  rewrite B1, B2. unfold BLOCK_SIZE, SECTOR_SIZE.
  replace (Z.rem (blk * 1024) 512) with 0 by (rewrite Z.rem_mod_nonneg by lia; zlia).
  change (nz 0 || nz (Z.rem 1024 512)) with false. cbn beta iota.
  replace (Z.quot (blk * 1024) 512) with (2 * blk) by (rewrite Z.quot_div_nonneg by lia; zlia). change (Z.quot 1024 512) with 2.
  apply wp_bind, wp_numap. change 1024 with BLOCK_SIZE. rewrite B4, (proj2 (Z.eqb_neq u 0)) by done.
  assert (Hav : 2 <= size - 2 * blk) by zlia.
  rewrite (s32_id (size - 2 * blk)) by lia. rewrite (proj2 (Z.leb_gt _ 0)) by lia. cbv zeta.
  rewrite (proj2 (Z.ltb_ge _ 2)) by lia. apply wp_bind, wp_gets. rewrite Hpt. cbn [start].
  apply wp_bind, wp_physio. intros s1 V1 Pt1 M1 K1. rewrite s32_id by lia.
  replace (2 * blk + first) with (first + 2 * blk) by lia. apply wp_bind. change (Z.to_nat 2) with 2%nat.
  eapply wp_mono; [by apply HQ|]. cbn beta. intros [r n] s2 [Hr HQ2]. cbn [fst] in Hr. subst r.
  apply wp_bind, wp_physio. intros s3 V3 Pt3 M3 K3. apply wp_ret. change (negb (OK =? OK)) with false. by apply HQ2.
Qed.

Lemma pro_read s rq blk u : pro_ok s -> rq_type rq = DISK_READ -> block_request pro_own (pro_size (DEVICE rq)) s rq blk u ->
  wp (do_rdwt rq) (fun r s' => r = BLOCK_SIZE /\ pro_ok s' /\ same_maps (kern s) (kern s') /\
    (forall d b, pro_blk s' d b = pro_blk s d b) /\
    forall a, ~ pro_own a -> memory s' a = put_bytes u (pro_blk s (DEVICE rq) blk) (memory s) a) s.
Proof.
  intros Hok Ht Hbr. apply (do_rdwt_start s rq blk u _ Hok Hbr). destruct Hok as (Hi & Hw & Hpt).
  destruct Hbr as [B1 B2 B3 B4 B5 _]. unfold pro_size in B3. destruct (Z.eqb_spec (DEVICE rq) mn) as [Ed|]; [|lia].
  destruct Hpart as [[P0 P1] P2 P3 P4]. assert (Hb : 0 <= blk < size / 2) by lia.
  intros s1 V1 Pt1 M1 K1.
  apply read_step; [done|by rewrite V1|unfold all_whole; by rewrite V1|zlia|]. intros s2 I2 D2 Pt2 K2 M2.
  apply read_step; [done|done|intros b; rewrite D2, V1; apply Hw|zlia|]. intros s3 I3 D3 Pt3 K3 M3.
  cbn [rdwt_loop]. apply wp_ret. split; [done|]. intros s4 V4 Pt4 M4 K4.
  assert (Hd : disk (vw s4) = disk (vw s)) by by rewrite V4, D3, D2, V1.
  split_and!; [done| | | |].
  - split_and!; [by rewrite V4|unfold all_whole; rewrite Hd; exact Hw|by rewrite Pt4, Pt3, Pt2, Pt1].
  - rewrite K3, K2 in K4. by transitivity (kern s1).
  - intros d b. apply pro_blk_ext. intros b'. by rewrite Hd.
  - intros a _. rewrite M4, M3. rewrite D2, V1. unfold pro_blk. rewrite Ed, decide_True by done. rewrite <- put_bytes_app.
    unfold sector. rewrite data_length by apply Hw. rewrite Z.add_0_l, Z.mul_1_l.
    change (Z.of_nat SECTOR) with SECTOR_SIZE. replace (first + 2 * blk + 1) with (first + (2 * blk + 1)) by lia.
    apply put_bytes_ext. rewrite M2, V1, Z.mul_0_l, !Z.add_0_r, M1. done.
Qed.

Lemma pro_write s rq blk u : pro_ok s -> rq_type rq = DISK_WRITE -> block_request pro_own (pro_size (DEVICE rq)) s rq blk u ->
  wp (do_rdwt rq) (fun r s' => r = BLOCK_SIZE /\ pro_ok s' /\ same_maps (kern s) (kern s') /\
    (forall d b, pro_blk s' d b =
       set_block (DEVICE rq) blk (bytes_of (memory s) u (Z.to_nat BLOCK_SIZE)) (pro_blk s) d b) /\
    forall a, ~ pro_own a -> memory s' a = memory s a) s.
Proof.
  intros Hok Ht Hbr. apply (do_rdwt_start s rq blk u _ Hok Hbr). destruct Hok as (Hi & Hw & Hpt).
  destruct Hbr as [B1 B2 B3 B4 B5 _]. unfold pro_size in B3. destruct (Z.eqb_spec (DEVICE rq) mn) as [Ed|]; [|lia].
  destruct Hpart as [[P0 P1] P2 P3 P4]. assert (Hb : 0 <= blk < size / 2) by lia.
  intros s1 V1 Pt1 M1 K1.
  apply write_step; [done|by rewrite V1|zlia|]. intros s2 I2 Pt2 K2 M2 D2.
  apply write_step; [done|done|zlia|]. intros s3 I3 Pt3 K3 M3 D3.
  cbn [rdwt_loop]. apply wp_ret. split; [done|]. intros s4 V4 Pt4 M4 K4.
  rewrite M2, M1 in D3. rewrite M1 in D2. rewrite V1 in D2. rewrite Z.mul_1_l in D3. rewrite Z.mul_0_l, !Z.add_0_r in D2.
  split_and!; [done| | | |].
  - split_and!; [by rewrite V4| |by rewrite Pt4, Pt3, Pt2, Pt1].
    intros b. rewrite V4, D3. case_decide; [by rewrite length_app, length_replicate, bytes_of_length|].
    rewrite D2. case_decide; [by rewrite length_app, length_replicate, bytes_of_length|apply Hw].
  - rewrite K3, K2 in K4. by transitivity (kern s1).
  - intros d b. rewrite Ed. unfold set_block. unfold pro_blk at 1. unfold sector. rewrite V4.
    assert (Hat : forall i, data (disk (vw s3) (first + i)) = if decide (i = 2 * blk + 1) then bytes_of (memory s) (u + SECTOR_SIZE) SECTOR
        else if decide (i = 2 * blk) then bytes_of (memory s) u SECTOR else data (disk (vw s) (first + i))).
    { intros i. rewrite D3. destruct (decide (first + i = _)) as [E|E]; [rewrite decide_True by lia; done|rewrite (decide_False (P := i = 2 * blk + 1)) by lia].
      rewrite D2. destruct (decide (first + i = _)) as [E2|E2]; [rewrite decide_True by lia; done|by rewrite decide_False by lia]. }
    rewrite !Hat. destruct (decide (d = mn /\ b = blk)) as [[-> ->]|Hne].
    + rewrite decide_True by done. rewrite (decide_False (P := 2 * blk = 2 * blk + 1)), !decide_True by lia.
      symmetry. change (Z.to_nat BLOCK_SIZE) with (SECTOR + SECTOR)%nat. rewrite bytes_of_app. done.
    + unfold pro_blk, sector. case_decide as Hdb; [|done]. destruct Hdb as [-> Hb2]. assert (b <> blk) by naive_solver.
      rewrite !decide_False by lia. done.
  - intros a _. by rewrite M4, M3, M2, M1.
Qed.

Definition pro_driver : BlockDriver (@do_rdwt D _).
Proof.
  refine {| bd_ok := pro_ok; bd_own := pro_own; bd_size := pro_size; bd_block := pro_blk; bd_read := pro_read; bd_write := pro_write |}.
  - intros. by apply pro_blk_length.
  - intros s m Hok _. split; [exact Hok|]. intros d b. by apply pro_blk_ext.
Defined.
End partition.
End protocol.
End Protocol.

(** ** Properties *)
Import Protocol.


(** C12. A partition of a ProFile is a disk. With a drive that keeps to the
    protocol, however long it lets the driver wait for /BSY, reading a block
    of a partition puts its two sectors into the caller's buffer, writing it
    stores the buffer's bytes in these sectors and in no others, and a vector
    of requests has the effect of its requests, one after the other. *)
Theorem profile_is_a_disk {D : Type} `{Drive D} mn first size (Hp : part_ok mn first size) iovec source (s : pst D) :
  0 <= source -> pro_ok mn first size s ->
  let driver := pro_driver mn first size Hp in
  (forall rq blk u, block_request (pro_own) (pro_size mn size (DEVICE rq)) s rq blk u -> rq_type rq = DISK_READ ->
     wp (winchester_turn iovec source rq) (fun r s' => r = mk_dreply source (PROC_NR rq) BLOCK_SIZE /\ pro_ok mn first size s' /\
       (forall d b, pro_blk mn first size s' d b = pro_blk mn first size s d b) /\
       forall a, memory s' a = put_bytes u (pro_blk mn first size s (DEVICE rq) blk) (memory s) a) s) /\
  (forall rq blk u, block_request (pro_own) (pro_size mn size (DEVICE rq)) s rq blk u -> rq_type rq = DISK_WRITE ->
     wp (winchester_turn iovec source rq) (fun r s' => r = mk_dreply source (PROC_NR rq) BLOCK_SIZE /\ pro_ok mn first size s' /\
       (forall d b, pro_blk mn first size s' d b =
          set_block (DEVICE rq) blk (bytes_of (memory s) u (Z.to_nat BLOCK_SIZE)) (pro_blk mn first size s) d b) /\
       forall a, memory s' a = memory s a) s) /\
  (forall rq l uv u, vector_request do_rdwt iovec u s rq l uv -> rq_type rq = SCATTERED_IO ->
     let final := vrdwt_spec (DEVICE rq) u l (pro_blk mn first size s, memory s) in
     wp (winchester_turn iovec source rq) (fun r s' => r = mk_dreply source (PROC_NR rq) OK /\ pro_ok mn first size s' /\
       (forall d b, pro_blk mn first size s' d b = fst final d b) /\
       (forall i v, l !! i = Some v -> bytes_of (memory s') (uv + IOREQ_SIZE * Z.of_nat i) 12 = vreq_bytes v 0) /\
       (forall a, ~ within a iovec IOVEC_BYTES -> ~ within a uv (IOREQ_SIZE * Z.of_nat (length l)) ->
          memory s' a = snd final a)) s).
Proof.
  intros Hs Hok driver. unfold winchester_turn. rewrite (proj2 (Z.ltb_ge _ 0)) by done. split_and!.
  - intros rq blk u Hbr Ht. rewrite Ht. cbn [Z.eqb orb]. apply wp_bind. eapply wp_mono; [by apply (pro_read mn first size)|].
    cbn beta. intros r s' (-> & ? & _ & ? & Hm). apply wp_ret. split_and!; try done. intros a. apply Hm. intros [].
  - intros rq blk u Hbr Ht. rewrite Ht. cbn [Z.eqb orb]. apply wp_bind. eapply wp_mono; [by apply (pro_write mn first size)|].
    cbn beta. intros r s' (-> & ? & _ & ? & Hm). apply wp_ret. split_and!; try done. intros a. apply Hm. intros [].
  - intros rq l uv u Hv Ht. rewrite Ht. cbn [Z.eqb orb]. apply wp_bind.
    eapply wp_mono; [exact (do_vrdwt_ok do_rdwt iovec u s rq l uv Hok Hv)|].
    cbn beta. intros r s' (-> & ? & _ & ? & ? & Hm). apply wp_ret. split_and!; try done. intros a A1 A2. apply Hm; [intros []|done|done].
Qed.

(** ** Examples *)

(** A dead port: every register reads as 0. *)
#[local] Instance dead_port : Port unit := {| port_rd _ d := (0, d); port_wr _ _ d := d |}.

Definition demo_proc : proc := proc0 <| p_map := mk_segs (mk_map 0 0 0) (mk_map 0 0 1024) (mk_map 0 0 0) |>.
Definition demo_kst : kst :=
  mk_kst (replicate NR_SLOTS demo_proc) 3 8 (replicate NQ None) (replicate NQ None) None None 0 false 0 ∅ 0.
Definition demo_sst : sst := mk_sst demo_kst (fun a => a mod 251) false 0.
Definition demo_parts : list partition := [mk_part 64 200; mk_part 0 1000].


(** A drive that keeps /BSY as it is for one poll after each change. *)
Definition demo_rd (r : Z) (d : pview * bool) : Z * (pview * bool) :=
  let (v, stale) := d in
  if r =? V_ORA then match proto_ora v with Some (x, w) => (x, (w, stale)) | None => (0, d) end
  else if r =? V_ORB then
    let bsy := if stale && negb (fresh v) then negb (line (ph v)) else line (ph v) in
    ((if bsy then 2 else 0) + (if drw v then 8 else 0) + (if cmd v then 16 else 0),
     (if stale && negb (fresh v) then v else v <| fresh := true |>, false))
  else (0, d).
Definition demo_wr (r x : Z) (d : pview * bool) : pview * bool :=
  let (v, stale) := d in match proto_wr [0; 0; 0; 0] r x v with Some w => (w, true) | None => d end.
#[local] Instance demo_port : Port (pview * bool) := {| port_rd := demo_rd; port_wr := demo_wr |}.

#[local] Instance demo_drive : Drive (pview * bool).
Proof.
  refine {| view := fst; good := [0; 0; 0; 0] |}.
  - by split_and!.
  - intros r x [v b] w _ E. unfold port_wr, demo_port, demo_wr. cbn [fst] in E. by rewrite E.
  - intros x [v b] w E. unfold port_wr, demo_port, demo_wr. cbn [fst] in E. by rewrite E.
  - intros [v b] x w E. unfold port_rd, demo_port, demo_rd. cbn [fst] in E. cbn [Z.eqb V_ORA]. by rewrite E.
  - intros [[p d c o f di] b]. cbn. destruct d, c, f, b; cbn; destruct (line p); cbn; split_and!; done || lia.
  - intros [[p d c o f di] b]. destruct (b && negb f) eqn:E.
    + exists 1%nat. split; [unfold BSY_WAIT; lia|]. apply andb_true_iff in E as [-> ->%negb_true_iff]. cbn.
      by destruct d, c, (line p).
    + exists 0%nat. split; [lia|]. cbn. rewrite E. by destruct d, c, (line p).
Defined.

Definition demo_view : pview := mk_view (Ready NoJob) true true false true (fun b => replicate BLOCK (b mod 256)).
Definition demo_pst : pst (pview * bool) := mk_pst demo_sst (demo_view, false) demo_parts [] [].

(** Block 3 of the file system area, sectors 70 and 71. *)
Lemma profile_is_a_disk_witness :
  pro_blk 0 64 200 demo_pst 0 3 = replicate SECTOR 70 ++ replicate SECTOR 71 /\
  wp (winchester_turn 1024 1 (mk_dreq DISK_READ 0 1 1024 3072 8192)) (fun r s' => r = mk_dreply 1 1 BLOCK_SIZE /\
    forall a, memory s' a = put_bytes 8192 (pro_blk 0 64 200 demo_pst 0 3) (memory demo_pst) a) demo_pst.
Proof.
  split; [vm_compute; reflexivity|].
  assert (Hp : part_ok 0 64 200) by (split; unfold NR_MINORS; lia).
  assert (Hok : pro_ok 0 64 200 demo_pst).
  { split_and!; [by split| |reflexivity]. intros b. apply length_replicate. }
  destruct (profile_is_a_disk 0 64 200 Hp 1024 1 demo_pst ltac:(lia) Hok) as [Hr _].
  eapply wp_mono; [apply (Hr (mk_dreq DISK_READ 0 1 1024 3072 8192) 3 8192); [|reflexivity]|].
  - split; try reflexivity; [vm_compute; split; congruence|done|]. intros a _ H. exact H.
  - cbn beta. intros r s' (A1 & _ & _ & A4). split; [exact A1|exact A4].
Defined.
