(* ===== verification/Floppy.v ===== *)
(** * The floppy disk: [src/kernel/lisa/lisafloppy.c]

    The driver writes a request into the controller's shared memory, starts it
    and waits for an interrupt or for the alarm of the clock task. The device
    is any port (class [Port]); what it does to itself before each level 1
    interrupt of a wait is given with it (class [Controller]). *)

From S2P Require Import Prelude KProc KSystem Driver.

(** Register addresses. *)
Definition FD (off : Z) : Z := 16564224 + off.
Definition PAR_ORB : Z := 16570625.
Definition COPS_ORB : Z := 16571777.

Definition F_GO : Z := FD 1.
Definition F_FUNC : Z := FD 3.
Definition F_DRIVE : Z := FD 5.
Definition F_SIDE : Z := FD 7.
Definition F_SECTOR : Z := FD 9.
Definition F_TRACK : Z := FD 11.
Definition F_STATUS : Z := FD 17.
Definition F_TYPE : Z := FD 21.
Definition F_DISKIN : Z := FD 65.
Definition F_CONNECTED : Z := FD 73.
Definition F_TAGS : Z := FD 1001.
Definition F_DATA : Z := FD 1025.
Definition GO_RW : Z := 129.
Definition GO_CLEAR : Z := 133.
Definition GO_MASK : Z := 134.
Definition FN_READ : Z := 0.
Definition FN_WRITE : Z := 1.
Definition DRIVE2 : Z := 128.
Definition CLEAR_ALL : Z := 119.
Definition DSKDIAG : Z := 64.
Definition FDIR : Z := 16.
Definition SECTOR_SIZE : Z := 512.
Definition SECTOR : nat := 512.
Definition NBLOCKS : Z := 800.
Definition TAG_BYTES : nat := 12.
Definition READY_WAIT : nat := Z.to_nat 100000.
Definition MAX_ERRORS : nat := 3.

(** The controller on its own: how it changes up to each level 1 interrupt
    that comes before the alarm, from the start of a function on. *)
Class Controller (D : Type) `{Port D} := fd_events : D -> list (D -> D).

(** Track, sector and sectors per track of a block: zones of 16 tracks. *)
Fixpoint zone_loop (fuel : nat) (block track spt : Z) : option (Z * Z * Z) :=
  match fuel with
  | O => None
  | S fuel' => if 16 * spt <=? block then zone_loop fuel' (block - 16 * spt) (track + 16) (spt - 1)
               else Some (block, track, spt)
  end.
Definition fd_geometry (block : Z) : option (Z * Z) :=
  match zone_loop 13 block 0 12 with
  | Some (block, track, spt) => Some (track + Z.quot block spt, Z.rem block spt)
  | None => None
  end.

Section floppy.
Context {D : Type} `{Controller D}.

(** [fwoken]: the task has a message from HARDWARE. *)
Record fds := mk_fds {
  f_sys : sst;
  fdev : D;
  present : bool;
  sector_buf : list Z;
  fd_busy : bool;
  fd_op : Z;
  fd_status : Z;
  fwoken : bool;
}.
#[export] Instance floppy_upd : Updatable fds := fun s =>
  mk_fds (f_sys s) (fdev s) (present s) (sector_buf s) (fd_busy s) (fd_op s) (fd_status s) (fwoken s).
#[export, refine] Instance fds_sys : HasSys fds := {| the_sys := f_sys; put_sys k s := s <| f_sys := k |> |}.
Proof. all: by intros; try destruct s. Defined.

Definition fd_rd (r : Z) : M fds Z :=
  fun s => let (v, d) := port_rd r (fdev s) in Done v (s <| fdev := d |>).
Definition fd_wr (r v : Z) : M fds unit := modify (fun s => s <| fdev ::= port_wr r v |>).

Fixpoint ready_loop (n : nat) : M fds Z :=
  match n with
  | O => mret EIO
  | S n' =>
      v ← fd_rd PAR_ORB;
      if tst v DSKDIAG then
        g ← fd_rd F_GO;
        if g =? 0 then mret OK else ready_loop n'
      else ready_loop n'
  end.
Definition fd_ready : M fds Z := ready_loop READY_WAIT.

(** [n] bytes at every other address. *)
Fixpoint data_read (n : nat) (a : Z) : M fds (list Z) :=
  match n with
  | O => mret []
  | S n' => v ← fd_rd a; l ← data_read n' (a + 2); mret (v :: l)
  end.
Fixpoint data_write (l : list Z) (a : Z) : M fds unit :=
  match l with
  | [] => mret tt
  | v :: l' => fd_wr a v;; data_write l' (a + 2)
  end.

(** [interrupt(FLOPPY)], as the waiting task sees it. *)
Definition interrupt_FLOPPY : M fds unit := modify (fun s => s <| fwoken := true |>).

Definition lisa_fd_int : M fds Z :=
  v ← fd_rd COPS_ORB;
  if negb (tst v FDIR) then mret 0 else
  busy ← gets fd_busy;
  when busy
    (st ← fd_rd F_STATUS;
     modify (fun s => s <| fd_status := st |>);;
     op ← gets fd_op;
     when ((st =? 0) && (op =? FN_READ))
       (l ← data_read SECTOR F_DATA; modify (fun s => s <| sector_buf := l |>)));;
  fd_ready;;
  fd_wr F_FUNC CLEAR_ALL;;
  fd_wr F_GO GO_CLEAR;;
  busy ← gets fd_busy;
  when busy (modify (fun s => s <| fd_busy := false |>);; interrupt_FLOPPY);;
  mret 1.

Definition fd_timeout : M fds unit := busy ← gets fd_busy; when busy interrupt_FLOPPY.

(** [receive(HARDWARE, &m)]: the level 1 interrupts before the alarm, then the
    alarm. *)
Fixpoint receive_HARDWARE (evs : list (D -> D)) : M fds unit :=
  w ← gets fwoken;
  if w : bool then modify (fun s => s <| fwoken := false |>) else
  match evs with
  | [] => fd_timeout;; w ← gets fwoken; if w : bool then modify (fun s => s <| fwoken := false |>) else nofuel
  | e :: evs' => modify (fun s => s <| fdev ::= e |>);; lisa_fd_int;; receive_HARDWARE evs'
  end.

Definition fd_sector (op block : Z) : M fds Z :=
  disk_in ← fd_rd F_DISKIN;
  if negb (disk_in =? 255) then mret ENXIO else
  match fd_geometry block with
  | None => nofuel
  | Some (track, sector) =>
      r ← fd_ready;
      if negb (r =? OK) then mret EIO else
      fd_wr F_SIDE 0;;
      fd_wr F_DRIVE DRIVE2;;
      fd_wr F_TRACK (u8 track);;
      fd_wr F_SECTOR (u8 sector);;
      fd_wr F_FUNC op;;
      when (op =? FN_WRITE)
        (l ← gets sector_buf; data_write (take SECTOR l) F_DATA;; data_write (replicate TAG_BYTES 0) F_TAGS);;
      r ← fd_ready;
      if negb (r =? OK) then mret EIO else
      modify (fun s => s <| fd_op := op |> <| fd_status := -1 |> <| fd_busy := true |>);;
      fd_wr F_GO GO_RW;;
      evs ← gets (fun s => fd_events (fdev s));
      receive_HARDWARE evs;;
      busy ← gets fd_busy;
      if busy : bool then modify (fun s => s <| fd_busy := false |>);; mret EIO else
      st ← gets fd_status;
      mret (if st =? 0 then OK else EIO)
  end.

Fixpoint fd_retry (n : nat) (op block r : Z) : M fds Z :=
  match n with
  | O => mret r
  | S n' => r ← fd_sector op block; if (r =? OK) || (r =? ENXIO) then mret r else fd_retry n' op block r
  end.

Fixpoint rdwt_loop (k : nat) (rq : dreq) (address block n : Z) : M fds (Z * Z) :=
  match k with
  | O => mret (OK, n)
  | S k' =>
      let p := address + n * SECTOR_SIZE in
      when (rq_type rq =? DISK_WRITE) (m ← gets memory; modify (fun s => s <| sector_buf := bytes_of m p SECTOR |>));;
      r ← fd_retry MAX_ERRORS (if rq_type rq =? DISK_WRITE then FN_WRITE else FN_READ) (s16 (block + n)) OK;
      when ((r =? OK) && (rq_type rq =? DISK_READ))
        (l ← gets sector_buf; in_sst (modify (fun s => s <| pmem ::= put_bytes p (take SECTOR l) |>)));;
      if r =? OK then rdwt_loop k' rq address block (n + 1) else mret (r, n + 1)
  end.

Definition do_rdwt (rq : dreq) : M fds Z :=
  here ← gets present;
  if negb here || negb (DEVICE rq =? 0) then mret EIO else
  if nz (Z.rem (POSITION rq) SECTOR_SIZE) || nz (Z.rem (COUNT rq) SECTOR_SIZE) then mret EINVAL else
  let block := Z.quot (POSITION rq) SECTOR_SIZE in
  let count := Z.quot (COUNT rq) SECTOR_SIZE in
  address ← in_sst (numap (PROC_NR rq) (ADDRESS rq) (COUNT rq));
  if address =? 0 then mret EINVAL else
  if NBLOCKS <=? block then mret 0 else
  let count := if NBLOCKS <? block + count then NBLOCKS - block else count in
  '(r, n) ← rdwt_loop (Z.to_nat count) rq address block 0;
  if r =? ENXIO then mret EIO else
  mret (if negb (r =? OK) then (if 1 <? n then (n - 1) * SECTOR_SIZE else EIO) else count * SECTOR_SIZE).

(** The start of [floppy_task]. *)
Definition floppy_init : M fds unit :=
  t ← fd_rd F_TYPE;
  if negb (t =? 1) then mret tt else
  r ← fd_ready;
  if negb (r =? OK) then mret tt else
  fd_wr F_DRIVE DRIVE2;;
  fd_wr F_SIDE 0;;
  c ← fd_rd F_CONNECTED;
  if negb (c =? 255) then mret tt else
  fd_wr F_FUNC 255;;
  fd_wr F_GO GO_CLEAR;;
  r ← fd_ready;
  if negb (r =? OK) then mret tt else
  fd_wr F_FUNC DRIVE2;;
  fd_wr F_GO GO_MASK;;
  modify (fun s => s <| present := true |>).

(** A turn of the main loop: no reply to a stray completion. *)
Definition HARDWARE : Z := -1.
Definition floppy_turn (iovec source : Z) (rq : dreq) : M fds (option dreply) :=
  if source =? HARDWARE then mret None else
  if source <? 0 then panic "floppy task got message from" else
  r ← (if (rq_type rq =? DISK_READ) || (rq_type rq =? DISK_WRITE) then do_rdwt rq
       else if rq_type rq =? SCATTERED_IO then do_vrdwt iovec rq do_rdwt
       else mret EINVAL);
  mret (Some (mk_dreply source (PROC_NR rq) r)).
End floppy.
Arguments fds D : clear implicits.

(** ** Where the blocks are *)

(** Sectors of a track, and the first block of a track: all the sectors of
    the tracks before it. *)
Definition track_sectors (t : Z) : Z := 12 - t / 16.
Definition track_start (t : Z) : Z := foldr Z.add 0 (track_sectors <$> seqZ 0 t).

Lemma geometry_forward : forallb (fun b =>
  match fd_geometry b with
  | Some (t, s) => (0 <=? t) && (t <? 80) && (0 <=? s) && (s <? track_sectors t) && (b =? track_start t + s)
  | None => false
  end) (seqZ 0 800) = true.
Proof. vm_compute. reflexivity. Qed.

Lemma geometry_backward : forallb (fun t => forallb (fun s =>
  match fd_geometry (track_start t + s) with Some (t', s') => (t' =? t) && (s' =? s) | None => false end)
    (seqZ 0 (track_sectors t))) (seqZ 0 80) = true.
Proof. vm_compute. reflexivity. Qed.

Lemma in_seqZ x n : In x (seqZ 0 n) <-> 0 <= x < n.
Proof. rewrite <- list_elem_of_In, elem_of_seqZ. lia. Qed.

Lemma fd_geometry_some b : 0 <= b < NBLOCKS -> exists t s, fd_geometry b = Some (t, s) /\
  0 <= t < 80 /\ 0 <= s < track_sectors t /\ b = track_start t + s.
Proof.
  intros Hb. pose proof geometry_forward as H. rewrite forallb_forall in H. specialize (H b (proj2 (in_seqZ b 800) Hb)).
  destruct (fd_geometry b) as [[t s]|]; [|done]. exists t, s.
  rewrite !andb_true_iff, !Z.leb_le, !Z.ltb_lt, Z.eqb_eq in H. split; [done|]. lia.
Qed.

(** ** Whatever the controller does *)
Section any_controller.
Context {D : Type} `{Controller D}.

Definition port_only (s s' : fds D) : Prop := f_sys s' = f_sys s /\ present s' = present s.
(** Nor the completion of the function. *)
Definition quietly (s s' : fds D) : Prop := port_only s s' /\ fd_busy s' = fd_busy s /\ fwoken s' = fwoken s.
#[local] Instance floppy_port_po : PreOrder port_only.
Proof. split; [by split|]. intros s1 s2 s3 [A1 A2] [B1 B2]. split; congruence. Qed.
#[local] Instance quietly_po : PreOrder quietly.
Proof.
  split; [by repeat split|]. intros s1 s2 s3 (A1 & A2 & A3) (B1 & B2 & B3). split; [by transitivity s2|split; congruence].
Qed.

Lemma quiet_rd r : total quietly (fd_rd r).
Proof. intros s. unfold wp, fd_rd. destruct (port_rd r (fdev s)) as [v d]. by repeat split. Qed.
Lemma quiet_wr r v : total quietly (fd_wr r v).
Proof. apply total_modify. by repeat split. Qed.
Hint Resolve quiet_rd quiet_wr : total_db.
Lemma quiet_ready : total quietly fd_ready.
Proof. unfold fd_ready. generalize READY_WAIT. intros n. induction n as [|n IH]; cbn [ready_loop]; total_tac. Qed.
Lemma quiet_data_read n : forall a, total quietly (data_read n a).
Proof. induction n as [|n IH]; intros a; cbn [data_read]; total_tac. Qed.
Lemma quiet_data_write l : forall a, total quietly (data_write l a).
Proof. induction l as [|v l IH]; intros a; cbn [data_write]; total_tac. Qed.
Hint Resolve quiet_ready quiet_data_read quiet_data_write : total_db.

Lemma fquiet_modify (f : fds D -> fds D) : (forall s, quietly s (f s)) -> total quietly (modify f).
Proof. intros Hf s. apply wp_modify, Hf. Qed.
Hint Extern 1 (total quietly (modify _)) => apply fquiet_modify; by repeat split : total_db.

(** A task that is still busy or has been woken stays so. *)
Definition will_wake (s : fds D) : Prop := fwoken s = true \/ fd_busy s = true.

Lemma fd_int_wakes s : will_wake s -> wp lisa_fd_int (fun _ s' => port_only s s' /\ will_wake s') s.
Proof.
  intros Hw. unfold lisa_fd_int. apply wp_bind. eapply wp_mono; [apply quiet_rd|]. cbn beta. intros v s1 (P1 & B1 & W1).
  assert (Hw1 : will_wake s1) by (unfold will_wake in *; by rewrite B1, W1).
  destruct (negb _); [by apply wp_ret|]. apply wp_bind, wp_gets.
  assert (Hmid : total quietly (when (fd_busy s1)
    (st ← fd_rd F_STATUS;
     modify (fun s => s <| fd_status := st |>);;
     op ← gets fd_op;
     when ((st =? 0) && (op =? FN_READ))
       (l ← data_read SECTOR F_DATA; modify (fun s => s <| sector_buf := l |>))))).
  { repeat lazymatch goal with
    | |- total _ (when _ _) => apply total_when; [apply _|]
    | |- total _ (_ ≫= _) => apply total_bind; [apply _| |intros ?]
    | |- total _ (modify _) => apply fquiet_modify; by repeat split
    | |- _ => solve [eauto with total_db typeclass_instances]
    end. }
  apply wp_bind. eapply wp_mono; [apply Hmid|]. cbn beta. intros _ s2 (P2 & B2 & W2).
  apply wp_bind. eapply wp_mono; [apply quiet_ready|]. cbn beta. intros _ s3 (P3 & B3 & W3).
  apply wp_bind. eapply wp_mono; [apply quiet_wr|]. cbn beta. intros _ s4 (P4 & B4 & W4).
  apply wp_bind. eapply wp_mono; [apply quiet_wr|]. cbn beta. intros _ s5 (P5 & B5 & W5).
  assert (Hp5 : port_only s s5) by (transitivity s4; [transitivity s3; [transitivity s2; [by transitivity s1|done]|done]|done]).
  assert (Hb5 : fd_busy s5 = fd_busy s1) by congruence. assert (Hw5 : fwoken s5 = fwoken s1) by congruence.
  apply wp_bind, wp_gets. rewrite Hb5. unfold interrupt_FLOPPY.
  destruct (fd_busy s1) eqn:Eb; cbn [when].
  - apply wp_bind, wp_bind, wp_modify, wp_modify, wp_ret. split; [exact Hp5|by left].
  - apply wp_bind, wp_ret, wp_ret. split; [exact Hp5|]. unfold will_wake in *. rewrite Hb5, Hw5, Eb in *. tauto.
Qed.

Lemma receive_ends evs : forall s, will_wake s -> wp (receive_HARDWARE evs) (fun _ s' => port_only s s') s.
Proof.
  induction evs as [|e evs IH]; intros s Hw; cbn [receive_HARDWARE]; apply wp_bind, wp_gets; destruct (fwoken s) eqn:Ew;
    try (apply wp_modify; by split).
  - destruct Hw as [Hw|Hw]; [by rewrite Ew in Hw|]. unfold fd_timeout, interrupt_FLOPPY.
    apply wp_bind, wp_bind, wp_gets. rewrite Hw. cbn [when]. apply wp_modify, wp_bind, wp_gets. by split.
  - apply wp_bind, wp_modify, wp_bind. eapply wp_mono; [apply fd_int_wakes; exact Hw|]. cbn beta. intros _ s1 [P1 Hw1].
    eapply wp_mono; [by apply IH|]. cbn beta. intros _ s2 P2. by transitivity s1.
Qed.

Lemma quiet_port s s' : quietly s s' -> port_only s s'.
Proof. by intros [? _]. Qed.

Lemma fd_sector_ends op block s : 0 <= block < NBLOCKS -> wp (fd_sector op block) (fun _ s' => port_only s s') s.
Proof.
  intros Hb. destruct (fd_geometry_some block Hb) as (t & sec & Eg & _). unfold fd_sector. rewrite Eg.
  assert (Hq : forall A (m : M (fds D) A) (k : A -> M (fds D) Z) s0, total quietly m -> port_only s s0 ->
    (forall a s1, port_only s s1 -> wp (k a) (fun _ s' => port_only s s') s1) -> wp (m ≫= k) (fun _ s' => port_only s s') s0).
  { intros A m k s0 Hm P0 Hk. apply wp_bind. eapply wp_mono; [apply Hm|]. cbn beta. intros a s1 [P1 _]. apply Hk. by transitivity s0. }
  apply Hq; [eauto with total_db|reflexivity|]. intros v s1 P1. destruct (negb _); [by apply wp_ret|].
  apply Hq; [eauto with total_db|done|]. intros r s2 P2. destruct (negb _); [by apply wp_ret|].
  apply Hq; [eauto with total_db|done|]. intros _ s3 P3. apply Hq; [eauto with total_db|done|]. intros _ s4 P4.
  apply Hq; [eauto with total_db|done|]. intros _ s5 P5. apply Hq; [eauto with total_db|done|]. intros _ s6 P6.
  apply Hq; [eauto with total_db|done|]. intros _ s7 P7.
  apply Hq; [total_tac|done|]. intros _ s8 P8. apply Hq; [eauto with total_db|done|]. intros r2 s9 P9.
  destruct (negb _); [by apply wp_ret|]. apply wp_bind, wp_modify. apply wp_bind. apply wp_modify. apply wp_bind, wp_gets, wp_bind.
  eapply wp_mono; [apply receive_ends; by right|]. cbn beta. intros _ s10 P10.
  assert (P : port_only s s10) by (transitivity s9; [done|]; destruct P10; by split).
  apply wp_bind, wp_gets. destruct (fd_busy s10); [wp_steps; destruct P; by split|]. by wp_steps.
Qed.

Lemma fd_retry_ends n op block : forall r s, 0 <= block < NBLOCKS -> wp (fd_retry n op block r) (fun _ s' => port_only s s') s.
Proof.
  induction n as [|n IH]; intros r s Hb; cbn [fd_retry]; [by apply wp_ret|]. apply wp_bind.
  eapply wp_mono; [by apply fd_sector_ends|]. cbn beta. intros r1 s1 P1. destruct (_ || _); [by apply wp_ret|].
  eapply wp_mono; [by apply IH|]. cbn beta. intros _ s2 P2. by transitivity s1.
Qed.

(** What a transfer of [count] sectors may do to memory. *)
Definition only_buffer (rq : dreq) (address count : Z) (s s' : fds D) : Prop :=
  kern s' = kern s /\ present s' = present s /\
  forall a, memory s' a <> memory s a -> rq_type rq = DISK_READ /\ within a address (count * SECTOR_SIZE).

Lemma rdwt_loop_ends k : forall rq address block n count s s0, 0 <= block -> block + count <= NBLOCKS ->
  0 <= n -> n + Z.of_nat k = count -> only_buffer rq address count s0 s ->
  wp (rdwt_loop k rq address block n) (fun x s' => n <= snd x <= count /\ (fst x = OK -> snd x = count) /\
    only_buffer rq address count s0 s') s.
Proof.
  induction k as [|k IH]; intros rq address block n count s s0 Hb0 Hb1 Hn Hc Ho; cbn [rdwt_loop].
  { apply wp_ret. cbn [fst snd]. split_and!; first [done|lia]. }
  assert (Hport : forall s1 s2, port_only s1 s2 -> only_buffer rq address count s0 s1 -> only_buffer rq address count s0 s2).
  { intros s1 s2 [E1 E2] (O1 & O2 & O3). unfold only_buffer, kern, memory in *. cbn [the_sys fds_sys] in *. rewrite E1, E2. done. }
  apply wp_bind.
  assert (Hfill : total port_only (when (rq_type rq =? DISK_WRITE) (m ← gets memory;
     modify (fun s : fds D => s <| sector_buf := bytes_of m (address + n * SECTOR_SIZE) SECTOR |>)))) by total_tac.
  eapply wp_mono; [apply Hfill|]. cbn beta. intros _ s1 P1. apply wp_bind. rewrite s16_id by (unfold NBLOCKS in *; lia).
  eapply wp_mono; [apply fd_retry_ends; lia|]. cbn beta. intros r s2 P2. apply wp_bind.
  assert (Ho2 : only_buffer rq address count s0 s2) by eauto.
  assert (Hfin : forall s3, only_buffer rq address count s0 s3 -> wp (if r =? OK then rdwt_loop k rq address block (n + 1) else mret (r, n + 1))
    (fun x s' => n <= snd x <= count /\ (fst x = OK -> snd x = count) /\ only_buffer rq address count s0 s') s3).
  { intros s3 Ho3. destruct (Z.eqb_spec r OK) as [->|Hr].
    - eapply wp_mono; [apply (IH rq address block (n + 1) count s3 s0); first [done|lia]|]. cbn beta. intros x s4 (A1 & A2 & A3).
      split_and!; first [done|lia].
    - apply wp_ret. cbn [fst snd]. split_and!; first [done|lia]. }
  apply wp_when; [|intros _; by apply Hfin].
  intros [_ Ht%Z.eqb_eq]%andb_true_iff. apply wp_bind, wp_gets. unfold in_sst. apply wp_zoom, wp_modify. apply Hfin.
  destruct Ho2 as (O1 & O2 & O3). split_and!; [done|done|]. intros a Ha. cbn in Ha.
  set (l := take SECTOR (sector_buf s2)) in *.
  destruct (decide (within a (address + n * SECTOR_SIZE) (Z.of_nat (length l)))) as [Hi|Hno].
  - split; [done|]. assert (length l <= SECTOR)%nat by (unfold l; rewrite length_take; lia).
    unfold within, SECTOR, SECTOR_SIZE in *. lia.
  - rewrite put_bytes_out in Ha by done. by apply O3.
Qed.

Lemma floppy_rdwt_any rq s address : - 2 ^ 15 <= COUNT rq < 2 ^ 15 -> 0 <= POSITION rq ->
  umap (P (proc_addr (PROC_NR rq)) (kern s)) seg_D_nr (ADDRESS rq) (COUNT rq) = address ->
  wp (do_rdwt rq) (fun r s' => (r = EIO \/ r = EINVAL \/ 0 <= r <= COUNT rq /\ r mod SECTOR_SIZE = 0) /\
    kern s' = kern s /\ present s' = present s /\
    forall a, memory s' a <> memory s a -> rq_type rq = DISK_READ /\ within a address (COUNT rq)) s.
Proof.
  intros Hc Hp Hu. unfold do_rdwt. apply wp_bind, wp_gets.
  assert (Hsame : forall r, (r = EIO \/ r = EINVAL) \/ r = 0 /\ 0 <= COUNT rq ->
    wp (mret r : M (fds D) Z) (fun r s' => (r = EIO \/ r = EINVAL \/ 0 <= r <= COUNT rq /\ r mod SECTOR_SIZE = 0) /\
    kern s' = kern s /\ present s' = present s /\
    forall a, memory s' a <> memory s a -> rq_type rq = DISK_READ /\ within a address (COUNT rq)) s).
  { intros r Hr. apply wp_ret. split_and!; [|done|done|done]. destruct Hr as [[->| ->]|[-> ?]]; [tauto|tauto|right; right; split; [lia|done]]. }
  destruct (_ || _); [apply Hsame; tauto|]. destruct (_ || _) eqn:Er; [apply Hsame; tauto|].
  apply wp_bind, wp_numap. rewrite Hu. destruct (Z.eqb_spec address 0) as [|Ha]; [apply Hsame; tauto|].
  assert (Hpos : 0 < COUNT rq).
  { destruct (Z.ltb_spec 0 (COUNT rq)) as [H1|H1]; [lia|]. unfold umap in Hu. rewrite (proj2 (Z.leb_le _ 0)) in Hu by lia. lia. }
  destruct (NBLOCKS <=? _) eqn:Eb; [apply Hsame; right; lia|]. apply Z.leb_gt in Eb.
  apply orb_false_iff in Er as [_ Er]. unfold nz in Er. apply negb_false_iff, Z.eqb_eq in Er.
  rewrite Z.rem_mod_nonneg in Er by (unfold SECTOR_SIZE; lia). rewrite (Z.quot_div_nonneg (COUNT rq)) by (unfold SECTOR_SIZE; lia).
  rewrite (Z.quot_div_nonneg (POSITION rq)) in * by (unfold SECTOR_SIZE; lia).
  cbv zeta. set (block := POSITION rq / SECTOR_SIZE) in *. set (cnt := if _ <? block + _ then _ else _).
  assert (Hb0 : 0 <= block) by (unfold block, SECTOR_SIZE; zlia).
  assert (Hcnt : 0 <= cnt <= COUNT rq / SECTOR_SIZE /\ block + cnt <= NBLOCKS).
  { unfold cnt. destruct (Z.ltb_spec NBLOCKS (block + COUNT rq / SECTOR_SIZE)); unfold SECTOR_SIZE in *; split; try lia; zlia. }
  assert (Hmul : COUNT rq = COUNT rq / SECTOR_SIZE * SECTOR_SIZE) by (unfold SECTOR_SIZE in *; zlia).
  apply wp_bind. eapply wp_mono; [apply (rdwt_loop_ends (Z.to_nat cnt) rq address block 0 cnt s s); first [lia|by split_and!]|]. cbn beta.
  intros [r n] s2 (B1 & B2 & O1 & O2 & O3). cbn [fst snd] in *.
  assert (Hrest : kern s2 = kern s /\ present s2 = present s /\
    forall a, memory s2 a <> memory s a -> rq_type rq = DISK_READ /\ within a address (COUNT rq)).
  { split_and!; [done|done|]. intros a Hm. destruct (O3 a Hm) as [E1 E2]. split; [done|]. unfold within, SECTOR_SIZE in *. lia. }
  destruct (r =? ENXIO); apply wp_ret; (split; [|exact Hrest]); [by left|].
  destruct (Z.eqb_spec r OK) as [->|Hr]; cbn [negb].
  - right; right. split; [unfold SECTOR_SIZE in *; lia|apply Z_mod_mult].
  - destruct (Z.ltb_spec 1 n); [|by left]. right; right. split; [unfold SECTOR_SIZE in *; lia|apply Z_mod_mult].
Qed.
End any_controller.

(** ** Properties *)

(** C37. The driver's zones number the sectors of a 400K disk: the block with
    number [b] is at track [t], sector [s] exactly when the track and the
    sector exist and [b] counts all the sectors before; so every one of the
    800 blocks has a place of its own and every sector a block. *)
Theorem fd_geometry_numbers_sectors b t s : 0 <= b < NBLOCKS ->
  fd_geometry b = Some (t, s) <-> 0 <= t < 80 /\ 0 <= s < track_sectors t /\ b = track_start t + s.
Proof.
  intros Hb. split.
  - intros E. destruct (fd_geometry_some b Hb) as (t' & s' & E' & H). rewrite E in E'. injection E' as <- <-. exact H.
  - intros (Ht & Hs & ->). pose proof geometry_backward as H. rewrite forallb_forall in H.
    specialize (H t (proj2 (in_seqZ t 80) Ht)). rewrite forallb_forall in H. specialize (H s (proj2 (in_seqZ s _) Hs)).
    destruct (fd_geometry _) as [[t' s']|]; [|done]. apply andb_true_iff in H as [H1%Z.eqb_eq H2%Z.eqb_eq]. by subst.
Qed.


(** ** Examples *)

(** The last block is sector 7 of track 79. *)
Lemma fd_geometry_numbers_sectors_witness : fd_geometry 799 = Some (79, 7) /\ track_start 79 + 7 = 799.
Proof.
  assert (H : fd_geometry 799 = Some (79, 7)) by (vm_compute; reflexivity). split; [exact H|].
  destruct (proj1 (fd_geometry_numbers_sectors 799 79 7 ltac:(unfold NBLOCKS; lia)) H) as (_ & _ & E). by rewrite <- E.
Defined.

(** A controller that is always ready and has a disk, but never interrupts. *)
#[local] Instance mute_port : Port unit := {|
  port_rd r d := (if r =? F_DISKIN then 255 else if r =? PAR_ORB then DSKDIAG else 0, d);
  port_wr _ _ d := d |}.
#[local] Instance mute_controller : Controller unit := fun _ => [fun d => d; fun d => d].

Definition demo_proc : proc := proc0 <| p_map := mk_segs (mk_map 0 0 0) (mk_map 0 0 1024) (mk_map 0 0 0) |>.
Definition demo_fds : fds unit :=
  mk_fds (mk_sst (mk_kst (replicate NR_SLOTS demo_proc) 4 8 (replicate NQ None) (replicate NQ None) None None 0 false 0 ∅ 0)
    (fun a => a mod 251) false 0) tt true [] false 0 0 false.

