(* ===== verification/MmState.v ===== *)
(** * The memory manager's state: [src/mm/mproc.h], [glo.h], [param.h]

    MM's process table, its global variables and the message it is working
    on. Everything MM asks of the kernel and of the file system is an
    [event]; the class [Outside] is the interface to whoever answers, and
    every request is recorded in [log], in order, so that theorems can say
    what the rest of the system was told. *)

From S2P Require Import Prelude MemAlloc KProc.

Definition NPROC : nat := 32.
Definition INIT : nat := 2.

Definition EPERM : Z := -1.
Definition ENOENT : Z := -2.
Definition ESRCH : Z := -3.
Definition EINTR : Z := -4.
Definition EIO : Z := -5.
Definition ENOEXEC : Z := -8.
Definition ECHILD : Z := -10.
Definition EAGAIN : Z := -11.
Definition ENOMEM : Z := -12.
Definition EACCES : Z := -13.
Definition EINVAL : Z := -22.
Definition EBADCALL : Z := -102.

(** Flag bits of [mp_flags]. *)
Definition IN_USE : Z := 1.
Definition WAITING : Z := 2.
Definition HANGING : Z := 4.
Definition PAUSED : Z := 8.
Definition ALARM_ON : Z := 16.
Definition SEPARATE : Z := 32.
Definition TRACED : Z := 64.
Definition STOPPED : Z := 128.

(** Call numbers that MM uses when it talks to FS, or tests for. *)
Definition EXIT : Z := 1.
Definition FORK : Z := 2.
Definition CHDIR : Z := 12.
Definition GETPID : Z := 20.
Definition SETUID : Z := 23.
Definition GETUID : Z := 24.
Definition SETGID : Z := 46.
Definition GETGID : Z := 47.
Definition EXEC : Z := 59.
Definition UNPAUSE : Z := 65.
Definition NCALLS : Z := 70.

Definition NSIG : Z := 16.
Definition SIGINT : Z := 2.
Definition SIGQUIT : Z := 3.
Definition SIGKILL : Z := 9.
Definition SIGBUS : Z := 10.
Definition SIGSEGV : Z := 11.
Definition SIG_DFL : Z := 0.
Definition SIG_IGN : Z := 1.
Definition SUPER_USER : Z := 0.
Definition INIT_PID : Z := 1.
Definition LAST_FEW : Z := 2.

Record mproc := mk_mproc {
  mp_seg : segs;
  mp_exitstatus : Z;
  mp_sigstatus : Z;
  mp_pid : Z;
  mp_parent : nat;
  mp_procgrp : Z;
  mp_realuid : Z;
  mp_effuid : Z;
  mp_realgid : Z;
  mp_effgid : Z;
  mp_ignore : Z;
  mp_catch : Z;
  mp_func : Z;
  mp_flags : Z;
}.
#[export] Instance mproc_upd : Updatable mproc := fun p =>
  mk_mproc (mp_seg p) (mp_exitstatus p) (mp_sigstatus p) (mp_pid p) (mp_parent p) (mp_procgrp p)
    (mp_realuid p) (mp_effuid p) (mp_realgid p) (mp_effgid p) (mp_ignore p) (mp_catch p) (mp_func p)
    (mp_flags p).
Definition mproc0 : mproc := mk_mproc segs0 0 0 0 0 0 0 0 0 0 0 0 0 0.
#[export] Instance mproc_inh : Inhabited mproc := populate mproc0.

(** ** Requests to the kernel and to the file system

    [sys_*] of the library are the first group, messages to the clock task
    and to FS the second, the file calls MM makes for itself the third. *)
Inductive event :=
| Send (dest : nat) (m_type m2_i1 m2_p1 m2_l1 m2_l2 : Z)
| SysGetsp (p : nat)
| SysNewmap (p : nat) (m : segs)
| SysFork (parent child : nat) (pid base : Z)
| SysXit (parent p : nat)
| SysSig (p : nat) (sig : Z) (func : Z)
| SysTrace (req : Z) (p : nat) (addr data : Z)
| SysExec (p : nat) (sp traced : Z)
| SysFresh (p : nat) (m : segs) (dc : Z)
| SysCopy (src_proc src_seg src_vir dst_proc dst_seg dst_vir bytes : Z) (buf : list Z)
| SysAbort
| SetAlarm (p : nat) (ticks : Z)
| TellFs (what : Z) (p1 p2 p3 : Z)
| Open (name : list Z)
| Creat (name : list Z) (mode : Z)
| Fstat (fd : Z)
| Close (fd : Z)
| Read (fd : Z) (n : Z)
| ReadInto (fd : Z) (addr n : Z)
| Write (fd : Z) (n : Z).

(** The words of the answer; a missing word reads as 0. File calls that fail
    answer with the negative error number. *)
Class Outside (X : Type) := answer : event -> X -> list Z * X.

(** The reply message under construction, [mm_out]. *)
Record outmsg := mk_out { o_type : Z; o_i1 : Z; o_p1 : Z; o_l1 : Z; o_l2 : Z }.
#[export] Instance outmsg_upd : Updatable outmsg := fun o =>
  mk_out (o_type o) (o_i1 o) (o_p1 o) (o_l1 o) (o_l2 o).

Record mst (X : Type) := mk_mst {
  mtab : list mproc;
  mp : nat;
  who : Z;
  mm_call : Z;
  dont_reply : bool;
  procs_in_use : Z;
  next_pid : Z;
  result2 : Z;
  res_ptr : Z;
  mm_out : outmsg;
  mem : Impl.hole_table;
  ext : X;
  log : list event;
}.
Arguments mk_mst {X} _ _ _ _ _ _ _ _ _ _ _ _ _.
Arguments mtab {X} _.
Arguments mp {X} _.
Arguments who {X} _.
Arguments mm_call {X} _.
Arguments dont_reply {X} _.
Arguments procs_in_use {X} _.
Arguments next_pid {X} _.
Arguments result2 {X} _.
Arguments res_ptr {X} _.
Arguments mm_out {X} _.
Arguments mem {X} _.
Arguments ext {X} _.
Arguments log {X} _.
#[export] Instance mst_upd X : Updatable (mst X) := fun s =>
  mk_mst (mtab s) (mp s) (who s) (mm_call s) (dont_reply s) (procs_in_use s) (next_pid s)
    (result2 s) (res_ptr s) (mm_out s) (mem s) (ext s) (log s).

Section ops.
Context {X : Type} `{!Outside X}.

Definition MP (i : nat) (s : mst X) : mproc := mtab s !!! i.
Definition getp (i : nat) : M (mst X) mproc := gets (MP i).
Definition updp (i : nat) (f : mproc -> mproc) : M (mst X) unit :=
  modify (fun s => s <| mtab ::= alter f i |>).
Definition flag (i : nat) (b : Z) : M (mst X) bool := gets (fun s => tst (mp_flags (MP i s)) b).
Definition setf (i : nat) (b : Z) : M (mst X) unit := updp i (fun p => p <| mp_flags ::= fun f => bset f b |>).
Definition clrf (i : nat) (b : Z) : M (mst X) unit := updp i (fun p => p <| mp_flags ::= fun f => bclr f b |>).

Definition ask (e : event) : M (mst X) (list Z) := fun s =>
  let '(r, x) := answer e (ext s) in
  Done r (s <| ext := x |> <| log ::= fun l => l ++ [e] |>).
Definition tell (e : event) : M (mst X) unit := ask e;; mret tt.
Definition in_mem {A} (m : M Impl.hole_table A) : M (mst X) A := zoom mem (fun h s => s <| mem := h |>) m.

(** ** [reply] (main.c) *)
Definition reply (proc_nr : nat) (result res2 respt : Z) : M (mst X) unit :=
  p ← getp proc_nr;
  if negb (tst (mp_flags p) IN_USE) || tst (mp_flags p) HANGING then mret tt else
  modify (fun s => s <| mm_out ::= fun o => o <| o_type := result |> <| o_i1 := res2 |> <| o_p1 := respt |> |>);;
  o ← gets mm_out;
  r ← ask (Send proc_nr (o_type o) (o_i1 o) (o_p1 o) (o_l1 o) (o_l2 o));
  if r !!! 0%nat =? OK then mret tt else panic "MM can't reply".

(** ** [mem_copy] (utility.c): [buf] is what MM's own buffer holds, when it is
    the source; a copy into MM answers with the status and the bytes. *)
Definition mem_copy (src_proc src_seg src_vir dst_proc dst_seg dst_vir bytes : Z) (buf : list Z) : M (mst X) (list Z) :=
  if bytes =? 0 then mret [OK] else
  ask (SysCopy src_proc src_seg src_vir dst_proc dst_seg dst_vir bytes buf).

(** ** [allowed] (utility.c): may the process [mp] have access [mask] to the
    file? The answer of [Fstat] is status, mode, uid, gid; the result is the
    descriptor or the error, with what [fstat] said. *)
Definition X_BIT : Z := 1.
Definition W_BIT : Z := 2.
Definition I_TYPE : Z := 61440.
Definition I_REGULAR : Z := 32768.

Record statbuf := mk_stat { st_mode : Z; st_uid : Z; st_gid : Z }.

Definition allowed (name_buf : list Z) (mask : Z) : M (mst X) (Z * statbuf) :=
  r ← ask (Open name_buf);
  let fd := r !!! 0%nat in
  if fd <? 0 then mret (fd, mk_stat 0 0 0) else
  st ← ask (Fstat fd);
  if st !!! 0%nat <? 0 then panic "allowed: fstat failed" else
  let s_buf := mk_stat (st !!! 1%nat) (st !!! 2%nat) (st !!! 3%nat) in
  let mode := Z.land (st_mode s_buf) I_TYPE in
  if (mask =? X_BIT) && negb (mode =? I_REGULAR) then
    tell (Close fd);; mret (EACCES, s_buf) else
  i ← gets mp;
  p ← getp i;
  if (mp_effuid p =? SUPER_USER) && (mask =? X_BIT) &&
     tst (st_mode s_buf) (Z.lor (Z.lor (Z.shiftl X_BIT 6) (Z.shiftl X_BIT 3)) X_BIT) then mret (fd, s_buf) else
  let shift := if mp_effuid p =? st_uid s_buf then 6
               else if mp_effgid p =? st_gid s_buf then 3 else 0 in
  if (mp_effuid p =? SUPER_USER) && negb (mask =? X_BIT) then mret (fd, s_buf) else
  if tst (Z.shiftr (st_mode s_buf) shift) mask then mret (fd, s_buf)
  else tell (Close fd);; mret (EACCES, s_buf).
End ops.
