(* ===== verification/MmProc.v ===== *)
(** * Processes in the memory manager: [src/mm/break.c], [forkexit.c],
    [signal.c], [trace.c] and [getset.c]

    One definition per routine, with the fields of the request message as
    arguments. Pointers into [mproc] are slot numbers. Loops over the table
    are recursions over the list of slots; [cleanup] recurses with fuel (two
    levels are enough), the search for a free pid tries at most 65 pids, and
    [dump_regs] ends at the end of the kernel's table entry. *)

From S2P Require Import Prelude MemAlloc KProc MmState.

Definition NIL_PTR : Z := 0.
Definition slots : list nat := seq 0 NPROC.

Section mm.
Context {X : Type} `{!Outside X}.
Notation MM := (M (mst X)).

(** ** break.c *)
Definition SAFETY_CLICKS : Z := (384 * 4 + CLICK_SIZE - 1) / CLICK_SIZE.

(** [PAGE_SIZE] is not defined on the 68000. *)
Definition size_ok (file_type tc dc sc dvir s_vir : Z) : Z :=
  if s_vir <? u16 (dvir + dc) then ENOMEM else OK.

Definition adjust (rmp : nat) (data_clicks sp : Z) : MM Z :=
  if Nat.eqb rmp INIT then mret OK else
  p ← getp rmp;
  let mem_sp := seg_S (mp_seg p) in
  let mem_dp := seg_D (mp_seg p) in
  let base_of_stack := mem_vir mem_sp + mem_len mem_sp in
  let sp_click := u16 (Z.shiftr sp CLICK_SHIFT) in
  if base_of_stack <=? sp_click then mret ENOMEM else
  let delta := mem_vir mem_sp - sp_click in
  let lower := if 0 <? delta then sp_click else mem_vir mem_sp in
  let gap_base := u16 (mem_vir mem_dp + data_clicks + SAFETY_CLICKS) in
  if lower <? gap_base then mret ENOMEM else
  let old_clicks := mem_len mem_dp in
  let data_changed := negb (data_clicks =? mem_len mem_dp) in
  when data_changed
    (updp rmp (fun p => p <| mp_seg ::= fun m => m <| seg_D ::= fun d => d <| mem_len := data_clicks |> |> |>));;
  let stack_changed := 0 <? delta in
  when stack_changed
    (updp rmp (fun p => p <| mp_seg ::= fun m => m <| seg_S ::= fun x =>
       mk_map (u16 (mem_vir x - delta)) (u16 (mem_phys x - delta)) (u16 (mem_len x + delta)) |> |>));;
  p ← getp rmp;
  let m := mp_seg p in
  let ft := Z.land (mp_flags p) SEPARATE in
  let r := size_ok ft (mem_len (seg_T m)) (mem_len (seg_D m)) (mem_len (seg_S m))
             (mem_vir (seg_D m)) (mem_vir (seg_S m)) in
  if r =? OK then
    when (data_changed || stack_changed) (tell (SysNewmap rmp m));;
    mret OK
  else
    when data_changed
      (updp rmp (fun p => p <| mp_seg ::= fun m => m <| seg_D ::= fun d => d <| mem_len := old_clicks |> |> |>));;
    when stack_changed
      (updp rmp (fun p => p <| mp_seg ::= fun m => m <| seg_S ::= fun x =>
         mk_map (u16 (mem_vir x + delta)) (u16 (mem_phys x + delta)) (u16 (mem_len x - delta)) |> |>));;
    mret ENOMEM.

Definition do_brk (addr : Z) : MM Z :=
  rmp ← gets mp;
  p ← getp rmp;
  let v := addr in
  let new_clicks := u16 (Z.shiftr (s32 (v + CLICK_SIZE - 1)) CLICK_SHIFT) in
  if new_clicks <? mem_vir (seg_D (mp_seg p)) then
    modify (fun s => s <| res_ptr := -1 |>);;
    mret ENOMEM
  else
    let new_clicks := u16 (new_clicks - mem_vir (seg_D (mp_seg p))) in
    w ← gets who;
    a ← ask (SysGetsp (Z.to_nat w));
    r ← adjust rmp new_clicks (a !!! 0%nat);
    modify (fun s => s <| res_ptr := if r =? OK then addr else -1 |>);;
    mret r.

(** ** forkexit.c *)

(** The search for a free pid: [taken] is the inner loop. *)
Definition taken (pid : Z) (t : list mproc) : bool :=
  existsb (fun p => (mp_pid p =? pid) || (mp_procgrp p =? pid)) t.

Fixpoint find_pid (fuel : nat) (rmc : nat) : MM unit :=
  match fuel with
  | O => nofuel
  | S fuel' =>
      modify (fun s => s <| next_pid ::= fun n => if n <? 30000 then n + 1 else INIT_PID + 1 |>);;
      n ← gets next_pid;
      t ← gets (fun s => taken n (mtab s));
      updp rmc (fun p => p <| mp_pid := n |>);;
      if t : bool then find_pid fuel' rmc else mret tt
  end.

(** The first slot that is not in use; [NPROC] when there is none. *)
Fixpoint free_slot (t : list mproc) : nat :=
  match t with
  | [] => 0
  | p :: t' => if tst (mp_flags p) IN_USE then S (free_slot t') else 0
  end.

Definition do_fork : MM Z :=
  rmp ← gets mp;
  w ← gets who;
  n ← gets procs_in_use;
  if n =? NR_PROCS then mret EAGAIN else
  p ← getp rmp;
  if (NR_PROCS - LAST_FEW <=? n) && negb (mp_effuid p =? 0) then mret EAGAIN else
  let m := mp_seg p in
  let prog_clicks := mem_len (seg_S m) in
  let prog_clicks := u16 (prog_clicks + (mem_vir (seg_S m) - mem_vir (seg_D m))) in
  let prog_clicks := u16 (prog_clicks + mem_len (seg_T m)) in
  child_base ← in_mem (Impl.alloc_mem prog_clicks);
  if child_base =? NO_MEM then mret EAGAIN else
  rmc ← gets (fun s => free_slot (mtab s));
  let child_nr := rmc in
  modify (fun s => s <| procs_in_use ::= fun n => n + 1 |>);;
  p ← getp rmp;
  updp rmc (fun _ => p);;
  updp rmc (fun c => c <| mp_parent := Z.to_nat w |>);;
  clrf rmc TRACED;;
  updp rmc (fun c => c <| mp_seg ::= fun x => x <| seg_T ::= fun y => y <| mem_phys := child_base |> |> |>);;
  updp rmc (fun c => c <| mp_seg ::= fun x => x <| seg_D ::= fun y => y <| mem_phys := u16 (child_base + mem_len (seg_T x)) |> |> |>);;
  pp ← getp rmp;
  updp rmc (fun c => c <| mp_seg ::= fun x => x <| seg_S ::= fun y =>
    y <| mem_phys := u16 (mem_phys (seg_D x) + (mem_phys (seg_S (mp_seg pp)) - mem_phys (seg_D (mp_seg pp)))) |> |> |>);;
  updp rmc (fun c => c <| mp_exitstatus := 0 |> <| mp_sigstatus := 0 |>);;
  find_pid 100 rmc;;
  when (w =? INIT_PROC_NR) (updp rmc (fun c => c <| mp_procgrp := mp_pid c |>));;
  c ← getp rmc;
  tell (SysFork (Z.to_nat w) child_nr (mp_pid c) child_base);;
  tell (TellFs FORK w (Z.of_nat child_nr) (mp_pid c));;
  reply child_nr 0 0 NIL_PTR;;
  gets next_pid.

(** [cleanup]; the loop over the table disinherits the children of [child]. *)
Definition wait_status (p : mproc) : Z :=
  s16 (Z.lor (Z.land (mp_sigstatus p) 255) (Z.shiftl (mp_exitstatus p) 8)).

Fixpoint disinherit (rec : nat -> MM unit) (child_nr : nat) (l : list nat) (init_waiting : bool) : MM unit :=
  match l with
  | [] => mret tt
  | rp :: l' =>
      p ← getp rp;
      if decide (mp_parent p = child_nr) then
        updp rp (fun p => p <| mp_parent := INIT |>);;
        h ← flag rp HANGING;
        if init_waiting && h then
          rec rp;;
          disinherit rec child_nr l' false
        else disinherit rec child_nr l' init_waiting
      else disinherit rec child_nr l' init_waiting
  end.

Fixpoint cleanup (fuel : nat) (child : nat) : MM unit :=
  match fuel with
  | O => nofuel
  | S fuel' =>
      c ← getp child;
      let parent := mp_parent c in
      reply parent (mp_pid c) (wait_status c) NIL_PTR;;
      clrf child TRACED;;
      clrf child HANGING;;
      clrf child PAUSED;;
      clrf parent WAITING;;
      clrf child IN_USE;;
      modify (fun s => s <| procs_in_use ::= fun n => n - 1 |>);;
      init_waiting ← flag INIT WAITING;
      disinherit (cleanup fuel') child slots init_waiting
  end.
Definition do_cleanup : nat -> MM unit := cleanup 3.

(** [set_alarm] (signal.c): [HZ * sec] is computed in unsigned [int]. *)
Definition HZ : Z := 60.
Definition set_alarm (proc_nr : nat) (sec : Z) : MM Z :=
  (if nz sec then setf proc_nr ALARM_ON else clrf proc_nr ALARM_ON);;
  a ← ask (SetAlarm proc_nr (u16 (HZ * sec)));
  if a !!! 0%nat =? OK then mret (s16 (a !!! 1%nat)) else panic "alarm er".

Definition mm_exit (rmp : nat) (exit_status : Z) : MM unit :=
  updp rmp (fun p => p <| mp_exitstatus := s8 exit_status |>);;
  p ← getp rmp;
  w ← flag (mp_parent p) WAITING;
  (if w : bool then do_cleanup rmp else setf rmp HANGING);;
  a ← flag rmp ALARM_ON;
  when a (set_alarm rmp 0;; mret tt);;
  p ← getp rmp;
  bs ← ask (SysXit (mp_parent p) rmp);
  in_mem (Impl.free_mem (u16 (bs !!! 0%nat)) (u16 (bs !!! 1%nat)));;
  tell (TellFs EXIT (Z.of_nat rmp) 0 0).

Definition do_mm_exit (status : Z) : MM Z :=
  rmp ← gets mp;
  mm_exit rmp status;;
  modify (fun s => s <| dont_reply := true |>);;
  mret OK.

(** The loop of [do_wait]: [None] when a child was found and the call is done,
    else the number of children. *)
Fixpoint wait_loop (who : nat) (l : list nat) (children : Z) : MM (option Z) :=
  match l with
  | [] => mret (Some children)
  | rp :: l' =>
      p ← getp rp;
      if tst (mp_flags p) IN_USE && Nat.eqb (mp_parent p) who then
        if tst (mp_flags p) HANGING then
          do_cleanup rp;;
          modify (fun s => s <| dont_reply := true |>);;
          mret None
        else if tst (mp_flags p) STOPPED && nz (mp_sigstatus p) then
          reply who (mp_pid p) (s16 (Z.lor 127 (Z.shiftl (mp_sigstatus p) 8))) NIL_PTR;;
          modify (fun s => s <| dont_reply := true |>);;
          updp rp (fun p => p <| mp_sigstatus := 0 |>);;
          mret None
        else wait_loop who l' (children + 1)
      else wait_loop who l' children
  end.

Definition do_wait : MM Z :=
  w ← gets who;
  r ← wait_loop (Z.to_nat w) slots 0;
  match r with
  | None => mret OK
  | Some children =>
      if 0 <? children then
        i ← gets mp;
        setf i WAITING;;
        modify (fun s => s <| dont_reply := true |>);;
        mret OK
      else mret ECHILD
  end.

(** ** trace.c: [stop_proc] *)
Definition stop_proc (rmp : nat) (sig_nr : Z) : MM unit :=
  p ← getp rmp;
  let rpmp := mp_parent p in
  a ← ask (SysTrace (-1) rmp 0 0);
  if negb (a !!! 0%nat =? OK) then mret tt else
  setf rmp STOPPED;;
  w ← flag rpmp WAITING;
  if w : bool then
    clrf rpmp WAITING;;
    reply rpmp (mp_pid p) (s16 (Z.lor 127 (Z.shiftl sig_nr 8))) NIL_PTR
  else updp rmp (fun p => p <| mp_sigstatus := s8 sig_nr |>).

(** ** signal.c *)
Definition mask_of (sig : Z) : Z := Z.shiftl 1 (sig - 1).
Definition core_name : list Z := [99; 111; 114; 101].
Definition dot_name : list Z := [46].
Definition core_bits : Z := 3836.
Definition SIG_PUSH_BYTES : Z := 8.
Definition DUMP_SIZE : Z := 256.
Definition CORE_MODE : Z := 511.
Definition DUMPED : Z := 128.

(** The address of MM's own buffers; what they hold is in the answers. *)
Definition MM_BUF : Z := 0.

(** Writing one segment on the core file in pieces of 256 bytes; [true] when
    an error ended the dump. *)
Fixpoint dump_seg (fuel : nat) (r : Z) (slot i a c : Z) : MM bool :=
  match fuel with
  | O => nofuel
  | S fuel' =>
      if 0 <? c then
        let ct := Z.min c DUMP_SIZE in
        er1 ← mem_copy slot i a MM_PROC_NR 1 MM_BUF ct [];
        er2 ← ask (Write r ct);
        if (er1 !!! 0%nat <? 0) || (er2 !!! 0%nat <? 0) then mret true
        else dump_seg fuel' r slot i (a + ct) (c - ct)
      else mret false
  end.

Fixpoint dump_segs (r slot : Z) (l : list (Z * mem_map)) : MM bool :=
  match l with
  | [] => mret false
  | (i, m) :: l' =>
      e ← dump_seg (S (Z.to_nat (mem_len m))) r slot i (Z.shiftl (mem_vir m) CLICK_SHIFT) (Z.shiftl (mem_len m) CLICK_SHIFT);
      if e : bool then mret true else dump_segs r slot l'
  end.

(** The kernel's process table entry, long by long, until [sys_trace] says
    that the end is reached. *)
Fixpoint dump_regs (fuel : nat) (r slot off : Z) : MM unit :=
  match fuel with
  | O => nofuel
  | S fuel' =>
      a ← ask (SysTrace 3 (Z.to_nat slot) off 0);
      if a !!! 0%nat =? OK then
        tell (Write r 4);;
        dump_regs fuel' r slot (off + 4)
      else mret tt
  end.

Definition dump_core (rmp : nat) : MM unit :=
  let slot := Z.of_nat rmp in
  tell (TellFs CHDIR slot 0 0);;
  p ← getp rmp;
  if negb (mp_realuid p =? mp_effuid p) then tell (TellFs CHDIR 0 1 0) else
  xmp ← gets mp;
  modify (fun s => s <| mp := rmp |>);;
  ra ← allowed core_name W_BIT;
  sa ← allowed dot_name W_BIT;
  modify (fun s => s <| mp := xmp |>);;
  let r := fst ra in
  let s := fst sa in
  when (0 <=? r) (tell (Close r));;
  when (0 <=? s) (tell (Close s));;
  p ← getp rmp;
  let r := if mp_effuid p =? SUPER_USER then 0 else r in
  if (0 <=? s) && ((0 <=? r) || (r =? ENOENT)) then
    c ← ask (Creat core_name CORE_MODE);
    let r := c !!! 0%nat in
    tell (TellFs CHDIR 0 1 0);;
    if r <? 0 then mret tt else
    updp rmp (fun p => p <| mp_sigstatus ::= fun x => s8 (Z.lor x DUMPED) |>);;
    w ← ask (Write r 18);
    if w !!! 0%nat <? 0 then tell (Close r) else
    dump_regs 258 r slot 0;;
    p ← getp rmp;
    dump_segs r slot [(0, seg_T (mp_seg p)); (1, seg_D (mp_seg p)); (2, seg_S (mp_seg p))];;
    tell (Close r)
  else
    tell (TellFs CHDIR 0 1 0);;
    tell (Close r).

Definition sig_proc (rmp : nat) (sig_nr : Z) : MM unit :=
  p ← getp rmp;
  if negb (tst (mp_flags p) IN_USE) then mret tt else
  if tst (mp_flags p) TRACED && negb (sig_nr =? SIGKILL) then stop_proc rmp sig_nr else
  let mask := mask_of sig_nr in
  caught ← (if tst (mp_catch p) mask then
    updp rmp (fun p => p <| mp_catch ::= fun c => bclr c mask |>);;
    a ← ask (SysGetsp rmp);
    let new_sp := s32 (a !!! 0%nat - SIG_PUSH_BYTES) in
    p ← getp rmp;
    r ← adjust rmp (mem_len (seg_D (mp_seg p))) new_sp;
    if r =? OK then
      p ← getp rmp;
      tell (SysSig rmp sig_nr (mp_func p));;
      mret true
    else mret false
  else mret false);
  if caught : bool then mret tt else
  let core_file := Z.testbit core_bits (sig_nr - 1) in
  updp rmp (fun p => p <| mp_sigstatus := s8 sig_nr |>);;
  when core_file (dump_core rmp);;
  mm_exit rmp 0.

(** [stack_fault] (break.c) *)
Definition stack_fault (rmp : nat) : MM unit :=
  a ← ask (SysGetsp rmp);
  let new_sp := s32 (a !!! 0%nat - CLICK_SIZE) in
  p ← getp rmp;
  r ← adjust rmp (mem_len (seg_D (mp_seg p))) new_sp;
  if r =? OK then mret tt else
  updp rmp (fun p => p <| mp_catch := 0 |>);;
  sig_proc rmp SIGSEGV.

Definition do_signal (sig func : Z) : MM Z :=
  i ← gets mp;
  p ← getp i;
  let sigign := mp_ignore p in
  if (sig <? 1) || (NSIG <? sig) then mret EINVAL else
  if sig =? SIGKILL then mret OK else
  let mask := mask_of sig in
  (if func =? SIG_IGN then
     updp i (fun p => p <| mp_ignore ::= fun x => bset x mask |> <| mp_catch ::= fun x => bclr x mask |>)
   else if func =? SIG_DFL then
     updp i (fun p => p <| mp_ignore ::= fun x => bclr x mask |> <| mp_catch ::= fun x => bclr x mask |>)
   else
     updp i (fun p => p <| mp_ignore ::= fun x => bclr x mask |> <| mp_catch ::= fun x => bset x mask |>
                        <| mp_func := func |>));;
  mret (if tst sigign mask then 1 else OK).

Definition unpause (pro : nat) : MM unit :=
  p ← getp pro;
  if tst (mp_flags p) PAUSED && negb (tst (mp_flags p) HANGING) then
    clrf pro PAUSED;;
    reply pro EINTR 0 NIL_PTR
  else if tst (mp_flags p) WAITING && negb (tst (mp_flags p) HANGING) then
    clrf pro WAITING;;
    reply pro EINTR 0 NIL_PTR
  else tell (TellFs UNPAUSE (Z.of_nat pro) 0 0).

(** The tests of [check_sig] that decide whether [p] gets the signal. *)
Definition send_sig (proc_id sig_nr send_uid procgrp : Z) (p : mproc) : bool :=
  let b := true in
  let b := if negb (send_uid =? mp_effuid p) && negb (send_uid =? SUPER_USER) then false else b in
  let b := if (0 <? proc_id) && negb (proc_id =? mp_pid p) then false else b in
  let b := if tst (mp_flags p) HANGING then false else b in
  let b := if (proc_id =? 0) && negb (procgrp =? mp_procgrp p) then false else b in
  let b := if (send_uid =? SUPER_USER) && (proc_id =? -1) then true else b in
  let b := if (mp_pid p =? INIT_PID) && (proc_id =? -1) then false else b in
  if (mp_pid p =? INIT_PID) && (sig_nr =? SIGKILL) then false else b.

Fixpoint sig_loop (proc_id sig_nr send_uid : Z) (l : list nat) (count : Z) : MM Z :=
  match l with
  | [] => mret count
  | rmp :: l' =>
      p ← getp rmp;
      if negb (tst (mp_flags p) IN_USE) then sig_loop proc_id sig_nr send_uid l' count else
      g ← gets (fun s => mp_procgrp (MP (mp s) s));
      let b := send_sig proc_id sig_nr send_uid g p in
      if (sig_nr =? SIGALRM) && negb (tst (mp_flags p) ALARM_ON) then sig_loop proc_id sig_nr send_uid l' count else
      when ((sig_nr =? SIGALRM) && b) (clrf rmp ALARM_ON);;
      if negb b then sig_loop proc_id sig_nr send_uid l' count else
      let count := count + 1 in
      if tst (mp_ignore p) (mask_of sig_nr) then sig_loop proc_id sig_nr send_uid l' count else
      sig_proc rmp sig_nr;;
      unpause rmp;;
      if 0 <? proc_id then mret count else sig_loop proc_id sig_nr send_uid l' count
  end.

Definition check_sig (proc_id sig_nr send_uid : Z) : MM Z :=
  if (sig_nr <? 1) || (NSIG <? sig_nr) then mret EINVAL else
  count ← sig_loop proc_id sig_nr send_uid (seq INIT (NPROC - INIT)) 0;
  p ← gets (fun s => MP (mp s) s);
  when (negb (tst (mp_flags p) IN_USE) || tst (mp_flags p) HANGING) (modify (fun s => s <| dont_reply := true |>));;
  mret (if 0 <? count then OK else ESRCH).

Definition do_kill (pid kill_sig : Z) : MM Z :=
  p ← gets (fun s => MP (mp s) s);
  check_sig pid kill_sig (mp_effuid p).

(** One turn of the loop of [do_ksig], for signal [j]. *)
Definition ksig_one (rmp : nat) (proc_id sig_map j : Z) : MM unit :=
  let id := if (j =? SIGINT) || (j =? SIGQUIT) then 0 else proc_id in
  let id := if j =? SIGKILL then -1 else id in
  if Z.testbit sig_map (j - 1) then
    when ((j =? SIGSEGV) || (j =? SIGBUS))
      (updp rmp (fun p => p <| mp_catch ::= fun x => bclr x (mask_of j) |> <| mp_ignore ::= fun x => bclr x (mask_of j) |>));;
    check_sig id j SUPER_USER;;
    tell (SysSig rmp (-1) SIG_DFL)
  else mret tt.

Fixpoint ksig_loop (rmp : nat) (proc_id sig_map : Z) (l : list nat) : MM unit :=
  match l with
  | [] => mret tt
  | i :: l' => ksig_one rmp proc_id sig_map (Z.of_nat i + 1);; ksig_loop rmp proc_id sig_map l'
  end.

Definition do_ksig (PROC1 SIG_MAP : Z) : MM Z :=
  w ← gets who;
  if negb (w =? HARDWARE) then mret EPERM else
  modify (fun s => s <| dont_reply := true |>);;
  let rmp := Z.to_nat PROC1 in
  p ← getp rmp;
  if negb (tst (mp_flags p) IN_USE) || tst (mp_flags p) HANGING then mret OK else
  let proc_id := mp_pid p in
  let sig_map := u16 SIG_MAP in
  modify (fun s => s <| mp := 0%nat |>);;
  updp 0 (fun q => q <| mp_procgrp := mp_procgrp p |>);;
  when (sig_map =? mask_of SIGSTKFLT) (stack_fault rmp);;
  ksig_loop rmp proc_id sig_map (seq 0 15);;
  mret OK.

Definition do_alarm (seconds : Z) : MM Z :=
  w ← gets who;
  set_alarm (Z.to_nat w) (u16 seconds).

Definition do_pause : MM Z :=
  i ← gets mp;
  setf i PAUSED;;
  modify (fun s => s <| dont_reply := true |>);;
  mret OK.

(** ** trace.c *)
Definition findproc (lpid : Z) : MM (option nat) :=
  gets (fun s => (list_find (fun i => tst (mp_flags (MP i s)) IN_USE && (mp_pid (MP i s) =? lpid))
    (seq (S INIT) (NPROC - S INIT))) ≫= fun r => Some (snd r)).

Definition do_trace (pid request taddr data : Z) : MM Z :=
  i ← gets mp;
  if request =? 0 then
    setf i TRACED;;
    modify (fun s => s <| mm_out ::= fun o => o <| o_l2 := 0 |> |>);;
    mret OK
  else
  f ← findproc pid;
  match f with
  | None => mret ESRCH
  | Some child =>
      st ← flag child STOPPED;
      if negb st then mret ESRCH else
      if request =? 8 then
        mm_exit child (s16 data);;
        modify (fun s => s <| mm_out ::= fun o => o <| o_l2 := 0 |> |>);;
        mret OK
      else
      if (request =? 7) && (NSIG <? data) then mret EIO else
      when (request =? 7)
        (when (0 <? data)
           (clrf child TRACED;;
            sig_proc child (s16 data);;
            setf child TRACED);;
         clrf child STOPPED);;
      a ← ask (SysTrace request child taddr data);
      if negb (a !!! 0%nat =? OK) then mret (a !!! 0%nat) else
      modify (fun s => s <| mm_out ::= fun o => o <| o_l2 := a !!! 1%nat |> |>);;
      mret OK
  end.

(** ** getset.c; [usr_id] is 16 bits and [grpid] 8 bits wide. *)
Definition do_getset (m1_i1 : Z) : MM Z :=
  rmp ← gets mp;
  p ← getp rmp;
  w ← gets who;
  call ← gets mm_call;
  let usr_id := u16 m1_i1 in
  let grpid := u8 m1_i1 in
  if call =? GETUID then
    modify (fun s => s <| result2 := s16 (mp_effuid p) |>);;
    mret (s16 (mp_realuid p))
  else if call =? GETGID then
    modify (fun s => s <| result2 := mp_effgid p |>);;
    mret (mp_realgid p)
  else if call =? GETPID then
    q ← getp (Z.to_nat w);
    pp ← getp (mp_parent p);
    modify (fun s => s <| result2 := mp_pid pp |>);;
    mret (mp_pid q)
  else if call =? SETUID then
    if negb (mp_realuid p =? usr_id) && negb (mp_effuid p =? SUPER_USER) then mret EPERM else
    updp rmp (fun p => p <| mp_realuid := usr_id |>);;
    updp rmp (fun p => p <| mp_effuid := usr_id |>);;
    tell (TellFs SETUID w (s16 usr_id) (s16 usr_id));;
    mret OK
  else
    if negb (mp_realgid p =? grpid) && negb (mp_effuid p =? SUPER_USER) then mret EPERM else
    updp rmp (fun p => p <| mp_realgid := grpid |>);;
    updp rmp (fun p => p <| mp_effgid := grpid |>);;
    tell (TellFs SETGID w grpid grpid);;
    mret OK.
End mm.
