(* ===== verification/MmExec.v ===== *)
(** * Executing a program: [src/mm/exec.c], and MM's main loop: [main.c]

    [do_exec] with the header check, the new memory map, the relocation of
    the argument pointers and the loading of the segments; then [mm_init],
    [do_brk2], the call table of [table.c] and one turn of the main loop.
    [relocate] is not compiled for the Lisa. *)

From S2P Require Import Prelude MemAlloc KProc MmState MmProc.

Definition ARG_MAX : Z := 4096.
Definition PATH_MAX : Z := 255.
Definition HDR_SIZE : Z := 32.
Definition MAGIC : Z := 67109633.
Definition MAGIC_MASK : Z := 4279238655.
Definition SEP : Z := 2097152.
Definition I_SET_UID_BIT : Z := 2048.
Definition I_SET_GID_BIT : Z := 1024.

(** ** Longs in a byte buffer, big-endian *)
Definition long_at (b : list Z) (k : nat) : Z :=
  s32 (Z.lor (Z.shiftl (b !!! (4 * k)%nat) 24) (Z.lor (Z.shiftl (b !!! (4 * k + 1)%nat) 16)
      (Z.lor (Z.shiftl (b !!! (4 * k + 2)%nat) 8) (b !!! (4 * k + 3)%nat)))).
Definition put_long (b : list Z) (k : nat) (v : Z) : list Z :=
  <[(4 * k + 3)%nat := u8 v]> (<[(4 * k + 2)%nat := u8 (Z.shiftr v 8)]>
  (<[(4 * k + 1)%nat := u8 (Z.shiftr v 16)]> (<[(4 * k)%nat := u8 (Z.shiftr v 24)]> b))).

(** ** [patch_ptr]: [ap] is the index of a long of the stack image, [flag]
    the number of null pointers seen. *)
Fixpoint patch_loop (fuel ap flag : nat) (base : Z) (stack : list Z) : list Z :=
  match fuel with
  | O => stack
  | S fuel' =>
      if (2 <=? flag)%nat then stack else
      let v := long_at stack ap in
      if nz v then patch_loop fuel' (S ap) flag base (put_long stack ap (s32 (v + base)))
      else patch_loop fuel' (S ap) (S flag) base stack
  end.
(** The loop ends at the latest when [ap] leaves the buffer. *)
Definition patch_ptr (stack : list Z) (base : Z) : list Z :=
  patch_loop (Z.to_nat (ARG_MAX / 4) - 1) 1 0 base stack.

Section mm.
Context {X : Type} `{!Outside X}.
Notation MM := (M (mst X)).

Definition clicks_of (bytes : Z) : Z := u16 (Z.shiftr (s32 (bytes + CLICK_SIZE - 1)) CLICK_SHIFT).

Record sizes := mk_sizes { z_ft : Z; z_text : Z; z_data : Z; z_bss : Z; z_tot : Z; z_sym : Z }.

(** [Read] answers with the count (or error) and the bytes. *)
Definition read_header (fd sc : Z) : MM (Z * sizes) :=
  a ← ask (Read fd HDR_SIZE);
  if negb (a !!! 0%nat =? HDR_SIZE) then mret (ENOEXEC, mk_sizes 0 0 0 0 0 0) else
  let buf := tail a in
  let b k := long_at buf k in
  if negb (Z.land (u32 (b 0%nat)) MAGIC_MASK =? MAGIC) then mret (ENOEXEC, mk_sizes 0 0 0 0 0 0) else
  let ft := if tst (u32 (b 0%nat)) SEP then SEPARATE else 0 in
  let text_bytes := b 2%nat in
  let data_bytes := b 3%nat in
  let bss_bytes := b 4%nat in
  let sym_bytes := b 7%nat in
  let tot_bytes := b 6%nat in
  if tot_bytes =? 0 then mret (ENOEXEC, mk_sizes ft text_bytes data_bytes bss_bytes tot_bytes sym_bytes) else
  let '(text_bytes, data_bytes, tot_bytes) :=
    if ft =? SEPARATE then (text_bytes, data_bytes, tot_bytes)
    else
      let data_bytes := s32 (data_bytes + text_bytes) in
      let text_bytes := Z.shiftl (Z.shiftr text_bytes CLICK_SHIFT) CLICK_SHIFT in
      (text_bytes, s32 (data_bytes - text_bytes), s32 (tot_bytes - text_bytes)) in
  let z := mk_sizes ft text_bytes data_bytes bss_bytes tot_bytes sym_bytes in
  let tc := clicks_of text_bytes in
  let dc := clicks_of (data_bytes + bss_bytes) in
  let totc := clicks_of tot_bytes in
  if totc <=? dc then mret (ENOEXEC, z) else
  let dvir := if ft =? SEPARATE then 0 else tc in
  let s_vir := u16 (dvir + (totc - sc)) in
  let m := size_ok ft tc dc sc dvir s_vir in
  let ct := Z.land (b 1%nat) 255 in
  when (HDR_SIZE <? ct) (tell (Read fd (ct - HDR_SIZE)));;
  mret (m, z).

Definition new_mem (text_bytes data_bytes bss_bytes stk_bytes tot_bytes : Z) : MM Z :=
  let text_clicks := clicks_of text_bytes in
  let data_clicks := clicks_of (data_bytes + bss_bytes) in
  let stack_clicks := clicks_of stk_bytes in
  let tot_clicks := clicks_of tot_bytes in
  let gap_clicks := u16 (tot_clicks - data_clicks - stack_clicks) in
  if s16 gap_clicks <? 0 then mret ENOMEM else
  mh ← in_mem Impl.max_hole;
  if mh <? u16 (text_clicks + tot_clicks) then mret EAGAIN else
  rmp ← gets mp;
  new_base ← in_mem (Impl.alloc_mem (u16 (text_clicks + tot_clicks)));
  if new_base =? NO_MEM then panic "MM hole list is inconsistent" else
  let d_phys := u16 (new_base + text_clicks) in
  updp rmp (fun p => p <| mp_seg := mk_segs
    (mk_map 0 new_base text_clicks)
    (mk_map text_clicks d_phys data_clicks)
    (mk_map (u16 (text_clicks + data_clicks + gap_clicks)) (u16 (d_phys + data_clicks + gap_clicks)) stack_clicks) |>);;
  w ← gets who;
  p ← getp rmp;
  bs ← ask (SysFresh (Z.to_nat w) (mp_seg p) (u16 (Z.shiftr data_bytes CLICK_SHIFT)));
  in_mem (Impl.free_mem (u16 (bs !!! 0%nat)) (u16 (bs !!! 1%nat)));;
  mret OK.

(** [load_seg] reads directly into the new image, 31 kilobytes at a time. *)
Definition CHUNK : Z := 31 * 1024.
Fixpoint load_loop (fuel : nat) (new_fd ubuf_ptr seg_bytes : Z) : MM unit :=
  match fuel with
  | O => nofuel
  | S fuel' =>
      if seg_bytes =? 0 then mret tt else
      let bytes := if seg_bytes <? CHUNK then s16 seg_bytes else CHUNK in
      r ← ask (ReadInto new_fd ubuf_ptr bytes);
      if negb (r !!! 0%nat =? bytes) then mret tt
      else load_loop fuel' new_fd (s32 (ubuf_ptr + bytes)) (s32 (seg_bytes - bytes))
  end.

Definition load_seg (fd seg seg_bytes : Z) : MM unit :=
  w ← gets who;
  i ← gets mp;
  p ← getp i;
  let m := if seg =? 0 then seg_T (mp_seg p) else seg_D (mp_seg p) in
  let new_fd := s16 (Z.lor (Z.lor (Z.shiftl w 8) (Z.shiftl seg 6)) fd) in
  load_loop (S (Z.to_nat (seg_bytes / CHUNK + 1))) new_fd (Z.shiftl (mem_vir m) CLICK_SHIFT) seg_bytes.

(** [mbuf] is the stack image of the caller, [stk_bytes] long. *)
Definition do_exec (exec_name exec_len stack_ptr stack_bytes : Z) : MM Z :=
  rmp ← gets mp;
  w ← gets who;
  let stk_bytes := stack_bytes in
  if ARG_MAX <? stk_bytes then mret ENOMEM else
  if (exec_len <=? 0) || (PATH_MAX <? exec_len) then mret EINVAL else
  a ← mem_copy w 1 exec_name MM_PROC_NR 1 MM_BUF exec_len [];
  if negb (a !!! 0%nat =? OK) then mret (a !!! 0%nat) else
  let name_buf := tail a in
  tell (TellFs CHDIR w 0 0);;
  al ← allowed name_buf X_BIT;
  tell (TellFs CHDIR 0 1 0);;
  let fd := fst al in
  let s_buf := snd al in
  if fd <? 0 then mret fd else
  let sc := clicks_of stk_bytes in
  h ← read_header fd sc;
  let m := fst h in
  let z := snd h in
  if m <? 0 then tell (Close fd);; mret ENOEXEC else
  a ← mem_copy w 1 stack_ptr MM_PROC_NR 1 MM_BUF stk_bytes [];
  if negb (a !!! 0%nat =? OK) then tell (Close fd);; mret EACCES else
  let mbuf := tail a in
  r ← new_mem (z_text z) (z_data z) (z_bss z) stk_bytes (z_tot z);
  if negb (r =? OK) then tell (Close fd);; mret r else
  p ← getp rmp;
  let sg := seg_S (mp_seg p) in
  let vsp := s32 (Z.shiftl (mem_vir sg) CLICK_SHIFT + Z.shiftl (mem_len sg) CLICK_SHIFT - stk_bytes) in
  let mbuf := patch_ptr mbuf vsp in
  a ← mem_copy MM_PROC_NR 1 MM_BUF w 1 vsp stk_bytes mbuf;
  if negb (a !!! 0%nat =? OK) then panic "do_exec stack copy err" else
  load_seg fd 0 (z_text z);;
  load_seg fd 1 (z_data z);;
  tell (Close fd);;
  p ← getp rmp;
  when (negb (tst (mp_flags p) TRACED))
    (when (tst (st_mode s_buf) I_SET_UID_BIT)
       (updp rmp (fun p => p <| mp_effuid := st_uid s_buf |>);;
        p ← getp rmp;
        tell (TellFs SETUID w (s16 (mp_realuid p)) (s16 (mp_effuid p))));;
     when (tst (st_mode s_buf) I_SET_GID_BIT)
       (updp rmp (fun p => p <| mp_effgid := st_gid s_buf |>);;
        p ← getp rmp;
        tell (TellFs SETGID w (mp_realgid p) (mp_effgid p))));;
  updp rmp (fun p => p <| mp_catch := 0 |>);;
  clrf rmp SEPARATE;;
  setf rmp (z_ft z);;
  p ← getp rmp;
  tell (SysExec (Z.to_nat w) vsp (Z.land (mp_flags p) TRACED));;
  mret OK.

(** ** main.c *)
Definition click_to_round_k (n : Z) : Z := u16 (u32 (u32 (Z.shiftl n CLICK_SHIFT) + 512) / 1024).

(** The answers of the kernel to [get_mem] are the argument. *)
Definition mm_init (chunks : list (Z * Z)) : MM unit :=
  in_mem (Impl.mem_init chunks);;
  setf 0 IN_USE;;
  setf 1 IN_USE;;
  setf INIT IN_USE;;
  updp INIT (fun p => p <| mp_pid := INIT_PID |>);;
  modify (fun s => s <| procs_in_use := 3 |>).

Definition do_brk2 (m1_i1 m1_i2 m1_i3 m1_p1 : Z) : MM Z :=
  w ← gets who;
  if negb (w =? FS_PROC_NR) then mret EPERM else
  let init_text_clicks := u16 m1_i1 in
  let init_data_clicks := u16 m1_i2 in
  let init_org := u16 m1_p1 in
  let init_clicks := u16 (init_text_clicks + init_data_clicks) in
  let minix_clicks := u16 (init_org + init_clicks) in
  ram_base ← in_mem (Impl.alloc_mem minix_clicks);
  if nz ram_base then panic "inconsistent system memory base" else
  let tot_clicks := u16 m1_i3 in
  let ram_clicks := u16 (tot_clicks - minix_clicks) in
  ram_base ← in_mem (Impl.alloc_mem ram_clicks);
  if ram_base =? NO_MEM then panic "not enough memory for RAM disk" else
  modify (fun s => s <| mm_out ::= fun o => o <| o_l1 := ram_base * CLICK_SIZE |> |>);;
  left ← in_mem Impl.mem_left;
  let mem1 := s16 (click_to_round_k (u16 (minix_clicks + ram_clicks + left))) in
  let mem2 := s16 (click_to_round_k minix_clicks) in
  let mem3 := s16 (click_to_round_k ram_clicks) in
  when (s16 (mem1 - mem2 - mem3) <? 32) (tell SysAbort);;
  updp INIT (fun p => p <| mp_seg := mk_segs
    (mk_map init_org init_org init_text_clicks)
    (mk_map (u16 (init_org + init_text_clicks)) (u16 (init_org + init_text_clicks)) init_data_clicks)
    (mk_map (u16 (init_org + init_clicks)) (u16 (init_org + init_clicks)) (mem_len (seg_S (mp_seg p)))) |>);;
  when (nz init_text_clicks) (setf INIT SEPARATE);;
  mret OK.

(** A request: sender, call number, and the message fields; [i1] and [i2] are
    the first two integers of every message layout. *)
Record request := mk_req {
  q_source : Z;
  q_type : Z;
  q_i1 : Z;
  q_i2 : Z;
  q_i3 : Z;
  q_p1 : Z;
  q_p2 : Z;
  q_l1 : Z;
  q_l2 : Z;
  q_f1 : Z;
}.

Definition no_sys : MM Z := mret EINVAL.

(** [call_vec]. The table has [NCALLS] = 70 entries but its initializer, on
    the 68000, only the first 69: the last one is the null pointer. *)
Definition call_vec (q : request) (n : Z) : MM Z :=
  if n =? 1 then do_mm_exit (q_i1 q)
  else if n =? 2 then do_fork
  else if n =? 7 then do_wait
  else if n =? 17 then do_brk (q_p1 q)
  else if (n =? 20) || (n =? 23) || (n =? 24) || (n =? 46) || (n =? 47) then do_getset (q_i1 q)
  else if n =? 26 then do_trace (q_i1 q) (q_i2 q) (q_l1 q) (q_l2 q)
  else if n =? 27 then do_alarm (q_i1 q)
  else if n =? 29 then do_pause
  else if n =? 37 then do_kill (q_i1 q) (q_i2 q)
  else if n =? 48 then do_signal (q_i1 q) (q_f1 q)
  else if n =? 59 then do_exec (q_p1 q) (q_i1 q) (q_p2 q) (q_i2 q)
  else if n =? 64 then do_ksig (q_i1 q) (q_i2 q)
  else if n =? 66 then do_brk2 (q_i1 q) (q_i2 q) (q_i3 q) (q_p1 q)
  else if n =? 69 then panic "call through a null pointer"
  else no_sys.

(** One turn of the loop of [main]: [get_work] has received [q]. *)
Definition mm_turn (q : request) : MM unit :=
  modify (fun s => s <| who := q_source q |>);;
  modify (fun s => s <| mm_call := q_type q |>);;
  modify (fun s => s <| mp := Z.to_nat (q_source q) |>);;
  modify (fun s => s <| dont_reply := false |>);;
  error ← (if (q_type q <? 0) || (NCALLS <=? q_type q) then mret EBADCALL else call_vec q (q_type q));
  dr ← gets dont_reply;
  if dr : bool then mret tt else
  if (q_type q =? EXEC) && (error =? OK) then mret tt else
  w ← gets who;
  r2 ← gets result2;
  rp ← gets res_ptr;
  reply (Z.to_nat w) error r2 rp.
End mm.
