(* ===== verification/MmTable.v ===== *)
(** * The process table of the memory manager stays consistent

    What MM's table must satisfy between requests ([MI]): the count of slots
    in use is exact, every process has a live parent, no process waits for a
    child that has already exited, pids are unique, and the hole list is
    properly linked. Most routines do not touch the fields this is about
    ([quiet]); the others ([cleanup], [mm_exit], [do_fork], [do_wait]) are
    shown to keep it, whatever the kernel and FS answer. *)

From S2P Require Import Prelude MemAlloc KProc MmState MmProc MmExec.

(** ** The allocator always returns

    Whatever blocks are freed, the two lists of the hole table stay lists. *)
Section linked.
Import Impl.

Definition linked (t : hole_table) : Prop := exists ls fs, lists t ls fs.

Lemma alloc_loop_returns n fuel : forall ls2 ls1 t fs prev hp,
  lists t (ls1 ++ ls2) fs -> llist (nxt t) hp ls2 ->
  (ls1 <> [] -> prev = last ls1) -> (length ls2 < fuel)%nat ->
  wp (alloc_loop fuel n prev hp) (fun _ t' => linked t') t.
Proof.
  induction fuel as [|fuel IH]; intros ls2 ls1 t fs prev hp HL Hhp Hprev Hfuel; [lia|].
  cbn [alloc_loop]. destruct hp as [i|]; [|wp_steps; by exists (ls1 ++ ls2), fs].
  apply llist_some in Hhp as (ls & -> & Hhp). wp_steps.
  assert (Hnext : wp (alloc_loop fuel n (Some i) (h_next (slot i t))) (fun _ t' => linked t') t).
  { apply (IH ls (ls1 ++ [i]) t fs); [by rewrite <- app_assoc|done|by rewrite last_snoc|simpl in *; lia]. }
  destruct (Z.odd _); [done|]. destruct (_ <=? _); [|done].
  unfold upd_slot. wp_steps. fold (bite n i t).
  assert (HL' : lists (bite n i t) (ls1 ++ i :: ls) fs) by by apply bite_lists.
  destruct (nz _); wp_steps; [by exists (ls1 ++ i :: ls), fs|].
  eapply wp_mono; [by eapply del_slot_ok|]. intros [] t' [H _]. wp_steps. by exists (ls1 ++ ls), (i :: fs).
Qed.

Lemma alloc_mem_returns n t : linked t -> wp (alloc_mem n) (fun _ t' => linked t') t.
Proof.
  intros (ls & fs & HL). unfold alloc_mem. wp_steps.
  apply (alloc_loop_returns _ (S NR_HOLES) ls [] t fs); [done|by destruct HL|done|].
  pose proof (lists_length _ _ _ HL). lia.
Qed.

Lemma merge_step_linked t l1 h n l2 fs : lists t (l1 ++ h :: n :: l2) fs ->
  wp (merge_step h n) (fun r t' => exists l1' l2' fs', lists t' (l1' ++ r :: l2') fs') t.
Proof.
  intros HL. unfold merge_step. wp_steps. destruct (_ =? _); wp_steps.
  - unfold upd_slot. wp_steps. eapply wp_mono; [apply (del_slot_ok _ (l1 ++ [h]) l2 n fs)|].
    + rewrite <- app_assoc. by apply lists_upd_data.
    + by rewrite last_snoc.
    + intros [] t' [H _]. wp_steps. rewrite <- app_assoc in H. by exists l1, l2, (n :: fs).
  - exists (l1 ++ [h]), l2, fs. by rewrite <- app_assoc.
Qed.

Lemma merge_linked t l1 h l2 fs : lists t (l1 ++ h :: l2) fs -> wp (merge h) (fun _ t' => linked t') t.
Proof.
  intros HL. unfold merge. wp_steps. change (h_next (slot h t)) with (nxt t h).
  rewrite (nxt_mid _ _ _ _ _ HL). destruct l2 as [|n l2]; cbn [hd_error]; wp_steps; [by eexists _, _|].
  eapply wp_mono; [by eapply merge_step_linked|]. intros r t1 (la & lb & fs' & HL1). wp_steps.
  change (h_next (slot r t1)) with (nxt t1 r). rewrite (nxt_mid _ _ _ _ _ HL1).
  destruct lb as [|n' lb]; cbn [hd_error]; wp_steps; [by eexists _, _|].
  eapply wp_mono; [by eapply merge_step_linked|]. intros r' t2 (la' & lb' & fs2 & HL2). wp_steps. by eexists _, _.
Qed.

(** Linking the first unused slot in after [prev] (or in front). *)
Lemma fill_front_linked t ls fs new b n : lists t ls (new :: fs) ->
  wp (upd_slot new (fun h => h <| h_next := hole_head t |>);;
      modify (fun t => t <| hole_head := Some new |>);; merge new) (fun _ t' => linked t') (fill new b n t).
Proof.
  intros HL. unfold upd_slot. wp_steps. set (t1 := _ <| hole_head := _ |>).
  pose proof HL as (Hl & _ & Hnd & Hlen & _).
  assert (Hnew : (new < length (hole_tbl t))%nat) by (eapply lists_in; [done|set_solver]).
  assert (Hn : forall j, nxt t1 j = if decide (new = j) then hole_head t else nxt t j).
  { intros j. etrans; [apply nxt_set; by rewrite fill_len|]. by rewrite fill_nxt. }
  apply (merge_linked t1 [] new ls fs). eapply link_lists; try done.
  - simpl. by rewrite !length_alter.
  - apply fill_free.
  - rewrite Hn, decide_True by done. destruct ls; simpl in *; naive_solver.
  - intros j Hj _. by rewrite Hn, decide_False.
Qed.

Lemma fill_after_linked t la lb prev fs new b n : lists t ((la ++ [prev]) ++ lb) (new :: fs) ->
  wp (pnext ← gets (fun t => h_next (slot prev t));
      upd_slot new (fun h => h <| h_next := pnext |>);;
      upd_slot prev (fun h => h <| h_next := Some new |>);; merge prev) (fun _ t' => linked t') (fill new b n t).
Proof.
  intros HL. unfold upd_slot. wp_steps.
  change (h_next (slot prev (fill new b n t))) with (nxt (fill new b n t) prev).
  rewrite fill_nxt. set (t1 := _ <| hole_tbl ::= _ |>).
  pose proof HL as (Hl & _ & Hnd & Hlen & _).
  assert (Hnew : (new < length (hole_tbl t))%nat) by (eapply lists_in; [done|set_solver]).
  assert (Hprv : (prev < length (hole_tbl t))%nat) by (eapply lists_in; [done|set_solver]).
  assert (Hni : new <> prev) by (apply NoDup_app in Hnd as (_ & Hd & _); set_solver).
  assert (Hn : forall j, nxt t1 j = if decide (prev = j) then Some new
      else if decide (new = j) then nxt t prev else nxt t j).
  { intros j. etrans; [apply nxt_set; simpl; by rewrite !length_alter|]. case_decide; [done|].
    etrans; [apply nxt_set; by rewrite fill_len|]. by rewrite fill_nxt. }
  apply (merge_linked t1 la prev (new :: lb) fs).
  cut (lists t1 ((la ++ [prev]) ++ new :: lb) fs); [by rewrite <- app_assoc|].
  eapply link_lists; try done.
  - simpl. by rewrite !length_alter.
  - apply fill_free.
  - by destruct la.
  - rewrite Hn, decide_False, decide_True by done. rewrite <- app_assoc in HL. by eapply (nxt_mid _ la).
  - intros j. rewrite last_snoc, Hn. intros [= ->]. by rewrite decide_True.
  - intros j Hj. rewrite last_snoc, Hn. intros ?. rewrite !decide_False by congruence. done.
Qed.

Lemma free_mem_returns b n t : linked t -> tp (free_mem b n) (fun _ t' => linked t') t.
Proof.
  intros (ls & fs & HL). pose proof (lists_length _ _ _ HL) as Hl. unfold free_mem. wp_steps.
  destruct fs as [|new fs]; pose proof HL as (Hls & Hfs & _); [by rewrite Hfs|]. destruct Hfs as [-> _].
  wp_steps. apply (tp_modify _ _). wp_steps. apply (tp_modify _ _). wp_steps.
  fold (fill new b (even_clicks n) t). change (hole_head (fill new b (even_clicks n) t)) with (hole_head t).
  match goal with |- tp (if ?c then _ else _) _ _ => destruct c eqn:Hc end; apply wp_tp.
  { by eapply fill_front_linked. }
  destruct (hole_head t) as [i|] eqn:Eh; [|done]. apply llist_some in Hls as (l' & -> & Hl').
  wp_steps. eapply wp_mono; [eapply (free_loop_ok _ b (S NR_HOLES) [] (i :: l'))|].
  - split; [done|]. eapply lseg_frame; [|rewrite fill_nxt; exact Hl']. intros; apply fill_nxt.
  - done.
  - lia.
  - intros r t' (-> & la & lb & Heq & -> & _ & Hlb). destruct la as [|p la _] using rev_ind.
    { simpl in Heq. subst lb. apply Z.leb_gt in Hc. change (b <= h_base (slot i (fill new b (even_clicks n) t))) in Hlb. lia. }
    rewrite app_nil_l, last_snoc. eapply fill_after_linked. by rewrite <- Heq.
Qed.

Lemma max_hole_returns t : linked t -> wp max_hole (fun _ t' => t' = t) t.
Proof.
  intros (ls & fs & HL). unfold max_hole. wp_steps. eapply wp_mono; [eapply max_loop_ok; [by destruct HL|]|].
  - pose proof (lists_length _ _ _ HL). lia.
  - naive_solver.
Qed.
Lemma mem_left_returns t : linked t -> wp mem_left (fun _ t' => t' = t) t.
Proof.
  intros (ls & fs & HL). unfold mem_left. wp_steps. eapply wp_mono; [eapply left_loop_ok; [by destruct HL|]|].
  - pose proof (lists_length _ _ _ HL). lia.
  - naive_solver.
Qed.
End linked.

(** ** The fields the table invariant is about *)
Record pv := mk_pv { v_use : bool; v_hang : bool; v_wait : bool; v_parent : nat; v_pid : Z }.
#[export] Instance pv_upd : Updatable pv := fun v =>
  mk_pv (v_use v) (v_hang v) (v_wait v) (v_parent v) (v_pid v).
#[export] Instance pv_inh : Inhabited pv := populate (mk_pv false false false 0 0).

Definition view (p : mproc) : pv :=
  mk_pv (tst (mp_flags p) IN_USE) (tst (mp_flags p) HANGING) (tst (mp_flags p) WAITING) (mp_parent p) (mp_pid p).

(** The number of slots in use. *)
Fixpoint in_use (t : list pv) : Z :=
  match t with [] => 0 | v :: t' => (if v_use v then 1 else 0) + in_use t' end.

(** The table invariant; the children of the slots [D] are being disinherited
    and may have a parent that is gone, and the slots [E] are about to be
    collected although their parent waits. *)
Record MIv (D E : list nat) (t : list pv) (n np : Z) : Prop := {
  mi_len : length t = NPROC;
  mi_count : n = in_use t;
  mi_sys i : (i <= INIT)%nat -> v_use (t !!! i) = true /\ v_parent (t !!! i) = 0%nat;
  mi_mm : v_wait (t !!! 0%nat) = false;
  mi_parent i : (INIT < i < NPROC)%nat -> v_use (t !!! i) = true ->
    (v_parent (t !!! i) < NPROC)%nat /\ v_parent (t !!! i) <> i /\
    (v_use (t !!! (v_parent (t !!! i))) = true \/ v_parent (t !!! i) ∈ D);
  mi_hang i : v_hang (t !!! i) = true -> v_use (t !!! i) = true;
  mi_zombie i : i ∉ E -> v_hang (t !!! i) = true ->
    v_wait (t !!! (v_parent (t !!! i))) = false;
  mi_pid i : (INIT <= i < NPROC)%nat -> v_use (t !!! i) = true -> 1 <= v_pid (t !!! i) <= 30000;
  mi_uniq i j : (INIT <= i < NPROC)%nat -> (INIT <= j < NPROC)%nat -> v_use (t !!! i) = true ->
    v_use (t !!! j) = true -> v_pid (t !!! i) = v_pid (t !!! j) -> i = j;
  mi_next : 2 <= np <= 30000;
}.

Section views.
Implicit Types (t : list pv).

Lemma in_use_alter t f i : (i < length t)%nat ->
  in_use (alter f i t) = in_use t - (if v_use (t !!! i) then 1 else 0) + (if v_use (f (t !!! i)) then 1 else 0).
Proof.
  revert i. induction t as [|v t IH]; intros [|i] Hi; cbn [length] in Hi; try lia.
  - change (alter f 0%nat (v :: t)) with (f v :: t). cbn [in_use]. change ((v :: t) !!! 0%nat) with v. lia.
  - change (alter f (S i) (v :: t)) with (v :: alter f i t). cbn [in_use].
    change ((v :: t) !!! S i) with (t !!! i). rewrite IH by lia. lia.
Qed.

Lemma in_use_ext t t' : length t = length t' -> (forall i, v_use (t !!! i) = v_use (t' !!! i)) -> in_use t = in_use t'.
Proof.
  revert t'. induction t as [|v t IH]; intros [|v' t'] Hl Hu; try done. cbn [in_use].
  rewrite (Hu 0%nat : v_use v = v_use v'). f_equal. apply IH; [by injection Hl|]. intros i. apply (Hu (S i)).
Qed.

Lemma in_use_le t : 0 <= in_use t <= Z.of_nat (length t).
Proof. induction t as [|v t IH]; cbn [in_use length]; [lia|]. destruct (v_use v); lia. Qed.

Lemma in_use_full t : in_use t = Z.of_nat (length t) <-> forall i, (i < length t)%nat -> v_use (t !!! i) = true.
Proof.
  induction t as [|v t IH]; cbn [in_use length]; [split; [lia|done]|]. pose proof (in_use_le t). split.
  - intros E. destruct (v_use v) eqn:Ev; [|lia]. intros [|i] Hi; [done|]. apply IH; lia.
  - intros H1. assert (Hv : v_use v = true) by (apply (H1 0%nat); lia). rewrite Hv.
    assert (in_use t = Z.of_nat (length t)); [|lia]. apply IH. intros i Hi. apply (H1 (S i)). lia.
Qed.

(** A table that differs only in fewer waiting flags. *)
Lemma MIv_nowait D E t t' n np : MIv D E t n np -> length t' = length t ->
  (forall i, v_use (t' !!! i) = v_use (t !!! i) /\ v_hang (t' !!! i) = v_hang (t !!! i) /\
     v_parent (t' !!! i) = v_parent (t !!! i) /\ v_pid (t' !!! i) = v_pid (t !!! i) /\
     (v_wait (t !!! i) = false -> v_wait (t' !!! i) = false)) ->
  MIv D E t' n np.
Proof.
  intros [] Hl H.
  assert (Hu : forall i, v_use (t' !!! i) = v_use (t !!! i)) by apply H.
  assert (Hh : forall i, v_hang (t' !!! i) = v_hang (t !!! i)) by apply H.
  assert (Hp : forall i, v_parent (t' !!! i) = v_parent (t !!! i)) by apply H.
  assert (Hi : forall i, v_pid (t' !!! i) = v_pid (t !!! i)) by apply H.
  assert (Hw : forall i, v_wait (t !!! i) = false -> v_wait (t' !!! i) = false) by apply H.
  split; intros *; rewrite ?Hl, ?(in_use_ext t' t), ?Hu, ?Hh, ?Hp, ?Hi, ?Hu by done; eauto.
Qed.

(** Looking at one slot after an update. *)
Lemma pv_alter t f i j : (i < length t)%nat ->
  alter f i t !!! j = if decide (i = j) then f (t !!! j) else t !!! j.
Proof.
  intros Hi. destruct (decide (i = j)) as [->|]; [by rewrite tbl_alter_eq|by rewrite tbl_alter_ne].
Qed.
End views.

Section quiet.
Context {X : Type} `{!Outside X}.
Implicit Types s : mst X.

Definition views (s : mst X) : list pv := view <$> mtab s.

Definition MI_of (D E : list nat) (s : mst X) : Prop :=
  MIv D E (views s) (procs_in_use s) (next_pid s) /\ linked (mem s).
Definition MI : mst X -> Prop := MI_of [] [].

Lemma view_MP s i : (i < length (mtab s))%nat -> view (MP i s) = views s !!! i.
Proof. intros Hi. unfold views, MP. symmetry. by apply list_lookup_total_fmap. Qed.

Lemma views_alter s f g i : (forall p, view (f p) = g (view p)) ->
  views (s <| mtab ::= alter f i |>) = alter g i (views s).
Proof.
  intros Hfg. unfold views. cbn [mtab set_field]. apply list_fmap_alter, Forall_forall. intros p _. apply Hfg.
Qed.
Lemma views_same s f i : (forall p, view (f p) = view p) -> views (s <| mtab ::= alter f i |>) = views s.
Proof.
  intros Hf. rewrite (views_alter s f (fun v => v)) by done. by apply list_alter_id.
Qed.

(** [m] returns or panics, and changes nothing the invariant is about. *)
Definition same (s s' : mst X) : Prop :=
  views s' = views s /\ procs_in_use s' = procs_in_use s /\ next_pid s' = next_pid s.
Definition quiet {A} (m : M (mst X) A) : Prop :=
  forall s, linked (mem s) -> tp m (fun _ s' => same s s' /\ linked (mem s')) s.

Lemma quiet_ret {A} (a : A) : quiet (mret a).
Proof. by intros s Hl. Qed.
Lemma quiet_gets {A} (f : mst X -> A) : quiet (gets f).
Proof. by intros s Hl. Qed.
Lemma quiet_panic {A} w : quiet (panic w : M (mst X) A).
Proof. by intros s Hl. Qed.
Lemma quiet_modify (f : mst X -> mst X) : (forall s, same s (f s) /\ mem (f s) = mem s) -> quiet (modify f).
Proof. intros Hf s Hl. apply tp_modify. destruct (Hf s) as [H ->]. done. Qed.
Lemma quiet_bind {A B} (m : M (mst X) A) (k : A -> M (mst X) B) :
  quiet m -> (forall a, quiet (k a)) -> quiet (m ≫= k).
Proof.
  intros Hm Hk s Hl. apply tp_bind. eapply tp_mono; [by apply Hm|]. intros a s1 [(V1 & P1 & N1) Hl1].
  eapply tp_mono; [by apply Hk|]. intros b s2 [(V2 & P2 & N2) Hl2]. split; [|done]. unfold same. by rewrite V2, P2, N2.
Qed.
Lemma quiet_when b (m : M (mst X) unit) : quiet m -> quiet (when b m).
Proof. by destruct b. Qed.
Lemma quiet_updp i f : (forall p, view (f p) = view p) -> quiet (updp i f).
Proof. intros Hf. apply quiet_modify. intros s. split; [|done]. split; [by apply views_same|done]. Qed.
Lemma quiet_ask e : quiet (ask e).
Proof. intros s Hl. unfold tp, ask. by destruct (answer e (ext s)). Qed.
Lemma quiet_tell e : quiet (tell e).
Proof. apply quiet_bind; [apply quiet_ask|]. intros; apply quiet_ret. Qed.
Lemma quiet_mem {A} (m : M Impl.hole_table A) :
  (forall t, linked t -> tp m (fun _ t' => linked t') t) -> quiet (in_mem m).
Proof. intros Hm s Hl. apply tp_zoom. eapply tp_mono; [by apply Hm|]. intros a t Ht. done. Qed.
Lemma quiet_alloc n : quiet (in_mem (Impl.alloc_mem n)).
Proof. apply quiet_mem. intros t Ht. by apply wp_tp, alloc_mem_returns. Qed.
Lemma quiet_free b n : quiet (in_mem (Impl.free_mem b n)).
Proof. apply quiet_mem. intros t Ht. by apply free_mem_returns. Qed.
Lemma quiet_max : quiet (in_mem Impl.max_hole).
Proof. apply quiet_mem. intros t Ht. eapply tp_mono; [by apply wp_tp, max_hole_returns|]. by intros a t' ->. Qed.
Lemma quiet_left : quiet (in_mem Impl.mem_left).
Proof. apply quiet_mem. intros t Ht. eapply tp_mono; [by apply wp_tp, mem_left_returns|]. by intros a t' ->. Qed.
Lemma view_bset p b : Z.land b IN_USE = 0 -> Z.land b HANGING = 0 -> Z.land b WAITING = 0 ->
  view (p <| mp_flags ::= fun f => bset f b |>) = view p.
Proof.
  intros H1 H2 H3. unfold view. cbn [mp_flags mp_parent mp_pid set_field]. rewrite !tst_bset.
  unfold tst at 2 4 6. by rewrite H1, H2, H3, !orb_false_r.
Qed.
Lemma view_bclr p b : Z.land b IN_USE = 0 -> Z.land b HANGING = 0 -> Z.land b WAITING = 0 ->
  view (p <| mp_flags ::= fun f => bclr f b |>) = view p.
Proof. intros H1 H2 H3. unfold view. cbn [mp_flags mp_parent mp_pid set_field]. by rewrite !tst_bclr. Qed.
Lemma quiet_setf i b : Z.land b IN_USE = 0 -> Z.land b HANGING = 0 -> Z.land b WAITING = 0 -> quiet (setf i b).
Proof. intros. apply quiet_updp. intros p. by apply view_bset. Qed.
Lemma quiet_clrf i b : Z.land b IN_USE = 0 -> Z.land b HANGING = 0 -> Z.land b WAITING = 0 -> quiet (clrf i b).
Proof. intros. apply quiet_updp. intros p. by apply view_bclr. Qed.
End quiet.

Create HintDb quiet_db.
#[export] Hint Resolve quiet_ret quiet_gets quiet_panic quiet_ask quiet_tell quiet_alloc quiet_free
  quiet_max quiet_left : quiet_db.

(** Go over the text of a function. *)
Ltac quiet_auto :=
  repeat (intros; cbv beta zeta iota;
    lazymatch goal with
    | |- quiet (mbind _ _) => apply quiet_bind
    | |- quiet (mret _) => apply quiet_ret
    | |- quiet (gets _) => apply quiet_gets
    | |- quiet (getp _) => apply quiet_gets
    | |- quiet (flag _ _) => apply quiet_gets
    | |- quiet (panic _) => apply quiet_panic
    | |- quiet (when _ _) => apply quiet_when
    | |- quiet (modify _) => apply quiet_modify; done
    | |- quiet (updp _ _) => apply quiet_updp; done
    | |- quiet (setf _ _) => apply quiet_setf; done
    | |- quiet (clrf _ _) => apply quiet_clrf; done
    | |- quiet (match ?x with _ => _ end) => destruct x
    | |- quiet _ => solve [eauto with quiet_db]
    end).

(** What the proofs rely on of the kernel and of executable files: the
    process table entry ends before offset 1024, and the sizes in a header
    are not negative (nor absurd). *)
Class OutsideOk (X : Type) `{!Outside X} : Prop := {
  trace_ends p off x : 1024 <= off -> fst (answer (SysTrace 3 p off 0) x) !!! 0%nat <> OK;
  header_sizes fd x : let b := tail (fst (answer (Read fd HDR_SIZE) x)) in
    0 <= long_at b 2 < 2 ^ 30 /\ 0 <= long_at b 3 < 2 ^ 30;
}.

Section quiet_ops.
Context {X : Type} `{OutsideOk X}.
Implicit Types s : mst X.

Lemma quiet_reply p a b c : quiet (reply p a b c : M (mst X) unit).
Proof. unfold reply. quiet_auto. Qed.
Lemma quiet_mem_copy a b c d e f g h : quiet (mem_copy a b c d e f g h : M (mst X) _).
Proof. unfold mem_copy. quiet_auto. Qed.
Lemma quiet_allowed n m : quiet (allowed n m : M (mst X) _).
Proof. unfold allowed. quiet_auto. Qed.
Lemma quiet_adjust i d sp : quiet (adjust i d sp : M (mst X) _).
Proof. unfold adjust. quiet_auto. Qed.
Lemma quiet_set_alarm i n : quiet (set_alarm i n : M (mst X) _).
Proof. unfold set_alarm. quiet_auto. Qed.

(** What was answered is known in the rest. *)
Lemma quiet_ask_bind {A} e (k : list Z -> M (mst X) A) :
  (forall x, quiet (k (fst (answer e x)))) -> quiet (ask e ≫= k).
Proof.
  intros Hk s Hl. apply tp_bind. unfold tp at 1, ask. specialize (Hk (ext s)).
  destruct (answer e (ext s)) as [r x]. cbn [fst] in Hk. eapply tp_mono; [by apply Hk|]. done.
Qed.
Definition quietP {A} (P : A -> Prop) (m : M (mst X) A) : Prop :=
  forall s, linked (mem s) -> tp m (fun a s' => P a /\ same s s' /\ linked (mem s')) s.
Lemma quietP_ret {A} (P : A -> Prop) (a : A) : P a -> quietP P (mret a).
Proof. by intros HP s Hl. Qed.
Lemma quietP_after {A B} (P : B -> Prop) (m : M (mst X) A) (k : A -> M (mst X) B) :
  quiet m -> (forall a, quietP P (k a)) -> quietP P (m ≫= k).
Proof.
  intros Hm Hk s Hl. apply tp_bind. eapply tp_mono; [by apply Hm|]. intros a s1 [(V1 & P1 & N1) Hl1].
  eapply tp_mono; [by apply Hk|]. intros b s2 (HP & (V2 & P2 & N2) & Hl2). split_and!; [done| |done].
  unfold same. by rewrite V2, P2, N2.
Qed.
Lemma quietP_bind {A B} (P : A -> Prop) (m : M (mst X) A) (k : A -> M (mst X) B) :
  quietP P m -> (forall a, P a -> quiet (k a)) -> quiet (m ≫= k).
Proof.
  intros Hm Hk s Hl. apply tp_bind. eapply tp_mono; [by apply Hm|]. intros a s1 (HP & (V1 & P1 & N1) & Hl1).
  eapply tp_mono; [by apply Hk|]. intros b s2 ((V2 & P2 & N2) & Hl2). split; [|done].
  unfold same. by rewrite V2, P2, N2.
Qed.
End quiet_ops.
#[export] Hint Resolve quiet_reply quiet_mem_copy quiet_allowed quiet_adjust quiet_set_alarm : quiet_db.

(** ** Loops whose length depends on an answer *)
Section quiet_loops.
Context {X : Type} `{OutsideOk X}.
Implicit Types s : mst X.

Lemma quiet_dump_seg fuel r slot i : forall a c, c <= 256 * Z.of_nat fuel ->
  quiet (dump_seg (S fuel) r slot i a c : M (mst X) _).
Proof.
  induction fuel as [|fuel IH]; intros a c Hc; cbn [dump_seg].
  - destruct (Z.ltb_spec 0 c); [lia|]. apply quiet_ret.
  - destruct (Z.ltb_spec 0 c); [|apply quiet_ret]. apply quiet_bind; [apply quiet_mem_copy|]. intros e1.
    apply quiet_bind; [apply quiet_ask|]. intros e2. destruct (_ || _); [apply quiet_ret|].
    apply IH. unfold DUMP_SIZE. lia.
Qed.
Lemma quiet_dump_segs r slot l : quiet (dump_segs r slot l : M (mst X) _).
Proof.
  induction l as [|[i m] l IH]; cbn [dump_segs]; [apply quiet_ret|]. apply quiet_bind.
  - apply quiet_dump_seg. rewrite Z.shiftl_mul_pow2 by done. change (2 ^ CLICK_SHIFT) with 256. lia.
  - intros []; [apply quiet_ret|apply IH].
Qed.
Lemma quiet_dump_regs fuel r slot : forall off, 1024 <= off + 4 * Z.of_nat fuel ->
  quiet (dump_regs (S fuel) r slot off : M (mst X) _).
Proof.
  induction fuel as [|fuel IH]; intros off Hoff; cbn [dump_regs]; apply quiet_ask_bind; intros x.
  - pose proof (trace_ends (Z.to_nat slot) off x ltac:(lia)) as Ht. apply Z.eqb_neq in Ht. rewrite Ht. apply quiet_ret.
  - destruct (_ =? _); [|apply quiet_ret]. apply quiet_bind; [apply quiet_tell|]. intros _. apply IH. lia.
Qed.
Lemma quiet_dump_core i : quiet (dump_core i : M (mst X) _).
Proof.
  assert (forall r slot, quiet (dump_regs 258 r slot 0 : M (mst X) _)) by (intros; apply quiet_dump_regs; lia).
  pose proof quiet_dump_segs. unfold dump_core. quiet_auto.
Qed.


Lemma quiet_load_loop fuel fd : forall u b, 0 <= b < 2 ^ 31 -> b <= CHUNK * Z.of_nat fuel ->
  quiet (load_loop (S fuel) fd u b : M (mst X) _).
Proof.
  induction fuel as [|fuel IH]; intros u b Hb Hf; cbn [load_loop].
  - rewrite (proj2 (Z.eqb_eq b 0)) by lia. apply quiet_ret.
  - destruct (Z.eqb_spec b 0); [apply quiet_ret|]. apply quiet_bind; [apply quiet_ask|]. intros r.
    destruct (negb _); [apply quiet_ret|]. unfold CHUNK in *.
    destruct (Z.ltb_spec b (31 * 1024)); rewrite ?(s16_id b) by lia; rewrite (s32_id (b - _)) by lia; apply IH; lia.
Qed.
Lemma quiet_load_seg fd seg b : 0 <= b < 2 ^ 31 -> quiet (load_seg fd seg b : M (mst X) _).
Proof.
  intros Hb. unfold load_seg. apply quiet_bind; [apply quiet_gets|]. intros w. apply quiet_bind; [apply quiet_gets|].
  intros i. apply quiet_bind; [apply quiet_gets|]. intros p. cbv zeta. apply quiet_load_loop; [done|].
  unfold CHUNK. rewrite Z2Nat.id by zlia. zlia.
Qed.

Definition good_sizes (r : Z * sizes) : Prop :=
  fst r < 0 \/ (0 <= z_text (snd r) < 2 ^ 31 /\ 0 <= z_data (snd r) < 2 ^ 31 /\
                (z_ft (snd r) = SEPARATE \/ z_ft (snd r) = 0)).
Lemma quiet_read_header fd sc : quietP good_sizes (read_header fd sc : M (mst X) _).
Proof.
  intros s Hl. unfold read_header. apply tp_bind. unfold tp at 1, ask.
  pose proof (header_sizes fd (ext s)) as Hs. destruct (answer (Read fd HDR_SIZE) (ext s)) as [a x].
  cbn [fst] in Hs. cbv zeta in Hs. set (s1 := s <| ext := x |> <| log ::= _ |>).
  assert (Hl1 : linked (mem s1)) by done.
  match goal with |- tp ?m ?Q s1 => cut (quietP good_sizes m) end.
  { intros Hq. eapply tp_mono; [by apply Hq|]. done. }
  destruct (negb _); [by apply quietP_ret; left|]. cbv zeta. destruct (negb _); [by apply quietP_ret; left|].
  destruct (_ =? 0); [by apply quietP_ret; left|].
  set (ft := if tst _ SEP then SEPARATE else 0).
  assert (Hft : ft = SEPARATE \/ ft = 0) by (unfold ft; destruct (tst _ SEP); auto). clearbody ft.
  set (tx := long_at (tail a) 2) in *. set (da := long_at (tail a) 3) in *. destruct Hs as [Ht Hd].
  assert (Hfl : 0 <= Z.shiftl (Z.shiftr tx CLICK_SHIFT) CLICK_SHIFT <= tx).
  { rewrite Z.shiftl_mul_pow2, Z.shiftr_div_pow2 by done. change (2 ^ CLICK_SHIFT) with 256. zlia. }
  destruct (ft =? SEPARATE) eqn:Eft; (destruct (_ <=? _); [by apply quietP_ret; left|]);
    (apply quietP_after; [apply quiet_when; auto with quiet_db|]); intros _; apply quietP_ret; right; cbn [snd z_text z_data z_ft].
  - lia.
  - rewrite (s32_id (da + tx)) by lia. rewrite s32_id by lia. lia.
Qed.
Lemma quiet_new_mem a b c d e : quiet (new_mem a b c d e : M (mst X) _).
Proof. unfold new_mem. quiet_auto. Qed.
End quiet_loops.
#[export] Hint Resolve quiet_dump_core quiet_new_mem : quiet_db.

Section quiet_exec.
Context {X : Type} `{OutsideOk X}.
Lemma quiet_exec a b c d : quiet (do_exec a b c d : M (mst X) _).
Proof.
  unfold do_exec. do 2 (apply quiet_bind; [apply quiet_gets|]; intros ?). destruct (_ <? _); [apply quiet_ret|].
  destruct (_ || _); [apply quiet_ret|]. apply quiet_bind; [apply quiet_mem_copy|]; intros ?.
  destruct (negb _); [apply quiet_ret|]. apply quiet_bind; [apply quiet_tell|]; intros [].
  apply quiet_bind; [apply quiet_allowed|]; intros al. apply quiet_bind; [apply quiet_tell|]; intros []. cbv zeta.
  destruct (_ <? 0); [apply quiet_ret|]. eapply quietP_bind; [apply quiet_read_header|]. intros [m z] Hz. cbn [fst snd].
  destruct (Z.ltb_spec m 0); [quiet_auto|]. destruct Hz as [Hz|(Ht & Hd & Hf)]; [cbn in Hz; lia|]. cbn [snd] in *.
  assert (H1 := quiet_load_seg (X := X) (fst al) 0 _ Ht). assert (H2 := quiet_load_seg (X := X) (fst al) 1 _ Hd).
  assert (H3 : forall i, quiet (setf i (z_ft z) : M (mst X) _)) by (intros i; apply quiet_setf; by destruct Hf as [-> | ->]).
  quiet_auto. all: match goal with |- quiet (setf _ _) => apply H3 end.
Qed.
End quiet_exec.
