(* ===== verification/MmInv.v ===== *)
(** * Every request keeps the memory manager's table consistent

    The routines that change who is alive, who is whose child, and who waits
    for whom: exit and the clean-up of dead processes, wait, fork and
    signals. They return or panic (a reply that the kernel refuses, a full
    hole table), never loop, and keep the invariant [MmTable.MI]. *)

From S2P Require Import Prelude MemAlloc KProc MmState MmProc MmExec MmTable.

(** ** Updates of the table *)
Section tables.
Implicit Types (t : list pv).

(** How a clean-up may change a table: parents only become INIT, flags are
    only cleared. *)
Definition evolve t t' : Prop := forall i,
  (v_parent (t' !!! i) = v_parent (t !!! i) \/ v_parent (t' !!! i) = INIT) /\
  (v_use (t' !!! i) = true -> v_use (t !!! i) = true) /\
  (v_wait (t' !!! i) = true -> v_wait (t !!! i) = true) /\
  (v_hang (t' !!! i) = true -> v_hang (t !!! i) = true) /\
  v_pid (t' !!! i) = v_pid (t !!! i).
#[export] Instance evolve_po : PreOrder evolve.
Proof.
  split.
  - intros t i. by split_and!; [left|..].
  - intros t1 t2 t3 H12 H23 i. destruct (H12 i) as (P1 & U1 & W1 & G1 & D1), (H23 i) as (P2 & U2 & W2 & G2 & D2).
    split_and!; [|by auto..|congruence]. destruct P2 as [-> | ->]; [exact P1|by right].
Qed.

Lemma MIv_weaken D E E' t n np : (forall i, i ∈ E -> i ∈ E') -> MIv D E t n np -> MIv D E' t n np.
Proof. intros HE []. split; try done. intros i Hi. apply mi_zombie. auto. Qed.

(** The start of [cleanup]: the child is released, its parent awake. *)
Definition bury (c pa : nat) t : list pv :=
  alter (fun v => v <| v_use := false |>) c (alter (fun v => v <| v_wait := false |>) pa
    (alter (fun v => v <| v_hang := false |>) c t)).

Lemma bury_at c pa t j : (c < length t)%nat -> (pa < length t)%nat ->
  v_use (bury c pa t !!! j) = (if decide (c = j) then false else v_use (t !!! j)) /\
  v_hang (bury c pa t !!! j) = (if decide (c = j) then false else v_hang (t !!! j)) /\
  v_wait (bury c pa t !!! j) = (if decide (pa = j) then false else v_wait (t !!! j)) /\
  v_parent (bury c pa t !!! j) = v_parent (t !!! j) /\ v_pid (bury c pa t !!! j) = v_pid (t !!! j).
Proof.
  intros Hc Hp. unfold bury. rewrite !pv_alter by (by rewrite ?length_alter).
  destruct (decide (c = j)), (decide (pa = j)); done.
Qed.

Lemma bury_evolve c pa t : (c < length t)%nat -> (pa < length t)%nat -> evolve t (bury c pa t).
Proof.
  intros Hc Hp i. destruct (bury_at c pa t i Hc Hp) as (-> & -> & -> & -> & ->).
  split_and!; [by left|..|done]; [destruct (decide (c = i))|destruct (decide (pa = i))|destruct (decide (c = i))]; done.
Qed.

Lemma MIv_bury D t n np c : MIv D [c] t n np -> (INIT < c < NPROC)%nat -> v_use (t !!! c) = true ->
  MIv (c :: D) [] (bury c (v_parent (t !!! c)) t) (n - 1) np.
Proof.
  intros HM Hc Hu. destruct HM. destruct (mi_parent c Hc Hu) as (Hpa & Hpc & _). set (pa := v_parent (t !!! c)) in *.
  assert (HB := bury_at c pa t). rewrite mi_len in HB. specialize (HB) with (1 := proj2 Hc) (2 := Hpa).
  assert (Hus : forall j, v_use (bury c pa t !!! j) = (if decide (c = j) then false else v_use (t !!! j))) by apply HB.
  assert (Hhg : forall j, v_hang (bury c pa t !!! j) = (if decide (c = j) then false else v_hang (t !!! j))) by apply HB.
  assert (Hwt : forall j, v_wait (bury c pa t !!! j) = (if decide (pa = j) then false else v_wait (t !!! j))) by apply HB.
  assert (Hpr : forall j, v_parent (bury c pa t !!! j) = v_parent (t !!! j)) by apply HB.
  assert (Hpd : forall j, v_pid (bury c pa t !!! j) = v_pid (t !!! j)) by apply HB.
  assert (Hud : forall j, v_use (bury c pa t !!! j) = true -> c <> j /\ v_use (t !!! j) = true).
  { intros j. rewrite Hus. by destruct (decide (c = j)). }
  split.
  - unfold bury. by rewrite !length_alter.
  - unfold bury. rewrite in_use_alter by (rewrite !length_alter, mi_len; lia).
    rewrite (in_use_ext _ t) by (rewrite ?length_alter; try done; intros j; by rewrite !(tbl_alter_proj v_use)).
    rewrite !(tbl_alter_proj v_use), Hu by done. cbn. lia.
  - intros i Hi. rewrite Hus, Hpr, decide_False by (unfold INIT in *; lia). by apply mi_sys.
  - rewrite Hwt. by destruct (decide (pa = 0%nat)).
  - intros i Hi Hui. apply Hud in Hui as [Hci Hui]. rewrite Hpr. destruct (mi_parent i Hi Hui) as (P1 & P2 & P3).
    split_and!; [done|done|]. rewrite Hus. destruct (decide (c = v_parent (t !!! i))) as [->|]; [right; set_solver|].
    destruct P3; [by left|right; set_solver].
  - intros i. rewrite Hhg, Hus. destruct (decide (c = i)); [done|]. apply mi_hang.
  - intros i _ Hh. rewrite Hpr, Hwt. rewrite Hhg in Hh. destruct (decide (c = i)) as [|Hci]; [done|].
    destruct (decide (pa = v_parent (t !!! i))); [done|]. apply mi_zombie; [set_solver|done].
  - intros i Hi Hui. rewrite Hpd. apply mi_pid; [done|]. by apply Hud.
  - intros i j Hi Hj Hui Huj. rewrite !Hpd. apply mi_uniq; try done; by apply Hud.
  - done.
Qed.

(** A child of the dead slot [c] gets INIT as its parent. *)
Lemma MIv_adopt D E E' t n np c i : MIv (c :: D) E t n np -> (INIT < c < NPROC)%nat ->
  v_parent (t !!! i) = c -> (forall j, j ∈ E -> j ∈ E') ->
  (i ∈ E' \/ v_hang (t !!! i) = false \/ v_wait (t !!! INIT) = false) ->
  MIv (c :: D) E' (alter (fun v => v <| v_parent := INIT |>) i t) n np.
Proof.
  intros HM Hc Hpi HE Hz. set (t' := alter _ i t).
  assert (Hin : (i < length t)%nat).
  { destruct (decide (i < length t)%nat); [done|]. rewrite list_lookup_total_alt, lookup_ge_None_2 in Hpi by lia.
    cbn in Hpi. unfold INIT in Hc. lia. }
  assert (Hus : forall j, v_use (t' !!! j) = v_use (t !!! j)) by (intros j; by apply (tbl_alter_proj v_use)).
  assert (Hhg : forall j, v_hang (t' !!! j) = v_hang (t !!! j)) by (intros j; by apply (tbl_alter_proj v_hang)).
  assert (Hwt : forall j, v_wait (t' !!! j) = v_wait (t !!! j)) by (intros j; by apply (tbl_alter_proj v_wait)).
  assert (Hpd : forall j, v_pid (t' !!! j) = v_pid (t !!! j)) by (intros j; by apply (tbl_alter_proj v_pid)).
  assert (Hpr : forall j, v_parent (t' !!! j) = if decide (i = j) then INIT else v_parent (t !!! j)).
  { intros j. unfold t'. rewrite pv_alter by done. by destruct (decide (i = j)). }
  destruct HM. split.
  - unfold t'. by rewrite length_alter.
  - rewrite mi_count. apply in_use_ext; [unfold t'; by rewrite length_alter|by intros; rewrite Hus].
  - intros j Hj. rewrite Hus, Hpr. destruct (mi_sys j Hj) as [Hu Hp]. rewrite decide_False; [done|].
    intros ->. unfold INIT in *. lia.
  - by rewrite Hwt.
  - intros j Hj. rewrite Hus. intros Hu. rewrite Hpr, Hus. destruct (decide (i = j)) as [->|]; [|by apply mi_parent].
    split_and!; [unfold NPROC, INIT; lia|unfold INIT in *; lia|left; by apply mi_sys].
  - intros j. rewrite Hhg, Hus. apply mi_hang.
  - intros j Hj. rewrite Hhg. intros Hh. rewrite Hwt, Hpr. destruct (decide (i = j)) as [->|]; [|by apply mi_zombie; auto].
    destruct Hz as [?|[Hz|Hz]]; [done|congruence|done].
  - intros j Hj. rewrite Hus, Hpd. by apply mi_pid.
  - intros j k Hj Hk. rewrite !Hus, !Hpd. by apply mi_uniq.
  - done.
Qed.

Lemma alter_out {A} (f : A -> A) i (l : list A) : (length l <= i)%nat -> alter f i l = l.
Proof.
  intros Hi. apply list_eq. intros j. rewrite list_lookup_alter. destruct (decide (i = j)) as [->|]; [|done].
  by rewrite lookup_ge_None_2.
Qed.

Lemma adopt_evolve t i : evolve t (alter (fun v => v <| v_parent := INIT |>) i t).
Proof.
  intros j. destruct (decide (i < length t)%nat) as [Hi|Hi].
  - rewrite pv_alter by done. destruct (decide (i = j)); by split_and!; [first [by right|by left]|..].
  - rewrite alter_out by lia. by split_and!; [left|..].
Qed.

(** When no child of [c] is left, [c] needs no exemption. *)
Lemma MIv_orphanless D E t n np c : MIv (c :: D) E t n np ->
  (forall i, (i < NPROC)%nat -> v_parent (t !!! i) <> c) -> MIv D E t n np.
Proof.
  intros [] Hno. split; try done. intros i Hi Hu. destruct (mi_parent i Hi Hu) as (P1 & P2 & P3).
  split_and!; [done..|]. destruct P3 as [?|P3]; [by left|]. apply elem_of_cons in P3 as [P3|?]; [|by right].
  exfalso. apply (Hno i); [lia|done].
Qed.
End tables.

(** ** Programs on the table *)
Section inv.
Context {X : Type} `{OutsideOk X}.
Implicit Types s : mst X.
Notation MM := (M (mst X)).

Definition V (i : nat) (s : mst X) : pv := views s !!! i.

Lemma MI_same D E s s' : same s s' -> linked (mem s') -> MI_of D E s -> MI_of D E s'.
Proof. intros (Hv & Hp & Hn) Hl [HM _]. split; [|done]. by rewrite Hv, Hp, Hn. Qed.
Lemma tp_quiet {A} (m : MM A) D E s (Q : A -> mst X -> Prop) : quiet m -> MI_of D E s ->
  (forall a s', MI_of D E s' -> views s' = views s -> Q a s') -> tp m Q s.
Proof.
  intros Hm HM HQ. eapply tp_mono; [apply Hm, HM|]. intros a s' [Hs Hl]. apply HQ; [by eapply MI_same|apply Hs].
Qed.

Lemma MI_views s D E i : MI_of D E s -> (i < NPROC)%nat -> view (MP i s) = V i s.
Proof. intros [HM _] Hi. apply view_MP. pose proof (mi_len _ _ _ _ _ HM) as Hl. unfold views in Hl. rewrite length_fmap in Hl. lia. Qed.
Lemma flag_view s D E i : MI_of D E s ->
  tst (mp_flags (MP i s)) IN_USE = v_use (V i s) /\ tst (mp_flags (MP i s)) HANGING = v_hang (V i s) /\
  tst (mp_flags (MP i s)) WAITING = v_wait (V i s) /\ mp_parent (MP i s) = v_parent (V i s) /\ mp_pid (MP i s) = v_pid (V i s).
Proof.
  intros HM. destruct (decide (i < NPROC)%nat) as [Hi|Hi].
  - by rewrite <- (MI_views _ _ _ _ HM Hi).
  - destruct HM as [HM _]. pose proof (mi_len _ _ _ _ _ HM) as Hl. unfold V, MP.
    rewrite !list_lookup_total_alt, !lookup_ge_None_2; [done|lia|]. unfold views in Hl. rewrite length_fmap in Hl. lia.
Qed.
(** Slots out of range are never in use. *)
Lemma use_range s D E i : MI_of D E s -> v_use (V i s) = true -> (i < NPROC)%nat.
Proof.
  intros [HM _] Hu. destruct (decide (i < NPROC)%nat); [done|]. unfold V in Hu.
  rewrite list_lookup_total_alt, lookup_ge_None_2 in Hu; [done|]. rewrite (mi_len _ _ _ _ _ HM). lia.
Qed.

(** *** The flags the invariant is about *)
Lemma views_clrf i s (g : pv -> pv) b :
  (forall p, view (p <| mp_flags ::= fun f => bclr f b |>) = g (view p)) ->
  views (s <| mtab ::= alter (fun p => p <| mp_flags ::= fun f => bclr f b |>) i |>) = alter g i (views s).
Proof. apply views_alter. Qed.
Lemma clr_hang p : view (p <| mp_flags ::= fun f => bclr f HANGING |>) = (view p) <| v_hang := false |>.
Proof. unfold view. cbn [mp_flags mp_parent mp_pid set_field]. rewrite tst_bclr_same, !tst_bclr by done. done. Qed.
Lemma clr_wait p : view (p <| mp_flags ::= fun f => bclr f WAITING |>) = (view p) <| v_wait := false |>.
Proof. unfold view. cbn [mp_flags mp_parent mp_pid set_field]. rewrite tst_bclr_same, !tst_bclr by done. done. Qed.
Lemma clr_use p : view (p <| mp_flags ::= fun f => bclr f IN_USE |>) = (view p) <| v_use := false |>.
Proof. unfold view. cbn [mp_flags mp_parent mp_pid set_field]. rewrite tst_bclr_same, !tst_bclr by done. done. Qed.
Lemma set_hang p : view (p <| mp_flags ::= fun f => bset f HANGING |>) = (view p) <| v_hang := true |>.
Proof. unfold view. cbn [mp_flags mp_parent mp_pid set_field]. rewrite !tst_bset. by rewrite !orb_false_r, orb_true_r. Qed.
Lemma set_wait p : view (p <| mp_flags ::= fun f => bset f WAITING |>) = (view p) <| v_wait := true |>.
Proof. unfold view. cbn [mp_flags mp_parent mp_pid set_field]. rewrite !tst_bset. by rewrite !orb_false_r, orb_true_r. Qed.

(** Clearing a waiting flag. *)
Lemma tp_clr_wait D E i s Q : MI_of D E s ->
  (forall s', MI_of D E s' -> views s' = alter (fun v => v <| v_wait := false |>) i (views s) -> Q tt s') ->
  tp (clrf i WAITING) Q s.
Proof.
  intros [HM Hl] HQ. unfold clrf, updp. apply tp_modify. set (s' := s <| mtab ::= _ |>).
  assert (Hv : views s' = alter (fun v => v <| v_wait := false |>) i (views s)) by apply views_clrf, clr_wait.
  apply HQ; [|done]. split; [|done]. eapply MIv_nowait; [exact HM| |]; rewrite Hv.
  - by rewrite length_alter.
  - intros j. destruct (decide (i < length (views s))%nat); [|by rewrite alter_out by lia].
    rewrite pv_alter by done. by destruct (decide (i = j)).
Qed.

(** *** The loop of [cleanup] *)
Lemma disinherit_false rec c D : (INIT < c < NPROC)%nat -> forall l s,
  MI_of (c :: D) [] s -> v_wait (V INIT s) = false ->
  (forall i, (i < NPROC)%nat -> i ∉ l -> v_parent (V i s) <> c) ->
  tp (disinherit rec c l false : MM unit) (fun _ s' => MI_of D [] s' /\ evolve (views s) (views s')) s.
Proof.
  intros Hc. induction l as [|i l IH]; intros s HM Hw Hno; cbn [disinherit].
  { wp_steps. split; [|done]. destruct HM as [HM Hl]. split; [|done]. eapply MIv_orphanless; [done|].
    intros i Hi. apply Hno; [done|set_solver]. }
  unfold getp. wp_steps. destruct (flag_view s _ _ i HM) as (_ & _ & _ & Hp & _).
  destruct (decide (mp_parent (MP i s) = c)) as [Ec|Ec].
  - unfold updp, flag. wp_steps. set (s1 := s <| mtab ::= _ |>).
    assert (Hv : views s1 = alter (fun v => v <| v_parent := INIT |>) i (views s)) by by apply views_alter.
    assert (HM1 : MI_of (c :: D) [] s1).
    { destruct HM as [HM Hl]. split; [|done]. rewrite Hv. apply MIv_adopt with (E := []); try done.
      - unfold V in Hp. congruence.
      - by right; right. }
    rewrite andb_false_l. eapply tp_mono; [apply (IH s1)|]; [done| | |].
    + unfold V. rewrite Hv. by rewrite (tbl_alter_proj v_wait).
    + intros j Hj Hjl. unfold V. rewrite Hv. pose proof (adopt_evolve (views s) i j) as (P & _).
      destruct (decide (i = j)) as [->|].
      * rewrite pv_alter by (destruct HM as [HM _]; rewrite (mi_len _ _ _ _ _ HM); done). rewrite decide_True by done.
        cbn. unfold INIT in *. lia.
      * rewrite tbl_alter_ne by done. apply Hno; [done|set_solver].
    + intros [] s' [HM' He]. split; [done|]. etrans; [|exact He]. rewrite Hv. apply adopt_evolve.
  - apply IH; [done|done|]. intros j Hj Hjl. destruct (decide (j = i)) as [->|]; [congruence|]. apply Hno; [done|set_solver].
Qed.

(** What [cleanup child] does to a table in which only [child] may be a zombie
    whose parent waits. *)
Definition cleaned D c s s' : Prop :=
  MI_of D [] s' /\ evolve (views s) (views s') /\
  v_wait (V (v_parent (V c s)) s') = false /\ v_use (V c s') = false.

Lemma disinherit_any rec c D iw : (INIT < c < NPROC)%nat ->
  (forall rp s, MI_of (c :: D) [rp] s -> (INIT < rp < NPROC)%nat -> v_use (V rp s) = true ->
     v_parent (V rp s) = INIT -> tp (rec rp) (fun _ s' => cleaned (c :: D) rp s s') s) ->
  forall l s, MI_of (c :: D) [] s -> (iw = false -> v_wait (V INIT s) = false) ->
  (forall i, (i < NPROC)%nat -> i ∉ l -> v_parent (V i s) <> c) ->
  tp (disinherit rec c l iw : MM unit) (fun _ s' => MI_of D [] s' /\ evolve (views s) (views s')) s.
Proof.
  intros Hc Hrec. destruct iw; [|intros l s HM Hw; by apply disinherit_false; auto].
  induction l as [|i l IH]; intros s HM Hw Hno; cbn [disinherit].
  { wp_steps. split; [|done]. destruct HM as [HM Hl]. split; [|done]. eapply MIv_orphanless; [done|].
    intros i Hi. apply Hno; [done|set_solver]. }
  unfold getp. wp_steps. destruct (flag_view s _ _ i HM) as (_ & _ & _ & Hp & _).
  destruct (decide (mp_parent (MP i s) = c)) as [Ec|Ec].
  2:{ apply IH; [done|done|]. intros j Hj Hjl. destruct (decide (j = i)) as [->|]; [congruence|]. apply Hno; [done|set_solver]. }
  unfold updp, flag. wp_steps. set (s1 := s <| mtab ::= _ |>).
  assert (Hv : views s1 = alter (fun v => v <| v_parent := INIT |>) i (views s)) by by apply views_alter.
  assert (Hlen : length (views s) = NPROC) by (destruct HM as [HM _]; apply HM).
  assert (Hno1 : forall j, (j < NPROC)%nat -> j ∉ l -> v_parent (V j s1) <> c).
  { intros j Hj Hjl. unfold V. rewrite Hv. destruct (decide (i = j)) as [->|].
    - rewrite pv_alter, decide_True by (done || lia). cbn. unfold INIT in *. lia.
    - rewrite tbl_alter_ne by done. apply Hno; [done|set_solver]. }
  assert (HM1 : MI_of (c :: D) [i] s1).
  { destruct HM as [HM Hl]. split; [|done]. rewrite Hv. apply MIv_adopt with (E := []); try done; [|set_solver|left; set_solver].
    unfold V in Hp. congruence. }
  destruct (flag_view s1 _ _ i HM1) as (_ & Fh & _). rewrite Fh. cbn [andb].
  destruct (v_hang (V i s1)) eqn:Eh.
  - assert (Hu1 : v_use (V i s1) = true) by (destruct HM1 as [HM1 _]; by apply (mi_hang _ _ _ _ _ HM1)).
    assert (Hi : (INIT < i < NPROC)%nat).
    { split; [|by eapply use_range]. destruct (decide (i <= INIT)%nat) as [Hle|]; [|lia]. destruct HM as [HM _].
      destruct (mi_sys _ _ _ _ _ HM i Hle) as [_ Hp0]. unfold V in Hp. unfold INIT in *. lia. }
    assert (Hp1 : v_parent (V i s1) = INIT) by (unfold V; rewrite Hv, pv_alter, decide_True by (done || lia); done).
    wp_steps. eapply tp_mono; [by apply Hrec|]. intros [] s2 (HM2 & He2 & Hw2 & _). rewrite Hp1 in Hw2.
    eapply tp_mono; [apply disinherit_false; [done|exact HM2|done|]|].
    + intros j Hj Hjl. destruct (He2 j) as ([E1|E1] & _); unfold V in *; rewrite E1; [by apply Hno1|unfold INIT in *; lia].
    + intros [] s3 [HM3 He3]. split; [done|]. etrans; [|etrans; [exact He2|exact He3]]. rewrite Hv. apply adopt_evolve.
  - assert (HM1' : MI_of (c :: D) [] s1).
    { destruct HM as [HM Hl]. split; [|done]. rewrite Hv. apply MIv_adopt with (E := []); try done.
      - unfold V in Hp. congruence.
      - right; left. unfold V in Eh. rewrite Hv in Eh. by rewrite (tbl_alter_proj v_hang) in Eh. }
    eapply tp_mono; [by apply (IH s1)|]. intros [] s' [HM' He]. split; [done|]. etrans; [|exact He]. rewrite Hv. apply adopt_evolve.
Qed.

(** The straight-line part of [cleanup]. *)
Lemma cleanup_start D c s (k : bool -> MM unit) (Q : unit -> mst X -> Prop) :
  MI_of D [c] s -> (INIT < c < NPROC)%nat -> v_use (V c s) = true ->
  (forall s', MI_of (c :: D) [] s' -> views s' = bury c (v_parent (V c s)) (views s) ->
     tp (k (v_wait (V INIT s'))) Q s') ->
  tp (p ← getp c;
      let parent := mp_parent p in
      reply parent (mp_pid p) (wait_status p) NIL_PTR;;
      clrf c TRACED;; clrf c HANGING;; clrf c PAUSED;; clrf parent WAITING;; clrf c IN_USE;;
      modify (fun s => s <| procs_in_use ::= fun n => n - 1 |>);;
      iw ← flag INIT WAITING; k iw) Q s.
Proof.
  intros HM Hc Hu Hk. unfold getp. wp_steps. destruct (flag_view s _ _ c HM) as (_ & _ & _ & Hp & _).
  rewrite Hp. set (pa := v_parent (V c s)) in *.
  eapply tp_quiet; [apply quiet_reply|done|]. intros [] s1 HM1 Hv1.
  apply tp_bind. eapply tp_quiet; [by apply quiet_clrf|done|]. intros [] s2 HM2 Hv2.
  unfold clrf at 1 2 3 4, updp, flag. wp_steps. match goal with |- tp _ _ ?x => set (s7 := x) end.
  assert (Hv : views s7 = bury c pa (views s)).
  { unfold s7, bury. etrans; [apply views_clrf, clr_use|]. etrans; [apply f_equal, views_clrf, clr_wait|].
    etrans; [do 2 apply f_equal; apply views_same; intros p; by apply view_bclr|].
    etrans; [do 2 apply f_equal; apply views_clrf, clr_hang|]. by rewrite Hv2, Hv1. }
  assert (HM7 : MI_of (c :: D) [] s7).
  { destruct HM2 as [HM2 Hl2]. split; [|done]. rewrite Hv.
    change (procs_in_use s7) with (procs_in_use s2 - 1). change (next_pid s7) with (next_pid s2).
    apply MIv_bury; [|done|done]. by rewrite <- Hv1, <- Hv2. }
  destruct (flag_view s7 _ _ INIT HM7) as (_ & _ & Fw & _). rewrite Fw. by apply Hk.
Qed.

Lemma cleanup_any D fuel c s : MI_of D [c] s -> (INIT < c < NPROC)%nat -> v_use (V c s) = true ->
  (v_parent (V c s) = INIT \/ exists f, fuel = S f) ->
  tp (cleanup (S fuel) c : MM unit) (fun _ s' => cleaned D c s s') s.
Proof.
  revert D c s. induction fuel as [|fuel IH]; intros D c s HM Hc Hu Hf; cbn [cleanup].
  all: apply (cleanup_start D c s); try done; intros s1 HM1 Hv1.
  all: assert (Hpa : (v_parent (V c s) < NPROC)%nat) by (destruct HM as [HM _]; by apply (mi_parent _ _ _ _ _ HM c Hc Hu)).
  all: assert (Hlen : length (views s) = NPROC) by (destruct HM as [HM _]; apply HM).
  all: assert (He : evolve (views s) (views s1)) by (rewrite Hv1; apply bury_evolve; lia).
  all: assert (Hw : v_wait (V (v_parent (V c s)) s1) = false)
         by (unfold V at 1; rewrite Hv1; destruct (bury_at c (v_parent (V c s)) (views s) (v_parent (V c s))) as (_ & _ & -> & _); [lia|lia|]; by rewrite decide_True).
  all: assert (Hu1 : v_use (V c s1) = false)
         by (unfold V at 1; rewrite Hv1; destruct (bury_at c (v_parent (V c s)) (views s) c) as (-> & _); [lia|lia|]; by rewrite decide_True).
  all: assert (Hno : forall i, (i < NPROC)%nat -> i ∉ slots -> v_parent (V i s1) <> c)
         by (intros i Hi Hni; exfalso; apply Hni, elem_of_seq; unfold NPROC in *; lia).
  - destruct Hf as [Hf|[? ?]]; [|done]. rewrite Hf in Hw. rewrite Hw.
    eapply tp_mono; [by apply disinherit_false|]. intros [] s2 [HM2 He2]. split_and!; [done|by etrans|..].
    + rewrite Hf. destruct (v_wait (V INIT s2)) eqn:E; [|done]. apply (He2 INIT) in E. unfold V in Hw. congruence.
    + destruct (v_use (V c s2)) eqn:E; [|done]. apply (He2 c) in E. unfold V in Hu1. congruence.
  - eapply tp_mono; [apply disinherit_any with (D := D); try done|].
    + intros rp s2 HM2 Hrp Hur Hpr. apply IH; [done|done|done|by left].
    + intros [] s2 [HM2 He2]. split_and!; [done|by etrans|..].
      * destruct (v_wait (V (v_parent (V c s)) s2)) eqn:E; [|done]. apply (He2 (v_parent (V c s))) in E. unfold V in *. congruence.
      * destruct (v_use (V c s2)) eqn:E; [|done]. apply (He2 c) in E. unfold V in Hu1. congruence.
Qed.

(** *** Programs that keep the invariant *)
Definition safe {A} (m : MM A) : Prop := forall s, MI s -> tp m (fun _ s' => MI s') s.
Lemma safe_quiet {A} (m : MM A) : quiet m -> safe m.
Proof. intros Hm s HM. by eapply tp_quiet. Qed.
Lemma safe_bind {A B} (m : MM A) (k : A -> MM B) : safe m -> (forall a, safe (k a)) -> safe (m ≫= k).
Proof. intros Hm Hk s HM. apply tp_bind. eapply tp_mono; [by apply Hm|]. intros a s' HM'. by apply Hk. Qed.
Lemma safe_gets {A B} (f : mst X -> A) (k : A -> MM B) :
  (forall s, MI s -> tp (k (f s)) (fun _ s' => MI s') s) -> safe (gets f ≫= k).
Proof. intros Hk s HM. apply tp_bind, tp_gets. by apply Hk. Qed.
Lemma safe_clr_wait i : safe (clrf i WAITING).
Proof. intros s HM. by eapply tp_clr_wait. Qed.

Lemma do_cleanup_ok c s : MI s -> (INIT < c < NPROC)%nat -> v_use (V c s) = true ->
  tp (do_cleanup c : MM unit) (fun _ s' => cleaned [] c s s') s.
Proof.
  intros [HM Hl] Hc Hu. apply cleanup_any; [|done|done|by right; eexists]. split; [|done].
  eapply MIv_weaken; [|exact HM]. set_solver.
Qed.

(** A process that has a waiting parent is not one of MM, FS and INIT. *)
Lemma waited_user s i : MI s -> v_wait (V (v_parent (V i s)) s) = true -> v_use (V i s) = true -> (INIT < i < NPROC)%nat.
Proof.
  intros HM Hw Hu. split; [|by eapply use_range]. destruct (decide (i <= INIT)%nat) as [Hle|]; [|lia].
  destruct HM as [HM _]. destruct (mi_sys _ _ _ _ _ HM i Hle) as [_ Hp]. unfold V in *. rewrite Hp in Hw.
  rewrite (mi_mm _ _ _ _ _ HM) in Hw. done.
Qed.

Lemma MI_set_hang s i : MI s -> v_use (V i s) = true -> v_wait (V (v_parent (V i s)) s) = false ->
  MI (s <| mtab ::= alter (fun p => p <| mp_flags ::= fun f => bset f HANGING |>) i |>).
Proof.
  intros HM Hu Hw. assert (Hi := use_range _ _ _ _ HM Hu). destruct HM as [HM Hl]. split; [|done].
  set (s' := s <| mtab ::= _ |>). assert (Hv : views s' = alter (fun v => v <| v_hang := true |>) i (views s)) by apply views_alter, set_hang.
  rewrite Hv. change (procs_in_use s') with (procs_in_use s). change (next_pid s') with (next_pid s).
  set (t' := alter _ i (views s)). unfold V in *.
  assert (Hus : forall j, v_use (t' !!! j) = v_use (views s !!! j)) by (intros j; by apply (tbl_alter_proj v_use)).
  assert (Hpr : forall j, v_parent (t' !!! j) = v_parent (views s !!! j)) by (intros j; by apply (tbl_alter_proj v_parent)).
  assert (Hwt : forall j, v_wait (t' !!! j) = v_wait (views s !!! j)) by (intros j; by apply (tbl_alter_proj v_wait)).
  assert (Hpd : forall j, v_pid (t' !!! j) = v_pid (views s !!! j)) by (intros j; by apply (tbl_alter_proj v_pid)).
  destruct HM. split; intros *; rewrite ?Hus, ?Hpr, ?Hwt, ?Hpd, ?Hus; eauto.
  - unfold t'. by rewrite length_alter.
  - rewrite mi_count. apply in_use_ext; [unfold t'; by rewrite length_alter|by intros; rewrite Hus].
  - unfold t'. rewrite pv_alter by lia. destruct (decide (i = i0)) as [->|]; [done|]. apply mi_hang.
  - unfold t' at 1. rewrite pv_alter by lia. destruct (decide (i = i0)) as [->|]; [done|]. apply mi_zombie.
Qed.

Lemma mm_exit_ok rmp st s : MI s -> v_use (V rmp s) = true -> tp (mm_exit rmp st : MM unit) (fun _ s' => MI s') s.
Proof.
  intros HM Hu. unfold mm_exit. apply tp_bind. eapply tp_quiet; [by apply quiet_updp|done|]. intros [] s1 HM1 Hv1.
  unfold getp, flag. wp_steps. destruct (flag_view s1 _ _ rmp HM1) as (_ & _ & _ & -> & _).
  destruct (flag_view s1 _ _ (v_parent (V rmp s1)) HM1) as (_ & _ & -> & _).
  assert (Hu1 : v_use (V rmp s1) = true) by (unfold V in *; congruence).
  apply tp_mono with (fun _ s' => MI s').
  - destruct (v_wait _) eqn:Ew.
    + eapply tp_mono; [apply do_cleanup_ok; [done| |done]|]; [by eapply waited_user|]. by intros [] s' (HM' & _).
    + unfold setf, updp. wp_steps. by apply MI_set_hang.
  - intros [] s2 HM2. eapply tp_quiet; [|done|done]. quiet_auto.
Qed.

Lemma stop_proc_ok i sg : safe (stop_proc i sg : MM unit).
Proof.
  unfold stop_proc. apply safe_bind; [apply safe_quiet, quiet_gets|]. intros p. apply safe_bind; [apply safe_quiet, quiet_ask|].
  intros a. destruct (negb _); [apply safe_quiet, quiet_ret|]. apply safe_bind; [by apply safe_quiet, quiet_setf|]. intros _.
  apply safe_bind; [apply safe_quiet, quiet_gets|]. intros []; [|by apply safe_quiet, quiet_updp].
  apply safe_bind; [apply safe_clr_wait|]. intros _. apply safe_quiet, quiet_reply.
Qed.

Lemma sig_proc_ok i sg : safe (sig_proc i sg : MM unit).
Proof.
  intros s HM. unfold sig_proc, getp. wp_steps. destruct (flag_view s _ _ i HM) as (Fu & _). rewrite Fu.
  destruct (v_use (V i s)) eqn:Eu; cbn [negb]; [|by wp_steps]. destruct (_ && _); [by apply stop_proc_ok|]. apply tp_bind.
  eapply (tp_quiet _ [] []); [|done|].
  { repeat (quiet_auto; unfold getp). }
  intros [] s1 HM1 Hv1; [by wp_steps|]. wp_steps. eapply tp_quiet; [by apply quiet_updp|done|]. intros [] s2 HM2 Hv2.
  apply tp_bind. eapply tp_quiet; [apply quiet_when; auto with quiet_db|done|]. intros [] s3 HM3 Hv3.
  apply mm_exit_ok; [done|]. unfold V in *. congruence.
Qed.

Lemma unpause_ok i : safe (unpause i : MM unit).
Proof.
  unfold unpause. apply safe_bind; [apply safe_quiet, quiet_gets|]. intros p. destruct (_ && _); [apply safe_quiet; quiet_auto|].
  destruct (_ && _); [|apply safe_quiet; quiet_auto]. apply safe_bind; [apply safe_clr_wait|]. intros _. apply safe_quiet, quiet_reply.
Qed.

Lemma sig_loop_ok a b c l : forall n, safe (sig_loop a b c l n : MM Z).
Proof.
  induction l as [|i l IH]; intros n; cbn [sig_loop]; [apply safe_quiet, quiet_ret|].
  apply safe_bind; [apply safe_quiet, quiet_gets|]. intros p. destruct (negb _); [apply IH|].
  apply safe_bind; [apply safe_quiet, quiet_gets|]. intros g. cbv zeta. destruct (_ && _); [apply IH|].
  apply safe_bind; [by apply safe_quiet, quiet_when, quiet_clrf|]. intros _. destruct (negb _); [apply IH|].
  destruct (tst _ _); [apply IH|]. apply safe_bind; [apply sig_proc_ok|]. intros _.
  apply safe_bind; [apply unpause_ok|]. intros _. destruct (0 <? a); [apply safe_quiet, quiet_ret|apply IH].
Qed.
Lemma check_sig_ok a b c : safe (check_sig a b c : MM Z).
Proof.
  unfold check_sig. destruct (_ || _); [apply safe_quiet, quiet_ret|]. apply safe_bind; [apply sig_loop_ok|]. intros n.
  apply safe_quiet. quiet_auto.
Qed.
Lemma ksig_loop_ok i a b l : safe (ksig_loop i a b l : MM unit).
Proof.
  induction l as [|j l IH]; cbn [ksig_loop]; [apply safe_quiet, quiet_ret|]. apply safe_bind; [|intros _; apply IH].
  unfold ksig_one. cbv zeta. destruct (Z.testbit _ _); [|apply safe_quiet, quiet_ret].
  apply safe_bind; [apply safe_quiet; quiet_auto|]. intros _. apply safe_bind; [apply check_sig_ok|]. intros _. apply safe_quiet, quiet_tell.
Qed.
Lemma stack_fault_ok i : safe (stack_fault i : MM unit).
Proof.
  unfold stack_fault. apply safe_bind; [apply safe_quiet, quiet_ask|]. intros a. apply safe_bind; [apply safe_quiet, quiet_gets|]. intros p.
  apply safe_bind; [apply safe_quiet, quiet_adjust|]. intros r. destruct (_ =? _); [apply safe_quiet, quiet_ret|].
  apply safe_bind; [by apply safe_quiet, quiet_updp|]. intros _. apply sig_proc_ok.
Qed.
Lemma do_ksig_ok a b : safe (do_ksig a b : MM Z).
Proof.
  unfold do_ksig. apply safe_bind; [apply safe_quiet, quiet_gets|]. intros w. destruct (negb _); [apply safe_quiet, quiet_ret|].
  apply safe_bind; [apply safe_quiet; quiet_auto|]. intros _. apply safe_bind; [apply safe_quiet, quiet_gets|]. intros p.
  destruct (_ || _); [apply safe_quiet, quiet_ret|]. apply safe_bind; [apply safe_quiet; quiet_auto|]. intros _.
  apply safe_bind; [apply safe_quiet; quiet_auto|]. intros _.
  apply safe_bind; [destruct (_ =? _); [apply stack_fault_ok|apply safe_quiet, quiet_ret]|]. intros _.
  apply safe_bind; [apply ksig_loop_ok|]. intros _. apply safe_quiet, quiet_ret.
Qed.
Lemma do_kill_ok a b : safe (do_kill a b : MM Z).
Proof. unfold do_kill. apply safe_bind; [apply safe_quiet, quiet_gets|]. intros p. apply check_sig_ok. Qed.

Lemma do_trace_ok a b c d : safe (do_trace a b c d : MM Z).
Proof.
  intros s HM. unfold do_trace, findproc. wp_steps. destruct (b =? 0).
  { eapply tp_quiet; [|done|done]. quiet_auto. }
  wp_steps. destruct (list_find _ _) as [[k i]|] eqn:Ef; cbn; [|by wp_steps].
  apply list_find_Some in Ef as (_ & Ef & _). apply Is_true_true, andb_true_iff in Ef as [Eu _].
  destruct (flag_view s _ _ i HM) as (Fu & _). rewrite Fu in Eu. unfold flag. wp_steps.
  destruct (negb _); [by wp_steps|]. destruct (b =? 8).
  { wp_steps. eapply tp_mono; [by apply mm_exit_ok|]. intros [] s' HM'. eapply tp_quiet; [|done|done]. quiet_auto. }
  destruct (_ && _); [by wp_steps|]. revert s HM Fu Eu. 
  match goal with |- forall s, _ -> _ -> _ -> tp ?m _ _ => cut (safe m); [intros Hs s HM _ _; by apply Hs|] end.
  apply safe_bind.
  - destruct (b =? 7); [|apply safe_quiet, quiet_ret]. apply safe_bind; [|intros _; by apply safe_quiet, quiet_clrf].
    destruct (0 <? d); [|apply safe_quiet, quiet_ret]. apply safe_bind; [by apply safe_quiet, quiet_clrf|]. intros _.
    apply safe_bind; [apply sig_proc_ok|]. intros _. by apply safe_quiet, quiet_setf.
  - intros _. apply safe_quiet. quiet_auto.
Qed.

(** *** wait *)
Lemma wait_loop_ok w l : (w <> 0)%nat -> forall n s, MI s ->
  tp (wait_loop w l n : MM _) (fun r s' => MI s' /\
    match r with
    | None => True
    | Some _ => s' = s /\ (forall i, i ∈ l -> v_parent (V i s) = w -> v_hang (V i s) = false)
    end) s.
Proof.
  intros Hw. induction l as [|i l IH]; intros n s HM; cbn [wait_loop]; [wp_steps; set_solver|].
  unfold getp. wp_steps. destruct (flag_view s _ _ i HM) as (Fu & Fh & _ & Fp & _). rewrite Fu, Fh, Fp.
  assert (Hrest : forall n', v_parent (V i s) <> w \/ v_hang (V i s) = false ->
    tp (wait_loop w l n' : MM _) (fun r s' => MI s' /\ match r with None => True
      | Some _ => s' = s /\ (forall j, j ∈ i :: l -> v_parent (V j s) = w -> v_hang (V j s) = false) end) s).
  { intros n' Hi. eapply tp_mono; [apply (IH n' s HM)|]. intros [r|] s' [HM' Hr]; [|done].
    destruct Hr as [-> Hr]. split_and!; try done. intros j [->|Hj]%elem_of_cons; [intros; by destruct Hi|by apply Hr]. }
  assert (Hhu : v_hang (V i s) = true -> v_use (V i s) = true) by (destruct HM as [HM _]; apply (mi_hang _ _ _ _ _ HM)).
  destruct (v_use (V i s)) eqn:Eu; cbn [andb].
  2:{ apply Hrest. right. destruct (v_hang (V i s)); [naive_solver|done]. }
  destruct (Nat.eqb_spec (v_parent (V i s)) w) as [Ep|Ep]; [|apply Hrest; by left].
  destruct (v_hang (V i s)) eqn:Eh.
  - assert (Hi : (INIT < i < NPROC)%nat).
    { split; [|by eapply use_range]. destruct (decide (i <= INIT)%nat) as [Hle|]; [|lia].
      destruct HM as [HM _]. destruct (mi_sys _ _ _ _ _ HM i Hle) as [_ Hp0]. unfold V in Ep. congruence. }
    wp_steps. eapply tp_mono; [by apply do_cleanup_ok|]. intros [] s' (HM' & _). by wp_steps.
  - destruct (_ && _); [|by apply Hrest; right]. wp_steps.
    eapply tp_quiet; [apply quiet_reply|exact HM|]. intros [] s1 HM1 _. unfold updp. wp_steps. split; [|done].
    set (s2 := s1 <| dont_reply := true |>). assert (HM2 : MI s2) by exact HM1.
    destruct HM2 as [HM2 Hl2]. split; [|done]. by rewrite views_same.
Qed.

Lemma MI_set_wait s i : MI s -> (i <> 0)%nat ->
  (forall j, (j < NPROC)%nat -> v_parent (V j s) = i -> v_hang (V j s) = false) ->
  MI (s <| mtab ::= alter (fun p => p <| mp_flags ::= fun f => bset f WAITING |>) i |>).
Proof.
  intros HM H0 Hno. assert (Hlen : length (views s) = NPROC) by (destruct HM as [HM _]; apply HM).
  destruct HM as [HM Hl]. split; [|done].
  set (s' := s <| mtab ::= _ |>). assert (Hv : views s' = alter (fun v => v <| v_wait := true |>) i (views s)) by apply views_alter, set_wait.
  rewrite Hv. change (procs_in_use s') with (procs_in_use s). change (next_pid s') with (next_pid s).
  set (t' := alter _ i (views s)). unfold V in *.
  assert (Hus : forall j, v_use (t' !!! j) = v_use (views s !!! j)) by (intros j; by apply (tbl_alter_proj v_use)).
  assert (Hpr : forall j, v_parent (t' !!! j) = v_parent (views s !!! j)) by (intros j; by apply (tbl_alter_proj v_parent)).
  assert (Hhg : forall j, v_hang (t' !!! j) = v_hang (views s !!! j)) by (intros j; by apply (tbl_alter_proj v_hang)).
  assert (Hpd : forall j, v_pid (t' !!! j) = v_pid (views s !!! j)) by (intros j; by apply (tbl_alter_proj v_pid)).
  assert (Hwt : forall j, j <> i -> v_wait (t' !!! j) = v_wait (views s !!! j)) by (intros j Hj; unfold t'; by rewrite tbl_alter_ne).
  destruct HM. split; intros *; rewrite ?Hus, ?Hpr, ?Hhg, ?Hpd, ?Hus; eauto.
  - unfold t'. by rewrite length_alter.
  - rewrite mi_count. apply in_use_ext; [unfold t'; by rewrite length_alter|by intros; rewrite Hus].
  - intros Hi Hh. destruct (decide (v_parent (views s !!! i0) = i)) as [E|E]; [|rewrite Hwt by done; by apply mi_zombie].
    rewrite Hno in Hh; [done| |done]. destruct (decide (i0 < NPROC)%nat); [done|].
    rewrite list_lookup_total_alt, lookup_ge_None_2 in Hh by lia. done.
Qed.

Lemma do_wait_ok s : MI s -> mp s = Z.to_nat (who s) -> (mp s <> 0)%nat -> tp (do_wait : MM Z) (fun _ s' => MI s') s.
Proof.
  intros HM Hmp H0. unfold do_wait. wp_steps. eapply tp_mono; [apply wait_loop_ok; [congruence|done]|].
  intros [n|] s1 [HM1 Hr]; cbv beta iota; [|by wp_steps]. destruct Hr as [-> Hr]. destruct (0 <? n); [|by wp_steps].
  unfold setf, updp. wp_steps. apply MI_set_wait; [done|done|]. intros j Hj Hp. apply Hr; [|congruence].
  apply elem_of_seq. unfold NPROC in *. lia.
Qed.

(** *** fork: the search for a pid *)

(** The [k]-th candidate after [n0]. *)
Definition cyc (n0 : Z) (k : nat) : Z := (n0 - 2 + Z.of_nat k) mod 29999 + 2.
Lemma cyc_next n0 k : 2 <= n0 <= 30000 ->
  (if cyc n0 k <? 30000 then cyc n0 k + 1 else INIT_PID + 1) = cyc n0 (S k).
Proof. intros Hn. unfold cyc, INIT_PID. destruct (Z.ltb_spec ((n0 - 2 + Z.of_nat k) mod 29999 + 2) 30000); zlia. Qed.
Lemma cyc_inj n0 i j : Z.of_nat i < 29999 -> Z.of_nat j < 29999 -> cyc n0 i = cyc n0 j -> i = j.
Proof.
  unfold cyc. intros Hi Hj E.
  pose proof (Z.div_mod (n0 - 2 + Z.of_nat i) 29999 ltac:(done)). pose proof (Z.div_mod (n0 - 2 + Z.of_nat j) 29999 ltac:(done)).
  assert (Eq : (n0 - 2 + Z.of_nat i) / 29999 = (n0 - 2 + Z.of_nat j) / 29999) by lia. lia.
Qed.
Lemma cyc_range n0 k : 2 <= cyc n0 k <= 30000.
Proof. unfold cyc. zlia. Qed.

Lemma taken_spec n t : taken n t = true <-> exists p, p ∈ t /\ (mp_pid p = n \/ mp_procgrp p = n).
Proof.
  unfold taken. rewrite existsb_exists. setoid_rewrite <- list_elem_of_In. setoid_rewrite orb_true_iff.
  by setoid_rewrite Z.eqb_eq.
Qed.

(** What the search does: a new pid that no other process has as its pid or
    group. The candidates tried are distinct and all but the last are among
    the at most 64 numbers in the table [B]. *)
Definition repid (n : Z) (rmc : nat) (s s' : mst X) : Prop :=
  s' = s <| mtab ::= alter (fun p => p <| mp_pid := n |>) rmc |> <| next_pid := n |>.

Lemma alter_pid rmc n n' (t : list mproc) :
  alter (fun p => p <| mp_pid := n' |>) rmc (alter (fun p => p <| mp_pid := n |>) rmc t) =
  alter (fun p => p <| mp_pid := n' |>) rmc t.
Proof.
  apply list_eq. intros j. rewrite !list_lookup_alter. destruct (decide (rmc = j)); [|done].
  rewrite decide_True by done. by destruct (t !! rmc).
Qed.
Lemma repid_twice n n' rmc s :
  repid n' rmc s (s <| mtab ::= alter (fun p => p <| mp_pid := n |>) rmc |> <| next_pid := n |>
                    <| mtab ::= alter (fun p => p <| mp_pid := n' |>) rmc |> <| next_pid := n' |>).
Proof.
  unfold repid. destruct s as [t a b c d e f g h i j k l]. pose proof (alter_pid rmc n n' t) as Ha.
  exact (f_equal (fun t' => mk_mst t' a b c d e n' g h i j k l) Ha).
Qed.

Lemma find_pid_ok rmc n0 B fuel : forall k s, 2 <= n0 <= 30000 ->
  next_pid s = cyc n0 k -> (length B < k + fuel)%nat -> Z.of_nat (k + fuel) < 29999 ->
  (forall i, (1 <= i <= k)%nat -> cyc n0 i ∈ B) ->
  (forall n, taken n (mtab s) = true -> n ∈ B) -> (rmc < length (mtab s))%nat ->
  wp (find_pid fuel rmc : MM unit) (fun _ s' => exists n, 2 <= n <= 30000 /\ repid n rmc s s' /\
    forall j, j <> rmc -> (j < length (mtab s))%nat -> mp_pid (MP j s) <> n /\ mp_procgrp (MP j s) <> n) s.
Proof.
  induction fuel as [|fuel IH]; intros k s Hn0 Hn HB Hlim Htr Htk Hr.
  { exfalso. assert (Hnd : NoDup (cyc n0 <$> seq 1 k)).
    { apply NoDup_fmap_2_strong; [|apply NoDup_seq]. intros i j Hi%elem_of_seq Hj%elem_of_seq. apply cyc_inj; lia. }
    assert (Hsub : forall x, x ∈ cyc n0 <$> seq 1 k -> x ∈ B).
    { intros x (i & -> & Hi%elem_of_seq)%list_elem_of_fmap. apply Htr. lia. }
    apply NoDup_submseteq in Hsub; [|done]. apply submseteq_length in Hsub.
    rewrite length_fmap, length_seq in Hsub. lia. }
  cbn [find_pid]. unfold updp. wp_steps. cbn [next_pid mtab set_field]. rewrite Hn, cyc_next by done.
  set (n := cyc n0 (S k)). set (s1 := s <| next_pid ::= _ |> <| mtab ::= _ |>).
  assert (Hs1 : repid n rmc s s1).
  { unfold s1, repid, n. rewrite <- (cyc_next n0 k) by done. rewrite <- Hn. by destruct s. }
  destruct (taken n (mtab s)) eqn:Et.
  - assert (Hnb : n ∈ B) by by apply Htk.
    eapply wp_mono; [apply (IH (S k) s1); try done|].
    + by rewrite Hs1.
    + lia.
    + lia.
    + intros i Hi. destruct (decide (i = S k)) as [->|]; [done|]. apply Htr. lia.
    + intros m (p & Hp & Hm)%taken_spec. rewrite Hs1 in Hp. cbn [mtab set_field] in Hp.
      apply list_elem_of_lookup in Hp as [j Hj]. rewrite list_lookup_alter in Hj. destruct (decide (rmc = j)) as [<-|].
      * destruct (mtab s !! rmc) as [q|] eqn:Eq; [|done]. injection Hj as <-. cbn in Hm. destruct Hm as [<-|Hm]; [done|].
        apply Htk, taken_spec. exists q. split; [by eapply list_elem_of_lookup_2|by right].
      * apply Htk, taken_spec. exists p. split; [by eapply list_elem_of_lookup_2|done].
    + rewrite Hs1. cbn [mtab set_field]. by rewrite length_alter.
    + intros [] s2 (n' & Hn' & Hs2 & Hfresh). exists n'. split; [done|]. split.
      * rewrite Hs2, Hs1. by apply repid_twice.
      * intros j Hj Hjl. specialize (Hfresh j Hj). rewrite Hs1 in Hfresh. cbn [mtab set_field] in Hfresh.
        rewrite length_alter in Hfresh. unfold MP in *. cbn [mtab set_field] in Hfresh.
        rewrite tbl_alter_ne in Hfresh by done. by apply Hfresh.
  - wp_steps. exists n. split; [apply cyc_range|]. split; [done|]. intros j Hj Hjl.
    assert (Hin : MP j s ∈ mtab s) by (unfold MP; apply list_elem_of_lookup_2 with j; by apply list_lookup_lookup_total_lt).
    split; intros E; (assert (taken n (mtab s) = true) by (apply taken_spec; eexists; split; [exact Hin|tauto])); congruence.
Qed.

(** *** fork: the new slot *)
Lemma free_slot_spec t : in_use (view <$> t) < Z.of_nat (length t) ->
  (free_slot t < length t)%nat /\ v_use ((view <$> t) !!! free_slot t) = false.
Proof.
  induction t as [|p t IH]; [cbn; lia|]. rewrite fmap_cons. cbn [in_use length free_slot view v_use].
  destruct (tst (mp_flags p) IN_USE) eqn:E; intros Hlt.
  - destruct IH as [H1 H2]; [lia|]. split; [lia|done].
  - split; [lia|done].
Qed.

Lemma MIv_fork t n np c pa pid wt : MIv [] [] t n np -> (c < NPROC)%nat -> v_use (t !!! c) = false ->
  (pa < NPROC)%nat -> v_use (t !!! pa) = true -> 2 <= pid <= 30000 ->
  (forall j, j <> c -> (j < NPROC)%nat -> v_pid (t !!! j) <> pid) ->
  MIv [] [] (alter (fun _ => mk_pv true false wt pa pid) c t) (n + 1) pid.
Proof.
  intros HM Hc Huc Hpa Hupa Hpid Hfr. destruct HM. set (w := mk_pv true false wt pa pid). set (t' := alter _ c t).
  assert (Hat : forall j, t' !!! j = if decide (c = j) then w else t !!! j).
  { intros j. unfold t'. rewrite pv_alter by lia. by destruct (decide (c = j)). }
  assert (Hcs : (INIT < c)%nat).
  { destruct (decide (c <= INIT)%nat) as [Hle|]; [|lia]. destruct (mi_sys c Hle). congruence. }
  assert (Hpc : pa <> c) by congruence.
  assert (Hnp : forall j, v_use (t !!! j) = true -> v_parent (t !!! j) <> c).
  { intros j Hu. destruct (decide (j <= INIT)%nat) as [Hle|Hgt]; [destruct (mi_sys j Hle) as [_ ->]; unfold INIT in *; lia|].
    destruct (decide (j < NPROC)%nat).
    - destruct (mi_parent j) as (_ & _ & [Hup|Hn]); [lia|done| |set_solver]. congruence.
    - rewrite list_lookup_total_alt, lookup_ge_None_2 in Hu by lia. done. }
  split.
  - unfold t'. by rewrite length_alter.
  - unfold t'. rewrite in_use_alter by lia. rewrite Huc. cbn. lia.
  - intros i Hi. rewrite Hat, decide_False by lia. by apply mi_sys.
  - rewrite Hat, decide_False by lia. done.
  - intros i Hi. rewrite !Hat. destruct (decide (c = i)) as [<-|Hci].
    + intros _. change (v_parent w) with pa. rewrite decide_False by congruence. split_and!; [done|done|by left].
    + intros Hu. destruct (mi_parent i Hi Hu) as (P1 & P2 & [P3|P3]); [|set_solver].
      rewrite decide_False by (apply not_eq_sym; by apply Hnp). split_and!; [done|done|by left].
  - intros i. rewrite Hat. destruct (decide (c = i)); [done|]. apply mi_hang.
  - intros i Hi. rewrite !Hat. destruct (decide (c = i)); [done|]. intros Hh.
    rewrite decide_False by (apply not_eq_sym, Hnp; by apply mi_hang). by apply mi_zombie.
  - intros i Hi. rewrite Hat. destruct (decide (c = i)); [cbn; lia|]. by apply mi_pid.
  - intros i j Hi Hj. rewrite !Hat. destruct (decide (c = i)) as [<-|], (decide (c = j)) as [<-|]; try done.
    + intros _ Hu E. exfalso. apply (Hfr j); [done|lia|by rewrite <- E].
    + intros Hu _ E. exfalso. apply (Hfr i); [done|lia|by rewrite E].
    + by apply mi_uniq.
  - done.
Qed.

(** A fork under way: slot [rmc] shows [v], the rest is as in [s1]. *)
Definition forking (s1 : mst X) rmc v s : Prop :=
  views s = alter (fun _ => v) rmc (views s1) /\ procs_in_use s = procs_in_use s1 + 1 /\
  next_pid s = next_pid s1 /\ linked (mem s).

Lemma fork_quiet {A B} s1 rmc v s (m : MM A) (k : A -> MM B) Q : forking s1 rmc v s -> quiet m ->
  (forall a s', forking s1 rmc v s' -> tp (k a) Q s') -> tp (m ≫= k) Q s.
Proof.
  intros (F1 & F2 & F3 & F4) Hm Hk. apply tp_bind. eapply tp_mono; [by apply Hm|].
  intros a s' [(S1 & S2 & S3) Hl]. apply Hk. unfold forking. rewrite S1, S2, S3. done.
Qed.
Lemma forking_upd s1 rmc v s f g : forking s1 rmc v s -> (forall p, view (f p) = g (view p)) ->
  forking s1 rmc (g v) (s <| mtab ::= alter f rmc |>).
Proof.
  intros (F1 & F2 & F3 & F4) Hfg. split; [|done]. rewrite (views_alter _ f g) by done. rewrite F1.
  apply list_eq. intros j. rewrite !list_lookup_alter. destruct (decide (rmc = j)); [|done].
  rewrite decide_True by done. by destruct (views s1 !! rmc).
Qed.

Lemma fork_upd {B} s1 rmc v s f g (k : unit -> MM B) Q : forking s1 rmc v s ->
  (forall p, view (f p) = g (view p)) -> (forall s', forking s1 rmc (g v) s' -> tp (k tt) Q s') ->
  tp (updp rmc f ≫= k) Q s.
Proof. intros HF Hfg Hk. apply tp_bind. unfold updp. apply tp_modify, Hk. by apply forking_upd. Qed.

(** The end of a fork: the new slot is complete and its pid is fresh. *)
Lemma forking_done s1 rmc v s n pa : MI s1 -> forking s1 rmc v s -> (rmc < NPROC)%nat -> v_use (V rmc s1) = false ->
  v_use v = true -> v_hang v = false -> v_parent v = pa -> (pa < NPROC)%nat -> v_use (V pa s1) = true -> 2 <= n <= 30000 ->
  (forall j, j <> rmc -> (j < NPROC)%nat -> v_pid (V j s1) <> n) ->
  MI (s <| mtab ::= alter (fun p => p <| mp_pid := n |>) rmc |> <| next_pid := n |>).
Proof.
  intros HM HF Hr Hru Hv1 Hv2 Hv3 Hpa Hupa Hn Hfr. assert (HF' := forking_upd s1 rmc v s
    (fun p => p <| mp_pid := n |>) (fun v => v <| v_pid := n |>) HF (fun _ => eq_refl)).
  destruct HF' as (F1 & F2 & _ & F4). destruct HM as [HM Hl]. split; [|exact F4].
  set (s' := s <| mtab ::= _ |>) in *. change (views (s' <| next_pid := n |>)) with (views s').
  change (procs_in_use (s' <| next_pid := n |>)) with (procs_in_use s'). change (next_pid (s' <| next_pid := n |>)) with n.
  rewrite F1, F2. replace (v <| v_pid := n |>) with (mk_pv true false (v_wait v) pa n).
  - by eapply MIv_fork.
  - destruct v. cbn in *. by subst.
Qed.

Lemma do_fork_ok s : MI s -> mp s = Z.to_nat (who s) -> v_use (V (mp s) s) = true -> v_hang (V (mp s) s) = false ->
  tp (do_fork : MM Z) (fun _ s' => MI s') s.
Proof.
  intros HM Hmp Hu Hh. unfold do_fork, getp. wp_steps. destruct (Z.eqb_spec (procs_in_use s) NR_PROCS) as [|Hn]; [by wp_steps|].
  wp_steps. destruct (_ && _); [by wp_steps|]. apply tp_bind.
  eapply tp_mono; [apply quiet_alloc; by destruct HM|]. intros base s1 [(S1 & S2 & S3) Hl1].
  assert (HM1 : MI s1) by (by eapply MI_same).
  destruct (base =? NO_MEM); [by wp_steps|]. wp_steps.
  set (rmp := mp s) in *. rewrite <- Hmp. fold rmp. set (rmc := free_slot (mtab s1)).
  assert (Hlen : length (mtab s1) = NPROC).
  { destruct HM1 as [H1 _]. pose proof (mi_len _ _ _ _ _ H1) as E. unfold views in E. by rewrite length_fmap in E. }
  destruct (free_slot_spec (mtab s1)) as [Hr Hru].
  { fold (views s1). destruct HM1 as [H1 _]. rewrite <- (mi_count _ _ _ _ _ H1). pose proof (mi_len _ _ _ _ _ H1) as E.
    pose proof (in_use_le (views s1)). rewrite E, (mi_count _ _ _ _ _ H1) in *. rewrite Hlen.
    rewrite S2, <- (mi_count _ _ _ _ _ H1), S2 in *. unfold NPROC, NR_PROCS in *. lia. }
  unfold clrf. unfold updp at 1. apply tp_modify. set (v0 := view (MP rmp s1)).
  match goal with |- tp _ _ ?x => set (s2 := x) end.
  assert (HF : forking s1 rmc v0 s2).
  { destruct HM1 as [_ H1]. split_and!; [|done..].
    exact (views_alter (s1 <| procs_in_use ::= fun n => n + 1 |>) (fun _ => MP rmp s1) (fun _ => v0) rmc (fun _ => eq_refl)). }
  clearbody s2. destruct (flag_view s1 _ _ rmp HM1) as (V1 & V2 & V3 & V4 & V5).
  eapply (fork_upd s1 rmc _ _ _ (fun v => v <| v_parent := rmp |>)); [exact HF|done|]. clear s2 HF. intros s2 HF.
  do 3 (eapply (fork_upd s1 rmc _ _ _ (fun v => v)); [exact HF|first [done|by intros; apply view_bclr]|]; clear s2 HF; intros s2 HF).
  eapply fork_quiet; [exact HF|apply quiet_gets|]. clear s2 HF. intros pp s2 HF.
  do 2 (eapply (fork_upd s1 rmc _ _ _ (fun v => v)); [exact HF|done|]; clear s2 HF; intros s2 HF).
  apply tp_bind. assert (Hv2 : forall j, j <> rmc -> (j < NPROC)%nat -> mp_pid (MP j s2) = v_pid (V j s1)).
  { intros j Hj Hjl. destruct HF as (F1 & _). assert (E : length (mtab s2) = NPROC).
    { transitivity (length (views s2)); [by unfold views; rewrite length_fmap|]. rewrite F1, length_alter. unfold views. by rewrite length_fmap. }
    assert (Ev := view_MP s2 j ltac:(lia)). rewrite F1, tbl_alter_ne in Ev by done. unfold V. by rewrite <- Ev. }
  assert (Hl2 : length (mtab s2) = NPROC).
  { destruct HF as (F1 & _). transitivity (length (views s2)); [by unfold views; rewrite length_fmap|].
    rewrite F1, length_alter. unfold views. by rewrite length_fmap. }
  eapply tp_mono; [apply wp_tp, (find_pid_ok rmc (next_pid s1) ((mp_pid <$> mtab s2) ++ (mp_procgrp <$> mtab s2)) 100 0)|].
  - destruct HM1 as [H1 _]. apply H1.
  - destruct HF as (_ & _ & -> & _). unfold cyc. destruct HM1 as [H1 _]. pose proof (mi_next _ _ _ _ _ H1).
    rewrite Z.mod_small by lia. lia.
  - rewrite length_app, !length_fmap, Hl2. unfold NPROC. lia.
  - done.
  - lia.
  - intros n (p & Hp & [<- | <-])%taken_spec; apply elem_of_app; [left|right]; by apply list_elem_of_fmap_2.
  - lia.
  - intros [] s3 (n & Hpid & -> & Hfr). assert (HM3 : MI (s2 <| mtab ::= alter (fun p => p <| mp_pid := n |>) rmc |> <| next_pid := n |>)).
    { eapply (forking_done s1 rmc _ s2 n rmp); try done.
      - lia.
      - cbn. rewrite V1. unfold V in *. congruence.
      - cbn. rewrite V2. unfold V in *. congruence.
      - eapply use_range; [exact HM|done].
      - unfold V in *. congruence.
      - intros j Hj Hjl. rewrite <- Hv2 by done. apply Hfr; [done|lia]. }
    eapply tp_quiet; [|exact HM3|done]. repeat (quiet_auto; unfold getp).
Qed.
End inv.
