(* ===== verification/MmDemo.v ===== *)
(** * A small system, for the examples about the memory manager

    A scripted outside world (kernel and file system) and a table with MM, FS,
    INIT, a process (slot 3) and its child (slot 4); the theorems about MM are
    applied to it. *)

From S2P Require Import Prelude MemAlloc KProc MmState MmProc MmExec MmTable.

(** An executable for the 68000: 1024 bytes of text, 512 of data, 256 of bss. *)
Definition demo_header : list Z :=
  [4; 0; 3; 1; 0; 0; 0; 32; 0; 0; 4; 0; 0; 0; 2; 0; 0; 0; 1; 0; 0; 0; 0; 0; 0; 0; 32; 0; 0; 0; 0; 0].

(** The image of an exited process is [100] clicks at [1000 + 100 * slot]. *)
#[export] Instance demo_world : Outside Z := fun e x =>
  (match e with
   | SysGetsp _ => [24000]
   | SysXit _ p => [1000 + 100 * Z.of_nat p; 100]
   | SysFresh p _ _ => [1000 + 100 * Z.of_nat p; 100]
   | SysTrace 3 _ off _ => if off <? 200 then [0; 7] else [-5]
   | Open _ => [3]
   | Creat _ _ => [4]
   | Fstat _ => [0; 33261; 0; 0]
   | Read _ 32 => 32 :: demo_header
   | ReadInto _ _ n => [n]
   | SysCopy _ _ _ _ _ _ n _ => 0 :: replicate (Z.to_nat n) 0
   | Write _ n => [n]
   | _ => [0]
   end, x + 1).

#[export] Instance demo_ok : OutsideOk Z.
Proof.
  split.
  - intros p off x Ho. cbn. by rewrite (proj2 (Z.ltb_ge off 200)) by lia.
  - intros fd x. cbv zeta. split; by vm_compute.
Qed.

Definition demo_segs (base : Z) : segs :=
  mk_segs (mk_map 0 base 10) (mk_map 10 (base + 10) 20) (mk_map 90 (base + 90) 10).
Definition demo_proc (pid : Z) (parent : nat) (base : Z) : mproc :=
  mk_mproc (demo_segs base) 0 0 pid parent pid 5 5 7 7 0 0 0 IN_USE.

Definition demo_free : nat := 27.
Definition demo_tab : list mproc :=
  [demo_proc 0 0 1000; demo_proc 0 0 1100; demo_proc 1 0 1200; demo_proc 2 2 1300; demo_proc 3 3 1400]
  ++ replicate demo_free mproc0.

(** Memory after start-up: the system itself took the first 200 clicks. *)
Definition demo_mem : Impl.hole_table :=
  match Impl.alloc_mem 200 boot_table with Done _ t => t | _ => boot_table end.
Definition demo_holes : list (Z * Z) := [(200, 800); (2000, 500)].
Lemma demo_alloc : alloc_state demo_mem demo_holes.
Proof.
  pose proof (alloc_mem_ok boot_table boot_chunks 200 (proj1 boot_state) (proj1 (proj2 boot_state)) ltac:(lia)) as Ha.
  unfold demo_mem, wp in *. destruct (Impl.alloc_mem 200 boot_table) as [r t| |]; try done. destruct Ha as [_ Hr].
  split; [exact Hr|]. split; [|done]. repeat constructor; done.
Qed.
Lemma demo_linked : linked demo_mem.
Proof. destruct demo_alloc as [(ls & fs & HL & _) _]. by exists ls, fs. Qed.

(** The caller is slot [p]. *)
Definition demo (p : nat) : mst Z :=
  mk_mst demo_tab p (Z.of_nat p) 0 false 5 3 0 0 (mk_out 0 0 0 0 0) demo_mem 0 [].

Lemma demo_views i : views (demo 0) !!! i =
  match i with
  | 0%nat | 1%nat => mk_pv true false false 0 0
  | 2%nat => mk_pv true false false 0 1
  | 3%nat => mk_pv true false false 2 2
  | 4%nat => mk_pv true false false 3 3
  | _ => mk_pv false false false 0 0
  end.
Proof.
  do 5 (destruct i as [|i]; [done|]). unfold views, demo, demo_tab. cbn [mtab]. rewrite fmap_app.
  change (view <$> [_; _; _; _; _]) with
    [view (demo_proc 0 0 1000); view (demo_proc 0 0 1100); view (demo_proc 1 0 1200); view (demo_proc 2 2 1300); view (demo_proc 3 3 1400)].
  rewrite lookup_total_app_r by (cbn; lia). cbn [length Nat.sub]. rewrite fmap_replicate, Nat.sub_0_r.
  change (view mproc0) with (mk_pv false false false 0 0).
  destruct (decide (i < demo_free)%nat); [by rewrite lookup_total_replicate_2|].
  rewrite list_lookup_total_alt, lookup_ge_None_2; [done|]. rewrite length_replicate. lia.
Qed.

Lemma demo_MI p : MI (demo p).
Proof.
  split; [|apply demo_linked].
  change (views (demo p)) with (views (demo 0)). split; intros *; rewrite ?demo_views.
  - done.
  - done.
  - intros Hi. do 3 (destruct i as [|i]; [done|]). unfold INIT in Hi. lia.
  - done.
  - intros Hi. do 5 (destruct i as [|i]; [intros; cbn in *; try lia; rewrite ?demo_views; split_and!; unfold NPROC; first [lia|by left]|]). done.
  - do 5 (destruct i as [|i]; [done|]). done.
  - intros _. do 5 (destruct i as [|i]; [done|]). done.
  - intros Hi. do 5 (destruct i as [|i]; [cbn; unfold INIT in Hi; try lia|]). done.
  - unfold INIT. intros Hi Hj. do 5 (destruct i as [|i]; [try lia; do 5 (destruct j as [|j]; [try lia; cbn; try done; lia|]); done|]). done.
  - cbn. lia.
Qed.
