(* ===== verification/MmCalls.v ===== *)
(** * What the memory manager's calls promise

    The theorems about MM: the main loop keeps the table consistent; the pid
    search ends; [adjust] keeps data and stack apart; exit and wait meet in
    either order; the identity calls give no privileges away; and what the
    16-bit arithmetic of [set_alarm] and of [new_mem] really does. The
    witnesses run on a small system with a scripted outside world. *)

From S2P Require Import Prelude MemAlloc KProc MmState MmProc MmExec MmTable MmInv MmDemo.

Section calls.
Context {X : Type} `{OutsideOk X}.
Implicit Types s : mst X.
Notation MM := (M (mst X)).

Lemma quiet_brk a : quiet (do_brk a : MM Z).
Proof. unfold do_brk. quiet_auto. Qed.
Lemma quiet_signal a b : quiet (do_signal a b : MM Z).
Proof. unfold do_signal. quiet_auto. Qed.
Lemma quiet_alarm a : quiet (do_alarm a : MM Z).
Proof. unfold do_alarm. quiet_auto. Qed.
Lemma quiet_pause : quiet (do_pause : MM Z).
Proof. unfold do_pause. quiet_auto. Qed.
Lemma quiet_getset a : quiet (do_getset a : MM Z).
Proof. unfold do_getset. quiet_auto. Qed.
Lemma quiet_brk2 a b c d : quiet (do_brk2 a b c d : MM Z).
Proof. unfold do_brk2. quiet_auto. Qed.

(** Who may send MM a request: a live process (MM itself excepted), or the
    kernel with a signal. *)
Definition caller_ok (q : request) s : Prop :=
  (q_source q = HARDWARE /\ q_type q = KSIG) \/
  (0 < q_source q < NR_PROCS /\ v_use (V (Z.to_nat (q_source q)) s) = true /\
   v_hang (V (Z.to_nat (q_source q)) s) = false).

(** The state in which the handler starts. *)
Definition started (q : request) s : mst X :=
  s <| who := q_source q |> <| mm_call := q_type q |> <| mp := Z.to_nat (q_source q) |> <| dont_reply := false |>.

Lemma call_vec_ok q s : MI s -> caller_ok q s -> tp (call_vec q (q_type q) : MM Z) (fun _ s' => MI s') (started q s).
Proof.
  intros HM Hc. assert (HMs : MI (started q s)) by exact HM.
  assert (Hq : forall m : MM Z, quiet m -> tp m (fun _ s' => MI s') (started q s)) by (intros m Hm; by eapply tp_quiet).
  assert (Hs : forall m : MM Z, safe m -> tp m (fun _ s' => MI s') (started q s)) by (intros m Hm; by apply Hm).
  assert (Huser : q_type q <> KSIG -> 0 < q_source q < NR_PROCS /\ v_use (V (Z.to_nat (q_source q)) s) = true /\
    v_hang (V (Z.to_nat (q_source q)) s) = false).
  { destruct Hc as [[_ ?]|?]; [done|auto]. }
  unfold call_vec. destruct (Z.eqb_spec (q_type q) 1) as [E|].
  { destruct Huser as (Hr & Hu & _); [by rewrite E|]. unfold do_mm_exit. wp_steps.
    eapply tp_mono; [apply mm_exit_ok; [done|exact Hu]|]. intros [] s' HM'. by wp_steps. }
  destruct (Z.eqb_spec (q_type q) 2) as [E|].
  { destruct Huser as (Hr & Hu & Hh); [by rewrite E|]. by apply do_fork_ok. }
  destruct (Z.eqb_spec (q_type q) 7) as [E|].
  { destruct Huser as (Hr & _); [by rewrite E|]. apply do_wait_ok; [done|done|]. cbn. lia. }
  repeat (match goal with |- tp (if ?b then _ else _) _ _ => destruct b end;
    [first [apply Hq, quiet_brk|apply Hq, quiet_getset|apply Hs, do_trace_ok|apply Hq, quiet_alarm|apply Hq, quiet_pause
      |apply Hs, do_kill_ok|apply Hq, quiet_signal|apply Hq, quiet_exec|apply Hs, do_ksig_ok|apply Hq, quiet_brk2|apply Hq, quiet_panic]|]).
  apply Hq, quiet_ret.
Qed.


(** C23. The search for a pid ends (after at most 65 tries, of the 100 allowed)
    with a pid between 2 and 30000 that is neither the pid nor the process
    group of any other slot; it changes nothing but the new slot's pid. *)
Theorem find_pid_terminates s rmc : length (mtab s) = NPROC -> (rmc < NPROC)%nat -> 2 <= next_pid s <= 30000 ->
  wp (find_pid 100 rmc : MM unit) (fun _ s' => exists n, 2 <= n <= 30000 /\ repid n rmc s s' /\
    forall j, j <> rmc -> (j < NPROC)%nat -> mp_pid (MP j s) <> n /\ mp_procgrp (MP j s) <> n) s.
Proof.
  intros Hl Hr Hn. rewrite <- Hl. apply (find_pid_ok rmc (next_pid s) ((mp_pid <$> mtab s) ++ (mp_procgrp <$> mtab s)) 100 0).
  - done.
  - unfold cyc. rewrite Z.mod_small by lia. lia.
  - rewrite length_app, !length_fmap, Hl. unfold NPROC. lia.
  - done.
  - lia.
  - intros n (p & Hp & [<- | <-])%taken_spec; apply elem_of_app; [left|right]; by apply list_elem_of_fmap_2.
  - lia.
Qed.

(** ** Stepping through requests *)
Definition told (e : event) s : mst X :=
  s <| ext := snd (answer e (ext s)) |> <| log ::= fun l => l ++ [e] |>.
Lemma wp_ask e s Q : Q (fst (answer e (ext s))) (told e s) -> wp (ask e) Q s.
Proof. unfold wp, ask, told. by destruct (answer e (ext s)). Qed.
Lemma wp_tell e s Q : Q tt (told e s) -> wp (tell e) Q s.
Proof. intros HQ. unfold tell. apply wp_bind, wp_ask. exact HQ. Qed.
Lemma tp_ask e s Q : Q (fst (answer e (ext s))) (told e s) -> tp (ask e) Q s.
Proof. unfold tp, ask, told. by destruct (answer e (ext s)). Qed.
Lemma tp_tell e s Q : Q tt (told e s) -> tp (tell e) Q s.
Proof. intros HQ. unfold tell. apply tp_bind, tp_ask. exact HQ. Qed.
Lemma MP_upd s f i j : (i < length (mtab s))%nat ->
  MP j (s <| mtab ::= alter f i |>) = if decide (i = j) then f (MP j s) else MP j s.
Proof.
  intros Hi. unfold MP. cbn [mtab set_field]. destruct (decide (i = j)) as [->|]; [by rewrite tbl_alter_eq|by rewrite tbl_alter_ne].
Qed.

(** ** Identities *)

(** What the caller may do to its identity. *)
Definition id_of (p : mproc) : Z * Z * Z * Z := (mp_realuid p, mp_effuid p, mp_realgid p, mp_effgid p).

(** The identity calls give no privileges away: whatever id it asks for, a
    caller that is not the superuser ends with the ids it had, or with its
    effective id set to its real one; the superuser gets what it asks for
    (cut to the width of the id); nobody else's entry changes, and FS is told
    exactly when an id was set. *)
Theorem do_getset_safe s id : length (mtab s) = NPROC -> (mp s < NPROC)%nat ->
  wp (do_getset id : MM Z) (fun r s' =>
    let p := MP (mp s) s in let p' := MP (mp s) s' in
    (forall j, j <> mp s -> MP j s' = MP j s) /\
    (mp_effuid p <> SUPER_USER ->
       id_of p' = id_of p \/ id_of p' = (mp_realuid p, mp_realuid p, mp_realgid p, mp_effgid p) \/
       id_of p' = (mp_realuid p, mp_effuid p, mp_realgid p, mp_realgid p)) /\
    (mp_effuid p = SUPER_USER -> mm_call s = SETUID -> r = OK /\ mp_realuid p' = u16 id /\ mp_effuid p' = u16 id) /\
    (r = EPERM -> mm_call s = SETUID \/ mm_call s = SETGID -> s' = s) /\
    (log s' = log s \/ (r = OK /\ log s' = log s ++
       [if mm_call s =? SETUID then TellFs SETUID (who s) (s16 (u16 id)) (s16 (u16 id))
        else TellFs SETGID (who s) (u8 id) (u8 id)]))) s.
Proof.
  intros Hl Hi. unfold do_getset, getp. wp_steps. set (p := MP (mp s) s). rewrite <- Hl in Hi.
  destruct (Z.eqb_spec (mm_call s) GETUID) as [E|]; [rewrite E; wp_steps; split_and!; [done|by left|done|naive_solver|by left]|].
  destruct (Z.eqb_spec (mm_call s) GETGID) as [E|]; [rewrite E; wp_steps; split_and!; [done|by left|done|naive_solver|by left]|].
  destruct (Z.eqb_spec (mm_call s) GETPID) as [E|]; [rewrite E; wp_steps; split_and!; [done|by left|done|naive_solver|by left]|].
  set (f1 := fun p => p <| mp_realuid := u16 id |>). set (f2 := fun p => p <| mp_effuid := u16 id |>).
  set (g1 := fun p => p <| mp_realgid := u8 id |>). set (g2 := fun p => p <| mp_effgid := u8 id |>).
  destruct (Z.eqb_spec (mm_call s) SETUID) as [E|].
  - destruct (negb (mp_realuid p =? _) && _) eqn:Ec.
    { wp_steps. apply andb_true_iff in Ec as [_ Ec]. apply negb_true_iff, Z.eqb_neq in Ec. split_and!; try done; by left. }
    unfold updp. wp_steps. apply wp_tell. wp_steps. fold f1 f2.
    match goal with |- context [told ?e ?x] => set (s1 := x); change (log (told e s1)) with (log s ++ [e]);
      change (MP (mp s) (told e s1)) with (MP (mp s) s1); assert (Hj : forall j, MP j (told e s1) = MP j s1) by done end.
    assert (Hs1 : forall j, MP j s1 = if decide (mp s = j) then f2 (f1 (MP j s)) else MP j s).
    { intros j. unfold s1. rewrite !MP_upd by (cbn [mtab set_field]; by rewrite ?length_alter). by destruct (decide (mp s = j)). }
    rewrite Hs1, decide_True by done. split_and!.
    + intros j Hne. by rewrite Hj, Hs1, decide_False.
    + intros Hsu. right; left. apply andb_false_iff in Ec as [Ec|Ec]; apply negb_false_iff in Ec; [|by apply Z.eqb_eq in Ec].
      apply Z.eqb_eq in Ec. unfold id_of. cbn. by rewrite <- Ec.
    + done.
    + done.
    + by right.
  - destruct (negb (mp_realgid p =? _) && _) eqn:Ec.
    { wp_steps. split_and!; try done; by left. }
    unfold updp. wp_steps. apply wp_tell. wp_steps. fold g1 g2.
    match goal with |- context [told ?e ?x] => set (s1 := x); change (log (told e s1)) with (log s ++ [e]);
      change (MP (mp s) (told e s1)) with (MP (mp s) s1); assert (Hj : forall j, MP j (told e s1) = MP j s1) by done end.
    assert (Hs1 : forall j, MP j s1 = if decide (mp s = j) then g2 (g1 (MP j s)) else MP j s).
    { intros j. unfold s1. rewrite !MP_upd by (cbn [mtab set_field]; by rewrite ?length_alter). by destruct (decide (mp s = j)). }
    rewrite Hs1, decide_True by done. split_and!.
    + intros j Hne. by rewrite Hj, Hs1, decide_False.
    + intros Hsu. right; right. apply andb_false_iff in Ec as [Ec|Ec]; apply negb_false_iff in Ec; [|by apply Z.eqb_eq in Ec].
      apply Z.eqb_eq in Ec. unfold id_of. cbn. by rewrite <- Ec.
    + done.
    + done.
    + by right.
Qed.

(** C36. [set_alarm] computes the ticks in 16 bits: it asks the clock for
    [60 * sec] ticks exactly when [sec] is at most 1092; any longer alarm goes
    off early, by a multiple of 65536 ticks. *)
Theorem set_alarm_exact s i sec : 0 <= sec < 65536 ->
  (forall p t x, fst (answer (SetAlarm p t) x) !!! 0%nat = OK) ->
  wp (set_alarm i sec : MM Z) (fun _ s' => exists t, log s' = log s ++ [SetAlarm i t] /\
    (t = 60 * sec <-> sec <= 1092) /\ (60 * sec - t) mod 65536 = 0 /\ 0 <= t < 65536) s.
Proof.
  intros Hs Hok. unfold set_alarm. apply wp_bind. apply wp_mono with (fun _ s1 => log s1 = log s).
  { unfold setf, clrf, updp. destruct (nz sec); by wp_steps. }
  intros [] s1 Hl. wp_steps. apply wp_ask. rewrite Hok. cbn [Z.eqb OK]. wp_steps. exists (u16 (HZ * sec)).
  change (log (told (SetAlarm i (u16 (HZ * sec))) s1)) with (log s1 ++ [SetAlarm i (u16 (HZ * sec))]). rewrite Hl.
  split; [done|]. unfold u16, HZ. change (2 ^ 16) with 65536. split_and!; zlia.
Qed.

(** ** Growing data and stack *)

(** The fields of a map are 16-bit clicks and the stack ends inside the
    address space. *)
Record map_ok (m : segs) : Prop := {
  mo_d : 0 <= mem_vir (seg_D m) < 65536 /\ 0 <= mem_len (seg_D m) < 65536;
  mo_s : 0 <= mem_vir (seg_S m) /\ 0 <= mem_len (seg_S m) /\ mem_vir (seg_S m) + mem_len (seg_S m) < 65536 /\
         0 <= mem_phys (seg_S m) < 65536;
}.

(** Whether a data segment of [d] clicks and a stack pointer in click [sc]
    are allowed, and the map that results. *)
Definition fits (m : segs) (d sc : Z) : bool :=
  (sc <? mem_vir (seg_S m) + mem_len (seg_S m)) &&
  (u16 (mem_vir (seg_D m) + d + SAFETY_CLICKS) <=? Z.min sc (mem_vir (seg_S m))) &&
  (u16 (mem_vir (seg_D m) + d) <=? Z.min sc (mem_vir (seg_S m))).
Definition grow (m : segs) (d sc : Z) : segs :=
  mk_segs (seg_T m) ((seg_D m) <| mem_len := d |>)
    (let x := seg_S m in let delta := mem_vir x - sc in
     if 0 <? delta then mk_map sc (u16 (mem_phys x - delta)) (mem_len x + delta) else x).

Lemma u16_u16_sub a b : 0 <= a < 65536 -> u16 (u16 (a - b) + b) = a.
Proof. intros Ha. unfold u16. change (2 ^ 16) with 65536. zlia. Qed.
Lemma u16_u16_add a b : 0 <= a < 65536 -> u16 (u16 (a + b) - b) = a.
Proof. intros Ha. unfold u16. change (2 ^ 16) with 65536. zlia. Qed.

(** The two conditional updates of [adjust], together. *)
Lemma wp_upd_when (b : bool) i f s Q : (i < length (mtab s))%nat ->
  (forall s', (forall j, MP j s' = if decide (i = j) then (if b then f (MP j s) else MP j s) else MP j s) ->
     length (mtab s') = length (mtab s) -> log s' = log s -> Q tt s') ->
  wp (when b (updp i f)) Q s.
Proof.
  intros Hi HQ. destruct b; cbn [when].
  - unfold updp. wp_steps. apply HQ; [intros j; by apply MP_upd|cbn [mtab set_field]; by rewrite length_alter|done].
  - wp_steps. apply HQ; [intros j; by destruct (decide (i = j))|done..].
Qed.

(** The two updates of [adjust], and their undoing, on one entry. *)
Definition set_data (d : Z) (p : mproc) : mproc :=
  p <| mp_seg ::= fun m => m <| seg_D ::= fun x => x <| mem_len := d |> |> |>.
Definition move_stack (by_ : Z) (p : mproc) : mproc :=
  p <| mp_seg ::= fun m => m <| seg_S ::= fun x =>
    mk_map (u16 (mem_vir x - by_)) (u16 (mem_phys x - by_)) (u16 (mem_len x + by_)) |> |>.
Definition back_stack (by_ : Z) (p : mproc) : mproc :=
  p <| mp_seg ::= fun m => m <| seg_S ::= fun x =>
    mk_map (u16 (mem_vir x + by_)) (u16 (mem_phys x + by_)) (u16 (mem_len x - by_)) |> |>.

Lemma grow_entry p d sc : let m := mp_seg p in let delta := mem_vir (seg_S m) - sc in
  map_ok m -> 0 <= sc < mem_vir (seg_S m) + mem_len (seg_S m) ->
  let p1 := if negb (d =? mem_len (seg_D m)) then set_data d p else p in
  (if 0 <? delta then move_stack delta p1 else p1) = p <| mp_seg := grow m d sc |>.
Proof.
  destruct p as [[mt [dv dp dl] [sv ph sl]] ? ? ? ? ? ? ? ? ? ? ? ? ?]. cbn. intros [Hd Hs] Hsc. cbn in *.
  unfold grow, set_data, move_stack, back_stack, set_field. cbn. destruct (Z.eqb_spec d dl) as [-> |]; destruct (Z.ltb_spec 0 (sv - sc)); cbn; try done;
    rewrite (u16_id (sv - _)), (u16_id (sl + _)) by lia; by replace (sv - (sv - sc)) with sc by lia.
Qed.
Lemma restore_entry p d sc : let m := mp_seg p in let delta := mem_vir (seg_S m) - sc in
  map_ok m -> let p2 := p <| mp_seg := grow m d sc |> in 0 <= sc < mem_vir (seg_S m) + mem_len (seg_S m) ->
  let p3 := if negb (d =? mem_len (seg_D m)) then set_data (mem_len (seg_D m)) p2 else p2 in
  (if 0 <? delta then back_stack delta p3 else p3) = p.
Proof.
  destruct p as [[mt [dv dp dl] [sv ph sl]] ? ? ? ? ? ? ? ? ? ? ? ? ?]. cbn. intros [Hd Hs] Hsc. cbn in *.
  unfold grow, set_data, move_stack, back_stack, set_field. cbn. destruct (Z.eqb_spec d dl) as [-> |]; destruct (Z.ltb_spec 0 (sv - sc)); cbn; try done;
    rewrite (u16_id (sc + _)), (u16_id (sl + _ - _)), u16_u16_sub by lia;
    replace (sc + (sv - sc)) with sv by lia; by replace (sl + (sv - sc) - (sv - sc)) with sl by lia.
Qed.
Lemma grow_same p d sc : let m := mp_seg p in
  grow m d sc = m <-> d = mem_len (seg_D m) /\ mem_vir (seg_S m) <= sc.
Proof.
  destruct p as [[mt [dv dp dl] [sv ph sl]] ? ? ? ? ? ? ? ? ? ? ? ? ?]. cbn. unfold grow, set_field. cbn.
  destruct (Z.ltb_spec 0 (sv - sc)); split; intros E.
  - injection E. intros. lia.
  - lia.
  - injection E as ->. split; [done|lia].
  - by destruct E as [-> ?].
Qed.

(** [adjust] lets data and stack grow exactly when they stay apart with the
    safety margin and the stack pointer lies below the end of the stack. Then
    the new map has the requested data size, the stack reaches down to the
    stack pointer with its end, and its place in physical memory, unchanged,
    data and stack do not overlap, and the kernel is told the map if it
    changed; otherwise nothing changes. *)
Theorem adjust_correct s i d sp : (i < length (mtab s))%nat -> i <> INIT -> 0 <= d < 65536 ->
  let m := mp_seg (MP i s) in let sc := u16 (Z.shiftr sp CLICK_SHIFT) in let m' := grow m d sc in map_ok m ->
  wp (adjust i d sp : MM Z) (fun r s' =>
    if fits m d sc then
      r = OK /\ (forall j, MP j s' = if decide (i = j) then (MP j s) <| mp_seg := m' |> else MP j s) /\
      log s' = log s ++ (if decide (m' = m) then [] else [SysNewmap i m'])
    else r = ENOMEM /\ (forall j, MP j s' = MP j s) /\ log s' = log s) s /\
  (fits m d sc = true -> mem_vir (seg_D m) + d < 65536 ->
     mem_vir (seg_D m') + mem_len (seg_D m') <= mem_vir (seg_S m') /\
     mem_vir (seg_S m') <= sc < mem_vir (seg_S m') + mem_len (seg_S m') /\
     mem_vir (seg_S m') + mem_len (seg_S m') = mem_vir (seg_S m) + mem_len (seg_S m) /\
     (mem_phys (seg_S m') - mem_vir (seg_S m') - (mem_phys (seg_S m) - mem_vir (seg_S m))) mod 65536 = 0).
Proof.
  intros Hi Hne Hd m sc m' [Hmd Hms]. assert (Hsc : 0 <= sc < 65536) by apply u16_range. split.
  2:{ unfold fits, m', grow. rewrite !andb_true_iff, Z.ltb_lt, !Z.leb_le. intros [[F1 F2] F3] Hdd.
      rewrite (u16_id (_ + d)) in F3 by lia. cbn [seg_D seg_S set_field mem_vir mem_len].
      destruct (Z.ltb_spec 0 (mem_vir (seg_S m) - sc)); cbn [mem_vir mem_len mem_phys].
      - split_and!; [lia..|]. unfold u16. change (2 ^ 16) with 65536. zlia.
      - split_and!; [lia..|]. by rewrite Z.sub_diag. }
  unfold adjust. rewrite (proj2 (Nat.eqb_neq i INIT)) by done. unfold getp. wp_steps. fold m. fold sc.
  unfold fits. rewrite (Z.ltb_antisym (mem_vir (seg_S m) + mem_len (seg_S m)) sc). destruct (Z.leb_spec (mem_vir (seg_S m) + mem_len (seg_S m)) sc); cbn [negb andb]; [by wp_steps|].
  replace (if 0 <? mem_vir (seg_S m) - sc then sc else mem_vir (seg_S m)) with (Z.min sc (mem_vir (seg_S m)))
    by (destruct (Z.ltb_spec 0 (mem_vir (seg_S m) - sc)); lia).
  rewrite (Z.leb_antisym (Z.min sc (mem_vir (seg_S m))) (u16 (mem_vir (seg_D m) + d + SAFETY_CLICKS))).
  destruct (Z.ltb_spec (Z.min sc (mem_vir (seg_S m))) (u16 (mem_vir (seg_D m) + d + SAFETY_CLICKS))); cbn [negb andb]; [by wp_steps|].
  wp_steps. apply wp_upd_when; [done|]. intros s1 E1 L1 G1. wp_steps. apply wp_upd_when; [by rewrite L1|]. intros s2 E2 L2 G2. wp_steps.
  set (delta := mem_vir (seg_S m) - sc) in *. set (dc := negb (d =? mem_len (seg_D m))) in *.
  assert (Hmo : map_ok m) by by split.
  assert (Hp2 : MP i s2 = (MP i s) <| mp_seg := m' |>).
  { rewrite E2, decide_True by done. rewrite E1, decide_True by done. apply (grow_entry (MP i s) d sc Hmo). fold m. lia. }
  assert (Ho2 : forall j, i <> j -> MP j s2 = MP j s) by (intros j Hj; by rewrite E2, E1, !decide_False).
  rewrite Hp2. change (mp_seg ((MP i s) <| mp_seg := m' |>)) with m'.
  change (mem_vir (seg_D m')) with (mem_vir (seg_D m)). change (mem_len (seg_D m')) with d.
  assert (Hsv : mem_vir (seg_S m') = Z.min sc (mem_vir (seg_S m))).
  { unfold m', grow. cbn [seg_S]. fold delta. destruct (Z.ltb_spec 0 delta); cbn [mem_vir]; unfold delta in *; lia. }
  unfold size_ok. rewrite Hsv, Z.ltb_antisym. destruct (Z.leb_spec (u16 (mem_vir (seg_D m) + d)) (Z.min sc (mem_vir (seg_S m)))); cbn [negb].
  - change (OK =? OK) with true. cbv iota. wp_steps. assert (Hch : dc || (0 <? delta) = negb (bool_decide (m' = m))).
    { apply eq_true_iff_eq. rewrite orb_true_iff. unfold dc. rewrite !negb_true_iff, Z.eqb_neq, Z.ltb_lt, bool_decide_eq_false.
      unfold m', m. rewrite (grow_same (MP i s)). fold m. unfold delta. lia. }
    rewrite Hch. case_bool_decide as Em; cbn [negb when]; wp_steps.
    + rewrite decide_True by done. rewrite app_nil_r, G2, G1. split_and!; [done| |done]. intros j.
      destruct (decide (i = j)) as [<-|]; [done|by apply Ho2].
    + rewrite decide_False by done. apply wp_tell. wp_steps. split_and!; [done| |].
      * intros j. change (MP j (told (SysNewmap i m') s2)) with (MP j s2). destruct (decide (i = j)) as [<-|]; [done|by apply Ho2].
      * change (log (told (SysNewmap i m') s2)) with (log s2 ++ [SysNewmap i m']). by rewrite G2, G1.
  - change (ENOMEM =? OK) with false. cbv iota. wp_steps. apply wp_upd_when; [by rewrite L2, L1|]. intros s3 E3 L3 G3. wp_steps.
    apply wp_upd_when; [by rewrite L3, L2, L1|]. intros s4 E4 L4 G4. wp_steps. split_and!; [done| |by rewrite G4, G3, G2, G1].
    intros j. destruct (decide (i = j)) as [<-|].
    + rewrite E4, decide_True by done. rewrite E3, decide_True by done. rewrite Hp2.
      apply (restore_entry (MP i s) d sc Hmo). fold m. lia.
    + rewrite E4, E3, !decide_False by done. by apply Ho2.
Qed.
End calls.

(** *** Witnesses *)

(** Slot 3 forks. *)
Definition demo_fork : request := mk_req 3 FORK 0 0 0 0 0 0 0 0.

Lemma find_pid_terminates_witness :
  wp (find_pid 100 5 : M (mst Z) unit) (fun _ s' => exists n, 2 <= n <= 30000 /\ repid n 5 (demo 3) s' /\ forall j, j <> 5%nat -> (j < NPROC)%nat -> mp_pid (MP j (demo 3)) <> n /\ mp_procgrp (MP j (demo 3)) <> n) (demo 3).
Proof. apply (find_pid_terminates (demo 3) 5); [done|by apply Nat.ltb_lt|by vm_compute]. Defined.

Lemma do_getset_safe_witness : let s := (demo 3) <| mm_call := SETUID |> in
  wp (do_getset 0 : M (mst Z) Z) (fun r s' =>
    let p := MP (mp s) s in let p' := MP (mp s) s' in
    (forall j, j <> mp s -> MP j s' = MP j s) /\
    (mp_effuid p <> SUPER_USER ->
       id_of p' = id_of p \/ id_of p' = (mp_realuid p, mp_realuid p, mp_realgid p, mp_effgid p) \/
       id_of p' = (mp_realuid p, mp_effuid p, mp_realgid p, mp_realgid p)) /\
    (mp_effuid p = SUPER_USER -> mm_call s = SETUID -> r = OK /\ mp_realuid p' = u16 0 /\ mp_effuid p' = u16 0) /\
    (r = EPERM -> mm_call s = SETUID \/ mm_call s = SETGID -> s' = s) /\
    (log s' = log s \/ (r = OK /\ log s' = log s ++
       [if mm_call s =? SETUID then TellFs SETUID (who s) (s16 (u16 0)) (s16 (u16 0))
        else TellFs SETGID (who s) (u8 0) (u8 0)]))) s.
Proof. intros s. apply (do_getset_safe s 0); [done|by apply Nat.ltb_lt]. Defined.

Lemma set_alarm_exact_witness :
  wp (set_alarm 3 1093 : M (mst Z) Z) (fun _ s' => exists t, log s' = log (demo 3) ++ [SetAlarm 3 t] /\
    (t = 60 * 1093 <-> 1093 <= 1092) /\ (60 * 1093 - t) mod 65536 = 0 /\ 0 <= t < 65536) (demo 3).
Proof. apply (set_alarm_exact (demo 3) 3 1093); [lia|done]. Defined.

(** The data of slot 3 grows to 40 clicks, its stack down to click 88. *)
Lemma adjust_correct_witness :
  let s := demo 3 in
  let m := mp_seg (MP 3 s) in let sc := u16 (Z.shiftr 22600 CLICK_SHIFT) in let m' := grow m 40 sc in
  wp (adjust 3 40 22600 : M (mst Z) Z) (fun r s' =>
    if fits m 40 sc then
      r = OK /\ (forall j, MP j s' = if decide (3%nat = j) then (MP j s) <| mp_seg := m' |> else MP j s) /\
      log s' = log s ++ (if decide (m' = m) then [] else [SysNewmap 3 m'])
    else r = ENOMEM /\ (forall j, MP j s' = MP j s) /\ log s' = log s) s /\
  (fits m 40 sc = true -> mem_vir (seg_D m) + 40 < 65536 ->
     mem_vir (seg_D m') + mem_len (seg_D m') <= mem_vir (seg_S m') /\
     mem_vir (seg_S m') <= sc < mem_vir (seg_S m') + mem_len (seg_S m') /\
     mem_vir (seg_S m') + mem_len (seg_S m') = mem_vir (seg_S m) + mem_len (seg_S m) /\
     (mem_phys (seg_S m') - mem_vir (seg_S m') - (mem_phys (seg_S m) - mem_vir (seg_S m))) mod 65536 = 0).
Proof.
  intros s m sc m'. apply (adjust_correct s 3 40 22600); [by apply Nat.ltb_lt|done|lia|].
  split; vm_compute; by split_and!.
Defined.
