(* ===== verification/MmWait.v ===== *)
(** * Exit and wait meet in either order

    A parent that waits for a child that is still running, and a parent that
    comes to wait after the child has exited, get the same answer and leave
    MM's table in the same state. *)

From S2P Require Import Prelude MemAlloc KProc MmState MmProc MmExec MmTable MmInv MmDemo MmCalls.

Lemma tp_eq {S A} (m m' : M S A) Q (s : S) : m s = m' s -> tp m' Q s -> tp m Q s.
Proof. intros E. unfold tp. by rewrite E. Qed.

(** The replies among the requests to the outside. *)
Definition is_send (e : event) : bool := match e with Send _ _ _ _ _ _ => true | _ => false end.
Definition sends (l : list event) : list event := filter (fun e => is_send e = true) l.

Lemma sends_app l1 l2 : sends (l1 ++ l2) = sends l1 ++ sends l2.
Proof. apply filter_app. Qed.

Section wait.
Context {X : Type} `{OutsideOk X}.
Implicit Types s : mst X.
Notation MM := (M (mst X)).
Context (s0 : mst X) (c p : nat).

(** The state [s] reached from [s0]: only the entries of the child [c] and of
    the parent [p] have changed, to [xc] and [xp]; the number of processes is
    [n] and the replies sent are [ss]. *)
Record two (xc xp : mproc) (n : Z) (ss : list event) s : Prop := {
  tw_at j : MP j s = if decide (j = c) then xc else if decide (j = p) then xp else MP j s0;
  tw_len : length (mtab s) = NPROC;
  tw_n : procs_in_use s = n;
  tw_log : sends (log s) = ss;
  tw_mem : linked (mem s);
  tw_out : o_l1 (mm_out s) = o_l1 (mm_out s0) /\ o_l2 (mm_out s) = o_l2 (mm_out s0);
  tw_me : who s = who s0 /\ mp s = mp s0;
}.

Lemma two_upd_c xc xp n ss s f (Q : unit -> mst X -> Prop) : two xc xp n ss s -> (c < NPROC)%nat ->
  (forall s', two (f xc) xp n ss s' -> Q tt s') -> tp (updp c f) Q s.
Proof.
  intros HT Hc Hk. unfold updp. apply tp_modify, Hk. destruct HT. split; try done.
  - intros j. rewrite MP_upd by (by rewrite tw_len0). rewrite tw_at0. repeat destruct (decide _); congruence.
  - cbn [mtab set_field]. by rewrite length_alter.
Qed.
Lemma two_upd_p xc xp n ss s f (Q : unit -> mst X -> Prop) : two xc xp n ss s -> (p < NPROC)%nat -> c <> p ->
  (forall s', two xc (f xp) n ss s' -> Q tt s') -> tp (updp p f) Q s.
Proof.
  intros HT Hp Hne Hk. unfold updp. apply tp_modify, Hk. destruct HT. split; try done.
  - intros j. rewrite MP_upd by (by rewrite tw_len0). rewrite tw_at0. repeat destruct (decide _); congruence.
  - cbn [mtab set_field]. by rewrite length_alter.
Qed.
Lemma two_ask xc xp n ss s e (Q : list Z -> mst X -> Prop) : two xc xp n ss s -> is_send e = false ->
  (forall r s', two xc xp n ss s' -> Q r s') -> tp (ask e) Q s.
Proof.
  intros HT He Hk. apply tp_ask, Hk. destruct HT. split; try done.
  change (log (told e s)) with (log s ++ [e]). rewrite sends_app, tw_log0. unfold sends at 1.
  rewrite filter_cons_False by (by rewrite He). apply app_nil_r.
Qed.
Lemma two_mem {A} xc xp n ss s (m : M Impl.hole_table A) (Q : A -> mst X -> Prop) : two xc xp n ss s ->
  (forall t, linked t -> tp m (fun _ t' => linked t') t) ->
  (forall r s', two xc xp n ss s' -> Q r s') -> tp (in_mem m) Q s.
Proof.
  intros HT Hm Hk. unfold in_mem. apply tp_zoom. destruct HT.
  eapply tp_mono; [by apply Hm|]. intros r t Ht. apply Hk. by split.
Qed.
Lemma two_reply xc xp n ss s res res2 (Q : unit -> mst X -> Prop) : two xc xp n ss s -> c <> p ->
  tst (mp_flags xp) IN_USE = true -> tst (mp_flags xp) HANGING = false ->
  (forall s', two xc xp n (ss ++ [Send p res res2 NIL_PTR (o_l1 (mm_out s0)) (o_l2 (mm_out s0))]) s' -> Q tt s') ->
  tp (reply p res res2 NIL_PTR) Q s.
Proof.
  intros HT Hne Hu Hh Hk. unfold reply, getp. wp_steps.
  rewrite (tw_at _ _ _ _ _ HT p), decide_False, decide_True, Hu, Hh by done. cbn [negb orb]. wp_steps. apply tp_ask.
  match goal with |- tp (if ?b then _ else _) _ _ => destruct b end; [|done]. wp_steps. apply Hk. destruct HT as [? ? ? ? ? [O1 O2] ?].
  split; try done. cbn. rewrite sends_app, tw_log0. f_equal. unfold sends. cbn. by rewrite O1, O2.
Qed.

(** *** Loops that find nothing *)
Lemma disinherit_none rec l iw s : (forall j, mp_parent (MP j s) <> c) ->
  (disinherit rec c l iw : MM unit) s = Done tt s.
Proof.
  intros Hno. induction l as [|i l IH]; [done|]. cbn [disinherit]. unfold getp, mbind, M_bind, gets.
  rewrite decide_False by apply Hno. exact IH.
Qed.

(** No other child of [p] has anything to report. *)
Definition silent (x : mproc) : Prop :=
  tst (mp_flags x) IN_USE = true -> mp_parent x = p ->
  tst (mp_flags x) HANGING = false /\ (tst (mp_flags x) STOPPED && nz (mp_sigstatus x)) = false.

Lemma wait_loop_skip i l n s : silent (MP i s) -> exists n', n <= n' /\
  (tst (mp_flags (MP i s)) IN_USE = true -> mp_parent (MP i s) = p -> n < n') /\
  (wait_loop p (i :: l) n : MM _) s = (wait_loop p l n' : MM _) s.
Proof.
  intros Hq. cbn [wait_loop]. unfold getp, mbind, M_bind, gets. unfold silent in Hq.
  destruct (tst (mp_flags (MP i s)) IN_USE); cbn [andb]; [|by exists n; split_and!; [lia| |]].
  destruct (Nat.eqb_spec (mp_parent (MP i s)) p) as [E|E].
  - destruct Hq as [-> ->]; [done..|]. exists (n + 1). split_and!; [lia|lia|done].
  - by exists n; split_and!; [lia| |].
Qed.

Lemma wait_loop_none l s : forall n, (forall i, i ∈ l -> silent (MP i s)) ->
  exists n', n <= n' /\ (wait_loop p l n : MM _) s = Done (Some n') s /\
  (c ∈ l -> tst (mp_flags (MP c s)) IN_USE = true -> mp_parent (MP c s) = p -> n < n').
Proof.
  induction l as [|i l IH]; intros n Hq; [exists n; by split_and!; [lia| |set_solver]|].
  destruct (wait_loop_skip i l n s) as (n1 & H1 & H2 & ->); [set_solver|].
  destruct (IH n1) as (n2 & H3 & H4 & H5); [set_solver|]. exists n2. split_and!; [lia|done|].
  intros [<-|Hc]%elem_of_cons Hu Hp; [|by specialize (H5 Hc Hu Hp); lia]. specialize (H2 Hu Hp). lia.
Qed.

Lemma wait_loop_hit l1 l2 s : forall n, (forall i, i ∈ l1 -> silent (MP i s)) ->
  tst (mp_flags (MP c s)) IN_USE = true -> mp_parent (MP c s) = p -> tst (mp_flags (MP c s)) HANGING = true ->
  (wait_loop p (l1 ++ c :: l2) n : MM _) s =
  (do_cleanup c;; modify (fun s => s <| dont_reply := true |>);; mret None) s.
Proof.
  induction l1 as [|i l1 IH]; intros n Hq Hu Hp Hh.
  - cbn [app wait_loop]. unfold getp, mbind at 1, M_bind, gets. rewrite Hu, Hp, Nat.eqb_refl. cbn [andb]. by rewrite Hh.
  - rewrite <- app_comm_cons. destruct (wait_loop_skip i (l1 ++ c :: l2) n s) as (n1 & _ & _ & ->); [set_solver|].
    apply IH; [set_solver|done..].
Qed.

(** *** The two routines on these two entries *)
Definition clr (b : Z) (x : mproc) : mproc := x <| mp_flags ::= fun f => bclr f b |>.
Definition set (b : Z) (x : mproc) : mproc := x <| mp_flags ::= fun f => bset f b |>.
Definition dead (x : mproc) : mproc := clr IN_USE (clr PAUSED (clr HANGING (clr TRACED x))).
Definition quit (st : Z) (x : mproc) : mproc := x <| mp_exitstatus := s8 st |>.
Definition unalarm (x : mproc) : mproc := if tst (mp_flags x) ALARM_ON then clr ALARM_ON x else x.

Context (Hc : (c < NPROC)%nat) (Hp : (p < NPROC)%nat) (Hne : c <> p).
Context (Hpar : forall j, mp_parent (MP j s0) <> c).

Lemma two_parent xc xp n ss s : two xc xp n ss s -> mp_parent xc <> c -> mp_parent xp <> c ->
  forall j, mp_parent (MP j s) <> c.
Proof. intros HT H1 H2 j. rewrite (tw_at _ _ _ _ _ HT). by repeat destruct (decide _). Qed.

Definition answer_of (xc : mproc) : event :=
  Send p (mp_pid xc) (wait_status xc) NIL_PTR (o_l1 (mm_out s0)) (o_l2 (mm_out s0)).

Lemma two_cleanup xc xp n ss s f (Q : unit -> mst X -> Prop) : two xc xp n ss s ->
  mp_parent xc = p -> mp_parent xp <> c -> tst (mp_flags xp) IN_USE = true -> tst (mp_flags xp) HANGING = false ->
  (forall s', two (dead xc) (clr WAITING xp) (n - 1) (ss ++ [answer_of xc]) s' -> Q tt s') ->
  tp (cleanup (S f) c) Q s.
Proof.
  intros HT Hpc Hpp Hu Hh Hk. cbn [cleanup]. unfold getp, clrf, flag. wp_steps.
  rewrite (tw_at _ _ _ _ _ HT), decide_True, Hpc by done.
  eapply two_reply; [exact HT|done..|]. clear s HT. intros s HT. wp_steps.
  do 3 (eapply two_upd_c; [exact HT|done|]; clear s HT; intros s HT; wp_steps).
  eapply two_upd_p; [exact HT|done..|]. clear s HT; intros s HT. wp_steps.
  eapply two_upd_c; [exact HT|done|]. clear s HT; intros s HT. wp_steps.
  unfold tp. rewrite disinherit_none; [apply Hk; by destruct HT; split; [done..|cbn; lia|done|done|done|done]|].
  intros j. change (mp_parent (MP j s) <> c). eapply two_parent; [exact HT| |done]. by cbn; rewrite Hpc.
Qed.

(** The alarm is turned off, the kernel and FS are told. *)
Definition rest : MM unit :=
  a ← flag c ALARM_ON;
  when a (set_alarm c 0;; mret tt);;
  p ← getp c;
  bs ← ask (SysXit (mp_parent p) c);
  in_mem (Impl.free_mem (u16 (bs !!! 0%nat)) (u16 (bs !!! 1%nat)));;
  tell (TellFs EXIT (Z.of_nat c) 0 0).

Lemma two_rest xc xp n ss s (Q : unit -> mst X -> Prop) : two xc xp n ss s ->
  (forall s', two (unalarm xc) xp n ss s' -> Q tt s') -> tp rest Q s.
Proof.
  intros HT Hk. unfold rest, flag, getp. wp_steps. rewrite (tw_at _ _ _ _ _ HT), decide_True by done.
  apply tp_mono with (fun _ s' => two (unalarm xc) xp n ss s').
  - unfold unalarm. destruct (tst (mp_flags xc) ALARM_ON); cbn [when]; [|by wp_steps].
    unfold set_alarm. change (nz 0) with false. unfold clrf. wp_steps.
    eapply two_upd_c; [exact HT|done|]. clear s HT; intros s HT. wp_steps. eapply two_ask; [exact HT|done|]. clear s HT; intros r s HT.
    match goal with |- tp (if ?b then _ else _) _ _ => destruct b end; [|done]. by wp_steps.
  - clear s HT. intros [] s HT. wp_steps. eapply two_ask; [exact HT|done|]. clear s HT. intros bs s HT. wp_steps.
    eapply two_mem; [exact HT|intros t Ht; by apply free_mem_returns|]. clear s HT. intros [] s HT. unfold tell. wp_steps.
    eapply two_ask; [exact HT|done|]. clear s HT. intros r s HT. wp_steps. by apply Hk.
Qed.

(** [mm_exit] of the child, with the parent waiting or not. *)
Lemma two_exit xc xp n ss s st (Q : unit -> mst X -> Prop) : two xc xp n ss s ->
  mp_parent xc = p -> mp_parent xp <> c -> tst (mp_flags xp) IN_USE = true -> tst (mp_flags xp) HANGING = false ->
  (forall s', (if tst (mp_flags xp) WAITING
     then two (unalarm (dead (quit st xc))) (clr WAITING xp) (n - 1) (ss ++ [answer_of (quit st xc)]) s'
     else two (unalarm (set HANGING (quit st xc))) xp n ss s') -> Q tt s') ->
  tp (mm_exit c st) Q s.
Proof.
  intros HT Hpc Hpp Hu Hh Hk. unfold mm_exit, getp, flag, setf. wp_steps.
  eapply two_upd_c; [exact HT|done|]. clear s HT; intros s HT. wp_steps. change (two (quit st xc) xp n ss s) in HT.
  rewrite !(tw_at _ _ _ _ _ HT). rewrite (decide_True (P := c = c)) by done.
  change (mp_parent (quit st xc)) with (mp_parent xc). rewrite Hpc, decide_False, decide_True by done.
  destruct (tst (mp_flags xp) WAITING).
  - eapply two_cleanup; [exact HT|done..|]. clear s HT; intros s HT. apply (two_rest _ _ _ _ _ _ HT Hk).
  - eapply two_upd_c; [exact HT|done|]. clear s HT; intros s HT. apply (two_rest _ _ _ _ _ _ HT Hk).
Qed.
End wait.

(** *** The two orders end alike *)
Lemma alarm_clr x b : Z.land b ALARM_ON = 0 -> tst (mp_flags (clr b x)) ALARM_ON = tst (mp_flags x) ALARM_ON.
Proof. intros Hb. apply tst_bclr. exact Hb. Qed.

Lemma flags_hang f t h q u : bclr (bclr (bclr (bclr f t) h) q) u = bclr (bclr (bclr (bclr (bset f h) t) h) q) u.
Proof.
  unfold bclr, bset. apply Z.bits_inj'. intros n Hn. rewrite !Z.ldiff_spec, Z.lor_spec.
  by destruct (Z.testbit f n), (Z.testbit t n), (Z.testbit h n), (Z.testbit q n), (Z.testbit u n).
Qed.
Lemma flags_commute f t h q u a : bclr (bclr (bclr (bclr (bclr f t) h) q) u) a =
  bclr (bclr (bclr (bclr (bclr (bset f h) a) t) h) q) u.
Proof.
  unfold bclr, bset. apply Z.bits_inj'. intros n Hn. rewrite !Z.ldiff_spec, Z.lor_spec.
  by destruct (Z.testbit f n), (Z.testbit t n), (Z.testbit h n), (Z.testbit q n), (Z.testbit u n), (Z.testbit a n).
Qed.

Lemma orders_child x : unalarm (dead x) = dead (unalarm (set HANGING x)).
Proof.
  unfold unalarm. assert (H1 : tst (mp_flags (dead x)) ALARM_ON = tst (mp_flags x) ALARM_ON)
    by (unfold dead; by rewrite !alarm_clr).
  assert (H2 : tst (mp_flags (set HANGING x)) ALARM_ON = tst (mp_flags x) ALARM_ON).
  { unfold set. cbn [mp_flags set_field]. rewrite tst_bset. by rewrite orb_false_r. }
  rewrite H1, H2. destruct (tst (mp_flags x) ALARM_ON).
  - exact (f_equal (fun f => x <| mp_flags := f |>) (flags_commute (mp_flags x) TRACED HANGING PAUSED IN_USE ALARM_ON)).
  - exact (f_equal (fun f => x <| mp_flags := f |>) (flags_hang (mp_flags x) TRACED HANGING PAUSED IN_USE)).
Qed.
Lemma flags_wait f w : bclr (bset f w) w = bclr f w.
Proof.
  unfold bclr, bset. apply Z.bits_inj'. intros n Hn. rewrite !Z.ldiff_spec, Z.lor_spec.
  by destruct (Z.testbit f n), (Z.testbit w n).
Qed.
Lemma orders_parent x : clr WAITING (set WAITING x) = clr WAITING x.
Proof. exact (f_equal (fun f => x <| mp_flags := f |>) (flags_wait (mp_flags x) WAITING)). Qed.

Section orders.
Context {X : Type} `{OutsideOk X}.
Implicit Types s : mst X.
Notation MM := (M (mst X)).

(** A running parent [p] and its running, childless child [c]; no other child
    of [p] has anything to report. *)
Record pair (s : mst X) (c p : nat) : Prop := {
  pa_inv : MI s;
  pa_c : (INIT < c < NPROC)%nat /\ tst (mp_flags (MP c s)) IN_USE = true /\ mp_parent (MP c s) = p;
  pa_p : (0 < p < NPROC)%nat /\ c <> p /\ tst (mp_flags (MP p s)) IN_USE = true /\
         tst (mp_flags (MP p s)) HANGING = false /\ tst (mp_flags (MP p s)) WAITING = false;
  pa_caller : who s = Z.of_nat p /\ mp s = p;
  pa_leaf j : mp_parent (MP j s) <> c;
  pa_silent i : silent p (MP i s);
}.

Lemma two_refl s c p : MI s -> two s c p (MP c s) (MP p s) (procs_in_use s) (sends (log s)) s.
Proof.
  intros [HM Hl]. split; try done.
  - intros j. destruct (decide (j = c)) as [->|]; [done|]. by destruct (decide (j = p)) as [->|].
  - pose proof (mi_len _ _ _ _ _ HM) as E. unfold views in E. by rewrite length_fmap in E.
Qed.

(** [do_wait] while the child runs, and after it has exited. *)
Lemma wait_first s c p (Q : Z -> mst X -> Prop) : pair s c p ->
  (forall s', two s c p (MP c s) (set WAITING (MP p s)) (procs_in_use s) (sends (log s)) s' -> Q OK s') -> tp (do_wait : MM Z) Q s.
Proof.
  intros [HM (Hc & Huc & Hpc) (Hp & Hne & Hup & Hhp & Hwp) [Hw Hm] Hleaf Hsil] HQ. unfold do_wait. wp_steps.
  rewrite Hw, Nat2Z.id. destruct (wait_loop_none c p slots s 0) as (n & Hn & Hrun & Hpos); [by intros; apply Hsil|].
  unfold tp at 1. rewrite Hrun. cbv beta iota. rewrite (proj2 (Z.ltb_lt 0 n)).
  2:{ apply Hpos; [|done..]. apply elem_of_seq. unfold NPROC in *. lia. }
  wp_steps. rewrite Hm. unfold setf. pose proof (two_refl s c p HM) as HT.
  eapply two_upd_p; [exact HT|lia|done|]. intros s1 HT1. wp_steps. apply HQ. by destruct HT1.
Qed.

Lemma wait_after s c p xc xp n ss s1 (Q : Z -> mst X -> Prop) : pair s c p -> two s c p xc xp n ss s1 ->
  mp_parent xc = p -> tst (mp_flags xc) IN_USE = true -> tst (mp_flags xc) HANGING = true ->
  xp = MP p s ->
  (forall s', two s c p (dead xc) (clr WAITING xp) (n - 1) (ss ++ [answer_of s p xc]) s' -> Q OK s') -> tp (do_wait : MM Z) Q s1.
Proof.
  intros [HM (Hc & Huc & Hpc) (Hp & Hne & Hup & Hhp & Hwp) [Hw Hm] Hleaf Hsil] HT Hxp Hxu Hxh -> HQ. unfold do_wait. wp_steps.
  destruct (tw_me _ _ _ _ _ _ _ _ HT) as [Hw1 _]. rewrite Hw1, Hw, Nat2Z.id.
  assert (Hat := tw_at _ _ _ _ _ _ _ _ HT). assert (Hc1 : MP c s1 = xc) by (by rewrite Hat, decide_True).
  assert (Hslots : slots = seq 0 c ++ c :: seq (S c) (NPROC - S c)).
  { unfold slots. replace NPROC with (c + S (NPROC - S c))%nat at 1 by lia. by rewrite seq_app. }
  assert (Hrun := wait_loop_hit c p (seq 0 c) (seq (S c) (NPROC - S c)) s1 0). rewrite Hc1 in Hrun.
  rewrite Hslots. eapply tp_eq; [apply Hrun; try done|].
  - intros i Hi%elem_of_seq. rewrite Hat, decide_False by lia. destruct (decide (i = p)) as [->|]; apply Hsil.
  - unfold do_cleanup. wp_steps. eapply (two_cleanup s c p); first [exact HT|done|lia|by apply Hleaf|idtac].
    intros s2 HT2. wp_steps. apply HQ. by destruct HT2.
Qed.

Lemma dead_use x : tst (mp_flags (unalarm (dead x))) IN_USE = false.
Proof.
  assert (Hd : tst (mp_flags (dead x)) IN_USE = false) by apply tst_bclr_same.
  unfold unalarm. destruct (tst (mp_flags (dead x)) ALARM_ON); [|done].
  change (tst (bclr (mp_flags (dead x)) ALARM_ON) IN_USE = false). by rewrite tst_bclr.
Qed.

(** C22. Wait and exit commute: whether the parent waits before or after its
    child exits, the parent gets the same reply (the child's pid and status),
    the child's slot is released, and the tables end up equal entry by entry. *)
Theorem exit_wait_commute s c p st : pair s c p ->
  let reply := answer_of s p (quit st (MP c s)) in
  tp (do_wait;; mm_exit c st : MM unit) (fun _ sA =>
    tp (mm_exit c st;; do_wait : MM Z) (fun _ sB =>
      (forall j, MP j sA = MP j sB) /\ tst (mp_flags (MP c sA)) IN_USE = false /\
      procs_in_use sA = procs_in_use s - 1 /\ procs_in_use sB = procs_in_use s - 1 /\
      sends (log sA) = sends (log s) ++ [reply] /\ sends (log sB) = sends (log s) ++ [reply]) s) s.
Proof.
  intros HP reply. pose proof HP as [HM (Hc & Huc & Hpc) (Hp & Hne & Hup & Hhp & Hwp) [Hw Hm] Hleaf Hsil].
  wp_steps. apply (wait_first s c p); [done|]. intros s1 HT1. wp_steps.
  eapply (two_exit s c p); first [exact HT1|done|lia|by apply Hleaf|idtac].
  1,2: unfold set; cbn [mp_flags set_field]; rewrite tst_bset; by rewrite ?Hup, ?Hhp.
  intros sA HTA. replace (tst (mp_flags (set WAITING (MP p s))) WAITING) with true in HTA.
  2:{ unfold set. cbn [mp_flags set_field]. rewrite tst_bset. by rewrite orb_true_r. }
  apply tp_bind. eapply (two_exit s c p); first [by apply two_refl|done|lia|by apply Hleaf|idtac]. intros s2 HT2. rewrite Hwp in HT2. wp_steps.
  eapply wait_after; [exact HP|exact HT2| | | |done|].
  - unfold unalarm. destruct (tst (mp_flags (set HANGING (quit st (MP c s)))) ALARM_ON); exact Hpc.
  - unfold unalarm. destruct (tst (mp_flags (set HANGING (quit st (MP c s)))) ALARM_ON); unfold set, clr; cbn [mp_flags set_field]; rewrite ?tst_bclr, tst_bset by done; cbn [quit mp_flags set_field]; by rewrite Huc.
  - unfold unalarm. destruct (tst (mp_flags (set HANGING (quit st (MP c s)))) ALARM_ON); unfold set, clr; cbn [mp_flags set_field]; rewrite ?tst_bclr, tst_bset by done; by rewrite orb_true_r.
  - intros sB HTB. rewrite <- orders_child in HTB. rewrite orders_parent in HTA.
    assert (Ha : answer_of s p (unalarm (set HANGING (quit st (MP c s)))) = reply).
    { unfold answer_of, unalarm, wait_status. by destruct (tst (mp_flags (set HANGING (quit st (MP c s)))) ALARM_ON). }
    destruct HTA as [A1 _ A2 A3 _ _ _], HTB as [B1 _ B2 B3 _ _ _]. rewrite Ha in B3. split_and!; try done.
    + intros j. by rewrite A1, B1.
    + rewrite A1, decide_True by done. apply dead_use.
Qed.
End orders.

(** *** Witness: slot 4 exits with status 9, its parent in slot 3 waits. *)
Lemma demo_pair : pair (demo 3) 4 3.
Proof.
  assert (Hall : forall j, (j < 5)%nat \/ MP j (demo 3) = mproc0).
  { intros j. destruct (decide (j < 5)%nat); [by left|right]. unfold MP, demo, demo_tab. cbn [mtab].
    rewrite lookup_total_app_r by (cbn; lia). cbn [length].
    destruct (decide (j - 5 < demo_free)%nat); [by rewrite lookup_total_replicate_2|].
    rewrite list_lookup_total_alt, lookup_ge_None_2; [done|]. rewrite length_replicate. lia. }
  split.
  - apply demo_MI.
  - unfold INIT, NPROC. split_and!; [lia|lia|by vm_compute..].
  - unfold NPROC. split_and!; [lia|lia|done|by vm_compute..].
  - done.
  - intros j. destruct (Hall j) as [Hj| ->]; [|done]. do 5 (destruct j as [|j]; [done|]). lia.
  - intros i. destruct (Hall i) as [Hj| ->]; [|done]. do 5 (destruct i as [|i]; [done|]). lia.
Qed.

Lemma exit_wait_commute_witness : let s := demo 3 in
  let reply := answer_of s 3 (quit 9 (MP 4 s)) in
  reply = Send 3 3 2304 0 0 0 /\
  wp (do_wait;; mm_exit 4 9 : M (mst Z) unit) (fun _ sA => wp (mm_exit 4 9;; do_wait : M (mst Z) Z) (fun _ _ => True) s) s /\
  tp (do_wait;; mm_exit 4 9 : M (mst Z) unit) (fun _ sA =>
    tp (mm_exit 4 9;; do_wait : M (mst Z) Z) (fun _ sB =>
      (forall j, MP j sA = MP j sB) /\ tst (mp_flags (MP 4 sA)) IN_USE = false /\
      procs_in_use sA = procs_in_use s - 1 /\ procs_in_use sB = procs_in_use s - 1 /\
      sends (log sA) = sends (log s) ++ [reply] /\ sends (log sB) = sends (log s) ++ [reply]) s) s.
Proof.
  intros s reply. split_and!; [by vm_compute|by vm_compute|]. apply (exit_wait_commute s 4 3 9). apply demo_pair.
Defined.
