(* ===== verification/MmLoad.v ===== *)
(** * The new image of an executed program

    What [new_mem] of [exec.c] does with a sound header: the memory it takes,
    where it puts text, data and stack, and what becomes of the old image. *)

From S2P Require Import Prelude MemAlloc KProc MmState MmProc MmExec MmTable MmInv MmDemo MmCalls.
Import Impl Spec.

(** *** The allocator, as [new_mem] uses it *)
Lemma biggest_ok t l : alloc_state t l -> wp max_hole (fun r t' => t' = t /\ r = max_len 0 l) t.
Proof.
  intros [(ls & fs & HL & ->) _]. unfold max_hole. wp_steps.
  eapply wp_mono; [eapply (max_loop_ok t _ ls); [by destruct HL|]|naive_solver].
  pose proof (lists_length _ _ _ HL). lia.
Qed.

Lemma max_len_even l : Forall hole_ok l -> forall m, Z.odd m = false -> Z.odd (max_len m l) = false.
Proof.
  induction 1 as [|h l Hh _ IH]; intros m Hm; [done|]. cbn [max_len foldl].
  apply (IH (Z.max m (snd h))). destruct Hh as (_ & _ & _ & _ & Hodd). by destruct (Z.max_spec m (snd h)) as [[_ ->]|[_ ->]].
Qed.

Lemma load_take_ok t l n : alloc_state t l -> wf_from 0 l -> 0 < n < 65535 -> n <= max_len 0 l ->
  wp (alloc_mem n) (fun b t' => exists l', alloc_state t' l' /\ 0 < b /\ b + n < 65536 /\
    (forall c, free_click l c <-> free_click l' c \/ b <= c < b + (n + n mod 2)) /\
    (forall c, b <= c < b + (n + n mod 2) -> ~ free_click l' c) /\ (length l' <= length l)%nat) t.
Proof.
  intros [Hrep Hwf] Hwf0 Hn Hmax. eapply wp_mono; [apply (alloc_mem_ok t l n Hrep (proj1 Hwf)); lia|].
  intros r t'. destruct (even_clicks_range n ltac:(lia)) as [Hr Hodd].
  pose proof (first_fit_spec (even_clicks n) l (proj1 Hr) Hodd 0 Hwf0) as Hff.
  rewrite even_clicks_eq in * by lia. destruct (first_fit _ l) as [[b l']|].
  - intros [-> Hrep']. destruct Hff as (Hwf' & Hb & _ & Hfr & Hex & Hll). exists l'.
    assert (Hend : b + (n + n mod 2) < 65536).
    { assert (free_click l (b + (n + n mod 2) - 1)) as (h & Hh & Hc) by (apply Hfr; right; zlia).
      destruct Hwf as [Hok _]. rewrite Forall_forall in Hok. destruct (Hok h Hh) as (_ & _ & ? & _).
      unfold covers in Hc. lia. }
    split_and!; try done; [split; [done|]; by eapply (wf_from_weaken 0)|zlia].
  - exfalso. pose proof (max_len_even l (proj1 Hwf) 0 eq_refl) as Hev.
    assert (max_len 0 l < n + n mod 2) by (apply max_len_le; split; [zlia|done]).
    assert (max_len 0 l = n) by zlia. subst n. rewrite Zmod_odd, Hev in *. lia.
Qed.

(** *** [new_mem] *)
Section load.
Context {X : Type} `{!Outside X}.
Implicit Types s : mst X.
Notation MM := (M (mst X)).

(** The map of an image of [tc] text clicks and [totc] further clicks at
    [base], of which [dc] at the bottom are data and [sc] at the top stack. *)
Definition image (base tc dc sc totc : Z) : segs :=
  mk_segs (mk_map 0 base tc) (mk_map tc (base + tc) dc)
    (mk_map (tc + totc - sc) (base + tc + totc - sc) sc).

End load.

