(* ===== verification/MmEdges.v ===== *)
(** * Where the memory manager's arithmetic and guards give out

    Behaviours at the edges, each run on the definitions: an executable with
    a negative text size, a signal to everybody while a process waits to be
    collected, and the last call number. *)

From S2P Require Import Prelude MemAlloc KProc MmState MmProc MmExec MmTable MmDemo.

(** A segment of -65536 bytes is read 0 bytes at a time, for ever: the byte
    count is computed in a 16-bit [int]. *)
Theorem load_seg_never_ends {X} `{!Outside X} (fuel : nat) :
  (forall fd a x, fst (answer (ReadInto fd a 0) x) = [0]) ->
  forall fd ubuf (s : mst X), load_loop fuel fd ubuf (-65536) s = NoFuel.
Proof.
  intros Hr. induction fuel as [|fuel IH]; intros fd ubuf s; [done|].
  cbn [load_loop]. change (-65536 =? 0) with false. change (-65536 <? CHUNK) with true.
  change (s16 (-65536)) with 0. cbv beta iota zeta. unfold mbind, M_bind, ask. specialize (Hr fd ubuf (ext s)).
  destruct (answer (ReadInto fd ubuf 0) (ext s)) as [r x]. cbn [fst] in Hr. subst r. apply IH.
Qed.

(** The header check accepts a text of -256 bytes, and [new_mem] gives the
    process a text segment of 65535 clicks although it allocated 31. *)
Definition bad_header : list Z :=
  [4; 32; 3; 1; 0; 0; 0; 32; 255; 255; 255; 0; 0; 0; 2; 0; 0; 0; 1; 0; 0; 0; 0; 0; 0; 0; 32; 0; 0; 0; 0; 0].
Definition bad_world : Outside Z := fun e x =>
  match e with Read _ 32 => (32 :: bad_header, x + 1) | _ => demo_world e x end.

Theorem negative_text_accepted :
  wp (@read_header Z bad_world 3 1) (fun h s' => fst h = OK /\ z_text (snd h) = -256 /\
    wp (new_mem (z_text (snd h)) (z_data (snd h)) (z_bss (snd h)) 100 (z_tot (snd h)) : M (mst Z) Z) (fun r s2 =>
      r = OK /\ seg_T (mp_seg (MP 3 s2)) = mk_map 0 200 65535 /\
      hd (0, 0) (MemAlloc.data (mem s2) <$> [0%nat]) = (232, 768)) s') (demo 3).
Proof. by vm_compute. Qed.

(** A superuser's kill(-1) reaches processes that have exited already: the
    image of slot 4 is given back a second time. *)
Definition root_demo : mst Z := (demo 3) <| mtab ::= alter (fun p => p <| mp_effuid := SUPER_USER |>) 3%nat |>.
Definition xit4 (e : event) : bool := match e with SysXit _ 4 => true | _ => false end.
Theorem kill_all_frees_twice :
  wp (mm_exit 4 0;; do_kill (-1) 15 : M (mst Z) Z) (fun _ s' =>
    length (filter (fun e => xit4 e = true) (log s')) = 2%nat) root_demo.
Proof. by vm_compute. Qed.

(** Call number 69 passes the range check of the main loop, but the call
    table of the 68000 ends at 68. *)
Theorem last_call_is_null {X} `{!Outside X} (q : request) (s : mst X) : q_type q = 69 ->
  exists s', mm_turn q s = Panicked "call through a null pointer" s'.
Proof. intros E. unfold mm_turn, mbind, M_bind, modify. rewrite E. cbn. eexists. done. Qed.
