(* ===== verification/FsState.v ===== *)
(** * The file system's state: [src/fs/*.h]

    The tables of the file system (buffers, inodes, super blocks, open files,
    processes), its global variables and the message it is working on. A
    pointer into a table is a slot number, [None] where it may be nil. Blocks
    are lists of bytes, with the views that the union of [buf.h] gives of
    them. What the file system asks of the kernel, of the drivers and of the
    callers' memory are [frequest]s; the class [World] is the interface to
    whoever answers. *)

From S2P Require Import Prelude KProc.

(** ** Constants: [const.h], [minix/config.h], [limits.h], [errno.h] *)
Definition NR_BUFS : nat := 30.
Definition NR_BUF_HASH : Z := 32.
Definition BLOCK_SIZE : Z := 1024.
Definition NR_ZONE_NUMS : nat := 9.
Definition NR_FILPS : nat := 64.
Definition I_MAP_SLOTS : Z := 8.
Definition ZMAP_SLOTS : Z := 8.
Definition NR_INODES : nat := 32.
Definition NR_SUPERS : nat := 5.
Definition FPROCS : nat := 32.
Definition OPEN_MAX : Z := 20.
Definition NAME_MAX : nat := 14.
Definition PATH_MAX : nat := 255.
Definition LINK_MAX : Z := 127.
Definition M3_STRING : Z := 14.
Definition SUPER_MAGIC : Z := 4991.
Definition SU_UID : Z := 0.
Definition NO_DEV : Z := 65535.
Definition NO_BLOCK : Z := 0.
Definition NO_ZONE : Z := 0.
Definition NO_BIT : Z := 0.
Definition ROOT_INODE : Z := 1.
Definition SUPER_BLOCK : Z := 1.
Definition BYTE : Z := 255.
Definition MAX_P_LONG : Z := 2147483647.
Definition MAX_FILE_POS : Z := 2147483647.

(** The third argument of [get_block]. *)
Definition NORMAL : Z := 0.
Definition NO_READ : Z := 1.
Definition PREFETCH : Z := 2.

Definition READING : Z := 0.
Definition WRITING : Z := 1.
Definition LOOK_UP : Z := 0.
Definition ENTER : Z := 1.
Definition DELETE : Z := 2.

Definition ATIME : Z := 2.
Definition CTIME : Z := 4.
Definition MTIME : Z := 8.

(** Block types, with [ROBUST] off. *)
Definition WRITE_IMMED : Z := 64.
Definition ONE_SHOT : Z := 128.
Definition INODE_BLOCK : Z := 0.
Definition DIRECTORY_BLOCK : Z := 1.
Definition INDIRECT_BLOCK : Z := 2.
Definition I_MAP_BLOCK : Z := 3 + WRITE_IMMED + ONE_SHOT.
Definition ZMAP_BLOCK : Z := 4 + WRITE_IMMED + ONE_SHOT.
Definition ZUPER_BLOCK : Z := 5 + WRITE_IMMED + ONE_SHOT.
Definition FULL_DATA_BLOCK : Z := 6.
Definition PARTIAL_DATA_BLOCK : Z := 7.

(** Sizes derived from the layouts. *)
Definition INODE_SIZE : Z := 32.
Definition INODES_PER_BLOCK : Z := 32.
Definition DIR_ENTRY_SIZE : Z := 16.
Definition NR_DIR_ENTRIES : nat := 64.
Definition NR_DZONE_NUM : Z := 7.
Definition NR_INDIRECTS : Z := 512.
Definition INTS_PER_BLOCK : Z := 512.
Definition PIPE_SIZE : Z := 7168.

Definition I_TYPE : Z := 61440.
Definition I_REGULAR : Z := 32768.
Definition I_BLOCK_SPECIAL : Z := 24576.
Definition I_DIRECTORY : Z := 16384.
Definition I_CHAR_SPECIAL : Z := 8192.
Definition I_NAMED_PIPE : Z := 4096.
Definition ALL_MODES : Z := 3583.
Definition RWX_MODES : Z := 511.
Definition R_BIT : Z := 4.
Definition W_BIT : Z := 2.
Definition X_BIT : Z := 1.

Definition ERROR : Z := -99.
Definition EPERM : Z := -1.
Definition ENOENT : Z := -2.
Definition EINTR : Z := -4.
Definition ENXIO : Z := -6.
Definition EBADF : Z := -9.
Definition EAGAIN : Z := -11.
Definition EACCES : Z := -13.
Definition ENOTBLK : Z := -15.
Definition EBUSY : Z := -16.
Definition EEXIST : Z := -17.
Definition EXDEV : Z := -18.
Definition ENOTDIR : Z := -20.
Definition EISDIR : Z := -21.
Definition EINVAL : Z := -22.
Definition ENFILE : Z := -23.
Definition EMFILE : Z := -24.
Definition ENOTTY : Z := -25.
Definition EFBIG : Z := -27.
Definition ENOSPC : Z := -28.
Definition ESPIPE : Z := -29.
Definition EROFS : Z := -30.
Definition EMLINK : Z := -31.
Definition EPIPE : Z := -32.
Definition ENAMETOOLONG : Z := -36.
Definition ENOTEMPTY : Z := -39.
Definition ELOCKED : Z := -101.
Definition END_OF_FILE : Z := -104.
Definition SUSPEND : Z := -998.

(** ** Blocks: the views of the union in [buf.h], big-endian *)
Definition word_at (b : list Z) (w : nat) : Z :=
  Z.lor (Z.shiftl (b !!! (2 * w)%nat) 8) (b !!! (2 * w + 1)%nat).
Definition put_word (b : list Z) (w : nat) (v : Z) : list Z :=
  <[(2 * w + 1)%nat := u8 v]> (<[(2 * w)%nat := u8 (Z.shiftr v 8)]> b).
(** [n] bytes from offset [off], and their replacement. *)
Definition bytes_at (b : list Z) (off n : nat) : list Z := take n (drop off b).
Definition put_bytes (b : list Z) (off : nat) (v : list Z) : list Z :=
  take off b ++ v ++ drop (off + length v) b.
(** Big-endian numbers at a byte offset, and their bytes. *)
Definition half_at (b : list Z) (off : nat) : Z := Z.lor (Z.shiftl (b !!! off) 8) (b !!! (off + 1)%nat).
Definition long_at (b : list Z) (off : nat) : Z := Z.lor (Z.shiftl (half_at b off) 16) (half_at b (off + 2)).
Definition half_bytes (v : Z) : list Z := [u8 (Z.shiftr v 8); u8 v].
Definition long_bytes (v : Z) : list Z := half_bytes (Z.shiftr v 16) ++ half_bytes v.
Definition zero_data : list Z := replicate (Z.to_nat BLOCK_SIZE) 0.

(** ** The tables *)
Record buf := mk_buf {
  b_data : list Z;
  b_next : option nat;
  b_prev : option nat;
  b_hash : option nat;
  b_blocknr : Z;
  b_dev : Z;
  b_dirt : bool;
  b_count : Z;
}.
#[export] Instance buf_upd : Updatable buf := fun b =>
  mk_buf (b_data b) (b_next b) (b_prev b) (b_hash b) (b_blocknr b) (b_dev b) (b_dirt b) (b_count b).
Definition buf0 : buf := mk_buf [] None None None 0 0 false 0.
#[export] Instance buf_inh : Inhabited buf := populate buf0.

Record inode := mk_inode {
  i_mode : Z;
  i_uid : Z;
  i_size : Z;
  i_mtime : Z;
  i_gid : Z;
  i_nlinks : Z;
  i_zone : list Z;
  i_atime : Z;
  i_ctime : Z;
  i_dev : Z;
  i_num : Z;
  i_count : Z;
  i_dirt : bool;
  i_pipe : bool;
  i_mount : bool;
  i_seek : bool;
  i_update : Z;
}.
#[export] Instance inode_upd : Updatable inode := fun i =>
  mk_inode (i_mode i) (i_uid i) (i_size i) (i_mtime i) (i_gid i) (i_nlinks i) (i_zone i) (i_atime i) (i_ctime i)
    (i_dev i) (i_num i) (i_count i) (i_dirt i) (i_pipe i) (i_mount i) (i_seek i) (i_update i).
Definition inode0 : inode := mk_inode 0 0 0 0 0 0 (replicate NR_ZONE_NUMS 0) 0 0 0 0 0 false false false false 0.
#[export] Instance inode_inh : Inhabited inode := populate inode0.

Record super_block := mk_super {
  s_ninodes : Z;
  s_nzones : Z;
  s_imap_blocks : Z;
  s_zmap_blocks : Z;
  s_firstdatazone : Z;
  s_log_zone_size : Z;
  s_max_size : Z;
  s_magic : Z;
  s_imap : list (option nat);
  s_zmap : list (option nat);
  s_dev : Z;
  s_isup : option nat;
  s_imount : option nat;
  s_time : Z;
  s_rd_only : Z;
  s_dirt : bool;
}.
#[export] Instance super_upd : Updatable super_block := fun s =>
  mk_super (s_ninodes s) (s_nzones s) (s_imap_blocks s) (s_zmap_blocks s) (s_firstdatazone s) (s_log_zone_size s)
    (s_max_size s) (s_magic s) (s_imap s) (s_zmap s) (s_dev s) (s_isup s) (s_imount s) (s_time s) (s_rd_only s) (s_dirt s).
Definition super0 : super_block :=
  mk_super 0 0 0 0 0 0 0 0 (replicate 8 None) (replicate 8 None) 0 None None 0 0 false.
#[export] Instance super_inh : Inhabited super_block := populate super0.

Record filp := mk_filp {
  filp_mode : Z;
  filp_flags : Z;
  filp_count : Z;
  filp_ino : option nat;
  filp_pos : Z;
}.
#[export] Instance filp_upd : Updatable filp := fun f =>
  mk_filp (filp_mode f) (filp_flags f) (filp_count f) (filp_ino f) (filp_pos f).
Definition filp0 : filp := mk_filp 0 0 0 None 0.
#[export] Instance filp_inh : Inhabited filp := populate filp0.

Record fproc := mk_fproc {
  fp_umask : Z;
  fp_workdir : option nat;
  fp_rootdir : option nat;
  fp_filp : list (option nat);
  fp_realuid : Z;
  fp_effuid : Z;
  fp_realgid : Z;
  fp_effgid : Z;
  fs_tty : Z;
  fp_fd : Z;
  fp_buffer : Z;
  fp_nbytes : Z;
  fp_suspended : bool;
  fp_revived : bool;
  fp_task : Z;
  fp_pid : Z;
  fp_pgrp : Z;
}.
#[export] Instance fproc_upd : Updatable fproc := fun p =>
  mk_fproc (fp_umask p) (fp_workdir p) (fp_rootdir p) (fp_filp p) (fp_realuid p) (fp_effuid p) (fp_realgid p)
    (fp_effgid p) (fs_tty p) (fp_fd p) (fp_buffer p) (fp_nbytes p) (fp_suspended p) (fp_revived p) (fp_task p)
    (fp_pid p) (fp_pgrp p).
Definition fproc0 : fproc :=
  mk_fproc 0 None None (replicate (Z.to_nat OPEN_MAX) None) 0 0 0 0 0 0 0 0 false false 0 0 0.
#[export] Instance fproc_inh : Inhabited fproc := populate fproc0.

(** The request message; fields of different layouts that the code uses
    together for one call have one place. *)
Record fmsg := mk_fmsg {
  fm_i1 : Z;
  fm_i2 : Z;
  fm_i3 : Z;
  fm_p1 : Z;
  fm_p2 : Z;
  fm_l1 : Z;
  fm_l2 : Z;
  fm_ca1 : list Z;
}.
#[export] Instance fmsg_upd : Updatable fmsg := fun m =>
  mk_fmsg (fm_i1 m) (fm_i2 m) (fm_i3 m) (fm_p1 m) (fm_p2 m) (fm_l1 m) (fm_l2 m) (fm_ca1 m).

(** ** Requests to the outside *)
Record ioreq := mk_ioreq { io_position : Z; io_write : bool; io_data : list Z }.

(** A message to a driver ([m2]); the buffer is one of FS's own blocks, an
    address of a caller, or a vector of requests. *)
Inductive dbuf := NoBuf | Bytes (data : list Z) | UserBuf (addr : Z) | Vector (l : list ioreq).
Record dmsg := mk_dmsg {
  d_type : Z;
  d_device : Z;
  d_proc : Z;
  d_count : Z;
  d_position : Z;
  d_flags : Z;
  d_buf : dbuf;
}.

Inductive frequest :=
| SendRec (task : Z) (d : dmsg)
| Receive (task : Z)
| Reply (whom : Z) (words : list Z)
| UserCopy (to_user : bool) (seg usr vir bytes : Z) (data : list Z)
| GetTime
| SetTime (t : Z)
| SysTimes (p : Z)
| SysKill (p sig : Z)
| SysAbort.

(** What the kernel's send returns; the words of the reply message; blocks of
    data (one for each request of a vector). *)
Record fanswer := mk_ans { an_ret : Z; an_words : list Z; an_data : list (list Z) }.
Class World (X : Type) := world : frequest -> X -> fanswer * X.

(** ** The state *)
Record fst_ (X : Type) := mk_fst {
  bufs : list buf;
  buf_hash : list (option nat);
  front : option nat;
  rear : option nat;
  bufs_in_use : Z;
  inodes : list inode;
  supers : list super_block;
  filps : list filp;
  fprocs : list fproc;
  fp : nat;
  super_user : bool;
  fdont_reply : bool;
  susp_count : Z;
  reviving : Z;
  rdahedpos : Z;
  rdahed_inode : option nat;
  m_in : fmsg;
  fwho : Z;
  fs_call : Z;
  user_path : list Z;
  err_code : Z;
  rdwt_err : Z;
  reply_words : list Z;
  root_dev : Z;
  fext : X;
}.
Arguments mk_fst {X} _ _ _ _ _ _ _ _ _ _ _ _ _ _ _ _ _ _ _ _ _ _ _ _ _.
Arguments bufs {X} _.
Arguments buf_hash {X} _.
Arguments front {X} _.
Arguments rear {X} _.
Arguments bufs_in_use {X} _.
Arguments inodes {X} _.
Arguments supers {X} _.
Arguments filps {X} _.
Arguments fprocs {X} _.
Arguments fp {X} _.
Arguments super_user {X} _.
Arguments fdont_reply {X} _.
Arguments susp_count {X} _.
Arguments reviving {X} _.
Arguments rdahedpos {X} _.
Arguments rdahed_inode {X} _.
Arguments m_in {X} _.
Arguments fwho {X} _.
Arguments fs_call {X} _.
Arguments user_path {X} _.
Arguments err_code {X} _.
Arguments rdwt_err {X} _.
Arguments reply_words {X} _.
Arguments root_dev {X} _.
Arguments fext {X} _.
#[export] Instance fst_upd X : Updatable (fst_ X) := fun s =>
  mk_fst (bufs s) (buf_hash s) (front s) (rear s) (bufs_in_use s) (inodes s) (supers s) (filps s) (fprocs s) (fp s)
    (super_user s) (fdont_reply s) (susp_count s) (reviving s) (rdahedpos s) (rdahed_inode s) (m_in s) (fwho s)
    (fs_call s) (user_path s) (err_code s) (rdwt_err s) (reply_words s) (root_dev s) (fext s).

Section ops.
Context {X : Type} `{!World X}.
Notation FS := (M (fst_ X)).

Definition request (q : frequest) : FS fanswer := fun s =>
  let '(a, x) := world q (fext s) in Done a (s <| fext := x |>).

(** Reading and updating table entries. *)
Definition B (i : nat) (s : fst_ X) : buf := bufs s !!! i.
Definition INO (i : nat) (s : fst_ X) : inode := inodes s !!! i.
Definition SB (i : nat) (s : fst_ X) : super_block := supers s !!! i.
Definition FILP (i : nat) (s : fst_ X) : filp := filps s !!! i.
Definition FP (i : nat) (s : fst_ X) : fproc := fprocs s !!! i.
Definition upd_buf (i : nat) (f : buf -> buf) : FS unit := modify (fun s => s <| bufs ::= alter f i |>).
Definition upd_ino (i : nat) (f : inode -> inode) : FS unit := modify (fun s => s <| inodes ::= alter f i |>).
Definition upd_super (i : nat) (f : super_block -> super_block) : FS unit := modify (fun s => s <| supers ::= alter f i |>).
Definition upd_filp (i : nat) (f : filp -> filp) : FS unit := modify (fun s => s <| filps ::= alter f i |>).
Definition upd_fproc (i : nat) (f : fproc -> fproc) : FS unit := modify (fun s => s <| fprocs ::= alter f i |>).
Definition dirty_buf (i : nat) : FS unit := upd_buf i (fun b => b <| b_dirt := true |>).
Definition dirty_ino (i : nat) : FS unit := upd_ino i (fun r => r <| i_dirt := true |>).
Definition set_err (e : Z) : FS unit := modify (fun s => s <| err_code := e |>).

(** A pointer about to be followed. *)
Definition deref {A} (p : option A) : FS A := match p with Some i => mret i | None => panic "null pointer" end.
End ops.

(** ** Addresses

    Pointers reach the disk in one place: [rw_super] copies the whole of
    [struct super_block]. Where the tables lie is up to the linker.
    [do_mknod] calls [new_node] without its last argument: what [new_node]
    finds there is up to the compiler ([missing_arg] of what was pushed
    before). *)
Class Layout := { buf_at : nat -> Z; inode_at : nat -> Z; missing_arg : Z -> Z }.
