(* ===== verification/FsDev.v ===== *)
(** * Devices, suspension and replies: [src/fs/device.c], [dmap] of
    [table.c], [reply] of [main.c], [suspend] and [revive] of [pipe.c]

    The driver tasks answer through [World]. [panic] of [utility.c] first
    syncs the disks; the model stops there. *)

From S2P Require Import Prelude KProc FsState.

Definition XPIPE : Z := -10.
Definition XOPEN : Z := -11.
Definition MEM : Z := -4.
Definition FLOPPY : Z := -5.
Definition WINCHESTER : Z := -6.
Definition PRINTER : Z := -7.
Definition TTY : Z := -9.
Definition DISK_READ : Z := 3.
Definition DISK_WRITE : Z := 4.
Definition SCATTERED_IO : Z := 6.
Definition TTY_SETPGRP : Z := 6.
Definition CANCEL : Z := 0.
Definition NULL_DEV : Z := 3.

(** ** [dmap] (table.c) *)
Definition max_major : Z := 7.
Definition dmap_task (major : Z) : Z :=
  match major with 1 => MEM | 2 => FLOPPY | 3 => WINCHESTER | 4 | 5 => TTY | 6 => PRINTER | _ => 0 end.

Definition major_of (dev : Z) : Z := Z.land (Z.shiftr dev 8) BYTE.
Definition minor_of (dev : Z) : Z := Z.land dev BYTE.

(** Fields of a task's reply. *)
Definition rep_proc (a : fanswer) : Z := an_words a !!! 1%nat.
Definition rep_status (a : fanswer) : Z := an_words a !!! 2%nat.

Section dev.
Context {X : Type} `{!World X}.
Notation FS := (M (fst_ X)).

(** [reply]: sends may fail, which is ignored. *)
Definition reply (whom result : Z) : FS unit :=
  w ← gets reply_words;
  request (Reply whom (result :: w));; mret tt.

Definition suspend (task : Z) : FS unit :=
  when ((task =? XPIPE) || (task =? XOPEN)) (modify (fun s => s <| susp_count ::= fun n => s16 (n + 1) |>));;
  m ← gets m_in;
  c ← gets fs_call;
  p ← gets fp;
  upd_fproc p (fun q => q <| fp_suspended := true |> <| fp_fd := s16 (Z.lor (Z.shiftl (fm_i1 m) 8) c) |>
                          <| fp_buffer := fm_p1 m |> <| fp_nbytes := fm_i2 m |> <| fp_task := s8 (- task) |>);;
  modify (fun s => s <| fdont_reply := true |>).

Definition revive (proc_nr bytes : Z) : FS unit :=
  if (proc_nr <? 0) || (Z.of_nat FPROCS <=? proc_nr) then panic "revive err" else
  let i := Z.to_nat proc_nr in
  p ← gets (FP i);
  if negb (fp_suspended p) || fp_revived p then mret tt else
  let task := - fp_task p in
  if task =? XPIPE then
    upd_fproc i (fun q => q <| fp_revived := true |>);;
    modify (fun s => s <| reviving ::= fun n => s16 (n + 1) |>)
  else
    upd_fproc i (fun q => q <| fp_suspended := false |>);;
    if task =? XOPEN then reply proc_nr (Z.shiftr (fp_fd p) 8)
    else
      upd_fproc i (fun q => q <| fp_nbytes := bytes |>);;
      reply proc_nr bytes.

(** [find_dev]: the major device and its task. *)
Definition find_dev (dev : Z) : FS (Z * Z) :=
  let major := major_of dev in
  if (major =? 0) || (max_major <=? major) then panic "bad major dev"
  else mret (major, dmap_task major).

(** [rw_dev] with a bound on the REVIVE messages taken in between. *)
Fixpoint rw_dev (fuel : nat) (task_nr : Z) (mess : dmsg) : FS fanswer :=
  match fuel with
  | O => nofuel
  | S fuel' =>
      a ← request (SendRec task_nr mess);
      if an_ret a =? ELOCKED then
        r ← request (Receive task_nr);
        if negb (an_ret r =? OK) then panic "rw_dev: can't receive" else
        if (d_type mess =? CANCEL) && (rep_proc r =? d_proc mess) then mret (mk_ans OK [] []) else
        revive (rep_proc r) (rep_status r);;
        rw_dev fuel' task_nr mess
      else if negb (an_ret a =? OK) then panic "rw_dev: can't send"
      else mret a
  end.
Definition rw_fuel : nat := S FPROCS.

Definition with_device (dev : Z) (m : dmsg) : dmsg :=
  mk_dmsg (d_type m) dev (d_proc m) (d_count m) (d_position m) (d_flags m) (d_buf m).

Definition rw_dev2 (mess : dmsg) : FS fanswer :=
  p ← gets (fun s => FP (fp s) s);
  if fs_tty p =? 0 then rw_dev rw_fuel MEM (with_device NULL_DEV mess)
  else rw_dev rw_fuel (dmap_task (major_of (fs_tty p))) (with_device (minor_of (fs_tty p)) mess).

(** The read/write entry of [dmap], called. *)
Definition dmap_rw (major task : Z) (mess : dmsg) : FS fanswer :=
  if major =? 5 then rw_dev2 mess else rw_dev rw_fuel task mess.

Definition dev_io (rw_flag nonblock dev pos bytes proc : Z) (buff : dbuf) : FS fanswer :=
  mt ← find_dev dev;
  let '(major, task) := mt in
  a ← dmap_rw major task
        (mk_dmsg (if rw_flag =? READING then DISK_READ else if rw_flag =? WRITING then DISK_WRITE else rw_flag)
           (minor_of dev) proc bytes pos nonblock buff);
  when (rep_status a =? SUSPEND) (suspend task);;
  mret a.

(** The controlling terminal. *)
Definition tty_users (tty : Z) : FS bool :=
  gets (fun s => existsb (fun p => fs_tty p =? tty) (drop 3 (fprocs s))).

Definition tty_open (task dev : Z) : FS Z :=
  i ← gets fp;
  p ← gets (FP i);
  if negb (fp_pid p =? fp_pgrp p) then mret OK else
  if negb (fs_tty p =? 0) then mret OK else
  u ← tty_users dev;
  if u : bool then mret OK else
  upd_fproc i (fun q => q <| fs_tty := dev |>);;
  w ← gets fwho;
  a ← dmap_rw (major_of dev) task (mk_dmsg TTY_SETPGRP (minor_of dev) w w 0 0 NoBuf);
  mret (rep_status a).

Definition dev_open (rip : nat) (mod_ nonblock : Z) : FS Z :=
  r ← gets (INO rip);
  if 1 <? i_count r then mret OK else
  let dev := i_zone r !!! 0%nat in
  mt ← find_dev dev;
  let '(major, task) := mt in
  if major =? 4 then tty_open task dev else mret OK.

(** Every [dmap_close] is [no_call]. *)
Definition dev_close (rip : nat) : FS unit :=
  r ← gets (INO rip);
  if 1 <? i_count r then mret tt else
  find_dev (i_zone r !!! 0%nat);; mret tt.

Definition tty_exit : FS Z :=
  p ← gets (fun s => FP (fp s) s);
  let ttydev := fs_tty p in
  modify (fun s => s <| fprocs ::= imap (fun i q => if (3 <=? i)%nat && (fs_tty q =? ttydev) then q <| fs_tty := 0 |> else q) |>);;
  mt ← find_dev ttydev;
  let '(major, task) := mt in
  w ← gets fwho;
  dmap_rw major task (mk_dmsg TTY_SETPGRP (minor_of ttydev) w 0 0 0 NoBuf);;
  mret OK.
End dev.
