(* ===== verification/FsCache.v ===== *)
(** * The block cache: [src/fs/cache.c], [buf_pool] of [main.c]

    [get_block] and [put_block] on the LRU list and the hash chains, the
    transfers to the drivers one block at a time and scattered, and the Shell
    sort of the scattered requests. Searches along chains have one step of
    fuel for each buffer and one to see the end. *)

From S2P Require Import Prelude KProc FsState FsDev.

Definition chain_fuel : nat := S NR_BUFS.
Definition hash_of (block : Z) : nat := Z.to_nat (Z.land block (NR_BUF_HASH - 1)).

(** ** The Shell sort of [rw_scattered], on an array of buffers with key
    [key]. [sift] is the inner loop, [shell_pass] the loop on [j]. *)
Section sort.
Context (key : nat -> Z).

Definition swap (i j : nat) (q : list nat) : list nat := <[i := q !!! j]> (<[j := q !!! i]> q).

Fixpoint sift (fuel i gap : nat) (q : list nat) : list nat :=
  match fuel with
  | O => q
  | S fuel' =>
      if key (q !!! (i + gap)%nat) <? key (q !!! i) then
        let q := swap i (i + gap) q in
        if (gap <=? i)%nat then sift fuel' (i - gap) gap q else q
      else q
  end.

(** From [j] on, [n] elements. *)
Fixpoint shell_pass (n j gap : nat) (q : list nat) : list nat :=
  match n with
  | O => q
  | S n' => shell_pass n' (S j) gap (sift (S j) (j - gap) gap q)
  end.

Fixpoint first_gap (fuel gap size : nat) : nat :=
  match fuel with
  | O => gap
  | S fuel' => let gap := (3 * gap + 1)%nat in if (gap <=? size)%nat then first_gap fuel' gap size else gap
  end.

Fixpoint shell_loop (fuel gap : nat) (q : list nat) : list nat :=
  match fuel with
  | O => q
  | S fuel' =>
      if (gap =? 1)%nat then q else
      let gap := (gap / 3)%nat in
      shell_loop fuel' gap (shell_pass (length q - gap) gap gap q)
  end.

Definition shell_sort (q : list nat) : list nat :=
  shell_loop (S (length q)) (first_gap (S (length q)) 1 (length q)) q.
End sort.

Section cache.
Context {X : Type} `{!World X}.
Notation FS := (M (fst_ X)).

(** ** Transfers *)
Definition rw_block (bp : nat) (rw_flag : Z) : FS unit :=
  b ← gets (B bp);
  let dev := b_dev b in
  when (negb (dev =? NO_DEV))
    (a ← dev_io rw_flag 0 dev (s32 (b_blocknr b * BLOCK_SIZE)) BLOCK_SIZE FS_PROC_NR
           (if rw_flag =? READING then NoBuf else Bytes (b_data b));
     when (rw_flag =? READING) (upd_buf bp (fun b => b <| b_data := an_data a !!! 0%nat |>));;
     let r := rep_status a in
     when (negb (r =? BLOCK_SIZE))
       (let r := if 0 <=? r then END_OF_FILE else r in
        upd_buf bp (fun b => b <| b_dev := NO_DEV |>);;
        when (rw_flag =? READING) (modify (fun s => s <| rdwt_err := r |>))));;
  upd_buf bp (fun b => b <| b_dirt := false |>).

(** ** [put_block]: out of the LRU chain, and in again at the front or rear *)
Definition lru_unlink (bp : nat) : FS unit :=
  b ← gets (B bp);
  let next_ptr := b_next b in
  let prev_ptr := b_prev b in
  match prev_ptr with
  | Some p => upd_buf p (fun b => b <| b_next := next_ptr |>)
  | None => modify (fun s => s <| front := next_ptr |>)
  end;;
  match next_ptr with
  | Some n => upd_buf n (fun b => b <| b_prev := prev_ptr |>)
  | None => modify (fun s => s <| rear := prev_ptr |>)
  end.

Definition lru_front (bp : nat) : FS unit :=
  f ← gets front;
  upd_buf bp (fun b => b <| b_prev := None |>);;
  upd_buf bp (fun b => b <| b_next := f |>);;
  match f with
  | None => modify (fun s => s <| rear := Some bp |>)
  | Some f => upd_buf f (fun b => b <| b_prev := Some bp |>)
  end;;
  modify (fun s => s <| front := Some bp |>).

Definition lru_rear (bp : nat) : FS unit :=
  r ← gets rear;
  upd_buf bp (fun b => b <| b_prev := r |>);;
  upd_buf bp (fun b => b <| b_next := None |>);;
  match r with
  | None => modify (fun s => s <| front := Some bp |>)
  | Some r => upd_buf r (fun b => b <| b_next := Some bp |>)
  end;;
  modify (fun s => s <| rear := Some bp |>).

Definition put_block (bp : option nat) (block_type : Z) : FS unit :=
  match bp with
  | None => mret tt
  | Some bp =>
      upd_buf bp (fun b => b <| b_count ::= fun c => s8 (c - 1) |>);;
      b ← gets (B bp);
      if negb (b_count b =? 0) then mret tt else
      modify (fun s => s <| bufs_in_use ::= fun n => s16 (n - 1) |>);;
      lru_unlink bp;;
      (if tst block_type ONE_SHOT then lru_front bp else lru_rear bp);;
      b ← gets (B bp);
      when (tst block_type WRITE_IMMED && b_dirt b && negb (b_dev b =? NO_DEV)) (rw_block bp WRITING);;
      when (block_type =? ZUPER_BLOCK) (upd_buf bp (fun b => b <| b_dev := NO_DEV |>))
  end.

(** ** [rw_scattered]: the words of the driver's answer after the six of the
    message are what is left of each request. *)
Definition residual (a : fanswer) (i : nat) : Z := an_words a !!! (6 + i)%nat.

Fixpoint harvest (dev : Z) (a : fanswer) (rw_flag : Z) (i : nat) (q : list nat) : FS unit :=
  match q with
  | [] => mret tt
  | bp :: q' =>
      (if rw_flag =? READING then
         upd_buf bp (fun b => b <| b_data := an_data a !!! i |>);;
         when (residual a i =? 0) (upd_buf bp (fun b => b <| b_dev := dev |>));;
         put_block (Some bp) PARTIAL_DATA_BLOCK
       else
         when (negb (residual a i =? 0)) (upd_buf bp (fun b => b <| b_dev := NO_DEV |>));;
         upd_buf bp (fun b => b <| b_dirt := false |>));;
      harvest dev a rw_flag (S i) q'
  end.

Definition rw_scattered (dev : Z) (bufq : list nat) (rw_flag : Z) : FS unit :=
  let bufqsize := length bufq in
  if (bufqsize =? 0)%nat then mret tt else
  if (NR_BUFS <? bufqsize)%nat then panic "Too much scattered i/o" else
  t ← gets bufs;
  let q := shell_sort (fun i => b_blocknr (t !!! i)) bufq in
  let iovec := (fun i => let b := t !!! i in
    mk_ioreq (s32 (b_blocknr b * BLOCK_SIZE)) (rw_flag =? WRITING) (if rw_flag =? WRITING then b_data b else [])) <$> q in
  a ← dev_io SCATTERED_IO 0 dev 0 (Z.of_nat bufqsize) FS_PROC_NR (Vector iovec);
  harvest dev a rw_flag 0 q.

Definition flushall (dev : Z) : FS unit :=
  t ← gets bufs;
  rw_scattered dev (filter (fun i => b_dirt (t !!! i) && (b_dev (t !!! i) =? dev)) (seq 0 (length t))) WRITING.

(** ** [get_block] *)
Fixpoint hash_find (fuel : nat) (bp : option nat) (dev block : Z) : FS (option nat) :=
  match fuel with
  | O => nofuel
  | S fuel' =>
      match bp with
      | None => mret None
      | Some i =>
          b ← gets (B i);
          if (b_blocknr b =? block) && (b_dev b =? dev) then mret (Some i)
          else hash_find fuel' (b_hash b) dev block
      end
  end.

(** The oldest buffer that is not in use. *)
Fixpoint lru_find (fuel : nat) (bp : nat) : FS nat :=
  match fuel with
  | O => nofuel
  | S fuel' =>
      b ← gets (B bp);
      if negb (b_count b =? 0) then
        match b_next b with
        | None => panic "No free buffer"
        | Some n => lru_find fuel' n
        end
      else mret bp
  end.

(** Looking along a hash chain for the predecessor of [bp]. *)
Fixpoint unhash_loop (fuel prev_ptr bp : nat) : FS unit :=
  match fuel with
  | O => nofuel
  | S fuel' =>
      p ← gets (B prev_ptr);
      match b_hash p with
      | None => mret tt
      | Some n =>
          if (n =? bp)%nat then
            h ← gets (fun s => b_hash (B bp s));
            upd_buf prev_ptr (fun b => b <| b_hash := h |>)
          else unhash_loop fuel' n bp
      end
  end.

Definition unhash (bp : nat) : FS unit :=
  b ← gets (B bp);
  let h := hash_of (b_blocknr b) in
  prev_ptr ← gets (fun s => buf_hash s !!! h);
  match prev_ptr with
  | None => panic "null pointer in a hash chain"
  | Some p =>
      if (p =? bp)%nat then modify (fun s => s <| buf_hash ::= <[h := b_hash b]> |>)
      else unhash_loop chain_fuel p bp
  end.

(** The second half of [get_block]: buffer [bp] gets the new block. *)
Definition take_buf (bp : nat) (dev block only_search : Z) : FS nat :=
  modify (fun s => s <| bufs_in_use ::= fun n => s16 (n + 1) |>);;
  unhash bp;;
  b ← gets (B bp);
  when (negb (b_dev b =? NO_DEV) && b_dirt b) (flushall (b_dev b));;
  upd_buf bp (fun b => b <| b_dev := if only_search =? PREFETCH then NO_DEV else dev |>);;
  upd_buf bp (fun b => b <| b_blocknr := block |>);;
  upd_buf bp (fun b => b <| b_count ::= fun c => s8 (c + 1) |>);;
  h ← gets (fun s => buf_hash s !!! hash_of block);
  upd_buf bp (fun b => b <| b_hash := h |>);;
  modify (fun s => s <| buf_hash ::= <[hash_of block := Some bp]> |>);;
  when (negb (dev =? NO_DEV) && (only_search =? NORMAL)) (rw_block bp READING);;
  mret bp.

Definition get_block (dev block only_search : Z) : FS nat :=
  hit ← (if negb (dev =? NO_DEV) then
           p ← gets (fun s => buf_hash s !!! hash_of block);
           hash_find chain_fuel p dev block
         else mret None);
  match hit with
  | Some bp =>
      b ← gets (B bp);
      when (b_count b =? 0) (modify (fun s => s <| bufs_in_use ::= fun n => s16 (n + 1) |>));;
      upd_buf bp (fun b => b <| b_count ::= fun c => s8 (c + 1) |>);;
      mret bp
  | None =>
      n ← gets bufs_in_use;
      if n =? Z.of_nat NR_BUFS then panic "All buffers in use" else
      f ← gets front;
      match f with
      | None => panic "null pointer: no buffers"
      | Some f =>
          bp ← lru_find chain_fuel f;
          take_buf bp dev block only_search
      end
  end.

(** ** [invalidate] and [buf_pool] *)
Definition invalidate (device : Z) : FS unit :=
  modify (fun s => s <| bufs ::= fmap (fun b => if b_dev b =? device then b <| b_dev := NO_DEV |> else b) |>).

Definition buf_pool : FS unit :=
  modify (fun s => s <| bufs_in_use := 0 |>);;
  modify (fun s => s <| front := Some 0%nat |>);;
  modify (fun s => s <| rear := Some (NR_BUFS - 1)%nat |>);;
  modify (fun s => s <| bufs ::= imap (fun i b =>
    b <| b_blocknr := NO_BLOCK |> <| b_dev := NO_DEV |>
      <| b_next := if (S i <? NR_BUFS)%nat then Some (S i) else None |>
      <| b_prev := if (i =? 0)%nat then None else Some (i - 1)%nat |>) |>);;
  modify (fun s => s <| bufs ::= fmap (fun b => b <| b_hash := b_next b |>) |>);;
  f ← gets front;
  modify (fun s => s <| buf_hash ::= <[hash_of NO_BLOCK := f]> |>).
End cache.
