(* ===== verification/FsSort.v ===== *)
(** * The Shell sort of scattered requests

    [shell_sort] of [rw_scattered] (cache.c) permutes the buffers into
    ascending key order: every pass permutes, the last one (gap 1) is an
    insertion sort, and the gaps do reach 1 within the loop bounds. *)

From stdpp Require Import sorting.
From S2P Require Import Prelude FsState FsDev FsCache.

Section sort.
Context (key : nat -> Z).
Implicit Types (q p r l : list nat) (i j gap n : nat).
Notation R := (fun a b => key a <= key b).

(** *** Every pass is a permutation *)
Lemma swap_perm i j q : (i < length q)%nat -> (j < length q)%nat -> swap i j q ≡ₚ q.
Proof.
  intros [a Ha]%lookup_lt_is_Some [b Hb]%lookup_lt_is_Some. unfold swap.
  rewrite (list_lookup_total_correct _ _ _ Ha), (list_lookup_total_correct _ _ _ Hb).
  by apply Permutation_insert_swap.
Qed.
Lemma swap_length i j q : length (swap i j q) = length q.
Proof. unfold swap. by rewrite !length_insert. Qed.

Lemma sift_perm gap fuel : forall i q, (i + gap < length q)%nat -> sift key fuel i gap q ≡ₚ q.
Proof.
  induction fuel as [|fuel IH]; intros i q Hi; [done|]. cbn [sift]. destruct (_ <? _); [|done].
  pose proof (swap_perm i (i + gap) q ltac:(lia) Hi) as Hs.
  destruct (_ <=? _)%nat eqn:E; [|done]. apply Nat.leb_le in E. rewrite IH; [done|]. rewrite swap_length. lia.
Qed.

Lemma pass_perm gap n : forall j q, (gap <= j)%nat -> (j + n <= length q)%nat -> shell_pass key n j gap q ≡ₚ q.
Proof.
  induction n as [|n IH]; intros j q Hg Hj; [done|]. cbn [shell_pass].
  pose proof (sift_perm gap (S j) (j - gap) q ltac:(lia)) as Hs.
  rewrite IH; [done|lia|]. rewrite (Permutation_length Hs). lia.
Qed.

Lemma loop_perm fuel : forall gap q, shell_loop key fuel gap q ≡ₚ q.
Proof.
  induction fuel as [|fuel IH]; intros gap q; [done|]. cbn [shell_loop]. destruct (_ =? _)%nat; [done|].
  rewrite IH. destruct (decide (gap / 3 <= length q)%nat); [by rewrite pass_perm by lia|].
  by replace (length q - gap / 3)%nat with 0%nat by lia.
Qed.

(** *** The last pass sorts *)
Lemma swap_adj p a x r : swap (length p) (length p + 1) (p ++ a :: x :: r) = p ++ x :: a :: r.
Proof.
  unfold swap.
  rewrite (list_lookup_total_middle p (x :: r) a (length p)) by done.
  assert ((p ++ a :: x :: r) !!! (length p + 1)%nat = x) as ->.
  { rewrite lookup_total_app_r by lia. by replace (length p + 1 - length p)%nat with 1%nat by lia. }
  rewrite insert_app_r. cbn. rewrite insert_app_r_alt by lia.
  by replace (length p - length p)%nat with 0%nat by lia.
Qed.

Lemma sift_insert p : forall x r fuel, p <> [] -> (length p <= fuel)%nat -> StronglySorted R p ->
  exists p', sift key fuel (length p - 1) 1 (p ++ x :: r) = p' ++ r /\ p' ≡ₚ x :: p /\ StronglySorted R p'.
Proof.
  induction p as [|a p IH] using rev_ind; intros x r fuel Hne Hf Hs; [done|].
  rewrite length_app in Hf |- *. cbn [length] in *. replace (length p + 1 - 1)%nat with (length p) by lia.
  destruct fuel as [|fuel]; [lia|]. cbn [sift]. rewrite <- app_assoc. cbn [app].
  assert ((p ++ a :: x :: r) !!! length p = a) as -> by (by apply (list_lookup_total_middle p (x :: r) a)).
  assert ((p ++ a :: x :: r) !!! (length p + 1)%nat = x) as ->.
  { rewrite lookup_total_app_r by lia. by replace (length p + 1 - length p)%nat with 1%nat by lia. }
  destruct (Z.ltb_spec (key x) (key a)) as [Hlt|Hge].
  - rewrite swap_adj. apply StronglySorted_app in Hs as (Hpa & Hp & _).
    destruct (Nat.leb_spec 1 (length p)) as [Hl|Hl].
    + destruct (IH x (a :: r) fuel) as (p' & -> & Hperm & Hsort); [intros ->; cbn in Hl; lia|lia|done|].
      exists (p' ++ [a]). split_and!; [by rewrite <- app_assoc|by rewrite Hperm|].
      apply StronglySorted_app_2; [|done|repeat constructor].
      intros x1 x2 H1 ->%list_elem_of_singleton. rewrite Hperm in H1. apply elem_of_cons in H1 as [->|H1]; [lia|].
      apply Hpa; [done|set_solver].
    + destruct p; [|cbn in Hl; lia]. exists [x; a]. split_and!; [done|done|].
      apply StronglySorted_cons. split; [|repeat constructor]. repeat constructor. lia.
  - exists ((p ++ [a]) ++ [x]). split_and!; [by rewrite <- !app_assoc|by rewrite (Permutation_app_comm (p ++ [a]) [x])|].
    apply StronglySorted_app_2; [|done|repeat constructor].
    intros x1 x2 H1 ->%list_elem_of_singleton. apply elem_of_app in H1 as [H1| ->%list_elem_of_singleton]; [|done].
    apply StronglySorted_app in Hs as (Hpa & _ & _). transitivity (key a); [|done]. apply Hpa; [done|set_solver].
Qed.

Lemma pass_sorts r : forall p, p <> [] -> StronglySorted R p ->
  StronglySorted R (shell_pass key (length r) (length p) 1 (p ++ r)).
Proof.
  induction r as [|x r IH]; intros p Hne Hs; [by rewrite app_nil_r|]. cbn [shell_pass length].
  destruct (sift_insert p x r (S (length p)) Hne) as (p' & -> & Hperm & Hsort); [lia|done|].
  replace (S (length p)) with (length p') by (by rewrite Hperm). apply IH; [|done].
  intros ->. by apply Permutation_nil_cons in Hperm.
Qed.

Lemma sort_pass q : StronglySorted R (shell_pass key (length q - 1) 1 1 q).
Proof.
  destruct q as [|a q]; [constructor|]. cbn [length]. replace (S (length q) - 1)%nat with (length q) by lia.
  change 1%nat with (length [a]) at 1. change (a :: q) with ([a] ++ q). apply pass_sorts; [done|repeat constructor].
Qed.

(** *** The gaps *)
Fixpoint gap_of (k : nat) : nat := match k with O => 1 | S k' => 3 * gap_of k' + 1 end.
Lemma gap_div k : (gap_of (S k) / 3 = gap_of k)%nat.
Proof. cbn [gap_of]. rewrite Nat.mul_comm, Nat.div_add_l by lia. cbn. lia. Qed.
Lemma gap_big k : (k < gap_of k)%nat.
Proof. induction k as [|k IH]; cbn [gap_of]; lia. Qed.

Lemma first_gap_of size : forall fuel k, fuel <> 0%nat -> exists k', first_gap fuel (gap_of k) size = gap_of k' /\
  (k < k')%nat /\ (k' = S k \/ gap_of (k' - 1) <= size)%nat.
Proof.
  induction fuel as [|fuel IH]; intros k Hf; [done|]. cbn [first_gap].
  change (3 * gap_of k + 1)%nat with (gap_of (S k)). destruct (Nat.leb_spec (gap_of (S k)) size) as [Hle|Hgt].
  - destruct fuel as [|fuel]; [exists (S k); cbn [first_gap]; split_and!; [done|lia|by left]|].
    destruct (IH (S k) ltac:(done)) as (k' & -> & Hk & Hor). exists k'. split_and!; [done|lia|].
    right. destruct Hor as [->|?]; [|done]. replace (S (S k) - 1)%nat with (S k) by lia. done.
  - exists (S k). split_and!; [done|lia|by left].
Qed.

Lemma loop_sorts k : forall fuel q, (0 < k)%nat -> (k < fuel)%nat -> StronglySorted R (shell_loop key fuel (gap_of k) q).
Proof.
  induction k as [|k IH]; intros fuel q Hk Hf; [lia|]. destruct fuel as [|fuel]; [lia|]. cbn [shell_loop].
  destruct (Nat.eqb_spec (gap_of (S k)) 1) as [E|_]; [cbn [gap_of] in E; pose proof (gap_big k); lia|].
  rewrite gap_div. destruct (decide (k = 0)%nat) as [->|Hne].
  - cbn [gap_of]. destruct fuel as [|fuel]; [lia|]. cbn [shell_loop]. apply sort_pass.
  - apply IH; lia.
Qed.

Lemma shell_sort_perm q : shell_sort key q ≡ₚ q.
Proof. apply loop_perm. Qed.
Lemma shell_sort_sorted q : StronglySorted R (shell_sort key q).
Proof.
  destruct q as [|a q']; [constructor|]. set (q := a :: q'). unfold shell_sort.
  destruct (first_gap_of (length q) (S (length q)) 0 ltac:(done)) as (k & E & Hk & Hor).
  change (gap_of 0) with 1%nat in E. rewrite E. apply loop_sorts; [done|].
  destruct Hor as [->|Hle]; [cbn; lia|]. pose proof (gap_big (k - 1)). lia.
Qed.

(** The Shell sort that [rw_scattered] runs on its requests ends, for
    every number of requests, with the same requests in ascending order of
    their block numbers: the gap sequence 1, 4, 13, ... does come down to 1,
    and no request is lost or duplicated by the exchanges. *)
Theorem shell_sort_correct q : shell_sort key q ≡ₚ q /\ StronglySorted R (shell_sort key q) /\
  length (shell_sort key q) = length q.
Proof.
  split_and!; [apply shell_sort_perm|apply shell_sort_sorted|apply Permutation_length, shell_sort_perm].
Qed.
End sort.
