(* ===== verification/FsDisk.v ===== *)
(** * Disks, as the file system sees them

    The interface between the block cache and the drivers: the class [Disk]
    says what a driver promises about the contents of its blocks. Reads may
    fail; writes are assumed to succeed. *)

From S2P Require Import Prelude KProc FsState FsDev FsCache.

(** A block device: the memory, floppy and hard disk drivers. *)
Definition blockdev (dev : Z) : Prop := 0 <= dev < NO_DEV /\ 1 <= major_of dev <= 3.
Definition blockno (b : Z) : Prop := 0 <= b < 65536.

Definition read_msg (dev blk : Z) : dmsg :=
  mk_dmsg DISK_READ (minor_of dev) FS_PROC_NR BLOCK_SIZE (blk * BLOCK_SIZE) 0 NoBuf.
Definition write_msg (dev blk : Z) (data : list Z) : dmsg :=
  mk_dmsg DISK_WRITE (minor_of dev) FS_PROC_NR BLOCK_SIZE (blk * BLOCK_SIZE) 0 (Bytes data).
Definition vector_msg (dev : Z) (l : list (Z * list Z)) : dmsg :=
  mk_dmsg SCATTERED_IO (minor_of dev) FS_PROC_NR (Z.of_nat (length l)) 0 0
    (Vector ((fun r => mk_ioreq (fst r * BLOCK_SIZE) true (snd r)) <$> l)).

(** The contents after writing a block, and a list of blocks. *)
Definition write_one (dev blk : Z) (data : list Z) (f : Z -> Z -> list Z) (d b : Z) : list Z :=
  if decide (d = dev /\ b = blk) then data else f d b.
Fixpoint write_all (dev : Z) (l : list (Z * list Z)) (f : Z -> Z -> list Z) : Z -> Z -> list Z :=
  match l with
  | [] => f
  | (blk, data) :: l' => write_all dev l' (write_one dev blk data f)
  end.

Class Disk (X : Type) `{!World X} := {
  blocks : X -> Z -> Z -> list Z;
  disk_size x d b : length (blocks x d b) = Z.to_nat BLOCK_SIZE;
  disk_read x dev blk a x' : blockdev dev -> blockno blk ->
    world (SendRec (dmap_task (major_of dev)) (read_msg dev blk)) x = (a, x') ->
    an_ret a = OK /\ rep_status a <> SUSPEND /\ length (an_data a !!! 0%nat) = Z.to_nat BLOCK_SIZE /\
    (forall d b, blocks x' d b = blocks x d b) /\
    (rep_status a = BLOCK_SIZE -> an_data a !!! 0%nat = blocks x dev blk);
  disk_write x dev blk data a x' : blockdev dev -> blockno blk -> length data = Z.to_nat BLOCK_SIZE ->
    world (SendRec (dmap_task (major_of dev)) (write_msg dev blk data)) x = (a, x') ->
    an_ret a = OK /\ rep_status a = BLOCK_SIZE /\
    (forall d b, blocks x' d b = write_one dev blk data (blocks x) d b);
  disk_vector x dev l a x' : blockdev dev -> Forall (fun r => blockno (fst r) /\ length (snd r) = Z.to_nat BLOCK_SIZE) l ->
    (length l <= NR_BUFS)%nat ->
    world (SendRec (dmap_task (major_of dev)) (vector_msg dev l)) x = (a, x') ->
    an_ret a = OK /\ rep_status a <> SUSPEND /\ (forall i, (i < length l)%nat -> residual a i = 0) /\
    (forall d b, blocks x' d b = write_all dev l (blocks x) d b);
}.

Section disk.
Context {X : Type} `{Disk X}.
Implicit Types s : fst_ X.
Notation FS := (M (fst_ X)).

Lemma wp_request q s (Q : fanswer -> fst_ X -> Prop) :
  (forall a x, world q (fext s) = (a, x) -> Q a (s <| fext := x |>)) -> wp (request q) Q s.
Proof. intros HQ. unfold wp, request. destruct (world q (fext s)) as [a x] eqn:E. by apply HQ. Qed.

Lemma wp_find_dev dev s (Q : Z * Z -> fst_ X -> Prop) : blockdev dev ->
  Q (major_of dev, dmap_task (major_of dev)) s -> wp (find_dev dev) Q s.
Proof.
  intros [_ Hm] HQ. unfold find_dev, max_major. rewrite (proj2 (Z.eqb_neq _ 0)), (proj2 (Z.leb_gt 7 _)) by lia. done.
Qed.

(** A transfer that the driver takes at once. *)
Lemma wp_dev_io rw dev pos n buff s (Q : fanswer -> fst_ X -> Prop) : blockdev dev ->
  (forall a x, world (SendRec (dmap_task (major_of dev)) (mk_dmsg (if rw =? READING then DISK_READ else
      if rw =? WRITING then DISK_WRITE else rw) (minor_of dev) FS_PROC_NR n pos 0 buff)) (fext s) = (a, x) ->
    an_ret a = OK /\ rep_status a <> SUSPEND /\ Q a (s <| fext := x |>)) ->
  wp (dev_io rw 0 dev pos n FS_PROC_NR buff) Q s.
Proof.
  intros Hd HQ. unfold dev_io. apply wp_bind, wp_find_dev; [done|]. cbv beta iota. apply wp_bind.
  unfold dmap_rw. destruct Hd as [_ Hm]. rewrite (proj2 (Z.eqb_neq _ 5)) by lia.
  unfold rw_fuel. cbn [rw_dev]. apply wp_bind, wp_request. intros a x E. destruct (HQ a x E) as (Hok & Hns & HQ').
  rewrite Hok. cbn [Z.eqb OK ELOCKED negb]. wp_steps. rewrite (proj2 (Z.eqb_neq (rep_status a) SUSPEND)) by done. by wp_steps.
Qed.

Lemma block_pos blk : blockno blk -> s32 (blk * BLOCK_SIZE) = blk * BLOCK_SIZE.
Proof. intros Hb. apply s32_id. unfold blockno, BLOCK_SIZE in *. lia. Qed.

Lemma write_one_ext dev blk data f g d b : (forall d b, f d b = g d b) -> write_one dev blk data f d b = write_one dev blk data g d b.
Proof. intros Hf. unfold write_one. by destruct (decide _). Qed.

(** Writing a list of distinct blocks. *)
Lemma write_all_out dev l : forall f d b, (d <> dev \/ b ∉ l.*1) -> write_all dev l f d b = f d b.
Proof.
  induction l as [|[blk data] l IH]; intros f d b Hd; [done|]. cbn [write_all]. rewrite IH by set_solver.
  unfold write_one. rewrite decide_False; [done|]. set_solver.
Qed.
Lemma write_all_in dev l : forall f b data, NoDup l.*1 -> (b, data) ∈ l -> write_all dev l f dev b = data.
Proof.
  induction l as [|[blk dat] l IH]; intros f b data Hnd Hin; [set_solver|]. cbn [write_all fmap list_fmap fst] in *.
  apply NoDup_cons in Hnd as [Hn Hnd]. apply elem_of_cons in Hin as [[= -> ->]|Hin].
  - rewrite write_all_out by by right. unfold write_one. by rewrite decide_True.
  - by apply IH.
Qed.
End disk.
