(* ===== verification/FsCacheOk.v ===== *)
(** * The block cache is transparent

    The invariant of the cache: the LRU list is a doubly linked list of all
    buffers, every hash chain holds exactly the buffers whose block hashes to
    it, no block is cached twice, the count of buffers in use is right, and a
    clean buffer agrees with the disk. [contents] is the disk as its users see
    it through the cache. *)

From stdpp Require Import sorting.
From S2P Require Import Prelude KProc FsState FsDev FsCache FsSort FsDisk.

Section cache.
Context {X : Type} `{Disk X}.
Implicit Types s : fst_ X.
Notation FS := (M (fst_ X)).

(** ** The parts of the invariant *)
Definition nxt s (i : nat) : option nat := b_next (B i s).
Definition prv s (i : nat) : option nat := b_prev (B i s).
Definition hsh s (i : nat) : option nat := b_hash (B i s).
Definition hbucket s (i : nat) : nat := hash_of (b_blocknr (B i s)).
Definition used s (i : nat) : Prop := b_count (B i s) <> 0.
Definition all_bufs : list nat := seq 0 NR_BUFS.

Definition lru_of (n p : nat -> option nat) (f r : option nat) (L : list nat) : Prop :=
  llist n f L /\ llist p r (reverse L) /\ L ≡ₚ all_bufs.
Definition LRU s : Prop := exists L, lru_of (nxt s) (prv s) (front s) (rear s) L.

(** The chains hold the buffers that satisfy [P]. *)
Definition chains (h : nat -> option nat) (tbl : list (option nat)) (bucket : nat -> nat) (P : nat -> Prop) : Prop :=
  length tbl = Z.to_nat NR_BUF_HASH /\ forall k, (k < Z.to_nat NR_BUF_HASH)%nat -> exists l, llist h (tbl !!! k) l /\ NoDup l /\
    forall i, i ∈ l <-> (i < NR_BUFS)%nat /\ P i /\ bucket i = k.
Definition HASHED s : Prop := chains (hsh s) (buf_hash s) (hbucket s) (fun _ => True).

Definition count_used s : Z := Z.of_nat (length (filter (used s) all_bufs)).

(** A buffer holds block [blk] of [dev]. *)
Definition holds s (i : nat) (dev blk : Z) : bool := (b_dev (B i s) =? dev) && (b_blocknr (B i s) =? blk).
Definition cached s (dev blk : Z) : option nat := find (fun i => holds s i dev blk) all_bufs.
Definition contents s (dev blk : Z) : list Z :=
  match cached s dev blk with Some i => b_data (B i s) | None => blocks (fext s) dev blk end.

(** [U]: buffers in use that were taken to be overwritten and have not been
    yet. *)
Record DATA (U : list nat) s : Prop := {
  da_uniq i j : (i < NR_BUFS)%nat -> (j < NR_BUFS)%nat -> b_dev (B i s) <> NO_DEV ->
    b_dev (B i s) = b_dev (B j s) -> b_blocknr (B i s) = b_blocknr (B j s) -> i = j;
  da_dev i : (i < NR_BUFS)%nat -> b_dev (B i s) <> NO_DEV -> blockdev (b_dev (B i s));
  da_blk i : (i < NR_BUFS)%nat -> blockno (b_blocknr (B i s));
  da_size i : (i < NR_BUFS)%nat -> length (b_data (B i s)) = Z.to_nat BLOCK_SIZE;
  da_clean i : (i < NR_BUFS)%nat -> b_dev (B i s) <> NO_DEV -> b_dirt (B i s) = false -> i ∉ U ->
    b_data (B i s) = blocks (fext s) (b_dev (B i s)) (b_blocknr (B i s));
}.

Record cache_ok (U : list nat) s : Prop := {
  co_len : length (bufs s) = NR_BUFS;
  co_lru : LRU s;
  co_hash : HASHED s;
  co_use : bufs_in_use s = count_used s;
  co_count i : (i < NR_BUFS)%nat -> 0 <= b_count (B i s) <= 127;
  co_pins i : i ∈ U -> (i < NR_BUFS)%nat /\ used s i;
  co_data : DATA U s;
}.

(** Everything outside the cache and the disk. *)
Definition core s : fst_ unit :=
  mk_fst [] [] None None 0 (inodes s) (supers s) (filps s) (fprocs s) (fp s) (super_user s) (fdont_reply s)
    (susp_count s) (reviving s) (rdahedpos s) (rdahed_inode s) (m_in s) (fwho s) (fs_call s) (user_path s)
    (err_code s) 0 (reply_words s) (root_dev s) tt.

(** ** Frames *)
Lemma elem_of_bufs i : i ∈ all_bufs <-> (i < NR_BUFS)%nat.
Proof. unfold all_bufs. rewrite elem_of_seq. lia. Qed.

Lemma B_upd s f i j : (i < length (bufs s))%nat ->
  B j (s <| bufs ::= alter f i |>) = if decide (i = j) then f (B j s) else B j s.
Proof.
  intros Hi. unfold B. cbn [bufs set_field]. destruct (decide (i = j)) as [->|]; [by rewrite tbl_alter_eq|by rewrite tbl_alter_ne].
Qed.

Lemma lru_ext n n' p p' f r L : (forall i, n' i = n i) -> (forall i, p' i = p i) -> lru_of n p f r L -> lru_of n' p' f r L.
Proof.
  intros Hn Hp (H1 & H2 & H3). split_and!; [by eapply lseg_frame; [intros; apply Hn|]|by eapply lseg_frame; [intros; apply Hp|]|done].
Qed.
Lemma LRU_ext s s' : (forall i, nxt s' i = nxt s i) -> (forall i, prv s' i = prv s i) -> front s' = front s -> rear s' = rear s ->
  LRU s -> LRU s'.
Proof. intros Hn Hp Hf Hr (L & HL). exists L. rewrite Hf, Hr. by eapply lru_ext. Qed.

Lemma chains_ext h h' tbl b b' (P P' : nat -> Prop) : (forall i, h' i = h i) -> (forall i, b' i = b i) ->
  (forall i, P' i <-> P i) -> chains h tbl b P -> chains h' tbl b' P'.
Proof.
  intros Hh Hb HP [Hl Hc]. split; [done|]. intros k Hk. destruct (Hc k Hk) as (l & H1 & H2 & H3). exists l.
  split_and!; [eapply lseg_frame; [intros; apply Hh|done]|done|]. intros i. by rewrite H3, HP, Hb.
Qed.

Lemma count_ext s s' : (forall i, b_count (B i s') = b_count (B i s)) -> count_used s' = count_used s.
Proof.
  intros Hc. unfold count_used. do 2 f_equal. apply list_filter_iff. intros i. unfold used. by rewrite Hc.
Qed.

Lemma holds_spec s i dev blk : holds s i dev blk = true <-> b_dev (B i s) = dev /\ b_blocknr (B i s) = blk.
Proof. unfold holds. by rewrite andb_true_iff, !Z.eqb_eq. Qed.

Lemma cached_some s dev blk i : cached s dev blk = Some i ->
  (i < NR_BUFS)%nat /\ b_dev (B i s) = dev /\ b_blocknr (B i s) = blk.
Proof.
  intros Hc%find_some. destruct Hc as [Hi Hh%holds_spec]. split; [|done]. apply elem_of_bufs. by apply list_elem_of_In.
Qed.
Lemma cached_none s dev blk i : cached s dev blk = None -> (i < NR_BUFS)%nat -> b_dev (B i s) = dev -> b_blocknr (B i s) = blk -> False.
Proof.
  intros Hc Hi H1 H2. pose proof (find_none _ _ Hc i) as Hn. cbn beta in Hn.
  assert (Hh : holds s i dev blk = true) by (by apply holds_spec). rewrite Hn in Hh; [done|].
  by apply list_elem_of_In, elem_of_bufs.
Qed.
Lemma cached_unique U s dev blk i : DATA U s -> dev <> NO_DEV -> (i < NR_BUFS)%nat -> b_dev (B i s) = dev -> b_blocknr (B i s) = blk ->
  cached s dev blk = Some i.
Proof.
  intros HD Hd Hi H1 H2. destruct (cached s dev blk) as [j|] eqn:E; [|by destruct (cached_none s dev blk i E)].
  apply cached_some in E as (Hj & E1 & E2). f_equal. eapply (da_uniq _ _ HD); congruence.
Qed.
Lemma contents_hit U s dev blk i : DATA U s -> dev <> NO_DEV -> (i < NR_BUFS)%nat -> b_dev (B i s) = dev -> b_blocknr (B i s) = blk ->
  contents s dev blk = b_data (B i s).
Proof. intros. unfold contents. by erewrite cached_unique. Qed.
Lemma contents_miss s dev blk : cached s dev blk = None -> contents s dev blk = blocks (fext s) dev blk.
Proof. intros E. unfold contents. by rewrite E. Qed.
Lemma cached_ext s s' dev blk : (forall i, b_dev (B i s') = b_dev (B i s)) -> (forall i, b_blocknr (B i s') = b_blocknr (B i s)) ->
  cached s' dev blk = cached s dev blk.
Proof.
  intros Hd Hb. unfold cached. induction all_bufs as [|i l IH]; [done|]. cbn [find]. unfold holds at 1 3. by rewrite Hd, Hb, IH.
Qed.

(** ** Writing back *)
Definition clean (b : buf) : buf := b <| b_dirt := false |>.

Lemma harvest_write dev a q : forall k s (Q : unit -> fst_ X -> Prop), length (bufs s) = NR_BUFS ->
  (forall i, i ∈ q -> (i < NR_BUFS)%nat) ->
  (forall j, (j < length q)%nat -> residual a (k + j) = 0) ->
  (forall t, length t = NR_BUFS -> (forall i, t !!! i = if decide (i ∈ q) then clean (B i s) else B i s) -> Q tt (s <| bufs := t |>)) ->
  wp (harvest dev a WRITING k q) Q s.
Proof.
  induction q as [|bp q IH]; intros k s Q Hl Hq Hr HQ.
  - cbn [harvest]. wp_steps. specialize (HQ (bufs s) Hl). replace (s <| bufs := bufs s |>) with s in HQ by (by destruct s).
    apply HQ. done.
  - cbn [harvest]. change (WRITING =? READING) with false. cbv iota.
    specialize (Hr 0%nat ltac:(cbn; lia)) as Hr0. rewrite Nat.add_0_r in Hr0. rewrite Hr0. cbn [Z.eqb negb when].
    assert (Hbp : (bp < length (bufs s))%nat) by (rewrite Hl; apply Hq; set_solver).
    apply wp_bind. wp_steps. unfold upd_buf. wp_steps. apply IH.
    + cbn [bufs set_field]. by rewrite length_alter.
    + set_solver.
    + intros j Hj. replace (S k + j)%nat with (k + S j)%nat by lia. apply Hr. cbn. lia.
    + intros t Ht Hti. apply HQ; [done|]. intros i. rewrite Hti, !B_upd by done.
      repeat destruct (decide _); subst; try done; set_solver.
Qed.

(** The blocks of the buffers [q] are on the disk, and nothing else there
    has changed. *)
Definition wrote (dev : Z) (q : list nat) s (x : X) : Prop :=
  (forall i, i ∈ q -> blocks x dev (b_blocknr (B i s)) = b_data (B i s)) /\
  (forall d b, (d <> dev \/ forall i, i ∈ q -> b_blocknr (B i s) <> b) -> blocks x d b = blocks (fext s) d b).

Lemma rw_scattered_write U dev q s (Q : unit -> fst_ X -> Prop) : DATA U s -> length (bufs s) = NR_BUFS -> blockdev dev -> NoDup q ->
  (forall i, i ∈ q -> (i < NR_BUFS)%nat /\ b_dev (B i s) = dev) ->
  (forall t x, length t = NR_BUFS -> (forall i, t !!! i = if decide (i ∈ q) then clean (B i s) else B i s) -> wrote dev q s x ->
    Q tt (s <| fext := x |> <| bufs := t |>)) ->
  wp (rw_scattered dev q WRITING) Q s.
Proof.
  intros HD Hl Hdev Hnd Hq HQ. unfold rw_scattered.
  destruct (Nat.eqb_spec (length q) 0) as [E|Hne].
  { destruct q; [|done]. wp_steps. specialize (HQ (bufs s) (fext s) Hl ltac:(done)).
    replace (s <| fext := fext s |> <| bufs := bufs s |>) with s in HQ by (by destruct s). apply HQ. by split; [set_solver|]. }
  assert (Hlq : (length q <= NR_BUFS)%nat).
  { pose proof (submseteq_length q all_bufs) as Hs. unfold all_bufs in Hs. rewrite length_seq in Hs. apply Hs.
    apply NoDup_submseteq; [done|]. intros i Hi. apply elem_of_bufs. by apply Hq. }
  rewrite (proj2 (Nat.ltb_ge NR_BUFS (length q))) by done. wp_steps.
  set (qs := shell_sort (fun i => b_blocknr (bufs s !!! i)) q). pose proof (shell_sort_perm (fun i => b_blocknr (bufs s !!! i)) q) as Hp.
  fold qs in Hp. set (rs := (fun i => (b_blocknr (B i s), b_data (B i s))) <$> qs).
  assert (Hqs : forall i, i ∈ qs -> (i < NR_BUFS)%nat /\ b_dev (B i s) = dev) by (intros i Hi; apply Hq; by rewrite <- Hp).
  assert (Hrs : rs.*1 = (fun i => b_blocknr (B i s)) <$> qs) by (unfold rs; by rewrite <- list_fmap_compose).
  assert (Hndr : NoDup rs.*1).
  { rewrite Hrs. apply NoDup_fmap_2_strong; [|by rewrite Hp]. intros i j Hi Hj E. destruct (Hqs i Hi), (Hqs j Hj).
    eapply (da_uniq _ _ HD); try done; [|congruence]. destruct Hdev. lia. }
  apply wp_dev_io; [done|]. intros a x Ea. change (SCATTERED_IO =? READING) with false in Ea. change (SCATTERED_IO =? WRITING) with false in Ea. cbv iota in Ea.
  assert (Hvec : vector_msg dev rs = mk_dmsg SCATTERED_IO (minor_of dev) FS_PROC_NR (Z.of_nat (length q)) 0 0
    (Vector ((fun i => mk_ioreq (s32 (b_blocknr (bufs s !!! i) * BLOCK_SIZE)) (WRITING =? WRITING)
       (if WRITING =? WRITING then b_data (bufs s !!! i) else [])) <$> qs))).
  { unfold vector_msg, rs. rewrite length_fmap, (Permutation_length Hp). do 2 f_equal. rewrite <- list_fmap_compose.
    apply list_fmap_ext. intros k i Hi%list_elem_of_lookup_2. cbn. rewrite block_pos; [done|]. apply (da_blk _ _ HD). by apply Hqs. }
  rewrite <- Hvec in Ea. apply disk_vector in Ea as (Hok & Hns & Hres & Hblk).
  - split_and!; [done|done|]. apply (harvest_write dev a qs); [done|by intros i Hi; apply Hqs| |].
    + intros j Hj. apply Hres. unfold rs. by rewrite length_fmap.
    + intros t Ht Hti. apply HQ; [done| |].
      * intros i. rewrite Hti. change (B i (s <| fext := x |>)) with (B i s).
        destruct (decide (i ∈ qs)) as [Hi|Hi], (decide (i ∈ q)) as [Hi'|Hi']; try done; rewrite Hp in Hi; done.
      * split.
        -- intros i Hi. rewrite Hblk. apply write_all_in; [done|]. unfold rs. apply list_elem_of_fmap. exists i. split; [done|by rewrite Hp].
        -- intros d b Hdb. rewrite Hblk. apply write_all_out. destruct Hdb as [|Hb]; [by left|right].
           rewrite Hrs. intros (i & -> & Hi)%list_elem_of_fmap. apply (Hb i); [by rewrite <- Hp|done].
  - done.
  - apply Forall_forall. intros r Hr. unfold rs in Hr. apply list_elem_of_fmap in Hr as (i & -> & Hi). cbn.
    split; [by apply (da_blk _ _ HD), Hqs|by apply (da_size _ _ HD), Hqs].
  - unfold rs. by rewrite length_fmap, (Permutation_length Hp).
Qed.

Definition flushed (dev : Z) s (b : buf) : buf := if b_dirt b && (b_dev b =? dev) then clean b else b.

Lemma flush_ok U dev s x t : DATA U s -> length (bufs s) = NR_BUFS -> length t = NR_BUFS ->
  (forall i, t !!! i = if b_dirt (B i s) && (b_dev (B i s) =? dev) && (i <? NR_BUFS)%nat then clean (B i s) else B i s) ->
  wrote dev (filter (fun i => b_dirt (bufs s !!! i) && (b_dev (bufs s !!! i) =? dev)) (seq 0 (length (bufs s)))) s x ->
  let s' := s <| fext := x |> <| bufs := t |> in
  DATA U s' /\ (forall d b, d <> NO_DEV -> contents s' d b = contents s d b).
Proof.
  intros HD Hl Hlt Ht [Hw Hsame] s'.
  assert (Hq : forall i, i ∈ filter (fun i => b_dirt (bufs s !!! i) && (b_dev (bufs s !!! i) =? dev)) (seq 0 (length (bufs s))) <->
    (i < NR_BUFS)%nat /\ b_dirt (B i s) = true /\ b_dev (B i s) = dev).
  { intros i. rewrite list_elem_of_filter, Hl. change (seq 0 NR_BUFS) with all_bufs. rewrite elem_of_bufs.
    change (bufs s !!! i) with (B i s). rewrite Is_true_true, andb_true_iff, Z.eqb_eq. tauto. }
  assert (HB : forall i, b_dev (B i s') = b_dev (B i s) /\ b_blocknr (B i s') = b_blocknr (B i s) /\ b_data (B i s') = b_data (B i s)).
  { intros i. change (B i s') with (t !!! i). rewrite Ht. by destruct (_ && _). }
  assert (Hother : forall d b, (forall i, (i < NR_BUFS)%nat -> b_dirt (B i s) = true -> b_dev (B i s) = d -> b_blocknr (B i s) = b -> False) ->
    blocks x d b = blocks (fext s) d b).
  { intros d b Hn. apply Hsame. destruct (decide (d = dev)) as [->|]; [right|by left]. intros i (Hi & Hd & Hv)%Hq E. by eapply Hn. }
  split.
  - split.
    + intros i j Hi Hj. destruct (HB i) as (-> & -> & _), (HB j) as (-> & -> & _). by apply (da_uniq _ _ HD).
    + intros i Hi. destruct (HB i) as (-> & _ & _). by apply (da_dev _ _ HD).
    + intros i Hi. destruct (HB i) as (_ & -> & _). by apply (da_blk _ _ HD).
    + intros i Hi. destruct (HB i) as (_ & _ & ->). by apply (da_size _ _ HD).
    + intros i Hi. destruct (HB i) as (-> & -> & ->). change (B i s') with (t !!! i). rewrite Ht. change (fext s') with x.
      intros Hnd Hdi HU. destruct (decide (b_dirt (B i s) = true /\ b_dev (B i s) = dev)) as [[Hdt Hdv]|Hno].
      * rewrite Hdv. symmetry. apply Hw. by apply Hq.
      * assert (Hc : b_dirt (B i s) = false).
        { destruct (b_dirt (B i s)) eqn:E; [|done]. destruct (Z.eqb_spec (b_dev (B i s)) dev); [by destruct Hno|].
          cbn in Hdi. congruence. }
        rewrite (da_clean _ _ HD i Hi Hnd Hc HU). symmetry. apply Hother. intros j Hj Hjd Hjv Hjb.
        assert (j = i) as -> by (eapply (da_uniq _ _ HD); try done; congruence). congruence.
  - intros d b Hd. unfold contents. rewrite (cached_ext s s') by (intros i; apply HB).
    destruct (cached s d b) as [i|] eqn:Ec; [apply HB|]. apply Hother. intros i Hi _ Hv Hb. by eapply (cached_none s d b i).
Qed.

Lemma wp_flushall U dev s (Q : unit -> fst_ X -> Prop) : DATA U s -> length (bufs s) = NR_BUFS -> blockdev dev ->
  (forall t x, let s' := s <| fext := x |> <| bufs := t |> in length t = NR_BUFS -> DATA U s' ->
     (forall d b, d <> NO_DEV -> contents s' d b = contents s d b) ->
     (forall i, t !!! i = if b_dirt (B i s) && (b_dev (B i s) =? dev) && (i <? NR_BUFS)%nat then clean (B i s) else B i s) ->
     Q tt s') ->
  wp (flushall dev) Q s.
Proof.
  intros HD Hl Hdev HQ. unfold flushall. wp_steps. eapply (rw_scattered_write U dev); try done.
  - apply NoDup_filter, NoDup_seq.
  - intros i. rewrite list_elem_of_filter, Hl. change (seq 0 NR_BUFS) with all_bufs. rewrite elem_of_bufs.
    rewrite Is_true_true, andb_true_iff, Z.eqb_eq. change (bufs s !!! i) with (B i s). tauto.
  - intros t x Hlt Ht Hw.
    assert (Ht' : forall i, t !!! i = if b_dirt (B i s) && (b_dev (B i s) =? dev) && (i <? NR_BUFS)%nat then clean (B i s) else B i s).
    { intros i. rewrite Ht. destruct (decide _) as [Hi|Hi]; rewrite list_elem_of_filter, Hl in Hi; change (seq 0 NR_BUFS) with all_bufs in Hi;
        rewrite elem_of_bufs in Hi; change (bufs s !!! i) with (B i s) in Hi.
      - destruct Hi as [Hi Hlt']. apply Is_true_true in Hi. rewrite Hi, (proj2 (Nat.ltb_lt _ _)) by done. done.
      - destruct (b_dirt (B i s) && (b_dev (B i s) =? dev)) eqn:E; [|done]. cbn [andb]. destruct (Nat.ltb_spec i NR_BUFS); [|done]. destruct Hi. split; [|done]. by rewrite ?E. }
    destruct (flush_ok U dev s x t HD Hl Hlt Ht' Hw) as [HD' Hc]. by apply HQ.
Qed.

(** ** Searching *)
Lemma hash_find_ok dev blk s l : forall fuel p (Q : option nat -> fst_ X -> Prop), llist (hsh s) p l -> (length l < fuel)%nat ->
  Q (find (fun i => holds s i dev blk) l) s -> wp (hash_find fuel p dev blk) Q s.
Proof.
  induction l as [|i l IH]; intros fuel p Q Hl Hf HQ; (destruct fuel as [|fuel]; [cbn in Hf; lia|]); cbn [hash_find].
  - cbn in Hl. subst p. exact HQ.
  - destruct Hl as [-> Hl]. wp_steps. cbn [find] in HQ. unfold holds at 1 in HQ. rewrite andb_comm.
    destruct (_ && _); [exact HQ|]. apply (IH fuel (hsh s i)); [done|cbn in Hf; lia|done].
Qed.

Lemma bucket_bound blk : blockno blk -> (hash_of blk < Z.to_nat NR_BUF_HASH)%nat.
Proof.
  intros Hb. unfold hash_of, NR_BUF_HASH. change (32 - 1) with (Z.ones 5). rewrite Z.land_ones by lia.
  change (2 ^ 5) with 32. unfold blockno in Hb. zlia.
Qed.

Lemma cached_chain U s dev blk l : DATA U s -> dev <> NO_DEV ->
  (forall i, i ∈ l <-> (i < NR_BUFS)%nat /\ True /\ hbucket s i = hash_of blk) ->
  find (fun i => holds s i dev blk) l = cached s dev blk.
Proof.
  intros HD Hd Hl. destruct (find _ l) as [i|] eqn:E.
  - apply find_some in E as [Hi Hh]. apply list_elem_of_In, Hl in Hi as [Hi _]. apply holds_spec in Hh as [H1 H2].
    symmetry. by eapply cached_unique.
  - destruct (cached s dev blk) as [i|] eqn:Ec; [|done]. apply cached_some in Ec as (Hi & H1 & H2).
    pose proof (find_none _ _ E i) as Hn. cbn beta in Hn.
    assert (Hh : holds s i dev blk = true) by (by apply holds_spec). rewrite Hn in Hh; [done|].
    apply list_elem_of_In, Hl. split_and!; [done|done|]. unfold hbucket. by rewrite H2.
Qed.

Lemma length_chain l : NoDup l -> (forall i, i ∈ l -> (i < NR_BUFS)%nat) -> (length l <= NR_BUFS)%nat.
Proof.
  intros Hnd Hl. pose proof (submseteq_length l all_bufs) as Hs. unfold all_bufs in Hs. rewrite length_seq in Hs. apply Hs.
  apply NoDup_submseteq; [done|]. intros i Hi. by apply elem_of_bufs, Hl.
Qed.

Lemma lru_find_ok s l : forall fuel f (Q : nat -> fst_ X -> Prop), llist (nxt s) (Some f) l -> (length l < fuel)%nat ->
  (exists i, i ∈ l /\ ~ used s i) ->
  (forall bp, bp ∈ l -> ~ used s bp -> Q bp s) -> wp (lru_find fuel f) Q s.
Proof.
  induction l as [|i l IH]; intros fuel f Q Hl Hf (j & Hj & Hu) HQ; [set_solver|].
  destruct Hl as [[= ->] Hl]. destruct fuel as [|fuel]; [cbn in Hf; lia|]. cbn [lru_find]. wp_steps.
  destruct (Z.eqb_spec (b_count (B i s)) 0) as [E|E]; cbn [negb].
  - wp_steps. apply HQ; [set_solver|]. intros Hn. by apply Hn.
  - apply elem_of_cons in Hj as [->|Hj]; [done|]. change (b_next (B i s)) with (nxt s i).
    destruct (nxt s i) as [n|] eqn:En; [|apply llist_nil in Hl; subst l; set_solver].
    apply IH; [done|cbn in Hf; lia|by exists j|]. intros bp Hbp. apply HQ. set_solver.
Qed.

Lemma filter_Forall {A} (P : A -> Prop) `{forall x, Decision (P x)} (l : list A) : Forall P l -> filter P l = l.
Proof. induction 1 as [|x l Hx _ IH]; [done|]. by rewrite filter_cons_True, IH. Qed.

(** Some buffer is free when they are not all in use. *)
Lemma some_unused s L : L ≡ₚ all_bufs -> count_used s <> Z.of_nat NR_BUFS -> exists i, i ∈ L /\ ~ used s i.
Proof.
  intros HL Hc. destruct (decide (Forall (used s) all_bufs)) as [Ha|Hn].
  - destruct Hc. unfold count_used. rewrite filter_Forall by done.
    unfold all_bufs. by rewrite length_seq.
  - apply not_Forall_Exists in Hn; [|intros ?; apply _]. apply Exists_exists in Hn as (i & Hi & Hu). exists i. by rewrite HL.
Qed.

(** ** Hash chains *)
Lemma unhash_loop_ok bp l2 s l1 : forall fuel p (Q : unit -> fst_ X -> Prop), llist (hsh s) (Some p) (p :: l1 ++ bp :: l2) ->
  (length l1 < fuel)%nat -> bp ∉ l1 ->
  (forall pv, last (p :: l1) = Some pv -> Q tt (s <| bufs ::= alter (fun b => b <| b_hash := hsh s bp |>) pv |>)) ->
  wp (unhash_loop fuel p bp) Q s.
Proof.
  induction l1 as [|n l1 IH]; intros fuel p Q [_ Hl] Hf Hnin HQ; (destruct fuel as [|fuel]; [cbn in Hf; lia|]); cbn [unhash_loop]; wp_steps.
  - destruct Hl as [Hp _]. change (b_hash (B p s)) with (hsh s p). rewrite Hp. cbn beta iota. rewrite Nat.eqb_refl. wp_steps. by apply HQ.
  - destruct Hl as [Hp Hl]. change (b_hash (B p s)) with (hsh s p). rewrite Hp. cbn beta iota.
    rewrite (proj2 (Nat.eqb_neq n bp)) by set_solver. apply IH; [by split|cbn in Hf; lia|set_solver|].
    intros pv Hpv. apply HQ. cbn [last] in *. exact Hpv.
Qed.

(** Taking [bp] out of its chain: the links of one predecessor, or the table,
    change. *)
Lemma chains_remove h h' tbl tbl' bucket bp l1 l2 : chains h tbl bucket (fun _ => True) -> (bp < NR_BUFS)%nat ->
  let k := bucket bp in (k < Z.to_nat NR_BUF_HASH)%nat ->
  llist h (tbl !!! k) (l1 ++ bp :: l2) ->
  length tbl' = length tbl -> (forall j, j <> k -> tbl' !!! j = tbl !!! j) ->
  (tbl' !!! k = match l1 with [] => h bp | _ => tbl !!! k end) ->
  (forall i, last l1 = Some i -> h' i = h bp) -> (forall i, last l1 <> Some i -> h' i = h i) ->
  chains h' tbl' bucket (fun i => i <> bp).
Proof.
  intros [Hlt Hc] Hbp k Hk Hl Hlt' Hoth Hat Hlast Hrest. split; [by rewrite Hlt'|]. intros j Hj.
  destruct (Hc j Hj) as (l & Hll & Hnd & Hin). destruct (decide (j = k)) as [->|Hne].
  - assert (l = l1 ++ bp :: l2) as -> by (by eapply llist_inj). exists (l1 ++ l2). split_and!.
    + eapply (lseg_unlink h); try done. intros i Hi Hn. by apply Hrest.
    + apply NoDup_app in Hnd as (? & ? & [? ?]%NoDup_cons). apply NoDup_app. split_and!; try done. set_solver.
    + intros i. apply NoDup_app in Hnd as (_ & Hd & [Hb _]%NoDup_cons). specialize (Hin i). specialize (Hd i).
      split.
      * intros Hi. assert (i <> bp) by (intros ->; set_solver). assert (i ∈ l1 ++ bp :: l2) as Hi' by set_solver.
        apply Hin in Hi' as (? & _ & ?). done.
      * intros (Hi & Hn & Hb'). assert (i ∈ l1 ++ bp :: l2) as Hi' by (by apply Hin). set_solver.
  - exists l. rewrite Hoth by done. split_and!; [|done|].
    + eapply lseg_frame; [|exact Hll]. intros i Hi. apply Hrest. intros Hla.
      apply last_Some_elem_of in Hla. destruct (Hc k Hk) as (l' & Hll' & _ & Hin').
      assert (l' = l1 ++ bp :: l2) as -> by (by eapply llist_inj). apply Hin in Hi as (_ & _ & E).
      assert (i ∈ l1 ++ bp :: l2) as (_ & _ & E')%Hin' by set_solver. congruence.
    + intros i. rewrite Hin. split; intros (? & ? & E); split_and!; try done. intros ->. by apply Hne.
Qed.

Lemma unhash_ok s bp (Q : unit -> fst_ X -> Prop) : length (bufs s) = NR_BUFS -> HASHED s -> (bp < NR_BUFS)%nat ->
  blockno (b_blocknr (B bp s)) ->
  (forall t tb, length t = NR_BUFS -> (forall i, exists v, t !!! i = (B i s) <| b_hash := v |>) ->
    chains (fun i => b_hash (t !!! i)) tb (hbucket s) (fun i => i <> bp) ->
    Q tt (s <| bufs := t |> <| buf_hash := tb |>)) ->
  wp (unhash bp) Q s.
Proof.
  intros Hl HH Hbp Hno HQ. pose proof HH as [Hlt Hc]. set (k := hbucket s bp).
  assert (Hk : (k < Z.to_nat NR_BUF_HASH)%nat) by (by apply bucket_bound).
  destruct (Hc k Hk) as (l & Hll & Hnd & Hin). assert (Hb : bp ∈ l) by (by apply Hin).
  apply list_elem_of_split in Hb as (l1 & l2 & ->).
  assert (Hlen : (length (l1 ++ bp :: l2) <= NR_BUFS)%nat) by (apply length_chain; [done|intros i Hi; by apply Hin]).
  unfold unhash. wp_steps. change (hash_of (b_blocknr (B bp s))) with k.
  assert (Hid : forall i, exists v, bufs s !!! i = (B i s) <| b_hash := v |>).
  { intros i. exists (b_hash (B i s)). change (bufs s !!! i) with (B i s). by destruct (B i s). }
  destruct l1 as [|p l1].
  - destruct Hll as [Hh Hll]. rewrite Hh. cbn beta iota. rewrite Nat.eqb_refl. wp_steps.
    specialize (HQ (bufs s) (<[k := hsh s bp]> (buf_hash s)) Hl Hid).
    replace (s <| bufs := bufs s |> <| buf_hash := <[k := hsh s bp]> (buf_hash s) |>) with
      (s <| buf_hash ::= <[k := hsh s bp]> |>) in HQ by (by destruct s).
    apply HQ. eapply (chains_remove (hsh s) _ (buf_hash s) _ _ bp [] l2); try done.
    + by rewrite length_insert.
    + intros j Hj. by rewrite list_lookup_total_insert_ne.
    + fold k. apply list_lookup_total_insert_eq. by rewrite Hlt.
  - pose proof (lseg_head _ _ _ _ _ Hll) as Hh. rewrite Hh. cbn beta iota.
    apply NoDup_app in Hnd as Hnd'. destruct Hnd' as (Hnd1 & Hd & [Hnb _]%NoDup_cons).
    assert (bp ∉ p :: l1) as Hnin by (intros Hi; apply (Hd bp Hi); set_solver).
    rewrite (proj2 (Nat.eqb_neq p bp)) by set_solver.
    apply (unhash_loop_ok bp l2 s l1).
    + rewrite <- Hh. exact Hll.
    + unfold chain_fuel. rewrite length_app in Hlen. cbn in Hlen. lia.
    + set_solver.
    + intros pv Hpv. assert (Hpl : (pv < length (bufs s))%nat).
      { rewrite Hl. apply last_Some_elem_of in Hpv. assert (pv ∈ (p :: l1) ++ bp :: l2) as [? _]%Hin by set_solver. done. }
      specialize (HQ (alter (fun b => b <| b_hash := hsh s bp |>) pv (bufs s)) (buf_hash s)).
      replace (s <| bufs := alter (fun b => b <| b_hash := hsh s bp |>) pv (bufs s) |> <| buf_hash := buf_hash s |>) with
        (s <| bufs ::= alter (fun b => b <| b_hash := hsh s bp |>) pv |>) in HQ by (by destruct s).
      assert (Hti : forall i, alter (fun b => b <| b_hash := hsh s bp |>) pv (bufs s) !!! i =
        if decide (pv = i) then (B i s) <| b_hash := hsh s bp |> else B i s).
      { intros i. apply (B_upd s (fun b => b <| b_hash := hsh s bp |>) pv i Hpl). }
      apply HQ.
      * by rewrite length_alter.
      * intros i. rewrite Hti. destruct (decide _); [by eexists|apply Hid].
      * eapply (chains_remove (hsh s) _ (buf_hash s) _ _ bp (p :: l1) l2); try done.
        -- fold k. intros i Hi. rewrite Hti. rewrite decide_True by congruence. done.
        -- intros i Hi. rewrite Hti. rewrite decide_False by congruence. done.
Qed.

Lemma chains_add h h' tbl bucket bucket' bp : chains h tbl bucket (fun i => i <> bp) -> (bp < NR_BUFS)%nat ->
  let k := bucket' bp in (k < Z.to_nat NR_BUF_HASH)%nat ->
  h' bp = tbl !!! k -> (forall i, i <> bp -> h' i = h i) -> (forall i, i <> bp -> bucket' i = bucket i) ->
  chains h' (<[k := Some bp]> tbl) bucket' (fun _ => True).
Proof.
  intros [Hlt Hc] Hbp k Hk Hb Hh Hbk. split; [by rewrite length_insert|]. intros j Hj.
  destruct (Hc j Hj) as (l & Hll & Hnd & Hin).
  assert (Hn : bp ∉ l) by (by intros [_ [? _]]%Hin).
  assert (Hf : forall p, llist h p l -> llist h' p l).
  { intros p. apply lseg_frame. intros i Hi. apply Hh. set_solver. }
  destruct (decide (j = k)) as [->|Hne].
  - exists (bp :: l). rewrite list_lookup_total_insert_eq by (by rewrite Hlt). split_and!.
    + split; [done|]. rewrite Hb. by apply Hf.
    + by constructor.
    + intros i. rewrite elem_of_cons, Hin. destruct (decide (i = bp)) as [->|Hi]; [naive_solver|]. rewrite Hbk by done. naive_solver.
  - exists l. rewrite list_lookup_total_insert_ne by done. split_and!; [by apply Hf|done|].
    intros i. rewrite Hin. destruct (decide (i = bp)) as [->|Hi]; [|rewrite Hbk by done; naive_solver].
    split; [by intros (_ & ? & _)|]. intros (_ & _ & E). by destruct Hne.
Qed.

(** ** Counting *)
Lemma filter_ext_in {A} (P Q : A -> Prop) `{forall x, Decision (P x)} `{forall x, Decision (Q x)} (l : list A) :
  (forall x, x ∈ l -> P x <-> Q x) -> filter P l = filter Q l.
Proof.
  induction l as [|x l IH]; intros HPQ; [done|]. rewrite !filter_cons, IH by set_solver.
  specialize (HPQ x ltac:(set_solver)). destruct (decide (P x)), (decide (Q x)); tauto.
Qed.
Lemma count_split s i : (i < NR_BUFS)%nat -> exists l1 l2, all_bufs = l1 ++ i :: l2 /\ i ∉ l1 ++ l2.
Proof.
  intros Hi%elem_of_bufs. pose proof (NoDup_seq 0 NR_BUFS) as Hnd. change (seq 0 NR_BUFS) with all_bufs in Hnd.
  apply list_elem_of_split in Hi as (l1 & l2 & E). exists l1, l2. split; [done|]. rewrite E in Hnd.
  apply NoDup_app in Hnd as (_ & Hd & [Hn _]%NoDup_cons). rewrite elem_of_app. intros [Hi|Hi]; [|done]. apply (Hd i Hi). set_solver.
Qed.
Lemma count_change s s' i : (i < NR_BUFS)%nat -> (forall j, j <> i -> b_count (B j s') = b_count (B j s)) ->
  count_used s' = count_used s + (if decide (used s' i) then 1 else 0) - (if decide (used s i) then 1 else 0).
Proof.
  intros Hi Hoth. destruct (count_split s i Hi) as (l1 & l2 & E & Hn). unfold count_used. rewrite E.
  rewrite !filter_app, !filter_cons.
  assert (Hf : forall l : list nat, i ∉ l -> filter (used s') l = filter (used s) l).
  { intros l Hl. apply filter_ext_in. intros j Hj. unfold used. rewrite Hoth; [done|]. set_solver. }
  rewrite !Hf by set_solver. destruct (decide (used s' i)), (decide (used s i)); rewrite !length_app; cbn [length]; lia.
Qed.

(** ** Giving a buffer a new block *)
Definition same_data s s' (i : nat) : Prop :=
  b_dev (B i s') = b_dev (B i s) /\ b_blocknr (B i s') = b_blocknr (B i s) /\ b_data (B i s') = b_data (B i s) /\
  b_dirt (B i s') = b_dirt (B i s).

Lemma contents_other s s' bp d b : (forall i, i <> bp -> same_data s s' i) -> holds s bp d b = false -> holds s' bp d b = false ->
  (forall d b, blocks (fext s') d b = blocks (fext s) d b) -> contents s' d b = contents s d b.
Proof.
  intros Hs Hb Hb' Hx. unfold contents.
  assert (Hc : cached s' d b = cached s d b).
  { unfold cached. induction all_bufs as [|i l IH]; [done|]. cbn [find]. destruct (decide (i = bp)) as [->|Hi].
    - by rewrite Hb, Hb'.
    - destruct (Hs i Hi) as (E1 & E2 & _). unfold holds at 1 3. by rewrite E1, E2, IH. }
  rewrite Hc. destruct (cached s d b) as [i|] eqn:E; [|apply Hx]. apply cached_some in E as (_ & E1 & E2).
  apply Hs. intros ->. assert (holds s bp d b = true) by (by apply holds_spec). congruence.
Qed.

Lemma relabel_ok U s s' bp dev blk : DATA U s -> (bp < NR_BUFS)%nat -> bp ∉ U ->
  (b_dev (B bp s) <> NO_DEV -> b_dirt (B bp s) = false) -> blockdev dev -> blockno blk -> cached s dev blk = None ->
  (forall i, i <> bp -> same_data s s' i) -> b_dev (B bp s') = dev -> b_blocknr (B bp s') = blk ->
  b_data (B bp s') = b_data (B bp s) -> fext s' = fext s ->
  DATA (bp :: U) s' /\ (forall d b, d <> NO_DEV -> ~ (d = dev /\ b = blk) -> contents s' d b = contents s d b).
Proof.
  intros HD Hbp HU Hcl Hdev Hblk Hc Hs Hd' Hb' Hdat Hx. split.
  - split.
    + intros i j Hi Hj Hnd E1 E2. destruct (decide (i = bp)) as [->|Hni], (decide (j = bp)) as [->|Hnj]; [done| | |].
      * destruct (Hs j Hnj) as (E3 & E4 & _). exfalso. eapply (cached_none s dev blk j Hc Hj); congruence.
      * destruct (Hs i Hni) as (E3 & E4 & _). exfalso. eapply (cached_none s dev blk i Hc Hi); congruence.
      * destruct (Hs i Hni) as (E3 & E4 & _), (Hs j Hnj) as (E5 & E6 & _). eapply (da_uniq _ _ HD); congruence.
    + intros i Hi. destruct (decide (i = bp)) as [->|Hni]; [by rewrite Hd'|]. destruct (Hs i Hni) as (-> & _). by apply (da_dev _ _ HD).
    + intros i Hi. destruct (decide (i = bp)) as [->|Hni]; [by rewrite Hb'|]. destruct (Hs i Hni) as (_ & -> & _). by apply (da_blk _ _ HD).
    + intros i Hi. destruct (decide (i = bp)) as [->|Hni]; [rewrite Hdat|destruct (Hs i Hni) as (_ & _ & -> & _)]; by apply (da_size _ _ HD).
    + intros i Hi. rewrite not_elem_of_cons, Hx. intros Hnd Hdi [Hni HUi]. destruct (Hs i Hni) as (E1 & E2 & E3 & E4).
      rewrite E1, E2, E3 in *. rewrite E4 in Hdi. by apply (da_clean _ _ HD).
  - intros d b Hd Hne. destruct (holds s bp d b) eqn:Eh.
    + apply holds_spec in Eh as [E1 E2]. rewrite (contents_hit U s d b bp) by done.
      rewrite contents_miss; [rewrite Hx; symmetry; rewrite <- E1, <- E2; apply (da_clean _ _ HD); try done; [congruence|apply Hcl; congruence]|].
      destruct (cached s' d b) as [i|] eqn:Ec; [|done]. apply cached_some in Ec as (Hi & F1 & F2).
      destruct (decide (i = bp)) as [->|Hni]; [destruct Hne; split; congruence|]. destruct (Hs i Hni) as (F3 & F4 & _).
      destruct Hni. eapply (da_uniq _ _ HD); congruence.
    + apply (contents_other s s' bp); [done|done| |by rewrite Hx]. apply not_true_iff_false. intros [F1 F2]%holds_spec. destruct Hne. split; congruence.
Qed.

(** Filling it from the disk, or failing to. *)
Lemma fill_ok U s s' bp dev blk : DATA (bp :: U) s -> (bp < NR_BUFS)%nat -> blockdev dev -> b_dev (B bp s) = dev -> b_blocknr (B bp s) = blk ->
  (forall i, i <> bp -> same_data s s' i) -> b_blocknr (B bp s') = blk -> b_dirt (B bp s') = false ->
  length (b_data (B bp s')) = Z.to_nat BLOCK_SIZE ->
  (forall d b, blocks (fext s') d b = blocks (fext s) d b) ->
  (b_dev (B bp s') = dev /\ b_data (B bp s') = blocks (fext s) dev blk) \/ b_dev (B bp s') = NO_DEV ->
  DATA U s' /\ contents s' dev blk = blocks (fext s) dev blk /\
  (forall d b, d <> NO_DEV -> ~ (d = dev /\ b = blk) -> contents s' d b = contents s d b).
Proof.
  intros HD Hbp Hdev Hd Hb Hs Hb' Hdt Hlen Hx Hor. assert (Hnd : dev <> NO_DEV) by (destruct Hdev; lia).
  assert (HD' : DATA U s').
  { split.
    - intros i j Hi Hj Hn E1 E2. destruct (decide (i = bp)) as [->|Hni], (decide (j = bp)) as [->|Hnj]; [done| | |].
      + destruct (Hs j Hnj) as (E3 & E4 & _). destruct Hor as [[Hor _]|Hor]; [|congruence].
        eapply (da_uniq _ _ HD); congruence.
      + destruct (Hs i Hni) as (E3 & E4 & _). destruct Hor as [[Hor _]|Hor]; [|congruence]. eapply (da_uniq _ _ HD); congruence.
      + destruct (Hs i Hni) as (E3 & E4 & _), (Hs j Hnj) as (E5 & E6 & _). eapply (da_uniq _ _ HD); congruence.
    - intros i Hi. destruct (decide (i = bp)) as [->|Hni]; [|destruct (Hs i Hni) as (-> & _); by apply (da_dev _ _ HD)].
      destruct Hor as [[-> _]| ->]; [done|by intros []].
    - intros i Hi. destruct (decide (i = bp)) as [->|Hni]; [rewrite Hb', <- Hb|destruct (Hs i Hni) as (_ & -> & _)]; by apply (da_blk _ _ HD).
    - intros i Hi. destruct (decide (i = bp)) as [->|Hni]; [done|destruct (Hs i Hni) as (_ & _ & -> & _)]; by apply (da_size _ _ HD).
    - intros i Hi Hn Hdi HU. rewrite Hx. destruct (decide (i = bp)) as [->|Hni].
      + destruct Hor as [[E1 E2]|E1]; [|congruence]. by rewrite E1, E2, Hb'.
      + destruct (Hs i Hni) as (E1 & E2 & E3 & E4). rewrite E1, E2, E3 in *. rewrite E4 in Hdi. apply (da_clean _ _ HD); try done. set_solver. }
  split_and!; [done| |].
  - destruct Hor as [[E1 E2]|E1]; [rewrite (contents_hit U s' dev blk bp) by done; done|].
    rewrite contents_miss; [apply Hx|]. destruct (cached s' dev blk) as [i|] eqn:Ec; [|done].
    apply cached_some in Ec as (Hi & F1 & F2). destruct (decide (i = bp)) as [->|Hni]; [congruence|].
    destruct (Hs i Hni) as (E3 & E4 & _). destruct Hni. eapply (da_uniq _ _ HD); congruence.
  - intros d b Hdn Hne. apply (contents_other s s' bp); [done| | |done]; apply not_true_iff_false; intros [F1 F2]%holds_spec.
    + destruct Hne. split; congruence.
    + destruct Hor as [[E1 _]|E1]; [|congruence]. destruct Hne. split; congruence.
Qed.
End cache.
