(* ===== verification/FsBlocks.v ===== *)
(** * Getting and releasing blocks

    [get_block] and [put_block] keep the invariant of the cache and do to
    [contents] what their callers expect; then the cache as a whole refines a
    plain disk. *)

From stdpp Require Import sorting.
From S2P Require Import Prelude KProc FsState FsDev FsCache FsSort FsDisk FsCacheOk.

Section blocks.
Context {X : Type} `{Disk X}.
Implicit Types s : fst_ X.
Notation FS := (M (fst_ X)).

(** What [get_block] leaves behind: [bp] is the buffer it returns. *)
Record got (U U' : list nat) s (dev blk mode : Z) (bp : nat) s' : Prop := {
  g_ok : cache_ok U' s';
  g_bp : (bp < NR_BUFS)%nat;
  g_pin : U' = U \/ (mode = NO_READ /\ U' = bp :: U /\ bp ∉ U);
  g_blk : b_blocknr (B bp s') = blk;
  g_dev : b_dev (B bp s') = dev \/ (mode = NORMAL /\ b_dev (B bp s') = NO_DEV /\ rdwt_err s' <> OK);
  g_data : mode = NORMAL -> b_dev (B bp s') = dev -> b_data (B bp s') = contents s dev blk;
  g_same d b : d <> NO_DEV -> mode = NORMAL \/ ~ (d = dev /\ b = blk) -> contents s' d b = contents s d b;
  g_count i : b_count (B i s') = b_count (B i s) + (if decide (i = bp) then 1 else 0);
  g_held i : used s i -> b_dev (B i s') = b_dev (B i s) /\ b_blocknr (B i s') = b_blocknr (B i s) /\ b_data (B i s') = b_data (B i s);
  g_core : core s' = core s;
  g_err : b_dev (B bp s') = dev -> rdwt_err s' = rdwt_err s;
}.

Lemma s8_id c : 0 <= c <= 127 -> s8 c = c.
Proof. intros Hc. unfold s8, sx. change (2 ^ 8) with 256. change (2 ^ (8 - 1)) with 128. rewrite Z.mod_small by lia.
  by rewrite (proj2 (Z.ltb_lt _ _)) by lia. Qed.
Lemma count_used_range s : 0 <= count_used s <= Z.of_nat NR_BUFS.
Proof.
  unfold count_used. split; [lia|]. pose proof (length_filter (used s) all_bufs) as Hl. unfold all_bufs in Hl at 2.
  rewrite length_seq in Hl. lia.
Qed.
Lemma s16_inuse n : 0 <= n < Z.of_nat NR_BUFS -> s16 (n + 1) = n + 1.
Proof. intros Hn. apply s16_id. unfold NR_BUFS in Hn. lia. Qed.

(** *** The block is there *)
Lemma get_hit U s dev blk mode bp (Q : nat -> fst_ X -> Prop) : cache_ok U s -> blockdev dev -> cached s dev blk = Some bp ->
  b_count (B bp s) < 127 ->
  (forall s', got U U s dev blk mode bp s' -> Q bp s') ->
  wp (when (b_count (B bp s) =? 0) (modify (fun s => s <| bufs_in_use ::= fun n => s16 (n + 1) |>));;
      upd_buf bp (fun b => b <| b_count ::= fun c => s8 (c + 1) |>);; mret bp) Q s.
Proof.
  intros [Hl HLR HH HU HC HP HD] Hdev Hc Hlt HQ. assert (Hnd : dev <> NO_DEV) by (destruct Hdev; lia).
  pose proof (cached_some _ _ _ _ Hc) as (Hbp & Hd & Hb). pose proof (HC bp Hbp) as Hcr.
  set (s1 := if b_count (B bp s) =? 0 then s <| bufs_in_use := bufs_in_use s + 1 |> else s).
  set (s2 := s1 <| bufs ::= alter (fun b => b <| b_count ::= fun c => s8 (c + 1) |>) bp |>).
  assert (HB : forall i, B i s2 = if decide (bp = i) then (B i s) <| b_count := b_count (B i s) + 1 |> else B i s).
  { intros i. unfold s2. rewrite B_upd by (unfold s1; destruct (_ =? _); cbn [bufs set_field]; by rewrite Hl).
    replace (B i s1) with (B i s) by (unfold s1; by destruct (_ =? _)). destruct (decide (bp = i)) as [<-|]; [|done].
    unfold set_field. cbn. by rewrite s8_id by lia. }
  assert (Hgot : got U U s dev blk mode bp s2).
  { assert (Hsame : forall i, same_data s s2 i) by (intros i; unfold same_data; rewrite HB; by destruct (decide _)).
    assert (Hcon : forall d b, contents s2 d b = contents s d b).
    { intros d b. unfold contents. rewrite (cached_ext s s2) by (intros i; apply Hsame).
      destruct (cached s d b); [apply Hsame|]. unfold s2, s1. by destruct (_ =? _). }
    split; try done.
    - split.
      + unfold s2. cbn [bufs set_field]. rewrite length_alter. unfold s1. by destruct (_ =? _).
      + eapply LRU_ext; [| | | |exact HLR].
        * intros i. unfold nxt. rewrite HB. by destruct (decide _).
        * intros i. unfold prv. rewrite HB. by destruct (decide _).
        * unfold s2, s1. by destruct (_ =? _).
        * unfold s2, s1. by destruct (_ =? _).
      + unfold HASHED. replace (buf_hash s2) with (buf_hash s) by (unfold s2, s1; by destruct (_ =? _)).
        eapply chains_ext; [| | |exact HH]; [intros i; unfold hsh|intros i; unfold hbucket|done]; rewrite HB; by destruct (decide _).
      + rewrite (count_change s s2 bp) by (first [done|intros j Hj; rewrite HB; by rewrite decide_False]).
        rewrite decide_True by (unfold used; rewrite HB, decide_True by done; cbn; lia).
        pose proof (count_used_range s). unfold s2, s1.
        destruct (Z.eqb_spec (b_count (B bp s)) 0) as [E|E].
        * rewrite decide_False by (unfold used; intros Hn; by apply Hn). cbn [bufs_in_use set_field]. lia.
        * rewrite decide_True by done. cbn [bufs_in_use set_field]. lia.
      + intros i Hi. rewrite HB. destruct (decide _) as [<-|]; [cbn; lia|by apply HC].
      + intros i Hi. destruct (HP i Hi) as [Hlt' Hu]. split; [done|]. unfold used in *. rewrite HB. destruct (decide _) as [<-|]; [cbn; lia|done].
      + destruct HD as [D1 D2 D3 D4 D5]. split.
        * intros i j Hi Hj. destruct (Hsame i) as (-> & -> & _), (Hsame j) as (-> & -> & _). by apply D1.
        * intros i Hi. destruct (Hsame i) as (-> & _). by apply D2.
        * intros i Hi. destruct (Hsame i) as (_ & -> & _). by apply D3.
        * intros i Hi. destruct (Hsame i) as (_ & _ & -> & _). by apply D4.
        * intros i Hi. destruct (Hsame i) as (-> & -> & -> & ->). replace (fext s2) with (fext s) by (unfold s2, s1; by destruct (_ =? _)). by apply D5.
    - by left.
    - destruct (Hsame bp) as (_ & -> & _). done.
    - left. destruct (Hsame bp) as (-> & _). done.
    - intros _ _. destruct (Hsame bp) as (_ & _ & -> & _). symmetry. by eapply contents_hit.
    - intros i. rewrite HB. destruct (decide (bp = i)) as [<-|]; [by rewrite decide_True|by rewrite decide_False, Z.add_0_r].
    - intros i _. destruct (Hsame i) as (? & ? & ? & _). done.
    - unfold s2, s1. by destruct (_ =? _).
    - intros _. unfold s2, s1. by destruct (_ =? _). }
  specialize (HQ s2 Hgot). unfold s2, s1 in HQ. apply wp_bind.
  destruct (Z.eqb_spec (b_count (B bp s)) 0) as [E|E]; cbn [when]; unfold upd_buf; wp_steps; [|exact HQ].
  rewrite <- (s16_inuse (bufs_in_use s)) in HQ; [exact HQ|]. rewrite HU. pose proof (count_used_range s).
  destruct (decide (count_used s = Z.of_nat NR_BUFS)) as [Ef|]; [|lia]. exfalso.
  assert (Hall : forall L, L ≡ₚ all_bufs -> L ≡ₚ all_bufs) by done.
  assert (Hu : used s bp); [|by apply Hu].
  unfold count_used in Ef. apply Nat2Z.inj in Ef. 
  destruct (decide (used s bp)) as [|Hnu]; [done|]. exfalso.
  assert (Hlf : (length (filter (used s) all_bufs) < length all_bufs)%nat).
  { apply length_filter_lt with bp; [by apply elem_of_bufs|done]. }
  unfold all_bufs in Hlf at 2. rewrite length_seq in Hlf. lia.
Qed.

(** *** The block has to be fetched *)

(** [s1] is [s] with the first buffers changed field by field: the state
    after taking [bp] out of its chain and writing its old block back. *)
Lemma take_flush {A} U s bp (k : FS A) Q : cache_ok U s -> (bp < NR_BUFS)%nat -> ~ used s bp ->
  (forall s1, length (bufs s1) = NR_BUFS -> DATA U s1 -> LRU s1 -> core s1 = core s -> rdwt_err s1 = rdwt_err s ->
     bufs_in_use s1 = s16 (bufs_in_use s + 1) ->
     chains (hsh s1) (buf_hash s1) (hbucket s1) (fun i => i <> bp) ->
     (forall d b, d <> NO_DEV -> contents s1 d b = contents s d b) ->
     (forall i, b_dev (B i s1) = b_dev (B i s) /\ b_blocknr (B i s1) = b_blocknr (B i s) /\ b_data (B i s1) = b_data (B i s) /\
        b_count (B i s1) = b_count (B i s)) ->
     (b_dev (B bp s1) <> NO_DEV -> b_dirt (B bp s1) = false) -> wp k Q s1) ->
  wp (modify (fun s => s <| bufs_in_use ::= fun n => s16 (n + 1) |>);; unhash bp;; b ← gets (B bp);
      when (negb (b_dev b =? NO_DEV) && b_dirt b) (flushall (b_dev b));; k) Q s.
Proof.
  intros [Hl HLR HH HU HC HP HD] Hbp Hnu HQ. wp_steps.
  set (s0 := s <| bufs_in_use ::= fun n => s16 (n + 1) |>).
  apply unhash_ok; [done|exact HH|done|by apply (da_blk _ _ HD)|]. intros t tb Ht Hti Hch. wp_steps.
  set (s1 := s0 <| bufs := t |> <| buf_hash := tb |>).
  assert (HB : forall i, exists v, B i s1 = (B i s) <| b_hash := v |>) by (intros i; destruct (Hti i) as [v Hv]; by exists v).
  assert (Hf : forall i, b_dev (B i s1) = b_dev (B i s) /\ b_blocknr (B i s1) = b_blocknr (B i s) /\ b_data (B i s1) = b_data (B i s) /\
    b_count (B i s1) = b_count (B i s) /\ b_dirt (B i s1) = b_dirt (B i s) /\ nxt s1 i = nxt s i /\ prv s1 i = prv s i).
  { intros i. unfold nxt, prv. by destruct (HB i) as [v ->]. }
  assert (HD1 : DATA U s1).
  { destruct HD as [D1 D2 D3 D4 D5]. split.
    - intros i j Hi Hj. destruct (Hf i) as (-> & -> & _), (Hf j) as (-> & -> & _). by apply D1.
    - intros i Hi. destruct (Hf i) as (-> & _). by apply D2.
    - intros i Hi. destruct (Hf i) as (_ & -> & _). by apply D3.
    - intros i Hi. destruct (Hf i) as (_ & _ & -> & _). by apply D4.
    - intros i Hi. destruct (Hf i) as (-> & -> & -> & _ & -> & _). by apply D5. }
  assert (Hc1 : forall d b, contents s1 d b = contents s d b).
  { intros d b. unfold contents. rewrite (cached_ext s s1) by (intros i; apply Hf). destruct (cached s d b); [apply Hf|done]. }
  assert (HL1 : LRU s1).
  { eapply LRU_ext; [| | | |exact HLR]; [intros i; apply Hf|intros i; apply Hf|done|done]. }
  assert (HH1 : chains (hsh s1) (buf_hash s1) (hbucket s1) (fun i => i <> bp)).
  { eapply chains_ext; [| | |exact Hch]; [done| |done]. intros i. unfold hbucket. by destruct (Hf i) as (_ & -> & _). }
  destruct (Hf bp) as (Ed & _ & _ & _ & Edt & _).
  destruct (negb (b_dev (B bp s1) =? NO_DEV) && b_dirt (B bp s1)) eqn:E; cbn [when].
  - apply andb_true_iff in E as [En Edd]. apply negb_true_iff, Z.eqb_neq in En.
    eapply (wp_flushall U); [exact HD1|done|by apply (da_dev _ _ HD1)|]. intros t2 x s2 Ht2 HD2 Hc2 Hti2.
    assert (Hf2 : forall i, b_dev (B i s2) = b_dev (B i s1) /\ b_blocknr (B i s2) = b_blocknr (B i s1) /\ b_data (B i s2) = b_data (B i s1) /\
      b_count (B i s2) = b_count (B i s1) /\ nxt s2 i = nxt s1 i /\ prv s2 i = prv s1 i /\ hsh s2 i = hsh s1 i).
    { intros i. unfold nxt, prv, hsh. change (B i s2) with (t2 !!! i). rewrite Hti2. by destruct (_ && _). }
    apply HQ; try done.
    + eapply LRU_ext; [| | | |exact HL1]; [intros i; apply Hf2|intros i; apply Hf2|done|done].
    + eapply chains_ext; [| | |exact HH1]; [intros i; apply Hf2| |done]. intros i. unfold hbucket. by destruct (Hf2 i) as (_ & -> & _).
    + intros d b Hd. by rewrite Hc2.
    + intros i. destruct (Hf2 i) as (-> & -> & -> & -> & _). split_and!; apply Hf.
    + intros _. change (B bp s2) with (t2 !!! bp). rewrite Hti2, Edd, Z.eqb_refl, (proj2 (Nat.ltb_lt bp NR_BUFS)) by done. done.
  - wp_steps. apply HQ; try done.
    + intros i. split_and!; apply Hf.
    + intros Hn. apply andb_false_iff in E as [E|E]; [|done]. apply negb_false_iff, Z.eqb_eq in E. done.
Qed.

(** Reading the block into buffer [bp]: the new contents, or an invalid
    buffer and an error number. *)
Lemma rw_block_read dev blk bp s (Q : unit -> fst_ X -> Prop) : length (bufs s) = NR_BUFS -> (bp < NR_BUFS)%nat ->
  b_dev (B bp s) = dev -> b_blocknr (B bp s) = blk -> blockdev dev -> blockno blk ->
  (forall s', length (bufs s') = NR_BUFS -> (forall i, i <> bp -> B i s' = B i s) ->
     b_blocknr (B bp s') = blk -> b_dirt (B bp s') = false -> length (b_data (B bp s')) = Z.to_nat BLOCK_SIZE ->
     b_next (B bp s') = b_next (B bp s) -> b_prev (B bp s') = b_prev (B bp s) -> b_hash (B bp s') = b_hash (B bp s) ->
     b_count (B bp s') = b_count (B bp s) ->
     (forall d b, blocks (fext s') d b = blocks (fext s) d b) -> core s' = core s ->
     front s' = front s -> rear s' = rear s -> buf_hash s' = buf_hash s -> bufs_in_use s' = bufs_in_use s ->
     (b_dev (B bp s') = dev /\ b_data (B bp s') = blocks (fext s) dev blk /\ rdwt_err s' = rdwt_err s) \/
       (b_dev (B bp s') = NO_DEV /\ rdwt_err s' <> OK) -> Q tt s') ->
  wp (rw_block bp READING) Q s.
Proof.
  intros Hl Hbp Hd Hb Hdev Hblk HQ. unfold rw_block. wp_steps. rewrite Hd, Hb, block_pos by done.
  rewrite (proj2 (Z.eqb_neq dev NO_DEV)) by (destruct Hdev; lia). cbn [negb when]. change (READING =? READING) with true. cbv iota. wp_steps.
  apply wp_dev_io; [done|]. change (READING =? READING) with true. cbv iota. intros a x Ea.
  apply disk_read in Ea as (Hok & Hns & Hlen & Hsame & Hdat); [|done|done]. split_and!; [done|done|]. cbn [when].
  unfold upd_buf. wp_steps.
  assert (Hupd : forall f g i, B i (s <| fext := x |> <| bufs ::= alter f bp |> <| bufs ::= alter g bp |>) = if decide (bp = i) then g (f (B i s)) else B i s).
  { intros f g i. rewrite !B_upd by (cbn [bufs set_field]; rewrite ?length_alter, Hl; done). by destruct (decide _). }
  destruct (Z.eqb_spec (rep_status a) BLOCK_SIZE) as [E|E]; cbn [negb when]; wp_steps.
  - apply HQ; try done; try (rewrite Hupd, decide_True by done; done).
    + cbn [bufs set_field]. by rewrite !length_alter, Hl.
    + intros i Hi. by rewrite Hupd, decide_False.
    + left. rewrite Hupd, decide_True by done. split_and!; [done|cbn; by apply Hdat|done].
  - assert (Herr : (if 0 <=? rep_status a then END_OF_FILE else rep_status a) <> OK) by (destruct (Z.leb_spec 0 (rep_status a)); [done|unfold OK; lia]).
    assert (Hupd3 : forall i v, B i (s <| fext := x |> <| bufs ::= alter (fun b => b <| b_data := an_data a !!! 0%nat |>) bp |> <| bufs ::= alter (fun b => b <| b_dev := NO_DEV |>) bp |>
       <| rdwt_err := v |> <| bufs ::= alter (fun b => b <| b_dirt := false |>) bp |>) =
       if decide (bp = i) then (B i s) <| b_data := an_data a !!! 0%nat |> <| b_dev := NO_DEV |> <| b_dirt := false |> else B i s).
    { intros i v. rewrite B_upd by (cbn [bufs set_field]; rewrite ?length_alter, Hl; done).
      match goal with |- context [B i (?st <| rdwt_err := v |>)] => change (B i (st <| rdwt_err := v |>)) with (B i st) end.
      rewrite Hupd. by destruct (decide _). }
    apply HQ; try done; try (rewrite Hupd3, decide_True by done; done).
    + cbn [bufs set_field]. by rewrite !length_alter, Hl.
    + intros i Hi. by rewrite Hupd3, decide_False.
    + right. rewrite Hupd3, decide_True by done. done.
Qed.

Lemma take_ok U s dev blk mode bp (Q : nat -> fst_ X -> Prop) : cache_ok U s -> blockdev dev -> blockno blk ->
  mode = NORMAL \/ mode = NO_READ -> cached s dev blk = None -> (bp < NR_BUFS)%nat -> ~ used s bp -> bufs_in_use s < Z.of_nat NR_BUFS ->
  (forall U' s', got U U' s dev blk mode bp s' -> Q bp s') ->
  wp (take_buf bp dev blk mode) Q s.
Proof.
  intros Hok Hdev Hblk Hmode Hc Hbp Hnu Hroom HQ. pose proof Hok as [Hl HLR HH HU HC HP HD].
  assert (Hnd : dev <> NO_DEV) by (destruct Hdev; lia).
  assert (HbU : bp ∉ U) by (intros Hi; by apply HP in Hi as [_ ?]).
  assert (Hc0 : b_count (B bp s) = 0) by (unfold used in Hnu; lia).
  unfold take_buf. apply (take_flush U); [done..|]. intros s1 Hl1 HD1 HL1 Hco1 Her1 Hu1 Hch1 Hcon1 Hf1 Hcl1.
  unfold upd_buf. wp_steps.
  match goal with |- wp _ _ ?x => set (s2 := x) end.
  assert (HB2 : forall i, B i s2 = if decide (bp = i) then
    (B i s1) <| b_dev := dev |> <| b_blocknr := blk |> <| b_count := 1 |> <| b_hash := buf_hash s1 !!! hash_of blk |> else B i s1).
  { intros i. transitivity (B i (s1 <| bufs ::= alter (fun b => b <| b_dev := if mode =? PREFETCH then NO_DEV else dev |>) bp |>
      <| bufs ::= alter (fun b => b <| b_blocknr := blk |>) bp |> <| bufs ::= alter (fun b => b <| b_count ::= fun c => s8 (c + 1) |>) bp |>
      <| bufs ::= alter (fun b => b <| b_hash := buf_hash s1 !!! hash_of blk |>) bp |>)); [done|].
    rewrite !B_upd by (cbn [bufs set_field]; rewrite ?length_alter, Hl1; done). destruct (decide (bp = i)) as [<-|]; [|done].
    destruct (Hf1 bp) as (_ & _ & _ & E). rewrite Hc0 in E. destruct (B bp s1). cbn in E. subst.
    unfold set_field. cbn. by replace (mode =? PREFETCH) with false by (by destruct Hmode as [->| ->]). }
  assert (Hoth : forall i, i <> bp -> B i s2 = B i s1) by (intros i Hi; by rewrite HB2, decide_False).
  assert (Hbp2 : b_dev (B bp s2) = dev /\ b_blocknr (B bp s2) = blk /\ b_data (B bp s2) = b_data (B bp s1) /\ b_count (B bp s2) = 1 /\
    nxt s2 bp = nxt s1 bp /\ prv s2 bp = prv s1 bp /\ hsh s2 bp = buf_hash s1 !!! hash_of blk).
  { unfold nxt, prv, hsh. by rewrite HB2, decide_True. }
  destruct Hbp2 as (F1 & F2 & F3 & F4 & F5 & F6 & F7).
  assert (Hc1 : cached s1 dev blk = None) by (rewrite <- Hc; apply cached_ext; intros i; apply Hf1).
  assert (Hl2 : length (bufs s2) = NR_BUFS) by (unfold s2; cbn [bufs set_field]; by rewrite !length_alter).
  destruct (relabel_ok U s1 s2 bp dev blk) as [HD2 Hcon2]; try done.
  { intros i Hi. unfold same_data. by rewrite Hoth. }
  assert (HL2 : LRU s2).
  { eapply LRU_ext; [| | | |exact HL1]; [intros i; destruct (decide (i = bp)) as [->|Hi]; [done|unfold nxt; by rewrite Hoth]
      |intros i; destruct (decide (i = bp)) as [->|Hi]; [done|unfold prv; by rewrite Hoth]|done|done]. }
  assert (HH2 : HASHED s2).
  { eapply (chains_add (hsh s1) _ (buf_hash s1) (hbucket s1) (hbucket s2) bp) in Hch1.
    - unfold HASHED. replace (buf_hash s2) with (<[hbucket s2 bp := Some bp]> (buf_hash s1)); [exact Hch1|].
      unfold hbucket. by rewrite F2.
    - done.
    - apply bucket_bound. by rewrite F2.
    - rewrite F7. unfold hbucket. by rewrite F2.
    - intros i Hi. unfold hsh. by rewrite Hoth.
    - intros i Hi. unfold hbucket. by rewrite Hoth. }
  assert (Hcnt2 : forall i, b_count (B i s2) = b_count (B i s) + (if decide (i = bp) then 1 else 0)).
  { intros i. destruct (decide (i = bp)) as [->|Hi]; [lia|]. rewrite Hoth, Z.add_0_r by done. apply Hf1. }
  assert (Hu2 : bufs_in_use s2 = count_used s2).
  { change (bufs_in_use s2) with (bufs_in_use s1). rewrite Hu1, (count_change s s2 bp), HU by
      (first [done|intros j Hj; by rewrite Hcnt2, decide_False, Z.add_0_r]).
    pose proof (count_used_range s). rewrite s16_inuse by lia. rewrite decide_True by (unfold used; lia). rewrite decide_False by done. lia. }
  assert (Hheld2 : forall i, used s i -> i <> bp) by (intros i Hi ->; done).
  rewrite (proj2 (Z.eqb_neq dev NO_DEV)) by done. cbn [negb andb]. destruct Hmode as [->| ->].
  - change (NORMAL =? NORMAL) with true. cbn [when]. wp_steps.
    apply (rw_block_read dev blk bp); try done.
    intros s3 Hl3 Hoth3 G1 G2 G3 G4 G5 G6 G7 Hx3 Hco3 Hfr3 Hre3 Hbh3 Hus3 Hor. wp_steps.
    destruct (fill_ok U s2 s3 bp dev blk) as (HD3 & Hcon3 & Hcon3'); try done.
    { intros i Hi. unfold same_data. by rewrite Hoth3. }
    { destruct Hor as [(? & ? & _)|[? _]]; [by left|by right]. }
    assert (Hcnt3 : forall i, b_count (B i s3) = b_count (B i s2)).
    { intros i. destruct (decide (i = bp)) as [->|Hi]; [done|by rewrite Hoth3]. }
    apply (HQ U). split; try done.
    + split; try done.
      * eapply LRU_ext; [| | | |exact HL2]; [intros i; destruct (decide (i = bp)) as [->|Hi]; [done|unfold nxt; by rewrite Hoth3]
          |intros i; destruct (decide (i = bp)) as [->|Hi]; [done|unfold prv; by rewrite Hoth3]|done|done].
      * unfold HASHED. rewrite Hbh3. eapply chains_ext; [| | |exact HH2]; [| |done].
        -- intros i; destruct (decide (i = bp)) as [->|Hi]; [done|unfold hsh; by rewrite Hoth3].
        -- intros i; destruct (decide (i = bp)) as [->|Hi]; unfold hbucket; [by rewrite G1, F2|by rewrite Hoth3].
      * rewrite Hus3, Hu2. symmetry. by apply count_ext.
      * intros i Hi. rewrite Hcnt3, Hcnt2. destruct (decide _) as [->|]; [lia|]. specialize (HC i Hi). lia.
      * intros i Hi. destruct (HP i Hi) as [? Hu]. split; [done|]. unfold used in *. rewrite Hcnt3, Hcnt2.
        rewrite decide_False by (intros ->; done). by rewrite Z.add_0_r.
    + by left.
    + destruct Hor as [(? & _)|[? ?]]; [by left|by right].
    + intros _ Hd3. destruct Hor as [(_ & -> & _)|[E _]]; [|congruence]. change (fext s2) with (fext s1). rewrite <- (contents_miss s1 dev blk Hc1). by apply Hcon1.
    + intros d b Hd _. destruct (decide (d = dev /\ b = blk)) as [[-> ->]|Hne].
      * rewrite Hcon3. change (fext s2) with (fext s1). rewrite <- (contents_miss s1 dev blk Hc1). by apply Hcon1.
      * rewrite Hcon3', Hcon2, Hcon1 by done. done.
    + intros i. by rewrite Hcnt3, Hcnt2.
    + intros i Hi. rewrite Hoth3, Hoth by by apply Hheld2. destruct (Hf1 i) as (? & ? & ? & _). done.
    + rewrite Hco3. exact Hco1.
    + intros Hd3. destruct Hor as [(_ & _ & ->)|[E _]]; [exact Her1|congruence].
  - change (NO_READ =? NORMAL) with false. cbn [when]. wp_steps. apply (HQ (bp :: U)). split; try done.
    + split; try done.
      * intros i Hi. rewrite Hcnt2. destruct (decide _) as [->|]; [lia|]. specialize (HC i Hi). lia.
      * intros i [->|Hi]%elem_of_cons; [split; [done|unfold used; lia]|]. destruct (HP i Hi) as [? Hu]. split; [done|].
        unfold used in *. rewrite Hcnt2. rewrite decide_False by (intros ->; done). by rewrite Z.add_0_r.
    + by right.
    + by left.
    + intros d b Hd [?|Hne]; [done|]. by rewrite Hcon2, Hcon1.
    + intros i Hi. rewrite Hoth by by apply Hheld2. destruct (Hf1 i) as (? & ? & ? & _). done.
Qed.

Lemma get_block_ok U s dev blk mode (Q : nat -> fst_ X -> Prop) : cache_ok U s -> blockdev dev -> blockno blk ->
  mode = NORMAL \/ mode = NO_READ ->
  match cached s dev blk with Some i => b_count (B i s) < 127 | None => bufs_in_use s < Z.of_nat NR_BUFS end ->
  (forall bp U' s', got U U' s dev blk mode bp s' -> Q bp s') ->
  wp (get_block dev blk mode) Q s.
Proof.
  intros Hok Hdev Hblk Hmode Hroom HQ. pose proof Hok as [Hl HLR HH HU HC HP HD].
  assert (Hnd : dev <> NO_DEV) by (destruct Hdev; lia).
  unfold get_block. rewrite (proj2 (Z.eqb_neq dev NO_DEV)) by done. cbn [negb]. wp_steps.
  pose proof HH as [_ Hc]. destruct (Hc (hash_of blk) (bucket_bound _ Hblk)) as (l & Hll & Hnd' & Hin).
  apply (hash_find_ok dev blk s l); [done| |].
  { pose proof (length_chain l Hnd' ltac:(intros i Hi; by apply Hin)). unfold chain_fuel. lia. }
  rewrite (cached_chain U s dev blk l HD Hnd Hin). destruct (cached s dev blk) as [bp|] eqn:E.
  - apply (get_hit U s dev blk mode bp); [done..|]. intros s' Hg. by eapply HQ.
  - wp_steps. rewrite (proj2 (Z.eqb_neq (bufs_in_use s) _)) by lia. wp_steps.
    destruct HLR as (L & HL1 & HL2 & HLp).
    assert (HLl : length L = NR_BUFS) by (rewrite HLp; unfold all_bufs; by rewrite length_seq).
    destruct (front s) as [f|] eqn:Ef; [|apply llist_nil in HL1; subst L; done]. wp_steps.
    apply (lru_find_ok s L); [done|unfold chain_fuel; lia|apply (some_unused s L HLp); lia|].
    intros bp Hbp Hnu. eapply (take_ok U); try done.
    + apply elem_of_bufs. by rewrite <- HLp.
    + intros U' s' Hg. by eapply HQ.
Qed.

(** ** The LRU list *)

(** Only the LRU links change. *)
Record linkonly s s' : Prop := {
  lo_len : length (bufs s') = length (bufs s);
  lo_at i : exists n p, B i s' = (B i s) <| b_next := n |> <| b_prev := p |>;
  lo_hash : buf_hash s' = buf_hash s;
  lo_use : bufs_in_use s' = bufs_in_use s;
  lo_ext : fext s' = fext s;
  lo_core : core s' = core s;
  lo_err : rdwt_err s' = rdwt_err s;
}.

Lemma lo_trans s1 s2 s3 : linkonly s1 s2 -> linkonly s2 s3 -> linkonly s1 s3.
Proof.
  intros [A1 A2 A3 A4 A5 A6 A7] [B1 B2 B3 B4 B5 B6 B7]. split; try congruence.
  intros i. destruct (A2 i) as (n & p & E), (B2 i) as (n' & p' & E'). exists n', p'. by rewrite E', E.
Qed.
Lemma lo_next s i v : (i < length (bufs s))%nat -> let s' := s <| bufs ::= alter (fun b => b <| b_next := v |>) i |> in
  linkonly s s' /\ (forall j, nxt s' j = if decide (i = j) then v else nxt s j) /\ (forall j, prv s' j = prv s j) /\
  front s' = front s /\ rear s' = rear s.
Proof.
  intros Hi s'. assert (HB : forall j, B j s' = if decide (i = j) then (B j s) <| b_next := v |> else B j s) by (intros; by apply B_upd).
  split_and!; try done.
  - split; try done; [unfold s'; cbn [bufs set_field]; by rewrite length_alter|].
    intros j. rewrite HB. destruct (decide _); [exists v, (b_prev (B j s))|exists (b_next (B j s)), (b_prev (B j s))]; by destruct (B j s).
  - intros j. unfold nxt. rewrite HB. by destruct (decide _).
  - intros j. unfold prv. rewrite HB. by destruct (decide _).
Qed.
Lemma lo_prev s i v : (i < length (bufs s))%nat -> let s' := s <| bufs ::= alter (fun b => b <| b_prev := v |>) i |> in
  linkonly s s' /\ (forall j, prv s' j = if decide (i = j) then v else prv s j) /\ (forall j, nxt s' j = nxt s j) /\
  front s' = front s /\ rear s' = rear s.
Proof.
  intros Hi s'. assert (HB : forall j, B j s' = if decide (i = j) then (B j s) <| b_prev := v |> else B j s) by (intros; by apply B_upd).
  split_and!; try done.
  - split; try done; [unfold s'; cbn [bufs set_field]; by rewrite length_alter|].
    intros j. rewrite HB. destruct (decide _); [exists (b_next (B j s)), v|exists (b_next (B j s)), (b_prev (B j s))]; by destruct (B j s).
  - intros j. unfold prv. rewrite HB. by destruct (decide _).
  - intros j. unfold nxt. rewrite HB. by destruct (decide _).
Qed.
Lemma lo_ends s f r : linkonly s (s <| front := f |>) /\ linkonly s (s <| rear := r |>).
Proof.
  split; split; try done; intros j; exists (b_next (B j s)), (b_prev (B j s)); change (B j (s <| front := f |>)) with (B j s);
    change (B j (s <| rear := r |>)) with (B j s); by destruct (B j s).
Qed.

Lemma unlink_ok s bp l1 l2 (Q : unit -> fst_ X -> Prop) : length (bufs s) = NR_BUFS ->
  lru_of (nxt s) (prv s) (front s) (rear s) (l1 ++ bp :: l2) ->
  (forall s', linkonly s s' -> llist (nxt s') (front s') (l1 ++ l2) -> llist (prv s') (rear s') (reverse (l1 ++ l2)) -> Q tt s') ->
  wp (lru_unlink bp) Q s.
Proof.
  intros Hl (Hn & Hp & Hperm) HQ. assert (Hnd : NoDup (l1 ++ bp :: l2)) by (rewrite Hperm; apply NoDup_seq).
  assert (Hin : forall i, i ∈ l1 ++ bp :: l2 -> (i < length (bufs s))%nat) by (intros i; rewrite Hperm, elem_of_bufs; by rewrite Hl).
  rewrite reverse_app, reverse_cons, <- app_assoc in Hp. cbn [app] in Hp.
  assert (Hnb : nxt s bp = head l2).
  { apply lseg_app in Hn as (q & _ & _ & Hn). destruct l2; [exact Hn|]. by apply lseg_head in Hn. }
  assert (Hpb : prv s bp = last l1).
  { apply lseg_app in Hp as (q & _ & _ & Hp). rewrite <- head_reverse. destruct (reverse l1); [exact Hp|]. by apply lseg_head in Hp. }
  assert (Hndr : NoDup (reverse l2 ++ bp :: reverse l1)).
  { assert (E : reverse (l1 ++ bp :: l2) = reverse l2 ++ bp :: reverse l1) by (rewrite reverse_app, reverse_cons, <- app_assoc; done).
    rewrite <- E, (reverse_Permutation _). done. }
  assert (Hlr : last (reverse l2) = head l2) by (rewrite last_reverse; done).
  assert (Hend : forall s', linkonly s s' ->
    (forall j, nxt s' j = if decide (last l1 = Some j) then head l2 else nxt s j) ->
    (forall j, prv s' j = if decide (head l2 = Some j) then last l1 else prv s j) ->
    front s' = match l1 with [] => head l2 | _ => front s end ->
    rear s' = match reverse l2 with [] => last l1 | _ => rear s end -> Q tt s').
  { intros s' Hlo Hn' Hp' Hf' Hr'. apply HQ; [done| |].
    - eapply (lseg_unlink (nxt s)); try done.
      + intros j Hj. by rewrite Hn', decide_True.
      + intros j _ Hj. by rewrite Hn', decide_False.
      + rewrite Hf', Hnb. done.
    - rewrite reverse_app. eapply (lseg_unlink (prv s)); try done.
      + intros j Hj. rewrite Hlr in Hj. by rewrite Hp', decide_True, Hpb.
      + intros j _ Hj. rewrite Hlr in Hj. by rewrite Hp', decide_False.
      + rewrite Hr', Hpb. done. }
  clear HQ. unfold lru_unlink. wp_steps. change (b_prev (B bp s)) with (prv s bp). change (b_next (B bp s)) with (nxt s bp). rewrite Hnb, Hpb.
  assert (Hpart : forall s1, linkonly s s1 -> (forall j, nxt s1 j = if decide (last l1 = Some j) then head l2 else nxt s j) ->
    (forall j, prv s1 j = prv s j) -> front s1 = match l1 with [] => head l2 | _ => front s end -> rear s1 = rear s ->
    wp (match head l2 with Some n => upd_buf n (fun b => b <| b_prev := last l1 |>) | None => modify (fun s => s <| rear := last l1 |>) end) Q s1).
  { intros s1 Hlo1 Hn1 Hp1 Hf1 Hr1. destruct l2 as [|n l2]; cbn [head] in *.
    - wp_steps. apply Hend; try done. eapply lo_trans; [done|by apply (lo_ends s1 None)].
    - unfold upd_buf. wp_steps. destruct (lo_prev s1 n (last l1)) as (G1 & G2 & G3 & G4 & G5).
      { rewrite (lo_len _ _ Hlo1). apply Hin. set_solver. }
      apply Hend.
      + by eapply lo_trans.
      + intros j. by rewrite G3.
      + intros j. rewrite G2. destruct (decide (n = j)) as [->|Hne]; [by rewrite decide_True|]. by rewrite decide_False by congruence.
      + by rewrite G4.
      + rewrite G5, Hr1. rewrite reverse_cons. by destruct (reverse l2). }
  destruct l1 as [|p l1 _] using rev_ind.
  - cbn [last]. wp_steps. apply Hpart; try done. by apply (lo_ends s _ None).
  - rewrite last_snoc in *. unfold upd_buf. wp_steps. destruct (lo_next s p (head l2)) as (G1 & G2 & G3 & G4 & G5).
    { apply Hin. set_solver. }
    apply Hpart; try done.
    + intros j. rewrite G2. destruct (decide (p = j)) as [->|Hne]; [by rewrite decide_True|]. by rewrite decide_False by congruence.
    + rewrite G4. by destruct l1.
Qed.

(** Adding [bp] at the end of a list of links, and at its head. *)
Lemma lseg_push n n' p p' L bp : llist n p L -> NoDup L -> bp ∉ L -> n' bp = None ->
  (forall j, j ∈ L -> n' j = if decide (last L = Some j) then Some bp else n j) ->
  p' = match L with [] => Some bp | _ => p end -> llist n' p' (L ++ [bp]).
Proof.
  intros Hl Hnd Hn Hbp Hoth ->. destruct L as [|x L _] using rev_ind; [by split|].
  apply lseg_snoc in Hl as [Hl Hx]. rewrite last_snoc in Hoth.
  replace (match L ++ [x] with [] => Some bp | _ => p end) with p by (by destruct L).
  apply NoDup_app in Hnd as (_ & Hd & _). apply lseg_snoc. split; [|done]. apply lseg_snoc. split.
  - eapply lseg_frame; [|exact Hl]. intros j Hj. rewrite Hoth by set_solver. rewrite decide_False; [done|].
    intros [= ->]. apply (Hd j Hj). set_solver.
  - rewrite Hoth by set_solver. by rewrite decide_True.
Qed.
Lemma lseg_cons n n' p L bp : llist n p L -> bp ∉ L -> n' bp = p -> (forall j, j ∈ L -> n' j = n j) ->
  llist n' (Some bp) (bp :: L).
Proof. intros Hl Hn Hbp Hoth. split; [done|]. rewrite Hbp. by eapply lseg_frame. Qed.
Lemma head_is {A} (L : list A) : match L with [] => None | x :: _ => Some x end = head L.
Proof. done. Qed.
Lemma llist_head n p L : llist n p L -> p = head L.
Proof. destruct L; [done|]. by intros [-> _]. Qed.

Lemma lru_front_ok s bp L (Q : unit -> fst_ X -> Prop) : length (bufs s) = NR_BUFS -> bp :: L ≡ₚ all_bufs ->
  llist (nxt s) (front s) L -> llist (prv s) (rear s) (reverse L) ->
  (forall s', linkonly s s' -> LRU s' -> Q tt s') -> wp (lru_front bp) Q s.
Proof.
  intros Hl Hperm Hn Hp HQ. pose proof (NoDup_seq 0 NR_BUFS) as Hnd. change (seq 0 NR_BUFS) with all_bufs in Hnd.
  rewrite <- Hperm in Hnd. apply NoDup_cons in Hnd as [Hnin Hnd].
  assert (Hin : forall i, i ∈ bp :: L -> (i < NR_BUFS)%nat) by (intros i; rewrite Hperm; apply elem_of_bufs).
  unfold lru_front, upd_buf. wp_steps. pose proof (llist_head _ _ _ Hn) as Hf. rewrite Hf.
  destruct (lo_prev s bp None) as (A1 & A2 & A3 & A4 & A5); [rewrite Hl; apply Hin; set_solver|].
  set (s1 := s <| bufs ::= alter (fun b => b <| b_prev := None |>) bp |>) in *.
  destruct (lo_next s1 bp (head L)) as (B1 & B2 & B3 & B4 & B5); [rewrite (lo_len _ _ A1), Hl; apply Hin; set_solver|].
  set (s2 := s1 <| bufs ::= alter (fun b => b <| b_next := head L |>) bp |>) in *.
  assert (Hend : forall s3, linkonly s2 s3 -> (forall j, nxt s3 j = nxt s2 j) ->
    (forall j, prv s3 j = if decide (head L = Some j) then Some bp else prv s2 j) -> rear s3 = match reverse L with [] => Some bp | _ => rear s2 end ->
    Q tt (s3 <| front := Some bp |>)).
  { intros s3 C1 C2 C3 C4. apply HQ.
    - eapply lo_trans; [exact A1|]. eapply lo_trans; [exact B1|]. eapply lo_trans; [exact C1|]. by apply (lo_ends s3 _ None).
    - exists (bp :: L). split_and!; [| |done].
      + apply (lseg_cons (nxt s) _ (front s)); [done|done| |].
        * change (nxt s3 bp = front s). by rewrite C2, B2, decide_True, Hf.
        * intros j Hj. change (nxt s3 j = nxt s j). rewrite C2, B2, decide_False, A3 by (intros ->; done). done.
      + rewrite reverse_cons. apply (lseg_push (prv s) _ (rear s)); [done|by rewrite (reverse_Permutation _)|set_solver| | |].
        * change (prv s3 bp = None). rewrite C3, decide_False by (intros E%head_Some_elem_of; done). rewrite B3, A2. by rewrite decide_True.
        * intros j Hj. change (prv s3 j = if decide (last (reverse L) = Some j) then Some bp else prv s j).
          rewrite C3, last_reverse. destruct (decide (head L = Some j)); [done|]. rewrite B3, A2, decide_False; [done|]. intros ->. set_solver.
        * change (rear s3 = match reverse L with [] => Some bp | _ => rear s end). rewrite C4, B5, A5. done. }
  destruct L as [|f L]; cbn [head] in *; wp_steps.
  - apply Hend; try done. by apply (lo_ends s2 None).
  - destruct (lo_prev s2 f (Some bp)) as (C1 & C2 & C3 & C4 & C5).
    { rewrite (lo_len _ _ B1), (lo_len _ _ A1), Hl. apply Hin. set_solver. }
    apply Hend; try done.
    + intros j. rewrite C2. destruct (decide (f = j)) as [->|]; [by rewrite decide_True|by rewrite decide_False by congruence].
    + rewrite C5, reverse_cons. by destruct (reverse L).
Qed.

Lemma lru_rear_ok s bp L (Q : unit -> fst_ X -> Prop) : length (bufs s) = NR_BUFS -> bp :: L ≡ₚ all_bufs ->
  llist (nxt s) (front s) L -> llist (prv s) (rear s) (reverse L) ->
  (forall s', linkonly s s' -> LRU s' -> Q tt s') -> wp (lru_rear bp) Q s.
Proof.
  intros Hl Hperm Hn Hp HQ. pose proof (NoDup_seq 0 NR_BUFS) as Hnd. change (seq 0 NR_BUFS) with all_bufs in Hnd.
  rewrite <- Hperm in Hnd. apply NoDup_cons in Hnd as [Hnin Hnd].
  assert (Hin : forall i, i ∈ bp :: L -> (i < NR_BUFS)%nat) by (intros i; rewrite Hperm; apply elem_of_bufs).
  unfold lru_rear, upd_buf. wp_steps. pose proof (llist_head _ _ _ Hp) as Hf. rewrite head_reverse in Hf. rewrite Hf.
  destruct (lo_prev s bp (last L)) as (A1 & A2 & A3 & A4 & A5); [rewrite Hl; apply Hin; set_solver|].
  set (s1 := s <| bufs ::= alter (fun b => b <| b_prev := last L |>) bp |>) in *.
  destruct (lo_next s1 bp None) as (B1 & B2 & B3 & B4 & B5); [rewrite (lo_len _ _ A1), Hl; apply Hin; set_solver|].
  set (s2 := s1 <| bufs ::= alter (fun b => b <| b_next := None |>) bp |>) in *.
  assert (Hend : forall s3, linkonly s2 s3 -> (forall j, prv s3 j = prv s2 j) ->
    (forall j, nxt s3 j = if decide (last L = Some j) then Some bp else nxt s2 j) -> front s3 = match L with [] => Some bp | _ => front s2 end ->
    Q tt (s3 <| rear := Some bp |>)).
  { intros s3 C1 C2 C3 C4. apply HQ.
    - eapply lo_trans; [exact A1|]. eapply lo_trans; [exact B1|]. eapply lo_trans; [exact C1|]. by apply (lo_ends s3 None).
    - exists (L ++ [bp]). split_and!.
      + apply (lseg_push (nxt s) _ (front s)); [done|done|done| | |].
        * change (nxt s3 bp = None). rewrite C3, decide_False by (intros E%last_Some_elem_of; done). rewrite B2. by rewrite decide_True.
        * intros j Hj. change (nxt s3 j = if decide (last L = Some j) then Some bp else nxt s j).
          rewrite C3. destruct (decide (last L = Some j)); [done|]. rewrite B2, decide_False, A3; [done|]. by intros ->.
        * change (front s3 = match L with [] => Some bp | _ => front s end). rewrite C4, B4, A4. done.
      + rewrite reverse_app. apply (lseg_cons (prv s) _ (rear s)); [done|set_solver| |].
        * change (prv s3 bp = rear s). by rewrite C2, B3, A2, decide_True, Hf.
        * intros j Hj. change (prv s3 j = prv s j). rewrite C2, B3, A2, decide_False; [done|]. intros ->. set_solver.
      + by rewrite <- Permutation_cons_append. }
  destruct (last L) as [r|] eqn:El; wp_steps.
  - destruct (lo_next s2 r (Some bp)) as (C1 & C2 & C3 & C4 & C5).
    { rewrite (lo_len _ _ B1), (lo_len _ _ A1), Hl. apply Hin. apply last_Some_elem_of in El. set_solver. }
    apply Hend; try done.
    + intros j. rewrite C2. destruct (decide (r = j)) as [->|]; [by rewrite decide_True|by rewrite decide_False by congruence].
    + rewrite C4. by destruct L.
  - apply last_None in El as ->. apply Hend; try done. by apply (lo_ends s2 _ None).
Qed.

(** ** Releasing a block *)

(** A step of [put_block] on the unused buffer [bp]: all but its own fields
    stays. *)
Record kept (bp : nat) (U : list nat) s s' : Prop := {
  k_ok : cache_ok U s';
  k_con d b : d <> NO_DEV -> contents s' d b = contents s d b;
  k_core : core s' = core s;
  k_err : rdwt_err s' = rdwt_err s;
  k_count i : b_count (B i s') = b_count (B i s);
  k_held i : i <> bp -> b_dev (B i s') = b_dev (B i s) /\ b_blocknr (B i s') = b_blocknr (B i s) /\ b_data (B i s') = b_data (B i s);
}.

Lemma kept_refl bp U s : cache_ok U s -> kept bp U s s.
Proof. by split. Qed.
Lemma kept_trans bp U s1 s2 s3 : kept bp U s1 s2 -> kept bp U s2 s3 -> kept bp U s1 s3.
Proof.
  intros [A1 A2 A3 A4 A5 A6] [B1 B2 B3 B4 B5 B6]. split; [done|..].
  - intros d b Hd. by rewrite B2, A2.
  - congruence.
  - congruence.
  - intros i. by rewrite B5, A5.
  - intros i Hi. destruct (A6 i Hi) as (<- & <- & <-). by apply B6.
Qed.

Lemma data_ext U s s' : (forall i, same_data s s' i) -> (forall d b, blocks (fext s') d b = blocks (fext s) d b) ->
  DATA U s -> DATA U s' /\ (forall d b, contents s' d b = contents s d b).
Proof.
  intros Hs Hx [D1 D2 D3 D4 D5]. split.
  - split.
    + intros i j Hi Hj. destruct (Hs i) as (-> & -> & _), (Hs j) as (-> & -> & _). by apply D1.
    + intros i Hi. destruct (Hs i) as (-> & _). by apply D2.
    + intros i Hi. destruct (Hs i) as (_ & -> & _). by apply D3.
    + intros i Hi. destruct (Hs i) as (_ & _ & -> & _). by apply D4.
    + intros i Hi. rewrite Hx. destruct (Hs i) as (-> & -> & -> & ->). by apply D5.
  - intros d b. unfold contents. rewrite (cached_ext s s') by (intros i; apply Hs). destruct (cached s d b); [apply Hs|apply Hx].
Qed.

Lemma linkonly_kept bp U s s' : cache_ok U s -> linkonly s s' -> LRU s' -> kept bp U s s'.
Proof.
  intros [Hl HLR HH HU HC HP HD] [A1 A2 A3 A4 A5 A6 A7] HL'.
  assert (HB : forall i, b_dev (B i s') = b_dev (B i s) /\ b_blocknr (B i s') = b_blocknr (B i s) /\ b_data (B i s') = b_data (B i s) /\
    b_dirt (B i s') = b_dirt (B i s) /\ b_count (B i s') = b_count (B i s) /\ hsh s' i = hsh s i).
  { intros i. unfold hsh. by destruct (A2 i) as (n & p & ->). }
  destruct (data_ext U s s') as [HD' Hcon]; [|by rewrite A5|done|].
  { intros i. unfold same_data. split_and!; apply HB. }
  split; try done.
  - split; try done.
    + congruence.
    + unfold HASHED. rewrite A3. eapply chains_ext; [| | |exact HH]; [intros i; apply HB| |done].
      intros i. unfold hbucket. by destruct (HB i) as (_ & -> & _).
    + rewrite A4, HU. symmetry. apply count_ext. intros i. apply HB.
    + intros i Hi. destruct (HB i) as (_ & _ & _ & _ & -> & _). by apply HC.
    + intros i Hi. destruct (HP i Hi) as [? Hu]. split; [done|]. unfold used in *. by destruct (HB i) as (_ & _ & _ & _ & -> & _).
  - intros i. apply HB.
  - intros i _. split_and!; apply HB.
Qed.

(** Writing the block back. *)
Lemma write_kept bp U s (Q : unit -> fst_ X -> Prop) : cache_ok U s -> (bp < NR_BUFS)%nat -> bp ∉ U -> b_dev (B bp s) <> NO_DEV ->
  (forall s', kept bp U s s' -> b_dirt (B bp s') = false -> Q tt s') -> wp (rw_block bp WRITING) Q s.
Proof.
  intros [Hl HLR HH HU HC HP HD] Hbp HbU Hnd HQ. pose proof (da_dev _ _ HD bp Hbp Hnd) as Hdev. pose proof (da_blk _ _ HD bp Hbp) as Hblk.
  unfold rw_block. wp_steps. rewrite block_pos by done. rewrite (proj2 (Z.eqb_neq _ NO_DEV)) by done. cbn [negb when].
  change (WRITING =? READING) with false. cbv iota. wp_steps. apply wp_dev_io; [done|].
  change (WRITING =? READING) with false. change (WRITING =? WRITING) with true. cbv iota. intros a x Ea.
  apply disk_write in Ea as (Hok & Hr & Hx); [|done..|by apply (da_size _ _ HD)]. split_and!; [done|by rewrite Hr|].
  rewrite Hr, Z.eqb_refl. cbn [negb when]. unfold upd_buf. wp_steps.
  set (s' := s <| fext := x |> <| bufs ::= alter (fun b => b <| b_dirt := false |>) bp |>).
  assert (HB : forall i, B i s' = if decide (bp = i) then clean (B i s) else B i s).
  { intros i. transitivity (B i (s <| fext := x |> <| bufs ::= alter (fun b => b <| b_dirt := false |>) bp |>)); [done|].
    rewrite B_upd by (cbn [bufs set_field]; by rewrite Hl). by destruct (decide _). }
  assert (Hf : forall i, b_dev (B i s') = b_dev (B i s) /\ b_blocknr (B i s') = b_blocknr (B i s) /\ b_data (B i s') = b_data (B i s) /\
    b_count (B i s') = b_count (B i s) /\ hsh s' i = hsh s i /\ nxt s' i = nxt s i /\ prv s' i = prv s i).
  { intros i. unfold hsh, nxt, prv. rewrite HB. by destruct (decide _). }
  apply HQ; [|by rewrite HB, decide_True]. split; try done.
  - split; try done.
    + unfold s'. cbn [bufs set_field]. by rewrite length_alter.
    + eapply LRU_ext; [| | | |exact HLR]; [intros i; apply Hf|intros i; apply Hf|done|done].
    + eapply chains_ext; [| | |exact HH]; [intros i; apply Hf| |done]. intros i. unfold hbucket. by destruct (Hf i) as (_ & -> & _).
    + change (bufs_in_use s') with (bufs_in_use s). rewrite HU. symmetry. apply count_ext. intros i. apply Hf.
    + intros i Hi. destruct (Hf i) as (_ & _ & _ & -> & _). by apply HC.
    + intros i Hi. destruct (HP i Hi) as [? Hu]. split; [done|]. unfold used in *. by destruct (Hf i) as (_ & _ & _ & -> & _).
    + destruct HD as [D1 D2 D3 D4 D5]. split.
      * intros i j Hi Hj. destruct (Hf i) as (-> & -> & _), (Hf j) as (-> & -> & _). by apply D1.
      * intros i Hi. destruct (Hf i) as (-> & _). by apply D2.
      * intros i Hi. destruct (Hf i) as (_ & -> & _). by apply D3.
      * intros i Hi. destruct (Hf i) as (_ & _ & -> & _). by apply D4.
      * intros i Hi. change (fext s') with x. rewrite Hx. unfold write_one. rewrite HB.
        destruct (decide (bp = i)) as [<-|Hne].
        -- intros _ _ _. change (b_dev (clean (B bp s))) with (b_dev (B bp s)). change (b_blocknr (clean (B bp s))) with (b_blocknr (B bp s)).
           by rewrite decide_True.
        -- intros Hn Hc Hu. rewrite decide_False; [by apply D5|]. intros [E1 E2]. apply Hne. symmetry. by apply D1.
  - intros d b Hd. unfold contents. rewrite (cached_ext s s') by (intros i; apply Hf). destruct (cached s d b) as [i|] eqn:Ec; [apply Hf|].
    change (fext s') with x. rewrite Hx. unfold write_one. rewrite decide_False; [done|]. intros [-> ->]. by eapply (cached_none s _ _ bp Ec).
  - intros i. apply Hf.
  - intros i _. split_and!; apply Hf.
Qed.

(** Forgetting a clean block. *)
Lemma forget_kept bp U s : cache_ok U s -> (bp < NR_BUFS)%nat -> bp ∉ U -> b_dev (B bp s) = NO_DEV \/ b_dirt (B bp s) = false ->
  kept bp U s (s <| bufs ::= alter (fun b => b <| b_dev := NO_DEV |>) bp |>).
Proof.
  intros [Hl HLR HH HU HC HP HD] Hbp HbU Hcl. set (s' := s <| bufs ::= alter (fun b => b <| b_dev := NO_DEV |>) bp |>).
  assert (HB : forall i, B i s' = if decide (bp = i) then (B i s) <| b_dev := NO_DEV |> else B i s).
  { intros i. transitivity (B i (s <| bufs ::= alter (fun b => b <| b_dev := NO_DEV |>) bp |>)); [done|]. by rewrite B_upd by (by rewrite Hl). }
  assert (Hf : forall i, b_blocknr (B i s') = b_blocknr (B i s) /\ b_data (B i s') = b_data (B i s) /\ b_count (B i s') = b_count (B i s) /\
    hsh s' i = hsh s i /\ nxt s' i = nxt s i /\ prv s' i = prv s i /\ b_dirt (B i s') = b_dirt (B i s)).
  { intros i. unfold hsh, nxt, prv. rewrite HB. by destruct (decide _). }
  assert (Hdev : forall i, b_dev (B i s') <> NO_DEV -> i <> bp /\ b_dev (B i s') = b_dev (B i s)).
  { intros i. rewrite HB. destruct (decide (bp = i)) as [<-|]; [by intros []|by split]. }
  split; try done.
  - split; try done.
    + unfold s'. cbn [bufs set_field]. by rewrite length_alter.
    + eapply LRU_ext; [| | | |exact HLR]; [intros i; apply Hf|intros i; apply Hf|done|done].
    + eapply chains_ext; [| | |exact HH]; [intros i; apply Hf| |done]. intros i. unfold hbucket. by destruct (Hf i) as (-> & _).
    + change (bufs_in_use s') with (bufs_in_use s). rewrite HU. symmetry. apply count_ext. intros i. apply Hf.
    + intros i Hi. destruct (Hf i) as (_ & _ & -> & _). by apply HC.
    + intros i Hi. destruct (HP i Hi) as [? Hu]. split; [done|]. unfold used in *. by destruct (Hf i) as (_ & _ & -> & _).
    + destruct HD as [D1 D2 D3 D4 D5]. split.
      * intros i j Hi Hj Hn E1 E2. destruct (Hdev i Hn) as [_ F1]. destruct (Hdev j) as [_ F2]; [congruence|].
        destruct (Hf i) as (F3 & _), (Hf j) as (F4 & _). apply D1; [done|done|by rewrite <- F1|congruence|congruence].
      * intros i Hi Hn. destruct (Hdev i Hn) as [_ E]. rewrite E in *. by apply D2.
      * intros i Hi. destruct (Hf i) as (-> & _). by apply D3.
      * intros i Hi. destruct (Hf i) as (_ & -> & _). by apply D4.
      * intros i Hi Hn. destruct (Hdev i Hn) as [_ E]. rewrite E in *. destruct (Hf i) as (-> & -> & _ & _ & _ & _ & ->). by apply D5.
  - intros d b Hd. destruct (holds s bp d b) eqn:Eh.
    + apply holds_spec in Eh as [E1 E2]. rewrite (contents_hit U s d b bp) by done. rewrite contents_miss.
      * change (fext s') with (fext s). rewrite <- E1, <- E2. symmetry. apply (da_clean _ _ HD); try done; [congruence|].
        destruct Hcl; congruence.
      * destruct (cached s' d b) as [i|] eqn:Ec; [|done]. apply cached_some in Ec as (Hi & F1 & F2). destruct (Hdev i) as [Hn E]; [congruence|].
        destruct Hn. eapply (da_uniq _ _ HD); try congruence. destruct (Hf i) as (<- & _). congruence.
    + apply (contents_other s s' bp); [|done| |done].
      * intros i Hi. unfold same_data. rewrite HB. by rewrite decide_False.
      * apply not_true_iff_false. intros [F1 F2]%holds_spec. destruct (Hdev bp) as [[] _]; [congruence|done].
  - intros i. apply Hf.
  - intros i Hi. rewrite HB, decide_False by done. done.
Qed.

(** What [put_block] leaves behind. *)
Record released (U : list nat) s (bp : nat) s' : Prop := {
  p_ok : cache_ok (filter (fun i => i <> bp) U) s';
  p_con d b : d <> NO_DEV -> contents s' d b = contents s d b;
  p_core : core s' = core s;
  p_err : rdwt_err s' = rdwt_err s;
  p_count i : b_count (B i s') = b_count (B i s) - (if decide (i = bp) then 1 else 0);
  p_held i : used s' i -> b_dev (B i s') = b_dev (B i s) /\ b_blocknr (B i s') = b_blocknr (B i s) /\ b_data (B i s') = b_data (B i s);
}.

(** One use fewer; [n] is the number of buffers still in use. *)
Lemma uncount_ok U s bp n : cache_ok U s -> (bp < NR_BUFS)%nat -> used s bp -> (bp ∈ U -> b_dirt (B bp s) = true) ->
  let s' := s <| bufs ::= alter (fun b => b <| b_count ::= fun c => s8 (c - 1) |>) bp |> <| bufs_in_use := n |> in
  n = bufs_in_use s - (if decide (b_count (B bp s) = 1) then 1 else 0) ->
  released U s bp s' /\ (forall i, same_data s s' i) /\
  b_count (B bp (s <| bufs ::= alter (fun b => b <| b_count ::= fun c => s8 (c - 1) |>) bp |>)) = b_count (B bp s) - 1.
Proof.
  intros [Hl HLR HH HU HC HP HD] Hbp Hus Hd s' Hn. pose proof (HC bp Hbp) as Hcr. unfold used in Hus.
  assert (HB : forall i, B i s' = if decide (bp = i) then (B i s) <| b_count := b_count (B i s) - 1 |> else B i s).
  { intros i. transitivity (B i (s <| bufs ::= alter (fun b => b <| b_count ::= fun c => s8 (c - 1) |>) bp |>)); [done|].
    rewrite B_upd by (by rewrite Hl). destruct (decide (bp = i)) as [<-|]; [|done].
    assert (E : s8 (b_count (B bp s) - 1) = b_count (B bp s) - 1) by (apply s8_id; lia).
    unfold set_field. cbn. by rewrite E. }
  assert (Hsame : forall i, same_data s s' i) by (intros i; unfold same_data; rewrite HB; destruct (decide (bp = i)); split_and!; reflexivity).
  assert (Hlk : forall i, nxt s' i = nxt s i /\ prv s' i = prv s i /\ hsh s' i = hsh s i) by (intros i; unfold nxt, prv, hsh; rewrite HB; destruct (decide (bp = i)); split_and!; reflexivity).
  assert (Hcnt : forall i, b_count (B i s') = b_count (B i s) - (if decide (i = bp) then 1 else 0)).
  { intros i. rewrite HB. destruct (decide (bp = i)) as [<-|]; [by rewrite decide_True|rewrite decide_False by done; lia]. }
  destruct (data_ext U s s') as [HD' Hcon]; [done|done|done|].
  split_and!; [|done|].
  - split; try done.
    + split.
      * unfold s'. cbn [bufs set_field]. by rewrite length_alter.
      * eapply LRU_ext; [| | | |exact HLR]; [intros i; apply Hlk|intros i; apply Hlk|done|done].
      * eapply chains_ext; [| | |exact HH]; [intros i; apply Hlk| |done]. intros i. unfold hbucket. by destruct (Hsame i) as (_ & -> & _).
      * change (bufs_in_use s') with n. rewrite (count_change s s' bp), Hn, HU by
          (first [done|intros j Hj; by rewrite Hcnt, decide_False, Z.sub_0_r]).
        rewrite (decide_True (P := used s bp)) by done. unfold used. rewrite Hcnt, (decide_True (P := bp = bp)) by done.
        destruct (decide (b_count (B bp s) = 1)); [rewrite decide_False by lia|rewrite decide_True by lia]; lia.
      * intros i Hi. rewrite Hcnt. specialize (HC i Hi). destruct (decide (i = bp)) as [->|]; lia.
      * intros i [Hi HiU]%list_elem_of_filter. destruct (HP i HiU) as [? Hu]. split; [done|]. unfold used in *. rewrite Hcnt. rewrite decide_False by done. by rewrite Z.sub_0_r.
      * destruct HD' as [D1 D2 D3 D4 D5]. split; try done. intros i Hi Hnd Hdi HiU. destruct (decide (i ∈ U)) as [Hin|]; [|by apply D5].
        destruct (decide (i = bp)) as [->|Hne]; [|destruct HiU; by apply list_elem_of_filter].
        destruct (Hsame bp) as (_ & _ & _ & E). rewrite E, Hd in Hdi; done.
    + intros i _. destruct (Hsame i) as (? & ? & ? & _). done.
  - specialize (Hcnt bp). rewrite decide_True in Hcnt by done. exact Hcnt.
Qed.

Lemma released_kept U s bp s1 s2 : released U s bp s1 -> kept bp (filter (fun i => i <> bp) U) s1 s2 -> ~ used s1 bp -> released U s bp s2.
Proof.
  intros [A1 A2 A3 A4 A5 A6] [B1 B2 B3 B4 B5 B6] Hnu. split; [done|..].
  - intros d b Hd. by rewrite B2, A2.
  - congruence.
  - congruence.
  - intros i. by rewrite B5, A5.
  - intros i Hi. assert (Hi1 : used s1 i) by (unfold used in *; by rewrite <- B5).
    destruct (B6 i) as (-> & -> & ->); [by intros ->|by apply A6].
Qed.

Lemma put_block_ok U s bp bt (Q : unit -> fst_ X -> Prop) : cache_ok U s -> (bp < NR_BUFS)%nat -> used s bp ->
  (bp ∈ U -> b_dirt (B bp s) = true) -> (forall s', released U s bp s' -> Q tt s') -> wp (put_block (Some bp) bt) Q s.
Proof.
  intros Hok Hbp Hus Hd HQ. pose proof Hok as [Hl HLR HH HU HC HP HD].
  unfold put_block. wp_steps. unfold upd_buf at 1. wp_steps.
  destruct (uncount_ok U s bp (bufs_in_use s - (if decide (b_count (B bp s) = 1) then 1 else 0))) as (Hrel & Hsame & Hc); [done..|].
  rewrite Hc. unfold used in Hus. pose proof (HC bp Hbp). destruct (Z.eqb_spec (b_count (B bp s) - 1) 0) as [E|E]; cbn [negb].
  2: { wp_steps. apply HQ. rewrite decide_False in Hrel by lia. rewrite Z.sub_0_r in Hrel.
       match type of Hrel with released _ _ _ ?a => match goal with |- released _ _ _ ?b => replace b with a by (by destruct s) end end. done. }
  rewrite decide_True in Hrel, Hsame by lia. wp_steps.
  assert (Hus1 : 0 < bufs_in_use s).
  { rewrite HU. unfold count_used. destruct (filter (used s) all_bufs) eqn:Ef; [|cbn; lia]. exfalso.
    assert (Hin : bp ∈ filter (used s) all_bufs) by (apply list_elem_of_filter; split; [unfold used; lia|by apply elem_of_bufs]).
    rewrite Ef in Hin. set_solver. }
  assert (E16 : s16 (bufs_in_use s - 1) = bufs_in_use s - 1).
  { apply s16_id. pose proof (count_used_range s). unfold NR_BUFS in *. lia. }
  set (s1 := s <| bufs ::= alter (fun b => b <| b_count ::= fun c => s8 (c - 1) |>) bp |> <| bufs_in_use := bufs_in_use s - 1 |>) in *.
  match goal with |- wp _ _ ?x => replace x with s1 by (unfold s1; rewrite <- E16; done) end.
  pose proof (p_ok _ _ _ _ Hrel) as Hok1. pose proof Hok1 as [Hl1 HLR1 _ _ _ _ _]. destruct HLR1 as (L & HL).
  assert (Hnu : ~ used s1 bp) by (unfold used; rewrite (p_count _ _ _ _ Hrel), decide_True by done; lia).
  assert (HbU : bp ∉ filter (fun i => i <> bp) U) by (by intros [[] _]%list_elem_of_filter).
  assert (Hin : bp ∈ L) by (destruct HL as (_ & _ & ->); by apply elem_of_bufs).
  apply list_elem_of_split in Hin as (l1 & l2 & ->).
  apply (unlink_ok s1 bp l1 l2); [done|done|]. intros s2 Hlo2 Hn2 Hp2.
  assert (Hperm : bp :: (l1 ++ l2) ≡ₚ all_bufs) by (destruct HL as (_ & _ & <-); by rewrite Permutation_middle).
  assert (Hl2 : length (bufs s2) = NR_BUFS) by (by rewrite (lo_len _ _ Hlo2)).
  assert (Hrest : forall s3, linkonly s1 s3 -> LRU s3 ->
    wp (b ← gets (B bp); when (tst bt WRITE_IMMED && b_dirt b && negb (b_dev b =? NO_DEV)) (rw_block bp WRITING);;
        when (bt =? ZUPER_BLOCK) (upd_buf bp (fun b => b <| b_dev := NO_DEV |>))) Q s3).
  { intros s3 Hlo3 HLR3. pose proof (linkonly_kept bp _ _ _ Hok1 Hlo3 HLR3) as Hk3. wp_steps.
    assert (Hend : forall s4, kept bp (filter (fun i => i <> bp) U) s1 s4 -> (bt = ZUPER_BLOCK -> b_dev (B bp s4) = NO_DEV \/ b_dirt (B bp s4) = false) ->
      wp (when (bt =? ZUPER_BLOCK) (upd_buf bp (fun b => b <| b_dev := NO_DEV |>))) Q s4).
    { intros s4 Hk4 Hz. destruct (Z.eqb_spec bt ZUPER_BLOCK) as [Eb|Eb]; cbn [when]; unfold upd_buf; wp_steps; apply HQ;
        (eapply released_kept; [exact Hrel| |exact Hnu]); [|exact Hk4]. eapply kept_trans; [exact Hk4|].
      apply forget_kept; [apply Hk4|done|done|by apply Hz]. }
    destruct (tst bt WRITE_IMMED && b_dirt (B bp s3) && negb (b_dev (B bp s3) =? NO_DEV)) eqn:Ew; cbn [when].
    - apply andb_true_iff in Ew as [_ Ew]. apply negb_true_iff, Z.eqb_neq in Ew.
      eapply write_kept; [apply Hk3|done|done|done|]. intros s4 Hk4 Hc4. apply Hend; [by eapply kept_trans|by right].
    - wp_steps. apply Hend; [done|]. intros ->. change (tst ZUPER_BLOCK WRITE_IMMED) with true in Ew. cbn [andb] in Ew.
      apply andb_false_iff in Ew as [|Ew]; [by right|left]. by apply negb_false_iff, Z.eqb_eq in Ew. }
  apply wp_bind. destruct (tst bt ONE_SHOT); [apply (lru_front_ok s2 bp (l1 ++ l2))|apply (lru_rear_ok s2 bp (l1 ++ l2))]; try done;
    intros s3 Hlo3 HLR3; apply Hrest; [by eapply lo_trans|done|by eapply lo_trans|done].
Qed.
End blocks.

Arguments g_ok {X _ _ U U' s dev blk mode bp s'} _.
Arguments g_bp {X _ _ U U' s dev blk mode bp s'} _.
Arguments g_pin {X _ _ U U' s dev blk mode bp s'} _.
Arguments g_blk {X _ _ U U' s dev blk mode bp s'} _.
Arguments g_dev {X _ _ U U' s dev blk mode bp s'} _.
Arguments g_data {X _ _ U U' s dev blk mode bp s'} _ _ _.
Arguments g_same {X _ _ U U' s dev blk mode bp s'} _ _ _ _ _.
Arguments g_count {X _ _ U U' s dev blk mode bp s'} _ _.
Arguments g_held {X _ _ U U' s dev blk mode bp s'} _ _ _.
Arguments g_core {X _ _ U U' s dev blk mode bp s'} _.
Arguments g_err {X _ _ U U' s dev blk mode bp s'} _ _.
Arguments p_ok {X _ _ U s bp s'} _.
Arguments p_con {X _ _ U s bp s'} _ _ _ _.
Arguments p_core {X _ _ U s bp s'} _.
Arguments p_err {X _ _ U s bp s'} _.
Arguments p_count {X _ _ U s bp s'} _ _.
Arguments p_held {X _ _ U s bp s'} _ _ _.
