(* ===== verification/FsDemo.v ===== *)
(** * A small file system's surroundings, for the examples

    A disk kept in memory behind the [World] interface, shown to keep the
    promises of [Disk]; the buffer pool as [buf_pool] leaves it. *)

From S2P Require Import Prelude KProc FsState FsDev FsCache FsSort FsDisk FsCacheOk.

(** The contents by driver, minor device and position. *)
Definition store : Type := Z -> Z -> Z -> list Z.
Definition put_at (task minor pos : Z) (data : list Z) (x : store) : store := fun t m p =>
  if decide (t = task /\ m = minor /\ p = pos) then data else x t m p.
Definition put_vector (task minor : Z) (l : list ioreq) (x : store) : store :=
  foldl (fun x r => put_at task minor (io_position r) (io_data r) x) x l.
Definition sized (v : list Z) : list Z := if decide (length v = Z.to_nat BLOCK_SIZE) then v else zero_data.
Definition get_at (task minor pos : Z) (x : store) : list Z := sized (x task minor pos).

#[export] Instance demo_disk_world : World store := fun q x =>
  match q with
  | SendRec task d =>
      match d_type d, d_buf d with
      | 3, _ => (mk_ans OK [0; 0; BLOCK_SIZE] [get_at task (d_device d) (d_position d) x], x)
      | 4, Bytes b => (mk_ans OK [0; 0; BLOCK_SIZE] [], put_at task (d_device d) (d_position d) b x)
      | 6, Vector l => (mk_ans OK (replicate 40 0) [], put_vector task (d_device d) l x)
      | 12, _ => (mk_ans OK [0; 256; 0] [], x)
      | _, _ => (mk_ans OK [0; 0; 0] [], x)
      end
  | UserCopy false _ _ vir n _ => (mk_ans OK [] [(fun i => (vir + Z.of_nat i) mod 251) <$> seq 0 (Z.to_nat n)], x)
  | GetTime => (mk_ans OK [1000] [], x)
  | _ => (mk_ans OK [0; 0; 0] [], x)
  end.

Definition demo_blocks (x : store) (dev blk : Z) : list Z :=
  if decide (0 <= dev < NO_DEV /\ 1 <= major_of dev <= 3)
  then get_at (dmap_task (major_of dev)) (minor_of dev) (blk * BLOCK_SIZE) x else zero_data.

Lemma dev_split dev : 0 <= dev < NO_DEV -> dev = major_of dev * 256 + minor_of dev.
Proof.
  intros Hd. unfold major_of, minor_of, BYTE, NO_DEV in *. change 255 with (Z.ones 8). rewrite !Z.land_ones, Z.shiftr_div_pow2 by lia.
  change (2 ^ 8) with 256. zlia.
Qed.
Lemma dmap_task_inj m n : 1 <= m <= 3 -> 1 <= n <= 3 -> dmap_task m = dmap_task n -> m = n.
Proof.
  intros Hm Hn. assert (m = 1 \/ m = 2 \/ m = 3) as [->|[->| ->]] by lia; assert (n = 1 \/ n = 2 \/ n = 3) as [->|[->| ->]] by lia;
    intros E; vm_compute in E; congruence.
Qed.

Lemma put_blocks x dev blk data d b : blockdev dev -> length data = Z.to_nat BLOCK_SIZE ->
  demo_blocks (put_at (dmap_task (major_of dev)) (minor_of dev) (blk * BLOCK_SIZE) data x) d b = write_one dev blk data (demo_blocks x) d b.
Proof.
  intros [Hd Hm] Hl. unfold demo_blocks, write_one, get_at, put_at. destruct (decide (0 <= d < NO_DEV /\ 1 <= major_of d <= 3)) as [[Hd' Hm']|Hn].
  - destruct (decide (d = dev /\ b = blk)) as [[-> ->]|Hne].
    + rewrite decide_True by done. unfold sized. by rewrite decide_True.
    + rewrite decide_False; [done|]. intros (E1 & E2 & E3). destruct Hne. apply dmap_task_inj in E1; [|done..].
      rewrite (dev_split d), (dev_split dev), E1, E2 by done. unfold BLOCK_SIZE in E3. split; [done|lia].
  - rewrite decide_False; [done|]. intros [-> _]. by apply Hn.
Qed.

Lemma put_vector_blocks dev l : forall x d b, blockdev dev -> Forall (fun r => blockno (fst r) /\ length (snd r) = Z.to_nat BLOCK_SIZE) l ->
  demo_blocks (put_vector (dmap_task (major_of dev)) (minor_of dev) ((fun r => mk_ioreq (fst r * BLOCK_SIZE) true (snd r)) <$> l) x) d b =
  write_all dev l (demo_blocks x) d b.
Proof.
  assert (Hext : forall l f g d b, (forall d b, f d b = g d b) -> write_all dev l f d b = write_all dev l g d b).
  { clear. induction l as [|[blk data] l IH]; intros f g d b Hf; [apply Hf|]. cbn. apply IH. intros. by apply write_one_ext. }
  induction l as [|[blk data] l IH]; intros x d b Hd Hall; [done|]. apply Forall_cons in Hall as [[Hb Hl] Hall].
  unfold put_vector. cbn [fmap list_fmap foldl io_position io_data fst snd].
  fold (put_vector (dmap_task (major_of dev)) (minor_of dev) ((fun r => mk_ioreq (fst r * BLOCK_SIZE) true (snd r)) <$> l)
    (put_at (dmap_task (major_of dev)) (minor_of dev) (blk * BLOCK_SIZE) data x)).
  rewrite IH by done. cbn [write_all]. apply Hext. intros. by apply put_blocks.
Qed.

#[export] Instance demo_disk : Disk store.
Proof.
  refine {| blocks := demo_blocks |}.
  - intros x d b. unfold demo_blocks, get_at, sized. repeat case_decide; done.
  - intros x dev blk a x' [Hd Hm] Hb E. cbn in E. injection E as <- <-. cbn [an_ret an_data rep_status an_words].
    split_and!; try done.
    + unfold get_at, sized. cbn. case_decide; done.
    + intros _. unfold demo_blocks. by rewrite decide_True.
  - intros x dev blk data a x' Hd Hb Hl E. cbn in E. injection E as <- <-. split_and!; [done|done|]. intros d b. by apply put_blocks.
  - intros x dev l a x' Hd Hall Hl E. cbn in E. injection E as <- <-. split_and!; [done|done| |].
    + intros i Hi. unfold residual. cbn [an_words]. unfold NR_BUFS in Hl. apply (lookup_total_replicate_2 40 0 (6 + i)%nat). lia.
    + intros d b. by apply put_vector_blocks.
Defined.

(** ** The buffer pool at start-up *)
Definition demo_buf : buf := mk_buf zero_data None None None 0 0 false 0.
Definition demo_state : fst_ store :=
  mk_fst (replicate NR_BUFS demo_buf) (replicate (Z.to_nat NR_BUF_HASH) None) None None 0 (replicate NR_INODES inode0)
    (replicate NR_SUPERS super0) (replicate NR_FILPS filp0) (replicate FPROCS fproc0) 3 false false 0 0 0 None
    (mk_fmsg 0 0 0 0 0 0 0 []) 3 0 [] OK OK [] 256 (fun _ _ _ => zero_data).
Definition pool_state : fst_ store := match buf_pool demo_state with Done _ s => s | _ => demo_state end.

Lemma pool_ok : cache_ok [] pool_state /\ (forall i, (i < NR_BUFS)%nat -> b_count (B i pool_state) = 0).
Proof.
  assert (Hall : forall P : nat -> Prop, Forall P all_bufs -> forall i, (i < NR_BUFS)%nat -> P i).
  { intros P HP i Hi. rewrite Forall_forall in HP. apply HP. by apply elem_of_bufs. }
  assert (Hb : forall i, (i < NR_BUFS)%nat -> b_dev (B i pool_state) = NO_DEV /\ b_blocknr (B i pool_state) = 0 /\
    b_count (B i pool_state) = 0 /\ length (b_data (B i pool_state)) = Z.to_nat BLOCK_SIZE).
  { apply Hall. repeat (apply Forall_cons; split; [by vm_compute|]). by constructor. }
  assert (Hlinks : llist (nxt pool_state) (Some 0%nat) all_bufs /\ llist (prv pool_state) (Some 29%nat) (reverse all_bufs) /\
    llist (hsh pool_state) (Some 0%nat) all_bufs).
  { split_and!; vm_compute; repeat (split; [done|]); done. }
  destruct Hlinks as (H1 & H2 & H3). split; [|intros i Hi; apply Hb; done].
  split.
  - by vm_compute.
  - exists all_bufs. split_and!; [exact H1|exact H2|done].
  - split; [by vm_compute|]. intros k Hk. destruct (decide (k = 0%nat)) as [->|Hne].
    + exists all_bufs. split_and!; [exact H3|apply NoDup_seq|]. intros i. rewrite elem_of_bufs. split; [|tauto].
      intros Hi. split_and!; [done|done|]. unfold hbucket. destruct (Hb i Hi) as (_ & -> & _). done.
    + exists []. split_and!.
      * change (buf_hash pool_state) with (<[0%nat := Some 0%nat]> (replicate (Z.to_nat NR_BUF_HASH) (None : option nat))).
        rewrite list_lookup_total_insert_ne by done. by rewrite lookup_total_replicate_2.
      * constructor.
      * intros i. split; [set_solver|]. intros (Hi & _ & E). unfold hbucket in E. destruct (Hb i Hi) as (_ & E' & _). rewrite E' in E. done.
  - by vm_compute.
  - intros i Hi. destruct (Hb i Hi) as (_ & _ & -> & _). done.
  - intros i Hi. set_solver.
  - split.
    + intros i j Hi _ Hn. destruct (Hb i Hi) as (E & _). done.
    + intros i Hi Hn. destruct (Hb i Hi) as (E & _). done.
    + intros i Hi. destruct (Hb i Hi) as (_ & -> & _). done.
    + intros i Hi. apply Hb. done.
    + intros i Hi Hn. destruct (Hb i Hi) as (E & _). done.
Qed.
