(* ===== verification/FsCacheSpec.v ===== *)
(** * The block cache refines a plain disk

    Clients of the cache: a block is read, overwritten as a whole or changed
    in part, and the cache is flushed, the way the rest of the file system
    does it through [get_block], [put_block] and [flushall]. What they see is
    a disk without a cache. *)

From S2P Require Import Prelude KProc FsState FsDev FsCache FsSort FsDisk FsCacheOk FsBlocks FsDemo.

(** ** The clients *)
Inductive cache_op :=
| ReadBlock (dev blk bt : Z)
| WriteBlock (dev blk bt : Z) (data : list Z)
| ModifyBlock (dev blk bt : Z) (off : nat) (v : list Z)
| Sync (dev : Z).

Definition op_ok (o : cache_op) : Prop :=
  match o with
  | ReadBlock dev blk _ => blockdev dev /\ blockno blk
  | WriteBlock dev blk _ data => blockdev dev /\ blockno blk /\ length data = Z.to_nat BLOCK_SIZE
  | ModifyBlock dev blk _ off v => blockdev dev /\ blockno blk /\ (off + length v <= Z.to_nat BLOCK_SIZE)%nat
  | Sync dev => blockdev dev
  end.

(** ** The plain disk; a read may fail. *)
Definition disk := Z -> Z -> list Z.
Inductive disk_step : disk -> cache_op -> option (list Z) -> disk -> Prop :=
| DRead f dev blk bt : disk_step f (ReadBlock dev blk bt) (Some (f dev blk)) f
| DWrite f dev blk bt data : disk_step f (WriteBlock dev blk bt data) (Some []) (write_one dev blk data f)
| DModify f dev blk bt off v : disk_step f (ModifyBlock dev blk bt off v) (Some []) (write_one dev blk (put_bytes (f dev blk) off v) f)
| DSync f dev : disk_step f (Sync dev) (Some []) f
| DReadFail f dev blk bt : disk_step f (ReadBlock dev blk bt) None f
| DModifyFail f dev blk bt off v : disk_step f (ModifyBlock dev blk bt off v) None f.
Inductive disk_run : disk -> list cache_op -> list (option (list Z)) -> disk -> Prop :=
| DNil f : disk_run f [] [] f
| DCons f o r f1 ops rs f2 : disk_step f o r f1 -> disk_run f1 ops rs f2 -> disk_run f (o :: ops) (r :: rs) f2.

Definition same_disk (f g : disk) : Prop := forall d b, d <> NO_DEV -> f d b = g d b.

Section spec.
Context {X : Type} `{Disk X}.
Implicit Types s : fst_ X.
Notation FS := (M (fst_ X)).

Definition fill (bp : nat) (data : list Z) : FS unit := upd_buf bp (fun b => b <| b_data := data |>);; dirty_buf bp.

Definition run_op (o : cache_op) : FS (option (list Z)) :=
  match o with
  | ReadBlock dev blk bt =>
      bp ← get_block dev blk NORMAL;
      b ← gets (B bp);
      put_block (Some bp) bt;;
      mret (if b_dev b =? NO_DEV then None else Some (b_data b))
  | WriteBlock dev blk bt data =>
      bp ← get_block dev blk NO_READ;
      fill bp data;;
      put_block (Some bp) bt;;
      mret (Some [])
  | ModifyBlock dev blk bt off v =>
      bp ← get_block dev blk NORMAL;
      b ← gets (B bp);
      when (negb (b_dev b =? NO_DEV)) (fill bp (put_bytes (b_data b) off v));;
      put_block (Some bp) bt;;
      mret (if b_dev b =? NO_DEV then None else Some [])
  | Sync dev => flushall dev;; mret (Some [])
  end.
Fixpoint run_ops (ops : list cache_op) : FS (list (option (list Z))) :=
  match ops with
  | [] => mret []
  | o :: ops' => r ← run_op o; rs ← run_ops ops'; mret (r :: rs)
  end.

Definition idle s : Prop := forall i, (i < NR_BUFS)%nat -> b_count (B i s) = 0.

(** Overwriting a held buffer overwrites its block. *)
Lemma fill_buf_ok U s bp data (Q : unit -> fst_ X -> Prop) : cache_ok U s -> (bp < NR_BUFS)%nat ->
  length data = Z.to_nat BLOCK_SIZE ->
  (forall s', cache_ok U s' -> (forall d b, d <> NO_DEV -> contents s' d b = write_one (b_dev (B bp s)) (b_blocknr (B bp s)) data (contents s) d b) ->
     b_dirt (B bp s') = true -> b_data (B bp s') = data -> b_dev (B bp s') = b_dev (B bp s) ->
     (forall i, b_count (B i s') = b_count (B i s)) -> (forall i, i <> bp -> same_data s s' i) ->
     core s' = core s -> rdwt_err s' = rdwt_err s -> Q tt s') ->
  wp (fill bp data) Q s.
Proof.
  intros [Hl HLR HH HU HC HP HD] Hbp Hlen HQ. unfold fill, dirty_buf, upd_buf. wp_steps.
  set (s' := s <| bufs ::= alter (fun b => b <| b_data := data |>) bp |> <| bufs ::= alter (fun b => b <| b_dirt := true |>) bp |>).
  assert (HB : forall i, B i s' = if decide (bp = i) then (B i s) <| b_data := data |> <| b_dirt := true |> else B i s).
  { intros i. transitivity (B i (s <| bufs ::= alter (fun b => b <| b_data := data |>) bp |> <| bufs ::= alter (fun b => b <| b_dirt := true |>) bp |>)); [done|].
    rewrite !B_upd by (cbn [bufs set_field]; rewrite ?length_alter, Hl; done). by destruct (decide (bp = i)). }
  assert (Hf : forall i, b_dev (B i s') = b_dev (B i s) /\ b_blocknr (B i s') = b_blocknr (B i s) /\ b_count (B i s') = b_count (B i s) /\
    nxt s' i = nxt s i /\ prv s' i = prv s i /\ hsh s' i = hsh s i) by (intros i; unfold nxt, prv, hsh; rewrite HB; by destruct (decide (bp = i))).
  assert (Hoth : forall i, i <> bp -> same_data s s' i) by (intros i Hi; unfold same_data; rewrite HB, decide_False by done; done).
  apply HQ; [| |by rewrite HB, decide_True|by rewrite HB, decide_True|by apply Hf|intros i; apply Hf|done|done|done].
  - split.
    + unfold s'. cbn [bufs set_field]. by rewrite !length_alter.
    + eapply LRU_ext; [| | | |exact HLR]; [intros i; apply Hf|intros i; apply Hf|done|done].
    + eapply chains_ext; [| | |exact HH]; [intros i; apply Hf| |done]. intros i. unfold hbucket. by destruct (Hf i) as (_ & -> & _).
    + change (bufs_in_use s') with (bufs_in_use s). rewrite HU. symmetry. apply count_ext. intros i. apply Hf.
    + intros i Hi. destruct (Hf i) as (_ & _ & -> & _). by apply HC.
    + intros i Hi. destruct (HP i Hi) as [? Hu]. split; [done|]. unfold used in *. by destruct (Hf i) as (_ & _ & -> & _).
    + destruct HD as [D1 D2 D3 D4 D5]. split.
      * intros i j Hi Hj. destruct (Hf i) as (-> & -> & _), (Hf j) as (-> & -> & _). by apply D1.
      * intros i Hi. destruct (Hf i) as (-> & _). by apply D2.
      * intros i Hi. destruct (Hf i) as (_ & -> & _). by apply D3.
      * intros i Hi. rewrite HB. destruct (decide (bp = i)); [done|by apply D4].
      * intros i Hi. rewrite HB. destruct (decide (bp = i)); [done|by apply D5].
  - intros d b Hd. unfold contents at 1. rewrite (cached_ext s s') by (intros i; apply Hf). unfold write_one.
    destruct (decide (d = b_dev (B bp s) /\ b = b_blocknr (B bp s))) as [[-> ->]|Hne].
    + rewrite (cached_unique U s _ _ bp) by done. by rewrite HB, decide_True.
    + unfold contents. destruct (cached s d b) as [i|] eqn:Ec; [|done]. apply cached_some in Ec as (_ & E1 & E2).
      rewrite HB, decide_False; [done|]. intros <-. by apply Hne.
Qed.

Lemma write_one_same dev blk data f g : same_disk f g -> same_disk (write_one dev blk data f) (write_one dev blk data g).
Proof. intros Hf d b Hd. unfold write_one. destruct (decide _); [done|by apply Hf]. Qed.

Lemma length_put_bytes b off v : (off + length v <= length b)%nat -> length (put_bytes b off v) = length b.
Proof. intros Hl. unfold put_bytes. rewrite !length_app, length_take, length_drop. lia. Qed.

(** With no buffer in use there is always room. *)
Lemma idle_room s dev blk : cache_ok [] s -> idle s ->
  match cached s dev blk with Some i => b_count (B i s) < 127 | None => bufs_in_use s < Z.of_nat NR_BUFS end.
Proof.
  intros Hok Hid. destruct (cached s dev blk) as [i|] eqn:E; [apply cached_some in E as [Hi _]; rewrite Hid; [lia|done]|].
  rewrite (co_use _ _ Hok). unfold count_used. replace (filter (used s) all_bufs) with (@nil nat); [cbn; unfold NR_BUFS; lia|].
  assert (Hall : forall l, (forall i, i ∈ l -> ~ used s i) -> filter (used s) l = []).
  { induction l as [|x l IH]; intros Hn; [done|]. rewrite filter_cons_False by (intros Hx; apply (Hn x); [set_solver|done]). apply IH. set_solver. }
  symmetry. apply Hall. intros i Hi%elem_of_bufs. unfold used. rewrite Hid by done. tauto.
Qed.
Lemma idle_back s bp s' s'' U : idle s -> (forall i, b_count (B i s') = b_count (B i s) + (if decide (i = bp) then 1 else 0)) ->
  released U s' bp s'' -> idle s''.
Proof. intros Hid Hc Hr i Hi. rewrite (p_count Hr), Hc, Hid by done. destruct (decide (i = bp)); lia. Qed.

(** Flushing: the disk has what the cache showed. *)
Lemma flush_keeps U dev s (Q : unit -> fst_ X -> Prop) : cache_ok U s -> blockdev dev ->
  (forall s', cache_ok U s' -> (forall d b, d <> NO_DEV -> contents s' d b = contents s d b) ->
     (forall i, b_count (B i s') = b_count (B i s)) ->
     (U = [] -> forall b, blocks (fext s') dev b = contents s dev b) -> Q tt s') -> wp (flushall dev) Q s.
Proof.
  intros [Hl HLR HH HU HC HP HD] Hdev HQ. eapply (wp_flushall U); [done|done|done|]. intros t x s' Ht HD' Hc Hti.
  assert (Hf : forall i, b_blocknr (B i s') = b_blocknr (B i s) /\ b_count (B i s') = b_count (B i s) /\
    nxt s' i = nxt s i /\ prv s' i = prv s i /\ hsh s' i = hsh s i /\ b_dev (B i s') = b_dev (B i s)).
  { intros i. unfold nxt, prv, hsh. change (B i s') with (t !!! i). rewrite Hti. by destruct (_ && _). }
  apply HQ; [|done|intros i; apply Hf|].
  - split; try done.
    + eapply LRU_ext; [| | | |exact HLR]; [intros i; apply Hf|intros i; apply Hf|done|done].
    + eapply chains_ext; [| | |exact HH]; [intros i; apply Hf| |done]. intros i. unfold hbucket. by destruct (Hf i) as (-> & _).
    + change (bufs_in_use s') with (bufs_in_use s). rewrite HU. symmetry. apply count_ext. intros i. apply Hf.
    + intros i Hi. destruct (Hf i) as (_ & -> & _). by apply HC.
    + intros i Hi. destruct (HP i Hi) as [? Hu]. split; [done|]. unfold used in *. by destruct (Hf i) as (_ & -> & _).
  - intros -> b. assert (Hnd : dev <> NO_DEV) by (destruct Hdev; lia). rewrite <- Hc by done.
    unfold contents. destruct (cached s' dev b) as [i|] eqn:E; [|done]. apply cached_some in E as (Hi & E1 & E2).
    rewrite (da_clean _ _ HD' i Hi); [by rewrite E1, E2|congruence| |set_solver].
    pose proof (Hf i) as (_ & _ & _ & _ & _ & E3). rewrite E1 in E3. change (B i s') with (t !!! i). rewrite Hti, <- E3, Z.eqb_refl.
    rewrite (proj2 (Nat.ltb_lt i NR_BUFS)) by done. by destruct (b_dirt (B i s)) eqn:Ed.
Qed.

(** One operation. *)
Lemma run_op_ok o s f (Q : option (list Z) -> fst_ X -> Prop) : op_ok o -> cache_ok [] s -> idle s -> same_disk (contents s) f ->
  (forall r s' f', disk_step f o r f' -> cache_ok [] s' -> idle s' -> same_disk (contents s') f' -> Q r s') -> wp (run_op o) Q s.
Proof.
  intros Ho Hok Hid Hf HQ. destruct o as [dev blk bt|dev blk bt data|dev blk bt off v|dev]; cbn [run_op op_ok] in *.
  - destruct Ho as [Hdev Hblk]. assert (Hnd : dev <> NO_DEV) by (destruct Hdev; lia). wp_steps.
    apply (get_block_ok []); [done|done|done|by left|by apply idle_room|]. intros bp U' s1 G. wp_steps.
    assert (U' = []) as -> by (destruct (g_pin G) as [|[? _]]; done).
    apply (put_block_ok []); [apply (g_ok G)|apply (g_bp G)| |set_solver|].
    { unfold used. rewrite (g_count G), (Hid bp), decide_True by (done || apply (g_bp G)). done. }
    intros s2 R. wp_steps. assert (Hs : same_disk (contents s2) f).
    { intros d b Hd. rewrite (p_con R), (g_same G) by auto. by apply Hf. }
    apply (HQ _ _ f); [|apply (p_ok R)|by eapply idle_back; [..|exact R]; [done|apply (g_count G)]|done].
    destruct (Z.eqb_spec (b_dev (B bp s1)) NO_DEV) as [E|E]; [constructor|].
    destruct (g_dev G) as [Ed|(_ & Ed & _)]; [|done].
    rewrite (g_data G), Hf by done. constructor.
  - destruct Ho as (Hdev & Hblk & Hlen). wp_steps. assert (Hnd : dev <> NO_DEV) by (destruct Hdev; lia).
    apply (get_block_ok []); [done|done|done|by right|by apply idle_room|]. intros bp U' s1 G. wp_steps.
    destruct (g_dev G) as [Ed|(? & _)]; [|done].
    apply (fill_buf_ok U'); [apply (g_ok G)|apply (g_bp G)|done|]. intros s2 Hok2 Hc2 Hd2 Hdat2 Hdv2 Hcnt2 _ _ _.
    wp_steps. apply (put_block_ok U'); [done|apply (g_bp G)| |done|].
    { unfold used. rewrite Hcnt2, (g_count G), (Hid bp), decide_True by (done || apply (g_bp G)). done. }
    intros s3 R. wp_steps. apply (HQ _ _ (write_one dev blk data f)); [constructor| | |].
    + pose proof (p_ok R) as Hok3. destruct (g_pin G) as [->|(_ & -> & _)]; [done|].
      rewrite filter_cons_False in Hok3 by tauto. done.
    + eapply idle_back; [exact Hid| |exact R]. intros i. by rewrite Hcnt2, (g_count G).
    + intros d b Hd. rewrite (p_con R), Hc2, Ed, (g_blk G) by done. unfold write_one.
      destruct (decide (d = dev /\ b = blk)); [done|]. rewrite (g_same G) by auto. by apply Hf.
  - destruct Ho as (Hdev & Hblk & Hlen). wp_steps. assert (Hnd : dev <> NO_DEV) by (destruct Hdev; lia).
    apply (get_block_ok []); [done|done|done|by left|by apply idle_room|]. intros bp U' s1 G. wp_steps.
    assert (U' = []) as -> by (destruct (g_pin G) as [|[? _]]; done).
    assert (Hus : used s1 bp).
    { unfold used. rewrite (g_count G), (Hid bp), decide_True by (done || apply (g_bp G)). done. }
    assert (Hs1 : same_disk (contents s1) f).
    { intros d b Hd. rewrite (g_same G) by auto. by apply Hf. }
    destruct (Z.eqb_spec (b_dev (B bp s1)) NO_DEV) as [E|E]; cbn [negb when].
    + wp_steps. apply (put_block_ok []); [apply (g_ok G)|apply (g_bp G)|done|set_solver|]. intros s2 R. wp_steps.
      apply (HQ _ _ f); [constructor|apply (p_ok R)|by eapply idle_back; [..|exact R]; [done|apply (g_count G)]|].
      intros d b Hd. rewrite (p_con R) by done. by apply Hs1.
    + destruct (g_dev G) as [Ed|(_ & Ed & _)]; [|done].
      pose proof (g_data G eq_refl Ed) as Edat.
      assert (Hsz : length (b_data (B bp s1)) = Z.to_nat BLOCK_SIZE) by (apply (da_size [] s1); [apply (g_ok G)|apply (g_bp G)]).
      apply (fill_buf_ok []); [apply (g_ok G)|apply (g_bp G)|by rewrite length_put_bytes; rewrite Hsz|].
      intros s2 Hok2 Hc2 Hd2 Hdat2 Hdv2 Hcnt2 _ _ _.
      wp_steps. apply (put_block_ok []); [done|apply (g_bp G)|by unfold used; rewrite Hcnt2|set_solver|]. intros s3 R. wp_steps.
      apply (HQ _ _ (write_one dev blk (put_bytes (f dev blk) off v) f)); [constructor|apply (p_ok R)| |].
      * eapply idle_back; [exact Hid| |exact R]. intros i. by rewrite Hcnt2, (g_count G).
      * intros d b Hd. rewrite (p_con R), Hc2, Ed, (g_blk G), Edat by done. unfold write_one.
        destruct (decide (d = dev /\ b = blk)); [by rewrite Hf|by apply Hs1].
  - wp_steps. apply (flush_keeps [] dev); [done|done|]. intros s1 Hok1 Hc1 Hcnt1 _. wp_steps.
    apply (HQ _ _ f); [constructor|done|intros i Hi; by rewrite Hcnt1, Hid|]. intros d b Hd. rewrite Hc1 by done. by apply Hf.
Qed.

Lemma run_ops_ok ops : forall s f (Q : list (option (list Z)) -> fst_ X -> Prop), Forall op_ok ops -> cache_ok [] s -> idle s ->
  same_disk (contents s) f ->
  (forall rs s' f', disk_run f ops rs f' -> cache_ok [] s' -> idle s' -> same_disk (contents s') f' -> Q rs s') -> wp (run_ops ops) Q s.
Proof.
  induction ops as [|o ops IH]; intros s f Q Hall Hok Hid Hf HQ; cbn [run_ops].
  - wp_steps. apply (HQ _ _ f); [constructor|done..].
  - apply Forall_cons in Hall as [Ho Hall]. apply wp_bind, (run_op_ok o s f); [done..|]. intros r s1 f1 Hst Hok1 Hid1 Hf1.
    apply wp_bind, (IH s1 f1); [done..|]. intros rs s2 f2 Hrun Hok2 Hid2 Hf2. wp_steps. apply (HQ _ _ f2); [by econstructor|done..].
Qed.

(** C9. The block cache refines a plain disk: any sequence of reads, whole
    writes and partial writes of blocks and of flushes, made through
    [get_block], [put_block] and [flushall] from a good cache with no buffer
    in use, ends normally (no panic, no endless search), returns what a disk
    without a cache could return, a read never giving anything but the last
    contents written, and leaves a good cache with no buffer in use. Once
    the cache is flushed, the disk itself holds the final contents. *)
Theorem cache_refines_disk ops dev s : Forall op_ok ops -> blockdev dev -> cache_ok [] s -> idle s ->
  exists rs s1 f, run_ops ops s = Done rs s1 /\ disk_run (contents s) ops rs f /\ cache_ok [] s1 /\ idle s1 /\
    (forall d b, d <> NO_DEV -> contents s1 d b = f d b) /\
    exists s2, flushall dev s1 = Done tt s2 /\ forall b, blocks (fext s2) dev b = f dev b.
Proof.
  intros Hall Hdev Hok Hid. assert (Hnd : dev <> NO_DEV) by (destruct Hdev; lia).
  assert (Hw : wp (run_ops ops) (fun rs s1 => exists f, disk_run (contents s) ops rs f /\ cache_ok [] s1 /\ idle s1 /\ same_disk (contents s1) f) s).
  { apply (run_ops_ok ops s (contents s)); [done..|]. intros rs s1 f Hrun Hok1 Hid1 Hf. by exists f. }
  apply wp_run in Hw as (rs & s1 & E & f & Hrun & Hok1 & Hid1 & Hf). exists rs, s1, f. split_and!; [done..|].
  assert (Hw : wp (flushall dev) (fun _ s2 => forall b, blocks (fext s2) dev b = f dev b) s1).
  { eapply flush_keeps; [done|done|]. intros s2 _ _ _ Hb b. by rewrite Hb, Hf. }
  apply wp_run in Hw as ([] & s2 & E2 & Hb). by exists s2.
Qed.
End spec.

Theorem cache_refines_disk_witness : exists rs s1 f,
  run_ops [WriteBlock 256 5 FULL_DATA_BLOCK (replicate 1024 7); ModifyBlock 256 5 PARTIAL_DATA_BLOCK 3 [9]; ReadBlock 256 5 FULL_DATA_BLOCK;
           WriteBlock 512 5 INODE_BLOCK (replicate 1024 8); Sync 512; ReadBlock 256 37 FULL_DATA_BLOCK] pool_state = Done rs s1 /\
  disk_run (contents pool_state) [WriteBlock 256 5 FULL_DATA_BLOCK (replicate 1024 7); ModifyBlock 256 5 PARTIAL_DATA_BLOCK 3 [9];
           ReadBlock 256 5 FULL_DATA_BLOCK; WriteBlock 512 5 INODE_BLOCK (replicate 1024 8); Sync 512; ReadBlock 256 37 FULL_DATA_BLOCK] rs f /\
  cache_ok [] s1 /\ idle s1 /\ (forall d b, d <> NO_DEV -> contents s1 d b = f d b) /\
  exists s2, flushall 256 s1 = Done tt s2 /\ forall b, blocks (fext s2) 256 b = f 256 b.
Proof.
  apply (cache_refines_disk _ 256 pool_state).
  - repeat (apply Forall_cons; split; [cbn [op_ok]; unfold blockdev, blockno, NO_DEV; vm_compute; repeat split; first [done|lia]|]). by constructor.
  - split; by vm_compute.
  - apply pool_ok.
  - exact (proj2 pool_ok).
Defined.
