(* ===== verification/FsSuper.v ===== *)
(** * Super blocks, bit maps and zones: [src/fs/super.c], [alloc_zone] and
    [free_zone] of [cache.c], [clock_time] of [utility.c]

    A pointer read from a disk's super block that is no address of a table
    entry is [None] (the code never follows one before setting it). *)

From S2P Require Import Prelude KProc FsState FsDev FsCache.

Definition BIT_MAP_SHIFT : Z := 13.
Definition INT_BITS : Z := 16.

(** ** [struct super_block] as bytes *)
Definition ptr_bytes (at_ : nat -> Z) (p : option nat) : list Z :=
  long_bytes (match p with Some i => at_ i | None => 0 end).
Definition ptr_of (at_ : nat -> Z) (n : nat) (v : Z) : option nat := find (fun i => at_ i =? v) (seq 0 n).

Definition super_bytes `{!Layout} (s : super_block) : list Z :=
  half_bytes (s_ninodes s) ++ half_bytes (s_nzones s) ++ half_bytes (s_imap_blocks s) ++ half_bytes (s_zmap_blocks s) ++
  half_bytes (s_firstdatazone s) ++ half_bytes (s_log_zone_size s) ++ long_bytes (s_max_size s) ++ half_bytes (s_magic s) ++
  concat (ptr_bytes buf_at <$> s_imap s) ++ concat (ptr_bytes buf_at <$> s_zmap s) ++ half_bytes (s_dev s) ++
  ptr_bytes inode_at (s_isup s) ++ ptr_bytes inode_at (s_imount s) ++ long_bytes (s_time s) ++
  [u8 (s_rd_only s); if s_dirt s then 1 else 0].
Definition super_of `{!Layout} (b : list Z) : super_block :=
  mk_super (half_at b 0) (half_at b 2) (half_at b 4) (half_at b 6) (half_at b 8) (s16 (half_at b 10)) (s32 (long_at b 12))
    (s16 (half_at b 16))
    ((fun i => ptr_of buf_at NR_BUFS (long_at b (18 + 4 * i))) <$> seq 0 8)
    ((fun i => ptr_of buf_at NR_BUFS (long_at b (50 + 4 * i))) <$> seq 0 8)
    (half_at b 82) (ptr_of inode_at NR_INODES (long_at b 84)) (ptr_of inode_at NR_INODES (long_at b 88))
    (s32 (long_at b 92)) (s8 (b !!! 96%nat)) (nz (b !!! 97%nat)).

(** ** Searching a bit map *)
Fixpoint first_zero (n : nat) (k i : Z) : option Z :=
  match n with
  | O => None
  | S n' => if Z.land (Z.shiftr k i) 1 =? 0 then Some i else first_zero n' k (i + 1)
  end.

(** The words of a block from [w] on, [n] of them; the free bit found, unless
    it lies beyond the map. *)
Fixpoint scan_words (n w : nat) (data : list Z) (b map_bits : Z) : option (nat * Z) :=
  match n with
  | O => None
  | S n' =>
      let k := word_at data w in
      match (if k =? 65535 then None else first_zero (Z.to_nat INT_BITS) k 0) with
      | Some i =>
          let a := u16 (i + Z.of_nat w * INT_BITS + Z.shiftl b BIT_MAP_SHIFT) in
          if map_bits <=? a then None else Some (w, i)
      | None => scan_words n' (S w) data b map_bits
      end
  end.

Section super.
Context {X : Type} `{!World X} `{!Layout}.
Notation FS := (M (fst_ X)).

Definition map_block (map_ptr : list (option nat)) (b : Z) : FS nat :=
  match map_ptr !! Z.to_nat b with
  | Some (Some bp) => mret bp
  | _ => panic "bit map block"
  end.

Fixpoint alloc_loop (block_count : nat) (map_ptr : list (option nat)) (b : Z) (w : nat) (map_bits bit_blocks : Z) : FS Z :=
  match block_count with
  | O => mret NO_BIT
  | S n' =>
      bp ← map_block map_ptr b;
      d ← gets (fun s => b_data (B bp s));
      match scan_words (Z.to_nat INTS_PER_BLOCK - w) w d b map_bits with
      | Some (w, i) =>
          upd_buf bp (fun f => f <| b_data := put_word d w (Z.lor (word_at d w) (Z.shiftl 1 i)) |>);;
          dirty_buf bp;;
          mret (u16 (i + Z.of_nat w * INT_BITS + Z.shiftl b BIT_MAP_SHIFT))
      | None =>
          let b := b + 1 in
          alloc_loop n' map_ptr (if b =? bit_blocks then 0 else b) 0 map_bits bit_blocks
      end
  end.

Definition alloc_bit (map_ptr : list (option nat)) (map_bits bit_blocks origin : Z) : FS Z :=
  let origin := if map_bits <=? origin then 0 else origin in
  let b := Z.shiftr origin BIT_MAP_SHIFT in
  let o := u16 (origin - Z.shiftl b BIT_MAP_SHIFT) in
  let w := o / INT_BITS in
  let block_count := if w =? 0 then bit_blocks else u16 (bit_blocks + 1) in
  alloc_loop (Z.to_nat block_count) map_ptr b (Z.to_nat w) map_bits bit_blocks.

Definition free_bit (map_ptr : list (option nat)) (bit_returned : Z) : FS unit :=
  let b := Z.shiftr bit_returned BIT_MAP_SHIFT in
  let r := u16 (bit_returned - Z.shiftl b BIT_MAP_SHIFT) in
  let w := Z.to_nat (r / INT_BITS) in
  let bit := r mod INT_BITS in
  match map_ptr !! Z.to_nat b with
  | Some (Some bp) =>
      upd_buf bp (fun f => f <| b_data := put_word (b_data f) w (Z.ldiff (word_at (b_data f) w) (Z.shiftl 1 bit)) |>);;
      dirty_buf bp
  | _ => mret tt
  end.

(** ** Super blocks *)
Definition super_of_dev (s : fst_ X) (dev : Z) : option nat :=
  find (fun i => s_dev (SB i s) =? dev) (seq 0 (length (supers s))).
Definition get_super (dev : Z) : FS nat :=
  o ← gets (fun s => super_of_dev s dev);
  match o with
  | Some i => mret i
  | None => panic "can't find superblock for device"
  end.

Definition mounted (rip : nat) : FS bool :=
  dev ← gets (fun s => i_zone (INO rip s) !!! 0%nat);
  r ← gets root_dev;
  if dev =? r then mret true else
  gets (fun s => match super_of_dev s dev with Some _ => true | None => false end).

Definition scale_factor (ip : nat) : FS Z :=
  dev ← gets (fun s => i_dev (INO ip s));
  sp ← get_super dev;
  gets (fun s => s_log_zone_size (SB sp s)).

Definition rw_super (sp : nat) (rw_flag : Z) : FS unit :=
  dev ← gets (fun s => s_dev (SB sp s));
  bp ← (if rw_flag =? READING then
          bp ← get_block dev SUPER_BLOCK NORMAL;
          d ← gets (fun s => b_data (B bp s));
          upd_super sp (fun _ => super_of d);;
          upd_super sp (fun s => s <| s_dev := dev |>);;
          mret bp
        else
          bp ← get_block dev SUPER_BLOCK NO_READ;
          v ← gets (SB sp);
          upd_buf bp (fun f => f <| b_data := put_bytes (b_data f) 0 (super_bytes v) |>);;
          dirty_buf bp;;
          mret bp);
  upd_super sp (fun s => s <| s_dirt := false |>);;
  put_block (Some bp) ZUPER_BLOCK.

(** Getting the blocks of a map: [n] of them, the [i]th is block [first + i]. *)
Fixpoint load_map (set : nat -> option nat -> super_block -> super_block) (sp : nat) (dev first : Z) (i n : nat) : FS unit :=
  match n with
  | O => mret tt
  | S n' =>
      bp ← get_block dev (u16 (first + Z.of_nat i)) NORMAL;
      upd_super sp (set i (Some bp));;
      load_map set sp dev first (S i) n'
  end.
Definition set_imap (i : nat) (p : option nat) (s : super_block) : super_block := s <| s_imap ::= <[i := p]> |>.
Definition set_zmap (i : nat) (p : option nat) (s : super_block) : super_block := s <| s_zmap ::= <[i := p]> |>.

(** Marking the lowest bits of a map busy. *)
Definition mark_busy (map_ptr : list (option nat)) (bits : Z) : FS unit :=
  bp ← map_block map_ptr 0;
  upd_buf bp (fun f => f <| b_data := put_word (b_data f) 0 (Z.lor (word_at (b_data f) 0) bits) |>).

Definition load_bit_maps (dev : Z) : FS Z :=
  sp ← get_super dev;
  v ← gets (SB sp);
  n ← gets bufs_in_use;
  if Z.of_nat NR_BUFS - 3 <=? u16 (n + s_imap_blocks v + s_zmap_blocks v) then mret ERROR else
  if (I_MAP_SLOTS <? s_imap_blocks v) || (ZMAP_SLOTS <? s_zmap_blocks v) then panic "too many map blocks" else
  load_map set_imap sp dev (SUPER_BLOCK + 1) 0 (Z.to_nat (s_imap_blocks v));;
  let zbase := u16 (SUPER_BLOCK + 1 + s_imap_blocks v) in
  load_map set_zmap sp dev zbase 0 (Z.to_nat (s_zmap_blocks v));;
  v ← gets (SB sp);
  mark_busy (s_imap v) 3;;
  mark_busy (s_zmap v) 1;;
  mret OK.

Fixpoint put_all (l : list (option nat)) (bt : Z) : FS unit :=
  match l with
  | [] => mret tt
  | p :: l' => put_block p bt;; put_all l' bt
  end.
Definition unload_bit_maps (dev : Z) : FS Z :=
  sp ← get_super dev;
  v ← gets (SB sp);
  put_all (take (Z.to_nat (s_imap_blocks v)) (s_imap v)) I_MAP_BLOCK;;
  put_all (take (Z.to_nat (s_zmap_blocks v)) (s_zmap v)) ZMAP_BLOCK;;
  mret OK.

(** ** Zones *)
Definition alloc_zone (dev z : Z) : FS Z :=
  sp ← get_super dev;
  v ← gets (SB sp);
  let bit := u16 (z - (s_firstdatazone v - 1)) in
  b ← alloc_bit (s_zmap v) (u16 (s_nzones v - s_firstdatazone v + 1)) (s_zmap_blocks v) bit;
  if b =? NO_BIT then
    set_err ENOSPC;;
    mret NO_ZONE
  else mret (u16 (s_firstdatazone v - 1 + b)).

Definition free_zone (dev numb : Z) : FS unit :=
  if numb =? NO_ZONE then mret tt else
  sp ← get_super dev;
  v ← gets (SB sp);
  free_bit (s_zmap v) (u16 (numb - (s_firstdatazone v - 1))).

(** ** The time of day, which also dates the root's super block *)
Definition clock_time : FS Z :=
  a ← request GetTime;
  if negb (an_ret a =? OK) then panic "clock_time err" else
  let t := an_words a !!! 0%nat in
  r ← gets root_dev;
  sp ← get_super r;
  upd_super sp (fun v => v <| s_time := t |>);;
  v ← gets (SB sp);
  when (s_rd_only v =? 0) (upd_super sp (fun v => v <| s_dirt := true |>));;
  mret t.
End super.
