(* ===== verification/FsBits.v ===== *)
(** * The bit maps: [alloc_bit] and [free_bit]

    A map is a sequence of bits over the blocks that [map_ptr] points to;
    [map_bit] reads one. [alloc_bit] finds the first clear bit from the word
    of its origin on, cyclically, and [free_bit] clears it again. *)

From S2P Require Import Prelude KProc FsState FsDev FsCache FsSuper FsDemo.

Definition bytes_ok (d : list Z) : Prop := length d = Z.to_nat BLOCK_SIZE /\ Forall (fun x => 0 <= x < 256) d.

(** ** Words *)
Lemma byte_at d i : bytes_ok d -> 0 <= d !!! i < 256.
Proof.
  intros [_ Hd]. destruct (decide (i < length d)%nat) as [Hi|Hi].
  - rewrite Forall_forall in Hd. apply Hd. by apply list_elem_of_lookup_total_2.
  - rewrite list_lookup_total_alt, lookup_ge_None_2 by lia. cbn. lia.
Qed.
Lemma testbit_small b n i : 0 <= b < 2 ^ n -> n <= i -> Z.testbit b i = false.
Proof.
  intros Hb Hi. destruct (decide (0 <= n)) as [Hn|]; [|rewrite Z.pow_neg_r in Hb by lia; lia].
  rewrite <- (Z.mod_small b (2 ^ n)) by done. by apply Z.mod_pow2_bits_high.
Qed.
Lemma testbit_word a b i : 0 <= i -> 0 <= b < 256 ->
  Z.testbit (Z.lor (Z.shiftl a 8) b) i = if i <? 8 then Z.testbit b i else Z.testbit a (i - 8).
Proof.
  intros Hi Hb. rewrite Z.lor_spec, Z.shiftl_spec by done. destruct (Z.ltb_spec i 8).
  - by rewrite (Z.testbit_neg_r _ (i - 8)) by lia.
  - by rewrite (testbit_small b 8 i), orb_false_r by lia.
Qed.
Lemma u16_bits v i : 0 <= i -> Z.testbit (u16 v) i = (i <? 16) && Z.testbit v i.
Proof.
  intros Hi. unfold u16. destruct (Z.ltb_spec i 16); [by rewrite Z.mod_pow2_bits_low by lia|by rewrite Z.mod_pow2_bits_high by lia].
Qed.
Lemma u8_bits v i : 0 <= i -> Z.testbit (u8 v) i = (i <? 8) && Z.testbit v i.
Proof.
  intros Hi. unfold u8. destruct (Z.ltb_spec i 8); [by rewrite Z.mod_pow2_bits_low by lia|by rewrite Z.mod_pow2_bits_high by lia].
Qed.
Lemma word_put d w v w' : (2 * w + 1 < length d)%nat ->
  word_at (put_word d w v) w' = if decide (w = w') then u16 v else word_at d w'.
Proof.
  intros Hl. unfold word_at, put_word. destruct (decide (w = w')) as [<-|Hne].
  - rewrite list_lookup_total_insert_ne, list_lookup_total_insert_eq by lia.
    rewrite list_lookup_total_insert_eq by (rewrite length_insert; lia).
    apply Z.bits_inj'. intros i Hi. rewrite testbit_word, u16_bits by (done || apply u8_range).
    destruct (Z.ltb_spec i 8).
    + rewrite u8_bits, (proj2 (Z.ltb_lt i 8)), (proj2 (Z.ltb_lt i 16)) by lia. done.
    + rewrite u8_bits, Z.shiftr_spec by lia. replace (i - 8 + 8) with i by lia.
      destruct (Z.ltb_spec (i - 8) 8), (Z.ltb_spec i 16); try done; lia.
  - by rewrite !list_lookup_total_insert_ne by lia.
Qed.
Lemma put_word_ok d w v : bytes_ok d -> bytes_ok (put_word d w v).
Proof.
  intros [Hl Hd]. split; [unfold put_word; by rewrite !length_insert|]. unfold put_word.
  repeat apply Forall_insert; [done|apply u8_range..].
Qed.
Lemma word_bit_high d w i : bytes_ok d -> 16 <= i -> Z.testbit (word_at d w) i = false.
Proof.
  intros Hd Hi. unfold word_at. rewrite testbit_word by (lia || by apply byte_at). rewrite (proj2 (Z.ltb_ge i 8)) by lia.
  apply (testbit_small _ 8); [by apply byte_at|lia].
Qed.

(** ** Bits of a word *)
Lemma first_zero_ok k n : forall i, 0 <= i ->
  match first_zero n k i with
  | Some j => i <= j < i + Z.of_nat n /\ Z.testbit k j = false /\ forall m, i <= m < j -> Z.testbit k m = true
  | None => forall m, i <= m < i + Z.of_nat n -> Z.testbit k m = true
  end.
Proof.
  induction n as [|n IH]; intros i Hi; cbn [first_zero]; [intros m Hm; lia|].
  assert (Eb : Z.land (Z.shiftr k i) 1 = if Z.testbit k i then 1 else 0).
  { pose proof (land_bit (Z.shiftr k i) 0 ltac:(lia)) as E. change (2 ^ 0) with 1 in E. rewrite E, Z.shiftr_spec by lia. done. }
  rewrite Eb. destruct (Z.testbit k i) eqn:E; cbn [Z.eqb].
  - specialize (IH (i + 1) ltac:(lia)). destruct (first_zero n k (i + 1)) as [j|].
    + destruct IH as (H1 & H2 & H3). split_and!; [lia|lia|done|]. intros m Hm. destruct (decide (m = i)) as [->|]; [done|apply H3; lia].
    + intros m Hm. destruct (decide (m = i)) as [->|]; [done|apply IH; lia].
  - split_and!; [lia|lia|done|]. intros m Hm. lia.
Qed.

(** The free bit that the code looks for in a word. *)
Definition word_free (k : Z) : option Z := if k =? 65535 then None else first_zero 16 k 0.
Lemma word_free_ok k :
  match word_free k with
  | Some j => 0 <= j < 16 /\ Z.testbit k j = false /\ forall m, 0 <= m < j -> Z.testbit k m = true
  | None => forall m, 0 <= m < 16 -> Z.testbit k m = true
  end.
Proof.
  unfold word_free. destruct (Z.eqb_spec k 65535) as [->|_].
  - intros m Hm. change 65535 with (Z.ones 16). apply Z.ones_spec_low. lia.
  - pose proof (first_zero_ok k 16 0 ltac:(lia)) as H. destruct (first_zero 16 k 0); exact H.
Qed.

(** ** Bits of a block *)
Definition data_bit (d : list Z) (x : Z) : bool := Z.testbit (word_at d (Z.to_nat (x / 16))) (x mod 16).

(** From word [w] on, [n] words; [base] is the number of the block's first
    bit. *)
Lemma scan_words_ok d b map_bits n : forall w, 0 <= b < 8 -> (w + n = 512)%nat -> let base := b * 8192 in
  match scan_words n w d b map_bits with
  | Some (w', i) => let x := 16 * Z.of_nat w' + i in 0 <= i < 16 /\ (w <= w' < 512)%nat /\ base + x < map_bits /\ data_bit d x = false /\
      forall y, 16 * Z.of_nat w <= y < x -> data_bit d y = true
  | None => forall y, 16 * Z.of_nat w <= y < 8192 -> base + y < map_bits -> data_bit d y = true
  end.
Proof.
  induction n as [|n IH]; intros w Hb Hwn base; cbn [scan_words]; [intros y Hy; lia|].
  change (Z.to_nat INT_BITS) with 16%nat. fold (word_free (word_at d w)). pose proof (word_free_ok (word_at d w)) as Hf.
  assert (Hbit : forall m, 0 <= m < 16 -> data_bit d (16 * Z.of_nat w + m) = Z.testbit (word_at d w) m).
  { intros m Hm. unfold data_bit. replace ((16 * Z.of_nat w + m) / 16) with (Z.of_nat w) by zlia.
    replace ((16 * Z.of_nat w + m) mod 16) with m by zlia. by rewrite Nat2Z.id. }
  assert (Hw : forall y, 16 * Z.of_nat w <= y < 16 * Z.of_nat (S w) -> exists m, 0 <= m < 16 /\ y = 16 * Z.of_nat w + m).
  { intros y Hy. exists (y - 16 * Z.of_nat w). lia. }
  destruct (word_free (word_at d w)) as [i|].
  - destruct Hf as (Hi & Hfree & Hbelow). unfold BIT_MAP_SHIFT, INT_BITS. rewrite Z.shiftl_mul_pow2 by lia. change (2 ^ 13) with 8192.
    rewrite u16_id by (unfold base in *; lia). destruct (Z.leb_spec map_bits (i + Z.of_nat w * 16 + b * 8192)).
    + intros y Hy Hin. destruct (decide (y < 16 * Z.of_nat w + i)); [|unfold base in *; lia].
      destruct (Hw y) as (m & Hm & ->); [lia|]. rewrite Hbit by done. apply Hbelow. lia.
    + cbv zeta. split_and!; [lia|lia|lia|lia|unfold base; lia|by rewrite Hbit|]. intros y Hy. destruct (Hw y) as (m & Hm & ->); [lia|]. rewrite Hbit by done. apply Hbelow. lia.
  - specialize (IH (S w) Hb ltac:(lia)). cbv zeta in IH. fold base in IH.
    assert (Hall : forall y, 16 * Z.of_nat w <= y < 16 * Z.of_nat (S w) -> data_bit d y = true).
    { intros y Hy. destruct (Hw y Hy) as (m & Hm & ->). rewrite Hbit by done. by apply Hf. }
    destruct (scan_words n (S w) d b map_bits) as [[w' i]|].
    + destruct IH as (H1 & H2 & H3 & H4 & H5). split_and!; [lia|lia|lia|lia|done|done|]. intros y Hy.
      destruct (decide (y < 16 * Z.of_nat (S w))); [apply Hall; lia|apply H5; lia].
    + intros y Hy Hin. destruct (decide (y < 16 * Z.of_nat (S w))); [apply Hall; lia|apply IH; [lia|done]].
Qed.

(** Setting or clearing a bit of a block. *)
Lemma data_bit_put d x y v : bytes_ok d -> 0 <= x < 8192 -> 0 <= y < 8192 ->
  data_bit (put_word d (Z.to_nat (x / 16)) v) y =
  if decide (x / 16 = y / 16) then Z.testbit v (y mod 16) else data_bit d y.
Proof.
  intros [Hl _] Hx Hy. unfold data_bit. rewrite word_put by (rewrite Hl; unfold BLOCK_SIZE; zlia).
  destruct (decide (x / 16 = y / 16)) as [E|E].
  - rewrite decide_True by (by rewrite E). rewrite u16_bits by zlia. rewrite (proj2 (Z.ltb_lt _ 16)) by zlia. done.
  - rewrite decide_False; [done|]. zlia.
Qed.
Lemma bit_of_one i m : 0 <= i -> Z.testbit (Z.shiftl 1 i) m = (m =? i).
Proof. intros Hi. rewrite Z.shiftl_1_l. rewrite Z.pow2_bits_eqb by done. apply Z.eqb_sym. Qed.
Lemma data_bit_set d x y : bytes_ok d -> 0 <= x < 8192 -> 0 <= y < 8192 ->
  data_bit (put_word d (Z.to_nat (x / 16)) (Z.lor (word_at d (Z.to_nat (x / 16))) (Z.shiftl 1 (x mod 16)))) y = (y =? x) || data_bit d y.
Proof.
  intros Hd Hx Hy. rewrite data_bit_put by done. destruct (decide (x / 16 = y / 16)) as [E|E].
  - rewrite Z.lor_spec, bit_of_one by zlia. unfold data_bit. rewrite <- E. destruct (Z.eqb_spec (y mod 16) (x mod 16)), (Z.eqb_spec y x); try zlia;
      by rewrite ?orb_true_r, ?orb_false_r.
  - destruct (Z.eqb_spec y x) as [->|]; [done|done].
Qed.
Lemma data_bit_clear d x y : bytes_ok d -> 0 <= x < 8192 -> 0 <= y < 8192 ->
  data_bit (put_word d (Z.to_nat (x / 16)) (Z.ldiff (word_at d (Z.to_nat (x / 16))) (Z.shiftl 1 (x mod 16)))) y = negb (y =? x) && data_bit d y.
Proof.
  intros Hd Hx Hy. rewrite data_bit_put by done. destruct (decide (x / 16 = y / 16)) as [E|E].
  - rewrite Z.ldiff_spec, bit_of_one by zlia. unfold data_bit. rewrite <- E. destruct (Z.eqb_spec (y mod 16) (x mod 16)), (Z.eqb_spec y x); try zlia;
      by rewrite ?andb_true_r, ?andb_false_r.
  - destruct (Z.eqb_spec y x) as [->|]; [done|done].
Qed.

(** ** Maps over several blocks *)
Section maps.
Context {X : Type} `{!World X} `{!Layout}.
Implicit Types s : fst_ X.

Definition map_data s (mp : list (option nat)) (b : Z) : list Z :=
  match mp !! Z.to_nat b with Some (Some bp) => b_data (B bp s) | _ => [] end.
Definition map_bit s (mp : list (option nat)) (x : Z) : bool := data_bit (map_data s mp (x / 8192)) (x mod 8192).

Record good_map (mp : list (option nat)) (bb : Z) s : Prop := {
  gm_count : 0 <= bb <= 8;
  gm_ptr b : 0 <= b < bb -> exists bp, mp !! Z.to_nat b = Some (Some bp) /\ (bp < length (bufs s))%nat /\ bytes_ok (b_data (B bp s));
  gm_inj b b' bp : 0 <= b < bb -> 0 <= b' < bb -> mp !! Z.to_nat b = Some (Some bp) -> mp !! Z.to_nat b' = Some (Some bp) -> b = b';
}.

(** The word of bit [x] replaced by its image under [g]. *)
Definition change_word (g : Z -> Z) (mp : list (option nat)) (x : Z) s : fst_ X :=
  match mp !! Z.to_nat (x / 8192) with
  | Some (Some bp) =>
      let w := Z.to_nat (x mod 8192 / 16) in
      s <| bufs ::= alter (fun f => f <| b_data := put_word (b_data f) w (g (word_at (b_data f) w)) |>) bp |>
        <| bufs ::= alter (fun f => f <| b_dirt := true |>) bp |>
  | _ => s
  end.
Definition set_bit : list (option nat) -> Z -> fst_ X -> fst_ X := fun mp x => change_word (fun k => Z.lor k (Z.shiftl 1 (x mod 16))) mp x.
Definition clear_bit : list (option nat) -> Z -> fst_ X -> fst_ X := fun mp x => change_word (fun k => Z.ldiff k (Z.shiftl 1 (x mod 16))) mp x.

Lemma block_of x bb : 0 <= x < 8192 * bb -> 0 <= x / 8192 < bb.
Proof. intros. split; [apply Z.div_pos; lia|apply Z.div_lt_upper_bound; lia]. Qed.
Lemma change_word_bufs g mp x s bp : mp !! Z.to_nat (x / 8192) = Some (Some bp) -> (bp < length (bufs s))%nat -> let s' := change_word g mp x s in
  let w := Z.to_nat (x mod 8192 / 16) in
  length (bufs s') = length (bufs s) /\ (forall i, i <> bp -> B i s' = B i s) /\
  b_data (B bp s') = put_word (b_data (B bp s)) w (g (word_at (b_data (B bp s)) w)) /\ b_dirt (B bp s') = true.
Proof.
  intros Ep Hbp. unfold change_word. rewrite Ep. cbv zeta. unfold B, set_field; cbn. split_and!.
  - by rewrite !length_alter.
  - intros i Hi. by rewrite !tbl_alter_ne.
  - by rewrite !tbl_alter_eq by (rewrite ?length_alter; done).
  - by rewrite !tbl_alter_eq by (rewrite ?length_alter; done).
Qed.
Lemma change_word_good g mp bb x s : good_map mp bb s -> 0 <= x < 8192 * bb -> good_map mp bb (change_word g mp x s).
Proof.
  intros G Hx. destruct (gm_ptr _ _ _ G (x / 8192) ltac:(zlia)) as (bp & Ep & Hbp & Hok).
  destruct (change_word_bufs g mp x s bp Ep Hbp) as (Hl & Hne & Hd & _). split; [apply G| |apply G].
  intros b Hb. destruct (gm_ptr _ _ _ G b Hb) as (bp' & Ep' & Hbp' & Hok'). exists bp'. split_and!; [done|by rewrite Hl|].
  destruct (decide (bp' = bp)) as [->|]; [|by rewrite Hne]. rewrite Hd. by apply put_word_ok.
Qed.
Lemma map_bit_change g h mp bb x s : good_map mp bb s -> 0 <= x < 8192 * bb ->
  (forall d z, bytes_ok d -> 0 <= z < 8192 -> let w := Z.to_nat (x mod 8192 / 16) in
    data_bit (put_word d w (g (word_at d w))) z = h (z =? x mod 8192) (data_bit d z)) -> (forall v, h false v = v) ->
  forall y, 0 <= y < 8192 * bb -> map_bit (change_word g mp x s) mp y = h (y =? x) (map_bit s mp y).
Proof.
  intros G Hx Hg Hh y Hy. pose proof (block_of x bb Hx) as Hxb. pose proof (block_of y bb Hy) as Hyb.
  destruct (gm_ptr _ _ _ G (x / 8192) Hxb) as (bp & Ep & Hbp & Hok).
  destruct (change_word_bufs g mp x s bp Ep Hbp) as (Hl & Hne & Hd & _). cbv zeta in Hd. unfold map_bit, map_data.
  destruct (gm_ptr _ _ _ G (y / 8192) Hyb) as (bp' & Ep' & Hbp' & Hok'). rewrite Ep'.
  destruct (decide (y / 8192 = x / 8192)) as [E|E].
  - assert (bp' = bp) as -> by (rewrite E in Ep'; congruence). rewrite Hd, Hg by (done || apply Z.mod_pos_bound; lia). f_equal.
    destruct (Z.eqb_spec (y mod 8192) (x mod 8192)), (Z.eqb_spec y x); [done| | |done]; clear - E n e; zlia.
  - rewrite Hne by (intros ->; apply E; by apply (gm_inj _ _ _ G _ _ bp)).
    rewrite (proj2 (Z.eqb_neq y x)) by (intros ->; done). by rewrite Hh.
Qed.
Lemma x_mod16 x : x mod 16 = (x mod 8192) mod 16.
Proof. zlia. Qed.
Lemma map_bit_set mp bb x y s : good_map mp bb s -> 0 <= x < 8192 * bb -> 0 <= y < 8192 * bb ->
  map_bit (set_bit mp x s) mp y = (y =? x) || map_bit s mp y.
Proof.
  intros G Hx Hy. unfold set_bit. refine (map_bit_change _ orb mp bb x s G Hx _ _ y Hy); [|reflexivity].
  intros d z Hd Hz w. unfold w. rewrite x_mod16. apply data_bit_set; [done|by apply Z.mod_pos_bound|done].
Qed.
Lemma map_bit_clear mp bb x y s : good_map mp bb s -> 0 <= x < 8192 * bb -> 0 <= y < 8192 * bb ->
  map_bit (clear_bit mp x s) mp y = negb (y =? x) && map_bit s mp y.
Proof.
  intros G Hx Hy. unfold clear_bit. refine (map_bit_change _ (fun a => andb (negb a)) mp bb x s G Hx _ _ y Hy); [|reflexivity].
  intros d z Hd Hz w. unfold w. rewrite x_mod16. apply data_bit_clear; [done|by apply Z.mod_pos_bound|done].
Qed.

(** The block and word that the scan finds, as a bit of the map. *)
Lemma found_bit b w i : 0 <= b -> (w < 512)%nat -> 0 <= i < 16 -> let x := 8192 * b + (16 * Z.of_nat w + i) in
  x / 8192 = b /\ x mod 8192 = 16 * Z.of_nat w + i /\ Z.to_nat (x mod 8192 / 16) = w /\ x mod 16 = i.
Proof.
  intros Hb Hw Hi x. assert (E : x / 8192 = b) by (unfold x; zlia). assert (E' : x mod 8192 = 16 * Z.of_nat w + i) by (unfold x; zlia).
  split_and!; [done|done| |unfold x; zlia]. rewrite E'. replace ((16 * Z.of_nat w + i) / 16) with (Z.of_nat w) by zlia. apply Nat2Z.id.
Qed.
Lemma map_bit_in s mp b x bp : 0 <= b -> mp !! Z.to_nat b = Some (Some bp) -> 0 <= x < 8192 ->
  map_bit s mp (8192 * b + x) = data_bit (b_data (B bp s)) x.
Proof.
  intros Hb Ep Hx. unfold map_bit, map_data. replace ((8192 * b + x) / 8192) with b by zlia.
  replace ((8192 * b + x) mod 8192) with x by zlia. by rewrite Ep.
Qed.

(** [n] more blocks, none of them before the one it started in. *)
Lemma alloc_run mp bb map_bits m s (Q : Z -> fst_ X -> Prop) : good_map mp bb s -> map_bits <= 65535 -> forall n b w,
  0 <= b -> b + Z.of_nat n <= bb -> (0 < n)%nat -> (w < 512)%nat ->
  let lo := 8192 * b + 16 * Z.of_nat w in let hi := 8192 * (b + Z.of_nat n) in
  (forall x, lo <= x < hi -> x < map_bits -> map_bit s mp x = false -> (forall y, lo <= y < x -> map_bit s mp y = true) -> Q x (set_bit mp x s)) ->
  ((forall y, lo <= y < hi -> y < map_bits -> map_bit s mp y = true) ->
    wp (alloc_loop m mp (if b + Z.of_nat n =? bb then 0 else b + Z.of_nat n) 0 map_bits bb) Q s) ->
  wp (alloc_loop (n + m) mp b w map_bits bb) Q s.
Proof.
  intros G Hbits. induction n as [|n IH]; intros b w Hb Hbn Hn Hw lo hi HQ Hrest; [lia|].
  pose proof (gm_count _ _ _ G) as Hbb. destruct (gm_ptr _ _ _ G b ltac:(lia)) as (bp & Ep & Hbp & Hok).
  cbn [Nat.add alloc_loop]. unfold map_block. rewrite Ep. wp_steps.
  pose proof (scan_words_ok (b_data (B bp s)) b map_bits (512 - w) w ltac:(lia) ltac:(lia)) as Hscan. cbv zeta in Hscan.
  change (Z.to_nat INTS_PER_BLOCK) with 512%nat.
  assert (Hin : forall z, 0 <= z < 8192 -> map_bit s mp (8192 * b + z) = data_bit (b_data (B bp s)) z) by (intros; by apply map_bit_in).
  destruct (scan_words (512 - w) w (b_data (B bp s)) b map_bits) as [[w' i]|].
  - destruct Hscan as (Hi & Hw' & Hx & Hfree & Hbefore). set (x := 8192 * b + (16 * Z.of_nat w' + i)).
    destruct (found_bit b w' i Hb ltac:(lia) Hi) as (Ex1 & Ex2 & Ex3 & Ex4). fold x in Ex1, Ex2, Ex3, Ex4.
    unfold dirty_buf, upd_buf. wp_steps. unfold BIT_MAP_SHIFT, INT_BITS. rewrite Z.shiftl_mul_pow2 by lia. change (2 ^ 13) with 8192.
    replace (i + Z.of_nat w' * 16 + b * 8192) with x by (unfold x; lia). rewrite u16_id by (unfold x; lia).
    assert (HQx : Q x (set_bit mp x s)).
    { apply HQ; [unfold x, lo, hi; lia|unfold x; lia|unfold x; by rewrite Hin by lia|]. intros y Hy.
      replace y with (8192 * b + (y - 8192 * b)) by lia. rewrite Hin by (unfold x, lo in *; lia). apply Hbefore. unfold x, lo in *; lia. }
    eapply eq_ind; [exact HQx|]. unfold set_bit, change_word. rewrite Ex1, Ep, Ex3, Ex4. cbv zeta. unfold set_field; cbn.
    f_equal. f_equal. apply list_alter_ext; [|done]. intros f Hf. unfold B. by rewrite (list_lookup_total_correct _ _ _ Hf).
  - assert (Hthis : forall y, lo <= y < 8192 * (b + 1) -> y < map_bits -> map_bit s mp y = true).
    { intros y Hy Hym. replace y with (8192 * b + (y - 8192 * b)) by lia. unfold lo in Hy. rewrite Hin by lia. apply Hscan; lia. }
    destruct (decide (n = 0%nat)) as [->|Hn0].
    + replace (b + Z.of_nat 1) with (b + 1) in Hrest by lia. apply Hrest. intros y Hy. apply Hthis. unfold hi in Hy. lia.
    + rewrite (proj2 (Z.eqb_neq (b + 1) bb)) by lia. apply IH; [lia|lia|lia|lia| |].
      * intros y Hy Hym Hyf Hyb. apply HQ; [unfold lo, hi; lia|done|done|]. intros z Hz. destruct (decide (z < 8192 * (b + 1))); [apply Hthis; lia|apply Hyb; lia].
      * intros Hall. replace (b + 1 + Z.of_nat n) with (b + Z.of_nat (S n)) by lia. apply Hrest. intros y Hy Hym.
        destruct (decide (y < 8192 * (b + 1))); [apply Hthis; lia|apply Hall; [unfold hi in Hy; lia|done]].
Qed.

(** ** Allocation, against a search of the bits one by one *)
Definition clear_bits s (mp : list (option nat)) (l : list Z) : option Z := find (fun x => negb (map_bit s mp x)) l.

Lemma find_seq (f : Z -> bool) n : forall lo,
  match find f (seqZ lo (Z.of_nat n)) with
  | Some x => lo <= x < lo + Z.of_nat n /\ f x = true /\ forall y, lo <= y < x -> f y = false
  | None => forall y, lo <= y < lo + Z.of_nat n -> f y = false
  end.
Proof.
  induction n as [|n IH]; intros lo; [cbn; intros y Hy; lia|].
  rewrite seqZ_cons by lia. cbn [find]. destruct (f lo) eqn:E; [split_and!; [lia|lia|done|intros; lia]|].
  replace (Z.pred (Z.of_nat (S n))) with (Z.of_nat n) by lia. specialize (IH (Z.succ lo)). destruct (find f (seqZ (Z.succ lo) (Z.of_nat n))) as [x|].
  - destruct IH as (H1 & H2 & H3). split_and!; [lia|lia|done|]. intros y Hy. destruct (decide (y = lo)) as [->|]; [done|apply H3; lia].
  - intros y Hy. destruct (decide (y = lo)) as [->|]; [done|apply IH; lia].
Qed.
Lemma find_first (f : Z -> bool) lo n x : lo <= x < lo + n -> f x = true -> (forall y, lo <= y < x -> f y = false) -> find f (seqZ lo n) = Some x.
Proof.
  intros Hx Hf Hb. pose proof (find_seq f (Z.to_nat n) lo) as Hfs. rewrite Z2Nat.id in Hfs by lia. destruct (find f (seqZ lo n)) as [x'|].
  - destruct Hfs as (H1 & H2 & H3). f_equal. destruct (Z.lt_trichotomy x x') as [|[->|]]; [|done|]; [rewrite H3 in Hf by lia|rewrite Hb in H2 by lia]; done.
  - rewrite Hfs in Hf by lia. done.
Qed.
Lemma find_nothing (f : Z -> bool) lo n : (forall y, lo <= y < lo + n -> f y = false) -> find f (seqZ lo n) = None.
Proof.
  intros Hb. destruct (decide (0 <= n)) as [Hn|Hn]; [|by rewrite (seqZ_nil lo n) by lia]. pose proof (find_seq f (Z.to_nat n) lo) as Hfs.
  rewrite Z2Nat.id in Hfs by lia. destruct (find f (seqZ lo n)) as [x'|]; [|done]. destruct Hfs as (H1 & H2 & _). rewrite Hb in H2 by lia. done.
Qed.
Lemma find_append {A} (f : A -> bool) l l' : find f (l ++ l') = match find f l with Some x => Some x | None => find f l' end.
Proof. induction l as [|x l IH]; [done|]. cbn. by destruct (f x). Qed.

(** The bits in the order of the search from [origin]. *)
Definition search_start (map_bits origin : Z) : Z := if map_bits <=? origin then 0 else 16 * (origin / 16).
Definition search_order (map_bits origin : Z) : list Z :=
  let start := search_start map_bits origin in seqZ start (map_bits - start) ++ seqZ 0 start.

Lemma search_start_range map_bits origin : 0 <= map_bits -> 0 <= origin -> 0 <= search_start map_bits origin <= map_bits.
Proof. intros Hm Ho. unfold search_start. destruct (Z.leb_spec map_bits origin); [lia|]. clear - Ho H0. zlia. Qed.
Lemma in_search_order map_bits origin y : 0 <= map_bits -> 0 <= origin -> y ∈ search_order map_bits origin <-> 0 <= y < map_bits.
Proof.
  intros Hm Ho. pose proof (search_start_range map_bits origin Hm Ho). unfold search_order. rewrite elem_of_app, !elem_of_seqZ. lia.
Qed.
Lemma clear_bits_some s mp map_bits origin x : 0 <= map_bits /\ 0 <= origin -> clear_bits s mp (search_order map_bits origin) = Some x ->
  0 <= x < map_bits /\ map_bit s mp x = false.
Proof.
  intros [Hm Ho] E. apply find_some in E as [Hin Hf]. apply list_elem_of_In, in_search_order in Hin; [|done..].
  split; [done|by apply negb_true_iff].
Qed.
Lemma clear_bits_none s mp map_bits origin : 0 <= map_bits /\ 0 <= origin -> clear_bits s mp (search_order map_bits origin) = None ->
  forall y, 0 <= y < map_bits -> map_bit s mp y = true.
Proof.
  intros [Hm Ho] E y Hy.  pose proof (find_none _ _ E y) as Hn. cbn beta in Hn. rewrite <- list_elem_of_In, in_search_order in Hn by done. by apply negb_false_iff, Hn.
Qed.
Lemma alloc_bit_ok mp map_bits bb origin s (Q : Z -> fst_ X -> Prop) : good_map mp bb s -> 0 <= map_bits <= 65535 -> map_bits <= 8192 * bb ->
  0 <= origin <= 65535 ->
  Q (default NO_BIT (clear_bits s mp (search_order map_bits origin)))
    (match clear_bits s mp (search_order map_bits origin) with Some x => set_bit mp x s | None => s end) ->
  wp (alloc_bit mp map_bits bb origin) Q s.
Proof.
  intros G Hm Hmb Ho HQ. pose proof (gm_count _ _ _ G) as Hbb. unfold alloc_bit. unfold search_order in HQ. fold (search_start map_bits origin) in HQ.
  set (o := if map_bits <=? origin then 0 else origin). set (b := o / 8192). set (w := o mod 8192 / 16).
  assert (Ho' : 0 <= o <= 65535 /\ (o < map_bits \/ o = 0)) by (unfold o; destruct (Z.leb_spec map_bits origin); lia).
  assert (Est : search_start map_bits origin = 8192 * b + 16 * w).
  { unfold search_start, b, w, o. destruct (map_bits <=? origin); [done|]. clear. zlia. }
  assert (Hw : 0 <= w < 512) by (unfold w; clear; zlia). assert (Hb : 0 <= b) by (unfold b; apply Z.div_pos; lia).
  replace (Z.shiftr o BIT_MAP_SHIFT) with b by (unfold BIT_MAP_SHIFT, b; by rewrite Z.shiftr_div_pow2).
  replace (u16 (o - Z.shiftl b BIT_MAP_SHIFT)) with (o mod 8192).
  2:{ unfold BIT_MAP_SHIFT. rewrite Z.shiftl_mul_pow2 by done. change (2 ^ 13) with 8192. rewrite u16_id; unfold b; clear - Ho'; destruct Ho' as [Ho' _]; zlia. }
  change INT_BITS with 16. fold w. cbv zeta. rewrite Est in HQ. set (lo := 8192 * b + 16 * w) in *.
  destruct (decide (bb = 0)) as [Hbb0|Hbb0].
  { assert (map_bits = 0) as E0 by lia. assert (o = 0) as E1 by (unfold o; destruct (Z.leb_spec map_bits origin); lia).
    subst bb. assert (w = 0) as -> by (unfold w; by rewrite E1). cbn [Z.eqb Z.to_nat alloc_loop]. apply wp_ret. revert HQ. unfold clear_bits, lo, b. by rewrite E1, E0. }
  assert (Hbb1 : b < bb) by (unfold b; apply Z.div_lt_upper_bound; lia).
  assert (Hcount : Z.to_nat (if w =? 0 then bb else u16 (bb + 1)) = (Z.to_nat (bb - b) + Z.to_nat (if w =? 0 then b else b + 1)%Z)%nat).
  { rewrite u16_id by lia. destruct (w =? 0); lia. }
  rewrite Hcount. apply (alloc_run mp bb map_bits); [done|lia|lia|lia|lia|lia| |].
  - rewrite !Z2Nat.id by lia. fold lo. intros x Hx Hxm Hfree Hbefore. revert HQ. unfold clear_bits. rewrite find_append.
    rewrite (find_first _ _ _ x); [done|lia|by rewrite Hfree|]. intros y Hy. by rewrite Hbefore.
  - rewrite !Z2Nat.id by lia. fold lo. intros Hall. rewrite (proj2 (Z.eqb_eq (b + (bb - b)) bb)) by lia.
    assert (Hnone : clear_bits s mp (seqZ lo (map_bits - lo)) = None).
    { apply find_nothing. intros y Hy. rewrite Hall by lia. done. }
    unfold clear_bits in HQ, Hnone. rewrite find_append, Hnone in HQ.
    set (n2 := if w =? 0 then b else b + 1).
    destruct (decide (n2 = 0)) as [E2|E2].
    { rewrite E2. cbn [Z.to_nat alloc_loop]. apply wp_ret. assert (lo = 0) as El by (unfold n2, lo in *; destruct (Z.eqb_spec w 0); lia).
      rewrite El in HQ. exact HQ. }
    rewrite <- (Nat.add_0_r (Z.to_nat n2)). assert (Hn2 : 0 < n2 <= bb) by (unfold n2 in *; destruct (Z.eqb_spec w 0); lia).
    assert (Hlo : lo <= 8192 * n2) by (unfold n2, lo in *; destruct (Z.eqb_spec w 0); lia).
    apply (alloc_run mp bb map_bits); [done|lia|lia|lia|lia|lia| |]; rewrite !Z2Nat.id by lia.
    + intros x Hx Hxm Hfree Hbefore. assert (x < lo).
      { destruct (decide (x < lo)); [done|]. rewrite Hall in Hfree by lia. done. }
      revert HQ. rewrite (find_first _ 0 lo x); [done|lia|by rewrite Hfree|]. intros y Hy. by rewrite Hbefore by lia.
    + intros Hall2. cbn [alloc_loop]. apply wp_ret. revert HQ. rewrite find_nothing; [done|]. intros y Hy. destruct (decide (y < map_bits)) as [Hym|Hym].
      * by rewrite Hall2 by lia.
      * exfalso. assert (lo <= o) by (unfold lo, b, w; clear; zlia). lia.
Qed.

Lemma free_bit_ok mp x s (Q : unit -> fst_ X -> Prop) : 0 <= x <= 65535 -> Q tt (clear_bit mp x s) -> wp (free_bit mp x) Q s.
Proof.
  intros Hx. unfold free_bit, clear_bit, change_word, BIT_MAP_SHIFT, INT_BITS. cbv zeta. rewrite Z.shiftr_div_pow2, (Z.shiftl_mul_pow2 (x / 2 ^ 13) 13) by done.
  change (2 ^ 13) with 8192. replace (u16 (x - x / 8192 * 8192)) with (x mod 8192) by (rewrite u16_id; clear -Hx; zlia).
  rewrite x_mod16. destruct (mp !! Z.to_nat (x / 8192)) as [[bp|]|]; intros HQ; [|by apply wp_ret..].
  unfold dirty_buf, upd_buf. by wp_steps.
Qed.

(** C25. [alloc_bit] does what a search bit by bit does, from the word of
    [origin] to the end of the map and then from its beginning: it returns
    the first clear bit in that order and sets that bit of the map only, in a
    block that it marks dirty; when all are set it returns [NO_BIT] and
    changes nothing. *)
Theorem alloc_bit_correct mp map_bits bit_blocks origin s :
  good_map mp bit_blocks s -> 0 <= map_bits <= 65535 -> map_bits <= 8192 * bit_blocks -> 0 <= origin <= 65535 ->
  match clear_bits s mp (search_order map_bits origin) with
  | Some x => exists s', alloc_bit mp map_bits bit_blocks origin s = Done x s' /\
      0 <= x < map_bits /\ map_bit s mp x = false /\ good_map mp bit_blocks s' /\
      (forall y, 0 <= y < 8192 * bit_blocks -> map_bit s' mp y = (y =? x) || map_bit s mp y) /\
      (exists bp, mp !! Z.to_nat (x / 8192) = Some (Some bp) /\ b_dirt (B bp s') = true /\ forall i, i <> bp -> B i s' = B i s)
  | None => alloc_bit mp map_bits bit_blocks origin s = Done NO_BIT s /\ forall y, 0 <= y < map_bits -> map_bit s mp y = true
  end.
Proof.
  intros G Hm Hmb Ho. pose proof (alloc_bit_ok mp map_bits bit_blocks origin s (fun a s' => (a, s') =
    (default NO_BIT (clear_bits s mp (search_order map_bits origin)),
     match clear_bits s mp (search_order map_bits origin) with Some x => set_bit mp x s | None => s end)) G Hm Hmb Ho eq_refl) as Hrun.
  apply wp_run in Hrun as (a & s' & -> & Ea). injection Ea as -> ->.
  destruct (clear_bits s mp (search_order map_bits origin)) as [x|] eqn:E; cbn [default].
  - apply clear_bits_some in E as (Hx & Hfree); [|lia]. exists (set_bit mp x s). split_and!; try done; try lia.
    + unfold set_bit. apply (change_word_good _ _ _ _ _ G). lia.
    + intros y Hy. apply (map_bit_set mp bit_blocks); (done || lia).
    + destruct (gm_ptr _ _ _ G (x / 8192)) as (bp & Ep & Hbp & _); [apply block_of; lia|].
      destruct (change_word_bufs (fun k => Z.lor k (Z.shiftl 1 (x mod 16))) mp x s bp Ep Hbp) as (_ & Hne & _ & Hd). by exists bp.
  - split; [done|]. apply clear_bits_none with (origin := origin); [lia|done].
Qed.

(** ** Zones *)
Record zone_map s (dev : Z) (sp : nat) : Prop := {
  zm_super : super_of_dev s dev = Some sp;
  zm_good : good_map (s_zmap (SB sp s)) (s_zmap_blocks (SB sp s)) s;
  zm_zones : 1 <= s_firstdatazone (SB sp s) <= s_nzones (SB sp s) /\ s_nzones (SB sp s) <= 65535;
  zm_fits : s_nzones (SB sp s) - s_firstdatazone (SB sp s) + 1 <= 8192 * s_zmap_blocks (SB sp s);
}.
(** Bit 0 of the map stands for no zone; it is set when the map is loaded. *)
Definition zone_busy s (sp : nat) (z : Z) : bool := map_bit s (s_zmap (SB sp s)) (z - (s_firstdatazone (SB sp s) - 1)).

Lemma change_word_supers g mp x s : supers (change_word g mp x s) = supers s.
Proof. unfold change_word. by destruct (mp !! _) as [[bp|]|]. Qed.

Lemma alloc_zone_ok dev z sp s (Q : Z -> fst_ X -> Prop) : zone_map s dev sp -> zone_busy s sp (s_firstdatazone (SB sp s) - 1) = true ->
  (forall zone x, zone = s_firstdatazone (SB sp s) - 1 + x -> s_firstdatazone (SB sp s) <= zone < s_nzones (SB sp s) ->
    zone_busy s sp zone = false -> Q zone (set_bit (s_zmap (SB sp s)) x s)) ->
  ((forall zone, s_firstdatazone (SB sp s) <= zone < s_nzones (SB sp s) -> zone_busy s sp zone = true) -> Q NO_ZONE (s <| err_code := ENOSPC |>)) ->
  wp (alloc_zone dev z) Q s.
Proof.
  intros [Hsp G Hz Hfit] H0 HQ Hfull. unfold zone_busy in *. set (v := SB sp s) in *. set (first := s_firstdatazone v) in *.
  replace (first - 1 - (first - 1)) with 0 in H0 by lia.
  unfold alloc_zone, get_super. wp_steps. rewrite Hsp. wp_steps. fold v. fold first. rewrite (u16_id (s_nzones v - first + 1)) by lia.
  apply alloc_bit_ok; [done|lia|lia|unfold u16; pose proof (Z.mod_pos_bound (z - (first - 1)) (2 ^ 16)); lia|].
  destruct (clear_bits s (s_zmap v) _) as [x|] eqn:E; cbn [default]; cbv beta; unfold id.
  - apply clear_bits_some in E as (Hx & Hfree); [|split; [lia|apply Z.mod_pos_bound; lia]].
    assert (x <> 0) by (intros ->; congruence). unfold NO_BIT. rewrite (proj2 (Z.eqb_neq x 0)) by done.
    rewrite u16_id by lia. apply wp_ret, HQ; [done|lia|]. by replace (first - 1 + x - (first - 1)) with x by lia.
  - cbn. unfold set_err. wp_steps. apply Hfull. intros zone Hzone. refine (clear_bits_none s (s_zmap v) _ _ _ E _ _); [split; [lia|apply Z.mod_pos_bound; lia]|lia].
Qed.

(** C26. A zone that [alloc_zone] hands out is a data zone that was free and
    is busy from then on, the others keeping their state; [free_zone] gives
    back the map as it was. When every zone is busy [alloc_zone] returns
    [NO_ZONE] and sets [err_code] to [ENOSPC], whatever the hint [z]. *)
Theorem zone_round_trip dev z sp s : zone_map s dev sp -> zone_busy s sp (s_firstdatazone (SB sp s) - 1) = true ->
  let data_zone zone := s_firstdatazone (SB sp s) <= zone < s_nzones (SB sp s) in
  (exists zone s' s'', alloc_zone dev z s = Done zone s' /\ data_zone zone /\ zone_busy s sp zone = false /\ zone_map s' dev sp /\
      (forall y, data_zone y -> zone_busy s' sp y = (y =? zone) || zone_busy s sp y) /\
      free_zone dev zone s' = Done tt s'' /\ zone_map s'' dev sp /\ (forall y, data_zone y -> zone_busy s'' sp y = zone_busy s sp y)) \/
  (alloc_zone dev z s = Done NO_ZONE (s <| err_code := ENOSPC |>) /\ forall y, data_zone y -> zone_busy s sp y = true).
Proof.
  intros R H0 data_zone. pose proof (alloc_zone_ok dev z sp s (fun zone s' =>
    (exists x, zone = s_firstdatazone (SB sp s) - 1 + x /\ data_zone zone /\ zone_busy s sp zone = false /\ s' = set_bit (s_zmap (SB sp s)) x s) \/
    (zone = NO_ZONE /\ s' = s <| err_code := ENOSPC |> /\ forall y, data_zone y -> zone_busy s sp y = true)) R H0) as Hrun.
  apply wp_run in Hrun as (zone & s' & E & Hc); [|intros zone x -> Hz Hb; left; by exists x|intros Hall; right; done].
  destruct Hc as [(x & -> & Hz & Hb & ->)|(-> & -> & Hall)]; [left|by right].
  destruct R as [Hsp G Hzones Hfit]. set (v := SB sp s) in *. set (first := s_firstdatazone v) in *.
  set (s' := set_bit (s_zmap v) x s) in *. set (s'' := clear_bit (s_zmap v) x s'). unfold data_zone in Hz.
  assert (Hx : 0 <= x < 8192 * s_zmap_blocks v) by lia.
  assert (Es : supers s' = supers s) by (unfold s', set_bit; by rewrite change_word_supers).
  assert (Es' : supers s'' = supers s) by (unfold s'', clear_bit; by rewrite change_word_supers).
  assert (Ev : SB sp s' = v) by (unfold SB; by rewrite Es). assert (Ev' : SB sp s'' = v) by (unfold SB; by rewrite Es').
  assert (G' : good_map (s_zmap v) (s_zmap_blocks v) s') by (unfold s', set_bit; apply (change_word_good _ _ _ _ _ G); done).
  assert (G'' : good_map (s_zmap v) (s_zmap_blocks v) s'') by (unfold s'', clear_bit; apply (change_word_good _ _ _ _ _ G'); done).
  assert (Hsp' : super_of_dev s' dev = Some sp) by (rewrite <- Hsp; unfold super_of_dev, SB; by rewrite Es).
  assert (Hbit : forall y, data_zone y -> zone_busy s' sp y = (y =? first - 1 + x) || zone_busy s sp y).
  { intros y Hy. unfold zone_busy. rewrite Ev. fold v. unfold s', data_zone in *. rewrite (map_bit_set _ _ _ _ _ G) by (fold first; lia).
    f_equal. fold first. apply eq_bool_prop_intro. rewrite !Is_true_true, !Z.eqb_eq. lia. }
  exists (first - 1 + x), s', s''. split_and!; [done|done|done|by split; rewrite ?Ev|done| |split; rewrite ?Ev'; try done|].
  - assert (Hw : wp (free_zone dev (first - 1 + x)) (fun _ t => t = s'') s').
    { unfold free_zone, NO_ZONE. rewrite (proj2 (Z.eqb_neq _ 0)) by lia. unfold get_super. wp_steps. rewrite Hsp'. wp_steps.
      rewrite Ev. fold first. replace (u16 (first - 1 + x - (first - 1))) with x by (rewrite u16_id; lia). apply free_bit_ok; [lia|done]. }
    apply wp_run in Hw as ([] & t & -> & ->). done.
  - rewrite <- Hsp. unfold super_of_dev, SB. by rewrite Es'.
  - intros y Hy. specialize (Hbit y Hy). unfold zone_busy in *. rewrite Ev'. rewrite Ev in Hbit. fold v in Hbit |- *. fold first in Hbit |- *.
    unfold s'', data_zone in *. rewrite (map_bit_clear _ _ _ _ _ G') by lia. rewrite Hbit.
    destruct (Z.eqb_spec (y - (first - 1)) x) as [Ey|Ey]; cbn [negb andb].
    + rewrite Ey. unfold zone_busy in Hb. fold v first in Hb. replace (first - 1 + x - (first - 1)) with x in Hb by lia. by rewrite Hb.
    + rewrite (proj2 (Z.eqb_neq y _)) by lia. done.
Qed.
End maps.

(** ** A map of one block with its first three bits set *)
Definition map_super : super_block :=
  mk_super 15 21 1 1 2 0 1000000 4983 (replicate 8 None) (<[0%nat := Some 0%nat]> (replicate 8 None)) 256 None None 0 0 false.
Definition map_state : fst_ store := demo_state <| bufs ::= alter (fun f => f <| b_data := put_word zero_data 0 7 |>) 0%nat |>
  <| supers ::= alter (fun _ => map_super) 0%nat |>.
Lemma map_state_good : good_map [Some 0%nat] 1 map_state.
Proof.
  split; [lia| |].
  - intros b Hb. exists 0%nat. assert (b = 0) as -> by lia. split_and!; [done|vm_compute; lia|].
    apply put_word_ok. split; [done|]. by apply Forall_replicate.
  - intros b b' bp Hb Hb'. lia.
Qed.
Lemma alloc_bit_correct_witness :
  good_map [Some 0%nat] 1 map_state /\ clear_bits map_state [Some 0%nat] (search_order 20 17) = Some 16 /\
  exists s', alloc_bit [Some 0%nat] 20 1 17 map_state = Done 16 s' /\ map_bit map_state [Some 0%nat] 16 = false.
Proof.
  assert (E : clear_bits map_state [Some 0%nat] (search_order 20 17) = Some 16) by (vm_compute; reflexivity).
  split; [exact map_state_good|split; [exact E|]].
  pose proof (alloc_bit_correct [Some 0%nat] 20 1 17 map_state map_state_good ltac:(lia) ltac:(lia) ltac:(lia)) as Hw.
  rewrite E in Hw. destruct Hw as (s' & E1 & _ & E2 & _). exists s'. split; [exact E1|exact E2].
Defined.
Lemma map_state_zones : zone_map map_state 256 0.
Proof.
  split; [by vm_compute| |vm_compute; intuition congruence|vm_compute; congruence].
  split; [vm_compute; intuition congruence| |].
  - intros b Hb. exists 0%nat. change (s_zmap_blocks (SB 0 map_state)) with 1 in Hb. assert (b = 0) as -> by lia.
    split_and!; [done|vm_compute; lia|]. apply put_word_ok. split; [done|]. by apply Forall_replicate.
  - intros b b' bp Hb Hb'. change (s_zmap_blocks (SB 0 map_state)) with 1 in *. lia.
Qed.
Lemma zone_round_trip_witness :
  zone_map map_state 256 0 /\ exists zone s' s'', alloc_zone 256 2 map_state = Done zone s' /\ free_zone 256 zone s' = Done tt s''.
Proof.
  split; [exact map_state_zones|].
  assert (Hb : zone_busy map_state 0 (s_firstdatazone (SB 0 map_state) - 1) = true) by (vm_compute; reflexivity).
  destruct (zone_round_trip 256 2 0 map_state map_state_zones Hb) as [(zone & s' & s'' & E & _ & _ & _ & _ & E' & _)|[E _]].
  - exists zone, s', s''. split; [exact E|exact E'].
  - exfalso. vm_compute in E. discriminate E.
Defined.
