(* ===== verification/FsMap.v ===== *)
(** * From file positions to blocks: [read_map] and [rahead] of
    [src/fs/read.c], [write.c], [truncate] of [link.c], [wipe_inode] of
    [inode.c]

    Zone numbers and block numbers are 16 bits wide; positions are 32-bit
    numbers. An index outside an inode's zones or an indirect block ends in
    [Panicked]. The loops' bounds are worked out from what they count. *)

From S2P Require Import Prelude KProc FsState FsDev FsCache FsSuper.

Definition S_IFMT : Z := 61440.
Definition TO_USER : Z := 0.
Definition FROM_USER : Z := 1.

Section map.
Context {X : Type} `{!World X} `{!Layout}.
Notation FS := (M (fst_ X)).

Definition zone_in (l : list Z) (i : Z) : FS Z :=
  if (0 <=? i) && (i <? Z.of_nat (length l)) then mret (l !!! Z.to_nat i) else panic "i_zone".
Definition ind_in (d : list Z) (i : Z) : FS Z :=
  if (0 <=? i) && (i <? NR_INDIRECTS) then mret (word_at d (Z.to_nat i)) else panic "b_ind".

Definition put_ind (bp : nat) (i : Z) (z : Z) : FS unit :=
  upd_buf bp (fun f => f <| b_data := put_word (b_data f) (Z.to_nat i) z |>).
Definition put_zone (rip : nat) (i : Z) (z : Z) : FS unit :=
  upd_ino rip (fun r => r <| i_zone ::= <[Z.to_nat i := z]> |>).

Definition zero_block (bp : nat) : FS unit :=
  upd_buf bp (fun f => f <| b_data := zero_data |>);;
  dirty_buf bp.

(** ** [read_map] *)

(** Entry [i] of the indirect block that is zone [z]. *)
Definition read_ind (dev z scale i : Z) : FS Z :=
  bp ← get_block dev (u16 (Z.shiftl z scale)) NORMAL;
  d ← gets (fun s => b_data (B bp s));
  z ← ind_in d i;
  put_block (Some bp) INDIRECT_BLOCK;;
  mret z.

Definition read_map (rip : nat) (position : Z) : FS Z :=
  scale ← scale_factor rip;
  let block_pos := Z.quot position BLOCK_SIZE in
  let zone := Z.shiftr block_pos scale in
  let boff := s16 (block_pos - Z.shiftl zone scale) in
  r ← gets (INO rip);
  if zone <? NR_DZONE_NUM then
    z ← zone_in (i_zone r) zone;
    mret (if z =? NO_ZONE then NO_BLOCK else u16 (Z.shiftl z scale + boff))
  else
    let excess := zone - NR_DZONE_NUM in
    ze ← (if excess <? NR_INDIRECTS then mret (Some (i_zone r !!! Z.to_nat NR_DZONE_NUM, excess)) else
          let z := i_zone r !!! Z.to_nat (NR_DZONE_NUM + 1) in
          if z =? NO_ZONE then mret None else
          let excess := excess - NR_INDIRECTS in
          z ← read_ind (i_dev r) z scale (s16 (excess / NR_INDIRECTS));
          mret (Some (z, excess mod NR_INDIRECTS)));
    match ze with
    | None => mret NO_BLOCK
    | Some (z, excess) =>
        if z =? NO_ZONE then mret NO_BLOCK else
        z ← read_ind (i_dev r) z scale excess;
        mret (if z =? NO_ZONE then NO_BLOCK else u16 (Z.shiftl z scale + boff))
    end.

(** ** [write_map] *)

(** The new zone goes into the indirect block that is zone [z]. *)
Definition write_ind (rip : nat) (z scale : Z) (new_ind : bool) (excess new_zone : Z) : FS Z :=
  dev ← gets (fun s => i_dev (INO rip s));
  bp ← get_block dev (u16 (Z.shiftl z scale)) (if new_ind then NO_READ else NORMAL);
  when new_ind (zero_block bp);;
  put_ind bp excess new_zone;;
  upd_ino rip (fun r => r <| i_update := MTIME |>);;
  dirty_buf bp;;
  put_block (Some bp) INDIRECT_BLOCK;;
  mret OK.

Definition write_map (rip : nat) (position new_zone : Z) : FS Z :=
  dirty_ino rip;;
  scale ← scale_factor rip;
  let zone := Z.shiftr (Z.quot position BLOCK_SIZE) scale in
  r ← gets (INO rip);
  if zone <? NR_DZONE_NUM then
    zone_in (i_zone r) zone;;
    put_zone rip zone new_zone;;
    upd_ino rip (fun r => r <| i_update := MTIME |>);;
    mret OK
  else
    let excess := zone - NR_DZONE_NUM in
    if excess <? NR_INDIRECTS then
      let z := i_zone r !!! Z.to_nat NR_DZONE_NUM in
      if negb (z =? NO_ZONE) then write_ind rip z scale false excess new_zone else
      z ← alloc_zone (i_dev r) (i_zone r !!! 0%nat);
      put_zone rip NR_DZONE_NUM z;;
      if z =? NO_ZONE then gets err_code else
      write_ind rip z scale true excess new_zone
    else
      let z := i_zone r !!! Z.to_nat (NR_DZONE_NUM + 1) in
      let new_dbl := z =? NO_ZONE in
      z ← (if new_dbl then alloc_zone (i_dev r) (i_zone r !!! 0%nat) else mret z);
      if z =? NO_ZONE then gets err_code else
      when new_dbl (put_zone rip (NR_DZONE_NUM + 1) z);;
      let excess := excess - NR_INDIRECTS in
      let index := s16 (excess / NR_INDIRECTS) in
      let excess := excess mod NR_INDIRECTS in
      if NR_INDIRECTS <=? u16 index then mret EFBIG else
      bp ← get_block (i_dev r) (u16 (Z.shiftl z scale)) (if new_dbl then NO_READ else NORMAL);
      when new_dbl (zero_block bp);;
      d ← gets (fun s => b_data (B bp s));
      let z := word_at d (Z.to_nat index) in
      if negb (z =? NO_ZONE) then
        put_block (Some bp) INDIRECT_BLOCK;;
        write_ind rip z scale false excess new_zone
      else
        z ← alloc_zone (i_dev r) (i_zone r !!! 0%nat);
        put_ind bp index z;;
        dirty_buf bp;;
        put_block (Some bp) INDIRECT_BLOCK;;
        if z =? NO_ZONE then gets err_code else
        write_ind rip z scale true excess new_zone.

(** ** [clear_zone] and [new_block] *)
Fixpoint clear_blocks (fuel : nat) (dev b bhi : Z) : FS unit :=
  match fuel with
  | O => nofuel
  | S fuel' =>
      if bhi <? b then mret tt else
      bp ← get_block dev b NO_READ;
      zero_block bp;;
      put_block (Some bp) FULL_DATA_BLOCK;;
      clear_blocks fuel' dev (u16 (b + 1)) bhi
  end.

Definition clear_zone (rip : nat) (pos flag : Z) : FS unit :=
  scale ← scale_factor rip;
  if scale =? 0 then mret tt else
  let zone_size := s32 (Z.shiftl BLOCK_SIZE scale) in
  let pos := if flag =? 1 then Z.quot pos zone_size * zone_size else pos in
  let next := s32 (pos + BLOCK_SIZE - 1) in
  if negb (Z.quot next zone_size =? Z.quot pos zone_size) then mret tt else
  blo ← read_map rip next;
  if blo =? NO_BLOCK then mret tt else
  let bhi := u16 (Z.shiftl (Z.shiftr blo scale + 1) scale - 1) in
  dev ← gets (fun s => i_dev (INO rip s));
  clear_blocks (S (S (Z.to_nat (bhi - blo)))) dev blo bhi.

Definition new_block (rip : nat) (position : Z) : FS (option nat) :=
  b ← read_map rip position;
  ob ← (if negb (b =? NO_BLOCK) then mret (Some b) else
        r ← gets (INO rip);
        z ← (if i_size r =? 0 then
               sp ← get_super (i_dev r);
               gets (fun s => s_firstdatazone (SB sp s))
             else mret (i_zone r !!! 0%nat));
        z ← alloc_zone (i_dev r) z;
        if z =? NO_ZONE then mret None else
        e ← write_map rip position z;
        if negb (e =? OK) then
          free_zone (i_dev r) z;;
          set_err e;;
          mret None
        else
          size ← gets (fun s => i_size (INO rip s));
          when (negb (position =? size)) (clear_zone rip position 1);;
          scale ← scale_factor rip;
          let zone_size := s32 (Z.shiftl BLOCK_SIZE scale) in
          mret (Some (u16 (Z.shiftl z scale + Z.quot (Z.rem position zone_size) BLOCK_SIZE))));
  match ob with
  | None => mret None
  | Some b =>
      dev ← gets (fun s => i_dev (INO rip s));
      bp ← get_block dev b NO_READ;
      zero_block bp;;
      mret (Some bp)
  end.

(** ** [wipe_inode] and [truncate] *)
Definition wipe_inode (rip : nat) : FS unit :=
  upd_ino rip (fun r => r <| i_size := 0 |> <| i_update := MTIME |> <| i_dirt := true |> <| i_zone := replicate NR_ZONE_NUMS NO_ZONE |>).

Fixpoint free_data (fuel : nat) (rip : nat) (dev scale position zone_size : Z) : FS unit :=
  match fuel with
  | O => nofuel
  | S fuel' =>
      size ← gets (fun s => i_size (INO rip s));
      if size <=? position then mret tt else
      b ← read_map rip position;
      when (negb (b =? NO_BLOCK)) (free_zone dev (Z.shiftr b scale));;
      free_data fuel' rip dev scale (s32 (position + zone_size)) zone_size
  end.

Fixpoint free_zones (dev : Z) (bp : nat) (i n : nat) : FS unit :=
  match n with
  | O => mret tt
  | S n' =>
      z ← gets (fun s => word_at (b_data (B bp s)) i);
      free_zone dev z;;
      free_zones dev bp (S i) n'
  end.

Definition truncate (rip : nat) : FS unit :=
  r ← gets (INO rip);
  let file_type := Z.land (i_mode r) S_IFMT in
  if (file_type =? I_CHAR_SPECIAL) || (file_type =? I_BLOCK_SPECIAL) then mret tt else
  let dev := i_dev r in
  scale ← scale_factor rip;
  let zone_size := s32 (Z.shiftl BLOCK_SIZE scale) in
  let waspipe := i_pipe r in
  when waspipe (upd_ino rip (fun r => r <| i_size := PIPE_SIZE |>));;
  size ← gets (fun s => i_size (INO rip s));
  free_data (S (S (Z.to_nat (size / zone_size)))) rip dev scale 0 zone_size;;
  z ← gets (fun s => i_zone (INO rip s) !!! Z.to_nat NR_DZONE_NUM);
  free_zone dev z;;
  z ← gets (fun s => i_zone (INO rip s) !!! Z.to_nat (NR_DZONE_NUM + 1));
  when (negb (z =? NO_ZONE))
    (bp ← get_block dev (u16 (Z.shiftl z scale)) NORMAL;
     free_zones dev bp 0 (Z.to_nat NR_INDIRECTS);;
     put_block (Some bp) INDIRECT_BLOCK;;
     free_zone dev z);;
  when waspipe (wipe_inode rip);;
  dirty_ino rip.

(** ** [rahead] and [read_ahead] *)

(** What stays fixed while [rahead] queues blocks. *)
Record ahead := mk_ahead {
  ah_rip : nat;
  ah_spec : bool;
  ah_dev : Z;
  ah_size : Z;
  ah_limit : Z;
  ah_track : Z;
  ah_whole : bool;
}.

Fixpoint queue_ahead (fuel : nat) (h : ahead) (position blocks_ahead max_track : Z) (reading_ahead : bool) (q : list nat) : FS (list nat) :=
  match fuel with
  | O => nofuel
  | S fuel' =>
      n ← gets bufs_in_use;
      if (ah_size h <=? position) || (ah_limit h <=? n) then mret q else
      seek ← gets (fun s => i_seek (INO (ah_rip h) s));
      let over := blocks_ahead =? 0 in
      if over && (reading_ahead || seek || negb (ah_whole h)) then mret q else
      let blocks_ahead := if over then ah_track h + 6 else blocks_ahead - 1 in
      let reading_ahead := over || reading_ahead in
      block ← (if ah_spec h then mret (u16 (Z.quot position BLOCK_SIZE)) else read_map (ah_rip h) position);
      let position := s32 (position + BLOCK_SIZE) in
      let track := block / ah_track h in
      if reading_ahead && negb (track =? max_track) then
        queue_ahead fuel' h position blocks_ahead max_track reading_ahead q
      else
        let max_track := if reading_ahead then max_track else Z.max track max_track in
        q ← (if ah_spec h || negb (block =? NO_BLOCK) then
               bp ← get_block (ah_dev h) block PREFETCH;
               dev ← gets (fun s => b_dev (B bp s));
               if dev =? NO_DEV then mret (q ++ [bp]) else
               put_block (Some bp) FULL_DATA_BLOCK;;
               mret q
             else mret q);
        queue_ahead fuel' h position blocks_ahead max_track reading_ahead q
  end.

(** The sizes of the floppies: 80 tracks, 2 sides, 15 or 18 sectors. A size of
    0 (a hard disk) gets 17 blocks per track and then, like every size below
    the first, 9. *)
Definition track_size (dev_size : Z) : Z :=
  if dev_size <? 80 * 2 * 15 * 512 then 9 else if dev_size <? 80 * 2 * 18 * 512 then 15 else 18.

Definition rahead (rip : nat) (baseblock position bytes_ahead : Z) : FS nat :=
  r ← gets (INO rip);
  let block_spec := Z.land (i_mode r) I_TYPE =? I_BLOCK_SPECIAL in
  let dev := if block_spec then i_zone r !!! 0%nat else i_dev r in
  bp ← get_block dev baseblock PREFETCH;
  b ← gets (B bp);
  if negb (b_dev b =? NO_DEV) then mret bp else
  let blocks_per_track := track_size (if block_spec then i_size r else 80 * 2 * 15 * 512) in
  let file_size := if block_spec && (i_size r =? 0) then MAX_P_LONG else i_size r in
  let fragment := u16 (Z.rem position BLOCK_SIZE) in
  let position := s32 (position - fragment + BLOCK_SIZE) in
  let blocks_ahead := u16 (u16 (fragment + bytes_ahead + BLOCK_SIZE - 1) / BLOCK_SIZE - 1) in
  let h := mk_ahead rip block_spec dev file_size (Z.of_nat NR_BUFS - (if block_spec then 0 else 2)) blocks_per_track
             (u16 (fragment + bytes_ahead) mod BLOCK_SIZE =? 0) in
  read_q ← queue_ahead (S (S (Z.to_nat (blocks_ahead + blocks_per_track + 6)))) h position blocks_ahead
             (b_blocknr b / blocks_per_track) false [bp];
  rw_scattered dev read_q READING;;
  get_block dev baseblock NORMAL.

Definition read_ahead : FS unit :=
  o ← gets rdahed_inode;
  rip ← deref o;
  modify (fun s => s <| rdahed_inode := None |>);;
  pos ← gets rdahedpos;
  b ← read_map rip pos;
  if b =? NO_BLOCK then mret tt else
  bp ← rahead rip b pos BLOCK_SIZE;
  put_block (Some bp) PARTIAL_DATA_BLOCK.
End map.
