(* ===== verification/FsInode.v ===== *)
(** * The inode table: [src/fs/inode.c]

    [copy]ing an inode to and from its 32 bytes on the disk is [inode_bytes]
    and [inode_of]: the fields after [i_zone] are not on the disk. *)

From S2P Require Import Prelude KProc FsState FsDev FsCache FsSuper FsMap.

(** ** [d_inode] *)
Definition inode_bytes (r : inode) : list Z :=
  half_bytes (i_mode r) ++ half_bytes (i_uid r) ++ long_bytes (i_size r) ++ long_bytes (i_mtime r) ++
  [u8 (i_gid r); u8 (i_nlinks r)] ++ concat (half_bytes <$> i_zone r).
Definition inode_of (b : list Z) (r : inode) : inode :=
  r <| i_mode := half_at b 0 |> <| i_uid := half_at b 2 |> <| i_size := s32 (long_at b 4) |>
    <| i_mtime := s32 (long_at b 8) |> <| i_gid := b !!! 12%nat |> <| i_nlinks := b !!! 13%nat |>
    <| i_zone := (fun i => half_at b (14 + 2 * i)) <$> seq 0 NR_ZONE_NUMS |>.

(** What [get_inode] looks for: the first slot in use for (dev, numb), or the
    last free one. *)
Definition inode_slot (l : list inode) (dev numb : Z) : option nat :=
  find (fun i => (0 <? i_count (l !!! i)) && (i_dev (l !!! i) =? dev) && (i_num (l !!! i) =? numb)) (seq 0 (length l)).
Definition free_slot (l : list inode) : option nat :=
  last (filter (fun i => i_count (l !!! i) <= 0) (seq 0 (length l))).

Section inode.
Context {X : Type} `{!World X} `{!Layout}.
Notation FS := (M (fst_ X)).

Definition update_times (rip : nat) : FS unit :=
  cur_time ← clock_time;
  u ← gets (fun s => i_update (INO rip s));
  when (tst u ATIME) (upd_ino rip (fun r => r <| i_atime := cur_time |>));;
  when (tst u CTIME) (upd_ino rip (fun r => r <| i_ctime := cur_time |>));;
  when (tst u MTIME) (upd_ino rip (fun r => r <| i_mtime := cur_time |>));;
  upd_ino rip (fun r => r <| i_update := 0 |>).

Definition rw_inode (rip : nat) (rw_flag : Z) : FS unit :=
  r ← gets (INO rip);
  sp ← get_super (i_dev r);
  v ← gets (SB sp);
  let b := u16 (u16 (i_num r - 1) / INODES_PER_BLOCK + s_imap_blocks v + s_zmap_blocks v + 2) in
  bp ← get_block (i_dev r) b NORMAL;
  let off := Z.to_nat (INODE_SIZE * (u16 (i_num r - 1) mod INODES_PER_BLOCK)) in
  (if rw_flag =? READING then
     d ← gets (fun s => b_data (B bp s));
     upd_ino rip (inode_of (bytes_at d off (Z.to_nat INODE_SIZE)))
   else
     when (nz (i_update r)) (update_times rip);;
     r ← gets (INO rip);
     upd_buf bp (fun f => f <| b_data := put_bytes (b_data f) off (inode_bytes r) |>);;
     dirty_buf bp);;
  put_block (Some bp) INODE_BLOCK;;
  upd_ino rip (fun r => r <| i_dirt := false |>).

Definition get_inode (dev numb : Z) : FS (option nat) :=
  o ← gets (fun s => inode_slot (inodes s) dev numb);
  match o with
  | Some rip =>
      upd_ino rip (fun r => r <| i_count ::= fun c => s16 (c + 1) |>);;
      mret (Some rip)
  | None =>
      o ← gets (fun s => free_slot (inodes s));
      match o with
      | None => set_err ENFILE;; mret None
      | Some xp =>
          upd_ino xp (fun r => r <| i_dev := dev |> <| i_num := numb |> <| i_count := 1 |>);;
          when (negb (dev =? NO_DEV)) (rw_inode xp READING);;
          upd_ino xp (fun r => r <| i_update := 0 |>);;
          mret (Some xp)
      end
  end.

Definition free_inode (dev numb : Z) : FS unit :=
  sp ← get_super dev;
  m ← gets (fun s => s_imap (SB sp s));
  free_bit m numb.

Definition put_inode (rip : option nat) : FS unit :=
  match rip with
  | None => mret tt
  | Some rip =>
      upd_ino rip (fun r => r <| i_count ::= fun c => s16 (c - 1) |>);;
      r ← gets (INO rip);
      when (i_count r =? 0)
        ((if Z.land (i_nlinks r) BYTE =? 0 then
            truncate rip;;
            upd_ino rip (fun r => r <| i_mode := 0 |>);;
            r ← gets (INO rip);
            free_inode (i_dev r) (i_num r)
          else when (i_pipe r) (truncate rip));;
         upd_ino rip (fun r => r <| i_pipe := false |>);;
         d ← gets (fun s => i_dirt (INO rip s));
         when d (rw_inode rip WRITING))
  end.

Definition dup_inode (ip : nat) : FS unit := upd_ino ip (fun r => r <| i_count ::= fun c => s16 (c + 1) |>).

Definition alloc_inode (dev bits : Z) : FS (option nat) :=
  sp ← get_super dev;
  v ← gets (SB sp);
  b ← alloc_bit (s_imap v) (u16 (s_ninodes v + 1)) (s_imap_blocks v) 0;
  if b =? NO_BIT then
    set_err ENFILE;;
    mret None
  else
    o ← get_inode NO_DEV b;
    match o with
    | None =>
        free_bit (s_imap v) b;;
        mret None
    | Some rip =>
        p ← gets (fun s => FP (fp s) s);
        upd_ino rip (fun r => r <| i_mode := bits |> <| i_nlinks := 0 |> <| i_uid := fp_effuid p |>
                                <| i_gid := fp_effgid p |> <| i_dev := dev |>);;
        wipe_inode rip;;
        mret (Some rip)
    end.
End inode.
