(* ===== verification/FsInodeOk.v ===== *)
(** * Inodes on the disk

    An inode that [rw_inode] writes is read back, through the block cache, as
    it was, and no other inode of the device nor any other block changes. *)

From S2P Require Import Prelude KProc FsState FsDev FsCache FsSort FsDisk FsCacheOk FsBlocks FsDemo FsCacheSpec FsSuper FsBits FsMap FsInode.

(** ** The 32 bytes *)
Lemma half_join v : Z.lor (Z.shiftl (u8 (Z.shiftr v 8)) 8) (u8 v) = u16 v.
Proof.
  apply Z.bits_inj'. intros i Hi. rewrite testbit_word, u16_bits by (done || apply u8_range). destruct (Z.ltb_spec i 8).
  - rewrite u8_bits, (proj2 (Z.ltb_lt i 8)), (proj2 (Z.ltb_lt i 16)) by lia. done.
  - rewrite u8_bits, Z.shiftr_spec by lia. replace (i - 8 + 8) with i by lia. destruct (Z.ltb_spec (i - 8) 8), (Z.ltb_spec i 16); try done; lia.
Qed.
Lemma long_join v : s32 (Z.lor (Z.shiftl (u16 (Z.shiftr v 16)) 16) (u16 v)) = s32 v.
Proof.
  assert (E : Z.lor (Z.shiftl (u16 (Z.shiftr v 16)) 16) (u16 v) = v mod 2 ^ 32).
  { apply Z.bits_inj'. intros i Hi. rewrite Z.lor_spec, Z.shiftl_spec, (u16_bits v i) by done.
    destruct (Z.ltb_spec i 16).
    - rewrite (Z.testbit_neg_r _ (i - 16)), Z.mod_pow2_bits_low by lia. done.
    - rewrite u16_bits, Z.shiftr_spec by lia. replace (i - 16 + 16) with i by lia. destruct (Z.ltb_spec (i - 16) 16).
      + rewrite Z.mod_pow2_bits_low by lia. by rewrite orb_false_r.
      + by rewrite Z.mod_pow2_bits_high by lia. }
  rewrite E. unfold s32, sx. by rewrite Z.mod_mod.
Qed.

(** What the types of the fields allow. *)
Record inode_typed (r : inode) : Prop := {
  it_mode : 0 <= i_mode r < 2 ^ 16;
  it_uid : 0 <= i_uid r < 2 ^ 16;
  it_size : - 2 ^ 31 <= i_size r < 2 ^ 31;
  it_mtime : - 2 ^ 31 <= i_mtime r < 2 ^ 31;
  it_gid : 0 <= i_gid r < 2 ^ 8;
  it_nlinks : 0 <= i_nlinks r < 2 ^ 8;
  it_zones : length (i_zone r) = NR_ZONE_NUMS /\ Forall (fun z => 0 <= z < 2 ^ 16) (i_zone r);
}.
Definition disk_part (r : inode) : Z * Z * Z * Z * Z * Z * list Z :=
  (i_mode r, i_uid r, i_size r, i_mtime r, i_gid r, i_nlinks r, i_zone r).

Lemma inode_bytes_len r : length (i_zone r) = NR_ZONE_NUMS -> length (inode_bytes r) = 32%nat.
Proof.
  intros Hz. unfold inode_bytes. rewrite !length_app.
  assert (E : forall l : list Z, length (concat (half_bytes <$> l)) = (2 * length l)%nat).
  { induction l as [|x l IH]; [done|]. cbn [fmap list_fmap concat]. rewrite length_app, IH. cbn. lia. }
  rewrite E, Hz. done.
Qed.
Lemma inode_of_part b r : disk_part (inode_of b r) =
  (half_at b 0, half_at b 2, s32 (long_at b 4), s32 (long_at b 8), b !!! 12%nat, b !!! 13%nat, (fun i => half_at b (14 + 2 * i)) <$> seq 0 NR_ZONE_NUMS).
Proof. done. Qed.
Lemma inode_bytes_of r r' : inode_typed r -> disk_part (inode_of (inode_bytes r) r') = disk_part r.
Proof.
  intros [H1 H2 H3 H4 H5 H6 [H7 H8]]. destruct r as [mode uid size mtime gid nlinks zone]. cbn [i_mode i_uid i_size i_mtime i_gid i_nlinks i_zone] in *.
  destruct zone as [|z0 [|z1 [|z2 [|z3 [|z4 [|z5 [|z6 [|z7 [|z8 [|]]]]]]]]]]; try discriminate H7. rewrite !Forall_cons in H8.
  destruct H8 as (Z0 & Z1 & Z2 & Z3 & Z4 & Z5 & Z6 & Z7 & Z8 & _).
  rewrite inode_of_part. unfold disk_part, inode_bytes, long_at, half_at. cbn -[u8 Z.shiftr Z.shiftl Z.lor s32].
  rewrite !half_join, !long_join, !s32_id by done. unfold u8. rewrite !u16_id, !(Z.mod_small _ (2 ^ 8)) by done. done.
Qed.

(** ** Bytes of a block *)
Lemma put_get_bytes d off v : (off + length v <= length d)%nat -> bytes_at (put_bytes d off v) off (length v) = v.
Proof.
  intros Hl. unfold bytes_at, put_bytes. rewrite drop_app_length' by (rewrite length_take; lia). by apply take_app_length'.
Qed.
Lemma put_get_other d off v off' n : (off + length v <= length d)%nat -> (off' + n <= off \/ off + length v <= off')%nat ->
  bytes_at (put_bytes d off v) off' n = bytes_at d off' n.
Proof.
  intros Hl Hd. unfold bytes_at, put_bytes. apply list_eq. intros i. destruct (decide (i < n)%nat) as [Hi|Hi].
  2:{ rewrite !lookup_ge_None_2; [done|rewrite length_take; lia..]. }
  rewrite !lookup_take_lt, !lookup_drop by done. destruct Hd as [Hd|Hd].
  - rewrite lookup_app_l, lookup_take_lt by (rewrite ?length_take; lia). done.
  - rewrite lookup_app_r, length_take, lookup_app_r, lookup_drop by (rewrite ?length_take; lia). f_equal. lia.
Qed.

(** ** [rw_inode] on the contents of the disk *)
Definition inode_blk (v : super_block) (num : Z) : Z :=
  u16 (u16 (num - 1) / INODES_PER_BLOCK + s_imap_blocks v + s_zmap_blocks v + 2).
Definition inode_off (num : Z) : nat := Z.to_nat (INODE_SIZE * (u16 (num - 1) mod INODES_PER_BLOCK)).
(** The bytes of inode [num] of [dev]. *)
Definition disk_inode (f : Z -> Z -> list Z) (v : super_block) (dev num : Z) : list Z := bytes_at (f dev (inode_blk v num)) (inode_off num) 32.

Lemma inode_off_fits num : (inode_off num + 32 <= Z.to_nat BLOCK_SIZE)%nat.
Proof. unfold inode_off, INODE_SIZE, INODES_PER_BLOCK, BLOCK_SIZE. pose proof (Z.mod_pos_bound (u16 (num - 1)) 32 eq_refl). lia. Qed.
Lemma inode_blk_no v num : blockno (inode_blk v num).
Proof. unfold blockno, inode_blk, u16. apply Z.mod_pos_bound. lia. Qed.
(** Different inodes are in different blocks or at different offsets. *)
Lemma inode_places v n m : 1 <= n <= 65535 -> 1 <= m <= 65535 -> n <> m -> inode_blk v n = inode_blk v m ->
  (inode_off m + 32 <= inode_off n \/ inode_off n + 32 <= inode_off m)%nat.
Proof.
  intros Hn Hm Hne. unfold inode_blk, inode_off, INODE_SIZE, INODES_PER_BLOCK. rewrite (u16_id (n - 1)), (u16_id (m - 1)) by lia.
  set (c := s_imap_blocks v + s_zmap_blocks v + 2). rewrite <- !Z.add_assoc. rewrite !(Z.add_assoc (s_imap_blocks v)). fold c. unfold u16. change (2 ^ 16) with 65536. intros E.
  assert (Eq : (n - 1) / 32 = (m - 1) / 32) by (clear - Hn Hm E; zlia).
  clear - Hn Hm Hne Eq. assert ((n - 1) mod 32 <> (m - 1) mod 32) by zlia.
  pose proof (Z.mod_pos_bound (n - 1) 32 eq_refl). pose proof (Z.mod_pos_bound (m - 1) 32 eq_refl). lia.
Qed.

Section rw.
Context {X : Type} `{Disk X}.
Implicit Types s : fst_ X.
Notation FS := (M (fst_ X)).

(** Room for one more buffer in use, and one more use of each. *)
Definition roomy s : Prop := bufs_in_use s < Z.of_nat NR_BUFS /\ forall i, (i < NR_BUFS)%nat -> b_count (B i s) < 127.
Lemma roomy_room s dev blk : roomy s -> match cached s dev blk with Some i => b_count (B i s) < 127 | None => bufs_in_use s < Z.of_nat NR_BUFS end.
Proof. intros [Hu Hc]. destruct (cached s dev blk) as [i|] eqn:E; [apply cached_some in E as [Hi _]; by apply Hc|done]. Qed.
Lemma roomy_same U s s' : roomy s -> cache_ok [] s -> cache_ok U s' -> (forall i, b_count (B i s') = b_count (B i s)) -> roomy s'.
Proof.
  intros [Hu Hc] Hok Hok' E. split; [|intros i Hi; rewrite E; by apply Hc].
  rewrite (co_use _ _ Hok'), (count_ext s s') by done. by rewrite <- (co_use _ _ Hok).
Qed.
Lemma core_fields s s' : core s' = core s -> inodes s' = inodes s /\ supers s' = supers s.
Proof. intros E. split; [exact (f_equal inodes E)|exact (f_equal supers E)]. Qed.

Lemma wp_upd_fill bp h s (Q : unit -> fst_ X -> Prop) : wp (fill bp (h (b_data (B bp s)))) Q s ->
  wp (upd_buf bp (fun f => f <| b_data := h (b_data f) |>)) (fun _ s' => wp (dirty_buf bp) Q s') s.
Proof.
  assert (E : alter (fun f => f <| b_data := h (b_data (B bp s)) |>) bp (bufs s) = alter (fun f => f <| b_data := h (b_data f) |>) bp (bufs s)).
  { apply list_alter_ext; [|done]. intros f Hf. unfold B. by rewrite (list_lookup_total_correct _ _ _ Hf). }
  unfold fill, dirty_buf, upd_buf. intros HQ. apply wp_bind_inv in HQ. revert HQ. unfold wp, modify, set_field in *. cbn in *. by rewrite E.
Qed.

Lemma cache_ok_inodes U s l : cache_ok U s -> cache_ok U (s <| inodes := l |>).
Proof. intros [A1 A2 A3 A4 A5 A6 [D1 D2 D3 D4 D5]]. split; [exact A1|exact A2|exact A3|exact A4|exact A5|exact A6|by split]. Qed.

Lemma cache_ok_supers U s l : cache_ok U s -> cache_ok U (s <| supers := l |>).
Proof. intros [A1 A2 A3 A4 A5 A6 [D1 D2 D3 D4 D5]]. split; [exact A1|exact A2|exact A3|exact A4|exact A5|exact A6|by split]. Qed.
Lemma contents_inodes s l d b : contents (s <| inodes := l |>) d b = contents s d b.
Proof. unfold contents. rewrite (cached_ext s (s <| inodes := l |>)) by (intros; by split). by destruct (cached s d b). Qed.

Lemma contents_len U s d b : cache_ok U s -> length (contents s d b) = Z.to_nat BLOCK_SIZE.
Proof.
  intros Hok. unfold contents. destruct (cached s d b) as [i|] eqn:E; [|apply disk_size]. apply cached_some in E as [Hi _].
  by apply (da_size _ _ (co_data _ _ Hok)).
Qed.

Record inode_ready s (rip sp : nat) : Prop := {
  ir_cache : cache_ok [] s;
  ir_room : roomy s;
  ir_slot : (rip < length (inodes s))%nat;
  ir_dev : blockdev (i_dev (INO rip s));
  ir_super : super_of_dev s (i_dev (INO rip s)) = Some sp;
}.

Lemma write_inode_ok rip sp s (Q : unit -> fst_ X -> Prop) : inode_ready s rip sp -> i_update (INO rip s) = 0 ->
  let r := INO rip s in let blk := inode_blk (SB sp s) (i_num r) in length (i_zone r) = NR_ZONE_NUMS ->
  (forall s', cache_ok [] s' -> roomy s' -> inodes s' = alter (fun r => r <| i_dirt := false |>) rip (inodes s) -> supers s' = supers s ->
     (rdwt_err s' <> OK \/ (rdwt_err s' = rdwt_err s /\ forall d b, d <> NO_DEV -> contents s' d b =
        write_one (i_dev r) blk (put_bytes (contents s (i_dev r) blk) (inode_off (i_num r)) (inode_bytes r)) (contents s) d b)) -> Q tt s') ->
  wp (rw_inode rip WRITING) Q s.
Proof.
  intros [Hok Hroom Hrip Hdev Hsp] Hup r blk Hz HQ. assert (Hnd : i_dev r <> NO_DEV) by (unfold r in *; destruct Hdev; lia).
  unfold rw_inode, get_super. wp_steps. rewrite Hsp. wp_steps. fold r. change (u16 (u16 (i_num r - 1) / _ + _ + _ + 2)) with blk.
  change (Z.to_nat (INODE_SIZE * _)) with (inode_off (i_num r)).
  apply (get_block_ok []); [done|done|apply inode_blk_no|by left|by apply roomy_room|]. intros bp U' s1 G. wp_steps.
  assert (U' = []) as -> by (destruct (g_pin G) as [|[? _]]; done).
  destruct (core_fields _ _ (g_core G)) as [Ei1 Es1]. assert (Er : INO rip s1 = r) by (unfold INO; by rewrite Ei1).
  change (WRITING =? READING) with false. fold r in Hup. rewrite Hup. change (nz 0) with false. cbn [when]. wp_steps. rewrite Er.
  assert (Hsz : length (b_data (B bp s1)) = Z.to_nat BLOCK_SIZE) by (apply (da_size [] s1); [apply (g_ok G)|apply (g_bp G)]).
  apply (wp_upd_fill bp (fun d => put_bytes d (inode_off (i_num r)) (inode_bytes r))).
  apply (fill_buf_ok []); [apply (g_ok G)|apply (g_bp G)| |].
  { rewrite length_put_bytes; [done|]. rewrite inode_bytes_len, Hsz by done. apply inode_off_fits. }
  intros s2 Hok2 Hc2 Hd2 Hdat2 Hdv2 Hcnt2 _ Hcore2 Herr2. wp_steps.
  assert (Hus : used s2 bp).
  { unfold used. rewrite Hcnt2, (g_count G), decide_True by done. pose proof (co_count _ _ Hok bp (g_bp G)). lia. }
  apply (put_block_ok []); [done|apply (g_bp G)|done|set_solver|]. intros s3 R. unfold upd_ino. wp_steps.
  destruct (core_fields _ _ (p_core R)) as [Ei3 Es3]. destruct (core_fields _ _ Hcore2) as [Ei2 Es2].
  assert (Hcnt3 : forall i, b_count (B i s3) = b_count (B i s)).
  { intros i. rewrite (p_count R), Hcnt2, (g_count G). destruct (decide (i = bp)); lia. }
  assert (Hok3 : cache_ok [] s3) by apply (p_ok R).
  assert (Hframe : forall s4, inodes s4 = alter (fun r => r <| i_dirt := false |>) rip (inodes s3) ->
    s4 = s3 <| inodes := inodes s4 |> -> Q tt s4).
  { intros s4 Ei4 E4. rewrite E4. apply HQ.
    - by apply cache_ok_inodes.
    - pose proof (roomy_same [] s s3 Hroom Hok Hok3 Hcnt3) as Hr3. exact Hr3.
    - cbn. rewrite Ei4. by rewrite Ei3, Ei2, Ei1.
    - cbn. by rewrite Es3, Es2, Es1.
    - change (rdwt_err (s3 <| inodes := inodes s4 |>)) with (rdwt_err s3). rewrite (p_err R), Herr2.
      destruct (g_dev G) as [Ed|(_ & _ & Hbad)]; [right|by left]. split; [by apply (g_err G)|]. intros d b Hd.
      rewrite contents_inodes.
      rewrite (p_con R), Hc2, Ed, (g_blk G), (g_data G eq_refl Ed) by done. unfold write_one.
      destruct (decide (d = i_dev r /\ b = blk)); [done|]. by apply (g_same G); [|left]. }
  by apply Hframe.
Qed.

Lemma read_inode_ok rip sp s (Q : unit -> fst_ X -> Prop) : inode_ready s rip sp ->
  let r := INO rip s in let blk := inode_blk (SB sp s) (i_num r) in
  (forall s', cache_ok [] s' -> roomy s' -> supers s' = supers s -> (forall d b, d <> NO_DEV -> contents s' d b = contents s d b) ->
     (rdwt_err s' <> OK \/ (rdwt_err s' = rdwt_err s /\ inodes s' =
        alter (fun r' => inode_of (disk_inode (contents s) (SB sp s) (i_dev r) (i_num r)) r' <| i_dirt := false |>) rip (inodes s))) -> Q tt s') ->
  wp (rw_inode rip READING) Q s.
Proof.
  intros [Hok Hroom Hrip Hdev Hsp] r blk HQ. assert (Hnd : i_dev r <> NO_DEV) by (unfold r in *; destruct Hdev; lia).
  unfold rw_inode, get_super. wp_steps. rewrite Hsp. wp_steps. fold r. change (u16 (u16 (i_num r - 1) / _ + _ + _ + 2)) with blk.
  change (Z.to_nat (INODE_SIZE * _)) with (inode_off (i_num r)).
  apply (get_block_ok []); [done|done|apply inode_blk_no|by left|by apply roomy_room|]. intros bp U' s1 G. wp_steps.
  assert (U' = []) as -> by (destruct (g_pin G) as [|[? _]]; done).
  destruct (core_fields _ _ (g_core G)) as [Ei1 Es1]. change (READING =? READING) with true. unfold upd_ino. wp_steps.
  set (bytes := bytes_at (b_data (B bp s1)) (inode_off (i_num r)) (Z.to_nat INODE_SIZE)).
  set (l2 := alter (inode_of bytes) rip (inodes s1)). set (s2 := s1 <| inodes := l2 |>).
  assert (Hok2 : cache_ok [] s2) by (apply (cache_ok_inodes [] s1), (g_ok G)).
  assert (Hus : used s2 bp).
  { change (used s1 bp). unfold used. rewrite (g_count G), decide_True by done. pose proof (co_count _ _ Hok bp (g_bp G)). lia. }
  apply (put_block_ok [] s2); [done|apply (g_bp G)|done|set_solver|]. intros s3 R. wp_steps.
  destruct (core_fields _ _ (p_core R)) as [Ei3 Es3].
  assert (Hcnt3 : forall i, b_count (B i s3) = b_count (B i s)).
  { intros i. rewrite (p_count R). change (B i s2) with (B i s1). rewrite (g_count G). destruct (decide (i = bp)); lia. }
  assert (Hok3 : cache_ok [] s3) by apply (p_ok R).
  assert (Hframe : forall s4, inodes s4 = alter (fun r => r <| i_dirt := false |>) rip (inodes s3) ->
    s4 = s3 <| inodes := inodes s4 |> -> Q tt s4).
  { intros s4 Ei4 E4. rewrite E4. apply HQ.
    - by apply cache_ok_inodes.
    - pose proof (roomy_same [] s s3 Hroom Hok Hok3 Hcnt3) as Hr3. exact Hr3.
    - cbn. rewrite Es3. exact Es1.
    - intros d b Hd. rewrite contents_inodes, (p_con R) by done.
      etrans; [exact (contents_inodes s1 l2 d b)|]. by apply (g_same G); [|left].
    - change (rdwt_err (s3 <| inodes := inodes s4 |>)) with (rdwt_err s3). rewrite (p_err R). change (rdwt_err s2) with (rdwt_err s1).
      destruct (g_dev G) as [Ed|(_ & _ & Hbad)]; [right|by left]. split; [by apply (g_err G)|].
      change (inodes (s3 <| inodes := inodes s4 |>)) with (inodes s4). rewrite Ei4, Ei3. change (inodes s2) with l2. unfold l2. rewrite Ei1.
      rewrite list_alter_alter_eq. unfold bytes, disk_inode. rewrite (g_data G eq_refl Ed). done. }
  by apply Hframe.
Qed.

(** C28. An inode that [rw_inode] writes to the disk is what [rw_inode] reads
    back into a slot for the same inode, through a cache that may have moved
    the block to the disk in between; and on the way no other inode of the
    device and no other block changes. Unless a transfer fails, which is
    reported in [rdwt_err], both calls end normally. *)
Theorem inode_write_read rip rip' sp s : inode_ready s rip sp -> i_update (INO rip s) = 0 -> inode_typed (INO rip s) ->
  (rip' < length (inodes s))%nat -> i_dev (INO rip' s) = i_dev (INO rip s) -> i_num (INO rip' s) = i_num (INO rip s) ->
  1 <= i_num (INO rip s) <= 65535 ->
  exists s1 s2, rw_inode rip WRITING s = Done tt s1 /\ rw_inode rip' READING s1 = Done tt s2 /\
    (rdwt_err s2 = OK -> rdwt_err s1 = OK -> disk_part (INO rip' s2) = disk_part (INO rip s) /\
       (forall num, 1 <= num <= 65535 -> num <> i_num (INO rip s) ->
          disk_inode (contents s2) (SB sp s2) (i_dev (INO rip s)) num = disk_inode (contents s) (SB sp s) (i_dev (INO rip s)) num) /\
       (forall d b, d <> NO_DEV -> d <> i_dev (INO rip s) \/ b <> inode_blk (SB sp s) (i_num (INO rip s)) -> contents s2 d b = contents s d b)).
Proof.
  intros Hr Hup Hty Hrip' Ed En Hnum. set (r := INO rip s) in *. set (blk := inode_blk (SB sp s) (i_num r)) in *.
  assert (Hnd : i_dev r <> NO_DEV) by (destruct (ir_dev _ _ _ Hr); unfold r; lia).
  assert (Hzl : length (i_zone r) = NR_ZONE_NUMS) by apply Hty.
  set (Q1 := fun (_ : unit) s1 => inode_ready s1 rip' sp /\ i_dev (INO rip' s1) = i_dev r /\ i_num (INO rip' s1) = i_num r /\ supers s1 = supers s /\
    (rip' < length (inodes s1))%nat /\
    (rdwt_err s1 = OK -> forall d b, d <> NO_DEV -> contents s1 d b =
        write_one (i_dev r) blk (put_bytes (contents s (i_dev r) blk) (inode_off (i_num r)) (inode_bytes r)) (contents s) d b)).
  assert (H1 : wp (rw_inode rip WRITING) Q1 s).
  { apply (write_inode_ok rip sp s); [done|done|exact Hzl|]. intros s1 Hok1 Hroom1 Ei1 Es1 Hc1.
    assert (El : length (inodes s1) = length (inodes s)) by (by rewrite Ei1, length_alter).
    assert (Edn : i_dev (INO rip' s1) = i_dev r /\ i_num (INO rip' s1) = i_num r).
    { unfold INO in *. rewrite Ei1, !(tbl_alter_proj i_dev), !(tbl_alter_proj i_num) by done. done. }
    destruct Edn as [Ed1 En1]. split_and!; try done; [|by rewrite El|].
    - split; [done|done|by rewrite El|rewrite Ed1; apply Hr|]. rewrite Ed1, <- (ir_super _ _ _ Hr). unfold super_of_dev, SB. by rewrite Es1.
    - intros Eok. destruct Hc1 as [|[_ Hc1]]; [done|exact Hc1]. }
  apply wp_run in H1 as ([] & s1 & E1 & Hr1 & Ed1 & En1 & Es1 & Hl1 & Hc1). exists s1.
  assert (Ev : SB sp s1 = SB sp s) by (unfold SB; by rewrite Es1).
  set (Q2 := fun (_ : unit) s2 => supers s2 = supers s1 /\ (forall d b, d <> NO_DEV -> contents s2 d b = contents s1 d b) /\
    (rdwt_err s2 = OK -> disk_part (INO rip' s2) = disk_part (inode_of (disk_inode (contents s1) (SB sp s) (i_dev r) (i_num r)) (INO rip' s1)))).
  assert (H2 : wp (rw_inode rip' READING) Q2 s1).
  { apply (read_inode_ok rip' sp s1); [done|]. intros s2 Hok2 Hroom2 Es2 Hc2 He2. split_and!; [done|done|]. intros Eok.
    destruct He2 as [|[_ Ei2]]; [done|]. unfold INO at 1. rewrite Ei2, tbl_alter_eq by done. by rewrite Ev, Ed1, En1. }
  apply wp_run in H2 as ([] & s2 & E2 & Es2 & Hc2 & Hp2). exists s2. split_and!; [done|done|]. intros Eok2 Eok1. specialize (Hc1 Eok1).
  assert (Ev2 : SB sp s2 = SB sp s) by (unfold SB; by rewrite Es2, Es1).
  assert (Hsz : (inode_off (i_num r) + length (inode_bytes r) <= length (contents s (i_dev r) blk))%nat).
  { rewrite inode_bytes_len by done. pose proof (inode_off_fits (i_num r)). rewrite (contents_len [] s) by apply Hr. lia. }
  split_and!.
  - rewrite Hp2 by done. unfold disk_inode. fold blk. rewrite Hc1 by done. unfold write_one. rewrite decide_True by done.
    replace 32%nat with (length (inode_bytes r)) by (by apply inode_bytes_len). rewrite put_get_bytes by done. by apply inode_bytes_of.
  - intros num Hn Hne. unfold disk_inode. rewrite Ev2, Hc2, Hc1 by done. unfold write_one. destruct (decide _) as [[_ Eb]|]; [|done].
    rewrite put_get_other; [by rewrite Eb|done|]. rewrite inode_bytes_len by done. by apply (inode_places (SB sp s)).
  - intros d b Hd Hne. rewrite Hc2, Hc1 by done. unfold write_one. rewrite decide_False; [done|]. intros [-> ->]. by destruct Hne.
Qed.
End rw.


(** Two slots for inode 7 of device 256, the cache empty. *)
Definition ino7 (mode size : Z) : inode := inode0 <| i_dev := 256 |> <| i_num := 7 |> <| i_count := 1 |> <| i_mode := mode |> <| i_size := size |> <| i_nlinks := 2 |>.
Definition two_slots : fst_ store :=
  pool_state <| supers := <[0%nat := map_super]> (replicate NR_SUPERS super0) |>
             <| inodes := <[3%nat := ino7 33188 70000]> (<[5%nat := ino7 0 0]> (replicate NR_INODES inode0)) |>.
Lemma two_slots_ready : inode_ready two_slots 3 0.
Proof.
  split.
  - apply cache_ok_inodes, cache_ok_supers, pool_ok.
  - split; [by vm_compute|]. intros i Hi. change (B i two_slots) with (B i pool_state). rewrite (proj2 pool_ok) by done. lia.
  - vm_compute. lia.
  - split; by vm_compute.
  - by vm_compute.
Qed.
Lemma inode_write_read_witness : inode_ready two_slots 3 0 /\ exists s1 s2,
  rw_inode 3 WRITING two_slots = Done tt s1 /\ rw_inode 5 READING s1 = Done tt s2 /\
  rdwt_err s1 = OK /\ rdwt_err s2 = OK /\ disk_part (INO 5 s2) = disk_part (INO 3 two_slots).
Proof.
  split; [exact two_slots_ready|].
  assert (Ht : inode_typed (INO 3 two_slots)).
  { split; try (vm_compute; intuition congruence). split; [done|]. repeat constructor; lia. }
  destruct (inode_write_read 3 5 0 two_slots two_slots_ready eq_refl Ht) as (s1 & s2 & E1 & E2 & Hs);
    [vm_compute; lia|done|done|vm_compute; intuition congruence|].
  assert (Eok : match rw_inode 3 WRITING two_slots with Done _ s1 => match rw_inode 5 READING s1 with Done _ s2 => (rdwt_err s1, rdwt_err s2) | _ => (1, 1) end | _ => (1, 1) end = (OK, OK))
    by (vm_compute; reflexivity).
  rewrite E1, E2 in Eok. injection Eok as Ok1 Ok2. exists s1, s2.
  split; [exact E1|split; [exact E2|split; [exact Ok1|split; [exact Ok2|exact (proj1 (Hs Ok2 Ok1))]]]].
Defined.
