(* ===== verification/FsPath.v ===== *)
(** * Path names: [src/fs/path.c], [fetch_name] of [utility.c], [forbidden]
    and [read_only] of [protect.c], [rw_user] of [read.c]

    A path is a position in [user_path], whose 255 bytes need not hold a nul;
    [get_name] is a function from the bytes and a position to the component
    and the position after it, [None] when it would look past the array.
    Components are 14 bytes, padded with nuls. *)

From S2P Require Import Prelude KProc FsState FsDev FsCache FsSuper FsMap FsInode.

Definition M1 : Z := 1.
Definition M3 : Z := 3.
Definition SEG_D : Z := 1.
Definition SLASH : Z := 47.
Definition DOT : Z := 46.
Definition UNLINK : Z := 10.
Definition RMDIR : Z := 40.

(** ** C strings *)
Fixpoint strneq (n : nat) (a b : list Z) : bool :=
  match n with
  | O => true
  | S n' =>
      let x := default 0 (head a) in
      (x =? default 0 (head b)) && ((x =? 0) || strneq n' (tail a) (tail b))
  end.
Fixpoint cstr (l : list Z) : list Z :=
  match l with
  | [] => []
  | c :: l' => if c =? 0 then [] else c :: cstr l'
  end.
Definition strcmp_eq (a b : list Z) : bool := bool_decide (cstr a = cstr b).
Definition padded (l : list Z) : list Z := take NAME_MAX (l ++ replicate NAME_MAX 0).
Definition dot1 : list Z := padded [DOT].
Definition dot2 : list Z := padded [DOT; DOT].

(** ** [get_name]: its three loops, on the bytes from the position on *)
Fixpoint skip_slashes (l : list Z) (p : nat) : option (list Z * nat) :=
  match l with
  | [] => None
  | c :: l' => if c =? SLASH then skip_slashes l' (S p) else Some (l, p)
  end.

(** [lim]: the end of the array as [get_name] sees it, [PATH_MAX] past the
    start of this call's path. *)
Fixpoint copy_name (l : list Z) (p lim : nat) (acc : list Z) : option (list Z * nat * list Z) :=
  if (lim <=? p)%nat then Some (l, p, acc) else
  match l with
  | [] => None
  | c :: l' =>
      if (c =? SLASH) || (c =? 0) then Some (l, p, acc)
      else copy_name l' (S p) lim (if (length acc <? NAME_MAX)%nat then acc ++ [c] else acc)
  end.
Fixpoint skip_trailing (l : list Z) (p lim : nat) : option nat :=
  if (lim <=? p)%nat then Some p else
  match l with
  | [] => None
  | c :: l' => if c =? SLASH then skip_trailing l' (S p) lim else Some p
  end.

(** The new position, [None] when the path is too long, and the component. *)
Definition get_name (path : list Z) (old_name : nat) : option (option nat * list Z) :=
  let lim := (old_name + PATH_MAX)%nat in
  lp ← skip_slashes (drop old_name path) old_name;
  let '(l, p) := lp in
  r ← copy_name l p lim [];
  let '(l, p, acc) := r in
  rnp ← skip_trailing l p lim;
  mret (if (lim <=? rnp)%nat then None else Some rnp, padded acc).

Section path.
Context {X : Type} `{!World X} `{!Layout}.
Notation FS := (M (fst_ X)).

(** ** Copying from and to a caller *)

(** [len] bytes from [vir] in [usr]'s space. *)
Definition from_user (seg usr vir len : Z) : FS fanswer := request (UserCopy false seg usr vir len []).
Definition to_user (seg usr vir : Z) (data : list Z) : FS Z :=
  a ← request (UserCopy true seg usr vir (Z.of_nat (length data)) data);
  mret (an_ret a).

(** The path with its first bytes replaced by what was fetched. *)
Definition fill_path (v : list Z) : FS unit :=
  modify (fun s => s <| user_path ::= fun p => v ++ drop (length v) p |>).

Definition fetch_name (path len flag : Z) : FS Z :=
  if len <=? 0 then set_err EINVAL;; mret ERROR else
  m ← gets m_in;
  if (flag =? M3) && (len <=? M3_STRING) then
    fill_path (take (Z.to_nat len) (fm_ca1 m));;
    mret OK
  else if Z.of_nat PATH_MAX <? len then set_err ENAMETOOLONG;; mret ERROR
  else
    w ← gets fwho;
    a ← from_user SEG_D w path len;
    when (an_ret a =? OK) (fill_path (take (Z.to_nat len) (an_data a !!! 0%nat)));;
    set_err (an_ret a);;
    mret (an_ret a).

(** ** Protection *)
Definition read_only (ip : nat) : FS Z :=
  dev ← gets (fun s => i_dev (INO ip s));
  sp ← get_super dev;
  ro ← gets (fun s => s_rd_only (SB sp s));
  mret (if nz ro then EROFS else OK).

(** The permission bits that apply to a user. *)
Definition perm_bits (mode i_uid i_gid uid gid : Z) : Z :=
  if uid =? SU_UID then 7 else
  let shift := if uid =? i_uid then 6 else if gid =? i_gid then 3 else 0 in
  Z.land (Z.shiftr mode shift) 7.

Definition forbidden (rip : nat) (access_desired : Z) (real_uid : bool) : FS Z :=
  r ← gets (INO rip);
  p ← gets (fun s => FP (fp s) s);
  let test_uid := if real_uid then fp_realuid p else fp_effuid p in
  let test_gid := if real_uid then fp_realgid p else fp_effgid p in
  let perm := perm_bits (i_mode r) (i_uid r) (i_gid r) test_uid test_gid in
  let xmask := Z.lor (Z.lor (Z.shiftl X_BIT 6) (Z.shiftl X_BIT 3)) X_BIT in
  let e := if negb (Z.lor perm access_desired =? perm) then EACCES else OK in
  let e := if tst access_desired X_BIT && (Z.land (i_mode r) xmask =? 0) then EACCES else e in
  if (e =? OK) && tst access_desired W_BIT then read_only rip else mret e.

(** ** [search_dir]: directory entries *)
Definition d_inum (d : list Z) (i : nat) : Z := half_at d (16 * i).
Definition d_name (d : list Z) (i : nat) : list Z := bytes_at d (16 * i + 2) NAME_MAX.

(** What the search of one block ends with. *)
Inductive dir_scan := Hit (i : nat) | Free (i : nat) | Over.

(** Does entry [i] match, for LOOK_UP and DELETE? *)
Definition entry_matches (d string : list Z) (i : nat) : bool :=
  if string !!! 0%nat =? 0 then
    negb (strcmp_eq (drop (16 * i + 2) d) [DOT]) && negb (strcmp_eq (drop (16 * i + 2) d) [DOT; DOT])
  else strneq NAME_MAX (d_name d i) string.

(** The entries from [i] on, [n] of them; [new_slots] counts the entries seen.
    The scan stops at a match, at a free entry that [ENTER] may use, or past
    the directory's last entry. *)
Fixpoint scan_block (n i : nat) (d string : list Z) (flag new_slots old_slots : Z) : dir_scan * Z :=
  match n with
  | O => (Over, new_slots)
  | S n' =>
      let new_slots := u16 (new_slots + 1) in
      if old_slots <? new_slots then ((if flag =? ENTER then Free i else Over), new_slots) else
      if negb (flag =? ENTER) && negb (d_inum d i =? 0) && entry_matches d string i then (Hit i, new_slots) else
      if (flag =? ENTER) && (d_inum d i =? 0) then (Free i, new_slots) else
      scan_block n' (S i) d string flag new_slots old_slots
  end.

Definition write_entry (bp i : nat) (string : list Z) (numb : Z) : FS unit :=
  upd_buf bp (fun f => f <| b_data := put_bytes (put_bytes (b_data f) (16 * i + 2) (take NAME_MAX string)) (16 * i) (half_bytes numb) |>);;
  dirty_buf bp.

(** DELETE: the inode number moves into the last bytes of the name. *)
Definition erase_entry (ldir_ptr bp i : nat) : FS unit :=
  d ← gets (fun s => b_data (B bp s));
  dev ← gets (fun s => i_dev (INO ldir_ptr s));
  rip ← get_inode dev (d_inum d i);
  upd_buf bp (fun f => f <| b_data ::= fun d => put_bytes (put_bytes d (16 * i + 14) (half_bytes (d_inum d i))) (16 * i) [0; 0] |>);;
  dirty_buf bp;;
  upd_ino ldir_ptr (fun r => r <| i_update := MTIME |>);;
  put_inode rip.

(** The loop over the directory's blocks: a result for LOOK_UP and DELETE
    ([OK] and the inode number), or the place of the new entry. *)
Inductive dir_found := Found (numb : Z) | Slot (bp i : nat) (new_slots : Z) | NotThere (new_slots : Z).

Fixpoint search_blocks (fuel : nat) (ldir_ptr : nat) (string : list Z) (flag pos new_slots old_slots : Z) : FS dir_found :=
  match fuel with
  | O => nofuel
  | S fuel' =>
      size ← gets (fun s => i_size (INO ldir_ptr s));
      if size <=? pos then mret (NotThere new_slots) else
      b ← read_map ldir_ptr pos;
      dev ← gets (fun s => i_dev (INO ldir_ptr s));
      bp ← get_block dev b NORMAL;
      d ← gets (fun s => b_data (B bp s));
      match scan_block NR_DIR_ENTRIES 0 d string flag new_slots old_slots with
      | (Hit i, _) =>
          (if flag =? DELETE then erase_entry ldir_ptr bp i else mret tt);;
          put_block (Some bp) DIRECTORY_BLOCK;;
          mret (Found (d_inum d i))
      | (Free i, new_slots) => mret (Slot bp i new_slots)
      | (Over, new_slots) =>
          put_block (Some bp) DIRECTORY_BLOCK;;
          search_blocks fuel' ldir_ptr string flag (s32 (pos + BLOCK_SIZE)) new_slots old_slots
      end
  end.

(** The error code and, for LOOK_UP, the inode number; [numb] is the number
    to ENTER. *)
Definition search_dir (ldir_ptr : nat) (string : list Z) (numb flag : Z) : FS (Z * Z) :=
  r ← gets (INO ldir_ptr);
  if negb (Z.land (i_mode r) I_TYPE =? I_DIRECTORY) then mret (ENOTDIR, 0) else
  e ← forbidden ldir_ptr (if flag =? LOOK_UP then X_BIT else Z.lor W_BIT X_BIT) false;
  if negb (e =? OK) then mret (e, 0) else
  let old_slots := u16 (i_size r / DIR_ENTRY_SIZE) in
  f ← search_blocks (S (S (Z.to_nat (i_size r / BLOCK_SIZE)))) ldir_ptr string flag 0 0 old_slots;
  match f with
  | Found n => mret (OK, n)
  | Slot bp i new_slots => 
      write_entry bp i string numb;;
      put_block (Some bp) DIRECTORY_BLOCK;;
      upd_ino ldir_ptr (fun r => r <| i_update := MTIME |> <| i_dirt := true |>);;
      when (old_slots <? new_slots) (upd_ino ldir_ptr (fun r => r <| i_size := new_slots * DIR_ENTRY_SIZE |>));;
      mret (OK, 0)
  | NotThere new_slots =>
      if negb (flag =? ENTER) then mret (ENOENT, 0) else
      let new_slots := u16 (new_slots + 1) in
      if new_slots =? 0 then mret (EFBIG, 0) else
      size ← gets (fun s => i_size (INO ldir_ptr s));
      o ← new_block ldir_ptr size;
      match o with
      | None => e ← gets err_code; mret (e, 0)
      | Some bp =>
          write_entry bp 0 string numb;;
          put_block (Some bp) DIRECTORY_BLOCK;;
          upd_ino ldir_ptr (fun r => r <| i_update := MTIME |> <| i_dirt := true |>);;
          when (old_slots <? new_slots) (upd_ino ldir_ptr (fun r => r <| i_size := new_slots * DIR_ENTRY_SIZE |>));;
          mret (OK, 0)
      end
  end.

(** ** [advance], [last_dir], [eat_path] *)

(** The root of what is mounted on [rip], over and over. The code never ends
    when an inode is marked as mounted on and no super block says so. *)
Fixpoint cross_mounts (fuel : nat) (rip : option nat) : FS (option nat) :=
  match rip with
  | None => mret None
  | Some i =>
      m ← gets (fun s => i_mount (INO i s));
      if negb m then mret (Some i) else
      match fuel with
      | O => nofuel
      | S fuel' =>
          o ← gets (fun s => find (fun j => bool_decide (s_imount (SB j s) = Some i)) (seq 0 (length (supers s))));
          match o with
          | None => nofuel
          | Some sp =>
              put_inode (Some i);;
              dev ← gets (fun s => s_dev (SB sp s));
              rip ← get_inode dev ROOT_INODE;
              cross_mounts fuel' rip
          end
      end
  end.
Definition mount_fuel : nat := S NR_SUPERS.

Fixpoint advance_ (fuel : nat) (dirp : option nat) (string : list Z) : FS (option nat) :=
  match fuel with
  | O => nofuel
  | S fuel' =>
      if string !!! 0%nat =? 0 then
        i ← deref dirp;
        r ← gets (INO i);
        get_inode (i_dev r) (i_num r)
      else
      match dirp with
      | None => mret None
      | Some dirp =>
          en ← search_dir dirp string 0 LOOK_UP;
          let '(e, numb) := en in
          if negb (e =? OK) then set_err e;; mret None else
          dev ← gets (fun s => i_dev (INO dirp s));
          o ← get_inode dev numb;
          match o with
          | None => mret None
          | Some rip =>
              root ← gets (fun s => (i_num (INO rip s) =? ROOT_INODE) && (i_num (INO dirp s) =? ROOT_INODE));
              sp ← gets (fun s => find (fun j => s_dev (SB j s) =? i_dev (INO rip s)) (seq 1 (length (supers s) - 1)));
              rip ← match (if (root : bool) && (string !!! 1%nat =? DOT) then sp else None) with
                    | None => mret (Some rip)
                    | Some sp =>
                        put_inode (Some rip);;
                        m ← gets (fun s => s_imount (SB sp s));
                        m ← deref m;
                        r ← gets (INO m);
                        rip2 ← get_inode (i_dev r) (i_num r);
                        rip ← advance_ fuel' rip2 string;
                        put_inode rip2;;
                        mret rip
                    end;
              cross_mounts mount_fuel rip
          end
      end
  end.
(** ".." of the root of a mounted file system is looked up below. *)
Definition advance (dirp : option nat) (string : list Z) : FS (option nat) := advance_ (S NR_SUPERS) dirp string.

(** The components from [path] on. *)
Fixpoint walk (fuel : nat) (rip : nat) (path : nat) : FS (option nat * list Z) :=
  match fuel with
  | O => nofuel
  | S fuel' =>
      up ← gets user_path;
      match get_name up path with
      | None => panic "past the end of the path"
      | Some (None, string) =>
          set_err ENAMETOOLONG;;
          put_inode (Some rip);;
          mret (None, string)
      | Some (Some new_name, string) =>
          match up !! new_name with
          | None => panic "past the end of the path"
          | Some c =>
              if c =? 0 then mret (Some rip, string) else
              new_ip ← advance (Some rip) string;
              put_inode (Some rip);;
              match new_ip with
              | None => mret (None, string)
              | Some new_ip => walk fuel' new_ip new_name
              end
          end
      end
  end.

(** Removing trailing "/." from a path. *)
Fixpoint strip_dots (fuel : nat) (path : list Z) : list Z :=
  match fuel with
  | O => path
  | S fuel' =>
      let n := length (cstr path) in
      if (2 <? n)%nat && (path !!! (n - 2)%nat =? SLASH) && (path !!! (n - 1)%nat =? DOT)
      then strip_dots fuel' (<[(n - 2)%nat := 0]> path) else path
  end.

Definition last_dir : FS (option nat * list Z) :=
  up ← gets user_path;
  let c := up !!! 0%nat in
  p ← gets (fun s => FP (fp s) s);
  rip ← deref (if c =? SLASH then fp_rootdir p else fp_workdir p);
  r ← gets (INO rip);
  if (i_nlinks r =? 0) || (c =? 0) then set_err ENOENT;; mret (None, []) else
  dup_inode rip;;
  call ← gets fs_call;
  when ((call =? UNLINK) || (call =? RMDIR)) (modify (fun s => s <| user_path ::= strip_dots PATH_MAX |>));;
  walk (S PATH_MAX) rip 0.

Definition eat_path : FS (option nat) :=
  ls ← last_dir;
  let '(ldip, string) := ls in
  match ldip with
  | None => mret None
  | Some ldip =>
      if string !!! 0%nat =? 0 then mret (Some ldip) else
      rip ← advance (Some ldip) string;
      put_inode (Some ldip);;
      mret rip
  end.
End path.
