(* ===== verification/FsNames.v ===== *)
(** * Names: what [get_name] extracts from a path

    The reference is a split of the string at its slashes, the empty pieces
    left out; [get_name] walks over the bytes of [user_path]. *)

From S2P Require Import Prelude FsState FsPath.

(** ** The components of a path, by splitting *)
Fixpoint pieces (l : list Z) : list (list Z) :=
  match l with
  | [] => [[]]
  | c :: l' =>
      if c =? SLASH then [] :: pieces l'
      else match pieces l' with w :: ws => (c :: w) :: ws | [] => [[c]] end
  end.
Definition components (l : list Z) : list (list Z) := filter (fun w => w <> []) (pieces l).

Definition no_slash (w : list Z) : Prop := Forall (fun c => c <> SLASH) w.
Definition slashes (l : list Z) : Prop := Forall (fun c => c = SLASH) l.

Lemma components_slash l : components (SLASH :: l) = components l.
Proof. done. Qed.
Lemma components_slashes l l' : slashes l -> components (l ++ l') = components l'.
Proof. induction 1 as [|c l -> _ IH]; [done|]. cbn [app]. by rewrite components_slash. Qed.
Lemma pieces_word w l : no_slash w -> pieces (w ++ SLASH :: l) = w :: pieces l.
Proof.
  induction 1 as [|c w Hc _ IH]; [done|]. cbn [app pieces]. rewrite (proj2 (Z.eqb_neq c SLASH)) by done. by rewrite IH.
Qed.
Lemma pieces_last w : no_slash w -> pieces w = [w].
Proof. induction 1 as [|c w Hc _ IH]; [done|]. cbn [pieces]. rewrite (proj2 (Z.eqb_neq c SLASH)) by done. by rewrite IH. Qed.
Lemma components_word w l : w <> [] -> no_slash w -> (l = [] \/ head l = Some SLASH) -> components (w ++ l) = w :: components l.
Proof.
  intros Hw Hn [->|Hl]; unfold components.
  - rewrite app_nil_r, pieces_last by done. by rewrite filter_cons_True.
  - destruct l as [|c l]; [done|]. injection Hl as ->. rewrite pieces_word by done. by rewrite filter_cons_True.
Qed.
Lemma components_nil l : (head l = Some SLASH -> False) -> components l = [] <-> l = [].
Proof.
  intros Hh. split; [|by intros ->]. destruct l as [|c l]; [done|]. intros E. exfalso. revert E. unfold components. cbn [pieces].
  rewrite (proj2 (Z.eqb_neq c SLASH)) by (intros ->; by apply Hh). destruct (pieces l) as [|w ws]; by rewrite filter_cons_True.
Qed.

(** ** Strings in an array *)
Lemma cstr_split l : 0 ∈ l -> exists t, l = cstr l ++ 0 :: t.
Proof.
  induction l as [|c l IH]; [by intros ?%elem_of_nil|]. intros Hin. cbn [cstr]. destruct (Z.eqb_spec c 0) as [->|Hc]; [by exists l|].
  apply elem_of_cons in Hin as [|Hin]; [done|]. destruct (IH Hin) as (t & E). exists t. cbn. by rewrite <- E.
Qed.
Lemma cstr_app l t : Forall (fun c => c <> 0) l -> cstr (l ++ 0 :: t) = l.
Proof. induction 1 as [|c l Hc _ IH]; [done|]. cbn [app cstr]. rewrite (proj2 (Z.eqb_neq c 0)) by done. by rewrite IH. Qed.
Lemma cstr_nonzero l : Forall (fun c => c <> 0) (cstr l).
Proof. induction l as [|c l IH]; [constructor|]. cbn [cstr]. destruct (Z.eqb_spec c 0); by constructor. Qed.

(** ** The loops, on a string with its nul *)

(** A string is slashes, then a name, then slashes, then the rest. *)
Lemma string_shape l : exists l1 w l2 l3, l = l1 ++ w ++ l2 ++ l3 /\ slashes l1 /\ no_slash w /\ slashes l2 /\
  (head l3 = Some SLASH -> False) /\ (w = [] -> l2 = [] /\ l3 = []) /\ (l2 = [] -> l3 = []).
Proof.
  assert (Hs : forall l, exists l1 l', l = l1 ++ l' /\ slashes l1 /\ (head l' = Some SLASH -> False)).
  { clear. induction l as [|c l (l1 & l' & -> & H1 & H2)]; [exists [], []; by split_and!; try constructor|].
    destruct (decide (c = SLASH)) as [->|Hc]; [exists (SLASH :: l1), l'; split_and!; [done|by constructor|done]|].
    exists [], (c :: l1 ++ l'). split_and!; [done|constructor|]. cbn. congruence. }
  assert (Hw : forall l, exists w l', l = w ++ l' /\ no_slash w /\ (l' = [] \/ head l' = Some SLASH)).
  { clear. induction l as [|c l (w & l' & -> & H1 & H2)]; [exists [], []; split_and!; [done|constructor|by left]|].
    destruct (decide (c = SLASH)) as [->|Hc]; [exists [], (SLASH :: w ++ l'); split_and!; [done|constructor|by right]|].
    exists (c :: w), l'. split_and!; [done|by constructor|done]. }
  destruct (Hs l) as (l1 & r1 & -> & H1 & Hr1). destruct (Hw r1) as (w & r2 & -> & H2 & Hr2). destruct (Hs r2) as (l2 & l3 & -> & H3 & H4).
  exists l1, w, l2, l3. split_and!; try done.
  - intros ->. cbn [app] in Hr1. destruct Hr2 as [E|E]; [by apply app_eq_nil in E|]. by destruct (Hr1 E).
  - intros ->. cbn [app] in Hr2. destruct Hr2 as [E|E]; [done|]. by destruct (H4 E).
Qed.

Lemma skip_slashes_ok l1 l p : slashes l1 -> (head l = Some SLASH -> False) -> l <> [] ->
  skip_slashes (l1 ++ l) p = Some (l, (p + length l1)%nat).
Proof.
  intros Hs Hh Hl. revert p. induction Hs as [|c l1 -> _ IH]; intros p; cbn [app skip_slashes length].
  - destruct l as [|c l]; [done|]. cbn [skip_slashes]. rewrite (proj2 (Z.eqb_neq c SLASH)) by (intros ->; by apply Hh). by rewrite Nat.add_0_r.
  - rewrite Z.eqb_refl, IH. by rewrite Nat.add_succ_r.
Qed.
Lemma copy_name_ok w l lim : no_slash w -> Forall (fun c => c <> 0) w -> (head l = Some SLASH \/ head l = Some 0) -> forall p acc,
  (p + length w < lim)%nat ->
  copy_name (w ++ l) p lim acc = Some (l, (p + length w)%nat, if (length acc <? NAME_MAX)%nat then take NAME_MAX (acc ++ w) else acc).
Proof.
  intros Hw Hz Hl. induction Hw as [|c w Hc _ IH]; intros p acc Hp; cbn [app length copy_name] in *.
  - destruct l as [|c l]; [by destruct Hl|]. cbn [copy_name]. rewrite (proj2 (Nat.leb_gt lim p)) by lia.
    assert ((c =? SLASH) || (c =? 0) = true) as -> by (destruct Hl as [E|E]; injection E as ->; done).
    rewrite Nat.add_0_r, app_nil_r. destruct (Nat.ltb_spec (length acc) NAME_MAX); [by rewrite take_ge by lia|done].
  - apply Forall_cons in Hz as [Hc0 Hz]. rewrite (proj2 (Nat.leb_gt lim p)) by lia.
    rewrite (proj2 (Z.eqb_neq c SLASH)), (proj2 (Z.eqb_neq c 0)) by done. cbn [orb]. rewrite IH by (done || lia).
    rewrite Nat.add_succ_r. do 3 f_equal. destruct (Nat.ltb_spec (length acc) NAME_MAX) as [Ha|Ha].
    + rewrite length_app. cbn [length]. destruct (Nat.ltb_spec (length acc + 1) NAME_MAX) as [Hb|Hb].
      * by rewrite <- (assoc (++)).
      * replace (acc ++ c :: w) with ((acc ++ [c]) ++ w) by (by rewrite <- (assoc (++))). symmetry. apply take_app_length'. rewrite length_app. cbn. lia.
    + by rewrite (proj2 (Nat.ltb_ge _ _)) by lia.
Qed.
(** A name that reaches the limit stops the loop there. *)
Lemma copy_name_long w l lim : no_slash w -> Forall (fun c => c <> 0) w -> forall p acc, (lim <= p + length w)%nat ->
  exists l' p' acc', copy_name (w ++ l) p lim acc = Some (l', p', acc') /\ (lim <= p')%nat.
Proof.
  intros Hw Hz. induction Hw as [|c w Hc _ IH]; intros p acc Hp; cbn [app length] in *.
  - destruct l; cbn [copy_name]; rewrite (proj2 (Nat.leb_le lim p)) by lia; eexists _, _, _; (split; [done|lia]).
  - apply Forall_cons in Hz as [Hc0 Hz]. cbn [copy_name]. destruct (Nat.leb_spec lim p) as [Hlp|Hlp]; [eexists _, _, _; split; [done|lia]|].
    rewrite (proj2 (Z.eqb_neq c SLASH)), (proj2 (Z.eqb_neq c 0)) by done. cbn [orb]. apply IH; [done|lia].
Qed.
Lemma skip_trailing_ok l2 l lim : slashes l2 -> (head l = Some SLASH -> False) -> l <> [] -> forall p,
  exists p', skip_trailing (l2 ++ l) p lim = Some p' /\
    if (lim <=? p + length l2)%nat then (lim <= p')%nat else p' = (p + length l2)%nat.
Proof.
  intros Hs Hh Hl. induction Hs as [|c l2 -> _ IH]; intros p; cbn [app length].
  - destruct l as [|c l]; [done|]. cbn [skip_trailing]. rewrite Nat.add_0_r. destruct (Nat.leb_spec lim p); [by exists p|].
    rewrite (proj2 (Z.eqb_neq c SLASH)) by (intros ->; by apply Hh). by exists p.
  - cbn [skip_trailing]. destruct (Nat.leb_spec lim p) as [Hlp|Hlp].
    + exists p. split; [done|]. by rewrite (proj2 (Nat.leb_le _ _)) by lia.
    + rewrite Z.eqb_refl. destruct (IH (S p)) as (p' & E & Hp'). exists p'. split; [done|]. by rewrite Nat.add_succ_r.
Qed.

Lemma skip_trailing_limit l p lim : (lim <= p)%nat -> skip_trailing l p lim = Some p.
Proof. intros Hp. destruct l; cbn [skip_trailing]; by rewrite (proj2 (Nat.leb_le lim p)). Qed.

(** The components of a string of the shape above. *)
Lemma shape_components l1 w l2 l3 : slashes l1 -> no_slash w -> slashes l2 -> (w = [] -> l2 = [] /\ l3 = []) -> (l2 = [] -> l3 = []) ->
  components (l1 ++ w ++ l2 ++ l3) = (if decide (w = []) then [] else [w]) ++ components l3.
Proof.
  intros H1 Hw H2 Hwn H2n. rewrite components_slashes by done. destruct (decide (w = [])) as [E|E].
  - destruct (Hwn E) as [-> ->]. by rewrite E.
  - rewrite components_word; [by rewrite components_slashes|done|done|]. destruct l2 as [|c l2]; [left; by rewrite H2n|right].
    apply Forall_cons in H2 as [-> _]. done.
Qed.

(** C27. [get_name], started at [p] in an array that holds a nul from there
    on, takes the first component off the path: it returns the component's
    first 14 bytes, padded, and the position of the rest, whose components
    are the others and which is empty when there are none (so the caller may
    test for a nul); when there was no component the name is empty. It fails
    with a nil pointer exactly when the component with the slashes around it
    takes [PATH_MAX] bytes or more. *)
Theorem get_name_correct path p : 0 ∈ drop p path ->
  exists gap name, let rest := cstr (drop p path) in
    (gap <= length rest)%nat /\ components rest = (if decide (name = []) then [] else [name]) ++ components (drop gap rest) /\
    (name = [] -> drop gap rest = []) /\ (name <> [] -> (0 < gap)%nat) /\ cstr (drop (p + gap) path) = drop gap rest /\
    (path !! (p + gap)%nat = Some 0 <-> components (drop gap rest) = []) /\
    (if (gap <? PATH_MAX)%nat then get_name path p = Some (Some (p + gap)%nat, padded (take NAME_MAX name))
     else exists s, get_name path p = Some (None, s)).
Proof.
  intros Hin. destruct (cstr_split _ Hin) as (t & Et). destruct (string_shape (cstr (drop p path))) as (l1 & w & l2 & l3 & Es & H1 & Hw & H2 & H3 & Hwn & H2n).
  pose proof (cstr_nonzero (drop p path)) as Hz. rewrite Es in Hz. apply Forall_app in Hz as [_ Hz]. apply Forall_app in Hz as [Hwz Hz]. apply Forall_app in Hz as [_ Hz3].
  exists (length l1 + length w + length l2)%nat, w. cbv zeta. rewrite Es in Et |- *.
  set (gap := (length l1 + length w + length l2)%nat).
  assert (Ed : forall r, drop gap ((l1 ++ w ++ l2 ++ l3) ++ r) = l3 ++ r).
  { intros r. rewrite !(assoc_L (++)). rewrite <- (assoc_L (++) _ l3 r). apply drop_app_length'. unfold gap. rewrite !length_app. lia. }
  pose proof (Ed []) as Ed0. rewrite !app_nil_r in Ed0. rewrite Ed0.
  assert (Ep : drop (p + gap) path = l3 ++ 0 :: t) by (rewrite <- drop_drop, Et; apply Ed).
  split_and!.
  - unfold gap. rewrite !length_app. lia.
  - by apply shape_components.
  - intros E. by apply Hwn.
  - intros E. unfold gap. destruct w; [done|cbn; lia].
  - rewrite Ep. by apply cstr_app.
  - rewrite components_nil by done. rewrite <- (Nat.add_0_r (p + gap)), <- lookup_drop, Ep. destruct l3 as [|c l3]; [done|]. cbn.
    apply Forall_cons in Hz3 as [Hc _]. split; congruence.
  - unfold get_name. rewrite Et, <- !(assoc_L (++)).
    assert (Hrest : head (w ++ l2 ++ l3 ++ 0 :: t) <> Some SLASH /\ w ++ l2 ++ l3 ++ 0 :: t <> []).
    { destruct w as [|c w]; [destruct (Hwn eq_refl) as [-> ->]; done|]. apply Forall_cons in Hw as [Hc _]. cbn. split; congruence. }
    rewrite skip_slashes_ok by (try apply Hrest; done). cbn [mbind option_bind].
    assert (Hl3 : (head (l3 ++ 0 :: t) = Some SLASH -> False) /\ l3 ++ 0 :: t <> []) by (destruct l3; done).
    destruct (Nat.ltb_spec (length l1 + length w) PATH_MAX) as [Hs|Hs].
    + rewrite copy_name_ok; [|done|done| |lia].
      2:{ destruct l2 as [|c l2]; [right; by rewrite H2n|left]. apply Forall_cons in H2 as [-> _]. done. }
      change (length (A:=Z) [] <? NAME_MAX)%nat with true. cbv iota. cbn [mbind option_bind app].
      destruct (skip_trailing_ok l2 (l3 ++ 0 :: t) (p + PATH_MAX) H2 (proj1 Hl3) (proj2 Hl3) (p + length l1 + length w)) as (p' & -> & Hp').
      cbn [mbind option_bind mret option_ret]. destruct (Nat.ltb_spec gap PATH_MAX) as [Hg|Hg].
      * rewrite (proj2 (Nat.leb_gt _ _)) in Hp' by (unfold gap in Hg; lia). rewrite (proj2 (Nat.leb_gt _ _)) by (unfold gap in Hg; lia).
        rewrite Hp'. unfold gap. by rewrite !Nat.add_assoc.
      * rewrite (proj2 (Nat.leb_le _ _)) in Hp' by (unfold gap in Hg; lia). rewrite (proj2 (Nat.leb_le _ _)) by lia. by eexists.
    + destruct (copy_name_long w (l2 ++ l3 ++ 0 :: t) (p + PATH_MAX) Hw Hwz (p + length l1) []) as (l' & p' & acc' & -> & Hp'); [lia|].
      cbn [mbind option_bind]. rewrite skip_trailing_limit by lia. cbn [mbind option_bind mret option_ret].
      rewrite (proj2 (Nat.leb_le _ _)) by lia. rewrite (proj2 (Nat.ltb_ge gap PATH_MAX)) by (unfold gap; lia). by eexists.
Qed.
(** ["//usr/ast"] from its start: ["usr"], then ["ast"] from position 6. *)
Definition two_names : list Z := [47; 47; 117; 115; 114; 47; 97; 115; 116; 0; 0; 0].
Lemma get_name_correct_witness : 0 ∈ drop 0 two_names /\ components (cstr two_names) = [[117; 115; 114]; [97; 115; 116]] /\
  exists gap, get_name two_names 0 = Some (Some gap, padded [117; 115; 114]) /\ components (drop gap (cstr two_names)) = [[97; 115; 116]].
Proof.
  assert (H0 : 0 ∈ drop 0 two_names) by (cbn; set_solver).
  assert (Ec : components (cstr two_names) = [[117; 115; 114]; [97; 115; 116]]) by (vm_compute; reflexivity).
  split; [exact H0|split; [exact Ec|]].
  destruct (get_name_correct two_names 0 H0) as (gap & name & Hle & E & Hn & _ & _ & _ & Hr). change (drop 0 two_names) with two_names in *.
  rewrite Ec in E. change (length (cstr two_names)) with 9%nat in Hle. rewrite (proj2 (Nat.ltb_lt gap PATH_MAX)) in Hr by (unfold PATH_MAX; lia).
  destruct (decide (name = [])) as [En|En].
  - exfalso. rewrite (Hn En) in E. discriminate E.
  - injection E as <- E. exists gap. split; [exact Hr|done].
Defined.
