(* ===== verification/FsFile.v ===== *)
(** * Open files, pipes, reading and writing: [src/fs/filedes.c], [pipe.c],
    [read.c]

    [nbytes], [buffer] and [fd] live in the request message, where [suspend]
    finds them. The transfer loop of [read_write] moves a block each time
    round except the first and last. *)

From S2P Require Import Prelude KProc FsState FsDev FsCache FsSuper FsMap FsInode FsPath.

Definition FS_READ : Z := 3.
Definition FS_WRITE : Z := 4.
Definition FS_OPEN : Z := 5.
Definition FS_CREAT : Z := 8.
Definition O_CREAT : Z := 64.
Definition O_EXCL : Z := 128.
Definition O_TRUNC : Z := 512.
Definition O_APPEND : Z := 1024.
Definition O_NONBLOCK : Z := 2048.
Definition O_WRONLY : Z := 1.
Definition O_ACCMODE : Z := 3.
Definition FD_MASK : Z := 63.
Definition SIGPIPE : Z := 13.

Section file.
Context {X : Type} `{!World X} `{!Layout}.
Notation FS := (M (fst_ X)).

Definition set_m (f : fmsg -> fmsg) : FS unit := modify (fun s => s <| m_in ::= f |>).
Definition upd_fp (f : fproc -> fproc) : FS unit := i ← gets fp; upd_fproc i f.
Definition FPC (s : fst_ X) : fproc := FP (fp s) s.

(** ** [filedes.c] *)

(** [get_fd]: the error code, [*k] and the slot. *)
Definition free_fd (l : list (option nat)) (start : Z) : option nat :=
  find (fun i => match l !!! i with None => true | Some _ => false end)
       (seq (Z.to_nat start) (Z.to_nat (OPEN_MAX - start))).
Definition free_filp (l : list filp) : option nat := find (fun i => filp_count (l !!! i) =? 0) (seq 0 (length l)).

Definition get_fd (start bits : Z) : FS (Z * Z * nat) :=
  p ← gets FPC;
  match free_fd (fp_filp p) start with
  | None => mret (EMFILE, -1, 0%nat)
  | Some k =>
      o ← gets (fun s => free_filp (filps s));
      match o with
      | None => mret (ENFILE, Z.of_nat k, 0%nat)
      | Some f =>
          upd_filp f (fun f => f <| filp_mode := bits |> <| filp_pos := 0 |> <| filp_flags := 0 |>);;
          mret (OK, Z.of_nat k, f)
      end
  end.

Definition get_filp (fild : Z) : FS (option nat) :=
  set_err EBADF;;
  if (fild <? 0) || (OPEN_MAX <=? fild) then mret None else
  gets (fun s => fp_filp (FPC s) !!! Z.to_nat fild).

Definition find_filp (rip : nat) (bits : Z) : FS (option nat) :=
  gets (fun s => find (fun i => let f := FILP i s in
    negb (filp_count f =? 0) && bool_decide (filp_ino f = Some rip) && tst (filp_mode f) bits) (seq 0 (length (filps s)))).

(** ** Pipes *)
Fixpoint release_from (n i : nat) (ip : nat) (call_nr count : Z) : FS unit :=
  match n with
  | O => mret tt
  | S n' =>
      rp ← gets (FP i);
      hit ← (if fp_suspended rp && negb (fp_revived rp) && (Z.land (fp_fd rp) BYTE =? call_nr) then
               f ← deref (fp_filp rp !!! Z.to_nat (Z.shiftr (fp_fd rp) 8));
               gets (fun s => bool_decide (filp_ino (FILP f s) = Some ip))
             else mret false);
      if negb hit then release_from n' (S i) ip call_nr count else
      revive (Z.of_nat i) 0;;
      modify (fun s => s <| susp_count ::= fun n => s16 (n - 1) |>);;
      if count - 1 =? 0 then mret tt else release_from n' (S i) ip call_nr (count - 1)
  end.
Definition release (ip : nat) (call_nr count : Z) : FS unit := release_from FPROCS 0 ip call_nr count.

Definition pipe_check (rip : nat) (rw_flag oflags bytes position : Z) : FS Z :=
  if rw_flag =? READING then
    size ← gets (fun s => i_size (INO rip s));
    if negb (size <=? position) then mret 1 else
    w ← find_filp rip W_BIT;
    match w with
    | None => mret 0
    | Some _ =>
        r ← (if tst oflags O_NONBLOCK then mret EAGAIN else suspend XPIPE;; mret 0);
        n ← gets susp_count;
        when (0 <? n) (release rip FS_WRITE n);;
        mret r
    end
  else
    if PIPE_SIZE <? bytes then mret EFBIG else
    r ← find_filp rip R_BIT;
    match r with
    | None =>
        p ← gets fp;
        request (SysKill (Z.of_nat p) SIGPIPE);;
        mret EPIPE
    | Some _ =>
        if PIPE_SIZE <? position + bytes then
          if tst oflags O_NONBLOCK then mret EAGAIN else suspend XPIPE;; mret 0
        else
          n ← gets susp_count;
          when (position =? 0) (release rip FS_READ n);;
          mret 1
    end.

Definition do_unpause : FS Z :=
  w ← gets fwho;
  if MM_PROC_NR <? w then mret EPERM else
  proc_nr ← gets (fun s => fm_i1 (m_in s));
  if (proc_nr <? 0) || (Z.of_nat FPROCS <=? proc_nr) then panic "unpause err 1" else
  let i := Z.to_nat proc_nr in
  rfp ← gets (FP i);
  if negb (fp_suspended rfp) then mret OK else
  let task := - fp_task rfp in
  if task =? XPIPE then mret OK else
  when (negb (task =? XOPEN))
    (let fild := Z.land (Z.shiftr (fp_fd rfp) 8) BYTE in
     if (fild <? 0) || (OPEN_MAX <=? fild) then panic "unpause err 2" else
     f ← deref (fp_filp rfp !!! Z.to_nat fild);
     ino ← gets (fun s => filp_ino (FILP f s));
     ino ← deref ino;
     dev ← gets (fun s => i_zone (INO ino s) !!! 0%nat);
     dmap_rw (major_of dev) task
       (mk_dmsg CANCEL (minor_of dev) proc_nr (if Z.land (fp_fd rfp) BYTE =? FS_READ then R_BIT else W_BIT) 0 0 NoBuf);;
     mret tt);;
  upd_fproc i (fun p => p <| fp_suspended := false |>);;
  reply proc_nr EINTR;;
  mret OK.

(** ** Transfers *)

(** [rw_user] with FS's end inside buffer [bp]. *)
Definition rw_user_buf (seg usr vir bytes : Z) (bp off : nat) (direction : Z) : FS Z :=
  if direction =? TO_USER then
    d ← gets (fun s => b_data (B bp s));
    to_user seg usr vir (bytes_at d off (Z.to_nat bytes))
  else
    a ← from_user seg usr vir bytes;
    when (an_ret a =? OK) (upd_buf bp (fun f => f <| b_data := put_bytes (b_data f) off (take (Z.to_nat bytes) (an_data a !!! 0%nat)) |>));;
    mret (an_ret a).

Definition rw_chunk (rip : nat) (position off chunk left rw_flag buff seg usr : Z) : FS Z :=
  r ← gets (INO rip);
  let block_spec := Z.land (i_mode r) I_TYPE =? I_BLOCK_SPECIAL in
  b ← (if block_spec then mret (u16 (Z.quot position BLOCK_SIZE)) else read_map rip position);
  let dev := if block_spec then i_zone r !!! 0%nat else i_dev r in
  o ← (if negb block_spec && (b =? NO_BLOCK) then
         if rw_flag =? READING then
           bp ← get_block NO_DEV NO_BLOCK NORMAL;
           zero_block bp;;
           mret (Some bp)
         else new_block rip position
       else if rw_flag =? READING then
         bp ← rahead rip b position left;
         mret (Some bp)
       else
         let n := if chunk =? BLOCK_SIZE then NO_READ else NORMAL in
         let n := if negb block_spec && (off =? 0) && (i_size r <=? position) then NO_READ else n in
         bp ← get_block dev b n;
         mret (Some bp));
  match o with
  | None => gets err_code
  | Some bp =>
      when ((rw_flag =? WRITING) && negb (chunk =? BLOCK_SIZE) && negb block_spec && (i_size r <=? position) && (off =? 0)) (zero_block bp);;
      r ← rw_user_buf seg usr buff chunk bp (Z.to_nat off) (if rw_flag =? READING then TO_USER else FROM_USER);
      when (rw_flag =? WRITING) (dirty_buf bp);;
      put_block (Some bp) (if off + chunk =? BLOCK_SIZE then FULL_DATA_BLOCK else PARTIAL_DATA_BLOCK);;
      mret r
  end.

(** The transfer loop: the last error code, [cum_io] and [position]. *)
Fixpoint rw_loop (fuel : nat) (rip : nat) (rw_flag seg usr : Z) (block_spec : bool) (f_size r cum_io position : Z) : FS (Z * Z * Z) :=
  match fuel with
  | O => nofuel
  | S fuel' =>
      m ← gets m_in;
      let nbytes := fm_i2 m in
      if nbytes =? 0 then mret (r, cum_io, position) else
      let off := Z.rem position BLOCK_SIZE in
      let chunk := Z.min nbytes (BLOCK_SIZE - off) in
      let bounded := (rw_flag =? READING) || (block_spec && (rw_flag =? WRITING)) in
      if bounded && (f_size <=? position) then mret (r, cum_io, position) else
      let chunk := if bounded then Z.min chunk (f_size - position) else chunk in
      r ← rw_chunk rip position off chunk nbytes rw_flag (fm_p1 m) seg usr;
      if negb (r =? OK) then mret (r, cum_io, position) else
      e ← gets rdwt_err;
      if e <? 0 then mret (r, cum_io, position) else
      set_m (fun m => m <| fm_p1 := s32 (fm_p1 m + chunk) |> <| fm_i2 := fm_i2 m - chunk |>);;
      rw_loop fuel' rip rw_flag seg usr block_spec f_size r (u16 (cum_io + chunk)) (s32 (position + chunk))
  end.

(** The checks and the transfer on anything but a character special file:
    [inl] returns from [read_write] at once. *)
Definition rw_blocks (rip f : nat) (rw_flag seg usr : Z) (block_spec : bool) (f_size position : Z) : FS (Z + Z * Z * Z) :=
  m ← gets m_in;
  fl ← gets (fun s => filp_flags (FILP f s));
  let check := (rw_flag =? WRITING) && negb block_spec in
  big ← (if check then
           dev ← gets (fun s => i_dev (INO rip s));
           sp ← get_super dev;
           gets (fun s => s32 (s_max_size (SB sp s) - fm_i2 m) <? position)
         else mret false);
  if big : bool then mret (inl EFBIG) else
  let position := if check && tst fl O_APPEND then f_size else position in
  when (check && (f_size <? position)) (clear_zone rip f_size 0);;
  pipe ← gets (fun s => i_pipe (INO rip s));
  r ← (if pipe : bool then pipe_check rip rw_flag fl (fm_i2 m) position else mret 1);
  if (pipe : bool) && (r <=? 0) then mret (inl r) else
  t ← rw_loop (S (S (S (Z.to_nat (fm_i2 m / BLOCK_SIZE))))) rip rw_flag seg usr block_spec f_size (if pipe : bool then r else OK) 0 position;
  mret (inr t).

(** After the transfer: sizes, positions, read-ahead. *)
Definition rw_finish (rip f : nat) (rw_flag mode_word f_size r cum_io position : Z) : FS Z :=
  let regular := (mode_word =? I_REGULAR) || (mode_word =? I_NAMED_PIPE) in
  position ← (if rw_flag =? WRITING then
                when (regular || (mode_word =? I_DIRECTORY))
                  (when (f_size <? position) (upd_ino rip (fun r => r <| i_size := position |>));;
                   upd_ino rip (fun r => r <| i_update := MTIME |> <| i_dirt := true |>));;
                mret position
              else
                r ← gets (INO rip);
                if i_pipe r && (i_size r <=? position) then
                  upd_ino rip (fun r => r <| i_size := 0 |>);;
                  wf ← find_filp rip W_BIT;
                  match wf with
                  | Some wf => upd_filp wf (fun f => f <| filp_pos := 0 |>)
                  | None => mret tt
                  end;;
                  mret 0
                else mret position);
  upd_filp f (fun f => f <| filp_pos := position |>);;
  seek ← gets (fun s => i_seek (INO rip s));
  when ((rw_flag =? READING) && negb seek && (Z.rem position BLOCK_SIZE =? 0) && (regular || (mode_word =? I_DIRECTORY)))
    (modify (fun s => s <| rdahed_inode := Some rip |> <| rdahedpos := position |>));;
  upd_ino rip (fun r => r <| i_seek := false |>);;
  e ← gets rdwt_err;
  let r := if negb (e =? OK) then e else r in
  let r := if e =? END_OF_FILE then s16 cum_io else r in
  mret (if r =? OK then s16 cum_io else r).

Definition read_write (rw_flag : Z) : FS Z :=
  m ← gets m_in;
  w ← gets fwho;
  su ← (if (w =? MM_PROC_NR) && nz (Z.ldiff (u16 (fm_i1 m)) BYTE) then
          set_m (fun m => m <| fm_i1 := Z.land (fm_i1 m) FD_MASK |>);;
          mret (Z.land (Z.shiftr (fm_i1 m) 6) 3, Z.land (Z.shiftr (fm_i1 m) 8) BYTE)
        else mret (SEG_D, w));
  let '(seg, usr) := su in
  m ← gets m_in;
  if fm_i2 m <? 0 then mret EINVAL else
  o ← get_filp (fm_i1 m);
  match o with
  | None => gets err_code
  | Some f =>
      fl ← gets (FILP f);
      if negb (tst (filp_mode fl) (if rw_flag =? READING then R_BIT else W_BIT)) then mret EBADF else
      if fm_i2 m =? 0 then mret 0 else
      let position := filp_pos fl in
      if (position <? 0) || (MAX_FILE_POS <? position) then mret EINVAL else
      rip ← deref (filp_ino fl);
      r ← gets (INO rip);
      let mode_word := Z.land (i_mode r) I_TYPE in
      let block_spec := mode_word =? I_BLOCK_SPECIAL in
      let f_size := if block_spec && (i_size r =? 0) then MAX_P_LONG else i_size r in
      modify (fun s => s <| rdwt_err := OK |>);;
      t ← (if mode_word =? I_CHAR_SPECIAL then
             a ← dev_io rw_flag (Z.land (filp_flags fl) O_NONBLOCK) (i_zone r !!! 0%nat) position (fm_i2 m) w (UserBuf (fm_p1 m));
             let r := rep_status a in
             mret (inr (if 0 <=? r then (OK, r, s32 (position + r)) else (r, 0, position)))
           else rw_blocks rip f rw_flag seg usr block_spec f_size position);
      match t with
      | inl r => mret r
      | inr (r, cum_io, position) => rw_finish rip f rw_flag mode_word f_size r cum_io position
      end
  end.

Definition do_read : FS Z := read_write READING.
Definition do_write : FS Z := read_write WRITING.
End file.
