(* ===== verification/FsOpen.v ===== *)
(** * Creating, opening and closing: [src/fs/open.c], [do_sync] of [misc.c],
    [do_pipe] of [pipe.c] *)

From S2P Require Import Prelude KProc FsState FsDev FsCache FsSuper FsMap FsInode FsPath FsFile.

Definition S_IRWXU : Z := 448.

Section open.
Context {X : Type} `{!World X} `{!Layout}.
Notation FS := (M (fst_ X)).

(** ** [do_sync] *)
Fixpoint sync_inodes (n i : nat) : FS unit :=
  match n with
  | O => mret tt
  | S n' =>
      r ← gets (INO i);
      when ((0 <? i_count r) && i_dirt r) (rw_inode i WRITING);;
      sync_inodes n' (S i)
  end.
Fixpoint sync_supers (n i : nat) : FS unit :=
  match n with
  | O => mret tt
  | S n' =>
      v ← gets (SB i);
      when (negb (s_dev v =? NO_DEV) && s_dirt v) (rw_super i WRITING);;
      sync_supers n' (S i)
  end.
Fixpoint sync_bufs (n i : nat) : FS unit :=
  match n with
  | O => mret tt
  | S n' =>
      b ← gets (B i);
      when (negb (b_dev b =? NO_DEV) && b_dirt b) (flushall (b_dev b));;
      sync_bufs n' (S i)
  end.

Definition do_sync : FS Z :=
  r ← gets root_dev;
  sp ← get_super r;
  t ← clock_time;
  upd_super sp (fun v => v <| s_time := t |>);;
  v ← gets (SB sp);
  when (s_rd_only v =? 0) (upd_super sp (fun v => v <| s_dirt := true |>));;
  sync_inodes NR_INODES 0;;
  sync_supers NR_SUPERS 0;;
  sync_bufs NR_BUFS 0;;
  mret OK.

(** ** [new_node] *)
Definition new_node (bits z0 lsize : Z) : FS (option nat) :=
  ls ← last_dir;
  let '(d, string) := ls in
  match d with
  | None => mret None
  | Some d =>
      o ← advance (Some d) string;
      e ← gets err_code;
      match o with
      | None =>
          if e =? ENOENT then
            dev ← gets (fun s => i_dev (INO d s));
            o ← alloc_inode dev bits;
            match o with
            | None => put_inode (Some d);; mret None
            | Some rip =>
                upd_ino rip (fun r => r <| i_nlinks ::= fun n => u8 (n + 1) |> <| i_zone ::= <[0%nat := z0]> |> <| i_size := lsize |>);;
                rw_inode rip WRITING;;
                num ← gets (fun s => i_num (INO rip s));
                rn ← search_dir d string num ENTER;
                if negb (fst rn =? OK) then
                  put_inode (Some d);;
                  upd_ino rip (fun r => r <| i_nlinks ::= fun n => u8 (n - 1) |> <| i_dirt := true |>);;
                  put_inode (Some rip);;
                  set_err (fst rn);;
                  mret None
                else
                  put_inode (Some d);;
                  set_err (fst rn);;
                  mret (Some rip)
            end
          else
            put_inode (Some d);;
            set_err e;;
            mret None
      | Some rip =>
          put_inode (Some d);;
          set_err EEXIST;;
          mret (Some rip)
      end
  end.

(** ** [common_open] *)
Definition mode_map (i : Z) : Z := match i with 0 => R_BIT | 1 => W_BIT | 2 => Z.lor R_BIT W_BIT | _ => 0 end.

Definition pipe_open (rip : nat) (bits oflags : Z) : FS Z :=
  o ← find_filp rip (if tst bits W_BIT then R_BIT else W_BIT);
  n ← gets susp_count;
  match o with
  | None =>
      if tst oflags O_NONBLOCK then mret (if tst bits W_BIT then ENXIO else OK)
      else
        suspend XOPEN;;
        upd_ino rip (fun r => r <| i_pipe := true |>);;
        mret OK
  | Some _ =>
      when (0 <? n)
        (release rip FS_OPEN n;;
         n ← gets susp_count;
         release rip FS_CREAT n);;
      upd_ino rip (fun r => r <| i_pipe := true |>);;
      mret OK
  end.

(** Opening what is there. *)
Definition open_existing (rip : nat) (bits oflags : Z) : FS Z :=
  r ← forbidden rip bits false;
  if negb (r =? OK) then mret r else
  m ← gets (fun s => Z.land (i_mode (INO rip s)) I_TYPE);
  if m =? I_REGULAR then
    when (tst oflags O_TRUNC) (truncate rip;; wipe_inode rip);;
    mret OK
  else if m =? I_DIRECTORY then mret (if tst bits W_BIT then EISDIR else OK)
  else if (m =? I_CHAR_SPECIAL) || (m =? I_BLOCK_SPECIAL) then dev_open rip bits (Z.land oflags O_NONBLOCK)
  else if m =? I_NAMED_PIPE then pipe_open rip bits oflags
  else mret OK.

(** Claiming the descriptor, or releasing the inode. *)
Definition claim_fd (r : Z) (rip : option nat) (fil_ptr : nat) (oflags : Z) : FS Z :=
  if negb (r =? OK) then put_inode rip;; mret r else
  k ← gets (fun s => fm_i1 (m_in s));
  upd_fp (fun p => p <| fp_filp ::= <[Z.to_nat k := Some fil_ptr]> |>);;
  upd_filp fil_ptr (fun f => f <| filp_count := 1 |> <| filp_ino := rip |> <| filp_flags := oflags |>);;
  mret k.

Definition common_open (oflags omode : Z) : FS Z :=
  let bits := mode_map (Z.land oflags O_ACCMODE) in
  g ← get_fd 0 bits;
  let '(r, k, fil_ptr) := g in
  set_m (fun m => m <| fm_i1 := k |>);;
  if negb (r =? OK) then mret r else
  if tst oflags O_CREAT then
    p ← gets FPC;
    rip ← new_node (Z.lor I_REGULAR (Z.land (Z.land omode ALL_MODES) (fp_umask p))) NO_ZONE 0;
    r ← gets err_code;
    if r =? OK then claim_fd OK rip fil_ptr oflags
    else if negb (r =? EEXIST) then mret r
    else if tst oflags O_EXCL then claim_fd r rip fil_ptr oflags
    else
      i ← deref rip;
      r ← open_existing i bits oflags;
      claim_fd r rip fil_ptr oflags
  else
    rip ← eat_path;
    match rip with
    | None => gets err_code
    | Some i =>
        r ← open_existing i bits oflags;
        claim_fd r rip fil_ptr oflags
    end.

(** ** The calls *)
Definition do_creat : FS Z :=
  m ← gets m_in;
  r ← fetch_name (fm_p1 m) (fm_i1 m) M3;
  if negb (r =? OK) then gets err_code else
  common_open (Z.lor (Z.lor O_WRONLY O_CREAT) O_TRUNC) (u16 (fm_i2 m)).

Definition do_mknod : FS Z :=
  su ← gets super_user;
  m ← gets m_in;
  if negb su && negb (Z.land (u16 (fm_i2 m)) I_TYPE =? I_NAMED_PIPE) then mret EPERM else
  r ← fetch_name (fm_p1 m) (fm_i1 m) M1;
  if negb (r =? OK) then gets err_code else
  p ← gets FPC;
  let mode := u16 (fm_i2 m) in
  let bits := Z.lor (Z.land mode I_TYPE) (Z.land (Z.land mode ALL_MODES) (fp_umask p)) in
  let size := u16 (fm_p2 m) in
  rip ← new_node bits (u16 (fm_i3 m)) (missing_arg (size * BLOCK_SIZE));
  put_inode rip;;
  gets err_code.

Definition do_open : FS Z :=
  m ← gets m_in;
  let create := tst (u16 (fm_i2 m)) O_CREAT in
  r ← fetch_name (fm_p1 m) (fm_i1 m) (if create then M1 else M3);
  if negb (r =? OK) then gets err_code else
  common_open (fm_i2 m) (if create then u16 (fm_i3 m) else 0).

Definition do_close : FS Z :=
  k ← gets (fun s => fm_i1 (m_in s));
  o ← get_filp k;
  match o with
  | None => gets err_code
  | Some rfilp =>
      rip ← gets (fun s => filp_ino (FILP rfilp s));
      rip ← deref rip;
      mode_word ← gets (fun s => Z.land (i_mode (INO rip s)) I_TYPE);
      when ((mode_word =? I_CHAR_SPECIAL) || (mode_word =? I_BLOCK_SPECIAL))
        (when (mode_word =? I_BLOCK_SPECIAL)
           (do_sync;;
            m ← mounted rip;
            dev ← gets (fun s => i_zone (INO rip s) !!! 0%nat);
            when (negb m) (invalidate dev));;
         n ← gets (fun s => filp_count (FILP rfilp s));
         when (n =? 1) (dev_close rip));;
      pipe ← gets (fun s => i_pipe (INO rip s));
      m ← gets (fun s => filp_mode (FILP rfilp s));
      when pipe (release rip (if tst m R_BIT then FS_WRITE else FS_READ) (Z.of_nat FPROCS));;
      upd_filp rfilp (fun f => f <| filp_count ::= fun c => s16 (c - 1) |>);;
      n ← gets (fun s => filp_count (FILP rfilp s));
      when (n =? 0) (put_inode (Some rip));;
      upd_fp (fun p => p <| fp_filp ::= <[Z.to_nat k := None]> |>);;
      mret OK
  end.

Definition do_lseek : FS Z :=
  m ← gets m_in;
  o ← get_filp (fm_i1 m);
  match o with
  | None => gets err_code
  | Some rfilp =>
      f ← gets (FILP rfilp);
      rip ← deref (filp_ino f);
      r ← gets (INO rip);
      if i_pipe r then mret ESPIPE else
      match (match fm_i2 m with
             | 0 => Some (fm_l1 m)
             | 1 => Some (s32 (filp_pos f + fm_l1 m))
             | 2 => Some (s32 (i_size r + fm_l1 m))
             | _ => None
             end) with
      | None => mret EINVAL
      | Some pos =>
          if (pos <? 0) || (MAX_FILE_POS <? pos) then mret EINVAL else
          when (negb (pos =? filp_pos f)) (upd_ino rip (fun r => r <| i_seek := true |>));;
          upd_filp rfilp (fun f => f <| filp_pos := pos |>);;
          modify (fun s => s <| reply_words := [pos] |>);;
          mret OK
      end
  end.

Definition do_mkdir : FS Z :=
  m ← gets m_in;
  r ← fetch_name (fm_p1 m) (fm_i1 m) M1;
  if negb (r =? OK) then gets err_code else
  p ← gets FPC;
  let bits := Z.lor I_DIRECTORY (Z.land (Z.land (u16 (fm_i2 m)) RWX_MODES) (fp_umask p)) in
  o ← new_node bits 0 0;
  e ← gets err_code;
  match o with
  | None => mret e
  | Some rip =>
      if e =? EEXIST then put_inode (Some rip);; gets err_code else
      ls ← last_dir;
      let '(l, string) := ls in
      ldirp ← deref l;
      dotdot ← gets (fun s => i_num (INO ldirp s));
      dot ← gets (fun s => i_num (INO rip s));
      upd_ino rip (fun r => r <| i_mode ::= fun m => Z.lor m S_IRWXU |>);;
      r1 ← search_dir rip dot1 dot ENTER;
      r2 ← search_dir rip dot2 dotdot ENTER;
      upd_ino rip (fun r => r <| i_mode := bits |>);;
      (if (fst r1 =? OK) && (fst r2 =? OK) then
         upd_ino rip (fun r => r <| i_nlinks ::= fun n => u8 (n + 1) |>);;
         upd_ino ldirp (fun r => r <| i_nlinks ::= fun n => u8 (n + 1) |> <| i_dirt := true |>)
       else
         search_dir rip dot1 0 DELETE;;
         search_dir rip dot2 0 DELETE;;
         search_dir ldirp string 0 DELETE;;
         upd_ino rip (fun r => r <| i_nlinks ::= fun n => u8 (n - 1) |>));;
      dirty_ino rip;;
      put_inode (Some ldirp);;
      put_inode (Some rip);;
      gets err_code
  end.

(** ** [do_pipe] *)
Definition do_pipe : FS Z :=
  g ← get_fd 0 R_BIT;
  let '(r, k0, f0) := g in
  if negb (r =? OK) then mret r else
  upd_fp (fun p => p <| fp_filp ::= <[Z.to_nat k0 := Some f0]> |>);;
  upd_filp f0 (fun f => f <| filp_count := 1 |>);;
  g ← get_fd 0 W_BIT;
  let '(r, k1, f1) := g in
  if negb (r =? OK) then
    upd_fp (fun p => p <| fp_filp ::= <[Z.to_nat k0 := None]> |>);;
    upd_filp f0 (fun f => f <| filp_count := 0 |>);;
    mret r
  else
    upd_fp (fun p => p <| fp_filp ::= <[Z.to_nat k1 := Some f1]> |>);;
    upd_filp f1 (fun f => f <| filp_count := 1 |>);;
    p ← gets FPC;
    wd ← deref (fp_workdir p);
    device ← gets (fun s => i_dev (INO wd s));
    o ← alloc_inode device I_REGULAR;
    match o with
    | None =>
        upd_fp (fun p => p <| fp_filp ::= <[Z.to_nat k0 := None]> |>);;
        upd_filp f0 (fun f => f <| filp_count := 0 |>);;
        upd_fp (fun p => p <| fp_filp ::= <[Z.to_nat k1 := None]> |>);;
        upd_filp f1 (fun f => f <| filp_count := 0 |>);;
        gets err_code
    | Some rip =>
        upd_ino rip (fun r => r <| i_pipe := true |>);;
        upd_filp f0 (fun f => f <| filp_ino := Some rip |>);;
        dup_inode rip;;
        upd_filp f1 (fun f => f <| filp_ino := Some rip |>);;
        rw_inode rip WRITING;;
        modify (fun s => s <| reply_words := [k0; k1] |>);;
        mret OK
    end.
End open.
