(* ===== verification/FsLink.v ===== *)
(** * Links: [do_link], [do_unlink] (also RMDIR) and [do_rename] of
    [src/fs/link.c] *)

From S2P Require Import Prelude KProc FsState FsDev FsCache FsSuper FsMap FsInode FsPath FsFile FsOpen.

Definition SAME : Z := 1000.

Section link.
Context {X : Type} `{!World X} `{!Layout}.
Notation FS := (M (fst_ X)).

Definition is_dir (i : nat) (s : fst_ X) : bool := Z.land (i_mode (INO i s)) I_TYPE =? I_DIRECTORY.
Definition add_links (i : nat) (d : Z) : FS unit := upd_ino i (fun r => r <| i_nlinks ::= fun n => u8 (n + d) |>).
Definition first_error (l : list (bool * Z)) (r : Z) : Z := foldl (fun (r : Z) (c : bool * Z) => if fst c then snd c else r) r l.

Definition do_link : FS Z :=
  m ← gets m_in;
  r ← fetch_name (fm_p1 m) (fm_i1 m) M1;
  if negb (r =? OK) then gets err_code else
  rip ← eat_path;
  match rip with
  | None => gets err_code
  | Some rip =>
      r ← gets (INO rip);
      su ← gets super_user;
      let e := if Z.land (i_nlinks r) BYTE =? LINK_MAX then EMLINK else OK in
      d ← gets (is_dir rip);
      let e := if (e =? OK) && d && negb su then EPERM else e in
      if negb (e =? OK) then put_inode (Some rip);; mret e else
      r ← fetch_name (fm_p2 m) (fm_i2 m) M1;
      if negb (r =? OK) then put_inode (Some rip);; gets err_code else
      ls ← last_dir;
      let '(ip, string) := ls in
      r ← match ip with
          | None => gets err_code
          | Some i =>
              new_ip ← advance (Some i) string;
              r ← match new_ip with
                  | None => e ← gets err_code; mret (if e =? ENOENT then OK else e)
                  | Some _ => put_inode new_ip;; mret EEXIST
                  end;
              if negb (r =? OK) then mret r else
              same ← gets (fun s => i_dev (INO rip s) =? i_dev (INO i s));
              if negb same then mret EXDEV else
              num ← gets (fun s => i_num (INO rip s));
              rn ← search_dir i string num ENTER;
              mret (fst rn)
          end;
      when (r =? OK) (add_links rip 1;; dirty_ino rip);;
      put_inode (Some rip);;
      put_inode ip;;
      mret r
  end.

(** The five conditions of RMDIR; the last one that fails counts. *)
Definition rmdir_check (rip : nat) (string : list Z) : FS Z :=
  d ← gets (is_dir rip);
  e ← search_dir rip [0] 0 LOOK_UP;
  up ← gets user_path;
  busy ← gets (fun s => existsb (fun p => bool_decide (fp_workdir p = Some rip) || bool_decide (fp_rootdir p = Some rip)) (drop 3 (fprocs s)));
  mret (first_error [(negb d, ENOTDIR); (fst e =? OK, ENOTEMPTY); (strcmp_eq up [SLASH], EPERM);
    (strcmp_eq string [DOT] || strcmp_eq string [DOT; DOT], EPERM); (busy : bool, EBUSY)] OK).

(** Removing "." and ".." from a directory that goes away. *)
Definition rmdir_dots (rip rldirp : nat) (old_mode old_uid : Z) : FS Z :=
  p ← gets FPC;
  upd_ino rip (fun r => r <| i_mode ::= fun m => Z.lor m S_IRWXU |> <| i_uid := fp_effuid p |>);;
  r ← search_dir rip dot1 0 DELETE;
  when (fst r =? OK) (add_links rip (-1));;
  r1 ← search_dir rip dot2 0 DELETE;
  when (fst r1 =? OK) (add_links rldirp (-1));;
  dirty_ino rip;;
  dirty_ino rldirp;;
  upd_ino rip (fun r => r <| i_mode := old_mode |> <| i_uid := old_uid |>);;
  mret (if negb (fst r1 =? OK) then fst r1 else fst r).

Definition do_unlink : FS Z :=
  m ← gets m_in;
  r ← fetch_name (fm_p1 m) (fm_i1 m) M3;
  if negb (r =? OK) then gets err_code else
  ls ← last_dir;
  let '(l, string) := ls in
  match l with
  | None => gets err_code
  | Some rldirp =>
      rip ← advance (Some rldirp) string;
      match rip with
      | None => e ← gets err_code; put_inode (Some rldirp);; mret e
      | Some rip =>
          old ← gets (INO rip);
          call ← gets fs_call;
          su ← gets super_user;
          r ← (if call =? UNLINK then
                 d ← gets (is_dir rip);
                 if d && negb su then mret EPERM else
                 rn ← search_dir rldirp string 0 DELETE;
                 mret (fst rn)
               else
                 r ← rmdir_check rip string;
                 if negb (r =? OK) then mret r else
                 rn ← search_dir rldirp string 0 DELETE;
                 if negb (fst rn =? OK) then mret (fst rn) else
                 rmdir_dots rip rldirp (i_mode old) (i_uid old));
          when (r =? OK) (add_links rip (-1);; dirty_ino rip);;
          upd_ino rip (fun r => r <| i_mode := i_mode old |>);;
          put_inode (Some rip);;
          put_inode (Some rldirp);;
          mret r
      end
  end.

(** The checks of [do_rename] once both paths are known: the last that fails
    counts. *)
Definition rename_check (old_dirp old_ip new_dirp : nat) (new_ip : option nat) (old_name user_path : list Z) : FS Z :=
  devs ← gets (fun s => (i_dev (INO old_dirp s), i_dev (INO new_dirp s)));
  f1 ← forbidden old_dirp (Z.lor W_BIT X_BIT) false;
  f2 ← forbidden new_dirp (Z.lor W_BIT X_BIT) false;
  odir ← gets (is_dir old_ip);
  let r := first_error
    [(strneq (length (cstr old_name)) old_name user_path, EINVAL);
     (strcmp_eq old_name [DOT] || strcmp_eq old_name [DOT; DOT], EINVAL);
     (negb (fst devs =? snd devs), EXDEV); (nz f1, EACCES); (nz f2, EACCES)] OK in
  match new_ip with
  | None => mret r
  | Some new_ip =>
      ndir ← gets (is_dir new_ip);
      same ← gets (fun s => i_num (INO old_ip s) =? i_num (INO new_ip s));
      let r := first_error [(odir && negb ndir, ENOTDIR); (negb odir && ndir, EISDIR); (same, SAME)] r in
      if negb ndir then mret r else
      e ← search_dir new_ip [0] 0 LOOK_UP;
      mret (if fst e =? OK then ENOTEMPTY else r)
  end.

Definition do_rename_entries (old_dirp old_ip new_dirp : nat) (new_ip : option nat) (old_string string : list Z) : FS Z :=
  odir ← gets (is_dir old_ip);
  numb ← gets (fun s => i_num (INO old_ip s));
  r ← match new_ip with
      | None =>
          rn ← search_dir new_dirp string numb ENTER;
          when ((fst rn =? OK) && odir) (add_links new_dirp 1;; dirty_ino new_dirp);;
          mret (fst rn)
      | Some new_ip =>
          search_dir new_dirp string 0 DELETE;;
          search_dir new_dirp string numb ENTER;;
          add_links new_ip (-1);;
          dirty_ino new_ip;;
          when odir (add_links new_ip (-1));;
          mret OK
      end;
  when (r =? OK)
    (when odir
       (add_links old_dirp (-1);;
        dirty_ino old_dirp;;
        numb ← gets (fun s => i_num (INO new_dirp s));
        search_dir old_ip dot2 0 DELETE;;
        search_dir old_ip dot2 numb ENTER;;
        mret tt);;
     search_dir old_dirp old_string 0 DELETE;;
     upd_ino old_dirp (fun r => r <| i_update := Z.lor CTIME MTIME |>);;
     upd_ino new_dirp (fun r => r <| i_update := Z.lor CTIME MTIME |>));;
  mret r.

Definition do_rename : FS Z :=
  m ← gets m_in;
  r ← fetch_name (fm_p1 m) (fm_i1 m) M1;
  if negb (r =? OK) then gets err_code else
  ls ← last_dir;
  let '(l, old_string) := ls in
  match l with
  | None => gets err_code
  | Some old_dirp =>
      old_ip ← advance (Some old_dirp) old_string;
      e ← gets err_code;
      let r := match old_ip with None => e | Some _ => OK end in
      old_name ← gets user_path;
      e ← fetch_name (fm_p2 m) (fm_i2 m) M1;
      ec ← gets err_code;
      let r := if negb (e =? OK) then ec else r in
      ls ← last_dir;
      let '(new_dirp, string) := ls in
      ec ← gets err_code;
      let r := match new_dirp with None => ec | Some _ => r end in
      new_ip ← advance new_dirp string;
      r ← match old_ip, new_dirp with
          | Some o, Some d =>
              if negb (r =? OK) then mret r else
              up ← gets user_path;
              r ← rename_check old_dirp o d new_ip old_name up;
              if negb (r =? OK) then mret r else
              do_rename_entries old_dirp o d new_ip old_string string
          | _, _ => mret r
          end;
      put_inode (Some old_dirp);;
      put_inode old_ip;;
      put_inode new_dirp;;
      put_inode new_ip;;
      mret (if r =? SAME then OK else r)
  end.
End link.
