(* ===== verification/FsCalls.v ===== *)
(** * The other calls: [src/fs/protect.c], [misc.c], [mount.c], [stadir.c],
    [time.c], [do_ioctl] of [device.c] *)

From S2P Require Import Prelude KProc FsState FsDev FsCache FsSuper FsMap FsInode FsPath FsFile FsOpen FsLink.

Definition SETUID : Z := 23.
Definition SETGID : Z := 46.
Definition DUP_MASK : Z := 64.
Definition F_DUPFD : Z := 0.
Definition F_GETFL : Z := 3.
Definition F_SETFL : Z := 4.
Definition INIT_PROC_NR : Z := 2.

Section calls.
Context {X : Type} `{!World X} `{!Layout}.
Notation FS := (M (fst_ X)).

(** A path argument, opened: the rest of the call gets the inode. *)
Definition with_path (path len flag : Z) (k : nat -> FS Z) : FS Z :=
  r ← fetch_name path len flag;
  if negb (r =? OK) then gets err_code else
  rip ← eat_path;
  match rip with
  | None => gets err_code
  | Some rip => k rip
  end.

(** ** [protect.c] *)
Definition do_chmod : FS Z :=
  m ← gets m_in;
  with_path (fm_p1 m) (fm_i1 m) M3 (fun rip =>
    r ← gets (INO rip);
    p ← gets FPC;
    su ← gets super_user;
    e ← (if negb (i_uid r =? fp_effuid p) && negb su then mret EPERM else read_only rip);
    if negb (e =? OK) then put_inode (Some rip);; mret e else
    upd_ino rip (fun r => r <| i_mode ::= fun o => Z.lor (Z.ldiff o ALL_MODES) (Z.land (u16 (fm_i2 m)) ALL_MODES) |> <| i_dirt := true |>);;
    put_inode (Some rip);;
    mret OK).

Definition do_chown : FS Z :=
  su ← gets super_user;
  if negb su then mret EPERM else
  m ← gets m_in;
  with_path (fm_p1 m) (fm_i1 m) M1 (fun rip =>
    r ← read_only rip;
    when (r =? OK) (upd_ino rip (fun r => r <| i_uid := u16 (fm_i2 m) |> <| i_gid := u8 (fm_i3 m) |> <| i_dirt := true |>));;
    put_inode (Some rip);;
    mret r).

Definition do_umask : FS Z :=
  p ← gets FPC;
  m ← gets m_in;
  upd_fp (fun p => p <| fp_umask := u16 (Z.lnot (Z.land (u16 (fm_i1 m)) RWX_MODES)) |>);;
  mret (s16 (Z.lnot (fp_umask p))).

Definition do_access : FS Z :=
  m ← gets m_in;
  with_path (fm_p1 m) (fm_i1 m) M3 (fun rip =>
    r ← forbidden rip (u16 (fm_i2 m)) true;
    put_inode (Some rip);;
    mret r).

(** ** [misc.c] *)
Definition do_dup : FS Z :=
  m ← gets m_in;
  let rfd := s16 (Z.ldiff (u16 (fm_i1 m)) DUP_MASK) in
  o ← get_filp rfd;
  match o with
  | None => gets err_code
  | Some f =>
      let share (fd2 : Z) : FS Z :=
        upd_filp f (fun f => f <| filp_count ::= fun c => s16 (c + 1) |>);;
        upd_fp (fun p => p <| fp_filp ::= <[Z.to_nat fd2 := Some f]> |>);;
        mret fd2 in
      if fm_i1 m =? rfd then
        g ← get_fd 0 0;
        let '(r, k, _) := g in
        set_m (fun m => m <| fm_i2 := k |>);;
        if negb (r =? OK) then mret r else share k
      else if (fm_i2 m <? 0) || (OPEN_MAX <=? fm_i2 m) then mret EBADF
      else if rfd =? fm_i2 m then mret (fm_i2 m)
      else
        set_m (fun m => m <| fm_i1 := fm_i2 m |>);;
        do_close;;
        share (fm_i2 m)
  end.

Definition do_fcntl : FS Z :=
  m ← gets m_in;
  o ← get_filp (fm_i1 m);
  match o with
  | None => gets err_code
  | Some f =>
      if fm_i2 m =? F_DUPFD then
        if (fm_i3 m <? 0) || (OPEN_MAX <=? fm_i3 m) then mret EINVAL else
        g ← get_fd (fm_i3 m) 0;
        let '(r, k, _) := g in
        if negb (r =? OK) then mret r else
        upd_filp f (fun f => f <| filp_count ::= fun c => s16 (c + 1) |>);;
        upd_fp (fun p => p <| fp_filp ::= <[Z.to_nat k := Some f]> |>);;
        mret k
      else if fm_i2 m =? F_GETFL then gets (fun s => filp_flags (FILP f s))
      else if fm_i2 m =? F_SETFL then
        let fl := Z.lor O_NONBLOCK O_APPEND in
        upd_filp f (fun f => f <| filp_flags ::= fun o => s16 (Z.lor (Z.ldiff o fl) (Z.land (fm_i3 m) fl)) |>);;
        mret OK
      else mret EINVAL
  end.

Fixpoint share_filps (l : list (option nat)) : FS unit :=
  match l with
  | [] => mret tt
  | o :: l' =>
      match o with
      | Some f => upd_filp f (fun f => f <| filp_count ::= fun c => s16 (c + 1) |>)
      | None => mret tt
      end;;
      share_filps l'
  end.

Definition do_fork : FS Z :=
  w ← gets fwho;
  if negb (w =? MM_PROC_NR) then mret ERROR else
  m ← gets m_in;
  let parent := fm_i1 m in
  let child := Z.to_nat (fm_i2 m) in
  p ← gets (FP (Z.to_nat parent));
  upd_fproc child (fun _ => p);;
  share_filps (fp_filp p);;
  upd_fproc child (fun c => c <| fp_pid := fm_i3 m |>);;
  when (parent =? INIT_PROC_NR) (upd_fproc child (fun c => c <| fp_pgrp := fm_i3 m |>));;
  r ← deref (fp_rootdir p);
  dup_inode r;;
  wd ← deref (fp_workdir p);
  dup_inode wd;;
  mret OK.

Fixpoint close_all (n : nat) (i : Z) : FS unit :=
  match n with
  | O => mret tt
  | S n' =>
      set_m (fun m => m <| fm_i1 := i |>);;
      do_close;;
      close_all n' (i + 1)
  end.

Definition do_exit : FS Z :=
  w ← gets fwho;
  if negb (w =? MM_PROC_NR) then mret ERROR else
  exitee ← gets (fun s => fm_i1 (m_in s));
  modify (fun s => s <| fp := Z.to_nat exitee |>);;
  p ← gets FPC;
  when ((fp_pid p =? fp_pgrp p) && negb (fs_tty p =? 0)) (tty_exit;; mret tt);;
  p ← gets FPC;
  when (fp_suspended p)
    (let task := - fp_task p in
     when ((task =? XPIPE) || (task =? XOPEN)) (modify (fun s => s <| susp_count ::= fun n => s16 (n - 1) |>));;
     set_m (fun m => m <| fm_i1 := exitee |>);;
     do_unpause;;
     upd_fp (fun p => p <| fp_suspended := false |>));;
  close_all (Z.to_nat OPEN_MAX) 0;;
  p ← gets FPC;
  put_inode (fp_rootdir p);;
  p ← gets FPC;
  put_inode (fp_workdir p);;
  upd_fp (fun p => p <| fp_rootdir := None |> <| fp_workdir := None |>);;
  mret OK.

Definition do_set : FS Z :=
  w ← gets fwho;
  if negb (w =? MM_PROC_NR) then mret ERROR else
  m ← gets m_in;
  call ← gets fs_call;
  let i := Z.to_nat (fm_i1 m) in
  when (call =? SETUID) (upd_fproc i (fun p => p <| fp_realuid := u16 (fm_i2 m) |> <| fp_effuid := u16 (fm_i3 m) |>));;
  when (call =? SETGID) (upd_fproc i (fun p => p <| fp_effgid := u8 (fm_i3 m) |> <| fp_realgid := u8 (fm_i2 m) |>));;
  mret OK.

Definition do_revive : FS Z :=
  w ← gets fwho;
  if 0 <? w then mret EPERM else
  m ← gets m_in;
  revive (fm_i1 m) (fm_i2 m);;
  modify (fun s => s <| fdont_reply := true |>);;
  mret OK.

(** ** [mount.c] *)
Definition name_to_dev : FS Z :=
  rip ← eat_path;
  match rip with
  | None => mret NO_DEV
  | Some rip =>
      r ← gets (INO rip);
      if negb (Z.land (i_mode r) I_TYPE =? I_BLOCK_SPECIAL) then
        set_err ENOTBLK;;
        put_inode (Some rip);;
        mret NO_DEV
      else
        put_inode (Some rip);;
        mret (i_zone r !!! 0%nat)
  end.

Definition super_ok (v : super_block) : bool :=
  (s_magic v =? SUPER_MAGIC) && (1 <=? s_ninodes v) && (1 <=? s_nzones v) && (1 <=? s_imap_blocks v) && (1 <=? s_zmap_blocks v).

(** Mounting once the super block is there and the mount point is open. *)
Definition mount_on (sp rip : nat) (dev rd_only : Z) : FS Z :=
  r ← gets (INO rip);
  let bits := Z.land (i_mode r) I_TYPE in
  let e := if 1 <? i_count r then EBUSY else OK in
  let e := if (bits =? I_BLOCK_SPECIAL) || (bits =? I_CHAR_SPECIAL) then ENOTDIR else e in
  root_ip ← (if e =? OK then get_inode dev ROOT_INODE else mret None);
  ec ← gets err_code;
  let e := match root_ip with None => if e =? OK then ec else e | Some _ => e end in
  empty ← match root_ip with Some i => gets (fun s => i_mode (INO i s) =? 0) | None => mret false end;
  let e := if empty : bool then EINVAL else e in
  let loaded := e =? OK in
  e ← (if loaded then l ← load_bit_maps dev; mret (if negb (l =? OK) then ENFILE else OK) else mret e);
  dirs ← match root_ip with
         | Some i => gets (fun s => is_dir rip s && negb (is_dir i s))
         | None => mret false
         end;
  let e := if (e =? OK) && dirs then ENOTDIR else e in
  if negb (e =? OK) then
    put_inode (Some rip);;
    put_inode root_ip;;
    when loaded (unload_bit_maps dev;; mret tt);;
    do_sync;;
    invalidate dev;;
    upd_super sp (fun v => v <| s_dev := NO_DEV |>);;
    mret e
  else
    upd_ino rip (fun r => r <| i_mount := true |>);;
    upd_super sp (fun v => v <| s_imount := Some rip |> <| s_isup := root_ip |> <| s_rd_only := s8 rd_only |>);;
    mret OK.

Definition do_mount : FS Z :=
  su ← gets super_user;
  if negb su then mret EPERM else
  m ← gets m_in;
  r ← fetch_name (fm_p1 m) (fm_i1 m) M1;
  if negb (r =? OK) then gets err_code else
  dev ← name_to_dev;
  if dev =? NO_DEV then gets err_code else
  found ← gets (fun s => super_of_dev s dev);
  sp ← gets (fun s => last (filter (fun i => s_dev (SB i s) = NO_DEV) (seq 0 (length (supers s)))));
  match found, sp with
  | Some _, _ => mret EBUSY
  | None, None => mret ENFILE
  | None, Some sp =>
      let fail (e : Z) : FS Z := upd_super sp (fun v => v <| s_dev := NO_DEV |>);; mret e in
      upd_super sp (fun v => v <| s_dev := dev |>);;
      rw_super sp READING;;
      upd_super sp (fun v => v <| s_dev := dev |>);;
      v ← gets (SB sp);
      if negb (super_ok v) then fail EINVAL else
      r ← fetch_name (fm_p2 m) (fm_i2 m) M1;
      if negb (r =? OK) then e ← gets err_code; fail e else
      rip ← eat_path;
      match rip with
      | None => e ← gets err_code; fail e
      | Some rip => mount_on sp rip dev (fm_i3 m)
      end
  end.

Definition inode_users (s : fst_ X) (dev : Z) : Z :=
  s16 (foldr Z.add 0 (i_count <$> filter (fun r => 0 < i_count r /\ i_dev r = dev) (inodes s))).

Definition do_umount : FS Z :=
  su ← gets super_user;
  if negb su then mret EPERM else
  m ← gets m_in;
  r ← fetch_name (fm_p1 m) (fm_i1 m) M3;
  if negb (r =? OK) then gets err_code else
  dev ← name_to_dev;
  if dev =? NO_DEV then gets err_code else
  n ← gets (fun s => inode_users s dev);
  if 1 <? n then mret EBUSY else
  sp ← gets (fun s => super_of_dev s dev);
  match sp with Some _ => unload_bit_maps dev;; mret tt | None => mret tt end;;
  do_sync;;
  invalidate dev;;
  match sp with
  | None => mret EINVAL
  | Some sp =>
      v ← gets (SB sp);
      i ← deref (s_imount v);
      upd_ino i (fun r => r <| i_mount := false |>);;
      put_inode (s_imount v);;
      put_inode (s_isup v);;
      upd_super sp (fun v => v <| s_imount := None |> <| s_dev := NO_DEV |>);;
      mret OK
  end.

(** ** [stadir.c] *)
Definition change (get : fproc -> option nat) (put : option nat -> fproc -> fproc) : FS Z :=
  m ← gets m_in;
  with_path (fm_p1 m) (fm_i1 m) M3 (fun rip =>
    d ← gets (is_dir rip);
    r ← (if negb d then mret ENOTDIR else forbidden rip X_BIT false);
    if negb (r =? OK) then put_inode (Some rip);; mret r else
    p ← gets FPC;
    put_inode (get p);;
    upd_fp (put (Some rip));;
    mret OK).
Definition put_workdir (o : option nat) (p : fproc) : fproc := p <| fp_workdir := o |>.
Definition put_rootdir (o : option nat) (p : fproc) : fproc := p <| fp_rootdir := o |>.

Definition do_chdir : FS Z :=
  w ← gets fwho;
  if w =? MM_PROC_NR then
    m ← gets m_in;
    rfp ← gets (FP (Z.to_nat (fm_i1 m)));
    p ← gets FPC;
    put_inode (fp_workdir p);;
    let cd_flag := nz (fm_i2 m) in
    upd_fp (put_workdir (if cd_flag then fp_rootdir p else fp_workdir rfp));;
    p ← gets FPC;
    i ← deref (fp_workdir p);
    dup_inode i;;
    upd_fp (fun p => p <| fp_effuid := if cd_flag then SU_UID else fp_effuid rfp |>);;
    mret OK
  else change fp_workdir put_workdir.

Definition do_chroot : FS Z :=
  su ← gets super_user;
  if negb su then mret EPERM else change fp_rootdir put_rootdir.

(** [struct stat] as bytes. *)
Definition stat_bytes (r : inode) (size : Z) : list Z :=
  half_bytes (i_dev r) ++ half_bytes (i_num r) ++ half_bytes (i_mode r) ++ half_bytes (Z.land (i_nlinks r) BYTE) ++
  half_bytes (i_uid r) ++ half_bytes (Z.land (i_gid r) BYTE) ++ half_bytes (i_zone r !!! 0%nat) ++ long_bytes size ++
  long_bytes (i_atime r) ++ long_bytes (i_mtime r) ++ long_bytes (i_ctime r).

Definition stat_inode (rip : nat) (fil_ptr : option nat) (user_addr : Z) : FS Z :=
  u ← gets (fun s => i_update (INO rip s));
  when (nz u) (update_times rip);;
  r ← gets (INO rip);
  size ← match fil_ptr with
         | Some f => gets (fun s => if i_pipe r && (filp_mode (FILP f s) =? R_BIT) then s32 (i_size r - filp_pos (FILP f s)) else i_size r)
         | None => mret (i_size r)
         end;
  w ← gets fwho;
  to_user SEG_D w user_addr (stat_bytes r size).

Definition do_stat : FS Z :=
  m ← gets m_in;
  with_path (fm_p1 m) (fm_i1 m) M1 (fun rip =>
    r ← stat_inode rip None (fm_p2 m);
    put_inode (Some rip);;
    mret r).

Definition do_fstat : FS Z :=
  m ← gets m_in;
  o ← get_filp (fm_i1 m);
  match o with
  | None => gets err_code
  | Some f =>
      rip ← gets (fun s => filp_ino (FILP f s));
      rip ← deref rip;
      stat_inode rip (Some f) (fm_p1 m)
  end.

(** ** [time.c] *)
Definition do_utime : FS Z :=
  m ← gets m_in;
  with_path (fm_p1 m) (fm_i1 m) M1 (fun rip =>
    r ← gets (INO rip);
    p ← gets FPC;
    su ← gets super_user;
    let e := if negb (i_uid r =? fp_effuid p) && negb su then EPERM else OK in
    ro ← read_only rip;
    let e := if negb (ro =? OK) then EROFS else e in
    when (e =? OK) (upd_ino rip (fun r => r <| i_mtime := fm_l2 m |> <| i_dirt := true |>));;
    put_inode (Some rip);;
    mret e).

Definition do_time : FS Z :=
  t ← clock_time;
  modify (fun s => s <| reply_words := [t] |>);;
  mret OK.

Definition do_stime : FS Z :=
  su ← gets super_user;
  if negb su then mret EPERM else
  m ← gets m_in;
  a ← request (SetTime (fm_l1 m));
  if negb (an_ret a =? OK) then panic "do_stime error" else mret OK.

Definition do_tims : FS Z :=
  w ← gets fwho;
  a ← request (SysTimes w);
  modify (fun s => s <| reply_words := take 4 (an_words a) |>);;
  mret OK.

(** ** [do_ioctl]: the words that pass to the terminal are [m2_i3] (the
    request), [m2_l1] and [m2_l2]; the answer's first word is the reply's
    type, its words 4 and 5 the new values. *)
Definition TTY_IOCTL : Z := 5.
Definition do_ioctl : FS Z :=
  m ← gets m_in;
  o ← get_filp (fm_i1 m);
  match o with
  | None => gets err_code
  | Some f =>
      rip ← gets (fun s => filp_ino (FILP f s));
      rip ← deref rip;
      r ← gets (INO rip);
      if negb (Z.land (i_mode r) I_TYPE =? I_CHAR_SPECIAL) then mret ENOTTY else
      let dev := i_zone r !!! 0%nat in
      mt ← find_dev dev;
      let '(major, task) := mt in
      w ← gets fwho;
      a ← dmap_rw major task (mk_dmsg TTY_IOCTL (minor_of dev) w (fm_i3 m) (fm_l1 m) (fm_l2 m) NoBuf);
      when (an_words a !!! 0%nat =? SUSPEND) (suspend task);;
      modify (fun s => s <| reply_words := [an_words a !!! 4%nat; an_words a !!! 5%nat] |>);;
      mret (rep_status a)
  end.
End calls.
