(* ===== verification/FsMain.v ===== *)
(** * The main loop and start-up of the file system: [src/fs/main.c],
    [call_vector] of [table.c]

    On the Lisa the root file system is on the RAM disk that the boot block
    loaded, or on the ProFile; nothing is copied. A message from a task
    selects no entry of [fproc]: [fp] is then the first number past the
    table. *)

From S2P Require Import Prelude KProc FsState FsDev FsCache FsSuper FsMap FsInode FsPath FsFile FsOpen FsLink FsCalls.

Definition NCALLS : Z := 70.
Definition EBADCALL : Z := -102.
Definition MAX_RAM : Z := 16384.
Definition DEV_RAM : Z := 256.
Definition DEV_HD0 : Z := 768.
Definition RAM_DEV : Z := 0.
Definition CALL_BRK2 : Z := 66.
Definition DISK_IOCTL : Z := 5.
Definition SYS_GBOOT : Z := 12.
Definition SYSTASK : Z := -2.
Definition INFO : nat := 2.
Definition CLICKS_PER_BLOCK : Z := 4.

Section main.
Context {X : Type} `{!World X} `{!Layout}.
Notation FS := (M (fst_ X)).

Definition no_sys : FS Z := mret EINVAL.

Definition call_vector (n : Z) : FS Z :=
  match n with
  | 1 => do_exit
  | 2 => do_fork
  | 3 => do_read
  | 4 => do_write
  | 5 => do_open
  | 6 => do_close
  | 8 => do_creat
  | 9 => do_link
  | 10 => do_unlink
  | 12 => do_chdir
  | 13 => do_time
  | 14 => do_mknod
  | 15 => do_chmod
  | 16 => do_chown
  | 18 => do_stat
  | 19 => do_lseek
  | 21 => do_mount
  | 22 => do_umount
  | 23 => do_set
  | 25 => do_stime
  | 28 => do_fstat
  | 30 => do_utime
  | 33 => do_access
  | 36 => do_sync
  | 38 => do_rename
  | 39 => do_mkdir
  | 40 => do_unlink
  | 41 => do_dup
  | 42 => do_pipe
  | 43 => do_tims
  | 46 => do_set
  | 54 => do_ioctl
  | 55 => do_fcntl
  | 60 => do_umask
  | 61 => do_chroot
  | 65 => do_unpause
  | 67 => do_revive
  | _ => no_sys
  end.

(** ** [get_work] *)
Definition message_of (w : list Z) (ca1 : list Z) : fmsg :=
  mk_fmsg (w !!! 2%nat) (w !!! 3%nat) (w !!! 4%nat) (w !!! 5%nat) (w !!! 6%nat) (w !!! 7%nat) (w !!! 8%nat) ca1.

Definition get_work : FS unit :=
  n ← gets reviving;
  if negb (n =? 0) then
    o ← gets (fun s => find (fun i => fp_revived (FP i s)) (seq 0 FPROCS));
    match o with
    | None => panic "get_work couldn't revive anyone"
    | Some i =>
        rp ← gets (FP i);
        modify (fun s => s <| fwho := Z.of_nat i |> <| fs_call := Z.land (fp_fd rp) BYTE |>);;
        set_m (fun m => m <| fm_i1 := Z.land (Z.shiftr (fp_fd rp) 8) BYTE |> <| fm_p1 := fp_buffer rp |> <| fm_i2 := fp_nbytes rp |>);;
        upd_fproc i (fun p => p <| fp_suspended := false |> <| fp_revived := false |>);;
        modify (fun s => s <| reviving ::= fun n => s16 (n - 1) |>)
    end
  else
    a ← request (Receive ANY);
    if negb (an_ret a =? OK) then panic "fs receive error" else
    let w := an_words a in
    modify (fun s => s <| m_in := message_of w (an_data a !!! 0%nat) |> <| fwho := w !!! 0%nat |> <| fs_call := w !!! 1%nat |>).

(** ** One turn of the main loop *)
Definition main_step : FS unit :=
  get_work;;
  w ← gets fwho;
  modify (fun s => s <| fp := if w <? 0 then FPROCS else Z.to_nat w |>);;
  p ← gets FPC;
  modify (fun s => s <| super_user := fp_effuid p =? SU_UID |> <| fdont_reply := false |>);;
  call ← gets fs_call;
  error ← (if (call <? 0) || (NCALLS <=? call) then mret EBADCALL else call_vector call);
  d ← gets fdont_reply;
  if d : bool then mret tt else
  w ← gets fwho;
  reply w error;;
  r ← gets rdahed_inode;
  match r with Some _ => read_ahead | None => mret tt end.

(** ** Start-up *)
Definition get_boot_parameters : FS unit :=
  a ← request (SendRec SYSTASK (mk_dmsg SYS_GBOOT FS_PROC_NR 0 0 0 0 NoBuf));
  when ((an_ret a =? OK) && (an_words a !!! 0%nat =? OK)) (modify (fun s => s <| root_dev := an_words a !!! 1%nat |>)).

Definition load_ram (data_org : nat -> Z) : FS Z :=
  let init_org := data_org INFO in
  let init_text := data_org (INFO + 1)%nat in
  let init_data := data_org (INFO + 2)%nat in
  let count := s16 (data_org (INFO + 3)%nat) in
  when (count =? 0) (modify (fun s => s <| root_dev := DEV_HD0 |>));;
  super_dev ← (if negb (count =? 0) then mret DEV_RAM else gets root_dev);
  if MAX_RAM <? count then panic "RAM disk is too big" else
  let ram_clicks := u16 (count * CLICKS_PER_BLOCK) in
  a ← request (SendRec MM_PROC_NR (mk_dmsg CALL_BRK2 init_text init_data (u16 (init_org + init_text + init_data + ram_clicks)) init_org 0 NoBuf));
  if negb (an_ret a =? OK) then panic "FS Can't report to MM" else
  b ← request (SendRec MEM (mk_dmsg DISK_IOCTL RAM_DEV (an_words a !!! 2%nat) count (an_words a !!! 4%nat) 0 NoBuf));
  if negb (an_ret b =? OK) then panic "Can't report size to MEM" else
  mret super_dev.

Definition load_super (super_dev : Z) : FS unit :=
  modify (fun s => s <| supers ::= fmap (fun v => v <| s_dev := NO_DEV |>) |>);;
  upd_super 0 (fun v => v <| s_dev := super_dev |>);;
  rw_super 0 READING;;
  o ← get_inode super_dev ROOT_INODE;
  rip ← deref o;
  r ← gets (INO rip);
  v ← gets (SB 0);
  if negb (Z.land (i_mode r) I_TYPE =? I_DIRECTORY) || (i_nlinks r <? 3) || negb (s_magic v =? SUPER_MAGIC)
  then panic "Root file system corrupted" else
  upd_super 0 (fun v => v <| s_imount := Some rip |>);;
  dup_inode rip;;
  upd_super 0 (fun v => v <| s_isup := Some rip |> <| s_rd_only := 0 |>);;
  e ← load_bit_maps super_dev;
  if negb (e =? OK) then panic "init: can't load root bit maps" else mret tt.

(** Process 0 or 2 starts in the root directory, as the super-user. *)
Definition init_proc (i : nat) : FS unit :=
  modify (fun s => s <| fp := i |>);;
  r ← gets root_dev;
  rip ← get_inode r ROOT_INODE;
  upd_fproc i (fun p => p <| fp_rootdir := rip |>);;
  ip ← deref rip;
  dup_inode ip;;
  upd_fproc i (fun p => p <| fp_workdir := rip |> <| fp_realuid := 0 |> <| fp_effuid := 0 |> <| fp_realgid := 0 |>
                          <| fp_effgid := 0 |> <| fp_umask := 65535 |>).

Definition fs_init (data_org : nat -> Z) : FS unit :=
  buf_pool;;
  get_boot_parameters;;
  d ← load_ram data_org;
  load_super d;;
  init_proc 0;;
  init_proc 2.
End main.
