(* ===== verification/FsScene.v ===== *)
(** * A file system on a RAM disk, for the examples

    A disk of 40 blocks with an empty root directory, and callers who send
    the messages of a list, one after the other. *)

From S2P Require Import Prelude KProc FsState FsDev FsCache FsDemo FsSuper FsMap FsInode FsPath FsFile FsOpen FsLink FsCalls FsMain.

(** The surroundings: the disks of [FsDemo] and the messages still to come. *)
#[export] Instance scene_world : World (store * list fanswer) := fun q x =>
  match q with
  | Receive _ =>
      match snd x with
      | a :: l => (a, (fst x, l))
      | [] => (mk_ans ERROR [] [], x)
      end
  | _ => let '(a, y) := demo_disk_world q (fst x) in (a, (y, snd x))
  end.
#[export] Instance scene_layout : Layout :=
  { buf_at i := 65536 + 1100 * Z.of_nat i; inode_at i := 131072 + 64 * Z.of_nat i; missing_arg z := z }.

(** ** The disk image: super block, bit maps, the root's inode and block *)
Definition to_block (l : list Z) : list Z := take (Z.to_nat BLOCK_SIZE) (l ++ zero_data).
Definition scene_super : super_block :=
  mk_super 31 40 1 1 5 0 (524807 * 1024) SUPER_MAGIC (replicate 8 None) (replicate 8 None) 0 None None 0 0 false.
Definition scene_root : inode :=
  inode0 <| i_mode := Z.lor I_DIRECTORY 511 |> <| i_size := 32 |> <| i_nlinks := 3 |> <| i_zone := 5 :: replicate 8 0 |>.
Definition scene_image : store := fun task minor pos =>
  if (task =? MEM) && (minor =? 0) then
    match pos / BLOCK_SIZE with
    | 1 => to_block (super_bytes scene_super)
    | 2 | 3 => to_block [0; 3]
    | 4 => to_block (inode_bytes scene_root)
    | 5 => to_block ([0; 1] ++ dot1 ++ [0; 1] ++ dot2)
    | _ => zero_data
    end
  else zero_data.

(** Where the boot block says the parts of the system are: 40 blocks of RAM
    disk. *)
Definition scene_origins (i : nat) : Z := match i with 5%nat => 40 | _ => 0 end.

Definition scene_start (inbox : list fanswer) : fst_ (store * list fanswer) :=
  mk_fst (replicate NR_BUFS demo_buf) (replicate (Z.to_nat NR_BUF_HASH) None) None None 0 (replicate NR_INODES inode0)
    (replicate NR_SUPERS super0) (replicate NR_FILPS filp0) (replicate FPROCS fproc0) 0 false false 0 0 0 None
    (mk_fmsg 0 0 0 0 0 0 0 []) 0 0 (replicate PATH_MAX 0) OK OK [] 256 (scene_image, inbox).

(** ** Messages *)
Definition a_path : list Z := [SLASH; 97].
Definition creat_msg (who : Z) (path : list Z) : fanswer := mk_ans OK [who; 8; Z.of_nat (length path) + 1; 420; 0; 0; 0; 0; 0] [padded path].
Definition dup_msg (who fd : Z) : fanswer := mk_ans OK [who; 41; fd; 0; 0; 0; 0; 0; 0] [].
