(* ===== verification/FsKept.v ===== *)
(** * What the file system's routines leave alone

    The descriptors of the processes, the reference counts of the open files,
    the current process and the request message: only the calls that open,
    close and share descriptors touch them. [Kept m] says so of a routine;
    the instances go over the text of all the others. *)

From S2P Require Import Prelude KProc FsState FsDev FsCache FsSuper FsMap FsInode FsPath FsFile FsOpen FsLink FsCalls.

Section relations.
Context {X : Type}.
Implicit Types s : fst_ X.

Definition fds s : list (list (option nat)) := fp_filp <$> fprocs s.
Definition counts s : list Z := filp_count <$> filps s.
Definition same_files s s' : Prop := fds s' = fds s /\ counts s' = counts s /\ fp s' = fp s.
Definition same_view s s' : Prop := same_files s s' /\ m_in s' = m_in s.

#[export] Instance same_files_pre : PreOrder same_files.
Proof. split; [done|]. intros s1 s2 s3 (A1 & A2 & A3) (B1 & B2 & B3). repeat split; congruence. Qed.
#[export] Instance same_view_pre : PreOrder same_view.
Proof. split; [done|]. intros s1 s2 s3 [A1 A2] [B1 B2]. split; [by transitivity s2|congruence]. Qed.

Lemma fmap_alter_same {A B} (p : A -> B) f i (l : list A) : (forall x, p (f x) = p x) -> p <$> alter f i l = p <$> l.
Proof.
  intros Hp. apply list_eq. intros j. rewrite !list_lookup_fmap, list_lookup_alter. destruct (decide (i = j)) as [->|]; [|done].
  destruct (l !! j) as [x|]; [|done]. by apply (f_equal Some), Hp.
Qed.
Lemma fmap_imap_same {A B} (p : A -> B) (f : nat -> A -> A) l : (forall i x, p (f i x) = p x) -> p <$> imap f l = p <$> l.
Proof.
  intros Hp. apply list_eq. intros j. rewrite !list_lookup_fmap, list_lookup_imap. destruct (l !! j) as [x|]; [|done]. by apply (f_equal Some), Hp.
Qed.
End relations.

Class Kept {X A} (m : M (fst_ X) A) : Prop := kept_of : keeps same_view m.
Class FilesKept {X A} (m : M (fst_ X) A) : Prop := files_kept_of : keeps same_files m.

#[export] Hint Extern 1 (keeps same_view _) => (refine kept_of) : keeps_db.
#[export] Hint Extern 1 (keeps same_files _) => (refine files_kept_of) : keeps_db.

(** Over the text of a routine, and of a loop by induction. *)
Ltac kept_text :=
  unfold Kept, FilesKept in *;
  repeat (intros; cbv beta zeta iota;
    lazymatch goal with
    | |- keeps _ (mbind _ _) => apply keeps_bind; [try apply _| |]
    | |- keeps _ (mret _) => apply keeps_ret; try apply _
    | |- keeps _ (gets _) => apply keeps_gets; try apply _
    | |- keeps _ (panic _) => apply keeps_panic; try apply _
    | |- keeps _ nofuel => apply keeps_nofuel
    | |- keeps _ (when _ _) => apply keeps_when; [try apply _|]
    | |- keeps _ (modify _) => apply keeps_modify; intros; done
    | |- keeps _ (match ?x with _ => _ end) => destruct x
    | |- keeps same_view _ => first [apply kept_of | solve [match goal with IH : forall _, _ |- _ => apply IH end] | done]
    | |- keeps same_files _ => first [apply files_kept_of | solve [match goal with IH : forall _, _ |- _ => apply IH end] | done]
    end).
Ltac kept :=
  intros;
  lazymatch goal with
  | |- Kept ?m => let rec head t := lazymatch t with ?f _ => head f | _ => t end in let h := head m in unfold Kept, h
  | |- FilesKept ?m => let rec head t := lazymatch t with ?f _ => head f | _ => t end in let h := head m in unfold FilesKept, h
  end; kept_text.

(** What comes after a routine that keeps the view. *)
Lemma wlp_kept {X A} (m : M (fst_ X) A) (Q : A -> fst_ X -> Prop) s : Kept m -> (forall a s', same_view s s' -> Q a s') -> wlp m Q s.
Proof. intros Hm HQ. specialize (Hm s). unfold wlp. destruct (m s); [by apply HQ|done..]. Qed.
Lemma wlp_files {X A} (m : M (fst_ X) A) (Q : A -> fst_ X -> Prop) s : FilesKept m -> (forall a s', same_files s s' -> Q a s') -> wlp m Q s.
Proof. intros Hm HQ. specialize (Hm s). unfold wlp. destruct (m s); [by apply HQ|done..]. Qed.

(** Updates that leave the count, or the descriptors, as they are. *)
Lemma upd_filp_kept {X} i f : (forall x, filp_count (f x) = filp_count x) -> Kept (X := X) (upd_filp i f).
Proof. intros Hf. apply keeps_modify. intros s. split; [|done]. split; [done|split; [by apply fmap_alter_same|done]]. Qed.
Lemma upd_fproc_kept {X} i f : (forall x, fp_filp (f x) = fp_filp x) -> Kept (X := X) (upd_fproc i f).
Proof. intros Hf. apply keeps_modify. intros s. split; [|done]. split; [by apply fmap_alter_same|done]. Qed.
#[export] Hint Extern 1 (Kept (upd_filp _ _)) => (apply upd_filp_kept; done) : typeclass_instances.
#[export] Hint Extern 1 (Kept (upd_fproc _ _)) => (apply upd_fproc_kept; done) : typeclass_instances.
Lemma upd_fp_kept {X} f : (forall x, fp_filp (f x) = fp_filp x) -> Kept (X := X) (upd_fp f).
Proof. intros Hf. apply keeps_bind; [apply _|apply keeps_gets, _|]. intros i. by apply upd_fproc_kept. Qed.
#[export] Hint Extern 1 (Kept (upd_fp _)) => (apply upd_fp_kept; done) : typeclass_instances.

Section kept.
(** Instances are found by the names of the routines. *)
#[local] Hint Constants Opaque : typeclass_instances.
Context {X : Type} `{!World X} `{!Layout}.
Implicit Types s : fst_ X.
Notation FS := (M (fst_ X)).

(** ** The steps on the tables *)
#[export] Instance request_kept q : Kept (X := X) (request q).
Proof. intros s. unfold request. destruct (world q (fext s)). done. Qed.
#[export] Instance upd_buf_kept i f : Kept (X := X) (upd_buf i f).
Proof. kept. Qed.
#[export] Instance upd_ino_kept i f : Kept (X := X) (upd_ino i f).
Proof. kept. Qed.
#[export] Instance upd_super_kept i f : Kept (X := X) (upd_super i f).
Proof. kept. Qed.
#[export] Instance dirty_buf_kept i : Kept (X := X) (dirty_buf i).
Proof. kept. Qed.
#[export] Instance dirty_ino_kept i : Kept (X := X) (dirty_ino i).
Proof. kept. Qed.
#[export] Instance set_err_kept e : Kept (X := X) (set_err e).
Proof. kept. Qed.
#[export] Instance deref_kept {A} (p : option A) : Kept (X := X) (deref p).
Proof. kept. Qed.

(** ** [FsDev] *)
#[export] Instance reply_kept whom result : Kept (X := X) (reply whom result).
Proof. kept. Qed.
#[export] Instance suspend_kept task : Kept (X := X) (suspend task).
Proof. kept. Qed.
#[export] Instance revive_kept proc_nr bytes : Kept (X := X) (revive proc_nr bytes).
Proof. kept. Qed.
#[export] Instance find_dev_kept dev : Kept (X := X) (find_dev dev).
Proof. kept. Qed.
#[export] Instance rw_dev_kept fuel task_nr mess : Kept (X := X) (rw_dev fuel task_nr mess).
Proof. revert task_nr mess. induction fuel as [|? IH]; cbn [rw_dev]; kept_text. Qed.
#[export] Instance rw_dev2_kept mess : Kept (X := X) (rw_dev2 mess).
Proof. kept. Qed.
#[export] Instance dmap_rw_kept major task mess : Kept (X := X) (dmap_rw major task mess).
Proof. kept. Qed.
#[export] Instance dev_io_kept rw_flag nonblock dev pos bytes proc buff : Kept (X := X) (dev_io rw_flag nonblock dev pos bytes proc buff).
Proof. kept. Qed.
#[export] Instance tty_users_kept tty : Kept (X := X) (tty_users tty).
Proof. kept. Qed.
#[export] Instance tty_open_kept task dev : Kept (X := X) (tty_open task dev).
Proof. kept. Qed.
#[export] Instance dev_open_kept rip mod_ nonblock : Kept (X := X) (dev_open rip mod_ nonblock).
Proof. kept. Qed.
#[export] Instance dev_close_kept rip : Kept (X := X) (dev_close rip).
Proof. kept. Qed.

(** ** [FsCache] *)
#[export] Instance rw_block_kept bp rw_flag : Kept (X := X) (rw_block bp rw_flag).
Proof. kept. Qed.
#[export] Instance lru_unlink_kept bp : Kept (X := X) (lru_unlink bp).
Proof. kept. Qed.
#[export] Instance lru_front_kept bp : Kept (X := X) (lru_front bp).
Proof. kept. Qed.
#[export] Instance lru_rear_kept bp : Kept (X := X) (lru_rear bp).
Proof. kept. Qed.
#[export] Instance put_block_kept bp block_type : Kept (X := X) (put_block bp block_type).
Proof. kept. Qed.
#[export] Instance harvest_kept dev a rw_flag i q : Kept (X := X) (harvest dev a rw_flag i q).
Proof. revert dev a rw_flag i. induction q as [|? ? IH]; cbn [harvest]; kept_text. Qed.
#[export] Instance rw_scattered_kept dev bufq rw_flag : Kept (X := X) (rw_scattered dev bufq rw_flag).
Proof. kept. Qed.
#[export] Instance flushall_kept dev : Kept (X := X) (flushall dev).
Proof. kept. Qed.
#[export] Instance hash_find_kept fuel bp dev block : Kept (X := X) (hash_find fuel bp dev block).
Proof. revert bp dev block. induction fuel as [|? IH]; cbn [hash_find]; kept_text. Qed.
#[export] Instance lru_find_kept fuel bp : Kept (X := X) (lru_find fuel bp).
Proof. revert bp. induction fuel as [|? IH]; cbn [lru_find]; kept_text. Qed.
#[export] Instance unhash_loop_kept fuel prev_ptr bp : Kept (X := X) (unhash_loop fuel prev_ptr bp).
Proof. revert prev_ptr bp. induction fuel as [|? IH]; cbn [unhash_loop]; kept_text. Qed.
#[export] Instance unhash_kept bp : Kept (X := X) (unhash bp).
Proof. kept. Qed.
#[export] Instance take_buf_kept bp dev block only_search : Kept (X := X) (take_buf bp dev block only_search).
Proof. kept. Qed.
#[export] Instance get_block_kept dev block only_search : Kept (X := X) (get_block dev block only_search).
Proof. kept. Qed.
#[export] Instance invalidate_kept device : Kept (X := X) (invalidate device).
Proof. kept. Qed.
#[export] Instance buf_pool_kept : Kept (X := X) buf_pool.
Proof. kept. Qed.

(** ** [FsSuper] *)
#[export] Instance map_block_kept map_ptr b : Kept (X := X) (map_block map_ptr b).
Proof. kept. Qed.
#[export] Instance alloc_loop_kept block_count map_ptr b w map_bits bit_blocks : Kept (X := X) (alloc_loop block_count map_ptr b w map_bits bit_blocks).
Proof. revert map_ptr b w map_bits bit_blocks. induction block_count as [|? IH]; cbn [alloc_loop]; kept_text. Qed.
#[export] Instance alloc_bit_kept map_ptr map_bits bit_blocks origin : Kept (X := X) (alloc_bit map_ptr map_bits bit_blocks origin).
Proof. kept. Qed.
#[export] Instance free_bit_kept map_ptr bit_returned : Kept (X := X) (free_bit map_ptr bit_returned).
Proof. kept. Qed.
#[export] Instance mark_busy_kept map_ptr bits : Kept (X := X) (mark_busy map_ptr bits).
Proof. kept. Qed.
#[export] Instance put_all_kept l bt : Kept (X := X) (put_all l bt).
Proof. revert bt. induction l as [|? ? IH]; cbn [put_all]; kept_text. Qed.
#[export] Instance get_super_kept dev : Kept (X := X) (get_super dev).
Proof. kept. Qed.
#[export] Instance mounted_kept rip : Kept (X := X) (mounted rip).
Proof. kept. Qed.
#[export] Instance scale_factor_kept ip : Kept (X := X) (scale_factor ip).
Proof. kept. Qed.
#[export] Instance rw_super_kept sp rw_flag : Kept (X := X) (rw_super sp rw_flag).
Proof. kept. Qed.
#[export] Instance load_map_kept set sp dev first i n : Kept (X := X) (load_map set sp dev first i n).
Proof. revert i. induction n as [|? IH]; cbn [load_map]; kept_text. Qed.
#[export] Instance load_bit_maps_kept dev : Kept (X := X) (load_bit_maps dev).
Proof. kept. Qed.
#[export] Instance unload_bit_maps_kept dev : Kept (X := X) (unload_bit_maps dev).
Proof. kept. Qed.
#[export] Instance alloc_zone_kept dev z : Kept (X := X) (alloc_zone dev z).
Proof. kept. Qed.
#[export] Instance free_zone_kept dev numb : Kept (X := X) (free_zone dev numb).
Proof. kept. Qed.
#[export] Instance clock_time_kept : Kept (X := X) clock_time.
Proof. kept. Qed.

(** ** [FsMap] *)
#[export] Instance zone_in_kept l i : Kept (X := X) (zone_in l i).
Proof. kept. Qed.
#[export] Instance ind_in_kept d i : Kept (X := X) (ind_in d i).
Proof. kept. Qed.
#[export] Instance put_ind_kept bp i z : Kept (X := X) (put_ind bp i z).
Proof. kept. Qed.
#[export] Instance put_zone_kept rip i z : Kept (X := X) (put_zone rip i z).
Proof. kept. Qed.
#[export] Instance zero_block_kept bp : Kept (X := X) (zero_block bp).
Proof. kept. Qed.
#[export] Instance read_ind_kept dev z scale i : Kept (X := X) (read_ind dev z scale i).
Proof. kept. Qed.
#[export] Instance read_map_kept rip position : Kept (X := X) (read_map rip position).
Proof. kept. Qed.
#[export] Instance write_ind_kept rip z scale new_ind excess new_zone : Kept (X := X) (write_ind rip z scale new_ind excess new_zone).
Proof. kept. Qed.
#[export] Instance write_map_kept rip position new_zone : Kept (X := X) (write_map rip position new_zone).
Proof. kept. Qed.
#[export] Instance clear_blocks_kept fuel dev b bhi : Kept (X := X) (clear_blocks fuel dev b bhi).
Proof. revert dev b bhi. induction fuel as [|? IH]; cbn [clear_blocks]; kept_text. Qed.
#[export] Instance clear_zone_kept rip pos flag : Kept (X := X) (clear_zone rip pos flag).
Proof. kept. Qed.
#[export] Instance new_block_kept rip position : Kept (X := X) (new_block rip position).
Proof. kept. Qed.
#[export] Instance wipe_inode_kept rip : Kept (X := X) (wipe_inode rip).
Proof. kept. Qed.
#[export] Instance free_data_kept fuel rip dev scale position zone_size : Kept (X := X) (free_data fuel rip dev scale position zone_size).
Proof. revert rip dev scale position zone_size. induction fuel as [|? IH]; cbn [free_data]; kept_text. Qed.
#[export] Instance free_zones_kept dev bp i n : Kept (X := X) (free_zones dev bp i n).
Proof. revert dev bp i. induction n as [|? IH]; cbn [free_zones]; kept_text. Qed.
#[export] Instance truncate_kept rip : Kept (X := X) (truncate rip).
Proof. kept. Qed.
#[export] Instance queue_ahead_kept fuel h position blocks_ahead max_track reading_ahead q : Kept (X := X) (queue_ahead fuel h position blocks_ahead max_track reading_ahead q).
Proof. revert h position blocks_ahead max_track reading_ahead q. induction fuel as [|? IH]; cbn [queue_ahead]; kept_text. Qed.
#[export] Instance rahead_kept rip baseblock position bytes_ahead : Kept (X := X) (rahead rip baseblock position bytes_ahead).
Proof. kept. Qed.
#[export] Instance read_ahead_kept : Kept (X := X) read_ahead.
Proof. kept. Qed.

(** ** [FsInode] *)
#[export] Instance update_times_kept rip : Kept (X := X) (update_times rip).
Proof. kept. Qed.
#[export] Instance rw_inode_kept rip rw_flag : Kept (X := X) (rw_inode rip rw_flag).
Proof. kept. Qed.
#[export] Instance get_inode_kept dev numb : Kept (X := X) (get_inode dev numb).
Proof. kept. Qed.
#[export] Instance free_inode_kept dev numb : Kept (X := X) (free_inode dev numb).
Proof. kept. Qed.
#[export] Instance put_inode_kept rip : Kept (X := X) (put_inode rip).
Proof. kept. Qed.
#[export] Instance dup_inode_kept ip : Kept (X := X) (dup_inode ip).
Proof. kept. Qed.
#[export] Instance alloc_inode_kept dev bits : Kept (X := X) (alloc_inode dev bits).
Proof. kept. Qed.

(** ** [FsPath] *)
#[export] Instance from_user_kept seg usr vir len : Kept (X := X) (from_user seg usr vir len).
Proof. kept. Qed.
#[export] Instance to_user_kept seg usr vir data : Kept (X := X) (to_user seg usr vir data).
Proof. kept. Qed.
#[export] Instance fill_path_kept v : Kept (X := X) (fill_path v).
Proof. kept. Qed.
#[export] Instance fetch_name_kept path len flag : Kept (X := X) (fetch_name path len flag).
Proof. kept. Qed.
#[export] Instance read_only_kept ip : Kept (X := X) (read_only ip).
Proof. kept. Qed.
#[export] Instance forbidden_kept rip access_desired real_uid : Kept (X := X) (forbidden rip access_desired real_uid).
Proof. kept. Qed.
#[export] Instance write_entry_kept bp i string numb : Kept (X := X) (write_entry bp i string numb).
Proof. kept. Qed.
#[export] Instance erase_entry_kept ldir_ptr bp i : Kept (X := X) (erase_entry ldir_ptr bp i).
Proof. kept. Qed.
#[export] Instance search_blocks_kept fuel ldir_ptr string flag pos new_slots old_slots : Kept (X := X) (search_blocks fuel ldir_ptr string flag pos new_slots old_slots).
Proof. revert ldir_ptr string flag pos new_slots old_slots. induction fuel as [|? IH]; cbn [search_blocks]; kept_text. Qed.
#[export] Instance search_dir_kept ldir_ptr string numb flag : Kept (X := X) (search_dir ldir_ptr string numb flag).
Proof. kept. Qed.
#[export] Instance cross_mounts_kept fuel rip : Kept (X := X) (cross_mounts fuel rip).
Proof. revert rip. induction fuel as [|? IH]; cbn [cross_mounts]; kept_text. Qed.
#[export] Instance advance__kept fuel dirp string : Kept (X := X) (advance_ fuel dirp string).
Proof. revert dirp string. induction fuel as [|? IH]; cbn [advance_]; kept_text. Qed.
#[export] Instance advance_kept dirp string : Kept (X := X) (advance dirp string).
Proof. kept. Qed.
#[export] Instance walk_kept fuel rip path : Kept (X := X) (walk fuel rip path).
Proof. revert rip path. induction fuel as [|? IH]; cbn [walk]; kept_text. Qed.
#[export] Instance last_dir_kept : Kept (X := X) last_dir.
Proof. kept. Qed.
#[export] Instance eat_path_kept : Kept (X := X) eat_path.
Proof. kept. Qed.

(** ** [FsFile] *)
#[export] Instance get_filp_kept fild : Kept (X := X) (get_filp fild).
Proof. kept. Qed.
#[export] Instance find_filp_kept rip bits : Kept (X := X) (find_filp rip bits).
Proof. kept. Qed.
#[export] Instance release_from_kept n i ip call_nr count : Kept (X := X) (release_from n i ip call_nr count).
Proof. revert i ip call_nr count. induction n as [|? IH]; cbn [release_from]; kept_text. Qed.
#[export] Instance release_kept ip call_nr count : Kept (X := X) (release ip call_nr count).
Proof. kept. Qed.
#[export] Instance pipe_check_kept rip rw_flag oflags bytes position : Kept (X := X) (pipe_check rip rw_flag oflags bytes position).
Proof. kept. Qed.
#[export] Instance do_unpause_kept : Kept (X := X) do_unpause.
Proof. kept. Qed.
#[export] Instance rw_user_buf_kept seg usr vir bytes bp off direction : Kept (X := X) (rw_user_buf seg usr vir bytes bp off direction).
Proof. kept. Qed.
#[export] Instance rw_chunk_kept rip position off chunk left rw_flag buff seg usr : Kept (X := X) (rw_chunk rip position off chunk left rw_flag buff seg usr).
Proof. kept. Qed.
#[export] Instance rw_finish_kept rip f rw_flag mode_word f_size r cum_io position : Kept (X := X) (rw_finish rip f rw_flag mode_word f_size r cum_io position).
Proof. kept. Qed.

(** ** [FsOpen] *)
#[export] Instance sync_inodes_kept n i : Kept (X := X) (sync_inodes n i).
Proof. revert i. induction n as [|? IH]; cbn [sync_inodes]; kept_text. Qed.
#[export] Instance sync_supers_kept n i : Kept (X := X) (sync_supers n i).
Proof. revert i. induction n as [|? IH]; cbn [sync_supers]; kept_text. Qed.
#[export] Instance sync_bufs_kept n i : Kept (X := X) (sync_bufs n i).
Proof. revert i. induction n as [|? IH]; cbn [sync_bufs]; kept_text. Qed.
#[export] Instance do_sync_kept : Kept (X := X) do_sync.
Proof. kept. Qed.
#[export] Instance new_node_kept bits z0 lsize : Kept (X := X) (new_node bits z0 lsize).
Proof. kept. Qed.
#[export] Instance pipe_open_kept rip bits oflags : Kept (X := X) (pipe_open rip bits oflags).
Proof. kept. Qed.
#[export] Instance open_existing_kept rip bits oflags : Kept (X := X) (open_existing rip bits oflags).
Proof. kept. Qed.
#[export] Instance do_mknod_kept : Kept (X := X) do_mknod.
Proof. kept. Qed.
#[export] Instance do_lseek_kept : Kept (X := X) do_lseek.
Proof. kept. Qed.
#[export] Instance do_mkdir_kept : Kept (X := X) do_mkdir.
Proof. kept. Qed.

(** ** [FsLink] *)
#[export] Instance add_links_kept i d : Kept (X := X) (add_links i d).
Proof. kept. Qed.
#[export] Instance do_link_kept : Kept (X := X) do_link.
Proof. kept. Qed.
#[export] Instance rmdir_check_kept rip string : Kept (X := X) (rmdir_check rip string).
Proof. kept. Qed.
#[export] Instance rmdir_dots_kept rip rldirp old_mode old_uid : Kept (X := X) (rmdir_dots rip rldirp old_mode old_uid).
Proof. kept. Qed.
#[export] Instance do_unlink_kept : Kept (X := X) do_unlink.
Proof. kept. Qed.
#[export] Instance rename_check_kept old_dirp old_ip new_dirp new_ip old_name user_path : Kept (X := X) (rename_check old_dirp old_ip new_dirp new_ip old_name user_path).
Proof. kept. Qed.
#[export] Instance do_rename_entries_kept old_dirp old_ip new_dirp new_ip old_string string : Kept (X := X) (do_rename_entries old_dirp old_ip new_dirp new_ip old_string string).
Proof. kept. Qed.
#[export] Instance do_rename_kept : Kept (X := X) do_rename.
Proof. kept. Qed.

(** ** [FsCalls] *)
#[export] Instance do_revive_kept : Kept (X := X) do_revive.
Proof. kept. Qed.
#[export] Instance name_to_dev_kept : Kept (X := X) name_to_dev.
Proof. kept. Qed.
#[export] Instance mount_on_kept sp rip dev rd_only : Kept (X := X) (mount_on sp rip dev rd_only).
Proof. kept. Qed.
#[export] Instance do_mount_kept : Kept (X := X) do_mount.
Proof. kept. Qed.
#[export] Instance do_umount_kept : Kept (X := X) do_umount.
Proof. kept. Qed.
#[export] Instance stat_inode_kept rip fil_ptr user_addr : Kept (X := X) (stat_inode rip fil_ptr user_addr).
Proof. kept. Qed.
#[export] Instance do_fstat_kept : Kept (X := X) do_fstat.
Proof. kept. Qed.
#[export] Instance do_time_kept : Kept (X := X) do_time.
Proof. kept. Qed.
#[export] Instance do_stime_kept : Kept (X := X) do_stime.
Proof. kept. Qed.
#[export] Instance do_tims_kept : Kept (X := X) do_tims.
Proof. kept. Qed.
#[export] Instance do_ioctl_kept : Kept (X := X) do_ioctl.
Proof. kept. Qed.

(** ** The rest, on their own *)
#[export] Instance get_fd_kept start bits : Kept (X := X) (get_fd start bits).
Proof. kept. Qed.
#[export] Instance tty_exit_kept : Kept (X := X) tty_exit.
Proof.
  unfold tty_exit. kept_text. split; [|done]. split; [|done]. apply (fmap_imap_same fp_filp). intros i q. by destruct (_ && _).
Qed.
Lemma with_path_kept path len flag (k : nat -> FS Z) : (forall rip, Kept (k rip)) -> Kept (with_path path len flag k).
Proof. intros Hk. unfold with_path. kept_text. Qed.
Lemma change_kept get put : (forall o p, fp_filp (put o p) = fp_filp p) -> Kept (X := X) (change get put).
Proof. intros Hp. unfold change. kept_text. intros m. apply with_path_kept. kept_text. Qed.
#[export] Instance do_chmod_kept : Kept (X := X) do_chmod.
Proof. unfold do_chmod. kept_text. intros m. apply with_path_kept. kept_text. Qed.
#[export] Instance do_chown_kept : Kept (X := X) do_chown.
Proof. unfold do_chown. kept_text. intros m. apply with_path_kept. kept_text. Qed.
#[export] Instance do_access_kept : Kept (X := X) do_access.
Proof. unfold do_access. kept_text. intros m. apply with_path_kept. kept_text. Qed.
#[export] Instance do_stat_kept : Kept (X := X) do_stat.
Proof. unfold do_stat. kept_text. intros m. apply with_path_kept. kept_text. Qed.
#[export] Instance do_utime_kept : Kept (X := X) do_utime.
Proof. unfold do_utime. kept_text. intros m. apply with_path_kept. kept_text. Qed.
#[export] Instance do_umask_kept : Kept (X := X) do_umask.
Proof. kept. Qed.
#[export] Instance do_set_kept : Kept (X := X) do_set.
Proof. kept. Qed.
#[export] Instance do_chdir_kept : Kept (X := X) do_chdir.
Proof. unfold do_chdir. kept_text. all: by intros; apply change_kept. Qed.
#[export] Instance do_chroot_kept : Kept (X := X) do_chroot.
Proof. unfold do_chroot. kept_text. all: by intros; apply change_kept. Qed.

(** ** What changes the message only *)
#[export] Instance kept_files {A} (m : M (fst_ X) A) : Kept m -> FilesKept m | 100.
Proof. intros Hm s. specialize (Hm s). destruct (m s); try done; apply Hm. Qed.
#[export] Instance set_m_files f : FilesKept (X := X) (set_m f).
Proof. kept. Qed.
#[export] Instance rw_loop_files fuel rip rw_flag seg usr block_spec f_size r cum_io position :
  FilesKept (X := X) (rw_loop fuel rip rw_flag seg usr block_spec f_size r cum_io position).
Proof. revert r cum_io position. induction fuel as [|? IH]; cbn [rw_loop]; kept_text. Qed.
#[export] Instance rw_blocks_files rip f rw_flag seg usr block_spec f_size position :
  FilesKept (X := X) (rw_blocks rip f rw_flag seg usr block_spec f_size position).
Proof. kept. Qed.
#[export] Instance read_write_files rw_flag : FilesKept (X := X) (read_write rw_flag).
Proof. kept. Qed.
#[export] Instance do_read_files : FilesKept (X := X) do_read.
Proof. kept. Qed.
#[export] Instance do_write_files : FilesKept (X := X) do_write.
Proof. kept. Qed.
End kept.
