(* ===== verification/FsFiles.v ===== *)
(** * Descriptors and reference counts

    The invariant of the descriptor tables: every descriptor points to a slot
    of the table of open files, and the count of each slot is the number of
    the descriptors, over all processes, that point to it. *)

From S2P Require Import Prelude KProc FsState FsDev FsCache FsSuper FsMap FsInode FsPath FsFile FsOpen FsLink FsCalls FsMain FsDemo FsScene FsKept.

(** ** Tables of descriptors *)
Definition open_max : nat := Z.to_nat OPEN_MAX.
Definition refs_in (l : list (option nat)) (f : nat) : Z := Z.of_nat (length (filter (fun o => o = Some f) l)).
Definition refs (t : list (list (option nat))) (f : nat) : Z := refs_in (concat t) f.
Definition set_fd (i k : nat) (o : option nat) (t : list (list (option nat))) : list (list (option nat)) := alter (<[k := o]>) i t.
Definition one (o : option nat) (f : nat) : Z := if decide (o = Some f) then 1 else 0.

Record files_ok (t : list (list (option nat))) (c : list Z) : Prop := {
  fo_procs : length t = FPROCS;
  fo_open i : (i < FPROCS)%nat -> length (t !!! i) = open_max;
  fo_slots : length c = NR_FILPS;
  fo_refs f : (f < NR_FILPS)%nat -> c !!! f = refs t f;
  fo_points i k f : (i < FPROCS)%nat -> t !!! i !! k = Some (Some f) -> (f < NR_FILPS)%nat;
}.

Lemma refs_in_app l l' f : refs_in (l ++ l') f = refs_in l f + refs_in l' f.
Proof. unfold refs_in. rewrite filter_app, length_app. lia. Qed.
Lemma refs_in_cons o l f : refs_in (o :: l) f = one o f + refs_in l f.
Proof. unfold refs_in, one. destruct (decide (o = Some f)); [rewrite filter_cons_True by done; cbn; lia|rewrite filter_cons_False by done; lia]. Qed.
Lemma refs_in_range l f : 0 <= refs_in l f <= Z.of_nat (length l).
Proof. unfold refs_in. pose proof (length_filter (fun o => o = Some f) l). lia. Qed.
Lemma refs_in_insert l k o f : (k < length l)%nat -> refs_in (<[k := o]> l) f = refs_in l f - one (l !!! k) f + one o f.
Proof.
  intros Hk. destruct (lookup_lt_is_Some_2 l k Hk) as [x Ex]. rewrite (list_lookup_total_correct _ _ _ Ex).
  rewrite <- (take_drop_middle l k x Ex) at 2. rewrite insert_take_drop by done. rewrite !refs_in_app, !refs_in_cons. lia.
Qed.

Lemma refs_insert t i l f : (i < length t)%nat -> refs (<[i := l]> t) f = refs t f - refs_in (t !!! i) f + refs_in l f.
Proof.
  intros Hi. destruct (lookup_lt_is_Some_2 t i Hi) as [x Ex]. rewrite (list_lookup_total_correct _ _ _ Ex). unfold refs.
  rewrite <- (take_drop_middle t i x Ex) at 2. rewrite insert_take_drop by done. rewrite !concat_app. cbn [concat]. rewrite !refs_in_app. lia.
Qed.
Lemma set_fd_insert i k o t : (i < length t)%nat -> set_fd i k o t = <[i := <[k := o]> (t !!! i)]> t.
Proof.
  intros Hi. destruct (lookup_lt_is_Some_2 t i Hi) as [x Ex]. rewrite (list_lookup_total_correct _ _ _ Ex).
  apply list_eq. intros j. unfold set_fd. rewrite list_lookup_alter. destruct (decide (i = j)) as [->|].
  - rewrite Ex. by rewrite list_lookup_insert_eq.
  - by rewrite list_lookup_insert_ne.
Qed.
Lemma refs_set t i k o f : (i < length t)%nat -> (k < length (t !!! i))%nat -> refs (set_fd i k o t) f = refs t f - one (t !!! i !!! k) f + one o f.
Proof. intros Hi Hk. rewrite set_fd_insert, refs_insert, refs_in_insert by done. lia. Qed.
Lemma set_fd_lookup t i k o j m : (i < length t)%nat -> (k < length (t !!! i))%nat ->
  set_fd i k o t !!! j !!! m = if decide (i = j /\ k = m) then o else t !!! j !!! m.
Proof.
  intros Hi Hk. rewrite set_fd_insert by done. destruct (decide (i = j)) as [->|].
  - rewrite list_lookup_total_insert_eq by done. destruct (decide (k = m)) as [->|].
    + rewrite decide_True by done. by rewrite list_lookup_total_insert_eq.
    + rewrite decide_False by naive_solver. by rewrite list_lookup_total_insert_ne.
  - rewrite decide_False by naive_solver. by rewrite list_lookup_total_insert_ne.
Qed.

(** No slot has more references than there are descriptors. *)
Lemma refs_bound t c f : files_ok t c -> 0 <= refs t f <= 640.
Proof.
  intros [Hp Ho _ _ _]. unfold refs. pose proof (refs_in_range (concat t) f) as Hr.
  assert (Hl : forall u : list (list (option nat)), (forall l, l ∈ u -> length l = open_max) -> length (concat u) = (open_max * length u)%nat).
  { induction u as [|l u IH]; intros Hu; [cbn; lia|]. cbn [concat length]. rewrite length_app, IH by (intros; apply Hu; set_solver).
    rewrite Hu by set_solver. lia. }
  rewrite Hl, Hp in Hr; [unfold open_max, OPEN_MAX, FPROCS in Hr; lia|]. intros l Hin. apply list_elem_of_lookup in Hin as [i Ei].
  rewrite <- (list_lookup_total_correct _ _ _ Ei). apply Ho. rewrite <- Hp. by eapply lookup_lt_Some.
Qed.

(** Changing a descriptor and the counts with it. *)
Lemma files_set t c i k o c' : files_ok t c -> (i < FPROCS)%nat -> (k < open_max)%nat ->
  (forall f, o = Some f -> (f < NR_FILPS)%nat) -> length c' = NR_FILPS ->
  (forall f, (f < NR_FILPS)%nat -> c' !!! f = c !!! f - one (t !!! i !!! k) f + one o f) -> files_ok (set_fd i k o t) c'.
Proof.
  intros [Hp Ho Hs Hr Ht] Hi Hk Hf Hc Hn. assert (Hi' : (i < length t)%nat) by lia. assert (Hk' : (k < length (t !!! i))%nat) by (rewrite Ho; done).
  split.
  - rewrite set_fd_insert by done. by rewrite length_insert.
  - intros j Hj. rewrite set_fd_insert by done. destruct (decide (i = j)) as [->|].
    + rewrite list_lookup_total_insert_eq by done. rewrite length_insert. by apply Ho.
    + rewrite list_lookup_total_insert_ne by done. by apply Ho.
  - done.
  - intros f Hlt. rewrite refs_set, Hn, Hr by done. done.
  - intros j m f Hj E. apply list_lookup_total_correct in E as E'. rewrite set_fd_lookup in E' by done. destruct (decide (i = j /\ k = m)) as [[-> ->]|]; [by apply Hf|].
    apply (Ht j m f Hj). apply list_lookup_total_correct in E as _. destruct (t !!! j !! m) as [x|] eqn:Ex.
    + apply list_lookup_total_correct in Ex as Ey. congruence.
    + exfalso. rewrite list_lookup_total_alt, Ex in E'. discriminate.
Qed.

(** ** The routines that change the tables *)

(** Past a routine that leaves the tables alone; [same_view s s'] relates the
    state [s] it is compared with to the present one. *)
Ltac kept_goal := first [apply _ | unfold Kept; kept_text].
Ltac kstep :=
  apply wlp_bind, wlp_kept; [kept_goal|];
  let a := fresh "a" in let s' := fresh "s" in let Hv := fresh "Hv" in intros a s' Hv;
  match goal with H0 : same_view ?s ?s0 |- _ => match type of Hv with same_view s0 _ => apply (transitivity H0) in Hv; clear H0 end | _ => idtac end.

(** Names for the present state and its relation. *)
Ltac kname t Ht := match goal with Hv : same_view _ ?x |- wlp _ _ ?x => rename x into t; rename Hv into Ht end.

Section files.
Context {X : Type} `{!World X} `{!Layout}.
Implicit Types s : fst_ X.
Notation FS := (M (fst_ X)).

Definition FILES s : Prop := files_ok (fds s) (counts s).

Lemma FILES_same s s' : FILES s -> same_files s s' -> FILES s'.
Proof. intros HF (E1 & E2 & _). unfold FILES. by rewrite E1, E2. Qed.

(** The current process's descriptors; a descriptor past its table is none. *)
Definition my_fd s (k : nat) : option nat := fds s !!! fp s !!! k.

Lemma fds_my_fd s k : (fp s < length (fprocs s))%nat -> fp_filp (FPC s) !!! k = my_fd s k.
Proof.
  intros Hp. unfold my_fd, fds, FPC, FP. destruct (lookup_lt_is_Some_2 _ _ Hp) as [p Ep].
  rewrite (list_lookup_total_correct _ _ _ Ep). by rewrite (list_lookup_total_correct (fp_filp <$> fprocs s) _ (fp_filp p)) by (by rewrite list_lookup_fmap, Ep).
Qed.
Lemma FILES_procs s : FILES s -> length (fprocs s) = FPROCS.
Proof. intros HF. pose proof (fo_procs _ _ HF) as E. unfold fds in E. by rewrite length_fmap in E. Qed.
Lemma FILES_filps s : FILES s -> length (filps s) = NR_FILPS.
Proof. intros HF. pose proof (fo_slots _ _ HF) as E. unfold counts in E. by rewrite length_fmap in E. Qed.
Lemma counts_at s f : (f < length (filps s))%nat -> counts s !!! f = filp_count (FILP f s).
Proof.
  intros Hf. destruct (lookup_lt_is_Some_2 _ _ Hf) as [x Ex]. unfold counts, FILP. rewrite (list_lookup_total_correct _ _ _ Ex).
  apply list_lookup_total_correct. by rewrite list_lookup_fmap, Ex.
Qed.

(** The two tables after an update. *)
Lemma fds_upd i k o s : fds (s <| fprocs ::= alter (fun p => p <| fp_filp ::= <[k := o]> |>) i |>) = set_fd i k o (fds s).
Proof. unfold fds, set_fd, set_field; cbn [fprocs]. by apply list_fmap_alter, Forall_true. Qed.
Lemma counts_upd i g h s : (forall x, filp_count (g x) = h (filp_count x)) -> counts (s <| filps ::= alter g i |>) = alter h i (counts s).
Proof. intros Hg. unfold counts, set_field; cbn [filps]. by apply list_fmap_alter, Forall_true. Qed.

(** *** Claiming and releasing a descriptor of the current process *)
Lemma FILES_open s s' k f h : FILES s -> (fp s < FPROCS)%nat -> (k < open_max)%nat -> (f < NR_FILPS)%nat -> my_fd s k = None ->
  fds s' = set_fd (fp s) k (Some f) (fds s) -> counts s' = alter h f (counts s) -> h (counts s !!! f) = counts s !!! f + 1 -> FILES s'.
Proof.
  intros HF Hp Hk Hf Hfd E1 E2 Hh. unfold FILES. rewrite E1, E2. pose proof (fo_slots _ _ HF) as Hl. apply (files_set _ (counts s)); try done.
  - intros g Eg. by injection Eg as <-.
  - by rewrite length_alter.
  - intros g Hg. unfold my_fd in Hfd. rewrite Hfd. unfold one at 1. rewrite decide_False by done. unfold one.
    destruct (decide (f = g)) as [->|Hne]; [rewrite tbl_alter_eq by lia; rewrite decide_True by done; lia|].
    rewrite tbl_alter_ne, decide_False by congruence. lia.
Qed.
Lemma FILES_close s s' k f h : FILES s -> (fp s < FPROCS)%nat -> (k < open_max)%nat -> my_fd s k = Some f ->
  fds s' = set_fd (fp s) k None (fds s) -> counts s' = alter h f (counts s) -> h (counts s !!! f) = counts s !!! f - 1 -> FILES s'.
Proof.
  intros HF Hp Hk Hfd E1 E2 Hh. unfold FILES. rewrite E1, E2. pose proof (fo_slots _ _ HF) as Hl. apply (files_set _ (counts s)); try done.
  - by rewrite length_alter.
  - intros g Hg. unfold my_fd in Hfd. rewrite Hfd. unfold one at 2. rewrite decide_False by done. unfold one.
    destruct (decide (f = g)) as [->|Hne]; [rewrite tbl_alter_eq by lia; rewrite decide_True by done; lia|].
    rewrite tbl_alter_ne, decide_False by congruence. lia.
Qed.
Lemma my_fd_slot s k f : FILES s -> (fp s < FPROCS)%nat -> my_fd s k = Some f -> (f < NR_FILPS)%nat.
Proof.
  intros HF Hp E. apply (fo_points _ _ HF (fp s) k); [done|]. unfold my_fd in E. destruct (fds s !!! fp s !! k) as [x|] eqn:Ex.
  - apply list_lookup_total_correct in Ex as Ey. congruence.
  - rewrite list_lookup_total_alt, Ex in E. discriminate.
Qed.
Lemma counts_bound s f : FILES s -> (f < NR_FILPS)%nat -> 0 <= counts s !!! f <= 640.
Proof. intros HF Hf. rewrite (fo_refs _ _ HF) by done. by apply (refs_bound _ (counts s)). Qed.
Lemma counts_used s k f : FILES s -> (fp s < FPROCS)%nat -> (k < open_max)%nat -> my_fd s k = Some f -> 1 <= counts s !!! f.
Proof.
  intros HF Hp Hk E. pose proof (my_fd_slot s k f HF Hp E) as Hf. rewrite (fo_refs _ _ HF) by done.
  assert (Hp' : (fp s < length (fds s))%nat) by (by rewrite (fo_procs _ _ HF)).
  assert (Hk' : (k < length (fds s !!! fp s))%nat) by (by rewrite (fo_open _ _ HF)).
  pose proof (refs_set (fds s) (fp s) k None f Hp' Hk') as Hr. unfold my_fd in E. rewrite E in Hr. unfold one in Hr.
  rewrite decide_True, decide_False in Hr by done. pose proof (refs_in_range (concat (set_fd (fp s) k None (fds s))) f) as H0. fold (refs (set_fd (fp s) k None (fds s)) f) in H0. lia.
Qed.

(** *** [get_fd] and [get_filp] *)
Lemma same_my_fd s s' k : same_view s s' -> my_fd s' k = my_fd s k.
Proof. intros [(E1 & _ & E3) _]. unfold my_fd. by rewrite E1, E3. Qed.

Lemma get_fd_ok start bits s (Q : Z * Z * nat -> fst_ X -> Prop) : FILES s -> (fp s < FPROCS)%nat -> 0 <= start ->
  (forall r k f s', same_view s s' -> (r = OK -> exists n, k = Z.of_nat n /\ (n < open_max)%nat /\ my_fd s n = None /\ (f < NR_FILPS)%nat /\ counts s !!! f = 0) ->
     Q (r, k, f) s') -> wlp (get_fd start bits) Q s.
Proof.
  intros HF Hp Hs HQ. unfold get_fd. apply wlp_bind, wlp_gets. destruct (free_fd (fp_filp (FPC s)) start) as [k|] eqn:Ek; [|by apply wlp_ret, HQ].
  apply wlp_bind, wlp_gets. destruct (free_filp (filps s)) as [f|] eqn:Ef; [|by apply wlp_ret, HQ].
  apply wlp_bind, wlp_kept; [apply upd_filp_kept; done|]. intros _ s1 H1. apply wlp_ret, HQ; [done|]. intros _. exists k.
  unfold free_fd in Ek. apply find_some in Ek as [Hin Hk]. apply in_seq in Hin. unfold free_filp in Ef. apply find_some in Ef as [Hinf Hf]. apply in_seq in Hinf.
  rewrite FILES_filps in Hinf by done. rewrite fds_my_fd in Hk by (rewrite FILES_procs; done).
  split_and!; [done|unfold open_max, OPEN_MAX in *; lia| |lia|].
  - by destruct (my_fd s k).
  - rewrite counts_at by (rewrite FILES_filps; [lia|done]). by apply Z.eqb_eq in Hf.
Qed.
Lemma get_filp_ok fild s (Q : option nat -> fst_ X -> Prop) : FILES s -> (fp s < FPROCS)%nat ->
  (forall o s', same_view s s' -> match o with
     | Some f => exists n, fild = Z.of_nat n /\ (n < open_max)%nat /\ my_fd s n = Some f
     | None => forall n, (n < open_max)%nat -> fild = Z.of_nat n -> my_fd s n = None end -> Q o s') -> wlp (get_filp fild) Q s.
Proof.
  intros HF Hp HQ. unfold get_filp. apply wlp_bind, wlp_kept; [apply _|]. intros _ s1 H1. assert (HF1 : FILES s1) by (eapply FILES_same; [done|apply H1]).
  destruct (Z.ltb_spec fild 0) as [Hneg|Hneg]; cbn [orb]; [apply wlp_ret, HQ; [done|intros n Hn ->; lia]|].
  destruct (Z.leb_spec OPEN_MAX fild) as [Hbig|Hbig]; [apply wlp_ret, HQ; [done|intros n Hn ->; unfold open_max in Hn; lia]|].
  assert (Hp1 : (fp s1 < length (fprocs s1))%nat) by (rewrite FILES_procs by done; by destruct H1 as [(_ & _ & ->) _]).
  apply wlp_gets, HQ; [done|]. rewrite fds_my_fd, (same_my_fd s s1) by done. destruct (my_fd s (Z.to_nat fild)) as [f|] eqn:E.
  - exists (Z.to_nat fild). split_and!; [lia|unfold open_max; lia|done].
  - intros n Hn ->. by rewrite Nat2Z.id in E.
Qed.

Lemma view_fields s s' : same_view s s' -> fds s' = fds s /\ counts s' = counts s /\ fp s' = fp s /\ m_in s' = m_in s.
Proof. by intros [(? & ? & ?) ?]. Qed.

(** *** [do_close] *)
Definition close_fd (i : nat) (k : Z) (t : list (list (option nat))) : list (list (option nat)) :=
  if (0 <=? k) && (k <? OPEN_MAX) then set_fd i (Z.to_nat k) None t else t.

Lemma s16_count c : 0 <= c <= 1000 -> s16 (c - 1) = c - 1 /\ s16 (c + 1) = c + 1.
Proof. intros Hc. split; apply s16_id; lia. Qed.

Lemma set_fd_same t i k : (i < length t)%nat -> (k < length (t !!! i))%nat -> t !!! i !!! k = None -> set_fd i k None t = t.
Proof.
  intros Hi Hk E. rewrite set_fd_insert by done. rewrite (list_insert_id (t !!! i)).
  - apply list_insert_id. by apply list_lookup_lookup_total_lt.
  - rewrite <- E. by apply list_lookup_lookup_total_lt.
Qed.

Lemma do_close_ok s (Q : Z -> fst_ X -> Prop) : FILES s -> (fp s < FPROCS)%nat ->
  (forall a s', FILES s' -> fp s' = fp s -> m_in s' = m_in s -> fds s' = close_fd (fp s) (fm_i1 (m_in s)) (fds s) -> Q a s') ->
  wlp do_close Q s.
Proof.
  intros HF Hp HQ. unfold do_close. apply wlp_bind, wlp_gets. apply wlp_bind, get_filp_ok; [done..|]. intros o s1 H1 Ho. unfold close_fd in HQ. destruct o as [f|].
  - destruct Ho as (n & Ek & Hn & Hfd). do 7 kstep. kname t Ht. unfold upd_filp. apply wlp_bind, wlp_modify.
    set (t1 := t <| filps ::= alter _ f |>). assert (H0 : same_view t1 t1) by done. do 2 kstep. kname u Hu. unfold upd_fp, upd_fproc.
    apply wlp_bind, wlp_bind, wlp_gets, wlp_modify, wlp_ret.
    destruct (view_fields _ _ Ht) as (Et1 & Et2 & Et3 & Et4). destruct (view_fields _ _ Hu) as (Eu1 & Eu2 & Eu3 & Eu4).
    rewrite Ek, Nat2Z.id in *. match goal with |- Q _ ?x => set (s' := x) end.
    assert (Efd : fds s' = set_fd (fp s) n None (fds s)).
    { unfold s'. rewrite fds_upd, Eu1, Eu3. change (fds t1) with (fds t). change (fp t1) with (fp t). by rewrite Et1, Et3. }
    assert (Ec : counts s' = alter (fun c => s16 (c - 1)) f (counts s)).
    { change (counts s') with (counts u). rewrite Eu2. unfold t1. rewrite (counts_upd f _ (fun c => s16 (c - 1))) by done. by rewrite Et2. }
    pose proof (my_fd_slot s n f HF Hp Hfd) as Hf. pose proof (counts_bound s f HF Hf). pose proof (counts_used s n f HF Hp Hn Hfd).
    apply HQ.
    + eapply (FILES_close s s' n f); try done. apply s16_count. lia.
    + change (fp s') with (fp u). by rewrite Eu3.
    + change (m_in s') with (m_in u). by rewrite Eu4.
    + rewrite (proj2 (Z.leb_le _ _)), (proj2 (Z.ltb_lt _ _)) by (unfold open_max in Hn; lia). done.
  - apply wlp_gets. destruct (view_fields _ _ H1) as (E1 & E2 & E3 & E4). apply HQ; [eapply FILES_same; [done|apply H1]|done..|]. rewrite E1.
    destruct (Z.leb_spec 0 (fm_i1 (m_in s))); [|done]. destruct (Z.ltb_spec (fm_i1 (m_in s)) OPEN_MAX); [|done]. cbn [andb].
    assert (Hn : (Z.to_nat (fm_i1 (m_in s)) < open_max)%nat) by (unfold open_max; lia).
    symmetry. apply set_fd_same; [by rewrite (fo_procs _ _ HF)|by rewrite (fo_open _ _ HF)|apply (Ho _ Hn); lia].
Qed.

(** *** Opening *)

(** A descriptor and a slot that [get_fd] found, and the message that holds
    the descriptor until it is claimed. *)
Record claimable s (n f : nat) : Prop := {
  cl_files : FILES s;
  cl_proc : (fp s < FPROCS)%nat;
  cl_msg : fm_i1 (m_in s) = Z.of_nat n;
  cl_fd : (n < open_max)%nat;
  cl_none : my_fd s n = None;
  cl_slot : (f < NR_FILPS)%nat;
  cl_free : counts s !!! f = 0;
}.
Lemma claimable_same s s' n f : claimable s n f -> same_view s s' -> claimable s' n f.
Proof.
  intros [C1 C2 C3 C4 C5 C6 C7] Hv. pose proof (view_fields _ _ Hv) as (E1 & E2 & E3 & E4).
  split; rewrite ?E2, ?E3, ?E4, ?(same_my_fd s s') by done; try done. eapply FILES_same; [done|apply Hv].
Qed.

Lemma claim_fd_ok r rip n f oflags s (Q : Z -> fst_ X -> Prop) : claimable s n f ->
  (forall a s', FILES s' -> fp s' = fp s -> Q a s') -> wlp (claim_fd r rip f oflags) Q s.
Proof.
  intros [HF Hp Hm Hn Hfd Hf Hc] HQ. unfold claim_fd. destruct (negb (r =? OK)).
  - apply wlp_kept; [kept_goal|]. intros a s' Hv. apply HQ; [eapply FILES_same; [done|apply Hv]|apply Hv].
  - apply wlp_bind, wlp_gets. rewrite Hm, Nat2Z.id. unfold upd_fp, upd_fproc, upd_filp.
    apply wlp_bind, wlp_bind, wlp_gets, wlp_modify. apply wlp_bind, wlp_modify, wlp_ret. apply HQ; [|done].
    eapply (FILES_open s _ n f (fun _ => 1)); [done..|exact (fds_upd (fp s) n (Some f) s)| |lia].
    match goal with |- counts (?t <| filps ::= _ |>) = _ => by apply (counts_upd f _ (fun _ => 1) t) end.
Qed.

Lemma common_open_ok oflags omode s (Q : Z -> fst_ X -> Prop) : FILES s -> (fp s < FPROCS)%nat ->
  (forall a s', FILES s' -> fp s' = fp s -> Q a s') -> wlp (common_open oflags omode) Q s.
Proof.
  intros HF Hp HQ. unfold common_open. apply wlp_bind, get_fd_ok; [done|done|lia|]. intros r k f s1 H1 Hr.
  unfold set_m. apply wlp_bind, wlp_modify. set (s2 := s1 <| m_in ::= _ |>).
  destruct (view_fields _ _ H1) as (E1 & E2 & E3 & _).
  assert (HF2 : FILES s2) by (eapply FILES_same; [exact HF|]; split; [exact E1|by split]).
  destruct (Z.eqb_spec r OK) as [->|_]; cbn [negb]; [|by apply wlp_ret, HQ].
  destruct (Hr eq_refl) as (n & -> & Hn & Hfd & Hf & Hc).
  assert (C2 : claimable s2 n f).
  { split; [done|by change (fp s2) with (fp s1); rewrite E3|done|done| |done|by change (counts s2) with (counts s1); rewrite E2].
    unfold my_fd in *. change (fds s2) with (fds s1). change (fp s2) with (fp s1). by rewrite E1, E3. }
  assert (HQ' : forall a s', FILES s' -> fp s' = fp s2 -> Q a s') by (intros a s' HF' Ep; apply HQ; [done|by rewrite Ep]).
  assert (Hclaim : forall t r' rip, same_view s2 t -> wlp (claim_fd r' rip f oflags) Q t).
  { intros t r' rip Ht. apply (claim_fd_ok _ _ n); [by apply (claimable_same s2)|]. intros a s' HF' Ep. apply HQ'; [done|]. rewrite Ep. apply Ht. }
  assert (Hdone : forall t a, same_view s2 t -> Q a t) by (intros t a Ht; apply HQ'; [eapply FILES_same; [done|apply Ht]|apply Ht]).
  clearbody s2. clear - Hclaim Hdone. assert (H0 : same_view s2 s2) by done. destruct (tst oflags O_CREAT).
  - do 2 kstep. apply wlp_bind, wlp_gets. destruct (_ =? OK); [by apply Hclaim|]. destruct (negb _); [by apply wlp_ret, Hdone|].
    destruct (tst oflags O_EXCL); [by apply Hclaim|]. do 2 kstep. by apply Hclaim.
  - kstep. destruct a as [i|]; [|by apply wlp_gets, Hdone]. kstep. by apply Hclaim.
Qed.

Lemma do_creat_ok s (Q : Z -> fst_ X -> Prop) : FILES s -> (fp s < FPROCS)%nat -> (forall a s', FILES s' -> fp s' = fp s -> Q a s') -> wlp do_creat Q s.
Proof.
  intros HF Hp HQ. unfold do_creat. do 2 kstep. kname t Ht. destruct (view_fields _ _ Ht) as (_ & _ & E3 & _).
  assert (HF' : FILES t) by (eapply FILES_same; [done|apply Ht]). destruct (negb _); [by apply wlp_gets, HQ|].
  apply common_open_ok; [done|by rewrite E3|]. intros r s' HF2 E. apply HQ; [done|congruence].
Qed.
Lemma do_open_ok s (Q : Z -> fst_ X -> Prop) : FILES s -> (fp s < FPROCS)%nat -> (forall a s', FILES s' -> fp s' = fp s -> Q a s') -> wlp do_open Q s.
Proof.
  intros HF Hp HQ. unfold do_open. do 2 kstep. kname t Ht. destruct (view_fields _ _ Ht) as (_ & _ & E3 & _).
  assert (HF' : FILES t) by (eapply FILES_same; [done|apply Ht]). destruct (negb _); [by apply wlp_gets, HQ|].
  apply common_open_ok; [done|by rewrite E3|]. intros r s' HF2 E. apply HQ; [done|congruence].
Qed.

(** *** Pipes *)

(** The two steps that open, and that give up, a descriptor. *)
Definition moved s s' (k : nat) (o : option nat) (f : nat) (c : Z) : Prop :=
  fp s' = fp s /\ fds s' = set_fd (fp s) k o (fds s) /\ counts s' = alter (fun _ => c) f (counts s).
Lemma moved_fd s s' k o f c m : FILES s -> (fp s < FPROCS)%nat -> (k < open_max)%nat -> moved s s' k o f c ->
  my_fd s' m = if decide (k = m) then o else my_fd s m.
Proof.
  intros HF Hp Hk (E1 & E2 & _). unfold my_fd. rewrite E1, E2, set_fd_lookup by (rewrite ?(fo_procs _ _ HF), ?(fo_open _ _ HF); done).
  destruct (decide (k = m)) as [->|]; [by rewrite decide_True|]. by rewrite decide_False by naive_solver.
Qed.
Lemma moved_count s s' k o f c g : FILES s -> moved s s' k o f c -> (f < NR_FILPS)%nat -> counts s' !!! g = if decide (f = g) then c else counts s !!! g.
Proof.
  intros HF (_ & _ & E3) Hf. rewrite E3. destruct (decide (f = g)) as [->|]; [by rewrite tbl_alter_eq by (by rewrite (fo_slots _ _ HF))|by rewrite tbl_alter_ne].
Qed.

Lemma move_step s n o f g c (K : FS Z) (Q : Z -> fst_ X -> Prop) : (forall x, filp_count (g x) = c) ->
  (forall s', moved s s' n o f c -> wlp K Q s') ->
  wlp (upd_fp (fun p => p <| fp_filp ::= <[n := o]> |>);; upd_filp f g;; K) Q s.
Proof.
  intros Hg HK. unfold upd_fp, upd_fproc, upd_filp. apply wlp_bind, wlp_bind, wlp_gets, wlp_modify. apply wlp_bind, wlp_modify. apply HK.
  split; [done|split; [exact (fds_upd (fp s) n o s)|]]. match goal with |- counts (?t <| filps ::= _ |>) = _ => by apply (counts_upd f _ (fun _ => c) t) end.
Qed.
Lemma moved_open s s' n f : FILES s -> (fp s < FPROCS)%nat -> (n < open_max)%nat -> my_fd s n = None -> (f < NR_FILPS)%nat -> counts s !!! f = 0 ->
  moved s s' n (Some f) f 1 -> FILES s'.
Proof. intros HF Hp Hn Hfd Hf Hc (_ & E2 & E3). eapply (FILES_open s s' n f (fun _ => 1)); done || lia. Qed.
Lemma moved_close s s' n f : FILES s -> (fp s < FPROCS)%nat -> (n < open_max)%nat -> my_fd s n = Some f -> counts s !!! f = 1 ->
  moved s s' n None f 0 -> FILES s'.
Proof. intros HF Hp Hn Hfd Hc (_ & E2 & E3). eapply (FILES_close s s' n f (fun _ => 0)); done || lia. Qed.

Lemma do_pipe_ok s (Q : Z -> fst_ X -> Prop) : FILES s -> (fp s < FPROCS)%nat -> (forall a s', FILES s' -> fp s' = fp s -> Q a s') -> wlp do_pipe Q s.
Proof.
  intros HF Hp HQ. unfold do_pipe. apply wlp_bind, get_fd_ok; [done|done|lia|]. intros r k0 f0 s1 H1 Hr.
  destruct (view_fields _ _ H1) as (E1 & E2 & E3 & _). assert (HF1 : FILES s1) by (eapply FILES_same; [done|apply H1]).
  destruct (Z.eqb_spec r OK) as [->|_]; cbn [negb]; [|by apply wlp_ret, HQ]. destruct (Hr eq_refl) as (n0 & -> & Hn0 & Hfd0 & Hf0 & Hc0).
  rewrite Nat2Z.id. rewrite <- E3 in Hp. rewrite <- E2 in Hc0. rewrite <- (same_my_fd s s1) in Hfd0 by done.
  apply (move_step _ _ _ _ _ 1); [done|]. intros s2 M2. pose proof (moved_open _ _ _ _ HF1 Hp Hn0 Hfd0 Hf0 Hc0 M2) as HF2.
  assert (Hp2 : fp s2 = fp s1) by apply M2. assert (Hp2' : (fp s2 < FPROCS)%nat) by (by rewrite Hp2).
  apply wlp_bind, get_fd_ok; [done|done|lia|]. intros r k1 f1 s3 H3 Hr3. destruct (view_fields _ _ H3) as (_ & F2 & F3 & _).
  assert (HF3 : FILES s3) by (eapply FILES_same; [exact HF2|apply H3]). assert (Hp3 : (fp s3 < FPROCS)%nat) by (by rewrite F3).
  assert (G0 : my_fd s3 n0 = Some f0) by (rewrite (same_my_fd s2 s3), (moved_fd s1 s2 n0 (Some f0) f0 1) by done; by rewrite decide_True).
  assert (D0 : counts s3 !!! f0 = 1) by (rewrite F2, (moved_count s1 s2 n0 (Some f0) f0 1) by done; by rewrite decide_True).
  destruct (Z.eqb_spec r OK) as [->|_]; cbn [negb].
  2:{ apply (move_step _ _ _ _ _ 0); [done|]. intros s4 M4. apply wlp_ret, HQ; [by eapply (moved_close s3 s4)|]. destruct M4 as (-> & _). congruence. }
  destruct (Hr3 eq_refl) as (n1 & -> & Hn1 & Hfd1 & Hf1 & Hc1). rewrite Nat2Z.id. rewrite <- (same_my_fd s2 s3) in Hfd1 by done. rewrite <- F2 in Hc1.
  apply (move_step _ _ _ _ _ 1); [done|]. intros s4 M4. pose proof (moved_open _ _ _ _ HF3 Hp3 Hn1 Hfd1 Hf1 Hc1 M4) as HF4.
  assert (Hne : n1 <> n0) by congruence. assert (Hnf : f1 <> f0) by (intros ->; lia).
  assert (Hp4 : fp s4 = fp s3) by apply M4. assert (H0 : same_view s4 s4) by done. do 4 kstep. kname t Ht.
  destruct (view_fields _ _ Ht) as (_ & T2 & T3 & _). assert (HFt : FILES t) by (eapply FILES_same; [exact HF4|apply Ht]).
  assert (Hpt : (fp t < FPROCS)%nat) by (by rewrite T3, Hp4). assert (Epq : fp t = fp s) by congruence.
  match goal with |- wlp (match ?o with _ => _ end) _ _ => destruct o as [rip|] end.
  - assert (H0 : same_view t t) by done. clear Ht. do 6 kstep. kname u Hu. apply wlp_ret, HQ; [eapply FILES_same; [exact HFt|apply Hu]|].
    destruct Hu as [(_ & _ & ->) _]. done.
  - apply (move_step _ _ _ _ _ 0); [done|]. intros w5 M5.
    assert (HF5 : FILES w5).
    { eapply (moved_close t w5 n0 f0); try done; rewrite ?T2, ?(same_my_fd s4 t) by done.
      - rewrite (moved_fd s3 s4 n1 (Some f1) f1 1) by done. by rewrite decide_False.
      - rewrite (moved_count s3 s4 n1 (Some f1) f1 1) by done. by rewrite decide_False. }
    assert (Hp5 : fp w5 = fp t) by apply M5. apply (move_step _ _ _ _ _ 0); [done|]. intros w6 M6. apply wlp_gets, HQ; [|destruct M6 as (-> & _); congruence].
    eapply (moved_close w5 w6 n1 f1); try done; [by rewrite Hp5|..].
    + rewrite (moved_fd t w5 n0 None f0 0), decide_False, (same_my_fd s4 t), (moved_fd s3 s4 n1 (Some f1) f1 1) by done. by rewrite decide_True.
    + rewrite (moved_count t w5 n0 None f0 0), decide_False, T2, (moved_count s3 s4 n1 (Some f1) f1 1) by done. by rewrite decide_True.
Qed.

(** *** Sharing a slot *)
Lemma share_step s n f g (Q : Z -> fst_ X -> Prop) v : FILES s -> (fp s < FPROCS)%nat -> (n < open_max)%nat -> my_fd s n = None -> (f < NR_FILPS)%nat ->
  (forall x, filp_count (g x) = s16 (filp_count x + 1)) -> (forall s', FILES s' -> fp s' = fp s -> Q v s') ->
  wlp (upd_filp f g;; upd_fp (fun p => p <| fp_filp ::= <[n := Some f]> |>);; mret v) Q s.
Proof.
  intros HF Hp Hn Hfd Hf Hg HQ. unfold upd_fp, upd_fproc, upd_filp. apply wlp_bind, wlp_modify. apply wlp_bind, wlp_bind, wlp_gets, wlp_modify, wlp_ret.
  apply HQ; [|done]. eapply (FILES_open s _ n f (fun c => s16 (c + 1))); try done.
  - match goal with |- fds (?t <| fprocs ::= _ |>) = _ => exact (fds_upd (fp s) n (Some f) t) end.
  - exact (counts_upd f g (fun c => s16 (c + 1)) s Hg).
  - pose proof (counts_bound s f HF Hf). apply s16_count. lia.
Qed.
Lemma FILES_msg s h : FILES s -> FILES (s <| m_in ::= h |>).
Proof. intros HF. exact HF. Qed.

Lemma do_dup_ok s (Q : Z -> fst_ X -> Prop) : FILES s -> (fp s < FPROCS)%nat -> (forall a s', FILES s' -> fp s' = fp s -> Q a s') -> wlp do_dup Q s.
Proof.
  intros HF Hp HQ. unfold do_dup. apply wlp_bind, wlp_gets. set (rfd := s16 _). apply wlp_bind, get_filp_ok; [done..|]. intros o s1 H1 Ho.
  destruct (view_fields _ _ H1) as (E1 & E2 & E3 & E4). assert (HF1 : FILES s1) by (eapply FILES_same; [done|apply H1]).
  destruct o as [f|]; [|by apply wlp_gets, HQ]. destruct Ho as (n & En & Hn & Hfd). pose proof (my_fd_slot s n f HF Hp Hfd) as Hf. cbv zeta.
  destruct (_ =? rfd).
  - apply wlp_bind, get_fd_ok; [done|by rewrite E3|lia|]. intros r k f' s2 H2 Hr. destruct (view_fields _ _ H2) as (F1 & F2 & F3 & F4).
    assert (HF2 : FILES s2) by (eapply FILES_same; [exact HF1|apply H2]). unfold set_m. apply wlp_bind, wlp_modify.
    destruct (Z.eqb_spec r OK) as [->|_]; cbn [negb]; [|apply wlp_ret, HQ; [done|cbn; congruence]].
    destruct (Hr eq_refl) as (m & -> & Hm & Hfdm & _ & _). rewrite Nat2Z.id. rewrite <- (same_my_fd s1 s2) in Hfdm by done.
    match goal with |- wlp _ _ ?x => assert (Ef : fp x = fp s) by (cbn; congruence) end.
    apply share_step; [done|by rewrite Ef|done|done|done|done|]. intros s' HF' Ep. apply HQ; [done|congruence].
  - destruct (Z.ltb_spec (fm_i2 (m_in s)) 0); cbn [orb]; [by apply wlp_ret, HQ|].
    destruct (Z.leb_spec OPEN_MAX (fm_i2 (m_in s))); [by apply wlp_ret, HQ|]. destruct (rfd =? _); [by apply wlp_ret, HQ|].
    unfold set_m. apply wlp_bind, wlp_modify. set (s2 := s1 <| m_in ::= _ |>). assert (F3 : fp s2 = fp s1) by done.
    assert (HF2 : FILES s2) by (apply FILES_msg, HF1). assert (Hp2 : (fp s2 < FPROCS)%nat) by (by rewrite F3, E3).
    assert (Hk : (Z.to_nat (fm_i2 (m_in s)) < open_max)%nat) by (unfold open_max; lia).
    apply wlp_bind, do_close_ok; [done..|]. intros a s3 HF3 G3 _ G1. change (fm_i1 (m_in s2)) with (fm_i2 (m_in s1)) in G1. rewrite E4 in G1.
    unfold close_fd in G1. rewrite (proj2 (Z.leb_le _ _)), (proj2 (Z.ltb_lt _ _)) in G1 by lia. cbn [andb] in G1.
    apply share_step; [done|by rewrite G3|done| |done|done|].
    + unfold my_fd. rewrite G3, G1, set_fd_lookup by (rewrite ?(fo_procs _ _ HF2), ?(fo_open _ _ HF2); done). by rewrite decide_True.
    + intros s' HF' Ep. apply HQ; [done|congruence].
Qed.

Lemma do_fcntl_ok s (Q : Z -> fst_ X -> Prop) : FILES s -> (fp s < FPROCS)%nat -> (forall a s', FILES s' -> fp s' = fp s -> Q a s') -> wlp do_fcntl Q s.
Proof.
  intros HF Hp HQ. unfold do_fcntl. apply wlp_bind, wlp_gets. apply wlp_bind, get_filp_ok; [done..|]. intros o s1 H1 Ho.
  destruct (view_fields _ _ H1) as (E1 & E2 & E3 & E4). assert (HF1 : FILES s1) by (eapply FILES_same; [done|apply H1]).
  destruct o as [f|]; [|by apply wlp_gets, HQ]. destruct Ho as (n & En & Hn & Hfd). pose proof (my_fd_slot s n f HF Hp Hfd) as Hf.
  destruct (_ =? F_DUPFD).
  - destruct (Z.ltb_spec (fm_i3 (m_in s)) 0); cbn [orb]; [by apply wlp_ret, HQ|]. destruct (OPEN_MAX <=? _); [by apply wlp_ret, HQ|].
    apply wlp_bind, get_fd_ok; [done|by rewrite E3|done|]. intros r k f' s2 H2 Hr. destruct (view_fields _ _ H2) as (F1 & F2 & F3 & F4).
    assert (HF2 : FILES s2) by (eapply FILES_same; [exact HF1|apply H2]).
    destruct (Z.eqb_spec r OK) as [->|_]; cbn [negb]; [|apply wlp_ret, HQ; [done|congruence]].
    destruct (Hr eq_refl) as (m & -> & Hm & Hfdm & _ & _). rewrite Nat2Z.id. rewrite <- (same_my_fd s1 s2) in Hfdm by done.
    apply share_step; [done|by rewrite F3, E3|done|done|done|done|]. intros s' HF' Ep. apply HQ; [done|congruence].
  - assert (Hend : forall t a, same_view s t -> Q a t).
    { intros t a Ht. apply HQ; [eapply FILES_same; [exact HF|apply Ht]|apply Ht]. }
    destruct (_ =? F_GETFL); [by apply wlp_gets, Hend|]. destruct (_ =? F_SETFL); [|by apply wlp_ret, Hend]. cbv zeta.
    kstep. by apply wlp_ret, Hend.
Qed.

(** *** [do_fork] *)
Definition closed s (i : nat) : Prop := forall k, (k < open_max)%nat -> fds s !!! i !!! k = None.

Lemma refs_in_none l f : (forall k, (k < length l)%nat -> l !!! k = None) -> refs_in l f = 0.
Proof.
  induction l as [|o l IH]; intros Hl; [done|]. rewrite refs_in_cons, IH by (intros k Hk; apply (Hl (S k)); cbn; lia).
  specialize (Hl 0%nat ltac:(cbn; lia)). cbn in Hl. subst o. unfold one. by rewrite decide_False.
Qed.
Lemma files_fork t c i j c' : files_ok t c -> (i < FPROCS)%nat -> (j < FPROCS)%nat -> (forall f, refs_in (t !!! j) f = 0) ->
  length c' = NR_FILPS -> (forall f, (f < NR_FILPS)%nat -> c' !!! f = c !!! f + refs_in (t !!! i) f) -> files_ok (<[j := t !!! i]> t) c'.
Proof.
  intros [Hp Ho Hs Hr Ht] Hi Hj Hnone Hc Hn. split.
  - by rewrite length_insert.
  - intros m Hm. destruct (decide (j = m)) as [->|]; [rewrite list_lookup_total_insert_eq by (by rewrite Hp); by apply Ho|].
    rewrite list_lookup_total_insert_ne by done. by apply Ho.
  - done.
  - intros f Hf. rewrite refs_insert, Hn, Hr, Hnone by (rewrite ?Hp; done). lia.
  - intros m k f Hm. destruct (decide (j = m)) as [->|]; [rewrite list_lookup_total_insert_eq by (by rewrite Hp); by apply Ht|].
    rewrite list_lookup_total_insert_ne by done. by apply Ht.
Qed.

Lemma share_filps_ok l : forall s (Q : unit -> fst_ X -> Prop), length (counts s) = NR_FILPS ->
  (forall f, (f < NR_FILPS)%nat -> 0 <= counts s !!! f /\ counts s !!! f + Z.of_nat (length l) <= 1000) ->
  (forall s', fds s' = fds s -> fp s' = fp s -> length (counts s') = NR_FILPS ->
     (forall f, (f < NR_FILPS)%nat -> counts s' !!! f = counts s !!! f + refs_in l f) -> Q tt s') -> wlp (share_filps l) Q s.
Proof.
  induction l as [|o l IH]; intros s Q Hl Hc HQ; cbn [share_filps].
  - apply wlp_ret, HQ; [done..|]. intros f Hf. unfold refs_in. cbn. lia.
  - apply wlp_bind. destruct o as [g|].
    + unfold upd_filp. apply wlp_modify. set (s1 := s <| filps ::= _ |>).
      assert (E1 : counts s1 = alter (fun c => s16 (c + 1)) g (counts s)) by (by apply (counts_upd g _ (fun c => s16 (c + 1)))).
      assert (Ec : forall f, (f < NR_FILPS)%nat -> counts s1 !!! f = counts s !!! f + one (Some g) f).
      { intros f Hf. rewrite E1. unfold one. specialize (Hc f Hf). cbn [length] in Hc. destruct (decide (g = f)) as [->|].
        - rewrite tbl_alter_eq by (by rewrite Hl). rewrite decide_True by done. apply s16_count. lia.
        - rewrite tbl_alter_ne, decide_False by congruence. lia. }
      apply IH; [by rewrite E1, length_alter| |].
      * intros f Hf. rewrite Ec by done. specialize (Hc f Hf). cbn [length] in Hc. unfold one. destruct (decide _); lia.
      * intros s' F1 F2 F3 F4. apply HQ; [done..|]. intros f Hf. rewrite F4, Ec, refs_in_cons by done. lia.
    + apply wlp_ret. apply IH; [done| |].
      * intros f Hf. specialize (Hc f Hf). cbn [length] in Hc. lia.
      * intros s' F1 F2 F3 F4. apply HQ; [done..|]. intros f Hf. rewrite F4, refs_in_cons by done. unfold one. rewrite decide_False by done. lia.
Qed.

Lemma fork_shares_ok s (Q : Z -> fst_ X -> Prop) : FILES s ->
  (fwho s = MM_PROC_NR -> let parent := Z.to_nat (fm_i1 (m_in s)) in let child := Z.to_nat (fm_i2 (m_in s)) in
     (parent < FPROCS)%nat /\ (child < FPROCS)%nat /\ closed s child) ->
  (forall a s', FILES s' -> fp s' = fp s -> Q a s') -> wlp do_fork Q s.
Proof.
  intros HF Hmm HQ. unfold do_fork. apply wlp_bind, wlp_gets. destruct (Z.eqb_spec (fwho s) MM_PROC_NR) as [Ew|_]; cbn [negb]; [|by apply wlp_ret, HQ].
  destruct (Hmm Ew) as (Hpar & Hch & Hcl). apply wlp_bind, wlp_gets. set (parent := Z.to_nat (fm_i1 (m_in s))) in *. set (child := Z.to_nat (fm_i2 (m_in s))) in *.
  apply wlp_bind, wlp_gets. apply wlp_bind, wlp_modify. set (s1 := s <| fprocs ::= _ |>). set (p := FP parent s) in *.
  assert (Hlp : length (fprocs s) = FPROCS) by (by apply FILES_procs).
  assert (Ep : fp_filp p = fds s !!! parent).
  { unfold p, FP, fds. destruct (lookup_lt_is_Some_2 (fprocs s) parent) as [q Eq]; [by rewrite Hlp|]. rewrite (list_lookup_total_correct _ _ _ Eq).
    symmetry. apply list_lookup_total_correct. by rewrite list_lookup_fmap, Eq. }
  assert (E1 : fds s1 = <[child := fds s !!! parent]> (fds s)).
  { unfold s1, fds, set_field; cbn [fprocs]. rewrite (list_fmap_alter fp_filp _ (fun _ => fp_filp p)) by (by apply Forall_true). rewrite Ep. fold (fds s).
    apply list_eq. intros j. rewrite list_lookup_alter. destruct (decide (child = j)) as [->|].
    - destruct (lookup_lt_is_Some_2 (fds s) j) as [q Eq]; [by rewrite (fo_procs _ _ HF)|]. rewrite Eq. by rewrite list_lookup_insert_eq by (by rewrite (fo_procs _ _ HF)).
    - by rewrite list_lookup_insert_ne. }
  assert (Ec1 : counts s1 = counts s) by done. assert (Ef1 : fp s1 = fp s) by done. clearbody s1.
  apply wlp_bind, share_filps_ok; [rewrite Ec1; apply HF| |].
  { intros f Hf. rewrite Ec1. pose proof (counts_bound s f HF Hf). rewrite Ep, (fo_open _ _ HF) by done. unfold open_max, OPEN_MAX. lia. }
  intros s2 F1 F2 F3 F4. assert (HF2 : FILES s2).
  { unfold FILES. rewrite F1, E1. apply (files_fork _ (counts s)); try done.
    - intros f. apply refs_in_none. intros k Hk. apply Hcl. by rewrite (fo_open _ _ HF) in Hk.
    - intros f Hf. rewrite F4, Ec1, Ep by done. done. }
  assert (H0 : same_view s2 s2) by done. do 6 kstep. kname t Ht. apply wlp_ret, HQ; [eapply FILES_same; [exact HF2|apply Ht]|].
  destruct Ht as [(_ & _ & ->) _]. congruence.
Qed.

(** *** [do_exit] *)
Lemma close_all_ok n : forall i s (Q : unit -> fst_ X -> Prop), FILES s -> (fp s < FPROCS)%nat -> 0 <= i -> i + Z.of_nat n <= OPEN_MAX ->
  (forall s', FILES s' -> fp s' = fp s ->
     (forall k, (k < open_max)%nat -> my_fd s k = None \/ i <= Z.of_nat k < i + Z.of_nat n -> my_fd s' k = None) -> Q tt s') ->
  wlp (close_all n i) Q s.
Proof.
  induction n as [|n IH]; intros i s Q HF Hp Hi Hn HQ; cbn [close_all].
  - apply wlp_ret, HQ; [done..|]. intros k Hk [?|?]; [done|lia].
  - apply wlp_bind, wlp_modify. set (s1 := s <| m_in ::= _ |>). assert (HF1 : FILES s1) by (apply FILES_msg, HF).
    apply wlp_bind, do_close_ok; [done|done|]. intros _ s2 HF2 G2 _ G1. change (fm_i1 (m_in s1)) with i in G1. change (fp s1) with (fp s) in *. change (fds s1) with (fds s) in G1.
    unfold close_fd in G1. rewrite (proj2 (Z.leb_le _ _)), (proj2 (Z.ltb_lt _ _)) in G1 by lia. cbn [andb] in G1.
    apply IH; [done|by rewrite G2|lia|lia|]. intros s' HF' Ep Hk. apply HQ; [done|congruence|]. intros k Hlt Hor. apply Hk; [done|].
    unfold my_fd. rewrite G2, G1, set_fd_lookup by (rewrite ?(fo_procs _ _ HF), ?(fo_open _ _ HF); try done; unfold open_max; lia).
    destruct (decide (fp s = fp s /\ Z.to_nat i = k)) as [|Hne]; [by left|]. destruct Hor as [?|?]; [by left|right].
    assert (Z.to_nat i <> k) by (intros E; by apply Hne). lia.
Qed.

Lemma do_exit_ok s (Q : Z -> fst_ X -> Prop) : FILES s -> (fwho s = MM_PROC_NR -> (Z.to_nat (fm_i1 (m_in s)) < FPROCS)%nat) ->
  (forall a s', FILES s' -> (fwho s = MM_PROC_NR -> closed s' (Z.to_nat (fm_i1 (m_in s)))) -> Q a s') -> wlp do_exit Q s.
Proof.
  intros HF Hmm HQ. unfold do_exit. apply wlp_bind, wlp_gets. destruct (Z.eqb_spec (fwho s) MM_PROC_NR) as [Ew|Ew]; cbn [negb]; [|by apply wlp_ret, HQ].
  apply wlp_bind, wlp_gets. set (i := Z.to_nat (fm_i1 (m_in s))) in *. specialize (Hmm Ew). apply wlp_bind, wlp_modify. set (s1 := s <| fp := i |>).
  assert (HF1 : FILES s1) by exact HF. assert (H0 : same_files s1 s1) by done.
  assert (Hstep : forall {A} (m : FS A) (k : A -> FS Z) t, FilesKept m -> same_files s1 t -> (forall a t', same_files s1 t' -> wlp (k a) Q t') -> wlp (m ≫= k) Q t).
  { intros A m k t Hm Ht Hk. apply wlp_bind, wlp_files; [done|]. intros a t' Ht'. apply Hk. by transitivity t. }
  apply Hstep; [apply kept_files; kept_goal|done|]. intros p t1 T1.
  apply Hstep; [apply kept_files; kept_goal|done|]. intros _ t2 T2.
  apply Hstep; [apply kept_files; kept_goal|done|]. intros p2 t3 T3.
  apply Hstep; [unfold FilesKept; kept_text|done|]. intros _ t4 T4.
  apply wlp_bind, close_all_ok; [eapply FILES_same; [exact HF1|done]|by destruct T4 as (_ & _ & ->)|done|done|].
  intros t5 HF5 E5 Hcl. assert (Hv5 : same_view t5 t5) by done. do 5 kstep. kname t Ht. apply wlp_ret, HQ; [eapply FILES_same; [exact HF5|apply Ht]|].
  intros _ k Hk. destruct Ht as [(E & _ & _) _]. rewrite E. assert (Ei : fp t5 = i) by (rewrite E5; by destruct T4 as (_ & _ & ->)).
  unfold my_fd in Hcl. rewrite Ei in Hcl. apply Hcl; [done|right]. unfold open_max in Hk. lia.
Qed.

(** ** The main loop *)

(** What the senders of messages respect: tasks only revive processes, MM
    names entries of the table, and forks into one that has no open files. *)
Record legit s : Prop := {
  lg_task : fwho s < 0 -> fs_call s = 67;
  lg_who : fwho s < Z.of_nat FPROCS;
  lg_exit : fs_call s = 1 -> fwho s = MM_PROC_NR -> 0 <= fm_i1 (m_in s) < Z.of_nat FPROCS;
  lg_fork : fs_call s = 2 -> fwho s = MM_PROC_NR -> 0 <= fm_i1 (m_in s) < Z.of_nat FPROCS /\ 0 <= fm_i2 (m_in s) < Z.of_nat FPROCS /\
    closed s (Z.to_nat (fm_i2 (m_in s)));
}.

#[export] Instance get_work_files : FilesKept (X := X) get_work.
Proof. kept. Qed.

Definition fd_calls : list Z := [1; 2; 5; 6; 8; 41; 42; 55].
Section dispatch.
#[local] Hint Constants Opaque : typeclass_instances.
#[export] Instance no_sys_files : FilesKept (X := X) no_sys.
Proof. kept. Qed.
#[export] Instance do_lseek_files : FilesKept (X := X) do_lseek.
Proof. apply kept_files, _. Qed.
Lemma call_vector_files n : n ∉ fd_calls -> FilesKept (X := X) (call_vector n).
Proof.
  intros Hn. unfold call_vector.
  repeat match goal with |- FilesKept (match ?x with _ => _ end) => destruct x end;
    first [apply _ | exfalso; apply Hn, (bool_decide_unpack (_ ∈ fd_calls)); vm_compute; exact I].
Qed.
End dispatch.
Lemma call_vector_ok n s (Q : Z -> fst_ X -> Prop) : FILES s -> n = fs_call s -> legit s -> (0 <= fwho s -> fp s = Z.to_nat (fwho s)) ->
  (forall a s', FILES s' -> Q a s') -> wlp (call_vector n) Q s.
Proof.
  intros HF -> [L1 L2 L3 L4] Hfp HQ. destruct (decide (fs_call s ∈ fd_calls)) as [Hin|Hout].
  2:{ apply wlp_files; [by apply call_vector_files|]. intros a s' Hs. apply HQ. eapply FILES_same; [exact HF|done]. }
  assert (Hp : (fp s < FPROCS)%nat).
  { assert (0 <= fwho s).
    { destruct (decide (fwho s < 0)) as [Hneg|]; [|lia]. rewrite (L1 Hneg) in Hin. exfalso. unfold fd_calls in Hin. set_solver. }
    rewrite Hfp by done. lia. }
  assert (HQ' : forall a s', FILES s' -> fp s' = fp s -> Q a s') by eauto. unfold fd_calls in Hin.
  repeat (apply elem_of_cons in Hin as [E|Hin]; [rewrite E; cbn [call_vector]|]); [..|by apply elem_of_nil in Hin].
  - apply do_exit_ok; [done| |eauto]. intros Ew. specialize (L3 E Ew). lia.
  - apply fork_shares_ok; [done| |done]. intros Ew. destruct (L4 E Ew) as (? & ? & ?). split; [lia|split; [lia|done]].
  - by apply do_open_ok.
  - apply do_close_ok; eauto.
  - by apply do_creat_ok.
  - by apply do_dup_ok.
  - by apply do_pipe_ok.
  - by apply do_fcntl_ok.
Qed.

Lemma main_step_ok s (Q : unit -> fst_ X -> Prop) : FILES s -> (forall s1, get_work s = Done tt s1 -> legit s1) ->
  (forall s', FILES s' -> Q tt s') -> wlp main_step Q s.
Proof.
  intros HF Hl HQ. unfold main_step. apply wlp_bind. pose proof (get_work_files s) as Hg. unfold wlp at 1.
  destruct (get_work s) as [[] s1|w s1|] eqn:E; [|done..]. specialize (Hl s1 eq_refl).
  assert (HF1 : FILES s1) by (by eapply FILES_same).
  apply wlp_bind, wlp_gets, wlp_bind, wlp_modify. set (s2 := s1 <| fp := _ |>). apply wlp_bind, wlp_gets, wlp_bind, wlp_modify.
  match goal with |- wlp _ _ ?x => set (s3 := x) end. apply wlp_bind, wlp_gets.
  assert (HF3 : FILES s3) by exact HF1. apply wlp_bind.
  assert (Hcall : wlp (if (fs_call s3 <? 0) || (NCALLS <=? fs_call s3) then mret EBADCALL else call_vector (fs_call s3)) (fun _ s' => FILES s') s3).
  { destruct (_ || _); [by apply wlp_ret|]. apply call_vector_ok; [done|done| | |done].
    - destruct Hl as [L1 L2 L3 L4]. split; [exact L1|exact L2|exact L3|exact L4].
    - intros Hw. change (fwho s3) with (fwho s1) in *. change (fp s3) with (if fwho s1 <? 0 then FPROCS else Z.to_nat (fwho s1)).
      by rewrite (proj2 (Z.ltb_ge _ _)) by done. }
  eapply wlp_mono; [exact Hcall|]. cbn beta. intros r s4 HF4. clearbody s3.
  assert (H0 : same_view s4 s4) by done. kstep. destruct a; [apply wlp_ret; apply HQ; eapply FILES_same; [exact HF4|apply Hv]|].
  do 2 kstep. apply wlp_kept; [kept_goal|]. intros [] s' Hs'. apply HQ. eapply FILES_same; [eapply FILES_same; [exact HF4|apply Hv]|apply Hs'].
Qed.

(** ** Start-up *)
Record blank s : Prop := {
  bl_procs : fprocs s = replicate FPROCS fproc0;
  bl_filps : filps s = replicate NR_FILPS filp0;
}.
Lemma blank_FILES s : blank s -> FILES s.
Proof.
  intros [E1 E2]. unfold FILES, fds, counts. rewrite E1, E2. rewrite !fmap_replicate. split.
  - by rewrite length_replicate.
  - intros i Hi. by rewrite lookup_total_replicate_2.
  - by rewrite length_replicate.
  - intros f Hf. rewrite lookup_total_replicate_2 by done. unfold refs. rewrite refs_in_none; [done|]. intros k Hk.
    assert (E : concat (replicate FPROCS (fp_filp fproc0)) = replicate 640 None) by (vm_compute; reflexivity). rewrite E in *.
    rewrite length_replicate in Hk. by apply lookup_total_replicate_2.
  - intros i k f Hi Ek. rewrite lookup_total_replicate_2 in Ek by done. by apply lookup_replicate in Ek as [Ek _].
Qed.

Lemma FILES_step {A B} (m : FS A) (k : A -> FS B) (Q : B -> fst_ X -> Prop) s : FilesKept m -> FILES s -> (forall a s', FILES s' -> wlp (k a) Q s') -> wlp (m ≫= k) Q s.
Proof. intros Hm HF Hk. apply wlp_bind, wlp_files; [done|]. intros a s' Hs. apply Hk. by eapply FILES_same. Qed.
Lemma init_proc_ok i s (Q : unit -> fst_ X -> Prop) : FILES s -> (forall s', FILES s' -> Q tt s') -> wlp (init_proc i) Q s.
Proof.
  intros HF HQ. unfold init_proc. apply wlp_bind, wlp_modify. assert (HF1 : FILES (s <| fp := i |>)) by exact HF. revert HF1. generalize (s <| fp := i |>). intros s1 HF1.
  do 5 (apply FILES_step; [apply kept_files; kept_goal|done|]; intros).
  apply wlp_kept; [kept_goal|]. intros [] t Ht. apply HQ. eapply FILES_same; [done|apply Ht].
Qed.
Lemma fs_init_ok data_org s (Q : unit -> fst_ X -> Prop) : FILES s -> (forall s', FILES s' -> Q tt s') -> wlp (fs_init data_org) Q s.
Proof.
  intros HF HQ. unfold fs_init. apply FILES_step; [apply _|done|]. intros _ s1 HF1.
  apply FILES_step; [unfold get_boot_parameters; apply kept_files; kept_goal|done|]. intros _ s2 HF2.
  apply FILES_step; [unfold load_ram; apply kept_files; kept_goal|done|]. intros d s3 HF3.
  apply FILES_step; [unfold load_super; apply kept_files; kept_goal|done|]. intros _ s4 HF4.
  apply wlp_bind, init_proc_ok; [done|]. intros s5 HF5. by apply init_proc_ok.
Qed.

(** The states in which the file system waits for work. *)
Inductive serving (data_org : nat -> Z) : fst_ X -> Prop :=
| Started s s' : blank s -> fs_init data_org s = Done tt s' -> serving data_org s'
| Served s s1 s' : serving data_org s -> get_work s = Done tt s1 -> legit s1 -> main_step s = Done tt s' -> serving data_org s'.

Lemma serving_FILES data_org s : serving data_org s -> FILES s.
Proof.
  induction 1 as [s s' Hb E|s s1 s' _ HF Eg Hl E].
  - pose proof (fs_init_ok data_org s (fun _ t => FILES t) (blank_FILES s Hb)) as Hw. unfold wlp in Hw. rewrite E in Hw. by apply Hw.
  - assert (Hw : wlp main_step (fun _ t => FILES t) s).
    { apply main_step_ok; [done| |done]. intros t Et. rewrite Eg in Et. by injection Et as <-. }
    unfold wlp in Hw. by rewrite E in Hw.
Qed.

(** C10. Whatever calls the file system has served since it started, the
    tables of descriptors and of open files agree: every descriptor of every
    process points to a slot of the table, and the count of each slot is the
    number of descriptors that point to it, so that a slot is free exactly
    when nobody uses it; the counts, 16 bits wide, never overflow. *)
Theorem descriptors_counted data_org s : serving data_org s ->
  files_ok (fds s) (counts s) /\ forall f, (f < NR_FILPS)%nat -> 0 <= filp_count (FILP f s) <= 640.
Proof.
  intros Hs. pose proof (serving_FILES data_org s Hs) as HF.
  split; [exact HF|]. intros f Hf. rewrite <- counts_at by (by rewrite FILES_filps). by apply counts_bound.
Qed.

(** C29. [do_exit], called by MM for a process in the table, leaves it no open
    file, and the tables still agree. *)
Theorem exit_closes_all s a s' : files_ok (fds s) (counts s) -> fwho s = MM_PROC_NR -> 0 <= fm_i1 (m_in s) < Z.of_nat FPROCS ->
  do_exit s = Done a s' -> files_ok (fds s') (counts s') /\ forall k, (k < open_max)%nat -> fds s' !!! Z.to_nat (fm_i1 (m_in s)) !!! k = None.
Proof.
  intros HF Hw Hi E. assert (Hwlp : wlp do_exit (fun _ t => FILES t /\ closed t (Z.to_nat (fm_i1 (m_in s)))) s).
  { apply do_exit_ok; [done|lia|]. intros b t HFt Hc. split; [done|by apply Hc]. }
  unfold wlp in Hwlp. rewrite E in Hwlp. exact Hwlp.
Qed.
End files.


(** ** A run: process 2 creates a file and duplicates the descriptor. *)
Definition scene_end : option (fst_ (store * list fanswer)) :=
  match fs_init scene_origins (scene_start [creat_msg 2 a_path; dup_msg 2 0]) with
  | Done _ s0 =>
      match get_work s0, main_step s0 with
      | Done _ g0, Done _ s1 =>
          match get_work s1, main_step s1 with
          | Done _ g1, Done _ s2 => if (fwho g0 =? 2) && (fs_call g0 =? 8) && (fwho g1 =? 2) && (fs_call g1 =? 41) then Some s2 else None
          | _, _ => None
          end
      | _, _ => None
      end
  | _ => None
  end.
Lemma scene_serving s : scene_end = Some s -> serving scene_origins s.
Proof.
  unfold scene_end. destruct (fs_init _ _) as [[] s0|? ?|] eqn:E0; [|done..]. intros E.
  assert (S0 : serving scene_origins s0) by (eapply (Started _ _ s0); [|exact E0]; by split).
  destruct (get_work s0) as [[] g0|? ?|] eqn:G0; [|done..]. destruct (main_step s0) as [[] s1|? ?|] eqn:E1; [|done..].
  destruct (get_work s1) as [[] g1|? ?|] eqn:G1; [|done..]. destruct (main_step s1) as [[] s2|? ?|] eqn:E2; [|done..].
  destruct ((fwho g0 =? 2) && _ && _ && _) eqn:C; [|done]. injection E as <-.
  apply andb_true_iff in C as [C C4]. apply andb_true_iff in C as [C C3]. apply andb_true_iff in C as [C1 C2].
  apply Z.eqb_eq in C1, C2, C3, C4.
  assert (S1 : serving scene_origins s1).
  { apply (Served _ s0 g0); [done..| |done]. split; rewrite ?C1, ?C2; unfold MM_PROC_NR, FPROCS; (lia || (intros; lia)). }
  apply (Served _ s1 g1); [done..| |done]. split; rewrite ?C3, ?C4; unfold MM_PROC_NR, FPROCS; (lia || (intros; lia)).
Qed.
Lemma scene_ends : exists s, scene_end = Some s /\ fds s !!! 2%nat !!! 0%nat = Some 0%nat /\ fds s !!! 2%nat !!! 1%nat = Some 0%nat /\ counts s !!! 0%nat = 2.
Proof.
  assert (C : match scene_end with Some s => (fds s !!! 2%nat !!! 0%nat, fds s !!! 2%nat !!! 1%nat, counts s !!! 0%nat) | None => (None, None, 0) end = (Some 0%nat, Some 0%nat, 2))
    by (vm_compute; reflexivity).
  destruct scene_end as [s|]; [|discriminate C]. injection C as C1 C2 C3. by exists s.
Qed.
Lemma descriptors_counted_witness : exists s, serving scene_origins s /\ counts s !!! 0%nat = 2 /\ files_ok (fds s) (counts s).
Proof.
  destruct scene_ends as (s & E & _ & _ & Ec). exists s. pose proof (scene_serving s E) as Hs.
  split; [exact Hs|split; [exact Ec|exact (proj1 (descriptors_counted scene_origins s Hs))]].
Defined.
(** MM reports that process 2 exits. *)
Definition exit_asked (s : fst_ (store * list fanswer)) : fst_ (store * list fanswer) := s <| fwho := 0 |> <| m_in := mk_fmsg 2 0 0 0 0 0 0 [] |>.
Lemma exit_closes_all_witness : exists s a s', files_ok (fds s) (counts s) /\ fds s !!! 2%nat !!! 1%nat = Some 0%nat /\
  do_exit s = Done a s' /\ fds s' !!! 2%nat !!! 1%nat = None.
Proof.
  assert (C : match scene_end with
    | Some s => match do_exit (exit_asked s) with Done _ _ => true | _ => false end
    | None => false end = true) by (vm_compute; reflexivity).
  destruct scene_ends as (s & E & _ & E1 & _). rewrite E in C. pose proof (serving_FILES scene_origins s (scene_serving s E)) as HF.
  destruct (do_exit (exit_asked s)) as [a s'|? ?|] eqn:Ex; [|discriminate C..].
  exists (exit_asked s), a, s'. split; [exact HF|split; [exact E1|split; [exact Ex|]]].
  refine (proj2 (exit_closes_all (exit_asked s) a s' HF _ _ Ex) 1%nat _); [reflexivity|cbn; unfold FPROCS; lia|unfold open_max, OPEN_MAX; lia].
Defined.

